(* ===== verification/_CoqProject ===== *)
-Q . S2P
Prelude.v
GoStrings.v
GoTime.v
GoUrl.v
GoPath.v
Origin.v
Domain.v
Scheduler.v
Base64.v
Secrets.v
KeyFile.v
Auth.v
Json.v
Redaction.v
Logging.v
Database.v
Lifecycle.v
JobStore.v
Samples.v
JobInvariants.v
EventStore.v
JobOperations.v
JobHistory.v
JobLemmas.v
ResourceStore.v
ProfileStore.v
SettingsStore.v
AccountStore.v
AccountInvariants.v
ResourceInvariants.v
SystemInvariants.v
System.v
SystemHistory.v
SystemSamples.v
SealedSecrets.v
RunProperties.v
JobProperties.v
Otp.v
OtpProperties.v
Hub.v
HubProperties.v
ActionProc.v
ActionSession.v
Coordinator.v
CoordinatorInvariants.v
CoordinatorProperties.v
BookingQueue.v
BookingProperties.v
Netip.v
Egress.v
EgressProperties.v
HttpGuard.v
BlueBubbles.v
Twilio.v
ProviderProperties.v
Worker.v
WorkerProperties.v
Pairing.v
PairingProperties.v
Execution.v
ExecutionProperties.v
ApprovalProperties.v
Config.v
ControlPlane.v
Storage.v
StorageProperties.v
Isolation.v
AtomicityProperties.v
Views.v
Http.v
Stream.v
StreamProperties.v
Web.v
WebAuth.v
WebResources.v
WebServer.v
WebLemmas.v
WebProperties.v
ThrottleProperties.v
PageProperties.v
