(* ===== verification/Prelude.v ===== *)
(** * Lake Pass Bot: a verification library of the Go control plane

    Lake Pass Bot books free day-use passes of two lakes on the Yodel booking site the
    moment they are released.  A Go control plane keeps accounts, sign-ins, one-time-code
    sources and jobs in SQLite, starts one browser process per job, passes it one-time
    codes and approvals, and shows everything on a web site.  This library translates the
    control plane (packages under src/internal) and proves what makes it correct.

    ** How the program's parts interact

    The web site and the command line queue jobs in the store ([JobStore]).  The worker
    ([Worker]) claims the first due job, loads and checks its inputs, and runs it through
    the coordinator ([Coordinator]), the protocol loop between the browser process
    ([ActionProc]), the code provider ([BlueBubbles], [Twilio], both under the egress
    policy of [Egress]) and the live hub ([Hub]) at which people approve and cancel.  Four
    hooks of the loop write the store ([Execution]); the last of them durably marks the
    confirmation before the browser may click.  When the run ends the worker settles the
    job.  The files a run leaves are measured against budgets and cleaned up ([Storage]).
    The web server ([Web], [WebAuth], [WebResources], [WebServer]) takes a request through
    the boundary of the configuration ([Config]), the session, the form and the role checks
    to a handler, which calls the store and the engine on behalf of one account; what a page
    shows is made from the rows it read ([Views]), and a job is followed over an event stream
    ([Stream]).

    Around this, a process reads its flags and configuration, opens the master key
    ([KeyFile]), checks it against the stored secrets and migrates the database
    ([Lifecycle]), and takes the lock of its data directory; only then does it recover the
    jobs a predecessor left and start its workers.  Several processes on one directory,
    their deaths and all calls of the store are interleaved in [ControlPlane].  What is
    logged passes the redaction of [Logging].

    ** Conventions

    A Go error is a value of [error]; a pair [(value, error)] is a [result]; an operation on
    the database is a state-and-result computation [ST] over the record of all tables, in
    which a failed statement changes nothing and a transaction restores the state.  A table
    is a finite map by key.  Instants and durations are numbers of nanoseconds; machine
    integers are [Z] with their ranges written out where the code can reach them.  Strings
    are bytes.  Clock readings, random bytes and password work slots are arguments.
    Cryptography, Unicode case folding, the time zone database, the network, the resolver
    and the browser process are parameters, classes or arguments, with their documented
    laws as hypotheses where a theorem needs them.  The standard library functions the
    code calls are translated.

    ** Files, in dependency order

    - Prelude: errors, the result and state monads, generic lemmas.
    - GoStrings, GoTime, GoUrl, GoPath, Base64, Json, Netip: the parts of Go's
      standard library the program uses.
    - Origin, Domain, Scheduler: internal/origin and internal/destinations, internal/model,
      internal/scheduler.
    - Secrets, KeyFile, Auth: internal/crypto, the envelope and the file of the key, and
      internal/auth.
    - Redaction, Logging: the sanitisers of internal/store/job_events.go and of
      internal/observability/logging.go.
    - Database: tables, constraints, triggers and statements of the SQLite schema.
    - Lifecycle: opening, checking, locking and migrating the database file
      (internal/store/store.go, internal/lockfile); SealedSecrets: that what the store sealed
      passes the check of the next start.
    - JobStore, EventStore, ResourceStore, ProfileStore, SettingsStore, AccountStore: the
      operations of internal/store, one definition each.
    - JobInvariants, JobOperations, JobHistory, JobLemmas: the invariant [jobs_inv] of the job
      tables, the interfaces [job_calm] and [job_stable] through which every operation is
      shown to keep a property of them (the first for properties only ended rows may leave),
      the relation [evolves] between two states of the history, and what single statements
      leave.
    - AccountInvariants, ResourceInvariants, SystemInvariants, System, SystemHistory: the
      same for all other operations, the type of every call that writes the database and its
      runs from the empty database.
    - Samples, SystemSamples: concrete states for the witnesses.
    - RunProperties, JobProperties: theorems on the store.
    - Otp, OtpProperties; Hub, HubProperties: internal/otp/otp.go, internal/control/hub.go.
    - ActionProc, ActionSession: the frames and the life of a child process, its goroutines
      as a step relation (internal/actionproc/process.go); Coordinator, CoordinatorInvariants,
      CoordinatorProperties: internal/control/coordinator.go.
    - BookingQueue, BookingProperties: the times of bookings in internal/engine.
    - Egress, EgressProperties; HttpGuard, BlueBubbles, Twilio, ProviderProperties:
      internal/egress and the two providers of internal/otp.
    - Worker, WorkerProperties, Execution, ExecutionProperties, ApprovalProperties:
      internal/engine/engine.go and the composition of a run with store and hub.
    - Pairing, PairingProperties: the construction of providers and the supervised pairing
      of internal/engine/providers.go.
    - Config: internal/config.
    - ControlPlane: the command line (cmd/lake-pass-bot), the loop of the workers and the
      processes on one data directory as a labelled step relation.
    - Storage, StorageProperties: internal/engine/storage.go and
      storage_budget.go over a file system that is a parameter.
    - Isolation, AtomicityProperties: what store calls leave as it was: calls that
      read, the rows of other accounts, everything after an error.
    - Views: what pages show: labels, jobs, visits, connections, cards, forms and notices, as
      functions of the rows (the pure part of jobs.go, dashboard.go, bookings.go, forms.go,
      lake_connections.go, sources.go, lakes.go, settings.go, profiles.go, quick_booking.go,
      notices.go and response.go in internal/web).
    - Http, Web, WebAuth, WebResources, WebServer: internal/web, from the request to the
      answer: requests, answers, the admission of streams and the monad of handlers, the
      boundary and the sessions, the handlers, the table of routes and the pages that
      replace plain errors.
    - Stream, StreamProperties: the event stream of a job (jobs.go, streams.go).
    - WebLemmas, WebProperties, ThrottleProperties, PageProperties: the theorems on requests
      and on what pages show.

    ** What the theorems show

    - No double booking ([no_double_booking], [confirmed_booking_never_repeated],
      [active_lanes_are_exclusive], [booking_admission]): over every run of the store, whatever
      its arguments and clocks, two jobs that are or may be booked never share a sign-in and
      a date, a date stays taken once a confirmation may have happened, and a sign-in or a
      phone number has one active worker.
    - Job life cycle ([job_history_is_legal], [transition_resolves_the_outcome],
      [outcome_agrees_with_confirmation], [confirmation_begins_only_when_allowed],
      [accepted_cancellation_excludes_confirmation], [recovery_leaves_no_active_job], ...).
    - Several processes ([running_jobs_are_left_alone], [one_control_plane_works]): on one
      data directory, whichever processes start, fail or die, only the owner of the lock
      works, no two workers have one job, and nobody takes a running job from its worker.
    - Start-up ([key_is_published_whole], [later_starts_have_the_same_key],
      [repeated_starts_migrate_once], [wrong_key_changes_nothing],
      [undisturbed_start_completes], [own_key_always_opens]): against any interruption and any
      rival the key is never lost nor half written, every migration runs once and in order,
      a start keeps the rows it finds, and the key that sealed the store opens it.
    - The child process ([frames_arrive_in_order], [cancelled_sessions_end]): its frames come
      in order, and a cancelled session ends with its process group killed.
    - The protocol of a run ([every_run_is_a_conversation], a refinement of a trace
      specification, [run_outcome_is_conservative], [approval_needs_a_decision],
      [provided_codes_come_from_the_provider], [run_ends_with_its_process]).
    - The composition ([click_follows_the_durable_mark], [approval_sent_was_recorded],
      [claimed_job_is_settled]: what the row of an ended job says): in every interleaving of
      a run with the other users of store
      and hub, the browser clicks only after the row carries the mark, and an approval it
      receives is the one the store recorded.
    - Codes ([Match_takes_exactly], [codes_are_newer_than_the_arm],
      [polls_read_the_whole_window], [polls_reach_back_to_the_cursor]).
    - The web server, over every route: [changes_need_authority] (session, form token,
      origin and role before any change), [requests_stay_in_their_account] (tenants are
      isolated: nobody changes the rows or the sessions of another),
      [answers_show_own_rows_only] (and nobody reads them: a non-interference theorem over the
      whole contents of the pages), [guesses_are_bounded],
      [answers_stay_on_the_site], [error_pages_tell_no_diagnostic].
    - What is shown: [connected_means_verified], [upcoming_visits_exactly]; the event stream
      of a job ([stream_shows_every_event], [stream_ends_with_its_session],
      [streams_are_bounded]).
    - Errors: [failed_calls_leave_no_trace], over every call that writes the database.
    - Pairing ([pairing_is_queued_once], [supervised_code_was_chosen]).
    - Files ([storage_walk_ends], [storage_walk_measures_the_tree],
      [cleanup_removes_exactly_orphans]) and configuration
      ([loaded_configuration_is_well_formed]).
    - Boundaries ([sockets_stay_in_the_policy], [addresses_are_classified_by_range],
      [Decrypt_Encrypt], [VerifyPassword_HashPassword], [redactKnownText_hides],
      [no_standalone_code_is_logged]).
    - Times ([window_total_and_ordered], [booking_starts_inside_its_window],
      [queued_booking_times], [lake_booking_times_are_admitted], [execution_is_bounded]).

    ** Bounds and fuel

    The JSON parser, the splitting of strings and the digit printers run on fuel equal to the
    length of their input, of which every step consumes a byte.  Retention deletes at most as
    many rows as the table holds.  The polls of a provider take a number of polls after which
    the caller's context has ended; [None] is a wait that has not ended.  A run of the
    coordinator is a list of events; [run_ends_with_its_process] says what it still waits
    for.  A hub section that would block is [None]; [hub_never_blocks] excludes it.  A walk
    over a directory runs on two more steps than the entries it may visit;
    [storage_walk_ends] shows that it never runs out.  The batches of an event stream run on
    fuel; [stream_batches_end] shows that a hundredth of the highest event id is enough.  The
    passes over a diagnostic run on its length; [no_standalone_code_is_logged] shows that the
    last of them changes nothing.  A cancelled session of a child ends within the steps that
    [cancelled_sessions_end] counts.

    ** Not modelled

    The SQL engine below the statements (a script of a migration is a partial function on
    the contents of the database), the file system and the kernel below the calls that
    KeyFile, Lifecycle, Storage and ActionSession make of them, the decoding of HTTP bytes
    and the rendering of pages (a page is its name, what every page carries, the problem it
    shows and its data with the fields of its forms; the fixed headings of the lists and the
    build shown are left out), the static client, the logging
    of requests, what the commands print, strings the linker sets, data for tests, and the
    Python browser actions: input and output, or another language. Requests are served one
    after another, as the store serialises their transactions; the scheduling of goroutines
    elsewhere is an arbitrary order of atomic steps (critical sections, transactions,
    channel operations); data races are not modelled. *)

From stdpp Require Export base option list gmap strings sorting.
From Stdlib Require Export ZArith Lia.

#[global] Set Default Proof Using "Type".

(** ** Go errors

    A Go [error] is a sentinel compared by identity, a message made on the spot
    ([errors.New], [fmt.Errorf] without [%w]) or a message that wraps another
    error ([fmt.Errorf] with [%w]). *)

Inductive sentinel :=
  | ErrNotFound | ErrConflict | ErrResourceLimit
  | ErrTransitionConflict | ErrDecisionConflict | ErrUserRequired
  | ErrProtectedAdmin | ErrSetupComplete | ErrSetupRequired
  | ErrMemberMustBeDisabled | ErrMemberDeleteConfirmation | ErrMemberHasActiveJobs
  | ErrPasswordUnchanged | ErrBusy | ErrYodelPhoneRequired
  | ErrLakeConnectionRequired | ErrLakeConnectionAmbiguous | ErrLakeConnectionUnavailable
  | ErrBookingNotReleased | ErrBookingDatePassed | ErrBookingWindowEnded
  | ErrExecutionBudget | ErrUserCancelled | ErrArtifactLimit
  | ErrFootprintLimit | ErrProfileLimit | ErrProfileInspection | ErrNotExist | ErrExist
  | ErrDecisionNotPending | ErrDecisionAlreadySet
  | ErrPairingNotPending | ErrPairingAlreadySet
  | ErrPairingProfileRequired | ErrPairingProfileDisabled
  | ErrPairingProfileInvalid | ErrPairingProfileAmbiguous
  | ErrPollWindowExceeded | ErrDenied | ErrLocked | ErrUnversionedDatabase | ErrKeyMismatch
  | IoEOF | NotDirectory | TooManyLinks | ErrNetworkSettingsUnavailable | ErrNoCookie
  | ErrFrameTooLarge | ErrMalformedFrame | ErrUnsupportedVersion | ErrProcessAlreadyEnded
  | ContextCanceled | ContextDeadlineExceeded.

#[global] Instance sentinel_eq_dec : EqDecision sentinel.
Proof. solve_decision. Defined.

Inductive error :=
  | Sentinel (s : sentinel)
  | Errorf (msg : string)
  | Wrap (msg : string) (inner : error)
  | Join (e1 e2 : error).

#[global] Instance error_eq_dec : EqDecision error.
Proof. solve_decision. Defined.

(** [errors.Is]: [ErrResourceLimit] is declared as a wrapper of [ErrConflict]. *)
Fixpoint errors_is (e : error) (target : sentinel) : bool :=
  match e with
  | Sentinel s =>
      bool_decide (s = target)
      || (bool_decide (s = ErrResourceLimit) && bool_decide (target = ErrConflict))
  | Errorf _ => false
  | Wrap _ inner => errors_is inner target
  | Join e1 e2 => errors_is e1 target || errors_is e2 target
  end.

(** ** The result monad: Go's [(value, error)] pairs *)

Inductive result (A : Type) :=
  | Ok (a : A)
  | Err (e : error).
Arguments Ok {_} _.
Arguments Err {_} _.

#[global] Instance result_ret : MRet result := λ A a, Ok a.
#[global] Instance result_bind : MBind result := λ A B f m,
  match m with Ok a => f a | Err e => Err e end.

Definition is_ok {A} (r : result A) : bool :=
  match r with Ok _ => true | Err _ => false end.

(** [reject b e]: the early return [if b { return e }]. *)
Definition reject (b : bool) (e : error) : result unit :=
  if b then Err e else Ok tt.

Definition of_option {A} (e : error) (o : option A) : result A :=
  match o with Some a => Ok a | None => Err e end.

Definition is_some {A} (o : option A) : bool := match o with Some _ => true | None => false end.

(** [first_error rs]: the first failing check of a list, as a chain of early
    returns gives it. *)
Definition checks (rs : list (result unit)) : result unit :=
  foldr (λ r k, match r with Ok _ => k | Err e => Err e end) (Ok tt) rs.

Section result_lemmas.
Context {A B : Type}.

Lemma result_bind_Ok (m : result A) (f : A → result B) b :
  m ≫= f = Ok b ↔ ∃ a, m = Ok a ∧ f a = Ok b.
Proof.
  destruct m as [a|e]; simpl; unfold mbind, result_bind; split.
  - eauto.
  - by intros (? & [= ->] & ?).
  - done.
  - by intros (? & ? & _).
Qed.

Lemma result_bind_Err (m : result A) (f : A → result B) e :
  m ≫= f = Err e ↔ m = Err e ∨ ∃ a, m = Ok a ∧ f a = Err e.
Proof.
  destruct m as [a|e']; unfold mbind, result_bind; split; [eauto| | |]; naive_solver.
Qed.

Lemma reject_Ok b e u : reject b e = Ok u ↔ b = false.
Proof. destruct b, u; simpl; naive_solver. Qed.

Lemma reject_Err b e e' : reject b e = Err e' ↔ b = true ∧ e' = e.
Proof. destruct b; simpl; naive_solver. Qed.

Lemma of_option_Ok e (o : option A) a : of_option e o = Ok a ↔ o = Some a.
Proof. destruct o; simpl; naive_solver. Qed.
End result_lemmas.

Lemma checks_Ok rs u : checks rs = Ok u ↔ Forall (λ r, r = Ok tt) rs.
Proof.
  destruct u. induction rs as [|[[]|e] rs IH]; simpl.
  - split; [constructor | done].
  - rewrite IH. split; [by constructor | by inversion 1].
  - split; [done | by inversion 1].
Qed.

(** ** The state-and-error monad: a store operation

    The state is always returned: a statement that committed before a later
    statement failed keeps its effect.  [atomically] is a transaction (or one SQL
    statement): on an error the state is the one it started from. *)

Definition ST (S A : Type) : Type := S → S * result A.

#[global] Instance ST_ret {S} : MRet (ST S) := λ A a s, (s, Ok a).
#[global] Instance ST_bind {S} : MBind (ST S) := λ A B f m s,
  match m s with
  | (s', Ok a) => f a s'
  | (s', Err e) => (s', Err e)
  end.

Definition fail {S A} (e : error) : ST S A := λ s, (s, Err e).
Definition lift {S A} (r : result A) : ST S A := λ s, (s, r).
Definition gets {S A} (f : S → A) : ST S A := λ s, (s, Ok (f s)).
Definition modify {S} (f : S → S) : ST S unit := λ s, (f s, Ok tt).
Definition st_reject {S} (b : bool) (e : error) : ST S unit := lift (reject b e).
Definition atomically {S A} (m : ST S A) : ST S A := λ s,
  match m s with
  | (s', Ok a) => (s', Ok a)
  | (_, Err e) => (s, Err e)
  end.

(** A call whose error goes through [f] before it is returned. *)
Definition map_err {S A} (f : error → error) (m : ST S A) : ST S A := λ s,
  match m s with (s', Err e) => (s', Err (f e)) | other => other end.
(** The outcome of a call as a value, for code that looks at the error. *)
Definition attempt {S A} (m : ST S A) : ST S (result A) := λ s, let '(s, r) := m s in (s, Ok r).

Section st_lemmas.
Context {S A B : Type}.

Lemma ST_bind_Ok (m : ST S A) (f : A → ST S B) s s' b :
  (m ≫= f) s = (s', Ok b) ↔
  ∃ s1 a, m s = (s1, Ok a) ∧ f a s1 = (s', Ok b).
Proof.
  unfold mbind, ST_bind. destruct (m s) as [s1 [a|e]]; naive_solver.
Qed.

Lemma ST_bind_unfold (m : ST S A) (f : A → ST S B) s :
  (m ≫= f) s =
    match m s with (s', Ok a) => f a s' | (s', Err e) => (s', Err e) end.
Proof. done. Qed.

Lemma lift_Ok (r : result A) (s s' : S) a :
  lift r s = (s', Ok a) ↔ s' = s ∧ r = Ok a.
Proof. unfold lift. naive_solver. Qed.

Lemma gets_Ok (f : S → A) s s' a :
  gets f s = (s', Ok a) ↔ s' = s ∧ a = f s.
Proof. unfold gets. naive_solver. Qed.

Lemma atomically_Ok (m : ST S A) s s' a :
  atomically m s = (s', Ok a) ↔ m s = (s', Ok a).
Proof. unfold atomically. destruct (m s) as [? [?|?]]; naive_solver. Qed.

(** A transaction that fails leaves the state as it was. *)
Lemma atomically_Err (m : ST S A) s s' e :
  atomically m s = (s', Err e) → s' = s.
Proof. unfold atomically. destruct (m s) as [? [?|?]]; naive_solver. Qed.
End st_lemmas.

Lemma modify_Ok {S} (f : S → S) s s' u : modify f s = (s', Ok u) ↔ s' = f s.
Proof. destruct u. unfold modify. naive_solver. Qed.

Lemma st_reject_Ok {S} b e (s s' : S) u :
  st_reject b e s = (s', Ok u) ↔ s' = s ∧ b = false.
Proof. unfold st_reject. rewrite lift_Ok, reject_Ok. done. Qed.

(** ** Pre- and postconditions *)

(** Started where [P] holds, the program ends where [Q] holds of its result. *)
Definition triple {S A} (P : S → Prop) (m : ST S A) (Q : result A → S → Prop) : Prop :=
  ∀ s, P s → Q (m s).2 (m s).1.

Section triples.
Context {S : Type}.
Implicit Types (P : S → Prop).

Lemma triple_weaken {A} P P' (m : ST S A) (Q Q' : result A → S → Prop) :
  triple P m Q → (∀ s, P' s → P s) → (∀ r s, Q r s → Q' r s) → triple P' m Q'.
Proof. intros Hm Hp Hq s Hs. auto. Qed.
Lemma triple_pure {A} (φ : Prop) P (m : ST S A) (Q : result A → S → Prop) :
  (∀ s, P s → φ) → (φ → triple P m Q) → triple P m Q.
Proof. intros Hφ Hm s Hp. apply Hm; [by eapply Hφ|done]. Qed.
Lemma triple_lift {A} P (r : result A) (Q : result A → S → Prop) :
  (∀ s, P s → Q r s) → triple P (lift r) Q.
Proof. intros Hq s. apply Hq. Qed.
Lemma triple_ret {A} P (a : A) (Q : result A → S → Prop) : (∀ s, P s → Q (Ok a) s) → triple P (mret a) Q.
Proof. apply triple_lift. Qed.
Lemma triple_fail {A} P e (Q : result A → S → Prop) : (∀ s, P s → Q (Err e) s) → triple P (fail e) Q.
Proof. apply triple_lift. Qed.
Lemma triple_bind {A B} P (m : ST S A) (f : A → ST S B) (R : result A → S → Prop) (Q : result B → S → Prop) :
  triple P m R → (∀ a, triple (R (Ok a)) (f a) Q) → (∀ e s, R (Err e) s → Q (Err e) s) → triple P (m ≫= f) Q.
Proof.
  intros Hm Hf He s Hp. rewrite ST_bind_unfold. specialize (Hm s Hp).
  destruct (m s) as [s' [a|e]]; simpl in *; [by apply Hf|auto].
Qed.
(** The first step's result is known. *)
Lemma triple_known {A B} P P' (m : ST S A) (f : A → ST S B) (a : A) (Q : result B → S → Prop) :
  triple P m (λ r s, P' s ∧ r = Ok a) → triple P' (f a) Q → triple P (m ≫= f) Q.
Proof.
  intros Hm Hf. eapply triple_bind; [done| |by intros ? ? [_ ?]].
  intros a' s [Hs [= ->]]. by apply Hf.
Qed.
Lemma triple_attempt {A} P (m : ST S A) (Q : result (result A) → S → Prop) :
  triple P m (λ r, Q (Ok r)) → triple P (attempt m) Q.
Proof. intros Hm s Hp. specialize (Hm s Hp). unfold attempt. by destruct (m s). Qed.
Lemma triple_map_err {A} P f (m : ST S A) (Q : result A → S → Prop) :
  triple P m (λ r, Q (match r with Ok a => Ok a | Err e => Err (f e) end)) → triple P (map_err f m) Q.
Proof. intros Hm s Hp. specialize (Hm s Hp). unfold map_err. by destruct (m s) as [? [?|?]]. Qed.
Lemma triple_reject P b e (Q : result unit → S → Prop) :
  (b = true → ∀ s, P s → Q (Err e) s) → (b = false → ∀ s, P s → Q (Ok tt) s) → triple P (st_reject b e) Q.
Proof. intros Ht Hf. apply triple_lift. intros s Hs. destruct b; simpl; auto. Qed.
Lemma triple_if {A} P (b : bool) (m1 m2 : ST S A) (Q : result A → S → Prop) :
  (b = true → triple P m1 Q) → (b = false → triple P m2 Q) → triple P (if b then m1 else m2) Q.
Proof. destruct b; auto. Qed.
End triples.

(** ** Invariants of store operations *)

Definition preserves {S A} (I : S → Prop) (m : ST S A) : Prop :=
  ∀ s, I s → I (m s).1.

Section preserves.
Context {S : Type} (I : S → Prop).

Lemma preserves_ret {A} (a : A) : preserves I (mret a).
Proof. by intros s. Qed.

Lemma preserves_bind {A B} (m : ST S A) (f : A → ST S B) :
  preserves I m → (∀ a, preserves I (f a)) → preserves I (m ≫= f).
Proof.
  intros Hm Hf s Hs. rewrite ST_bind_unfold. specialize (Hm s Hs).
  destruct (m s) as [s1 [a|e]]; simpl in *; [by apply Hf | done].
Qed.

(** The same at one state, where the first step's result is known. *)
Lemma bind_inv_at {A B} (m : ST S A) (f : A → ST S B) s :
  I (m s).1 → (∀ s1 a, m s = (s1, Ok a) → I s1 → I (f a s1).1) → I ((m ≫= f) s).1.
Proof.
  intros Hm Hf. rewrite ST_bind_unfold. destruct (m s) as [s1 [a|e]]; simpl in *; auto.
Qed.

Lemma preserves_lift {A} (r : result A) : preserves I (lift r).
Proof. by intros s. Qed.
Lemma preserves_fail {A} e : preserves I (fail (A:=A) e).
Proof. by intros s. Qed.
Lemma preserves_gets {A} (f : S → A) : preserves I (gets f).
Proof. by intros s. Qed.
Lemma preserves_reject b e : preserves I (st_reject b e).
Proof. by intros s. Qed.
Lemma preserves_modify f : (∀ s, I s → I (f s)) → preserves I (modify f).
Proof. intros Hf s Hs. by apply Hf. Qed.
Lemma preserves_if {A} (b : bool) (m1 m2 : ST S A) :
  preserves I m1 → preserves I m2 → preserves I (if b then m1 else m2).
Proof. by destruct b. Qed.

Lemma preserves_atomically {A} (m : ST S A) :
  preserves I m → preserves I (atomically m).
Proof.
  intros Hm s Hs. specialize (Hm s Hs). unfold atomically.
  by destruct (m s) as [s1 [a|e]].
Qed.

(** A transaction is judged by the states it commits. *)
Lemma atomically_inv_at {A} (m : ST S A) s :
  I s → (∀ s' a, m s = (s', Ok a) → I s') → I (atomically m s).1.
Proof. intros Hs Hm. unfold atomically. destruct (m s) as [s' [a|e]]; [by eapply Hm|done]. Qed.
End preserves.

Create HintDb preserves.
#[export] Hint Resolve preserves_ret preserves_lift preserves_fail preserves_gets
  preserves_reject preserves_if preserves_atomically : preserves.
#[export] Hint Resolve preserves_bind : preserves.

(** ** Tactics *)

(** [inv_ok] turns a successful run of a monadic program in the context into the
    equations of its steps. *)
Ltac inv_ok :=
  repeat match goal with
  | H : _ ∧ _ |- _ => destruct H
  | H : ∃ _, _ |- _ => destruct H
  | H : (_ ≫= _) = Ok _ |- _ => apply result_bind_Ok in H
  | H : (_ ≫= _) _ = (_, Ok _) |- _ => apply ST_bind_Ok in H
  | H : lift _ _ = (_, Ok _) |- _ => apply lift_Ok in H
  | H : gets _ _ = (_, Ok _) |- _ => apply gets_Ok in H
  | H : modify _ _ = (_, Ok _) |- _ => apply modify_Ok in H
  | H : st_reject _ _ _ = (_, Ok _) |- _ => apply st_reject_Ok in H
  | H : atomically _ _ = (_, Ok _) |- _ => apply (proj1 (atomically_Ok _ _ _ _)) in H
  | H : reject _ _ = Ok _ |- _ => apply reject_Ok in H
  | H : of_option _ _ = Ok _ |- _ => apply of_option_Ok in H
  | H : fail _ _ = (_, Ok _) |- _ => discriminate H
  | H : mret _ = Ok _ |- _ => injection H as H
  | H : mret _ _ = (_, Ok _) |- _ => injection H as H
  | H : Ok _ = Ok _ |- _ => injection H as H
  | H : Err _ = Ok _ |- _ => discriminate H
  | _ => progress simplify_eq
  end.

(** [inv_opt] does the same for a chain of optional steps. *)
Ltac inv_opt :=
  repeat match goal with
  | H : (_ ≫= _) = Some _ |- _ => apply bind_Some in H as (? & ? & ?)
  | H : (let '(_, _) := ?p in _) = Some _ |- _ => destruct p; simpl in H
  | H : (if ?b then _ else _) = Some _ |- _ => destruct b eqn:?; simplify_eq
  | _ => progress simplify_eq
  end.

(** [bool_to_prop] reads the boolean tests of the code as propositions. *)
Ltac bool_to_prop :=
  repeat match goal with
  | H : _ && _ = true |- _ => apply andb_true_iff in H as [? ?]
  | H : _ || _ = false |- _ => apply orb_false_iff in H as [? ?]
  | H : negb _ = true |- _ => apply negb_true_iff in H
  | H : negb _ = false |- _ => apply negb_false_iff in H
  | H : bool_decide _ = true |- _ => apply bool_decide_eq_true in H
  | H : bool_decide _ = false |- _ => apply bool_decide_eq_false in H
  | H : (_ <? _)%Z = true |- _ => apply Z.ltb_lt in H
  | H : (_ <? _)%Z = false |- _ => apply Z.ltb_ge in H
  | H : (_ <=? _)%Z = true |- _ => apply Z.leb_le in H
  | H : (_ <=? _)%Z = false |- _ => apply Z.leb_gt in H
  | H : (_ =? _)%Z = true |- _ => apply Z.eqb_eq in H
  | H : (_ =? _)%Z = false |- _ => apply Z.eqb_neq in H
  end.

(** ** Booleans, lists and finite maps *)

Lemma filter_length_le {A} (P : A → Prop) `{!∀ x, Decision (P x)} (l : list A) :
  length (filter P l) ≤ length l.
Proof. apply length_filter. Qed.

Lemma list_filter_false {A} (P : A → Prop) `{!∀ x, Decision (P x)} (l : list A) :
  (∀ x, x ∈ l → ¬ P x) → filter P l = [].
Proof.
  induction l as [|x l IH]; intros Hf; [done|].
  rewrite filter_cons_False by (apply Hf; left). apply IH.
  intros y Hy. apply Hf. by right.
Qed.

(** Number of entries of a finite map that satisfy a test. *)
Definition count_map `{Countable K} {A} (p : A → bool) (m : gmap K A) : nat :=
  length (filter (λ kv : K * A, p kv.2 = true) (map_to_list m)).

Section count_map.
Context `{Countable K} {A : Type} (p : A → bool).
Implicit Types m : gmap K A.

Lemma count_map_insert_fresh m k a :
  m !! k = None →
  count_map p (<[k:=a]> m) = (if p a then 1 else 0) + count_map p m.
Proof.
  intros Hk. unfold count_map. rewrite map_to_list_insert by done.
  rewrite filter_cons; simpl. case_decide; destruct (p a); simpl; congruence || done.
Qed.

Lemma count_map_delete m k a :
  m !! k = Some a →
  count_map p m = (if p a then 1 else 0) + count_map p (delete k m).
Proof.
  intros Hk. rewrite <- (insert_delete_id m k a Hk) at 1.
  apply count_map_insert_fresh. apply lookup_delete_eq.
Qed.

Lemma count_map_delete_le m k : count_map p (delete k m) ≤ count_map p m.
Proof.
  destruct (m !! k) as [a|] eqn:Hk.
  - rewrite (count_map_delete m k a Hk). lia.
  - by rewrite delete_id.
Qed.

Lemma count_map_insert m k a b :
  m !! k = Some a →
  count_map p (<[k:=b]> m) + (if p a then 1 else 0)
  = count_map p m + (if p b then 1 else 0).
Proof.
  intros Hk. rewrite (count_map_delete m k a Hk).
  rewrite <- insert_delete_eq. rewrite count_map_insert_fresh by apply lookup_delete_eq. lia.
Qed.

Lemma count_map_subseteq m1 m2 : m1 ⊆ m2 → count_map p m1 ≤ count_map p m2.
Proof.
  intros Hsub. apply map_to_list_submseteq in Hsub. unfold count_map.
  apply submseteq_length. induction Hsub as [|z l1 l2 _ IH|y z l|z l1 l2 _ IH|]; [done|..].
  - rewrite !filter_cons. case_decide; [by apply submseteq_skip|done].
  - rewrite !filter_cons. repeat case_decide; try done. apply submseteq_swap.
  - rewrite filter_cons. case_decide; [by apply submseteq_cons|done].
  - by etrans.
Qed.

(** The entries counted are at most as many as the keys they can have. *)
Lemma count_map_keys m (l : list K) :
  (∀ k a, m !! k = Some a → p a = true → k ∈ l) → count_map p m ≤ length l.
Proof.
  intros Hin. unfold count_map.
  rewrite <- (length_fmap fst). apply submseteq_length, NoDup_submseteq.
  - pose proof (NoDup_fst_map_to_list m) as Hnd. revert Hnd. generalize (map_to_list m) as ml.
    induction ml as [|[k a] ml IH]; simpl; [done|]. intros [Hk Hnd]%NoDup_cons.
    rewrite filter_cons. case_decide; simpl; [|by apply IH]. apply NoDup_cons. split; [|by apply IH].
    intros Hk'. apply Hk. apply list_elem_of_fmap in Hk' as (kv & -> & Hkv).
    apply list_elem_of_filter in Hkv as [_ Hkv]. apply list_elem_of_fmap. eauto.
  - intros k Hk. apply list_elem_of_fmap in Hk as ([k' a] & -> & Hka).
    apply list_elem_of_filter in Hka as [Hp Hka]. apply elem_of_map_to_list in Hka. eauto.
Qed.

Lemma count_map_zero m :
  count_map p m = 0 ↔ map_Forall (λ _ a, p a = false) m.
Proof.
  unfold count_map. rewrite length_zero_iff_nil.
  split.
  - intros Hnil k a Hk. destruct (p a) eqn:Hp; [|done].
    assert ((k, a) ∈ filter (λ kv : K * A, p kv.2 = true) (map_to_list m)) as Hin.
    { apply list_elem_of_filter. split; [done|]. by apply elem_of_map_to_list. }
    rewrite Hnil in Hin. by apply not_elem_of_nil in Hin.
  - intros Hall. apply list_filter_false. intros [k a] Hin Hp. simpl in Hp.
    apply elem_of_map_to_list in Hin. by rewrite (Hall k a Hin) in Hp.
Qed.
End count_map.
