(* ===== verification/GoStrings.v ===== *)
(** * Go strings

    A Go [string] is a sequence of bytes, a [string] of the standard library here.
    The functions of package [strings] and [strconv] the program calls, with the
    behaviour the program relies on.  [TrimSpace] knows every UTF-8 white space
    sequence; [ToLower] maps ASCII letters and the two other runes whose lower case
    is ASCII (U+212A and U+0130), and keeps the other bytes. *)

From S2P Require Import Prelude.
From Stdlib Require Import Ascii String.

Open Scope string_scope.

Definition byte (n : nat) : ascii := ascii_of_nat n.
Definition len (s : string) : Z := Z.of_nat (String.length s).

(** A string of the given byte codes. *)
Definition bytes (l : list nat) : string :=
  foldr (λ n s, String (byte n) s) EmptyString l.

Section bytes_tests.
Implicit Types c : ascii.

Definition in_range (lo hi : nat) c : bool :=
  (lo <=? nat_of_ascii c)%nat && (nat_of_ascii c <=? hi)%nat.
Definition is_digit c := in_range 48 57 c.
Definition is_lower c := in_range 97 122 c.
Definition is_upper c := in_range 65 90 c.
Definition is_alpha c := is_lower c || is_upper c.
Definition is_alnum c := is_alpha c || is_digit c.
Definition is_hex c := is_digit c || in_range 97 102 c || in_range 65 70 c.
Definition is_ctl c := in_range 0 31 c || Ascii.eqb c (byte 127).
(** The value of a digit. *)
Definition digit_value c : Z := Z.of_nat (nat_of_ascii c) - 48.
Definition lower_byte c : ascii :=
  if is_upper c then byte (nat_of_ascii c + 32) else c.
End bytes_tests.

(** ** Tests, search and cutting *)

Fixpoint all_bytes (p : ascii → bool) (s : string) : bool :=
  match s with EmptyString => true | String c s' => p c && all_bytes p s' end.
Definition any_byte (p : ascii → bool) (s : string) : bool :=
  negb (all_bytes (λ c, negb (p c)) s).

(** [strings.CutPrefix] *)
Fixpoint cut_prefix (p s : string) : option string :=
  match p, s with
  | EmptyString, _ => Some s
  | String c p', String d s' => if Ascii.eqb c d then cut_prefix p' s' else None
  | String _ _, EmptyString => None
  end.
Definition has_prefix (s p : string) : bool :=
  match cut_prefix p s with Some _ => true | None => false end.

Fixpoint rev_onto (s acc : string) : string :=
  match s with EmptyString => acc | String c s' => rev_onto s' (String c acc) end.
Definition rev_string (s : string) : string := rev_onto s EmptyString.

Definition has_suffix (s p : string) : bool := has_prefix (rev_string s) (rev_string p).
(** [strings.TrimSuffix] *)
Definition trim_suffix (s p : string) : string :=
  match cut_prefix (rev_string p) (rev_string s) with
  | Some r => rev_string r
  | None => s
  end.

(** [strings.Cut] on the first occurrence of a separator. *)
Fixpoint cut (sep s : string) : option (string * string) :=
  match cut_prefix sep s with
  | Some rest => Some (EmptyString, rest)
  | None =>
      match s with
      | EmptyString => None
      | String c s' =>
          match cut sep s' with
          | Some (before, after) => Some (String c before, after)
          | None => None
          end
      end
  end.
Definition cut_before (sep s : string) : string :=
  match cut sep s with Some (b, _) => b | None => s end.
Definition cut_after (sep s : string) : string :=
  match cut sep s with Some (_, a) => a | None => EmptyString end.
(** [strings.Contains] *)
Definition contains (s sub : string) : bool :=
  match cut sub s with Some _ => true | None => false end.

(** Cutting at the last occurrence of a byte ([strings.LastIndexByte]). *)
Definition cut_last (c : ascii) (s : string) : option (string * string) :=
  match cut (String c EmptyString) (rev_string s) with
  | Some (a, b) => Some (rev_string b, rev_string a)
  | None => None
  end.

Fixpoint count_byte (c : ascii) (s : string) : nat :=
  match s with
  | EmptyString => O
  | String d s' => (if Ascii.eqb c d then 1 else 0) + count_byte c s'
  end.

(** [strings.ContainsAny] for ASCII characters. *)
Definition contains_any (s chars : string) : bool :=
  any_byte (λ c, any_byte (Ascii.eqb c) chars) s.

(** [strings.Split] on a one-byte separator. *)
Fixpoint split_byte (sep : ascii) (s : string) : list string :=
  match s with
  | EmptyString => [EmptyString]
  | String c s' =>
      if Ascii.eqb c sep then EmptyString :: split_byte sep s'
      else match split_byte sep s' with
           | [] => [String c EmptyString]
           | h :: t => String c h :: t
           end
  end.

(** [strings.Join] *)
Fixpoint join (sep : string) (l : list string) : string :=
  match l with
  | [] => EmptyString
  | [x] => x
  | x :: l' => x +:+ sep +:+ join sep l'
  end.

(** [strings.ReplaceAll] of one byte by a string. *)
Fixpoint replace_byte (c : ascii) (by_ s : string) : string :=
  match s with
  | EmptyString => EmptyString
  | String d s' =>
      if Ascii.eqb c d then by_ +:+ replace_byte c by_ s' else String d (replace_byte c by_ s')
  end.

(** [strings.TrimRight] for one byte. *)
Fixpoint drop_byte (c : ascii) (s : string) : string :=
  match s with
  | EmptyString => EmptyString
  | String d s' => if Ascii.eqb c d then drop_byte c s' else s
  end.
Definition trim_right_byte (c : ascii) (s : string) : string :=
  rev_string (drop_byte c (rev_string s)).

(** ** White space ([unicode.IsSpace]) *)

Definition space_sequences : list string :=
  map (λ n, bytes [n]) [9; 10; 11; 12; 13; 32] ++
  [bytes [194; 133]; bytes [194; 160]; bytes [225; 154; 128]] ++
  map (λ n, bytes [226; 128; n]) [128; 129; 130; 131; 132; 133; 134; 135; 136; 137; 138; 168; 169; 175] ++
  [bytes [226; 129; 159]; bytes [227; 128; 128]].

Definition strip_one (seqs : list string) (s : string) : option string :=
  foldr (λ p k, match cut_prefix p s with Some r => Some r | None => k end) None seqs.

(** Strips leading sequences; the length of the string bounds the steps, since
    every sequence is at least one byte. *)
Fixpoint strip_all (fuel : nat) (seqs : list string) (s : string) : string :=
  match fuel with
  | O => s
  | S fuel =>
      match strip_one seqs s with
      | Some r => strip_all fuel seqs r
      | None => s
      end
  end.
Definition trim_left_space (s : string) : string :=
  strip_all (String.length s) space_sequences s.
Definition trim_right_space (s : string) : string :=
  rev_string (strip_all (String.length s) (map rev_string space_sequences) (rev_string s)).
(** [strings.TrimSpace] *)
Definition trim_space (s : string) : string := trim_right_space (trim_left_space s).
(** [strings.TrimSpace(s) == ""] *)
Definition blank (s : string) : bool := String.eqb (trim_space s) EmptyString.

(** ** Case *)

Fixpoint to_lower (s : string) : string :=
  match s with
  | EmptyString => EmptyString
  | String c s' =>
      match nat_of_ascii c, s' with
      | 226, String d (String e s'') =>
          if Ascii.eqb d (byte 132) && Ascii.eqb e (byte 170)
          then String (byte 107) (to_lower s'')
          else String c (to_lower s')
      | 196, String d s'' =>
          if Ascii.eqb d (byte 176)
          then String (byte 105) (to_lower s'') else String c (to_lower s')
      | _, _ => String (lower_byte c) (to_lower s')
      end
  end.

(** [strings.EqualFold] on ASCII operands. *)
Definition equal_fold (s t : string) : bool := String.eqb (to_lower s) (to_lower t).

(** ** UTF-8 *)

Definition utf8_cont (c : ascii) : bool := in_range 128 191 c.
(** [utf8.RuneStart] *)
Definition rune_start (c : ascii) : bool := negb (utf8_cont c).

(** The byte length of the valid rune at the head of a string, if there is one
    ([utf8.DecodeRune]; an invalid sequence has width one). *)
Definition rune_width (s : string) : option nat :=
  match s with
  | EmptyString => None
  | String a s1 =>
      let n := nat_of_ascii a in
      if (n <? 128)%nat then Some 1%nat
      else match s1 with
      | String b s2 =>
          if (194 <=? n)%nat && (n <=? 223)%nat then (if utf8_cont b then Some 2%nat else None)
          else match s2 with
          | String c s3 =>
              let ok2 := if (n =? 224)%nat then in_range 160 191 b
                         else if (n =? 237)%nat then in_range 128 159 b else utf8_cont b in
              if (224 <=? n)%nat && (n <=? 239)%nat
              then (if ok2 && utf8_cont c then Some 3%nat else None)
              else match s3 with
              | String d _ =>
                  let ok4 := if (n =? 240)%nat then in_range 144 191 b
                             else if (n =? 244)%nat then in_range 128 143 b else utf8_cont b in
                  if (240 <=? n)%nat && (n <=? 244)%nat && ok4 && utf8_cont c && utf8_cont d
                  then Some 4%nat else None
              | EmptyString => None
              end
          | EmptyString => None
          end
      | EmptyString => None
      end
  end.

Definition take_bytes (n : nat) (s : string) : string := substring 0 n s.
Fixpoint drop_bytes (n : nat) (s : string) : string :=
  match n, s with S n, String _ s' => drop_bytes n s' | _, _ => s end.

(** [strings.ToValidUTF8(s, "\uFFFD")]: a run of invalid bytes becomes one
    replacement character; [fuel] is the length of the string. *)
Definition replacement_char : string := bytes [239; 191; 189].
Fixpoint to_valid_utf8_from (fuel : nat) (invalid : bool) (s : string) : string :=
  match fuel, s with
  | S fuel, String c s' =>
      match rune_width s with
      | Some w => take_bytes w s +:+ to_valid_utf8_from fuel false (drop_bytes w s)
      | None => (if invalid then EmptyString else replacement_char)
                +:+ to_valid_utf8_from fuel true s'
      end
  | _, _ => EmptyString
  end.
Definition to_valid_utf8 (s : string) : string := to_valid_utf8_from (String.length s) false s.

(** Cuts at the last rune boundary that is not after [limit]. *)
Fixpoint cut_at_rune (limit : nat) (s : string) : string :=
  match String.get limit s, limit with
  | Some c, S l => if rune_start c then take_bytes limit s else cut_at_rune l s
  | _, _ => take_bytes limit s
  end.

(** ** Numbers *)

(** The value of a non-empty run of decimal digits. *)
Fixpoint digits_onto (acc : Z) (s : string) : option Z :=
  match s with
  | EmptyString => Some acc
  | String c s' => if is_digit c then digits_onto (acc * 10 + digit_value c) s' else None
  end.
Definition parse_digits (s : string) : option Z :=
  match s with EmptyString => None | _ => digits_onto 0 s end.

(** [strconv.ParseUint(s, 10, bits)]: an out-of-range value is an error. *)
Definition parse_uint (bits : Z) (s : string) : option Z :=
  v ← parse_digits s; if (v <? 2 ^ bits)%Z then Some v else None.

(** [strconv.ParseInt(s, 10, 64)] *)
Definition parse_int64 (s : string) : option Z :=
  match s with
  | String c s' =>
      let go (neg : bool) (d : string) :=
        v ← parse_digits d;
        if neg then (if (v <=? 2 ^ 63)%Z then Some (- v)%Z else None)
        else (if (v <? 2 ^ 63)%Z then Some v else None) in
      if Ascii.eqb c (byte 45) then go true s'
      else if Ascii.eqb c (byte 43) then go false s'
      else go false s
  | EmptyString => None
  end.

(** [strconv.FormatInt(v, 10)]; a 64-bit value has at most 19 digits. *)
Fixpoint format_digits (fuel : nat) (v : Z) (acc : string) : string :=
  match fuel with
  | O => acc
  | S fuel =>
      let acc' := String (byte (48 + Z.to_nat (v mod 10))) acc in
      if (v <? 10)%Z then acc' else format_digits fuel (v / 10) acc'
  end.
Definition format_nat (v : Z) : string := format_digits 20 v EmptyString.
Definition format_int (v : Z) : string :=
  if (v <? 0)%Z then String (byte 45) (format_nat (- v)) else format_nat v.

(** [%q] of a string of printable ASCII characters other than the quote and the
    backslash, which are the only ones it leaves as they are. *)
Definition quote : string := bytes [34].
Definition quoted (s : string) : string := quote +:+ s +:+ quote.

(** ** Lemmas *)

Lemma append_cons c s t : String c s +:+ t = String c (s +:+ t).
Proof. done. Qed.
Lemma take_drop_bytes n s : take_bytes n s +:+ drop_bytes n s = s.
Proof.
  unfold take_bytes. revert s. induction n as [|n IH]; intros [|c s]; try done.
  cbn [substring drop_bytes]. by rewrite append_cons, IH.
Qed.
Lemma append_nil_l s : EmptyString +:+ s = s.
Proof. done. Qed.

Lemma has_prefix_app p s : has_prefix (p +:+ s) p = true.
Proof.
  unfold has_prefix. induction p as [|c p IH]; [done|].
  rewrite append_cons; simpl. by rewrite Ascii.eqb_refl.
Qed.

Lemma cut_prefix_Some p s r : cut_prefix p s = Some r ↔ s = p +:+ r.
Proof.
  revert s. induction p as [|c p IH]; intros s.
  - rewrite append_nil_l. simpl. naive_solver.
  - rewrite append_cons. destruct s as [|d s]; simpl; [naive_solver|].
    destruct (Ascii.eqb_spec c d) as [->|Hne]; [rewrite IH|]; naive_solver.
Qed.

Lemma all_bytes_app p s t : all_bytes p (s +:+ t) = all_bytes p s && all_bytes p t.
Proof.
  induction s as [|c s IH]; [done|].
  rewrite append_cons; simpl. by rewrite IH, andb_assoc.
Qed.

(** What [format_int] writes reads back, so two 64-bit numbers never share a text. *)
Lemma digit_read n : (0 <= n < 10)%Z →
  is_digit (byte (48 + Z.to_nat n)) = true ∧ digit_value (byte (48 + Z.to_nat n)) = n.
Proof.
  intros Hn. assert (n = 0 ∨ n = 1 ∨ n = 2 ∨ n = 3 ∨ n = 4 ∨ n = 5 ∨ n = 6 ∨ n = 7 ∨ n = 8 ∨ n = 9)%Z as Hc by lia.
  destruct_or! Hc; subst; by split; vm_compute.
Qed.
Lemma format_digits_read fuel v : (0 <= v < 10 ^ Z.of_nat fuel)%Z →
  ∃ k, (0 <= k)%Z ∧ ∀ a acc, digits_onto a (format_digits fuel v acc) = digits_onto (a * 10 ^ k + v) acc.
Proof.
  revert v. induction fuel as [|fuel IH]; intros v Hv.
  - exists 0%Z. split; [done|]. intros a acc. simpl in *. f_equal. lia.
  - rewrite Nat2Z.inj_succ, Z.pow_succ_r in Hv by lia. cbn [format_digits].
    destruct (digit_read (v mod 10)) as [Hd Hval]; [apply Z.mod_pos_bound; lia|].
    pose proof (Z.div_mod v 10). destruct (Z.ltb_spec v 10) as [Hlt|Hge].
    + exists 1%Z. split; [done|]. intros a acc. cbn [digits_onto]. rewrite Hd, Hval, Z.mod_small by lia. f_equal.
    + destruct (IH (v / 10)%Z) as (k & Hk & Hread).
      { split; [apply Z.div_pos; lia|apply Z.div_lt_upper_bound; lia]. }
      exists (k + 1)%Z. split; [lia|]. intros a acc. rewrite Hread. cbn [digits_onto]. rewrite Hd, Hval.
      f_equal. rewrite Z.pow_add_r, Z.pow_1_r by lia. nia.
Qed.
Lemma format_digits_head fuel v acc : is_Some (String.get 0 acc) ∨ (0 < fuel)%nat →
  (∀ c, String.get 0 acc = Some c → is_digit c = true) →
  ∃ c t, format_digits fuel v acc = String c t ∧ is_digit c = true.
Proof.
  revert v acc. induction fuel as [|fuel IH]; intros v acc Hs Hd.
  - destruct Hs as [[c Hc]|]; [|lia]. destruct acc as [|c' t]; [done|]. simpl in *. eauto.
  - cbn [format_digits]. destruct (digit_read (v mod 10)) as [Hdig _]; [apply Z.mod_pos_bound; lia|].
    destruct (v <? 10)%Z; [by eexists _, _|]. apply IH; [left; by eexists|]. by intros c [= <-].
Qed.
Definition int64 (v : Z) : Prop := (- 2 ^ 63 <= v < 2 ^ 63)%Z.
Lemma format_nat_read v : (0 <= v < 10 ^ 20)%Z → parse_digits (format_nat v) = Some v.
Proof.
  intros Hv. destruct (format_digits_read 20 v Hv) as (k & _ & Hread).
  destruct (format_digits_head 20 v EmptyString) as (c & t & Heq & _); [right; lia|done|].
  specialize (Hread 0%Z EmptyString). unfold format_nat in *. rewrite Heq in *. exact Hread.
Qed.
Lemma parse_format_int v : int64 v → parse_int64 (format_int v) = Some v.
Proof.
  unfold int64, format_int. intros Hv. destruct (Z.ltb_spec v 0) as [Hneg|Hpos].
  - unfold parse_int64. rewrite Ascii.eqb_refl, format_nat_read by lia. cbn [mbind option_bind].
    rewrite (proj2 (Z.leb_le _ _)) by lia. f_equal. lia.
  - pose proof (format_nat_read v ltac:(lia)) as Hr.
    destruct (format_digits_head 20 v EmptyString) as (c & t & Heq & Hc); [right; lia|done|].
    unfold format_nat in *. rewrite Heq in *. unfold parse_int64.
    destruct (Ascii.eqb_spec c (byte 45)) as [->|_]; [done|]. destruct (Ascii.eqb_spec c (byte 43)) as [->|_]; [done|].
    rewrite Hr. cbn [mbind option_bind]. by rewrite (proj2 (Z.ltb_lt _ _)) by lia.
Qed.
Lemma format_int_inj v w : int64 v → int64 w → format_int v = format_int w → v = w.
Proof. intros Hv%parse_format_int Hw%parse_format_int Heq. rewrite Heq in Hv. congruence. Qed.

Lemma trim_space_empty : trim_space EmptyString = EmptyString.
Proof. reflexivity. Qed.

Example trim_space_unicode :
  trim_space (bytes [32; 194; 160; 9; 97; 32; 98; 227; 128; 128; 10]) = "a b".
Proof. reflexivity. Qed.

(** Text without white space is its own trimming. *)
Definition plain_byte (c : ascii) : bool := in_range 33 127 c.
Lemma plain_starts c s : plain_byte c = true →
  strip_one space_sequences (String c s) = None ∧ strip_one (map rev_string space_sequences) (String c s) = None.
Proof. destruct c as [[] [] [] [] [] [] [] []]; intros Hc; try (vm_compute in Hc; discriminate Hc); split; vm_compute; reflexivity. Qed.
Lemma strip_all_plain fuel seqs s :
  (∀ c t, s = String c t → strip_one seqs s = None) → s ≠ EmptyString → strip_all fuel seqs s = s.
Proof. intros Hs Hne. destruct fuel; [done|]. destruct s as [|c t]; [done|]. cbn [strip_all]. by rewrite (Hs c t eq_refl). Qed.
Lemma rev_onto_bytes p s acc : all_bytes p (rev_onto s acc) = all_bytes p s && all_bytes p acc.
Proof.
  revert acc. induction s as [|c s IH]; intros acc; [done|]. cbn [rev_onto all_bytes]. rewrite IH. cbn [all_bytes].
  by rewrite andb_assoc, (andb_comm (all_bytes p s)).
Qed.
Lemma rev_onto_onto s acc acc' : rev_onto (rev_onto s acc) acc' = rev_onto acc (s +:+ acc').
Proof. revert acc. induction s as [|c s IH]; intros acc; [done|]. cbn [rev_onto]. by rewrite IH. Qed.
Lemma append_nil_r s : s +:+ EmptyString = s.
Proof. induction s as [|c s IH]; [done|]. by rewrite append_cons, IH. Qed.
Lemma rev_string_rev s : rev_string (rev_string s) = s.
Proof. unfold rev_string. rewrite rev_onto_onto. simpl. apply append_nil_r. Qed.
Lemma trim_space_plain s : all_bytes plain_byte s = true → trim_space s = s.
Proof.
  intros Hs. destruct s as [|c t]; [done|]. unfold trim_space, trim_left_space.
  rewrite (strip_all_plain _ _ (String c t)); [|intros c' t' [= <- <-]|done].
  2: { apply plain_starts. by apply andb_true_iff in Hs as [? _]. }
  unfold trim_right_space. rewrite strip_all_plain; [apply rev_string_rev| |].
  - intros d u Hr. rewrite Hr. apply plain_starts.
    assert (all_bytes plain_byte (rev_string (String c t)) = true) as Hrev
      by (unfold rev_string; by rewrite rev_onto_bytes, Hs).
    rewrite Hr in Hrev. by apply andb_true_iff in Hrev as [? _].
  - intros Hr. by apply (f_equal rev_string) in Hr; rewrite rev_string_rev in Hr.
Qed.
Lemma format_digits_plain fuel v acc : all_bytes plain_byte acc = true → all_bytes plain_byte (format_digits fuel v acc) = true.
Proof.
  revert v acc. induction fuel as [|fuel IH]; intros v acc Hacc; [done|]. cbn [format_digits].
  assert (all_bytes plain_byte (String (byte (48 + Z.to_nat (v mod 10))) acc) = true) as Hnew.
  { cbn [all_bytes]. rewrite Hacc. pose proof (Z.mod_pos_bound v 10 ltac:(lia)).
    assert (v mod 10 = 0 ∨ v mod 10 = 1 ∨ v mod 10 = 2 ∨ v mod 10 = 3 ∨ v mod 10 = 4 ∨ v mod 10 = 5 ∨ v mod 10 = 6
      ∨ v mod 10 = 7 ∨ v mod 10 = 8 ∨ v mod 10 = 9)%Z as Hc by lia. destruct_or! Hc; by rewrite Hc. }
  destruct (v <? 10)%Z; [done|]. by apply IH.
Qed.
Lemma format_int_plain v : all_bytes plain_byte (format_int v) = true.
Proof. unfold format_int, format_nat. destruct (v <? 0)%Z; [cbn [all_bytes]; apply andb_true_iff; split; [done|]|]; by apply format_digits_plain. Qed.

(** ** The order of strings *)

Lemma string_leb_trans a b c : String.leb a b = true → String.leb b c = true → String.leb a c = true.
Proof.
  unfold String.leb. revert b c. induction a as [|x a IH]; intros [|y b] [|z c]; simpl; try done.
  unfold Ascii.compare. destruct (N.compare_spec (N_of_ascii x) (N_of_ascii y)) as [Hxy|Hxy|Hxy]; [| |done];
    destruct (N.compare_spec (N_of_ascii y) (N_of_ascii z)) as [Hyz|Hyz|Hyz]; try done;
    destruct (N.compare_spec (N_of_ascii x) (N_of_ascii z)) as [Hxz|Hxz|Hxz]; try done; try lia. apply IH.
Qed.
Lemma string_ltb_leb a b : String.ltb a b = false ↔ String.leb b a = true.
Proof. unfold String.ltb, String.leb. rewrite (String.compare_antisym b a). by destruct (String.compare a b). Qed.
