(* ===== verification/GoTime.v ===== *)
(** * Go times

    An instant is a number of nanoseconds since the Unix epoch; a [time.Duration]
    is a number of nanoseconds.  A [Location] is given by its lookup function, from
    a Unix second to the offset in force and the bounds of its period, which is all
    package [time] uses of it.  The time zone database is outside the program: the
    class [TimeZoneDB] stands for it.  The second part reads instants from text. *)

From S2P Require Import Prelude GoStrings.
From Stdlib Require Import Ascii String.

Open Scope Z_scope.

(** ** Machine integers and durations *)

Definition wrap64 (z : Z) : Z := (z + 2 ^ 63) mod 2 ^ 64 - 2 ^ 63.
Definition max_int64 : Z := 2 ^ 63 - 1.
Definition min_int64 : Z := - 2 ^ 63.

Lemma wrap64_id z : min_int64 <= z <= max_int64 → wrap64 z = z.
Proof.
  unfold wrap64, min_int64, max_int64. intros Hz. rewrite Z.mod_small; lia.
Qed.

Definition Time : Type := Z.
Definition Duration : Type := Z.

Definition Nanosecond : Duration := 1.
Definition Millisecond : Duration := 1000000.
Definition Second : Duration := 1000000000.
Definition Minute : Duration := 60 * Second.
Definition Hour : Duration := 60 * Minute.

(** [a * b] on durations, at 64 bits. *)
Definition dur_mul (a b : Z) : Duration := wrap64 (a * b).
(** [Time.Add] and [Time.Sub]; [Sub] saturates. *)
Definition Add (t : Time) (d : Duration) : Time := t + d.
Definition Sub (t u : Time) : Duration := Z.max min_int64 (Z.min max_int64 (t - u)).
Definition Before (t u : Time) : bool := t <? u.
Definition After (t u : Time) : bool := u <? t.

(** January 1, year 1, 00:00:00 UTC. *)
Definition zero_time : Time := -62135596800 * Second.
Definition IsZero (t : Time) : bool := t =? zero_time.
Definition unix_sec (t : Time) : Z := t / Second.

(** ** The proleptic Gregorian calendar *)

Definition is_leap (y : Z) : bool :=
  (y mod 4 =? 0) && (negb (y mod 100 =? 0) || (y mod 400 =? 0)).
Definition days_in (m y : Z) : Z :=
  if m =? 2 then (if is_leap y then 29 else 28)
  else if (m =? 4) || (m =? 6) || (m =? 9) || (m =? 11) then 30 else 31.

(** Days since March 1, year 0, with the year counted from March. *)
Definition march_days (y mp d : Z) : Z :=
  365 * y + y / 4 - y / 100 + y / 400 + (153 * mp + 2) / 5 + (d - 1).
(** Day number, day 0 being January 1, 1970. *)
Definition days_from_civil (y m d : Z) : Z :=
  (if m <=? 2 then march_days (y - 1) (m + 9) d else march_days y (m - 3) d) - 719468.

Record civil := Civil { c_year : Z; c_month : Z; c_day : Z }.

Definition civil_from_days (n : Z) : civil :=
  let z := n + 719468 in
  let era := z / 146097 in
  let doe := z mod 146097 in
  let c := Z.min 3 (doe / 36524) in
  let r1 := doe - 36524 * c in
  let q := r1 / 1461 in
  let r2 := r1 - 1461 * q in
  let yy := Z.min 3 (r2 / 365) in
  let doy := r2 - 365 * yy in
  let mp := (5 * doy + 2) / 153 in
  let d := doy - (153 * mp + 2) / 5 + 1 in
  let y := 400 * era + 100 * c + 4 * q + yy in
  if mp <? 10 then Civil y (mp + 3) d else Civil (y + 1) (mp - 9) d.

Lemma march_days_step y mp d : march_days y mp d = march_days y mp 1 + (d - 1).
Proof. unfold march_days. lia. Qed.

Lemma days_from_civil_day y m d : days_from_civil y m d = days_from_civil y m 1 + (d - 1).
Proof.
  unfold days_from_civil. destruct (m <=? 2); rewrite (march_days_step _ _ d); lia.
Qed.

Lemma march_year_days era c q yy :
  0 <= c <= 3 → 0 <= q <= 24 → 0 <= yy <= 3 →
  let y := 400 * era + 100 * c + 4 * q + yy in
  365 * y + y / 4 - y / 100 + y / 400 = 146097 * era + 36524 * c + 1461 * q + 365 * yy.
Proof.
  intros Hc Hq Hy y.
  assert (y / 4 = 100 * era + 25 * c + q) by (subst y; symmetry; apply Z.div_unique with yy; lia).
  assert (y / 100 = 4 * era + c) by (subst y; symmetry; apply Z.div_unique with (4 * q + yy); lia).
  assert (y / 400 = era) by (subst y; symmetry; apply Z.div_unique with (100 * c + 4 * q + yy); lia).
  subst y. lia.
Qed.

(** Every day number is the day number of the date it stands for. *)
Lemma days_from_civil_from_days n :
  days_from_civil (c_year (civil_from_days n)) (c_month (civil_from_days n))
    (c_day (civil_from_days n)) = n.
Proof.
  unfold civil_from_days. cbv zeta.
  set (z := n + 719468). set (era := z / 146097). set (doe := z mod 146097).
  assert (Hz : z = 146097 * era + doe) by (apply Z.div_mod; lia).
  assert (Hdoe : 0 <= doe < 146097) by (apply Z.mod_pos_bound; lia).
  set (c := Z.min 3 (doe / 36524)).
  assert (Hc : 0 <= c <= 3 ∧ 36524 * c <= doe ∧ (c < 3 → doe < 36524 * (c + 1)))
    by (subst c; Z.to_euclidean_division_equations; lia).
  set (r1 := doe - 36524 * c). set (q := r1 / 1461).
  assert (Hq : 0 <= q <= 24 ∧ 1461 * q <= r1 < 1461 * (q + 1))
    by (subst q r1; Z.to_euclidean_division_equations; lia).
  set (r2 := r1 - 1461 * q). set (yy := Z.min 3 (r2 / 365)).
  assert (Hy : 0 <= yy <= 3 ∧ 365 * yy <= r2 ∧ r2 - 365 * yy <= 365)
    by (subst yy r2; Z.to_euclidean_division_equations; lia).
  set (doy := r2 - 365 * yy).
  pose proof (march_year_days era c q yy ltac:(lia) ltac:(lia) ltac:(lia)) as Hd.
  cbv zeta in Hd.
  set (mp := (5 * doy + 2) / 153).
  assert (Hmp : 0 <= mp <= 11) by (subst mp doy; Z.to_euclidean_division_equations; lia).
  unfold days_from_civil, march_days.
  destruct (Z.ltb_spec mp 10); cbn [c_year c_month c_day].
  - destruct (Z.leb_spec (mp + 3) 2); [lia|]. replace (mp + 3 - 3) with mp by lia. lia.
  - destruct (Z.leb_spec (mp - 9) 2); [|lia].
    replace (mp - 9 + 9) with mp by lia.
    replace (400 * era + 100 * c + 4 * q + yy + 1 - 1) with (400 * era + 100 * c + 4 * q + yy) by lia.
    lia.
Qed.

Definition valid_civil (c : civil) : bool :=
  (1 <=? c_month c) && (c_month c <=? 12)
  && (1 <=? c_day c) && (c_day c <=? days_in (c_month c) (c_year c)).

(** A month and day as the day of a year that starts in March. *)
Lemma march_month mp d len :
  0 <= mp <= 11 → 1 <= d <= len →
  len = (if mp =? 11 then 29 else if (mp =? 1) || (mp =? 3) || (mp =? 6) || (mp =? 8) then 30 else 31) →
  let doy := (153 * mp + 2) / 5 + (d - 1) in
  0 <= doy <= 365 ∧ (5 * doy + 2) / 153 = mp ∧ (doy = 365 → mp = 11 ∧ d = 29).
Proof.
  intros Hmp Hd Hlen doy.
  assert (mp = 0 ∨ mp = 1 ∨ mp = 2 ∨ mp = 3 ∨ mp = 4 ∨ mp = 5 ∨ mp = 6 ∨ mp = 7
          ∨ mp = 8 ∨ mp = 9 ∨ mp = 10 ∨ mp = 11) as Hcases by lia.
  destruct_or! Hcases; subst mp; vm_compute in Hlen; subst len doy;
    repeat split; Z.to_euclidean_division_equations; lia.
Qed.

(** The day-of-era decomposition of a March-based date is unique. *)
Lemma civil_from_march y mp d :
  0 <= mp <= 11 → 1 <= d →
  let doy := (153 * mp + 2) / 5 + (d - 1) in
  0 <= doy <= 365 → (5 * doy + 2) / 153 = mp →
  (doy = 365 → is_leap (y + 1) = true) →
  civil_from_days (march_days y mp d - 719468) =
    (if mp <? 10 then Civil y (mp + 3) d else Civil (y + 1) (mp - 9) d).
Proof.
  intros Hmp Hd doy Hdoy Hback Hleap.
  set (era := y / 400). set (yoe := y mod 400).
  assert (Hy : y = 400 * era + yoe) by (apply Z.div_mod; lia).
  assert (Hyoe : 0 <= yoe < 400) by (apply Z.mod_pos_bound; lia).
  set (c := yoe / 100). set (q := (yoe mod 100) / 4). set (yy := yoe mod 4).
  assert (Hdec : yoe = 100 * c + 4 * q + yy ∧ 0 <= c <= 3 ∧ 0 <= q <= 24 ∧ 0 <= yy <= 3)
    by (subst c q yy; Z.to_euclidean_division_equations; lia).
  destruct Hdec as (Hdec & Hc & Hq & Hyy). clearbody c q yy yoe era.
  assert (Hlast : doy = 365 → yy = 3 ∧ (q = 24 → c = 3)).
  { intros Hd365. apply Hleap in Hd365. unfold is_leap in Hd365.
    rewrite Hy, Hdec in Hd365. clear -Hd365 Hc Hq Hyy.
    apply andb_true_iff in Hd365 as [H4 H100].
    apply Z.eqb_eq in H4. apply orb_true_iff in H100.
    assert (yy = 3) by (Z.to_euclidean_division_equations; lia). split; [done|].
    intros ->. destruct H100 as [H100|H400]; [|apply Z.eqb_eq in H400; Z.to_euclidean_division_equations; lia].
    apply negb_true_iff, Z.eqb_neq in H100. exfalso. apply H100. subst yy.
    replace (400 * era + (100 * c + 4 * 24 + 3) + 1) with ((4 * era + c + 1) * 100) by lia.
    apply Z.mod_mul. lia. }
  pose proof (march_year_days era c q yy Hc Hq Hyy) as Hdays. cbv zeta in Hdays.
  assert (Hdoydef : doy = (153 * mp + 2) / 5 + (d - 1)) by reflexivity. clearbody doy.
  unfold civil_from_days. cbv zeta.
  replace (march_days y mp d - 719468 + 719468) with (146097 * era + (36524 * c + 1461 * q + 365 * yy + doy)).
  2: { unfold march_days. rewrite Hy, Hdec.
       replace (400 * era + (100 * c + 4 * q + yy)) with (400 * era + 100 * c + 4 * q + yy) by lia.
       lia. }
  set (doe := 36524 * c + 1461 * q + 365 * yy + doy).
  assert (Hdoe : 0 <= doe < 146097) by lia.
  assert (Hera : (146097 * era + doe) / 146097 = era)
    by (symmetry; apply Z.div_unique with doe; lia).
  assert (Hmod : (146097 * era + doe) mod 146097 = doe)
    by (symmetry; apply Z.mod_unique with era; lia).
  rewrite Hera, Hmod.
  assert (Hcc : Z.min 3 (doe / 36524) = c)
    by (subst doe; Z.to_euclidean_division_equations; lia).
  rewrite Hcc.
  replace (doe - 36524 * c) with (1461 * q + (365 * yy + doy)) by lia.
  assert (Hqq : (1461 * q + (365 * yy + doy)) / 1461 = q)
    by (symmetry; apply Z.div_unique with (365 * yy + doy); lia).
  rewrite Hqq. replace (1461 * q + (365 * yy + doy) - 1461 * q) with (365 * yy + doy) by lia.
  assert (Hyyy : Z.min 3 ((365 * yy + doy) / 365) = yy)
    by (Z.to_euclidean_division_equations; lia).
  rewrite Hyyy. replace (365 * yy + doy - 365 * yy) with doy by lia.
  rewrite Hback. replace (doy - (153 * mp + 2) / 5 + 1) with d by lia.
  replace (400 * era + 100 * c + 4 * q + yy) with y by lia. done.
Qed.

Lemma civil_from_days_from_civil c :
  valid_civil c = true → civil_from_days (days_from_civil (c_year c) (c_month c) (c_day c)) = c.
Proof.
  destruct c as [y m d]. unfold valid_civil; simpl. intros Hv. bool_to_prop.
  unfold days_from_civil. destruct (Z.leb_spec m 2) as [Hm|Hm].
  - destruct (march_month (m + 9) d (if m + 9 =? 11 then 29 else 31)) as (Hb & Hback & Hlast).
    + lia.
    + assert (m = 1 ∨ m = 2) as [->| ->] by lia; simpl in *; [done|].
      unfold days_in in *. simpl in *. destruct (is_leap y); lia.
    + assert (m = 1 ∨ m = 2) as [->| ->] by lia; reflexivity.
    + rewrite (civil_from_march (y - 1) (m + 9) d); try lia.
      * destruct (Z.ltb_spec (m + 9) 10); [lia|]. f_equal; lia.
      * intros [Hm2 Hd2]%Hlast. replace (y - 1 + 1) with y by lia.
        assert (m = 2) as -> by lia. unfold days_in in *. simpl in *.
        destruct (is_leap y); [done|lia].
  - destruct (march_month (m - 3) d (days_in m y)) as (Hb & Hback & Hlast).
    + lia.
    + lia.
    + assert (m = 3 ∨ m = 4 ∨ m = 5 ∨ m = 6 ∨ m = 7 ∨ m = 8 ∨ m = 9 ∨ m = 10 ∨ m = 11 ∨ m = 12)
        as Hcases by lia. destruct_or! Hcases; subst m; reflexivity.
    + rewrite (civil_from_march y (m - 3) d); try lia.
      destruct (Z.ltb_spec (m - 3) 10); [|lia]. f_equal; lia.
Qed.

(** ** Locations *)

(** [lookup s] is the offset in force at the Unix second [s] and the half-open
    period in which it is in force. *)
Record zone_period := Period { zp_offset : Z; zp_start : Z; zp_end : Z }.
Record Location := MkLocation { loc_name : string; loc_lookup : Z → zone_period }.

Definition alpha_sec : Z := min_int64.
Definition omega_sec : Z := max_int64.
(** [time.FixedZone] *)
Definition FixedZone (name : string) (offset : Z) : Location :=
  MkLocation name (λ _, Period offset alpha_sec omega_sec).
Definition UTC : Location := FixedZone "UTC" 0.

Definition zone_offset (loc : Location) (t : Time) : Z :=
  zp_offset (loc_lookup loc (unix_sec t)).

(** The time zone database and the process's local zone; the abbreviation of a zone at a
    time is part of a label only. *)
Class TimeZoneDB := {
  tz_local : Location;
  tz_file : string → option Location;
  tz_abbreviation : Location → Time → string
}.

(** [time.LoadLocation] *)
Definition LoadLocation `{TimeZoneDB} (name : string) : result Location :=
  if String.eqb name "" || String.eqb name "UTC" then Ok UTC
  else if String.eqb name "Local" then Ok tz_local
  else if contains name ".." || has_prefix name "/" || has_prefix name (bytes [92%nat])
  then Err (Errorf "time: invalid location name")
  else match tz_file name with
       | Some loc => Ok loc
       | None => Err (Errorf ("unknown time zone " +:+ name))
       end.

(** The Unix second at which the clocks of [loc] show the second [unix]: the offset
    in force at [unix] taken as UTC, or the one in force at the result of using it
    when that result is outside the offset's period. *)
Definition wall_instant (loc : Location) (unix : Z) : Z :=
  let p := loc_lookup loc unix in
  if zp_offset p =? 0 then unix
  else
    let utc := unix - zp_offset p in
    if (utc <? zp_start p) || (zp_end p <=? utc)
    then unix - zp_offset (loc_lookup loc utc)
    else utc.

(** [time.Date], with the month and day normalised as the package does. *)
Definition Date (y m d hh mm ss ns : Z) (loc : Location) : Time :=
  let y' := y + (m - 1) / 12 in
  let m' := (m - 1) mod 12 + 1 in
  wall_instant loc
    (days_from_civil y' m' d * 86400 + hh * 3600 + mm * 60 + ss + ns / Second) * Second
  + ns mod Second.

(** The date and the clock of an instant in a location. *)
Definition local_sec (loc : Location) (t : Time) : Z := unix_sec t + zone_offset loc t.
Definition date_in (loc : Location) (t : Time) : civil :=
  civil_from_days (local_sec loc t / 86400).
Definition sec_of_day (loc : Location) (t : Time) : Z := local_sec loc t mod 86400.
Definition clock_hour (loc : Location) (t : Time) : Z := sec_of_day loc t / 3600.
Definition clock_minute (loc : Location) (t : Time) : Z := sec_of_day loc t mod 3600 / 60.
Definition clock_second (loc : Location) (t : Time) : Z := sec_of_day loc t mod 60.

(** [t.AddDate(years, months, days)] for a time in [loc]. *)
Definition AddDate (loc : Location) (t : Time) (years months days : Z) : Time :=
  let c := date_in loc t in
  Date (c_year c + years) (c_month c + months) (c_day c + days)
    (clock_hour loc t) (clock_minute loc t) (clock_second loc t) (t mod Second) loc.

(** ** Parsing and formatting *)

(** [getnum]: one or two digits, two when [fixed]. *)
Definition getnum (fixed : bool) (s : string) : option (Z * string) :=
  match s with
  | String a s1 =>
      if negb (is_digit a) then None
      else match s1 with
           | String b s2 =>
               if is_digit b then Some (digit_value a * 10 + digit_value b, s2)
               else if fixed then None else Some (digit_value a, s1)
           | EmptyString => if fixed then None else Some (digit_value a, EmptyString)
           end
  | EmptyString => None
  end.

Definition parse_date (s : string) : option civil :=
  match s with
  | String a (String b (String c (String d s1))) =>
      y ← parse_digits (String a (String b (String c (String d EmptyString))));
      s2 ← cut_prefix "-" s1;
      '(m, s3) ← getnum true s2;
      s4 ← cut_prefix "-" s3;
      '(dd, s5) ← getnum true s4;
      if String.eqb s5 "" && valid_civil (Civil y m dd) then Some (Civil y m dd) else None
  | _ => None
  end.

(** [time.ParseInLocation(time.DateOnly, s, loc)] *)
Definition ParseDateOnly (s : string) (loc : Location) : result Time :=
  match parse_date s with
  | Some c => Ok (Date (c_year c) (c_month c) (c_day c) 0 0 0 0 loc)
  | None => Err (Errorf "parsing time")
  end.

(** [time.Parse("15:04", s)]: hour and minute.  The layout's hour takes one digit
    as well as two. *)
Definition ParseClock (s : string) : result (Z * Z) :=
  let go :=
    '(h, s1) ← getnum false s;
    s2 ← (if h <? 24 then cut_prefix ":" s1 else None);
    '(m, s3) ← getnum true s2;
    if String.eqb s3 "" && (m <? 60) then Some (h, m) else None in
  of_option (Errorf "parsing time") go.

Definition pad (width : nat) (v : Z) : string :=
  let s := format_nat v in
  foldr (λ _ acc, String "0" acc) s (seq 0%nat (width - String.length s)%nat).
(** A year may be negative or have more than four digits. *)
Definition format_date (c : civil) : string :=
  (if c_year c <? 0 then "-" +:+ pad 4 (- c_year c) else pad 4 (c_year c))
  +:+ "-" +:+ pad 2 (c_month c) +:+ "-" +:+ pad 2 (c_day c).
(** [t.In(loc).Format(time.DateOnly)] *)
Definition FormatDateOnly (loc : Location) (t : Time) : string := format_date (date_in loc t).

Definition format_offset (off : Z) : string :=
  if off =? 0 then "Z"
  else let z := Z.abs off / 60 in
       (if off <? 0 then "-" else "+") +:+ pad 2 (z / 60) +:+ ":" +:+ pad 2 (z mod 60).
Definition format_seconds (loc : Location) (t : Time) : string :=
  format_date (date_in loc t) +:+ "T" +:+ pad 2 (clock_hour loc t) +:+ ":"
  +:+ pad 2 (clock_minute loc t) +:+ ":" +:+ pad 2 (clock_second loc t).
(** [t.In(loc).Format(time.RFC3339)] *)
Definition FormatRFC3339 (loc : Location) (t : Time) : string :=
  format_seconds loc t +:+ format_offset (zone_offset loc t).
(** [t.In(loc).Format(time.RFC3339Nano)]: trailing zeros of the fraction are dropped. *)
Definition FormatRFC3339Nano (loc : Location) (t : Time) : string :=
  let ns := t mod Second in
  format_seconds loc t
  +:+ (if ns =? 0 then "" else "." +:+ trim_right_byte "0" (pad 9 ns))
  +:+ format_offset (zone_offset loc t).

(** ** Wall-clock times *)

(** The clocks of [loc] do show the second [unix] at some instant: it is not in a
    gap that a transition jumps over. *)
Definition wall_exists (loc : Location) (unix : Z) : bool :=
  wall_instant loc unix + zp_offset (loc_lookup loc (wall_instant loc unix)) =? unix.

Lemma wall_exists_fixed name off unix : wall_exists (FixedZone name off) unix = true.
Proof.
  unfold wall_exists, wall_instant. cbn -[Z.eqb Z.ltb Z.leb].
  destruct (off =? 0) eqn:Ho; [bool_to_prop; apply Z.eqb_eq; lia|].
  apply Z.eqb_eq. destruct (_ || _); lia.
Qed.

Lemma unix_sec_seconds s : unix_sec (s * Second) = s.
Proof. unfold unix_sec. apply Z.div_mul. unfold Second. lia. Qed.

(** An instant made from a wall-clock time shows that time. *)
Lemma local_sec_wall loc unix :
  wall_exists loc unix = true → local_sec loc (wall_instant loc unix * Second) = unix.
Proof.
  unfold wall_exists, local_sec, zone_offset. rewrite unix_sec_seconds.
  intros H. bool_to_prop. lia.
Qed.

Lemma Date_wall y m d hh mm loc :
  1 <= m <= 12 →
  Date y m d hh mm 0 0 loc =
    wall_instant loc (days_from_civil y m d * 86400 + (hh * 3600 + mm * 60)) * Second.
Proof.
  intros Hm. unfold Date. rewrite Z.div_small, Z.mod_small by lia.
  replace (0 / Second) with 0 by reflexivity. replace (0 mod Second) with 0 by reflexivity.
  replace (y + 0) with y by lia. replace (m - 1 + 1) with m by lia.
  rewrite Z.add_0_r, !Z.add_0_r. do 2 f_equal. lia.
Qed.

Lemma date_in_of_local loc t n s :
  local_sec loc t = n * 86400 + s → 0 <= s < 86400 →
  date_in loc t = civil_from_days n ∧ clock_hour loc t = s / 3600
  ∧ clock_minute loc t = s mod 3600 / 60 ∧ clock_second loc t = s mod 60.
Proof.
  intros Hl Hs. unfold date_in, clock_hour, clock_minute, clock_second, sec_of_day. rewrite Hl.
  rewrite (Z.add_comm (n * 86400)), Z.mod_add, Z.mod_small, Z.div_add, Z.div_small by lia.
  done.
Qed.

(** * Parsing instants ([time.Parse])

    The layouts [time.RFC1123Z], [time.RFC1123] and [time.RFC3339].  A zone
    abbreviation is looked up in the local location of the process, a parameter. *)

(** ** Pieces of a layout: what is read, and the rest *)

Fixpoint cut_spaces (s : string) : string :=
  match s with String " " s' => cut_spaces s' | _ => s end.
(** [skip]: a space of the layout stands for any number of spaces, one at least unless
    the value ended. *)
Fixpoint skip_text (prefix value : string) : option string :=
  match prefix with
  | EmptyString => Some value
  | String " " prefix' =>
      match value with
      | String c _ => if Ascii.eqb c " " then skip_text prefix' (cut_spaces value) else None
      | EmptyString => skip_text prefix' value
      end
  | String c prefix' =>
      match value with
      | String d value' => if Ascii.eqb c d then skip_text prefix' value' else None
      | EmptyString => None
      end
  end.
Definition number_below (fixed : bool) (bound : Z) (s : string) : option (Z * string) :=
  '(v, r) ← getnum fixed s; if v <? bound then Some (v, r) else None.
(** The index of the name at the head, whatever its case. *)
Fixpoint lookup_short (i : Z) (names : list string) (s : string) : option (Z * string) :=
  match names with
  | [] => None
  | name :: names =>
      if (String.length name <=? String.length s)%nat && equal_fold (take_bytes (String.length name) s) name
      then Some (i, drop_bytes (String.length name) s) else lookup_short (i + 1) names s
  end.
Definition shortDayNames : list string := ["Sun"; "Mon"; "Tue"; "Wed"; "Thu"; "Fri"; "Sat"].
Definition shortMonthNames : list string :=
  ["Jan"; "Feb"; "Mar"; "Apr"; "May"; "Jun"; "Jul"; "Aug"; "Sep"; "Oct"; "Nov"; "Dec"].
Definition read_year (s : string) : option (Z * string) :=
  if (String.length s <? 4)%nat then None else y ← parse_digits (take_bytes 4 s); Some (y, drop_bytes 4 s).

Fixpoint digit_prefix (s : string) : nat :=
  match s with String c s' => if is_digit c then S (digit_prefix s') else 0%nat | EmptyString => 0%nat end.
(** The seconds, with an optional fraction of any length, of which nine digits count. *)
Definition read_seconds (s : string) : option (Z * Z * string) :=
  '(sec, r) ← number_below true 60 s;
  match r with
  | String c r' =>
      let n := digit_prefix r' in
      if (Ascii.eqb c "." || Ascii.eqb c ",") && (1 <=? n)%nat then
        let digits := take_bytes (Nat.min 9 n) r' in
        v ← parse_digits digits;
        Some (sec, v * 10 ^ (9 - Z.of_nat (String.length digits)), drop_bytes n r')
      else Some (sec, 0, r)
  | EmptyString => Some (sec, 0, r)
  end.
Definition read_clock (s : string) : option (Z * string) :=
  '(h, r) ← number_below false 24 s;
  r ← skip_text ":" r;
  '(m, r) ← number_below true 60 r;
  r ← skip_text ":" r;
  '(sec_ns, r) ← read_seconds r;
  Some ((h * 3600 + m * 60 + sec_ns.1) * Second + sec_ns.2, r).

(** ** Zones *)

(** [-0700], or [-07:00] with the separator: the offset in seconds. *)
Definition read_offset (separator : string) (s : string) : option (Z * string) :=
  match s with
  | String sign s1 =>
      '(hr, r) ← getnum true s1;
      r ← cut_prefix separator r;
      '(mm, r) ← getnum true r;
      if (24 <? hr) || (60 <? mm) then None
      else if Ascii.eqb sign "+" then Some ((hr * 60 + mm) * 60, r)
      else if Ascii.eqb sign "-" then Some (- ((hr * 60 + mm) * 60), r)
      else None
  | EmptyString => None
  end.
(** [parseSignedOffset]: the length of a sign and an hour of at most 23. *)
Definition parseSignedOffset (s : string) : nat :=
  match s with
  | String c s' =>
      let n := digit_prefix s' in
      if (Ascii.eqb c "+" || Ascii.eqb c "-") && (1 <=? n)%nat
         && match parse_digits (take_bytes n s') with Some v => v <=? 23 | None => false end
      then S n else 0%nat
  | EmptyString => 0%nat
  end.
Fixpoint upper_prefix (limit : nat) (s : string) : nat :=
  match limit, s with
  | S l, String c s' => if in_range 65 90 c then S (upper_prefix l s') else 0%nat
  | _, _ => 0%nat
  end.
Definition parseTimeZone (s : string) : option nat :=
  let head n := take_bytes n s in
  if (String.length s <? 3)%nat then None
  else if String.eqb (head 4%nat) "ChST" || String.eqb (head 4%nat) "MeST" then Some 4%nat
  else if String.eqb (head 3%nat) "GMT" then Some (3 + parseSignedOffset (drop_bytes 3 s))%nat
  else if (has_prefix s "+" || has_prefix s "-") then (let n := parseSignedOffset s in if (1 <=? n)%nat then Some n else None)
  else
    match upper_prefix 6 s with
    | 3%nat => Some 3%nat
    | 4%nat => if has_suffix (head 4%nat) "T" || String.eqb (head 4%nat) "WITA" then Some 4%nat else None
    | 5%nat => if has_suffix (head 5%nat) "T" then Some 5%nat else None
    | _ => None
    end.

(** A day that exists. *)
Definition day_start (y m d : Z) : option Time :=
  if (d <? 1) || (days_in m y <? d) then None else Some (days_from_civil y m d * 86400 * Second).

Section local.
(** [Local.lookupName]: the offset of an abbreviation at a time (in seconds since the
    epoch, read as UTC). *)
Context (local_name : string → Z → option Z).

Definition zone_name (t : Time) (s : string) : option Time :=
  if has_prefix s "UTC" then (if String.eqb s "UTC" then Some t else None)
  else
    n ← parseTimeZone s;
    if negb (n =? String.length s)%nat then None
    else
      match local_name s (unix_sec t) with
      | Some offset => Some (t - offset * Second)
      | None => Some t (* a fabricated zone does not move the clock *)
      end.
Definition read_rfc1123 (s : string) : option (Time * string) :=
  '(_, r) ← lookup_short 0 shortDayNames s;
  r ← skip_text ", " r;
  '(day, r) ← getnum true r;
  r ← skip_text " " r;
  '(month, r) ← lookup_short 1 shortMonthNames r;
  r ← skip_text " " r;
  '(year, r) ← read_year r;
  r ← skip_text " " r;
  '(clock, r) ← read_clock r;
  r ← skip_text " " r;
  start ← day_start year month day;
  Some (start + clock, r).
Definition parse_rfc1123z (s : string) : option Time :=
  '(t, r) ← read_rfc1123 s; '(offset, rest) ← read_offset "" r;
  if String.eqb rest "" then Some (t - offset * Second) else None.
Definition parse_rfc1123 (s : string) : option Time := '(t, r) ← read_rfc1123 s; zone_name t r.
Definition parse_rfc3339 (s : string) : option Time :=
  '(year, r) ← read_year s;
  r ← skip_text "-" r;
  '(month, r) ← getnum true r;
  if (month <? 1) || (12 <? month) then None
  else
    r ← skip_text "-" r;
    '(day, r) ← getnum true r;
    r ← skip_text "T" r;
    '(clock, r) ← read_clock r;
    start ← day_start year month day;
    if String.eqb r "Z" then Some (start + clock)
    else '(offset, rest) ← read_offset ":" r; if String.eqb rest "" then Some (start + clock - offset * Second) else None.
End local.

Example parse_instants :
  parse_rfc1123z "Thu, 01 Jan 1970 00:00:10 +0000" = Some (10 * Second)
  ∧ parse_rfc1123z "thu, 01  jan 1970 1:00:00.25 -0100" = Some (7200 * Second + 250000000)
  ∧ parse_rfc1123 (λ _ _, None) "Thu, 01 Jan 1970 00:00:10 GMT" = Some (10 * Second)
  ∧ parse_rfc3339 "1970-01-02T00:00:00+24:00" = Some 0
  ∧ parse_rfc3339 "1970-02-30T00:00:00Z" = None ∧ parse_rfc1123z "Thu, 1 Jan 1970 00:00:10 +0000" = None.
Proof. vm_compute. repeat split. Qed.
