(* ===== verification/GoUrl.v ===== *)
(** * Go URLs

    [net/url.Parse] and the accessors the program uses ([Hostname], [Port],
    [RequestURI]), with [net/netip]'s syntax of IPv6 literals. *)

From S2P Require Import Prelude GoStrings.
From Stdlib Require Import Ascii String.

Record URL := MkURL {
  Scheme : string;
  Opaque : string;
  URLUser : option (string * option string);
  UHost : string;
  Path : string;
  RawPath : string;
  ForceQuery : bool;
  RawQuery : string;
  Fragment : string
}.

Definition hex_value (c : ascii) : nat :=
  let n := nat_of_ascii c in
  if is_digit c then n - 48 else if in_range 97 102 c then n - 87 else n - 55.

Definition one_of (chars : string) (c : ascii) : bool := any_byte (Ascii.eqb c) chars.

Inductive encoding := encodePath | encodeHost | encodeZone | encodeUserPassword | encodeFragment.
#[global] Instance encoding_eq_dec : EqDecision encoding.
Proof. solve_decision. Defined.

Definition is_host_mode (m : encoding) : bool :=
  bool_decide (m = encodeHost) || bool_decide (m = encodeZone).

Definition shouldEscape (c : ascii) (m : encoding) : bool :=
  if is_alnum c then false
  else if is_host_mode m && one_of ("!$&'()*+,;=:[]<>" +:+ quote) c then false
  else if one_of "-_.~" c then false
  else if one_of "$&+,/:;=?@" c then
    match m with
    | encodePath => Ascii.eqb c "?"
    | encodeUserPassword => one_of "@/?:" c
    | encodeFragment => false
    | _ => true
    end
  else if bool_decide (m = encodeFragment) && one_of "!()*" c then false
  else true.

(** [unescape]: a malformed escape is an error; in a host only ASCII bytes that
    need no escaping, and escapes of non-ASCII bytes and of the percent sign. *)
Fixpoint unescape (m : encoding) (s : string) : option string :=
  match s with
  | EmptyString => Some EmptyString
  | String c s1 =>
      if Ascii.eqb c "%" then
        match s1 with
        | String a (String b s2) =>
            if negb (is_hex a && is_hex b) then None
            else
              let v := byte (16 * hex_value a + hex_value b) in
              let is_percent := Ascii.eqb a "2" && Ascii.eqb b "5" in
              if bool_decide (m = encodeHost) && (hex_value a <? 8)%nat && negb is_percent then None
              else if bool_decide (m = encodeZone) && negb is_percent
                      && negb (Ascii.eqb v " ") && shouldEscape v encodeHost then None
              else r ← unescape m s2; Some (String v r)
        | _ => None
        end
      else if is_host_mode m && (nat_of_ascii c <? 128)%nat && shouldEscape c m then None
      else r ← unescape m s1; Some (String c r)
  end.

Definition hex_digit (n : nat) : ascii := byte (if (n <? 10)%nat then 48 + n else 55 + n).
Fixpoint escape (m : encoding) (s : string) : string :=
  match s with
  | EmptyString => EmptyString
  | String c s' =>
      if shouldEscape c m then
        String "%" (String (hex_digit (nat_of_ascii c / 16))
          (String (hex_digit (nat_of_ascii c mod 16)) (escape m s')))
      else String c (escape m s')
  end.

Definition validOptionalPort (p : string) : bool :=
  match p with
  | EmptyString => true
  | String c rest => Ascii.eqb c ":" && all_bytes is_digit rest
  end.

Definition validUserinfo (s : string) : bool :=
  all_bytes (λ c, is_alnum c || one_of "-._:~!$&'()*+,;=%@" c) s.

(** ** [netip.ParseAddr] on the content of an IP literal *)

Definition is_hex_field (s : string) : bool :=
  (1 <=? String.length s)%nat && (String.length s <=? 4)%nat && all_bytes is_hex s.

Definition ipv4_field (s : string) : bool :=
  match s with
  | EmptyString => false
  | String c rest =>
      match parse_digits s with
      | Some v => (v <? 256)%Z && (String.length s <=? 3)%nat
                  && negb (Ascii.eqb c "0" && negb (String.eqb rest ""))
      | None => false
      end
  end.
Definition is_ipv4 (s : string) : bool :=
  let fields := split_byte "." s in
  (List.length fields =? 4)%nat && forallb ipv4_field fields.

(** Number of 16-bit groups of a colon-separated list; the last one may be an
    IPv4 address, which stands for two. *)
Fixpoint ipv6_groups (allow4 : bool) (fields : list string) : option nat :=
  match fields with
  | [] => Some 0%nat
  | [f] => if is_hex_field f then Some 1%nat
           else if allow4 && is_ipv4 f then Some 2%nat else None
  | f :: fs => if is_hex_field f then n ← ipv6_groups allow4 fs; Some (S n) else None
  end.
Definition ipv6_side (allow4 : bool) (s : string) : option nat :=
  if String.eqb s "" then Some 0%nat else ipv6_groups allow4 (split_byte ":" s).
Definition is_ipv6 (s : string) : bool :=
  match cut "::" s with
  | None => match ipv6_side true s with Some n => (n =? 8)%nat | None => false end
  | Some (l, r) =>
      match ipv6_side false l, ipv6_side true r with
      | Some a, Some b => (a + b <? 8)%nat
      | _, _ => false
      end
  end.
Definition is_ipv6_zoned (s : string) : bool :=
  match cut "%" s with
  | None => is_ipv6 s
  | Some (addr, zone) => is_ipv6 addr && negb (String.eqb zone "")
  end.

(** ** [url.Parse] *)

(** [getScheme]: [None] is the error, an empty scheme means there is none. *)
Fixpoint getScheme_from (first : bool) (s : string) : option (option (string * string)) :=
  match s with
  | EmptyString => Some None
  | String c s' =>
      if is_alpha c || ((is_digit c || one_of "+-." c) && negb first) then
        match getScheme_from false s' with
        | Some (Some (sch, rest)) => Some (Some (String c sch, rest))
        | other => other
        end
      else if Ascii.eqb c ":" then (if first then None else Some (Some (EmptyString, s')))
      else Some None
  end.
Definition getScheme (s : string) : option (string * string) :=
  match getScheme_from true s with
  | None => None
  | Some None => Some (EmptyString, s)
  | Some (Some p) => Some p
  end.

Definition parseHost (host : string) : option string :=
  match cut_last "[" host with
  | Some (before, inside) =>
      if negb (String.eqb before "") then None
      else
        '(name, colonPort) ← cut_last "]" inside;
        if negb (validOptionalPort colonPort) then None
        else
          un ← match cut "%25" name with
               | Some (h, z) =>
                   h' ← unescape encodeHost h; z' ← unescape encodeZone ("%25" +:+ z);
                   Some (h' +:+ z')
               | None => unescape encodeHost name
               end;
          if is_ipv6_zoned un then Some ("[" +:+ un +:+ "]" +:+ colonPort) else None
  | None =>
      match cut ":" host with
      | Some (_, p) => if all_bytes is_digit p then unescape encodeHost host else None
      | None => unescape encodeHost host
      end
  end.

Definition parseUserinfo (u : string) : option (string * option string) :=
  if negb (validUserinfo u) then None
  else match cut ":" u with
       | None => n ← unescape encodeUserPassword u; Some (n, None)
       | Some (a, b) =>
           n ← unescape encodeUserPassword a; p ← unescape encodeUserPassword b;
           Some (n, Some p)
       end.

Definition parseAuthority (a : string) : option (option (string * option string) * string) :=
  match cut_last "@" a with
  | None => h ← parseHost a; Some (None, h)
  | Some (ui, h0) => h ← parseHost h0; u ← parseUserinfo ui; Some (Some u, h)
  end.

Definition parse_rest (scheme rest : string) (force : bool) (query : string) : option URL :=
  if negb (has_prefix rest "/") then
    if negb (String.eqb scheme "") then
      Some (MkURL scheme rest None "" "" "" force query "")
    else if contains (cut_before "/" rest) ":" then None
    else p ← unescape encodePath rest;
         Some (MkURL scheme "" None "" p (if String.eqb (escape encodePath p) rest then "" else rest) force query "")
  else
    '(user, host, path) ←
      (if (negb (String.eqb scheme "") || negb (has_prefix rest "///")) && has_prefix rest "//" then
         let authority := cut_after "//" rest in
         let a := cut_before "/" authority in
         let path := match cut "/" authority with Some (_, p) => String "/" p | None => "" end in
         '(u, h) ← parseAuthority a; Some (u, h, path)
       else Some (None, "", rest));
    p ← unescape encodePath path;
    Some (MkURL scheme "" user host p (if String.eqb (escape encodePath p) path then "" else path) force query "").

(** [url.Parse] *)
Definition url_Parse (raw : string) : option URL :=
  let u := cut_before "#" raw in
  let frag := cut_after "#" raw in
  parsed ←
    (if any_byte is_ctl u then None
     else if String.eqb u "*" then Some (MkURL "" "" None "" "*" "" false "" "")
     else
       '(sch, rest) ← getScheme u;
       let scheme := to_lower sch in
       if has_suffix rest "?" && (count_byte "?" rest =? 1)%nat
       then parse_rest scheme (trim_suffix rest "?") true ""
       else parse_rest scheme (cut_before "?" rest) false (cut_after "?" rest));
  f ← unescape encodeFragment frag;
  Some (MkURL (Scheme parsed) (Opaque parsed) (URLUser parsed) (UHost parsed) (Path parsed)
          (RawPath parsed) (ForceQuery parsed) (RawQuery parsed) f).

(** ** Accessors *)

Definition splitHostPort (hp : string) : string * string :=
  let '(host, port) :=
    match cut_last ":" hp with
    | Some (h, p) => if all_bytes is_digit p then (h, p) else (hp, "")
    | None => (hp, "")
    end in
  if has_prefix host "[" && has_suffix host "]"
  then (trim_suffix (cut_after "[" host) "]", port)
  else (host, port).
Definition Hostname (u : URL) : string := (splitHostPort (UHost u)).1.
Definition Port (u : URL) : string := (splitHostPort (UHost u)).2.

Definition EscapedPath (u : URL) : string :=
  let valid := all_bytes (λ c, one_of "!$&'()*+,;=:@[]%" c || negb (shouldEscape c encodePath)) (RawPath u) in
  if negb (String.eqb (RawPath u) "") && valid
     && bool_decide (unescape encodePath (RawPath u) = Some (Path u))
  then RawPath u
  else if String.eqb (Path u) "*" then "*" else escape encodePath (Path u).

Definition RequestURI (u : URL) : string :=
  let base :=
    if String.eqb (Opaque u) "" then
      (if String.eqb (EscapedPath u) "" then "/" else EscapedPath u)
    else if has_prefix (Opaque u) "//" then Scheme u +:+ ":" +:+ Opaque u else Opaque u in
  if ForceQuery u || negb (String.eqb (RawQuery u) "") then base +:+ "?" +:+ RawQuery u else base.

Example parse_pass_url :
  url_Parse "HTTPS://u@Example.com:443/a%20b?x=1#f" =
  Some (MkURL "https" "" (Some ("u", None)) "Example.com:443" "/a b" "" false "x=1" "f").
Proof. reflexivity. Qed.
Example parse_ipv6_url :
  option_map Hostname (url_Parse "http://[fe80::1%25en0]:8080/") = Some "fe80::1%en0"
  ∧ url_Parse "http://[1.2.3.4]/" = None ∧ url_Parse "http://::1/" = None.
Proof. repeat split. Qed.
