(* ===== verification/GoPath.v ===== *)
(** * File paths ([path/filepath] on Unix)

    [Clean], [Join], [Base], [IsAbs] and [Abs]; the working directory of the process is an
    argument. *)

From S2P Require Import Prelude GoStrings.
From Stdlib Require Import Ascii String.

Definition IsAbs (path : string) : bool := has_prefix path "/".

(** The components that remain of a path: empty ones and dots go, a double dot removes
    the component before it or, at the root, itself. *)
Definition push_component (rooted : bool) (stack : list string) (c : string) : list string :=
  if String.eqb c "" || String.eqb c "." then stack
  else if String.eqb c ".." then
    match stack with
    | top :: rest => if String.eqb top ".." then c :: stack else rest
    | [] => if rooted then [] else [c]
    end
  else c :: stack.
Definition Clean (path : string) : string :=
  let body := join "/" (rev (foldl (push_component (IsAbs path)) [] (split_byte "/" path))) in
  if IsAbs path then "/" +:+ body else if String.eqb body "" then "." else body.

(** [Join] ignores leading empty elements. *)
Fixpoint Join (elements : list string) : string :=
  match elements with
  | [] => ""
  | e :: rest => if String.eqb e "" then Join rest else Clean (join "/" elements)
  end.
Definition Abs (working path : string) : string := if IsAbs path then Clean path else Join [working; path].
(** [Base]: the last component without trailing slashes. *)
Definition Base (path : string) : string :=
  if String.eqb path "" then "."
  else
    let trimmed := trim_right_byte "/" path in
    if String.eqb trimmed "" then "/" else List.last (split_byte "/" trimmed) "".

Example clean_paths :
  Clean "/a//b/../c/." = "/a/c" ∧ Clean "../../x" = "../../x" ∧ Clean "/.." = "/" ∧ Clean "" = "."
  ∧ Join ["/data"; "profiles"] = "/data/profiles" ∧ Abs "/srv/app" "./appdata" = "/srv/app/appdata"
  ∧ Base "/a/b/" = "b" ∧ Base "a" = "a".
Proof. vm_compute. repeat split. Qed.

(** ** Children of a clean directory *)

(** What [Clean] leaves: a path it leaves alone. *)
Definition component (c : string) : Prop :=
  c ≠ "" ∧ c ≠ "." ∧ c ≠ ".." ∧ all_bytes (λ b, negb (Ascii.eqb b "/")) c = true.

Lemma split_component c : all_bytes (λ b, negb (Ascii.eqb b "/")) c = true → split_byte "/" c = [c].
Proof.
  induction c as [|b c IH]; [done|]. cbn [all_bytes split_byte]. intros [Hb Hc]%andb_true_iff.
  apply negb_true_iff in Hb. by rewrite Hb, (IH Hc).
Qed.
Lemma split_app_slash a c :
  all_bytes (λ b, negb (Ascii.eqb b "/")) c = true → split_byte "/" (a +:+ "/" +:+ c) = (split_byte "/" a ++ [c])%list.
Proof.
  intros Hc. induction a as [|b a IH].
  - rewrite !append_nil_l. change ("/" +:+ c) with (String "/" c). cbn [split_byte]. change (Ascii.eqb "/" "/") with true.
    cbn iota. by rewrite split_component.
  - rewrite append_cons. cbn [split_byte]. destruct (Ascii.eqb b "/"); [by rewrite IH|]. rewrite IH.
    destruct (split_byte "/" a) as [|h t] eqn:Hs; [|done]. destruct a as [|d a]; [done|]. cbn [split_byte] in Hs.
    destruct (Ascii.eqb d "/"); [done|]. by destruct (split_byte "/" a).
Qed.
Lemma append_assoc s t u : (s +:+ t) +:+ u = s +:+ (t +:+ u).
Proof. induction s as [|c s IH]; [done|]. by rewrite !append_cons, IH. Qed.
(** A path that is its own cleaning is the join of the components it keeps. *)
Lemma join_child parent name :
  IsAbs parent = true → Clean parent = parent → parent ≠ "/" → component name →
  Join [parent; name] = parent +:+ "/" +:+ name.
Proof.
  intros Habs Hclean Hroot (Hne & Hdot & Hdots & Hplain).
  assert (parent ≠ "") as Hp by (intros ->; done).
  cbn [Join]. rewrite (proj2 (String.eqb_neq _ _) Hp). cbn [join].
  assert (IsAbs (parent +:+ "/" +:+ name) = true) as Habs'.
  { destruct parent as [|b parent]; [done|]. unfold IsAbs, has_prefix in *. rewrite append_cons. cbn [cut_prefix] in *.
    by destruct (Ascii.eqb "/" b). }
  unfold Clean in *. rewrite Habs', Habs in *. rewrite split_app_slash by done. rewrite foldl_app. cbn [foldl].
  set (stack := foldl (push_component true) [] (split_byte "/" parent)) in *.
  assert (push_component true stack name = name :: stack) as ->.
  { unfold push_component. rewrite (proj2 (String.eqb_neq _ _) Hne), (proj2 (String.eqb_neq _ _) Hdot), (proj2 (String.eqb_neq _ _) Hdots).
    done. }
  cbn [rev]. destruct stack as [|top rest] eqn:Hstack; [by rewrite <- Hclean in Hroot|].
  assert (∀ l, l ≠ [] → join "/" (l ++ [name]) = join "/" l +:+ "/" +:+ name) as Hjoin.
  { induction l as [|x l IH]; [done|]. intros _. destruct l as [|y l]; [done|].
    change (((x :: y :: l) ++ [name])%list) with (x :: ((y :: l) ++ [name]))%list.
    assert (∀ t, t ≠ [] → join "/" (x :: t) = x +:+ "/" +:+ join "/" t) as Hcons by (by intros [|? ?]).
    rewrite Hcons, IH, Hcons by done. by rewrite !append_assoc. }
  rewrite Hjoin by (intros H; by apply (f_equal List.length) in H; rewrite length_rev in H).
  by rewrite <- Hclean, append_assoc.
Qed.

(** Without a separator a name is its own base. *)
Lemma Base_component c : component c → Base c = c.
Proof.
  intros (Hne & _ & _ & Hplain). unfold Base. rewrite (proj2 (String.eqb_neq _ _) Hne).
  assert (trim_right_byte "/" c = c) as ->.
  { unfold trim_right_byte. assert (all_bytes (λ b, negb (Ascii.eqb b "/")) (rev_string c) = true) as Hrev
      by (unfold rev_string; by rewrite rev_onto_bytes, Hplain).
    destruct (rev_string c) as [|b t] eqn:Hr; [by apply (f_equal rev_string) in Hr; rewrite rev_string_rev in Hr|].
    cbn [drop_byte]. cbn [all_bytes] in Hrev. apply andb_true_iff in Hrev as [Hb _]. apply negb_true_iff in Hb.
    rewrite Ascii.eqb_sym, Hb, <- Hr. apply rev_string_rev. }
  rewrite (proj2 (String.eqb_neq _ _) Hne), split_component by done. done.
Qed.
Lemma Abs_child working parent name :
  IsAbs parent = true → Clean parent = parent → parent ≠ "/" → component name →
  Abs working (Join [parent; name]) = parent +:+ "/" +:+ name.
Proof.
  intros Habs Hclean Hroot Hname. pose proof (join_child parent name Habs Hclean Hroot Hname) as Hj. rewrite Hj.
  assert (IsAbs (parent +:+ "/" +:+ name) = true) as Habs'.
  { destruct parent as [|b parent]; [done|]. unfold IsAbs, has_prefix in *. rewrite append_cons. cbn [cut_prefix] in *.
    by destruct (Ascii.eqb "/" b). }
  unfold Abs. rewrite Habs'. cbn [Join] in Hj. assert (parent ≠ "") as Hp by (intros ->; done).
  by rewrite (proj2 (String.eqb_neq _ _) Hp) in Hj.
Qed.
