(* ===== verification/Origin.v ===== *)
(** * Origins and destinations (src/internal/origin, src/internal/destinations)

    Normalisation of HTTP authorities and origins: the boundary that decides which
    sites may receive credentials and one-time codes; then the catalog of supported lakes
    and their booking rules. *)

From S2P Require Import Prelude GoStrings GoUrl.
From Stdlib Require Import Ascii String.

Definition invalid_port (port : string) : bool :=
  match parse_uint 16 port with Some v => (v =? 0)%Z | None => true end.

(** [net.JoinHostPort] *)
Definition JoinHostPort (host port : string) : string :=
  if contains host ":" then "[" +:+ host +:+ "]:" +:+ port
  else host +:+ ":" +:+ port.

Definition not_empty (s : string) : bool := negb (String.eqb s "").
Definition has_user (u : URL) : bool := match URLUser u with Some _ => true | None => false end.

Definition Host (value0 : string) : result string :=
  let value := trim_space value0 in
  if String.eqb value "" || contains_any value (" /\@") then Err (Errorf "invalid host")
  else match url_Parse ("http://" +:+ value) with
  | None => Err (Errorf "invalid host")
  | Some parsed =>
      if String.eqb (UHost parsed) "" || has_user parsed || not_empty (Path parsed)
         || not_empty (RawQuery parsed) || not_empty (Fragment parsed)
      then Err (Errorf "invalid host")
      else
        let hostname := to_lower (trim_suffix (Hostname parsed) ".") in
        if String.eqb hostname "" || contains hostname "*" then Err (Errorf "invalid host")
        else
          let port := Port parsed in
          if not_empty port then
            if invalid_port port then Err (Errorf "invalid host port")
            else Ok (JoinHostPort hostname port)
          else if contains hostname ":" then Ok ("[" +:+ hostname +:+ "]")
          else Ok hostname
  end.

Definition canonicalURL (parsed : URL) : result string :=
  let scheme := to_lower (Scheme parsed) in
  if negb (String.eqb scheme "http") && negb (String.eqb scheme "https")
  then Err (Errorf "invalid origin scheme")
  else
    let host := to_lower (trim_suffix (Hostname parsed) ".") in
    if String.eqb host "" || contains host "*" then Err (Errorf "invalid origin host")
    else
      let port0 := Port parsed in
      if not_empty port0 && invalid_port port0 then Err (Errorf "invalid origin port")
      else
        let port := if (String.eqb scheme "http" && String.eqb port0 "80")
                       || (String.eqb scheme "https" && String.eqb port0 "443")
                    then "" else port0 in
        let host' := if not_empty port then JoinHostPort host port
                     else if contains host ":" then "[" +:+ host +:+ "]" else host in
        Ok (scheme +:+ "://" +:+ host').

Definition Canonical (value : string) : result string :=
  match url_Parse (trim_space value) with
  | None => Err (Errorf "invalid origin")
  | Some parsed =>
      if String.eqb (Scheme parsed) "" || String.eqb (UHost parsed) "" || has_user parsed
         || not_empty (Path parsed) || not_empty (RawQuery parsed) || not_empty (Fragment parsed)
      then Err (Errorf "invalid origin")
      else canonicalURL parsed
  end.

Definition FromURL (value : string) : result string :=
  match url_Parse (trim_space value) with
  | None => Err (Errorf "invalid HTTP(S) URL")
  | Some parsed =>
      if String.eqb (Scheme parsed) "" || String.eqb (UHost parsed) "" || has_user parsed
      then Err (Errorf "invalid HTTP(S) URL")
      else canonicalURL parsed
  end.

(** An accepted origin is the HTTP(S) scheme of a URL without credentials. *)
Lemma canonicalURL_Ok u o :
  canonicalURL u = Ok o →
  (to_lower (Scheme u) = "http" ∨ to_lower (Scheme u) = "https")
  ∧ has_prefix o (to_lower (Scheme u) +:+ "://") = true.
Proof.
  unfold canonicalURL. cbv zeta.
  destruct (String.eqb_spec (to_lower (Scheme u)) "http") as [Hs|Hs];
    destruct (String.eqb_spec (to_lower (Scheme u)) "https") as [Hs'|Hs']; cbn [negb andb]; try done;
    (destruct (_ || _); [done|]); (destruct (_ && _); [done|]); intros [= <-];
    (split; [tauto|]); rewrite ?Hs, ?Hs'; reflexivity.
Qed.

Lemma FromURL_Ok v o :
  FromURL v = Ok o →
  ∃ u, url_Parse (trim_space v) = Some u ∧ UHost u ≠ "" ∧ URLUser u = None ∧ canonicalURL u = Ok o.
Proof.
  unfold FromURL. destruct (url_Parse _) as [u|]; [|done].
  destruct (_ || _) eqn:Hb; [done|]. intros Hc. exists u. bool_to_prop.
  split_and!; try done.
  - intros Hh. by rewrite Hh in *.
  - unfold has_user in *. by destruct (URLUser u).
Qed.

(** * The catalogue of lakes (internal/destinations) *)

Record Lake := MkLake {
  LakeID : string;
  LakeName : string;
  ProviderID : string;
  LakeTimezone : string;
  LakeReleaseTime : string;
  LakeReleaseDaysBefore : Z;
  LoginURL : string;
  LakeAllDayPassURL : string;
  LakeHalfDayPassURL : string;
  SupportedPasses : list string
}.

Definition DefaultLakeID : string := "buntzen".
Definition ProviderYodel : string := "yodel".

Definition buntzen : Lake := {|
  LakeID := DefaultLakeID;
  LakeName := "Buntzen Lake";
  ProviderID := ProviderYodel;
  LakeTimezone := "America/Vancouver";
  LakeReleaseTime := "07:00";
  LakeReleaseDaysBefore := 1;
  LoginURL := "https://yodelportal.com/buntzen-lake";
  LakeAllDayPassURL := "https://yodelportal.com/buntzen-lake/All-Day-Pass";
  LakeHalfDayPassURL := "https://yodelportal.com/buntzen-lake/Half-Day-Pass";
  SupportedPasses := ["all_day"; "afternoon"; "morning"]
|}.

(** The zero value, returned beside an error. *)
Definition zero_lake : Lake := MkLake "" "" "" "" "" 0 "" "" "" [].

Definition catalog_list : list Lake := [buntzen].

Definition Resolve (id0 : string) : result Lake :=
  let id := if String.eqb id0 "" then DefaultLakeID else id0 in
  match List.find (λ lake, String.eqb (LakeID lake) id) catalog_list with
  | Some lake => Ok lake
  | None => Err (Errorf ("unsupported lake " +:+ quoted id))
  end.

(** [destinations.Resolve] as used with the error ignored. *)
Definition Resolve_value (id : string) : Lake :=
  match Resolve id with Ok lake => lake | Err _ => zero_lake end.

Definition with_origin_url (origin target : string) : string :=
  match url_Parse target with
  | Some parsed =>
      if String.eqb target "" then target
      else trim_right_byte "/" origin +:+ RequestURI parsed
  | None => target
  end.

Definition WithOrigin (lake : Lake) (origin : string) : Lake := {|
  LakeID := LakeID lake; LakeName := LakeName lake; ProviderID := ProviderID lake;
  LakeTimezone := LakeTimezone lake; LakeReleaseTime := LakeReleaseTime lake;
  LakeReleaseDaysBefore := LakeReleaseDaysBefore lake;
  LoginURL := with_origin_url origin (LoginURL lake);
  LakeAllDayPassURL := with_origin_url origin (LakeAllDayPassURL lake);
  LakeHalfDayPassURL := with_origin_url origin (LakeHalfDayPassURL lake);
  SupportedPasses := SupportedPasses lake
|}.

(** An unknown identifier is never resolved to another lake. *)
Lemma Resolve_Ok id lake :
  Resolve id = Ok lake →
  lake ∈ catalog_list ∧ (id = LakeID lake ∨ id = "" ∧ LakeID lake = DefaultLakeID).
Proof.
  unfold Resolve, catalog_list. cbv zeta. cbn [List.find].
  destruct (String.eqb_spec id "") as [->|Hid].
  - intros [= <-]. split; [by left|by right].
  - destruct (String.eqb_spec (LakeID buntzen) id) as [<-|]; [|done].
    intros [= <-]. split; [by left|by left].
Qed.
