(* ===== verification/Domain.v ===== *)
(** * The domain model (src/internal/model)

    Jobs, booking requests, settings, profiles, one-time-code sources, accounts and
    the validation each of them gets.  A Go string type with named constants is an
    inductive type with those constants and a last constructor for any other
    string. *)

From S2P Require Import Prelude GoStrings GoTime GoUrl Origin.
From Stdlib Require Import Ascii String SpecFloat.

Open Scope Z_scope.

(** ** Limits *)

Definition MaxResourceNameBytes : Z := 128.
Definition MaxOTPIdentityBytes : Z := 2048.
Definition MaxPairingChatGUIDBytes : Z := 1024.
Definition MaxPairingSenderBytes : Z := 320.
Definition MaxPairingServiceBytes : Z := 64.
Definition MaxDefaultVehicleBytes : Z := 256.
Definition MaxBrowserChannelBytes : Z := 64.
Definition MaxBrowserExecutableBytes : Z := 2048.
Definition MaxTimezoneBytes : Z := 128.
Definition MaxPrepMinutesBefore : Z := 180.

(** ** Jobs *)

Definition MaxImmediateBookingLifetime : Duration := 15 * Minute.

Inductive RunMode := RunModeDryRun | RunModeManual | RunModeAuto | RunModeOther (s : string).
Inductive JobCommand :=
  | CommandAuthCheck | CommandDryRun | CommandBook | CommandOther (s : string).
Inductive JobStatus :=
  | JobQueued | JobRunning | JobAwaitingApproval | JobSucceeded | JobFailed
  | JobCancelled | JobInterrupted | JobOutcomeUnknown | JobStatusOther (s : string).
Inductive ApprovalDecision := DecisionApprove | DecisionCancel | DecisionOther (s : string).

#[global] Instance RunMode_eq_dec : EqDecision RunMode.
Proof. solve_decision. Defined.
#[global] Instance JobCommand_eq_dec : EqDecision JobCommand.
Proof. solve_decision. Defined.
#[global] Instance JobStatus_eq_dec : EqDecision JobStatus.
Proof. solve_decision. Defined.
#[global] Instance ApprovalDecision_eq_dec : EqDecision ApprovalDecision.
Proof. solve_decision. Defined.

(** The strings the constants stand for. *)
Definition RunMode_string (m : RunMode) : string :=
  match m with
  | RunModeDryRun => "dry-run" | RunModeManual => "manual" | RunModeAuto => "auto"
  | RunModeOther s => s
  end.
Definition JobCommand_string (c : JobCommand) : string :=
  match c with
  | CommandAuthCheck => "auth-check" | CommandDryRun => "dry-run" | CommandBook => "book"
  | CommandOther s => s
  end.

(** The value a string read from outside (a form field, a command-line argument)
    has when converted to the type. *)
Definition JobStatus_string (s : JobStatus) : string :=
  match s with
  | JobQueued => "queued" | JobRunning => "running" | JobAwaitingApproval => "awaiting_approval"
  | JobSucceeded => "succeeded" | JobFailed => "failed" | JobCancelled => "cancelled"
  | JobInterrupted => "interrupted" | JobOutcomeUnknown => "outcome_unknown" | JobStatusOther t => t
  end.
Definition ApprovalDecision_string (d : ApprovalDecision) : string :=
  match d with DecisionApprove => "approve" | DecisionCancel => "cancel" | DecisionOther s => s end.
Definition RunMode_of (s : string) : RunMode :=
  if String.eqb s "dry-run" then RunModeDryRun else if String.eqb s "manual" then RunModeManual
  else if String.eqb s "auto" then RunModeAuto else RunModeOther s.
Definition JobCommand_of (s : string) : JobCommand :=
  if String.eqb s "auth-check" then CommandAuthCheck else if String.eqb s "dry-run" then CommandDryRun
  else if String.eqb s "book" then CommandBook else CommandOther s.

Definition RunMode_Valid (m : RunMode) : bool :=
  bool_decide (m = RunModeDryRun) || bool_decide (m = RunModeManual) || bool_decide (m = RunModeAuto).
Definition JobCommand_Valid (c : JobCommand) : bool :=
  bool_decide (c = CommandAuthCheck) || bool_decide (c = CommandDryRun) || bool_decide (c = CommandBook).
Definition ApprovalDecision_Valid (d : ApprovalDecision) : bool :=
  bool_decide (d = DecisionApprove) || bool_decide (d = DecisionCancel).

Definition JobStatus_Valid (s : JobStatus) : bool :=
  match s with
  | JobQueued | JobRunning | JobAwaitingApproval | JobSucceeded | JobFailed
  | JobCancelled | JobInterrupted | JobOutcomeUnknown => true
  | _ => false
  end.

Definition Terminal (s : JobStatus) : bool :=
  match s with
  | JobSucceeded | JobFailed | JobCancelled | JobInterrupted | JobOutcomeUnknown => true
  | _ => false
  end.

Definition CanTransition (from to : JobStatus) : bool :=
  match from with
  | JobQueued => bool_decide (to = JobRunning) || bool_decide (to = JobCancelled)
  | JobRunning =>
      bool_decide (to = JobAwaitingApproval) || bool_decide (to = JobSucceeded)
      || bool_decide (to = JobFailed) || bool_decide (to = JobCancelled)
      || bool_decide (to = JobInterrupted) || bool_decide (to = JobOutcomeUnknown)
  | JobAwaitingApproval =>
      bool_decide (to = JobRunning) || bool_decide (to = JobCancelled)
      || bool_decide (to = JobFailed) || bool_decide (to = JobInterrupted)
      || bool_decide (to = JobOutcomeUnknown)
  | _ => false
  end.

Record Job := MkJob {
  JID : Z;
  JUserID : Z;
  JBookingRequestID : option Z;
  JProfileID : Z;
  JOTPSourceID : Z;
  JCommand : JobCommand;
  JRunMode : RunMode;
  JRunImmediately : bool;
  JStatus : JobStatus;
  JDueAt : Time;
  JExpiresAt : option Time;
  JDedupKey : string;
  JWorkerOwner : string;
  JCancelRequested : bool;
  JMessage : string;
  JExitCode : option Z;
  JConfirmationStartedAt : option Time;
  JCreatedAt : Time;
  JUpdatedAt : Time;
  JStartedAt : option Time;
  JFinishedAt : option Time
}.

Definition immediate_run_ok (runImmediately : bool) (command : JobCommand) (mode : RunMode)
    (dueAt : Time) (expiresAt : option Time) : result unit :=
  if negb runImmediately then Ok tt
  else if negb (bool_decide (command = CommandBook)) || negb (bool_decide (mode = RunModeManual))
  then Err (Errorf "immediate bookings require the book command and manual approval")
  else
    match expiresAt with
    | None => Err (Errorf "immediate bookings require an expiry within 15 minutes of enqueue")
    | Some e =>
        if IsZero dueAt || negb (After e dueAt) || (MaxImmediateBookingLifetime <? Sub e dueAt)
        then Err (Errorf "immediate bookings require an expiry within 15 minutes of enqueue")
        else Ok tt
    end.
Definition ValidateImmediateRun (j : Job) : result unit :=
  immediate_run_ok (JRunImmediately j) (JCommand j) (JRunMode j) (JDueAt j) (JExpiresAt j).

Record JobEvent := MkJobEvent {
  EID : Z;
  EUserID : Z;
  EJobID : Z;
  ELevel : string;
  EKind : string;
  EMessage : string;
  EDataJSON : string;
  ECreatedAt : Time
}.

Record JobDecision := MkJobDecision {
  DJobID : Z;
  DUserID : Z;
  DDecision : ApprovalDecision;
  DCreatedAt : Time
}.

(** ** URL checks shared by bookings, settings and profiles *)

Definition is_nil {A} (l : list A) : bool := match l with [] => true | _ => false end.

Definition validateHTTPURL (value0 label : string) : result unit :=
  let value := trim_space value0 in
  if String.eqb value "" then Err (Errorf (label +:+ " is required"))
  else if 2048 <? len value then Err (Errorf (label +:+ " is too long"))
  else
    match url_Parse value with
    | None => Err (Errorf (label +:+ " must be an absolute HTTP(S) URL"))
    | Some parsed =>
        if String.eqb (UHost parsed) ""
           || negb (String.eqb (Scheme parsed) "http") && negb (String.eqb (Scheme parsed) "https")
        then Err (Errorf (label +:+ " must be an absolute HTTP(S) URL"))
        else if has_user parsed then Err (Errorf (label +:+ " must not contain credentials"))
        else Ok tt
    end.

Record yodelURL := MkYodelURL { yu_value : string; yu_label : string }.

(** The set of configured origins, or the error of the first one that is invalid. *)
Fixpoint approved_origins (allowed : list string) : result (list string) :=
  match allowed with
  | [] => Ok []
  | value :: rest =>
      match Canonical value with
      | Ok canonical =>
          if has_prefix canonical "https://"
          then more ← approved_origins rest; Ok (canonical :: more)
          else Err (Errorf "configured Yodel origin is invalid")
      | Err _ => Err (Errorf "configured Yodel origin is invalid")
      end
  end.

Definition check_yodel_url (approved : list string) (c : yodelURL) : result unit :=
  if blank (yu_value c) then Ok tt
  else
    match FromURL (yu_value c) with
    | Err _ => Err (Errorf (yu_label c +:+ " must be an absolute HTTPS URL"))
    | Ok canonical =>
        if negb (has_prefix canonical "https://")
        then Err (Errorf (yu_label c +:+ " must be an absolute HTTPS URL"))
        else if bool_decide (canonical ∈ approved) then Ok tt
        else Err (Errorf (yu_label c +:+ " must use an approved Yodel origin"))
    end.

Definition validateYodelURLs (allowedOrigins : list string) (urls : list yodelURL) : result unit :=
  approved ← approved_origins allowedOrigins;
  if is_nil approved then Err (Errorf "no approved Yodel origin is configured")
  else checks (map (check_yodel_url approved) urls).

(** ** Preparation timing *)

(** A [float64] is a binary64 number of the standard library's [SpecFloat]. *)
Definition float64 : Type := spec_float.
Definition f64_0_05 : float64 := S754_finite false 7205759403792794 (-57).
Definition f64_60 : float64 := S754_finite false 8444249301319680 (-47).
Definition f64_1_4 : float64 := S754_finite false 6305039478318694 (-52).
Definition f64_3_6 : float64 := S754_finite false 8106479329266893 (-51).
Definition IsNaN (f : float64) : bool := match f with S754_nan => true | _ => false end.
Definition IsInf (f : float64) : bool := match f with S754_infinity _ => true | _ => false end.

Record preparationTiming := MkTiming {
  t_PrepMinutesBefore : Z;
  t_AuthDeadlineMinutesBefore : Z;
  t_PollDeadlineSeconds : Z;
  t_PollMinSeconds : float64;
  t_PollMaxSeconds : float64
}.

(** [problem b m]: append the message [m] when [b] holds. *)
Definition problem (b : bool) (m : string) : list string := if b then [m] else [].

Definition timing_validationProblems (t : preparationTiming) : list string :=
  (if (t_PrepMinutesBefore t <? 0) || (t_AuthDeadlineMinutesBefore t <? 0)
   then ["preparation offsets cannot be negative"]
   else problem (MaxPrepMinutesBefore <? t_PrepMinutesBefore t)
          "preparation window cannot exceed 180 minutes")
  ++ problem (t_PrepMinutesBefore t <? t_AuthDeadlineMinutesBefore t)
       "auth deadline must fall within the preparation window"
  ++ problem ((t_PollDeadlineSeconds t <=? 0) || (900 <? t_PollDeadlineSeconds t)
       || SFltb (t_PollMinSeconds t) f64_0_05 || SFltb f64_60 (t_PollMinSeconds t)
       || SFltb (t_PollMaxSeconds t) (t_PollMinSeconds t) || SFltb f64_60 (t_PollMaxSeconds t)
       || IsNaN (t_PollMinSeconds t) || IsNaN (t_PollMaxSeconds t)
       || IsInf (t_PollMinSeconds t) || IsInf (t_PollMaxSeconds t))
       "poll timing must fit the worker bounds".

Definition problems_error (problems : list string) : result unit :=
  match problems with [] => Ok tt | _ => Err (Errorf (join "; " problems)) end.

(** ** Booking requests and lake settings

    A Go slice field may be [nil], which [PassOrder] tells from an empty one: such a
    field is an [option] of a list. *)

Inductive PassType := PassAllDay | PassAfternoon | PassMorning | PassOther (s : string).
Inductive BookingKind :=
  | BookingKindSaved | BookingKindSnapshot | BookingKindArchived | BookingKindOther (s : string).
#[global] Instance PassType_eq_dec : EqDecision PassType.
Proof. solve_decision. Defined.
#[global] Instance BookingKind_eq_dec : EqDecision BookingKind.
Proof. solve_decision. Defined.

Definition PassType_string (p : PassType) : string :=
  match p with
  | PassAllDay => "all_day" | PassAfternoon => "afternoon" | PassMorning => "morning"
  | PassOther s => s
  end.
Definition PassType_of (s : string) : PassType :=
  if String.eqb s "all_day" then PassAllDay else if String.eqb s "afternoon" then PassAfternoon
  else if String.eqb s "morning" then PassMorning else PassOther s.

Record BookingRequest := MkBooking {
  BID : Z;
  BUserID : Z;
  BName : string;
  BKind : BookingKind;
  BLakeID : string;
  BProfileID : Z;
  BVehicleKeyword : string;
  BEnabled : bool;
  BScheduleEnabled : bool;
  BTargetDate : string;
  BTimezone : string;
  BReleaseTime : string;
  BReleaseDaysBefore : option Z;
  BPrepMinutesBefore : Z;
  BAuthDeadlineMinutesBefore : Z;
  BPollDeadlineSeconds : Z;
  BPollMinSeconds : float64;
  BPollMaxSeconds : float64;
  BConfirmationMode : RunMode;
  BLoginProbeURL : string;
  BAllDayPassURL : string;
  BHalfDayPassURL : string;
  BPreferredPasses : option (list PassType);
  BCheckAllDay : bool;
  BCheckAfternoon : bool;
  BCheckMorning : bool;
  BCreatedAt : Time;
  BUpdatedAt : Time
}.

Record LakeSettings := MkLakeSettings {
  LSUserID : Z;
  LSLakeID : string;
  LSBookingProfileID : Z;
  LSVehicleKeyword : string;
  LSTimezone : string;
  LSReleaseTime : string;
  LSReleaseDaysBefore : Z;
  LSAllDayPassURL : string;
  LSHalfDayPassURL : string;
  LSPreferredPasses : option (list PassType);
  LSUpdatedAt : Time
}.

Definition MaxReleaseDaysBefore : Z := 365.

Definition EffectiveLakeID (r : BookingRequest) : string :=
  if String.eqb (BLakeID r) "" then DefaultLakeID else BLakeID r.
Definition EffectiveReleaseDaysBefore (r : BookingRequest) : Z :=
  match BReleaseDaysBefore r with
  | Some days => days
  | None => LakeReleaseDaysBefore (Resolve_value (BLakeID r))
  end.
Definition PassOrder (r : BookingRequest) : list PassType :=
  match BPreferredPasses r with
  | Some passes => passes
  | None =>
      (if BCheckAllDay r then [PassAllDay] else [])
      ++ (if BCheckAfternoon r then [PassAfternoon] else [])
      ++ (if BCheckMorning r then [PassMorning] else [])
  end.

(** The pass preferences one after the other, with the ones already seen. *)
Fixpoint pass_problems (lake : result Lake) (seen : list PassType) (passes : list PassType) : list string :=
  match passes with
  | [] => []
  | pass :: rest =>
      (match lake with
       | Ok l =>
           if negb (bool_decide (PassType_string pass ∈ SupportedPasses l))
           then ["pass preference is not supported by the selected lake"]
           else problem (bool_decide (pass ∈ seen)) "each pass preference can only be selected once"
       | Err _ => problem (bool_decide (pass ∈ seen)) "each pass preference can only be selected once"
       end)
      ++ pass_problems lake (pass :: seen) rest
  end.

Definition error_message (e : error) : string :=
  match e with Errorf m => m | Wrap m _ => m | _ => "" end.
Definition result_problem (r : result unit) : list string :=
  match r with Ok _ => [] | Err e => [error_message e] end.

Section TimeZones.
Context `{TimeZoneDB}.

Definition settings_validationProblems (s : LakeSettings) : list string :=
  let lake := Resolve (LSLakeID s) in
  let passes := default [] (LSPreferredPasses s) in
  let has p := bool_decide (p ∈ passes) in
  problem (LSBookingProfileID s <? 0) "booking account is invalid"
  ++ (match lake with Ok _ => [] | Err e => [error_message e] end)
  ++ problem (MaxDefaultVehicleBytes <? len (LSVehicleKeyword s)) "vehicle is too long"
  ++ (if MaxTimezoneBytes <? len (LSTimezone s) then ["timezone is too long"]
      else problem (negb (is_ok (LoadLocation (LSTimezone s)))) "timezone is invalid")
  ++ problem (negb (is_ok (ParseClock (LSReleaseTime s)))) "release time must use HH:MM"
  ++ problem ((LSReleaseDaysBefore s <? 0) || (MaxReleaseDaysBefore <? LSReleaseDaysBefore s))
       "release days before visit must be between 0 and 365"
  ++ (match passes with
      | [] => ["at least one pass preference is required"]
      | _ => problem (3 <? Z.of_nat (List.length passes)) "at most three pass preferences are allowed"
      end)
  ++ pass_problems lake [] passes
  ++ (if has PassAllDay then result_problem (validateHTTPURL (LSAllDayPassURL s) "all-day pass URL") else [])
  ++ (if has PassAfternoon || has PassMorning
      then result_problem (validateHTTPURL (LSHalfDayPassURL s) "half-day pass URL") else []).

Definition settings_Validate (s : LakeSettings) : result unit :=
  problems_error (settings_validationProblems s).

Definition settings_ValidateForOrigins (s : LakeSettings) (allowed : list string) : result unit :=
  _ ← settings_Validate s;
  validateYodelURLs allowed
    [MkYodelURL (LSAllDayPassURL s) "all-day pass URL"; MkYodelURL (LSHalfDayPassURL s) "half-day pass URL"].

Definition lakeSettings (r : BookingRequest) : LakeSettings :=
  MkLakeSettings 0 (BLakeID r) 0 (BVehicleKeyword r) (BTimezone r) (BReleaseTime r)
    (EffectiveReleaseDaysBefore r) (BAllDayPassURL r) (BHalfDayPassURL r) (Some (PassOrder r)) zero_time.

Definition preparationProblems (r : BookingRequest) : list string :=
  timing_validationProblems
    (MkTiming (BPrepMinutesBefore r) (BAuthDeadlineMinutesBefore r) (BPollDeadlineSeconds r)
       (BPollMinSeconds r) (BPollMaxSeconds r)).

Definition booking_problems (r : BookingRequest) : list string :=
  problem (negb (bool_decide (BKind r = BookingKindOther ""))
           && negb (bool_decide (BKind r = BookingKindSaved))
           && negb (bool_decide (BKind r = BookingKindSnapshot))
           && negb (bool_decide (BKind r = BookingKindArchived))) "booking kind is invalid"
  ++ (if blank (BName r) then ["name is required"]
      else problem (MaxResourceNameBytes <? len (BName r)) "name is too long")
  ++ problem (BProfileID r <=? 0) "profile is required"
  ++ problem (blank (BVehicleKeyword r)) "vehicle is required"
  ++ problem (negb (is_ok (of_option (Errorf "") (parse_date (BTargetDate r)))))
       "target date must use YYYY-MM-DD"
  ++ settings_validationProblems (lakeSettings r)
  ++ preparationProblems r
  ++ problem (negb (RunMode_Valid (BConfirmationMode r)) || bool_decide (BConfirmationMode r = RunModeDryRun))
       "confirmation mode must be manual or auto".

Definition booking_Validate (r : BookingRequest) : result unit :=
  problems_error (booking_problems r).

Definition booking_ValidateForOrigins (r : BookingRequest) (allowed : list string) : result unit :=
  _ ← booking_Validate r;
  validateYodelURLs allowed
    [MkYodelURL (BAllDayPassURL r) "all-day pass URL"; MkYodelURL (BHalfDayPassURL r) "half-day pass URL"].

End TimeZones.

Definition DefaultLakeSettings (lake : Lake) : LakeSettings :=
  MkLakeSettings 0 (LakeID lake) 0 "" (LakeTimezone lake) (LakeReleaseTime lake)
    (LakeReleaseDaysBefore lake) (LakeAllDayPassURL lake) (LakeHalfDayPassURL lake)
    (match SupportedPasses lake with [] => None | ps => Some (map PassType_of ps) end) zero_time.

Definition ApplyTo (s : LakeSettings) (r : BookingRequest) : BookingRequest :=
  MkBooking (BID r) (BUserID r) (BName r) (BKind r) (LSLakeID s) (BProfileID r)
    (LSVehicleKeyword s) (BEnabled r) (BScheduleEnabled r) (BTargetDate r) (LSTimezone s)
    (LSReleaseTime s) (Some (LSReleaseDaysBefore s)) (BPrepMinutesBefore r)
    (BAuthDeadlineMinutesBefore r) (BPollDeadlineSeconds r) (BPollMinSeconds r)
    (BPollMaxSeconds r) (BConfirmationMode r) (BLoginProbeURL r) (LSAllDayPassURL s)
    (LSHalfDayPassURL s) (LSPreferredPasses s) (BCheckAllDay r) (BCheckAfternoon r)
    (BCheckMorning r) (BCreatedAt r) (BUpdatedAt r).

(** ** Profiles *)

Record Profile := MkProfile {
  PID : Z;
  PUserID : Z;
  PProviderID : string;
  PLakeID : string;
  PName : string;
  PDefaultVehicle : string;
  PLoginProbeURL : string;
  POTPSourceID : Z;
  PHeadless : bool;
  PBrowserChannel : string;
  PBrowserExecutable : string;
  PDefaultTimeoutMS : Z;
  PEnabled : bool;
  PCreatedAt : Time;
  PUpdatedAt : Time
}.

Definition profile_EffectiveLakeID (p : Profile) : string :=
  if String.eqb (PLakeID p) "" then DefaultLakeID else PLakeID p.
Definition EffectiveProviderID (p : Profile) : string :=
  if String.eqb (PProviderID p) "" then ProviderYodel else PProviderID p.

Definition supported_channel (c : string) : bool :=
  bool_decide (to_lower (trim_space c) ∈ [""; "chrome"; "chrome-beta"; "chrome-dev"; "chrome-canary"]).

Definition profile_Validate (p : Profile) : result unit :=
  checks [
    reject (negb (String.eqb (EffectiveProviderID p) ProviderYodel)) (Errorf "unsupported sign-in provider");
    reject (blank (PName p)) (Errorf "profile name is required");
    reject (MaxResourceNameBytes <? len (PName p)) (Errorf "profile name is too long");
    reject (MaxDefaultVehicleBytes <? len (PDefaultVehicle p)) (Errorf "default vehicle is too long");
    reject ((MaxBrowserChannelBytes <? len (PBrowserChannel p))
            || (MaxBrowserExecutableBytes <? len (PBrowserExecutable p)))
      (Errorf "browser selection is too long");
    reject (negb (supported_channel (PBrowserChannel p)))
      (Errorf "choose bundled Chromium or a supported Chrome channel");
    reject (negb (blank (PBrowserExecutable p)))
      (Errorf "browser executable paths are operator-controlled; clear the profile override");
    reject (POTPSourceID p <=? 0) (Errorf "OTP source is required");
    reject ((PDefaultTimeoutMS p <? 1000) || (120000 <? PDefaultTimeoutMS p))
      (Errorf "default timeout must be between 1000 and 120000 milliseconds");
    validateHTTPURL (PLoginProbeURL p) "Yodel login URL"].

Definition profile_ValidateForOrigins (p : Profile) (allowed : list string) : result unit :=
  _ ← profile_Validate p;
  validateYodelURLs allowed [MkYodelURL (PLoginProbeURL p) "Yodel login URL"].

(** The account an unattended booking uses: the loop returns the chosen profile as
    soon as it is seen, and collects the eligible ones otherwise. *)
Definition eligible_profile (lake : Lake) (s : LakeSettings) (p : Profile) : bool :=
  negb ((0 <? LSUserID s) && negb (PUserID p =? LSUserID s))
  && String.eqb (profile_EffectiveLakeID p) (LakeID lake)
  && String.eqb (EffectiveProviderID p) (ProviderID lake)
  && PEnabled p.

Fixpoint scan_profiles (lake : Lake) (s : LakeSettings) (ps : list Profile) (eligible : list Profile)
    : Profile + list Profile :=
  match ps with
  | [] => inr eligible
  | p :: rest =>
      if negb (eligible_profile lake s p) then scan_profiles lake s rest eligible
      else if LSBookingProfileID s =? PID p then inl p
      else scan_profiles lake s rest (eligible ++ [p])
  end.

Definition ResolveLakeBookingProfile (lake : Lake) (s : LakeSettings) (ps : list Profile) : result Profile :=
  match scan_profiles lake s ps [] with
  | inl p => Ok p
  | inr eligible =>
      if negb (LSBookingProfileID s =? 0) then Err (Sentinel ErrLakeConnectionUnavailable)
      else match eligible with
           | [] => Err (Sentinel ErrLakeConnectionRequired)
           | [p] => Ok p
           | _ => Err (Sentinel ErrLakeConnectionAmbiguous)
           end
  end.

(** ** Account settings *)

Record AccountSettings := MkAccountSettings {
  ASUserID : Z;
  ASDefaultConfirmationMode : RunMode;
  ASHeadless : bool;
  ASBrowserChannel : string;
  ASDefaultTimeoutMS : Z;
  ASPrepMinutesBefore : Z;
  ASAuthDeadlineMinutesBefore : Z;
  ASPollDeadlineSeconds : Z;
  ASPollMinSeconds : float64;
  ASPollMaxSeconds : float64;
  ASUpdatedAt : Time
}.

Definition DefaultAccountSettings : AccountSettings :=
  MkAccountSettings 0 RunModeManual true "" 15000 30 5 120 f64_1_4 f64_3_6 zero_time.

Definition ApplyToBooking (s : AccountSettings) (r : BookingRequest) : BookingRequest :=
  MkBooking (BID r) (BUserID r) (BName r) (BKind r) (BLakeID r) (BProfileID r)
    (BVehicleKeyword r) (BEnabled r) (BScheduleEnabled r) (BTargetDate r) (BTimezone r)
    (BReleaseTime r) (BReleaseDaysBefore r) (ASPrepMinutesBefore s)
    (ASAuthDeadlineMinutesBefore s) (ASPollDeadlineSeconds s) (ASPollMinSeconds s)
    (ASPollMaxSeconds s) (BConfirmationMode r) (BLoginProbeURL r) (BAllDayPassURL r)
    (BHalfDayPassURL r) (BPreferredPasses r) (BCheckAllDay r) (BCheckAfternoon r)
    (BCheckMorning r) (BCreatedAt r) (BUpdatedAt r).

Definition account_Validate (s : AccountSettings) : result unit :=
  _ ← reject (negb (bool_decide (ASDefaultConfirmationMode s = RunModeOther ""))
              && negb (bool_decide (ASDefaultConfirmationMode s = RunModeManual))
              && negb (bool_decide (ASDefaultConfirmationMode s = RunModeAuto)))
        (Errorf "choose manual approval or automatic confirmation");
  _ ← reject (MaxBrowserChannelBytes <? len (ASBrowserChannel s)) (Errorf "browser selection is too long");
  _ ← reject (negb (supported_channel (ASBrowserChannel s)))
        (Errorf "choose bundled Chromium or a supported Chrome channel");
  _ ← reject ((ASDefaultTimeoutMS s <? 1000) || (120000 <? ASDefaultTimeoutMS s))
        (Errorf "default timeout must be between 1000 and 120000 milliseconds");
  problems_error (timing_validationProblems
    (MkTiming (ASPrepMinutesBefore s) (ASAuthDeadlineMinutesBefore s) (ASPollDeadlineSeconds s)
       (ASPollMinSeconds s) (ASPollMaxSeconds s))).

(** ** One-time-code sources, accounts and sessions *)

Inductive OTPProvider := OTPProviderBlueBubbles | OTPProviderTwilio | OTPProviderOther (s : string).
Inductive UserRole := RoleAdmin | RoleMember | RoleOther (s : string).
Inductive UserStatus := UserActive | UserDisabled | UserStatusOther (s : string).
#[global] Instance OTPProvider_eq_dec : EqDecision OTPProvider.
Proof. solve_decision. Defined.
#[global] Instance UserRole_eq_dec : EqDecision UserRole.
Proof. solve_decision. Defined.
#[global] Instance UserStatus_eq_dec : EqDecision UserStatus.
Proof. solve_decision. Defined.

Definition OTPProvider_Valid (p : OTPProvider) : bool :=
  bool_decide (p = OTPProviderBlueBubbles) || bool_decide (p = OTPProviderTwilio).
Definition UserRole_Valid (r : UserRole) : bool :=
  bool_decide (r = RoleAdmin) || bool_decide (r = RoleMember).
Definition UserStatus_Valid (s : UserStatus) : bool :=
  bool_decide (s = UserActive) || bool_decide (s = UserDisabled).
Definition OTPProvider_string (p : OTPProvider) : string :=
  match p with
  | OTPProviderBlueBubbles => "bluebubbles" | OTPProviderTwilio => "twilio" | OTPProviderOther s => s
  end.

Record OTPSource := MkOTPSource {
  OSID : Z;
  OSUserID : Z;
  OSName : string;
  OSProvider : OTPProvider;
  OSIdentity : string;
  OSPairingChatGUID : string;
  OSPairingSender : string;
  OSPairingService : string;
  OSCreatedAt : Time;
  OSUpdatedAt : Time
}.

Definition source_Validate (s : OTPSource) : result unit :=
  checks [
    reject (blank (OSName s)) (Errorf "OTP source name is required");
    reject (MaxResourceNameBytes <? len (OSName s)) (Errorf "OTP source name is too long");
    reject (negb (OTPProvider_Valid (OSProvider s)))
      (Errorf ("unsupported OTP provider " +:+ quoted (OTPProvider_string (OSProvider s))));
    reject (blank (OSIdentity s)) (Errorf "OTP source identity is required");
    reject (MaxOTPIdentityBytes <? len (OSIdentity s)) (Errorf "OTP source identity is too long");
    reject ((MaxPairingChatGUIDBytes <? len (OSPairingChatGUID s))
            || (MaxPairingSenderBytes <? len (OSPairingSender s))
            || (MaxPairingServiceBytes <? len (OSPairingService s)))
      (Errorf "OTP source pairing fingerprint is too long")].

Record User := MkUser {
  UID : Z;
  UUsername : string;
  URole : UserRole;
  UStatus : UserStatus;
  UMustChangePassword : bool;
  UCreatedAt : Time;
  UUpdatedAt : Time
}.

Record Session := MkSession {
  SID : string;
  SUserID : Z;
  SCSRFTokenHash : string;
  SExpiresAt : Time;
  SCreatedAt : Time;
  SLastSeenAt : Time
}.

(** ** Network settings *)

Definition MaxNetworkAllowedHosts : Z := 64.
Definition MaxNetworkHostBytes : Z := 512.

Record NetworkSettings := MkNetworkSettings {
  NSHostCheckEnabled : bool;
  NSAllowedHosts : list string
}.

Fixpoint normalize_hosts (values seen : list string) : result (list string) :=
  match values with
  | [] => Ok []
  | value0 :: rest =>
      if MaxNetworkHostBytes <? len value0
      then Err (Errorf "each allowed hostname must be no longer than 512 bytes")
      else
        let value := trim_space value0 in
        if String.eqb value "" then normalize_hosts rest seen
        else
          match Host value with
          | Err _ => Err (Errorf "enter exact hostnames or IP addresses with an optional port, without URLs, paths, or wildcards")
          | Ok host =>
              if bool_decide (host ∈ seen) then normalize_hosts rest seen
              else more ← normalize_hosts rest (host :: seen); Ok (host :: more)
          end
  end.

Definition Normalize (s : NetworkSettings) : result NetworkSettings :=
  if MaxNetworkAllowedHosts <? Z.of_nat (List.length (NSAllowedHosts s))
  then Err (Errorf "enter no more than 64 allowed hostnames")
  else hosts ← normalize_hosts (NSAllowedHosts s) []; Ok (MkNetworkSettings (NSHostCheckEnabled s) hosts).
