(* ===== verification/Scheduler.v ===== *)
(** * Release windows (src/internal/scheduler)

    The instants at which a booking is prepared, released and given up. *)

From S2P Require Import Prelude GoStrings GoTime Domain.
From Stdlib Require Import Ascii String.

Open Scope Z_scope.

Record Window := MkWindow {
  ReleaseAt : Time;
  PrepAt : Time;
  AuthDeadlineAt : Time;
  PollEndsAt : Time;
  (** the location [ReleaseAt] and the other instants carry *)
  WLocation : Location
}.

(** The release instant: midnight of the target date, moved by whole days, at the
    clock time of the release. *)
Definition release_instant (loc : Location) (target : Time) (days hour minute : Z) : Time :=
  let releaseDate := date_in loc (AddDate loc target 0 0 (- days)) in
  Date (c_year releaseDate) (c_month releaseDate) (c_day releaseDate) hour minute 0 0 loc.

Definition window_at (r : BookingRequest) (loc : Location) (release : Time) : Window :=
  MkWindow release
    (Add release (dur_mul (wrap64 (- BPrepMinutesBefore r)) Minute))
    (Add release (dur_mul (wrap64 (- BAuthDeadlineMinutesBefore r)) Minute))
    (Add release (dur_mul (BPollDeadlineSeconds r) Second))
    loc.

Definition WindowFor `{TimeZoneDB} (r : BookingRequest) : result Window :=
  _ ← booking_Validate r;
  location ← LoadLocation (BTimezone r);
  target ← ParseDateOnly (BTargetDate r) location;
  clock ← ParseClock (BReleaseTime r);
  Ok (window_at r location
        (release_instant location target (EffectiveReleaseDaysBefore r) clock.1 clock.2)).

(** ** What a valid request gives *)

Section valid.
Context `{TimeZoneDB}.
Implicit Types r : BookingRequest.

Lemma problem_nil b m : problem b m = [] ↔ b = false.
Proof. destruct b; simpl; naive_solver. Qed.

Lemma problems_error_Ok ps u : problems_error ps = Ok u ↔ ps = [].
Proof. destruct u, ps; simpl; naive_solver. Qed.

Lemma timing_ok t :
  timing_validationProblems t = [] →
  0 <= t_AuthDeadlineMinutesBefore t <= t_PrepMinutesBefore t ∧
  t_PrepMinutesBefore t <= 180 ∧ 0 < t_PollDeadlineSeconds t <= 900.
Proof.
  unfold timing_validationProblems. intros Ht.
  apply app_nil in Ht as [Hneg Ht]. apply app_nil in Ht as [Hauth Hpoll].
  apply problem_nil in Hauth, Hpoll. bool_to_prop.
  destruct (_ || _) eqn:Hb in Hneg; [done|]. apply problem_nil in Hneg.
  bool_to_prop. unfold MaxPrepMinutesBefore in *. lia.
Qed.

(** The parts of a successful validation the scheduler relies on. *)
Lemma booking_Validate_Ok r :
  booking_Validate r = Ok tt →
  timing_validationProblems
    (MkTiming (BPrepMinutesBefore r) (BAuthDeadlineMinutesBefore r) (BPollDeadlineSeconds r)
       (BPollMinSeconds r) (BPollMaxSeconds r)) = [] ∧
  is_ok (LoadLocation (BTimezone r)) = true ∧
  is_ok (ParseClock (BReleaseTime r)) = true ∧
  0 <= EffectiveReleaseDaysBefore r <= 365 ∧
  ∃ c, parse_date (BTargetDate r) = Some c.
Proof.
  intros Hv. apply problems_error_Ok in Hv. unfold booking_problems in Hv.
  repeat (apply app_nil in Hv as [? Hv]).
  match goal with Hs : settings_validationProblems _ = [] |- _ =>
    unfold settings_validationProblems in Hs; cbv zeta in Hs;
    repeat (let Hx := fresh in apply app_nil in Hs as [Hx Hs]) end.
  cbn [lakeSettings LSTimezone LSReleaseTime LSReleaseDaysBefore] in *.
  split; [assumption|].
  destruct (MaxTimezoneBytes <? len (BTimezone r)); [discriminate|].
  repeat match goal with Hp : problem _ _ = [] |- _ => apply problem_nil in Hp end.
  bool_to_prop. unfold MaxReleaseDaysBefore in *. split_and!; try assumption; try lia.
  destruct (parse_date (BTargetDate r)); [eauto|done].
Qed.
End valid.

(** ** The order and the place of the instants *)

Lemma window_minutes m : 0 <= m <= 180 → dur_mul (wrap64 (- m)) Minute = - m * Minute.
Proof.
  intros Hm. unfold dur_mul.
  rewrite (wrap64_id (- m)), wrap64_id; unfold min_int64, max_int64, Minute, Second; lia.
Qed.
Lemma window_seconds s : 0 <= s <= 900 → dur_mul s Second = s * Second.
Proof.
  intros Hs. unfold dur_mul. rewrite wrap64_id; unfold min_int64, max_int64, Second; lia.
Qed.

(** The window of a valid request. *)
Lemma WindowFor_valid `{TimeZoneDB} r :
  booking_Validate r = Ok tt →
  ∃ w, WindowFor r = Ok w ∧
    PrepAt w = ReleaseAt w - BPrepMinutesBefore r * Minute ∧
    AuthDeadlineAt w = ReleaseAt w - BAuthDeadlineMinutesBefore r * Minute ∧
    PollEndsAt w = ReleaseAt w + BPollDeadlineSeconds r * Second ∧
    PrepAt w <= AuthDeadlineAt w <= ReleaseAt w ∧ ReleaseAt w < PollEndsAt w ∧
    PollEndsAt w - PrepAt w <= 195 * Minute.
Proof.
  intros Hv. destruct (booking_Validate_Ok r Hv) as (Ht & Hloc & Hclock & _ & c & Hc).
  apply timing_ok in Ht as (Hauth & Hprep & Hpoll); simpl in *.
  unfold WindowFor. rewrite Hv.
  destruct (LoadLocation (BTimezone r)) as [loc|]; [|done].
  unfold ParseDateOnly. rewrite Hc.
  destruct (ParseClock (BReleaseTime r)) as [[h m]|]; [|done].
  eexists. split; [reflexivity|].
  cbn [ReleaseAt PrepAt AuthDeadlineAt PollEndsAt window_at]. unfold Add.
  rewrite !window_minutes, window_seconds by lia. unfold Minute, Second in *. lia.
Qed.

(** A booking request that passes validation has a release window, its four
    instants are where its minutes and seconds put them (no 64-bit duration wraps),
    and preparation starts no later than the sign-in deadline, which is no later
    than the release, which is strictly before the end of polling; the whole window
    is at most 195 minutes. *)
Theorem window_total_and_ordered `{TimeZoneDB} r :
  booking_Validate r = Ok tt →
  ∃ w, WindowFor r = Ok w ∧
    PrepAt w = ReleaseAt w - BPrepMinutesBefore r * Minute ∧
    AuthDeadlineAt w = ReleaseAt w - BAuthDeadlineMinutesBefore r * Minute ∧
    PollEndsAt w = ReleaseAt w + BPollDeadlineSeconds r * Second ∧
    PrepAt w <= AuthDeadlineAt w <= ReleaseAt w ∧ ReleaseAt w < PollEndsAt w ∧
    PollEndsAt w - PrepAt w <= 195 * Minute.
Proof. apply WindowFor_valid. Qed.

(** The release instant shows the release time on the day the visit date minus the
    release days gives, when the local midnights and that time exist. *)
Lemma release_instant_wall loc c days h m :
  valid_civil c = true → 0 <= h < 24 → 0 <= m < 60 →
  let n := days_from_civil (c_year c) (c_month c) (c_day c) in
  let target := Date (c_year c) (c_month c) (c_day c) 0 0 0 0 loc in
  wall_exists loc (n * 86400) = true →
  wall_exists loc ((n - days) * 86400) = true →
  wall_exists loc ((n - days) * 86400 + (h * 3600 + m * 60)) = true →
  let t := release_instant loc target days h m in
  date_in loc t = civil_from_days (n - days) ∧ clock_hour loc t = h ∧ clock_minute loc t = m.
Proof.
  intros Hc Hh Hm n target H1 H2 H3.
  assert (Hmon : 1 <= c_month c <= 12) by (unfold valid_civil in Hc; bool_to_prop; lia).
  assert (Ht : target = wall_instant loc (n * 86400) * Second).
  { subst target n. rewrite Date_wall by done. do 2 f_equal. lia. }
  destruct (date_in_of_local loc target n 0) as (Hd & Hhh & Hmm & Hss).
  { rewrite Ht, local_sec_wall by done. lia. }
  { lia. }
  pose proof (civil_from_days_from_civil c Hc) as Hround. fold n in Hround.
  rewrite Hround in Hd. clear Hround.
  assert (Hrd : AddDate loc target 0 0 (- days) = wall_instant loc ((n - days) * 86400) * Second).
  { unfold AddDate. rewrite Hd, Hhh, Hmm, Hss, Ht, Z.mod_mul by (unfold Second; lia).
    rewrite !Z.add_0_r, Date_wall by done. rewrite days_from_civil_day.
    subst n. rewrite (days_from_civil_day _ _ (c_day c)).
    change (0 / 3600) with 0. change (0 mod 3600 / 60) with 0. do 2 f_equal. lia. }
  destruct (date_in_of_local loc (AddDate loc target 0 0 (- days)) (n - days) 0) as (Hd2 & _).
  { rewrite Hrd, local_sec_wall by done. lia. }
  { lia. }
  intros t. subst t. unfold release_instant. cbv zeta. rewrite Hd2.
  rewrite Date_wall.
  2: { unfold civil_from_days. cbv zeta. set (n' := n - days + 719468).
       clear. repeat (case_match; cbn [c_month]); bool_to_prop; Z.to_euclidean_division_equations; lia. }
  rewrite days_from_civil_from_days.
  destruct (date_in_of_local loc
    (wall_instant loc ((n - days) * 86400 + (h * 3600 + m * 60)) * Second) (n - days) (h * 3600 + m * 60))
    as (-> & -> & -> & _); [by rewrite local_sec_wall|lia|].
  split_and!; [done|..]; Z.to_euclidean_division_equations; lia.
Qed.

Lemma parse_digits_nonneg acc s v : 0 <= acc → digits_onto acc s = Some v → 0 <= v.
Proof.
  revert acc. induction s as [|c s IH]; cbn [digits_onto]; intros acc Hacc Hv; [naive_solver|].
  destruct (is_digit c) eqn:Hd; [|done]. apply IH in Hv; [done|].
  unfold is_digit, in_range, digit_value in *. bool_to_prop.
  match goal with H : (48 <=? _)%nat = true |- _ => apply Nat.leb_le in H end. lia.
Qed.

Lemma getnum_bounds fixed s v rest : getnum fixed s = Some (v, rest) → 0 <= v.
Proof.
  assert (Hdig : ∀ c, is_digit c = true → 0 <= digit_value c).
  { intros c Hd. unfold is_digit, in_range, digit_value in *. bool_to_prop.
    match goal with H : (48 <=? _)%nat = true |- _ => apply Nat.leb_le in H end. lia. }
  unfold getnum. intros Hg. repeat case_match; simplify_eq; bool_to_prop;
    repeat match goal with H : is_digit _ = true |- _ => apply Hdig in H end; lia.
Qed.

Lemma ParseClock_bounds s h m : ParseClock s = Ok (h, m) → 0 <= h < 24 ∧ 0 <= m < 60.
Proof.
  unfold ParseClock. intros Hp. apply of_option_Ok in Hp. inv_opt. bool_to_prop.
  repeat match goal with H : getnum _ _ = _ |- _ => apply getnum_bounds in H end. lia.
Qed.

Lemma parse_date_valid s c : parse_date s = Some c → valid_civil c = true.
Proof.
  unfold parse_date. intros Hp. destruct s as [|? [|? [|? [|? s]]]]; try done.
  inv_opt. bool_to_prop. done.
Qed.

(** The release instant of a window is, on the clocks of the booking's time
    zone, the release time on the day that lies the release days before the visit
    date, whenever local midnight exists on both days and the release time exists
    on the release day (no zone transition jumps over them). *)
Theorem window_release_wall_clock `{TimeZoneDB} r w loc c h m :
  WindowFor r = Ok w →
  LoadLocation (BTimezone r) = Ok loc →
  parse_date (BTargetDate r) = Some c →
  ParseClock (BReleaseTime r) = Ok (h, m) →
  let n := days_from_civil (c_year c) (c_month c) (c_day c) in
  let days := EffectiveReleaseDaysBefore r in
  wall_exists loc (n * 86400) = true →
  wall_exists loc ((n - days) * 86400) = true →
  wall_exists loc ((n - days) * 86400 + (h * 3600 + m * 60)) = true →
  WLocation w = loc ∧ date_in loc (ReleaseAt w) = civil_from_days (n - days) ∧
  clock_hour loc (ReleaseAt w) = h ∧ clock_minute loc (ReleaseAt w) = m.
Proof.
  intros Hw Hloc Hc Hp n days H1 H2 H3.
  unfold WindowFor, ParseDateOnly in Hw. rewrite Hloc, Hp, Hc in Hw. inv_ok.
  destruct (ParseClock_bounds _ _ _ Hp). cbn [ReleaseAt WLocation window_at fst snd].
  split; [done|]. apply release_instant_wall; eauto using parse_date_valid.
Qed.

(** ** Concrete requests *)

(** Zones of the witnesses: Pacific standard time, and the half year around the
    night of September 7, 2025 in Santiago, when the clocks go from 00:00 to 01:00. *)
Definition pacific : Location := FixedZone "America/Vancouver" (-28800).
Definition santiago : Location :=
  MkLocation "America/Santiago" (λ s,
    if s <? 1757217600 then Period (-14400) 1743908400 1757217600
    else Period (-10800) 1757217600 1775358000).

#[local] Instance sample_zones : TimeZoneDB := {
  tz_local := UTC;
  tz_file name :=
    if String.eqb name "America/Vancouver" then Some pacific
    else if String.eqb name "America/Santiago" then Some santiago else None;
  tz_abbreviation location _ := if String.eqb (loc_name location) "UTC" then "UTC" else "PST"
}.

Definition sample_booking (timezone date : string) (days : Z) : BookingRequest :=
  ApplyToBooking DefaultAccountSettings
    (MkBooking 7 3 "Saturday" BookingKindSaved "buntzen" 5 "Car" true false date timezone "07:00"
       (Some days) 0 0 0 f64_1_4 f64_1_4 RunModeManual ""
       "https://yodelportal.com/buntzen-lake/All-Day-Pass"
       "https://yodelportal.com/buntzen-lake/Half-Day-Pass"
       (Some [PassAllDay; PassMorning]) false false false zero_time zero_time).

(** The release instant of a sample, from its evaluation. *)
Lemma window_release_eq tz date days t :
  match WindowFor (sample_booking tz date days) with
  | Ok w => ReleaseAt w =? t | Err _ => false end = true →
  ∃ w, WindowFor (sample_booking tz date days) = Ok w ∧ ReleaseAt w = t.
Proof.
  destruct (WindowFor _) as [w|]; [|done]. intros Ht. bool_to_prop. eauto.
Qed.

Lemma window_total_and_ordered_witness :
  ∃ w, WindowFor (sample_booking "America/Vancouver" "2026-01-10" 1) = Ok w ∧
    ReleaseAt w = 1767970800 * Second ∧ PrepAt w <= AuthDeadlineAt w.
Proof.
  destruct (window_release_eq "America/Vancouver" "2026-01-10" 1 (1767970800 * Second)
    ltac:(vm_compute; reflexivity)) as (w & Hw & Hr).
  destruct (window_total_and_ordered (sample_booking "America/Vancouver" "2026-01-10" 1))
    as (w' & Hw' & _ & _ & _ & [Hle _] & _); [vm_compute; reflexivity|].
  rewrite Hw' in Hw. injection Hw as ->. exists w. auto.
Defined.

Lemma window_release_wall_clock_witness :
  ∃ w, WindowFor (sample_booking "America/Vancouver" "2026-03-01" 1) = Ok w ∧
    date_in pacific (ReleaseAt w) = Civil 2026 2 28 ∧ clock_hour pacific (ReleaseAt w) = 7.
Proof.
  destruct (window_release_eq "America/Vancouver" "2026-03-01" 1 (1772290800 * Second)
    ltac:(vm_compute; reflexivity)) as (w & Hw & _).
  exists w. split; [exact Hw|].
  destruct (window_release_wall_clock (sample_booking "America/Vancouver" "2026-03-01" 1) w
              pacific (Civil 2026 3 1) 7 0)
    as (_ & Hd & Hh & _); [exact Hw|vm_compute; reflexivity..|].
  split; [exact Hd|exact Hh].
Defined.

(** Where a zone west of Greenwich changes its clocks at midnight, the local
    midnight of the visit date does not exist, [time.Date] resolves it to the
    evening before, and the release instant is a day early: a same-day release on
    September 7, 2025 in Santiago is placed on September 6. *)
Theorem release_day_early_at_midnight_gap :
  ∃ w, WindowFor (sample_booking "America/Santiago" "2025-09-07" 0) = Ok w ∧
    date_in santiago (ReleaseAt w) = Civil 2025 9 6 ∧
    wall_exists santiago (days_from_civil 2025 9 7 * 86400 + 7 * 3600) = true.
Proof.
  pose proof (window_release_eq "America/Santiago" "2025-09-07" 0 (1757156400 * Second)
    ltac:(vm_compute; reflexivity)) as (w & Hw & Hr).
  exists w. split; [exact Hw|]. rewrite Hr. split; vm_compute; reflexivity.
Qed.
