(* ===== verification/Base64.v ===== *)
(** * Unpadded base64 ([encoding/base64]: RawStdEncoding, RawURLEncoding, Strict)

    The encodings keys, tokens, password hashes and ciphertexts are stored in. *)

From S2P Require Import Prelude GoStrings.
From Stdlib Require Import Ascii String ZifyNat.

Open Scope nat_scope.

Inductive alphabet := StdAlphabet | URLAlphabet.

(** The digit of a six-bit value. *)
Definition enc6 (al : alphabet) (v : nat) : ascii :=
  if v <? 26 then byte (65 + v)
  else if v <? 52 then byte (97 + (v - 26))
  else if v <? 62 then byte (48 + (v - 52))
  else match al with
       | StdAlphabet => if v =? 62 then byte 43 else byte 47
       | URLAlphabet => if v =? 62 then byte 45 else byte 95
       end.

Definition dec6 (al : alphabet) (c : ascii) : option nat :=
  let n := nat_of_ascii c in
  if is_upper c then Some (n - 65)
  else if is_lower c then Some (n - 97 + 26)
  else if is_digit c then Some (n - 48 + 52)
  else match al with
       | StdAlphabet => if n =? 43 then Some 62 else if n =? 47 then Some 63 else None
       | URLAlphabet => if n =? 45 then Some 62 else if n =? 95 then Some 63 else None
       end.

(** Three bytes are four digits, two are three, one is two. *)
Fixpoint EncodeToString (al : alphabet) (s : string) : string :=
  match s with
  | EmptyString => EmptyString
  | String a EmptyString =>
      let x := nat_of_ascii a in
      String (enc6 al (x / 4)) (String (enc6 al (x mod 4 * 16)) EmptyString)
  | String a (String b EmptyString) =>
      let x := nat_of_ascii a in let y := nat_of_ascii b in
      String (enc6 al (x / 4)) (String (enc6 al (x mod 4 * 16 + y / 16))
        (String (enc6 al (y mod 16 * 4)) EmptyString))
  | String a (String b (String c rest)) =>
      let x := nat_of_ascii a in let y := nat_of_ascii b in let z := nat_of_ascii c in
      String (enc6 al (x / 4)) (String (enc6 al (x mod 4 * 16 + y / 16))
        (String (enc6 al (y mod 16 * 4 + z / 64)) (String (enc6 al (z mod 64))
          (EncodeToString al rest))))
  end.

(** The decoder on digit values; [strict] refuses leftover bits that are not zero. *)
Fixpoint decode_digits (strict : bool) (l : list nat) : option string :=
  match l with
  | [] => Some EmptyString
  | [_] => None
  | [p; q] =>
      if strict && negb (q mod 16 =? 0) then None
      else Some (String (byte (p * 4 + q / 16)) EmptyString)
  | [p; q; r] =>
      if strict && negb (r mod 4 =? 0) then None
      else Some (String (byte (p * 4 + q / 16)) (String (byte (q mod 16 * 16 + r / 4)) EmptyString))
  | p :: q :: r :: t :: rest =>
      tail ← decode_digits strict rest;
      Some (String (byte (p * 4 + q / 16)) (String (byte (q mod 16 * 16 + r / 4))
        (String (byte (r mod 4 * 64 + t)) tail)))
  end.

(** The digits of a string; line breaks are skipped, as the package does. *)
Fixpoint digit_values (al : alphabet) (s : string) : option (list nat) :=
  match s with
  | EmptyString => Some []
  | String c s' =>
      if (nat_of_ascii c =? 10) || (nat_of_ascii c =? 13) then digit_values al s'
      else v ← dec6 al c; rest ← digit_values al s'; Some (v :: rest)
  end.

Definition DecodeString (strict : bool) (al : alphabet) (s : string) : option string :=
  l ← digit_values al s; decode_digits strict l.

(** ** Round trip *)

Lemma dec6_enc6 al v :
  v < 64 → dec6 al (enc6 al v) = Some v ∧ nat_of_ascii (enc6 al v) ≠ 10 ∧ nat_of_ascii (enc6 al v) ≠ 13.
Proof.
  intros Hv.
  assert (Hall : Forall (λ v, dec6 al (enc6 al v) = Some v ∧ nat_of_ascii (enc6 al v) ≠ 10
    ∧ nat_of_ascii (enc6 al v) ≠ 13) (seq 0 64)).
  { destruct al; repeat (constructor; [by vm_compute|]); constructor. }
  rewrite Forall_forall in Hall. apply Hall, elem_of_seq. lia.
Qed.

Lemma digit_values_cons al v s :
  v < 64 → digit_values al (String (enc6 al v) s) = l ← digit_values al s; Some (v :: l).
Proof.
  intros Hv. destruct (dec6_enc6 al v Hv) as (Hd & H10 & H13). cbn [digit_values].
  rewrite (proj2 (Nat.eqb_neq _ _) H10), (proj2 (Nat.eqb_neq _ _) H13). simpl. by rewrite Hd.
Qed.

Lemma byte_of_ascii c n : n = nat_of_ascii c → byte n = c.
Proof. intros ->. apply ascii_nat_embedding. Qed.

Lemma ascii_lt_256 c : nat_of_ascii c < 256.
Proof. apply nat_ascii_bounded. Qed.

Lemma string_ind3 (P : string → Prop) :
  P EmptyString → (∀ a, P (String a EmptyString)) → (∀ a b, P (String a (String b EmptyString))) →
  (∀ a b c s, P s → P (String a (String b (String c s)))) → ∀ s, P s.
Proof.
  intros H0 H1 H2 H3. fix IH 1. intros [|a [|b [|c s]]]; [apply H0|apply H1|apply H2|].
  apply H3, IH.
Qed.

Ltac nat_arith := zify; Z.to_euclidean_division_equations; lia.
Ltac byte_arith := apply byte_of_ascii; nat_arith.

Theorem DecodeString_EncodeToString strict al s :
  DecodeString strict al (EncodeToString al s) = Some s.
Proof.
  unfold DecodeString. induction s as [|a|a b|a b c s IH] using string_ind3.
  - done.
  - pose proof (ascii_lt_256 a). cbn [EncodeToString].
    rewrite !digit_values_cons by nat_arith.
    cbn -[Nat.div Nat.modulo Nat.mul Nat.add byte andb].
    replace ((nat_of_ascii a mod 4 * 16) mod 16) with 0 by (symmetry; apply Nat.Div0.mod_mul).
    rewrite andb_false_r. do 2 f_equal. byte_arith.
  - pose proof (ascii_lt_256 a). pose proof (ascii_lt_256 b). cbn [EncodeToString].
    rewrite !digit_values_cons by nat_arith.
    cbn -[Nat.div Nat.modulo Nat.mul Nat.add byte andb].
    replace ((nat_of_ascii b mod 16 * 4) mod 4) with 0 by (symmetry; apply Nat.Div0.mod_mul).
    rewrite andb_false_r. do 2 f_equal; [byte_arith|]. f_equal. byte_arith.
  - pose proof (ascii_lt_256 a). pose proof (ascii_lt_256 b). pose proof (ascii_lt_256 c).
    cbn [EncodeToString].
    rewrite !digit_values_cons by nat_arith.
    destruct (digit_values al (EncodeToString al s)) as [l|]; [|done].
    cbn -[Nat.div Nat.modulo Nat.mul Nat.add byte] in IH |- *.
    rewrite IH. cbn -[Nat.div Nat.modulo Nat.mul Nat.add byte]. do 2 f_equal; [byte_arith|]. f_equal; [byte_arith|]. f_equal. byte_arith.
Qed.
