(* ===== verification/Secrets.v ===== *)
(** * Encryption of stored secrets (src/internal/crypto)

    The envelope of an encrypted value and the text form of the key.  AES-GCM is a
    library: the class [AEAD] stands for it, with the law that opening what was
    sealed gives the plaintext back. *)

From S2P Require Import Prelude GoStrings Base64.
From Stdlib Require Import Ascii String.

Open Scope Z_scope.

(** [cipher.AEAD] of one key: nonce size, Seal and Open with associated data. *)
Class AEAD := {
  aead_seal : string → string → string → string;
  aead_open : string → string → string → option string
}.
Definition NonceSize : nat := 12.
(** The documented behaviour of the library. *)
Definition aead_round_trip (A : AEAD) : Prop :=
  ∀ nonce plaintext data, String.length nonce = NonceSize →
    @aead_open A nonce (@aead_seal A nonce plaintext data) data = Some plaintext.

Definition keySize : Z := 32.
Definition envelopeV1 : string := "v1".
Definition fileKeyPrefix : string := "buntzen-key-v1:".
Definition maxKeyFileBytes : Z := 128.

Definition Encrypt `{AEAD} (nonce plaintext : string) : string :=
  envelopeV1 +:+ ":" +:+ EncodeToString URLAlphabet (nonce +:+ aead_seal nonce plaintext envelopeV1).

Definition Decrypt `{AEAD} (envelope : string) : result string :=
  match cut ":" envelope with
  | None => Err (Errorf "unsupported encrypted value")
  | Some (version, encoded) =>
      if negb (String.eqb version envelopeV1) then Err (Errorf "unsupported encrypted value")
      else match DecodeString false URLAlphabet encoded with
      | None => Err (Errorf "encrypted value is malformed")
      | Some payload =>
          if (String.length payload <? NonceSize)%nat then Err (Errorf "encrypted value is truncated")
          else of_option (Errorf "encrypted value failed authentication")
                 (aead_open (take_bytes NonceSize payload) (drop_bytes NonceSize payload) envelopeV1)
      end
  end.

(** The content of a key file: at most 128 bytes, white space around it ignored. *)
Definition parse_key (raw : string) : result string :=
  if maxKeyFileBytes <? len raw then Err (Errorf "encryption key file is too large")
  else
    match cut_prefix fileKeyPrefix (trim_space raw) with
    | None => Err (Errorf "encryption key has an unsupported format")
    | Some text =>
        match DecodeString true StdAlphabet text with
        | Some key => if len key =? keySize then Ok key else Err (Errorf "encryption key is malformed")
        | None => Err (Errorf "encryption key is malformed")
        end
    end.
(** The text [createKey] writes. *)
Definition key_text (key : string) : string :=
  fileKeyPrefix +:+ EncodeToString StdAlphabet key +:+ bytes [10%nat].

Lemma take_bytes_app a b : take_bytes (String.length a) (a +:+ b) = a.
Proof.
  unfold take_bytes. induction a as [|c a IH]; [by destruct b|].
  rewrite append_cons. cbn. by rewrite IH.
Qed.
Lemma drop_bytes_app a b : drop_bytes (String.length a) (a +:+ b) = b.
Proof. induction a as [|c a IH]; [done|]. rewrite append_cons. cbn. apply IH. Qed.
Lemma length_append a b : String.length (a +:+ b) = (String.length a + String.length b)%nat.
Proof. induction a as [|c a IH]; [done|]. rewrite append_cons. cbn. by rewrite IH. Qed.

(** Decryption takes the nonce and the sealed text an envelope was made of. *)
Lemma Decrypt_envelope `{AEAD} nonce ciphertext : String.length nonce = NonceSize →
  Decrypt (envelopeV1 +:+ ":" +:+ EncodeToString URLAlphabet (nonce +:+ ciphertext))
  = of_option (Errorf "encrypted value failed authentication") (aead_open nonce ciphertext envelopeV1).
Proof.
  intros Hn. unfold Decrypt. set (encoded := EncodeToString URLAlphabet _).
  assert (Hcut : cut ":" (envelopeV1 +:+ ":" +:+ encoded) = Some ("v1", encoded)) by reflexivity.
  rewrite Hcut. change (String.eqb "v1" envelopeV1) with true. cbn [negb].
  subst encoded. rewrite DecodeString_EncodeToString.
  destruct (Nat.ltb_spec (String.length (nonce +:+ ciphertext)) NonceSize) as [Hlt|_].
  { rewrite length_append in Hlt. lia. }
  by rewrite <- Hn, take_bytes_app, drop_bytes_app.
Qed.

(** A value that was encrypted decrypts to itself, for every nonce of the cipher's
    size and every plaintext: the envelope, the base64 text and the split of the
    payload lose nothing. *)
Theorem Decrypt_Encrypt (A : AEAD) nonce plaintext :
  aead_round_trip A → String.length nonce = NonceSize →
  Decrypt (Encrypt nonce plaintext) = Ok plaintext.
Proof. intros Hlaw Hn. unfold Encrypt. by rewrite Decrypt_envelope, Hlaw. Qed.

(** A cipher that satisfies the law: the plaintext itself. *)
Definition sample_aead : AEAD := {|
  aead_seal _ plaintext _ := plaintext; aead_open _ ciphertext _ := Some ciphertext |}.

Lemma Decrypt_Encrypt_witness :
  @Decrypt sample_aead (@Encrypt sample_aead "0123456789ab" "6045550123") = Ok "6045550123".
Proof. apply Decrypt_Encrypt; [intros ? ? ? _; reflexivity|reflexivity]. Defined.
