(* ===== verification/KeyFile.v ===== *)
(** * The key file (src/internal/crypto/crypto.go)

    Reading the encryption key of an installation and, for a new one, creating it.  Other
    processes work on the same files between any two calls of this one, and every call may
    fail: a process that stops is one whose further calls all fail. *)

From S2P Require Import Prelude GoStrings GoPath Base64 Secrets.
From Stdlib Require Import Ascii String.

Open Scope Z_scope.

(** ** Files *)

Inductive file_kind := RegularKind | SymlinkKind | OtherFileKind.
Record inode := MkInode { in_kind : file_kind; in_owner : Z; in_mode : Z; in_data : string }.
(** A path names an inode; two paths may name the same. *)
Record fs := MkFiles { fs_paths : gmap string nat; fs_inodes : gmap nat inode }.

(** [O_NOFOLLOW]: a symbolic link is refused; other files open. *)
Definition open_nofollow (path : string) (s : fs) : fs * result nat :=
  (s, match fs_paths s !! path with
      | None => Err (Sentinel ErrNotExist)
      | Some ino =>
          match fs_inodes s !! ino with
          | Some (MkInode SymlinkKind _ _ _) => Err (Errorf "too many levels of symbolic links")
          | _ => Ok ino
          end
      end).
Definition inspect (ino : nat) (s : fs) : fs * result inode :=
  (s, of_option (Errorf "bad file descriptor") (fs_inodes s !! ino)).
Definition read_up_to (limit : nat) (ino : nat) (s : fs) : fs * result string :=
  (s, file ← of_option (Errorf "bad file descriptor") (fs_inodes s !! ino); Ok (take_bytes limit (in_data file))).
(** The first of the random names that is free; the file is new and the process's own. *)
Fixpoint create_temp (euid : Z) (names : list string) (s : fs) : fs * result (string * nat) :=
  match names with
  | [] => (s, Err (Sentinel ErrExist))
  | name :: rest =>
      match fs_paths s !! name with
      | Some _ => create_temp euid rest s
      | None =>
          let ino := fresh (dom (fs_inodes s) ∪ map_img (fs_paths s) : gset nat) in
          (MkFiles (<[name := ino]> (fs_paths s)) (<[ino := MkInode RegularKind euid 384 ""]> (fs_inodes s)), Ok (name, ino))
      end
  end.
Definition append_data (data : string) (file : inode) : inode :=
  MkInode (in_kind file) (in_owner file) (in_mode file) (in_data file +:+ data).
Definition write_to (ino : nat) (data : string) (s : fs) : fs :=
  MkFiles (fs_paths s) (alter (append_data data) ino (fs_inodes s)).
Definition link (old new : string) (s : fs) : fs * result unit :=
  match fs_paths s !! new, fs_paths s !! old with
  | Some _, _ => (s, Err (Sentinel ErrExist))
  | None, None => (s, Err (Sentinel ErrNotExist))
  | None, Some ino => (MkFiles (<[new := ino]> (fs_paths s)) (fs_inodes s), Ok tt)
  end.
Definition remove_path (path : string) (s : fs) : fs * result unit :=
  match fs_paths s !! path with
  | None => (s, Err (Sentinel ErrNotExist))
  | Some _ => (MkFiles (delete path (fs_paths s)) (fs_inodes s), Ok tt)
  end.
Definition lstat (path : string) (s : fs) : fs * result unit :=
  (s, match fs_paths s !! path with None => Err (Sentinel ErrNotExist) | Some _ => Ok tt end).
(** Directories, syncing and closing leave the files as they are. *)
Definition no_change (s : fs) : fs * result unit := (s, Ok tt).

(** ** Calls *)

(** What a process meets: before its [i]-th call others change the files; the call may
    fail, and a failing write leaves a part of its bytes. *)
Record surrounding := MkSurrounding {
  su_euid : Z; su_others : nat → fs → fs; su_failing : nat → option error; su_written : nat → nat }.
(** The files, and those each earlier call of this process met and left. *)
Record keyState := MkKeyState { ks_files : fs; ks_calls : list (fs * fs) }.

Section process.
Context (env : surrounding).
Notation process := (ST keyState).

Definition called (before after : fs) (st : keyState) : keyState :=
  MkKeyState after (app (ks_calls st) [(before, after)]).
Definition call_file {A} (f : fs → fs * result A) : process A := λ st,
  let i := List.length (ks_calls st) in
  let s := su_others env i (ks_files st) in
  match su_failing env i with
  | Some e => (called s s st, Err e)
  | None => (called s (f s).1 st, (f s).2)
  end.
Definition call_write (ino : nat) (data : string) : process unit := λ st,
  let i := List.length (ks_calls st) in
  let s := su_others env i (ks_files st) in
  match su_failing env i with
  | Some e => (called s (write_to ino (take_bytes (su_written env i) data) s) st, Err e)
  | None => (called s (write_to ino data s) st, Ok tt)
  end.

(** ** Keys *)

(** A regular file of this user that nobody else may read. *)
Definition owned_privately (file : inode) : bool :=
  (in_owner file =? su_euid env) && (Z.land (in_mode file) 63 =? 0).
Definition loadKey (path : string) : process string :=
  ino ← map_err (Wrap ("open encryption key " +:+ path)) (call_file (open_nofollow path));
  file ← map_err (Wrap "inspect encryption key") (call_file (inspect ino));
  _ ← st_reject (match in_kind file with RegularKind => false | _ => true end) (Errorf "encryption key must be a regular file");
  _ ← st_reject (negb (owned_privately file))
        (Errorf "encryption key must belong to the service user and be inaccessible to group and others");
  _ ← st_reject (maxKeyFileBytes <? len (in_data file)) (Errorf "encryption key file is too large");
  raw ← map_err (Wrap "read encryption key") (call_file (read_up_to (Z.to_nat (maxKeyFileBytes + 1)) ino));
  lift (parse_key raw).
(** [fresh]: the random bytes; [names]: those of the temporary file. *)
Definition publish (path temporary : string) (ino : nat) (key : string) : process string :=
  _ ← map_err (Wrap "write encryption key") (call_write ino (key_text key));
  _ ← map_err (Wrap "sync encryption key") (call_file no_change);
  _ ← map_err (Wrap "close encryption key") (call_file no_change);
  linked ← attempt (call_file (link temporary path));
  match linked with
  | Err e => if errors_is e ErrExist then loadKey path else fail (Wrap "publish encryption key" e)
  | Ok _ =>
      _ ← map_err (Wrap "open encryption key directory") (call_file no_change);
      _ ← map_err (Wrap "sync encryption key directory") (call_file no_change);
      mret key
  end.
Definition createKey (path : string) (fresh : result string) (names : list string) : process string :=
  _ ← map_err (Wrap "create key directory") (call_file no_change);
  key ← map_err (Wrap "generate encryption key") (lift fresh);
  '(temporary, ino) ← map_err (Wrap "create encryption key temporary file") (call_file (create_temp (su_euid env) names));
  made ← attempt (publish path temporary ino key);
  _ ← attempt (call_file no_change);
  _ ← attempt (call_file (remove_path temporary));
  lift made.

(** An encryptor is its key. *)
Definition New (key : string) : result string :=
  if negb (len key =? keySize) then Err (Errorf "encryption key must be 32 bytes") else Ok key.
Definition LoadExisting (path : string) : process string := key ← loadKey path; lift (New key).
Definition LoadOrCreate (path : string) (fresh : result string) (names : list string) : process string :=
  found ← attempt (loadKey path);
  key ← (match found with
         | Ok key => mret key
         | Err e => if errors_is e ErrNotExist then createKey path fresh names else fail e
         end);
  lift (New key).
Definition LoadForDatabase (path databasePath : string) (explicit : bool) (fresh : result string) (names : list string) : process string :=
  if explicit then LoadExisting path
  else
    found ← attempt (LoadExisting path);
    match found with
    | Ok key => mret key
    | Err e =>
        if negb (errors_is e ErrNotExist) then fail e
        else
          stat ← attempt (call_file (lstat databasePath));
          match stat with
          | Ok _ => fail (Errorf "encryption key is missing for an existing database; restore its matching key")
          | Err e =>
              if negb (errors_is e ErrNotExist) then fail (Wrap "inspect database before key creation" e)
              else LoadOrCreate path fresh names
          end
    end.
End process.

(** * The key of an installation is made once

    Several processes may start on one directory at once, and each may stop at any call.
    What each relies on of the others, what it guarantees them, and what follows for the
    key. *)

(** ** The text of a key *)

Lemma std_encoding_plain s : all_bytes plain_byte (EncodeToString StdAlphabet s) = true.
Proof.
  assert (Hd : ∀ v, (v < 64)%nat → plain_byte (enc6 StdAlphabet v) = true).
  { intros v Hv. assert (Hall : Forall (λ v, plain_byte (enc6 StdAlphabet v) = true) (seq 0 64)).
    { repeat (constructor; [by vm_compute|]). constructor. }
    rewrite Forall_forall in Hall. apply Hall, elem_of_seq. lia. }
  induction s as [|a|a b|a b c s IH] using string_ind3; [done|..];
    pose proof (ascii_lt_256 a); try pose proof (ascii_lt_256 b); try pose proof (ascii_lt_256 c);
    cbn [EncodeToString all_bytes]; rewrite ?Hd by nat_arith; done.
Qed.
Lemma std_encoding_length s : (3 * String.length (EncodeToString StdAlphabet s) <= 4 * String.length s + 2)%nat.
Proof. induction s as [|a|a b|a b c s IH] using string_ind3; cbn [EncodeToString String.length]; lia. Qed.
Lemma trim_space_line s : all_bytes plain_byte s = true → s ≠ EmptyString → trim_space (s +:+ bytes [10%nat]) = s.
Proof.
  intros Hs Hne. destruct s as [|c t]; [done|]. unfold trim_space, trim_left_space.
  rewrite (strip_all_plain _ _ (String c t +:+ bytes [10%nat])); [|intros c' t' [= <- <-]|done].
  2: { apply plain_starts. by apply andb_true_iff in Hs as [? _]. }
  unfold trim_right_space. set (u := String c t) in *.
  assert (Hrev : rev_string (u +:+ bytes [10%nat]) = String (byte 10) (rev_string u)).
  { assert (Hgen : ∀ v acc, rev_onto (v +:+ bytes [10%nat]) acc = String (byte 10) (rev_onto v acc)).
    { induction v as [|d v IH]; intros acc; [done|]. rewrite append_cons. cbn [rev_onto]. apply IH. }
    apply Hgen. }
  assert (Hlen : String.length (u +:+ bytes [10%nat]) = S (String.length u)) by (rewrite length_append; cbn; lia).
  rewrite Hlen, Hrev. cbn [strip_all].
  assert (Hone : ∀ v, strip_one (map rev_string space_sequences) (String (byte 10) v) = Some v) by (intros v; vm_compute; by destruct v).
  rewrite Hone, strip_all_plain; [apply rev_string_rev| |].
  - intros d v Hv. rewrite Hv. apply plain_starts.
    assert (Hall : all_bytes plain_byte (rev_string u) = true) by (unfold rev_string; by rewrite rev_onto_bytes, Hs).
    rewrite Hv in Hall. by apply andb_true_iff in Hall as [? _].
  - intros Hr. by apply (f_equal rev_string) in Hr; rewrite rev_string_rev in Hr.
Qed.
(** What [createKey] writes is read back as the key. *)
Lemma parse_key_text key : len key = keySize → parse_key (key_text key) = Ok key.
Proof.
  intros Hlen. unfold parse_key, key_text.
  assert (Hassoc : fileKeyPrefix +:+ EncodeToString StdAlphabet key +:+ bytes [10%nat]
    = (fileKeyPrefix +:+ EncodeToString StdAlphabet key) +:+ bytes [10%nat]) by reflexivity.
  rewrite Hassoc, trim_space_line.
  - destruct (Z.ltb_spec maxKeyFileBytes (len ((fileKeyPrefix +:+ EncodeToString StdAlphabet key) +:+ bytes [10%nat]))) as [Hlt|_].
    { pose proof (std_encoding_length key). unfold len, maxKeyFileBytes, keySize in *. rewrite !length_append in Hlt.
      change (String.length fileKeyPrefix) with 15%nat in Hlt. change (String.length (bytes [10%nat])) with 1%nat in Hlt. lia. }
    assert (Hcut : cut_prefix fileKeyPrefix (fileKeyPrefix +:+ EncodeToString StdAlphabet key) = Some (EncodeToString StdAlphabet key))
      by (by apply cut_prefix_Some).
    rewrite Hcut, DecodeString_EncodeToString, Hlen. done.
  - rewrite all_bytes_app, std_encoding_plain. done.
  - done.
Qed.

(** ** Rely and guarantee *)

Section process.
Context (env : surrounding) (rely guar : fs → fs → Prop).
Implicit Types (s : fs) (st : keyState).

(** Properties of the files that the others' steps keep. *)
Definition stable (P : fs → Prop) : Prop := ∀ s s', P s → rely s s' → P s'.

(** A program started where [P] holds ends where [Q] holds of its result, and every call
    it makes changes the files as it guarantees. *)
Definition runs {A} (P : fs → Prop) (m : ST keyState A) (Q : result A → fs → Prop) : Prop :=
  triple (λ st, P (ks_files st) ∧ Forall (λ c, guar c.1 c.2) (ks_calls st)) m
    (λ r st, Q r (ks_files st) ∧ Forall (λ c, guar c.1 c.2) (ks_calls st)).

Lemma runs_weaken {A} (P P' : fs → Prop) (m : ST keyState A) (Q Q' : result A → fs → Prop) :
  runs P m Q → (∀ s, P' s → P s) → (∀ r s, Q r s → Q' r s) → runs P' m Q'.
Proof. intros Hm Hp Hq. eapply triple_weaken; [exact Hm|naive_solver|naive_solver]. Qed.
Lemma runs_pure {A} (φ : Prop) (P : fs → Prop) (m : ST keyState A) (Q : result A → fs → Prop) :
  (∀ s, P s → φ) → (φ → runs P m Q) → runs P m Q.
Proof. intros Hφ. apply triple_pure. intros st [Hp _]. by eapply Hφ. Qed.
Lemma runs_lift {A} (P : fs → Prop) (r : result A) (Q : result A → fs → Prop) :
  (∀ s, P s → Q r s) → runs P (lift r) Q.
Proof. intros Hq. apply triple_lift. intros st [Hp Hc]. auto. Qed.
Lemma runs_ret {A} (P : fs → Prop) (a : A) (Q : result A → fs → Prop) :
  (∀ s, P s → Q (Ok a) s) → runs P (mret a) Q.
Proof. apply runs_lift. Qed.
Lemma runs_fail {A} (P : fs → Prop) e (Q : result A → fs → Prop) :
  (∀ s, P s → Q (Err e) s) → runs P (fail e) Q.
Proof. apply runs_lift. Qed.
Lemma runs_bind {A B} (P : fs → Prop) (m : ST keyState A) (f : A → ST keyState B) (R : result A → fs → Prop) (Q : result B → fs → Prop) :
  runs P m R → (∀ a, runs (R (Ok a)) (f a) Q) → (∀ e s, R (Err e) s → Q (Err e) s) → runs P (m ≫= f) Q.
Proof. intros Hm Hf He. eapply triple_bind; [exact Hm|exact Hf|]. intros e st [Hr Hc]. auto. Qed.
Lemma runs_known {A B} (P : fs → Prop) (m : ST keyState A) (f : A → ST keyState B) (a : A) (Q : result B → fs → Prop) :
  runs P m (λ r s, P s ∧ r = Ok a) → runs P (f a) Q → runs P (m ≫= f) Q.
Proof. intros Hm. apply triple_known. eapply triple_weaken; [exact Hm|done|naive_solver]. Qed.
Lemma runs_attempt {A} (P : fs → Prop) (m : ST keyState A) (Q : result (result A) → fs → Prop) :
  runs P m (λ r, Q (Ok r)) → runs P (attempt m) Q.
Proof. exact (triple_attempt _ m (λ r st, Q r (ks_files st) ∧ Forall (λ c, guar c.1 c.2) (ks_calls st))). Qed.
Lemma runs_map_err {A} (P : fs → Prop) f (m : ST keyState A) (Q : result A → fs → Prop) :
  runs P m (λ r s, Q (match r with Ok a => Ok a | Err e => Err (f e) end) s) → runs P (map_err f m) Q.
Proof. exact (triple_map_err _ f m (λ r st, Q r (ks_files st) ∧ Forall (λ c, guar c.1 c.2) (ks_calls st))). Qed.
Lemma runs_reject (P : fs → Prop) b e (Q : result unit → fs → Prop) :
  (b = true → ∀ s, P s → Q (Err e) s) → (b = false → ∀ s, P s → Q (Ok tt) s) → runs P (st_reject b e) Q.
Proof. intros Ht Hf. apply triple_reject; intros Hb st [Hp Hc]; auto. Qed.
Lemma runs_if {A} (P : fs → Prop) (b : bool) (m1 m2 : ST keyState A) (Q : result A → fs → Prop) :
  runs P m1 Q → runs P m2 Q → runs P (if b then m1 else m2) Q.
Proof. by destruct b. Qed.

Section calls.
Context (Hothers : ∀ i s, rely s (su_others env i s)) (Hsame : ∀ s, guar s s).

Lemma runs_call_failing {A} (P : fs → Prop) (f : fs → fs * result A) (Q : result A → fs → Prop) :
  stable P → (∀ s, P s → guar s (f s).1) →
  (∀ s, P s → Q (f s).2 (f s).1) → (∀ i e s, su_failing env i = Some e → P s → Q (Err e) s) → runs P (call_file env f) Q.
Proof using Hothers Hsame.
  intros Hs Hg Hq He st [Hp Hc]. unfold call_file.
  assert (Hp' : P (su_others env (List.length (ks_calls st)) (ks_files st))) by (eapply Hs; eauto).
  destruct (su_failing env _) eqn:Hf; simpl; (split; [eauto|]); apply Forall_app; split; try done;
    (constructor; [|constructor]); simpl; auto.
Qed.
Lemma runs_call_file {A} (P : fs → Prop) (f : fs → fs * result A) (Q : result A → fs → Prop) :
  stable P → (∀ s, P s → guar s (f s).1) →
  (∀ s, P s → Q (f s).2 (f s).1) → (∀ e s, P s → Q (Err e) s) → runs P (call_file env f) Q.
Proof using Hothers Hsame. intros Hs Hg Hq He. apply runs_call_failing; auto. Qed.
(** Looking at the files. *)
Lemma runs_look_failing {A} (P : fs → Prop) (look : fs → result A) (Q : result A → fs → Prop) :
  stable P → (∀ s, P s → Q (look s) s) → (∀ i e s, su_failing env i = Some e → P s → Q (Err e) s) →
  runs P (call_file env (λ s, (s, look s))) Q.
Proof using Hothers Hsame. intros Hs Hq He. apply runs_call_failing; simpl; auto. Qed.
Lemma runs_look {A} (P : fs → Prop) (look : fs → result A) (Q : result A → fs → Prop) :
  stable P → (∀ s, P s → Q (look s) s) → (∀ e s, P s → Q (Err e) s) → runs P (call_file env (λ s, (s, look s))) Q.
Proof using Hothers Hsame. intros Hs Hq He. apply runs_look_failing; auto. Qed.
Lemma runs_call_write (P : fs → Prop) ino data (Q : result unit → fs → Prop) :
  stable P → (∀ s data', P s → guar s (write_to ino data' s)) →
  (∀ s, P s → Q (Ok tt) (write_to ino data s)) → (∀ e s data', P s → Q (Err e) (write_to ino data' s)) →
  runs P (call_write env ino data) Q.
Proof using Hothers Hsame.
  intros Hs Hg Hq He st [Hp Hc]. unfold call_write.
  assert (Hp' : P (su_others env (List.length (ks_calls st)) (ks_files st))) by (eapply Hs; eauto).
  destruct (su_failing env _); simpl; (split; [auto|]); apply Forall_app; split; try done;
    (constructor; [|constructor]); simpl; auto.
Qed.
End calls.
End process.

(** ** What processes do for each other *)

(** A regular file of the user alone that holds a whole key. *)
Definition whole_key (euid : Z) (key : string) : inode := MkInode RegularKind euid 384 (key_text key).
Definition names_file (s : fs) (path : string) (file : inode) : Prop :=
  ∃ ino, fs_paths s !! path = Some ino ∧ fs_inodes s !! ino = Some file.

(** What one step of a process does for another with the temporary names [names]: the
    key file stays as it is, where there was none there is none or a whole key, and the
    temporary files keep their name and content and get no other name. *)
Record considerate (euid : Z) (path : string) (names : list string) (s s' : fs) : Prop := {
  cs_kept : ∀ ino, fs_paths s !! path = Some ino →
    fs_paths s' !! path = Some ino ∧ fs_inodes s' !! ino = fs_inodes s !! ino;
  cs_whole : fs_paths s !! path = None →
    fs_paths s' !! path = None ∨ ∃ key, len key = keySize ∧ names_file s' path (whole_key euid key);
  cs_names : ∀ name, name ∈ names → fs_paths s' !! name = fs_paths s !! name;
  cs_files : ∀ name ino, name ∈ names → fs_paths s !! name = Some ino →
    fs_inodes s' !! ino = fs_inodes s !! ino ∧
    ∀ p, fs_paths s' !! p = Some ino → fs_paths s !! p = Some ino
}.

Lemma considerate_refl euid path names s : considerate euid path names s s.
Proof. split; auto. Qed.
Lemma considerate_trans euid path names s1 s2 s3 :
  considerate euid path names s1 s2 → considerate euid path names s2 s3 → considerate euid path names s1 s3.
Proof.
  intros [K1 W1 N1 F1] [K2 W2 N2 F2]. split.
  - intros ino Hino. destruct (K1 _ Hino) as [Hp Hf]. destruct (K2 _ Hp) as [Hp' Hf']. split; congruence.
  - intros Hnone. destruct (W1 Hnone) as [Hp|(key & Hkey & ino & Hp & Hf)]; [by apply W2|].
    right. exists key. split; [done|]. exists ino. destruct (K2 _ Hp) as [? ->]. done.
  - intros name Hn. by rewrite N2, N1.
  - intros name ino Hn Hino. destruct (F1 _ _ Hn Hino) as [Hf Hp].
    destruct (F2 name ino Hn) as [Hf' Hp']; [by rewrite N1|]. split; [congruence|auto].
Qed.

Lemma considerate_fewer euid path names s s' : considerate euid path names s s' → considerate euid path [] s s'.
Proof. intros [K W _ _]. split; [done|done| |]; intros *; by rewrite elem_of_nil. Qed.

(** The key a process finds at the path. *)
Definition holds_key (env : surrounding) (path key : string) (s : fs) : Prop := ∃ file,
  names_file s path file ∧ in_kind file = RegularKind ∧ owned_privately env file = true ∧ parse_key (in_data file) = Ok key.

Lemma holds_key_kept env path names key s s' :
  holds_key env path key s → considerate (su_euid env) path names s s' → holds_key env path key s'.
Proof.
  intros (file & (ino & Hp & Hf) & Hrest) Hc. exists file. split; [|done]. exists ino.
  destruct (cs_kept _ _ _ _ _ Hc ino Hp) as [? ->]. done.
Qed.
Lemma whole_key_held env path key s :
  len key = keySize → names_file s path (whole_key (su_euid env) key) → holds_key env path key s.
Proof.
  intros Hkey Hf. exists (whole_key (su_euid env) key). split; [done|]. split; [done|]. split.
  - unfold owned_privately. cbn [in_owner in_mode whole_key]. by rewrite Z.eqb_refl.
  - by apply parse_key_text.
Qed.
Lemma take_bytes_all n s : (String.length s <= n)%nat → take_bytes n s = s.
Proof.
  revert n. unfold take_bytes. induction s as [|c s IH]; intros [|n] Hn; cbn in *; try done; try lia.
  rewrite IH by lia. done.
Qed.

Section first_start.
Context (env : surrounding) (path : string) (names others : list string).
Context (Hothers : ∀ i s, considerate (su_euid env) path names s (su_others env i s)).
Context (Hpath : path ∉ names) (Hapart : path ∉ others) (Hnames : ∀ name, name ∈ names → name ∉ others).
Notation euid := (su_euid env).
Notation rely := (considerate euid path names).
Notation guar := (considerate euid path others).
Notation runs := (runs guar).

Lemma guar_same s : guar s s.
Proof. apply considerate_refl. Qed.

Definition found_at (ino : nat) (file : option inode) (s : fs) : Prop :=
  fs_paths s !! path = Some ino ∧ from_option (λ f, fs_inodes s !! ino = Some f) True file.
Lemma found_at_stable ino file : stable rely (found_at ino file).
Proof. intros s s' [Hp Hf] Hc. destruct (cs_kept _ _ _ _ _ Hc ino Hp) as [? Hf']. split; [done|]. destruct file; simpl in *; congruence. Qed.
Lemma stable_and (P P' : fs → Prop) : stable rely P → stable rely P' → stable rely (λ s, P s ∧ P' s).
Proof. intros H1 H2 s s' [? ?] Hc. split; eauto. Qed.
Lemma stable_found (I : fs → Prop) ino file : stable rely I → stable rely (λ s, I s ∧ found_at ino file s).
Proof. intros HI. apply stable_and; [done|apply found_at_stable]. Qed.

(** A call that fails leaves the invariant. *)
Ltac only_err := intros ? ? [? _]; split; [done|by intros ?].

Lemma loadKey_runs (I : fs → Prop) :
  stable rely I → runs I (loadKey env path) (λ r s, I s ∧ ∀ key, r = Ok key → holds_key env path key s).
Proof using Hothers.
  intros HI. unfold loadKey.
  apply (runs_bind guar I _ _ (λ r s, I s ∧ match r with Ok ino => found_at ino None s | Err _ => True end) _); [| |only_err].
  { apply runs_map_err, (runs_look env rely guar Hothers guar_same); [done| |by intros ? ? ?].
    intros s Hs. split; [done|]. unfold found_at. destruct (fs_paths s !! path) as [i|]; [|done].
    by destruct (fs_inodes s !! i) as [[[] ? ? ?]|]. }
  intros ino. apply (runs_bind guar _ _ _ (λ r s, I s ∧ match r with Ok file => found_at ino (Some file) s | Err _ => True end) _); [| |only_err].
  { apply runs_map_err, (runs_look env rely guar Hothers guar_same); [by apply stable_found| |by intros ? ? [? ?]].
    intros s [Hs [Hp _]]. split; [done|]. destruct (fs_inodes s !! ino) eqn:Hf; [|done]. by split. }
  intros file.
  apply (runs_bind guar _ _ _ (λ r s, I s ∧ match r with Ok _ => found_at ino (Some file) s ∧ in_kind file = RegularKind | Err _ => True end) _); [| |only_err].
  { apply runs_reject; [by intros _ s [? ?]|]. intros Hk s [Hs Hf]. split; [done|]. split; [done|]. by destruct (in_kind file). }
  intros _. apply (runs_bind guar _ _ _ (λ r s, I s ∧ match r with Ok _ => found_at ino (Some file) s ∧ in_kind file = RegularKind ∧ owned_privately env file = true | Err _ => True end) _); [| |only_err].
  { apply runs_reject; [by intros _ s [? ?]|]. intros Hk s [Hs [Hf Hr]]. apply negb_false_iff in Hk. done. }
  intros _. apply (runs_bind guar _ _ _ (λ r s, I s ∧ match r with Ok _ => found_at ino (Some file) s ∧ in_kind file = RegularKind ∧ owned_privately env file = true ∧ len (in_data file) <= maxKeyFileBytes | Err _ => True end) _); [| |only_err].
  { apply runs_reject; [by intros _ s [? ?]|]. intros Hk s (Hs & Hf & Hr & Ho). apply Z.ltb_ge in Hk. done. }
  intros _. apply (runs_bind guar _ _ _ (λ r s, I s ∧ match r with Ok raw => ∀ key, parse_key raw = Ok key → holds_key env path key s | Err _ => True end) _); [| |only_err].
  - apply runs_map_err, (runs_look env rely guar Hothers guar_same); [| |by intros ? ? [? ?]].
    { intros s s' [Hs [Hf ?]] Hc. split; [by eapply HI|]. split; [by eapply found_at_stable|done]. }
    intros s (Hs & [Hp Hf] & Hr & Ho & Hlen). simpl in Hf. split; [done|]. rewrite Hf. cbn -[take_bytes parse_key].
    rewrite take_bytes_all by (unfold len, maxKeyFileBytes in *; lia).
    intros key Hkey. exists file. split; [by exists ino|done].
  - intros raw. apply runs_lift. done.
Qed.

(** The temporary file of this process. *)
Definition temporary_file (temporary : string) (ino : nat) (data : string) (s : fs) : Prop :=
  fs_paths s !! temporary = Some ino ∧ fs_inodes s !! ino = Some (MkInode RegularKind euid 384 data)
  ∧ ∀ p, fs_paths s !! p = Some ino → p = temporary.
Lemma temporary_stable temporary ino data : temporary ∈ names → stable rely (temporary_file temporary ino data).
Proof.
  intros Hn s s' (Hp & Hf & Hu) Hc. destruct (cs_files _ _ _ _ _ Hc _ _ Hn Hp) as [Hf' Hu'].
  split; [by rewrite (cs_names _ _ _ _ _ Hc _ Hn)|]. split; [by rewrite Hf'|auto].
Qed.

(** What the files keep from [s0] on. *)
Definition since (s0 s : fs) : Prop := considerate euid path [] s0 s.
Lemma since_relied s0 : stable rely (since s0).
Proof. intros s s' Hs Hc. eapply considerate_trans; [done|by eapply considerate_fewer]. Qed.
Lemma since_guar s0 s s' : since s0 s → guar s s' → since s0 s'.
Proof. intros Hs Hc. eapply considerate_trans; [done|by eapply considerate_fewer]. Qed.

Lemma create_temp_guar l s : (∀ name, name ∈ l → name ∈ names) → guar s (create_temp euid l s).1.
Proof using Hpath Hnames.
  intros Hl. induction l as [|name l IH]; [apply guar_same|]. cbn [create_temp].
  destruct (fs_paths s !! name) eqn:Hname; [apply IH; intros n0 Hn; apply Hl; by right|].
  set (ino := fresh _). cbn [fst].
  assert (Hfresh : ino ∉ dom (fs_inodes s) ∪ (map_img (fs_paths s) : gset nat)) by apply is_fresh.
  apply not_elem_of_union in Hfresh as [Hdom Himg].
  assert (Hold : ∀ p i, fs_paths s !! p = Some i → i ≠ ino) by (intros p i Hp ->; apply Himg, elem_of_map_img; eauto).
  assert (Hin : name ∈ names) by (apply Hl; left).
  split; cbn [fs_paths fs_inodes].
  - intros i Hi. rewrite lookup_insert_ne by (intros ->; done). split; [done|]. apply lookup_insert_ne. symmetry. by eapply Hold.
  - intros Hnone. left. rewrite lookup_insert_ne; [done|]. intros ->; done.
  - intros n Hn. rewrite lookup_insert_ne; [done|]. intros ->. by apply (Hnames n).
  - intros n i Hn Hi. pose proof (Hold _ _ Hi). split; [by apply lookup_insert_ne|]. intros p Hp.
    apply lookup_insert_Some in Hp as [[_ ?]|[_ ?]]; [congruence|done].
Qed.
Lemma create_temp_made l s temporary ino :
  (create_temp euid l s).2 = Ok (temporary, ino) →
  temporary ∈ l ∧ temporary_file temporary ino "" (create_temp euid l s).1.
Proof.
  induction l as [|name l IH]; cbn [create_temp]; [done|]. destruct (fs_paths s !! name) eqn:Hname.
  { intros Hc. destruct (IH Hc). split; [by right|done]. }
  intros [= <- <-]. split; [left|]. set (i := fresh _).
  assert (Hfresh : i ∉ dom (fs_inodes s) ∪ (map_img (fs_paths s) : gset nat)) by apply is_fresh.
  apply not_elem_of_union in Hfresh as [_ Himg]. cbn [fst]. split; [apply lookup_insert_eq|]. split; [apply lookup_insert_eq|].
  intros p Hp. cbn [fs_paths] in Hp. apply lookup_insert_Some in Hp as [[-> _]|[_ Hp]]; [done|]. exfalso. apply Himg, elem_of_map_img. eauto.
Qed.
Lemma write_guar temporary ino data data' s :
  temporary ∈ names → temporary_file temporary ino data s → guar s (write_to ino data' s).
Proof using Hpath Hnames.
  intros Hn (Hp & Hf & Hu). unfold write_to. split; cbn [fs_paths fs_inodes]; [|by left|done|].
  - intros i Hi. split; [done|]. apply lookup_alter_ne. intros ->. apply Hpath. by rewrite (Hu _ Hi).
  - intros n i Hn' Hi. split; [|done]. apply lookup_alter_ne. intros ->. apply (Hnames _ Hn). by rewrite <- (Hu _ Hi).
Qed.
Lemma write_made temporary ino data data' s :
  temporary_file temporary ino data s → temporary_file temporary ino (data +:+ data') (write_to ino data' s).
Proof.
  intros (Hp & Hf & Hu). split; [done|]. split; [|done]. cbn [write_to fs_inodes].
  by rewrite lookup_alter_eq, Hf.
Qed.
Lemma link_guar temporary ino key s :
  len key = keySize → temporary ∈ names → temporary_file temporary ino (key_text key) s → guar s (link temporary path s).1.
Proof using Hpath Hapart Hnames.
  intros Hkey Hn (Hp & Hf & Hu). unfold link. destruct (fs_paths s !! path) eqn:Hnone; [apply guar_same|].
  rewrite Hp. cbn [fst]. split; cbn [fs_paths fs_inodes].
  - congruence.
  - intros _. right. exists key. split; [done|]. exists ino. split; [apply lookup_insert_eq|done].
  - intros n Hn'. apply lookup_insert_ne. intros <-; done.
  - intros n i Hn' Hi. split; [done|]. intros p Hp'. apply lookup_insert_Some in Hp' as [[_ <-]|[_ Hp']]; [|done].
    exfalso. apply (Hnames _ Hn). by rewrite <- (Hu _ Hi).
Qed.
Lemma remove_guar temporary s : temporary ∈ names → guar s (remove_path temporary s).1.
Proof using Hothers Hpath Hapart Hnames.
  intros Hn. unfold remove_path. destruct (fs_paths s !! temporary) eqn:Hp; [|apply guar_same]. cbn [fst].
  assert (Hne : path ≠ temporary) by (intros ->; done). split; cbn [fs_paths fs_inodes].
  - intros i Hi. by rewrite lookup_delete_ne.
  - intros Hnone. left. by rewrite lookup_delete_ne.
  - intros n0 Hn'. rewrite lookup_delete_ne; [done|]. intros <-. by apply (Hnames temporary).
  - intros n0 i Hn' Hi. split; [done|]. intros p. rewrite lookup_delete_Some. by intros [_ ?].
Qed.

Section steps.
Context (s0 : fs).
(** The key that is returned is the one at the path. *)
Definition made_key (r : result string) (s : fs) : Prop := since s0 s ∧ ∀ key, r = Ok key → holds_key env path key s.
Lemma made_key_err e s : since s0 s → made_key (Err e) s.
Proof. by split. Qed.
Lemma load_since (P : fs → Prop) : (∀ s, P s → since s0 s) → runs P (loadKey env path) made_key.
Proof using Hothers.
  intros HP. eapply runs_weaken; [apply (loadKey_runs (since s0)), since_relied|exact HP|done].
Qed.
(** Calls that leave the files alone. *)
Lemma quiet_runs (P : fs → Prop) f :
  stable rely P → (∀ s, P s → since s0 s) →
  runs P (map_err f (call_file env no_change)) (λ r s, since s0 s ∧ match r with Ok _ => P s | Err _ => True end).
Proof using Hothers. intros HP Hs. apply runs_map_err, (runs_look env rely guar Hothers guar_same); [done|..]; intros; split; auto. Qed.

Lemma publish_runs temporary ino key :
  temporary ∈ names → len key = keySize →
  runs (λ s, since s0 s ∧ temporary_file temporary ino "" s) (publish env path temporary ino key) made_key.
Proof using Hothers Hpath Hapart Hnames.
  intros Hn Hkey. unfold publish.
  assert (Hst : ∀ data, stable rely (λ s, since s0 s ∧ temporary_file temporary ino data s))
    by (intros data; apply stable_and; [apply since_relied|by apply temporary_stable]).
  apply (runs_bind guar _ _ _ (λ r s, since s0 s ∧ match r with Ok _ => temporary_file temporary ino (key_text key) s | Err _ => True end) _);
    [| |by intros ? ? [? _]; apply made_key_err].
  { apply runs_map_err, (runs_call_write env rely guar Hothers guar_same); [apply Hst|..].
    - intros s data' [_ Ht]. by eapply write_guar.
    - intros s [Hs Ht]. split; [eapply since_guar; [done|by eapply write_guar]|]. by apply (write_made _ _ "").
    - intros e s data' [Hs Ht]. split; [eapply since_guar; [done|by eapply write_guar]|done]. }
  intros _. do 2 (apply (runs_bind guar _ _ _ (λ r s, since s0 s ∧ match r with Ok _ => since s0 s ∧ temporary_file temporary ino (key_text key) s | Err _ => True end) _);
    [eapply runs_weaken; [apply quiet_runs; [apply Hst|by intros ? [? _]]|naive_solver|naive_solver]| |by intros ? ? [? _]; apply made_key_err];
    intros _).
  apply (runs_bind guar _ _ _ (λ r s, since s0 s ∧ match r with Ok (Ok _) => holds_key env path key s | _ => True end) _);
    [| |by intros ? ? [? _]; apply made_key_err].
  { apply runs_attempt, (runs_call_file env rely guar Hothers guar_same).
    - intros s s' [? [? ?]] Hc. split; [by eapply since_relied|]. split; [by eapply since_relied|by eapply temporary_stable].
    - intros s [_ [_ Ht]]. by eapply link_guar.
    - intros s [Hs [_ Ht]]. split; [eapply since_guar; [done|by eapply link_guar]|].
      destruct (link temporary path s).2 as [[]|] eqn:Hl; [|done]. destruct Ht as (Hp & Hf & _).
      apply whole_key_held; [done|]. exists ino. unfold link in Hl |- *. rewrite Hp in Hl |- *.
      destruct (fs_paths s !! path); [done|]. split; [apply lookup_insert_eq|done].
    - intros e s [Hs _]. by split. }
  intros [[]|e].
  - do 2 (apply (runs_bind guar _ _ _ (λ r s, since s0 s ∧ match r with Ok _ => since s0 s ∧ holds_key env path key s | Err _ => True end) _);
      [eapply runs_weaken; [apply quiet_runs; [apply stable_and; [apply since_relied|intros ? ? ? ?; by eapply holds_key_kept]|by intros ? [? _]]|naive_solver|naive_solver]
      | |by intros ? ? [? _]; apply made_key_err]; intros _).
    apply runs_ret. intros s (Hs & _ & Hk). split; [done|]. by intros ? [= <-].
  - apply runs_if; [apply load_since; by intros ? [? _]|]. apply runs_fail. intros s [Hs _]. by apply made_key_err.
Qed.

Lemma since_only (r : result string) s : made_key r s → since s0 s.
Proof. by intros [? _]. Qed.
Lemma made_stable r : stable rely (made_key r).
Proof. intros s s' [Hs Hk] Hc. split; [by eapply since_relied|]. intros key Hr. eapply holds_key_kept; eauto. Qed.
Lemma made_step r s s' : made_key r s → guar s s' → made_key r s'.
Proof. intros [Hs Hk] Hc. split; [by eapply since_guar|]. intros key Hr. eapply holds_key_kept; eauto. Qed.

Lemma createKey_runs random :
  (∀ key, random = Ok key → len key = keySize) → runs (since s0) (createKey env path random names) made_key.
Proof using Hothers Hpath Hapart Hnames.
  intros Hrandom. unfold createKey.
  apply (runs_bind guar _ _ _ (λ r s, since s0 s ∧ match r with Ok _ => since s0 s | Err _ => True end) _);
    [apply quiet_runs; [apply since_relied|done]| |by intros ? ? [? _]; apply made_key_err].
  intros _. apply (runs_bind guar _ _ _ (λ r s, since s0 s ∧ match r with Ok key => len key = keySize | Err _ => True end) _);
    [| |by intros ? ? [? _]; apply made_key_err].
  { apply runs_map_err, runs_lift. intros s [Hs _]. split; [done|]. destruct random; [by apply Hrandom|done]. }
  intros key. apply (runs_bind guar _ _ _ (λ r s, since s0 s ∧ match r with
    | Ok (temporary, ino) => len key = keySize ∧ temporary ∈ names ∧ temporary_file temporary ino "" s | Err _ => True end) _);
    [| |by intros ? ? [? _]; apply made_key_err].
  { apply runs_map_err, (runs_call_file env rely guar Hothers guar_same).
    - intros s s' [? ?] Hc. split; [by eapply since_relied|done].
    - intros s _. by apply create_temp_guar.
    - intros s [Hs Hkey]. split; [eapply since_guar; [done|by apply create_temp_guar]|].
      destruct (create_temp euid names s).2 as [[temporary ino]|] eqn:Hmade; [|done].
      apply create_temp_made in Hmade as [? ?]. done.
    - by intros e s [Hs _]. }
  intros [temporary ino]. apply (runs_pure _ (len key = keySize ∧ temporary ∈ names)); [by intros s (_ & ? & ? & _)|].
  intros [Hkey Hn].
  apply (runs_weaken _ (λ s, since s0 s ∧ temporary_file temporary ino "" s) _ _ made_key); [|by intros s (? & _ & _ & ?)|done].
  apply (runs_bind guar _ _ _ (λ r s, match r with Ok made => made_key made s | Err _ => False end) _); [| |done].
  { by apply runs_attempt, publish_runs. }
  intros made. apply (runs_bind guar _ _ _ (λ r s, match r with Ok _ => made_key made s | Err _ => False end) _); [| |done].
  { apply runs_attempt, (runs_look env rely guar Hothers guar_same); [apply made_stable|done|done]. }
  intros _. apply (runs_bind guar _ _ _ (λ r s, match r with Ok _ => made_key made s | Err _ => False end) _); [| |done].
  { apply runs_attempt, (runs_call_file env rely guar Hothers guar_same); [apply made_stable| | |done].
    - intros s _. by apply remove_guar.
    - intros s Hm. eapply made_step; [done|by apply remove_guar]. }
  intros _. by apply runs_lift.
Qed.

Lemma New_made key s : made_key (Ok key) s → made_key (New key) s.
Proof.
  intros [Hs Hk]. unfold New. destruct (negb _); [by apply made_key_err|]. split; [done|]. by intros ? [= <-]; apply Hk.
Qed.
Lemma LoadExisting_runs : runs (since s0) (LoadExisting env path) made_key.
Proof using Hothers.
  unfold LoadExisting. apply (runs_bind guar _ _ _ made_key _); [by apply load_since| |by intros ? ? [? _]; apply made_key_err].
  intros key. apply runs_lift. intros s. apply New_made.
Qed.
Lemma LoadOrCreate_runs random :
  (∀ key, random = Ok key → len key = keySize) → runs (since s0) (LoadOrCreate env path random names) made_key.
Proof using Hothers Hpath Hapart Hnames.
  intros Hrandom. unfold LoadOrCreate.
  apply (runs_bind guar _ _ _ (λ r s, match r with Ok found => made_key found s | Err _ => False end) _); [|intros found|done].
  { by apply runs_attempt, load_since. }
  apply (runs_bind guar _ _ _ made_key _); [| |by intros ? ? [? _]; apply made_key_err].
  2: { intros key. apply runs_lift. intros s. apply New_made. }
  destruct found as [key|e]; [by apply runs_ret|]. apply runs_if; [|apply runs_fail; by intros ? [? _]; apply made_key_err].
  eapply runs_weaken; [by apply createKey_runs|by intros ? [? _]|done].
Qed.
Lemma LoadForDatabase_runs databasePath explicit random :
  (∀ key, random = Ok key → len key = keySize) →
  runs (since s0) (LoadForDatabase env path databasePath explicit random names) made_key.
Proof using Hothers Hpath Hapart Hnames.
  intros Hrandom. unfold LoadForDatabase. destruct explicit; [apply LoadExisting_runs|].
  apply (runs_bind guar _ _ _ (λ r s, match r with Ok found => made_key found s | Err _ => False end) _); [|intros [key|e]|done].
  { apply runs_attempt, LoadExisting_runs. }
  { by apply runs_ret. }
  apply runs_if; [by apply runs_fail|].
  apply (runs_bind guar _ _ _ (λ r s, match r with Ok _ => since s0 s | Err _ => False end) _); [|intros [[]|e']|done].
  { apply runs_attempt, (runs_look env rely guar Hothers guar_same); [apply made_stable|by intros ? [? _]|by intros ? ? [? _]]. }
  { apply runs_fail. intros ? ?. by apply made_key_err. }
  apply runs_if; [apply runs_fail; intros ? ?; by apply made_key_err|]. by apply LoadOrCreate_runs.
Qed.
End steps.
End first_start.

(** ** Loading without failures *)

Section later_start.
Context (env : surrounding) (path : string) (names : list string) (key : string).
Context (Hothers : ∀ i s, considerate (su_euid env) path names s (su_others env i s)).
Context (Hworks : ∀ i, su_failing env i = None).
Notation rely := (considerate (su_euid env) path names).
Notation runs := (runs (λ _ _, True)).

(** A call that only looks succeeds. *)
Lemma runs_look_sure {A} (P : fs → Prop) (look : fs → result A) (a : A) f :
  stable rely P → (∀ s, P s → look s = Ok a) →
  runs P (map_err f (call_file env (λ s, (s, look s)))) (λ r s, P s ∧ r = Ok a).
Proof using Hothers Hworks.
  intros HP Hl. apply runs_map_err, (runs_look_failing env rely _ Hothers); [done|done| |].
  - intros s Hs. by rewrite Hl.
  - intros i e s Hf. by rewrite Hworks in Hf.
Qed.

Lemma key_is_loaded : runs (holds_key env path key) (loadKey env path) (λ r _, r = Ok key).
Proof using Hothers Hworks.
  intros st [(file & (ino & Hfound) & Hkind & Howned & Hparse) Hc]. revert st Hfound Hc.
  assert (Hlen : len (in_data file) <= maxKeyFileBytes).
  { unfold parse_key in Hparse. destruct (Z.ltb_spec maxKeyFileBytes (len (in_data file))); [done|lia]. }
  assert (Hst : stable rely (found_at path ino (Some file))) by (intros ? ? ? ?; by eapply found_at_stable).
  enough (runs (found_at path ino (Some file)) (loadKey env path) (λ r _, r = Ok key)) as Hruns by (intros st Hf Hc; by apply Hruns).
  unfold loadKey. apply (runs_known _ _ _ _ ino).
  { apply runs_look_sure; [done|]. intros s [Hp Hf]. simpl in Hf. rewrite Hp, Hf. by destruct file as [[] ? ? ?]. }
  apply (runs_known _ _ _ _ file).
  { apply runs_look_sure; [done|]. intros s [Hp Hf]. simpl in Hf. by rewrite Hf. }
  do 3 (apply (runs_known _ _ _ _ tt); [apply runs_lift; intros s Hs; split; [done|]; rewrite ?Hkind, ?Howned, ?(proj2 (Z.ltb_ge _ _) Hlen); done|]).
  apply (runs_known _ _ _ _ (in_data file)); [|by apply runs_lift].
  apply runs_look_sure; [done|]. intros s [Hp Hf]. simpl in Hf. rewrite Hf. cbn -[take_bytes].
  rewrite take_bytes_all by (unfold len, maxKeyFileBytes in *; lia). done.
Qed.
Lemma parsed_key_size raw : parse_key raw = Ok key → New key = Ok key.
Proof.
  unfold parse_key, New. destruct (_ <? _); [done|]. destruct (cut_prefix _ _) as [text|]; [|done].
  destruct (DecodeString _ _ text) as [k|]; [|done]. destruct (Z.eqb_spec (len k) keySize) as [Hk|]; [|done].
  intros [= ->]. by rewrite Hk.
Qed.
Lemma key_is_loaded_existing : runs (holds_key env path key) (LoadExisting env path) (λ r _, r = Ok key).
Proof using Hothers Hworks.
  apply (runs_pure _ (New key = Ok key)); [intros s (file & _ & _ & _ & Hp); by eapply parsed_key_size|]. intros Hnew.
  unfold LoadExisting. apply (runs_bind _ _ _ _ (λ r s, r = Ok key)); [apply key_is_loaded| |by intros].
  intros k. apply runs_lift. by intros _ [= ->].
Qed.
Lemma started_with databasePath explicit random s :
  holds_key env path key s → (LoadForDatabase env path databasePath explicit random names (MkKeyState s [])).2 = Ok key.
Proof using Hothers Hworks.
  intros Hk. enough (runs (holds_key env path key) (LoadForDatabase env path databasePath explicit random names) (λ r _, r = Ok key)) as Hruns
    by (by apply (Hruns (MkKeyState s []))).
  unfold LoadForDatabase. destruct explicit; [apply key_is_loaded_existing|].
  apply (runs_bind _ _ _ _ (λ r s, r = Ok (Ok key))); [apply runs_attempt; eapply runs_weaken; [apply key_is_loaded_existing|done|by intros ? ? ->]| |by intros].
  intros found. apply (runs_pure _ (found = Ok key)); [by intros _ [= ->]|]. intros ->. by apply runs_ret.
Qed.
End later_start.

(** ** Starts that make nothing *)

Section existing.
Context (env : surrounding) (path : string) (rely : fs → fs → Prop) (P : fs → Prop).
Context (Hothers : ∀ i s, rely s (su_others env i s)) (Hst : stable rely P).
Notation runs := (runs eq).

Lemma quiet_look {A} f (look : fs → result A) : runs P (map_err f (call_file env (λ s, (s, look s)))) (λ _, P).
Proof using Hothers Hst. by apply runs_map_err, (runs_look env rely eq Hothers). Qed.
Lemma quiet_loadKey : runs P (loadKey env path) (λ _, P).
Proof using Hothers Hst.
  unfold loadKey. do 2 (eapply runs_bind; [apply quiet_look|intros ?|done]).
  do 3 (eapply runs_bind; [by apply (runs_lift _ P _ (λ _, P))|intros ?|done]).
  eapply runs_bind; [apply quiet_look|intros ?|done]. by apply runs_lift.
Qed.
Lemma quiet_LoadExisting : runs P (LoadExisting env path) (λ _, P).
Proof using Hothers Hst. unfold LoadExisting. eapply runs_bind; [apply quiet_loadKey|intros ?|done]. by apply runs_lift. Qed.
Lemma quiet_LoadForDatabase databasePath explicit random names :
  explicit = true
  ∨ (∀ s, P s → is_Some (fs_paths s !! databasePath)) ∧ (∀ i e, su_failing env i = Some e → errors_is e ErrNotExist = false) →
  runs P (LoadForDatabase env path databasePath explicit random names) (λ _, P).
Proof using Hothers Hst.
  intros Hcase. unfold LoadForDatabase. destruct explicit; [apply quiet_LoadExisting|].
  destruct Hcase as [|[Hdb Hfail]]; [done|].
  apply (runs_bind _ _ _ _ (λ _, P)); [apply runs_attempt, quiet_LoadExisting|intros [key|e]|done]; [by apply runs_ret|].
  apply runs_if; [by apply runs_fail|].
  apply (runs_bind _ _ _ _ (λ r s, P s ∧ match r with Ok (Err e) => errors_is e ErrNotExist = false | _ => True end)); [|intros [u|e']|by intros ? ? [? _]].
  - apply runs_attempt, (runs_look_failing env rely eq Hothers); [done|done| |by intros; split; [|eapply Hfail]].
    intros s Hs. split; [done|]. by destruct (Hdb s Hs) as [ino ->].
  - apply runs_fail. by intros s [? _].
  - apply (runs_pure _ (errors_is e' ErrNotExist = false)); [by intros s [_ ?]|]. intros ->. apply runs_fail. by intros s [? _].
Qed.
End existing.

(** ** The properties *)

(** A start of the control plane on the files [s]. *)
Definition start (env : surrounding) (path databasePath : string) (explicit : bool) (random : result string) (names : list string) (s : fs) :=
  LoadForDatabase env path databasePath explicit random names (MkKeyState s []).

(** C21: whatever call of a start fails, and whatever other starts do meanwhile, an existing
    key file keeps its name and content, and a path without one has none or a whole key of
    this user in the end; a key that is returned is the one at the path; and every call
    treats the other starts in the way this one relies on them. *)
Theorem key_is_published_whole env path databasePath explicit random names others s :
  path ∉ names → path ∉ others → (∀ name, name ∈ names → name ∉ others) →
  (∀ i s, considerate (su_euid env) path names s (su_others env i s)) →
  (∀ key, random = Ok key → len key = keySize) →
  let '(st, r) := start env path databasePath explicit random names s in
  (∀ file, names_file s path file → names_file (ks_files st) path file)
  ∧ (fs_paths s !! path = None → fs_paths (ks_files st) !! path = None
      ∨ ∃ key, len key = keySize ∧ names_file (ks_files st) path (whole_key (su_euid env) key))
  ∧ (∀ key, r = Ok key → holds_key env path key (ks_files st))
  ∧ Forall (λ c, considerate (su_euid env) path others c.1 c.2) (ks_calls st).
Proof.
  intros Hpath Hapart Hnames Hothers Hrandom.
  destruct (LoadForDatabase_runs env path names others Hothers Hpath Hapart Hnames s databasePath explicit random Hrandom
    (MkKeyState s []) (conj (considerate_refl _ _ _ _) (Forall_nil_2 _))) as [[Hs Hk] Hc].
  unfold start. destruct (LoadForDatabase _ _ _ _ _ _ _) as [st r]. simpl in *. split; [|split; [|done]].
  - intros file (ino & Hp & Hf). exists ino. destruct (cs_kept _ _ _ _ _ Hs _ Hp) as [? ->]. done.
  - apply (cs_whole _ _ _ _ _ Hs).
Qed.


(** C22: the key a start returned is the key of every later start that no call fails, the
    explicit path or the default one, the database there or not, whatever its own random
    bytes are. *)
Theorem later_starts_have_the_same_key env env' path databasePath explicit random (names others : list string) s
    databasePath' explicit' random' (names' : list string) s' :
  path ∉ names → path ∉ others → (∀ name, name ∈ names → name ∉ others) →
  (∀ i s, considerate (su_euid env) path names s (su_others env i s)) →
  (∀ key, random = Ok key → len key = keySize) →
  su_euid env' = su_euid env →
  (∀ i s, considerate (su_euid env') path names' s (su_others env' i s)) → (∀ i, su_failing env' i = None) →
  let '(st, r) := start env path databasePath explicit random names s in
  ∀ key, r = Ok key → considerate (su_euid env) path [] (ks_files st) s' →
  (start env' path databasePath' explicit' random' names' s').2 = Ok key.
Proof.
  intros Hpath Hapart Hnames Hothers Hrandom Heuid Hothers' Hworks.
  destruct (LoadForDatabase_runs env path names others Hothers Hpath Hapart Hnames s databasePath explicit random Hrandom
    (MkKeyState s []) (conj (considerate_refl _ _ _ _) (Forall_nil_2 _))) as [[_ Hk] _].
  unfold start at 1. destruct (LoadForDatabase env _ _ _ _ _ _) as [st r]. simpl in *.
  intros key -> Hkept. specialize (Hk key eq_refl). apply (holds_key_kept _ _ [] _ _ s') in Hk; [|done].
  assert (Hheld : holds_key env' path key s') by (destruct Hk as (file & ? & ? & Ho & ?); exists file; unfold owned_privately in *; by rewrite Heuid).
  apply (started_with env' path names' key Hothers' Hworks). done.
Qed.

(** A start that was told a key path, or finds its database there, makes no key and
    changes no file: the key of an existing database is never replaced by a new one. *)
Theorem no_new_key_for_an_existing_database env path databasePath explicit random names s :
  explicit = true
  ∨ is_Some (fs_paths s !! databasePath)
    ∧ (∀ i s, is_Some (fs_paths s !! databasePath) → is_Some (fs_paths (su_others env i s) !! databasePath))
    ∧ (∀ i e, su_failing env i = Some e → errors_is e ErrNotExist = false) →
  Forall (λ c, c.1 = c.2) (ks_calls (start env path databasePath explicit random names s).1).
Proof.
  intros [Hex|(Hdb & Hstays & Hfail)]; unfold start.
  - apply (quiet_LoadForDatabase env path (λ _ _, True) (λ _, True)); try done; by left.
  - apply (quiet_LoadForDatabase env path (λ s s', is_Some (fs_paths s !! databasePath) → is_Some (fs_paths s' !! databasePath))
      (λ s, is_Some (fs_paths s !! databasePath))); try done; [intros ? ? ? Hc; by apply Hc|by right].
Qed.

(** ** Witnesses: a first start that another one overtakes *)

(** Another start that publishes its key before the [n]-th call. *)
Definition rival (euid : Z) (path key : string) (n i : nat) (s : fs) : fs :=
  match fs_paths s !! path with
  | Some _ => s
  | None =>
      if (i =? n)%nat then
        let ino := fresh (dom (fs_inodes s) ∪ map_img (fs_paths s) : gset nat) in
        MkFiles (<[path := ino]> (fs_paths s)) (<[ino := whole_key euid key]> (fs_inodes s))
      else s
  end.
Lemma rival_considerate euid path key n names i s :
  len key = keySize → path ∉ names → considerate euid path names s (rival euid path key n i s).
Proof.
  intros Hkey Hpath. unfold rival. destruct (fs_paths s !! path) eqn:Hp; [apply considerate_refl|].
  destruct (i =? n)%nat; [|apply considerate_refl]. set (ino := fresh _).
  assert (Hfresh : ino ∉ dom (fs_inodes s) ∪ (map_img (fs_paths s) : gset nat)) by apply is_fresh.
  apply not_elem_of_union in Hfresh as [_ Himg].
  assert (Hold : ∀ p j, fs_paths s !! p = Some j → j ≠ ino) by (intros p j Hj ->; apply Himg, elem_of_map_img; eauto).
  split; cbn [fs_paths fs_inodes].
  - congruence.
  - intros _. right. exists key. split; [done|]. exists ino. split; apply lookup_insert_eq.
  - intros name Hn. apply lookup_insert_ne. intros ->. done.
  - intros name j Hn Hj. pose proof (Hold _ _ Hj). split; [by apply lookup_insert_ne|]. intros p Hp'.
    apply lookup_insert_Some in Hp' as [[_ ?]|[_ ?]]; [congruence|done].
Qed.

Definition key_path : string := "/data/master.key".
Definition rival_key : string := "abcdefghijklmnopqrstuvwxyz012345".
Definition own_key : string := "ABCDEFGHIJKLMNOPQRSTUVWXYZ012345".
Definition empty_files : fs := MkFiles ∅ ∅.
(** The other start publishes after this one wrote its temporary file. *)
Definition overtaken : surrounding := MkSurrounding 1000 (rival 1000 key_path rival_key 7) (λ _, None) (λ _, 0%nat).
(** A start that stops while it writes. *)
Definition stopped : surrounding :=
  MkSurrounding 1000 (λ _ s, s) (λ i, if (i <? 5)%nat then None else Some (Errorf "killed")) (λ _, 20%nat).
Definition first_start (env : surrounding) := start env key_path "/data/lake.db" false (Ok own_key) ["/data/.master-key-1"] empty_files.

Lemma key_path_apart : key_path ∉ ["/data/.master-key-1"].
Proof. by apply (bool_decide_unpack _). Qed.

Lemma key_is_published_whole_witness :
  (first_start overtaken).2 = Ok rival_key
  ∧ ∃ st, first_start overtaken = (st, Ok rival_key) ∧ holds_key overtaken key_path rival_key (ks_files st).
Proof.
  assert (Hr : (first_start overtaken).2 = Ok rival_key) by (vm_compute; reflexivity).
  split; [exact Hr|].
  pose proof (key_is_published_whole overtaken key_path "/data/lake.db" false (Ok own_key) ["/data/.master-key-1"] ["/data/.master-key-2"] empty_files
    key_path_apart ltac:(by apply (bool_decide_unpack _)) ltac:(intros name Hn; apply list_elem_of_singleton in Hn as ->; by apply (bool_decide_unpack _))
    ltac:(intros i s; by apply rival_considerate; [|apply key_path_apart]) ltac:(by intros ? [= <-])) as Hmain.
  unfold first_start in *. destruct (start overtaken _ _ _ _ _ _) as [st r]. cbn [snd] in Hr. subst r.
  exists st. split; [reflexivity|]. destruct Hmain as (_ & _ & Hk & _). by apply Hk.
Defined.

(** The start that stopped left no key file; the next one makes the key. *)
Example stopped_start_leaves_no_key :
  is_ok (first_start stopped).2 = false ∧ fs_paths (ks_files (first_start stopped).1) !! key_path = None.
Proof. by vm_compute. Qed.

Definition calm : surrounding := MkSurrounding 1000 (λ _ s, s) (λ _, None) (λ _, 0%nat).
Lemma later_starts_have_the_same_key_witness :
  (start calm key_path "/data/lake.db" true (Ok own_key) [] (ks_files (first_start overtaken).1)).2 = Ok rival_key.
Proof.
  pose proof (later_starts_have_the_same_key overtaken calm key_path "/data/lake.db" false (Ok own_key) ["/data/.master-key-1"] [] empty_files
    "/data/lake.db" true (Ok own_key) [] (ks_files (first_start overtaken).1)
    key_path_apart (not_elem_of_nil _) ltac:(intros; apply not_elem_of_nil)
    ltac:(intros i s; by apply rival_considerate; [|apply key_path_apart]) ltac:(by intros ? [= <-]) eq_refl
    ltac:(intros; apply considerate_refl) ltac:(done)) as Hmain.
  assert (Hr : (first_start overtaken).2 = Ok rival_key) by (vm_compute; reflexivity).
  unfold first_start in *. destruct (start overtaken _ _ _ _ _ _) as [st r]. cbn [fst snd] in *. subst r.
  apply Hmain; [reflexivity|apply considerate_refl].
Defined.

Definition with_database : fs := MkFiles {["/data/lake.db" := 3%nat]} {[3%nat := MkInode RegularKind 1000 384 "SQLite"]}.
Lemma no_new_key_for_an_existing_database_witness :
  (start calm key_path "/data/lake.db" false (Ok own_key) ["/data/.master-key-1"] with_database).2
    = Err (Errorf "encryption key is missing for an existing database; restore its matching key")
  ∧ Forall (λ c, c.1 = c.2) (ks_calls (start calm key_path "/data/lake.db" false (Ok own_key) ["/data/.master-key-1"] with_database).1).
Proof.
  split; [vm_compute; reflexivity|]. apply no_new_key_for_an_existing_database. right.
  split; [exists 3%nat; vm_compute; reflexivity|]. split; [intros ? ? H; exact H|intros ? ? H; discriminate H].
Defined.
