(* ===== verification/Auth.v ===== *)
(** * Passwords, tokens and usernames (src/internal/auth)

    Argon2id and SHA-256 are libraries: the class [Hashes] stands for them.  A random
    salt or token is an argument; [slot] tells whether one of the two places of the
    process-wide work limit was free. *)

From S2P Require Import Prelude GoStrings Base64.
From Stdlib Require Import Ascii String.

Open Scope Z_scope.

Class Hashes := {
  (** password, salt, iterations, memory, threads, key length *)
  argon2_IDKey : string → string → Z → Z → Z → Z → string;
  sha256_Sum : string → string
}.
(** Documented behaviour: the derived key has the requested length. *)
Definition argon2_length (H : Hashes) : Prop :=
  ∀ pw salt t m p n, 0 <= n → len (@argon2_IDKey H pw salt t m p n) = n.

Definition argonVersion : Z := 19.
Definition argonMemory : Z := 64 * 1024.
Definition argonTime : Z := 3.
Definition argonThreads : Z := 2.
Definition argonKeyLen : Z := 32.
Definition saltLen : Z := 16.
Definition tokenBytes : Z := 32.

(** [beginPasswordWork] *)
Definition beginPasswordWork (slot : bool) : result unit := reject (negb slot) (Sentinel ErrBusy).

Definition validatePassword (password : string) : result unit :=
  if len (trim_space password) <? 12 then Err (Errorf "password must be at least 12 characters")
  else if 1024 <? len password then Err (Errorf "password is too long")
  else Ok tt.

(** [fmt.Sscanf] with one [%d] after a literal: the digits that follow and the rest. *)
Fixpoint scan_digits (s : string) : string * string :=
  match s with
  | String c s' => if is_digit c then let '(d, r) := scan_digits s' in (String c d, r)
                   else (EmptyString, s)
  | EmptyString => (EmptyString, EmptyString)
  end.
Definition skip_sign (signed : bool) (s : string) : string :=
  match s with
  | String c s' => if signed && Ascii.eqb c "+" then s' else s
  | EmptyString => EmptyString
  end.
Definition scan_number (signed : bool) (bits : Z) (literal s : string) : option (Z * string) :=
  rest ← cut_prefix literal s;
  let '(d, r) := scan_digits (skip_sign signed (drop_byte " " rest)) in
  v ← parse_uint bits d; Some (v, r).

Section Hashing.
Context `{Hashes}.

Definition HashPassword (slot : bool) (salt password : string) : result string :=
  _ ← validatePassword password;
  _ ← beginPasswordWork slot;
  let hash := argon2_IDKey password salt argonTime argonMemory argonThreads argonKeyLen in
  Ok ("$argon2id$v=19$m=65536,t=3,p=2$" +:+ EncodeToString StdAlphabet salt +:+ "$"
      +:+ EncodeToString StdAlphabet hash).

Definition VerifyPassword (slot : bool) (encoded password : string) : result bool :=
  match split_byte "$" encoded with
  | [_; p1; p2; p3; p4; p5] =>
      if negb (String.eqb p1 "argon2id") then Err (Errorf "password hash has an unsupported format")
      else match scan_number true 63 "v=" p2 with
      | None => Err (Errorf "password hash has an unsupported version")
      | Some (version, _) =>
      if negb (version =? argonVersion) then Err (Errorf "password hash has an unsupported version")
      else match ('(memory, r1) ← scan_number false 32 "m=" p3;
                  '(iterations, r2) ← scan_number false 32 ",t=" r1;
                  '(threads, _) ← scan_number false 8 ",p=" r2;
                  Some (memory, iterations, threads)) with
      | None => Err (Errorf "password hash parameters are malformed")
      | Some (memory, iterations, threads) =>
      if (memory <? 8 * 1024) || (256 * 1024 <? memory) || (iterations <? 1) || (10 <? iterations)
         || (threads <? 1) || (8 <? threads)
      then Err (Errorf "password hash parameters are outside safe bounds")
      else match DecodeString false StdAlphabet p4 with
      | None => Err (Errorf "password hash salt is malformed")
      | Some salt =>
      if (len salt <? 8) || (64 <? len salt) then Err (Errorf "password hash salt is malformed")
      else match DecodeString false StdAlphabet p5 with
      | None => Err (Errorf "password hash is malformed")
      | Some expected =>
      if (len expected <? 16) || (64 <? len expected) then Err (Errorf "password hash is malformed")
      else
        _ ← beginPasswordWork slot;
        Ok (String.eqb (argon2_IDKey password salt iterations memory threads (len expected)) expected)
      end end end end
  | _ => Err (Errorf "password hash has an unsupported format")
  end.

(** [EqualizePasswordCheck]: only the work limit can make it fail. *)
Definition EqualizePasswordCheck (slot : bool) (password : string) : result unit := beginPasswordWork slot.

(** [HashToken]: the form a token is stored in. *)
Definition HashToken (token : string) : string := EncodeToString URLAlphabet (sha256_Sum token).

(** [NewToken] of 32 random bytes. *)
Definition NewToken (raw : string) : string := EncodeToString URLAlphabet raw.

Definition sessionTokenPrefix (scope : string) : string :=
  if String.eqb scope "" then ""
  else "v1." +:+ HashToken ("buntzen-public-session-v1" +:+ bytes [0%nat] +:+ scope) +:+ ".".
Definition NewSessionToken (raw scope : string) : string := sessionTokenPrefix scope +:+ NewToken raw.

(** The canonical text of 32 bytes. *)
Definition canonical_token (text : string) : bool :=
  match DecodeString true URLAlphabet text with
  | Some d => (len d =? tokenBytes) && String.eqb (EncodeToString URLAlphabet d) text
  | None => false
  end.
Definition SessionTokenMatchesScope (token scope : string) : bool :=
  match cut_prefix (sessionTokenPrefix scope) token with
  | Some raw => (len raw =? 43) && canonical_token raw
  | None => false
  end.
Definition ValidateSetupToken (token : string) : result unit :=
  reject (negb (canonical_token token))
    (Errorf "LAKE_PASS_SETUP_TOKEN must encode 32 random bytes as unpadded URL-safe base64").
End Hashing.

Definition username_byte (c : ascii) : bool :=
  is_alnum c || any_byte (Ascii.eqb c) "._@+-".
Definition NormalizeUsername (username0 : string) : result string :=
  let username := trim_space username0 in
  if String.eqb username "" then Err (Errorf "username is required")
  else if 128 <? len username then Err (Errorf "username is too long")
  else if negb (all_bytes username_byte username)
  then Err (Errorf "username may use only letters, digits, dot, underscore, at, plus, and hyphen")
  else Ok (to_lower username).

(** ** Round trips *)

Lemma split_byte_app sep a b :
  all_bytes (λ c, negb (Ascii.eqb c sep)) a = true →
  split_byte sep (a +:+ String sep b) = a :: split_byte sep b.
Proof.
  induction a as [|c a IH]; intros Ha.
  - rewrite append_nil_l. cbn. by rewrite Ascii.eqb_refl.
  - cbn in Ha. apply andb_true_iff in Ha as [Hc Ha]. rewrite append_cons. cbn.
    apply negb_true_iff in Hc. by rewrite Hc, IH.
Qed.

Lemma split_byte_none sep a :
  all_bytes (λ c, negb (Ascii.eqb c sep)) a = true → split_byte sep a = [a].
Proof.
  induction a as [|c a IH]; intros Ha; [done|].
  cbn in *. apply andb_true_iff in Ha as [Hc Ha]. apply negb_true_iff in Hc. by rewrite Hc, IH.
Qed.

Lemma enc6_not_dollar al v : (v < 64)%nat → Ascii.eqb (enc6 al v) "$" = false.
Proof.
  intros Hv.
  assert (Hall : Forall (λ v, Ascii.eqb (enc6 al v) "$" = false) (seq 0 64)).
  { destruct al; repeat (constructor; [by vm_compute|]); constructor. }
  rewrite Forall_forall in Hall. apply Hall, elem_of_seq. lia.
Qed.

#[local] Ltac learn_bound x :=
  lazymatch goal with
  | H : (nat_of_ascii x < 256)%nat |- _ => fail
  | _ => pose proof (ascii_lt_256 x)
  end.

Lemma encode_not_dollar al s :
  all_bytes (λ c, negb (Ascii.eqb c "$")) (EncodeToString al s) = true.
Proof.
  induction s as [|a|a b|a b c s IH] using string_ind3; [done|..];
    cbn [EncodeToString all_bytes];
    repeat match goal with x : ascii |- _ => learn_bound x end;
    rewrite ?IH, !enc6_not_dollar by nat_arith; done.
Qed.

(** The hash of a password verifies exactly the passwords with the same derived
    key: the stored text is parsed back to the parameters, salt and key it was made
    of, whatever bytes the salt and the key contain. *)
Theorem VerifyPassword_HashPassword (H : Hashes) slot salt password candidate encoded :
  argon2_length H → len salt = saltLen →
  HashPassword true salt password = Ok encoded →
  VerifyPassword slot encoded candidate =
    if slot then Ok (String.eqb (argon2_IDKey candidate salt argonTime argonMemory argonThreads argonKeyLen)
                       (argon2_IDKey password salt argonTime argonMemory argonThreads argonKeyLen))
    else Err (Sentinel ErrBusy).
Proof.
  intros Hlen Hsalt Hh. unfold HashPassword in Hh. inv_ok.
  set (key := argon2_IDKey password salt argonTime argonMemory argonThreads argonKeyLen) in *.
  assert (Hkey : len key = 32) by (apply Hlen; unfold argonKeyLen; lia).
  set (s64 := EncodeToString StdAlphabet salt). set (k64 := EncodeToString StdAlphabet key).
  assert (Hsplit : split_byte "$" ("$argon2id$v=19$m=65536,t=3,p=2$" +:+ s64 +:+ "$" +:+ k64) =
    [""; "argon2id"; "v=19"; "m=65536,t=3,p=2"; s64; k64]).
  { change ("$argon2id$v=19$m=65536,t=3,p=2$" +:+ s64 +:+ "$" +:+ k64)
      with ("" +:+ String "$" ("argon2id" +:+ String "$" ("v=19" +:+ String "$"
        ("m=65536,t=3,p=2" +:+ String "$" (s64 +:+ String "$" k64))))).
    rewrite !split_byte_app, split_byte_none by (reflexivity || apply encode_not_dollar). done. }
  unfold VerifyPassword. rewrite Hsplit.
  change (negb (String.eqb "argon2id" "argon2id")) with false. cbv iota.
  change (scan_number true 63 "v=" "v=19") with (Some (19, "")). cbv iota beta.
  change (negb (19 =? argonVersion)) with false. cbv iota.
  match goal with |- context [scan_number false 32 "m=" ?x] =>
    change (scan_number false 32 "m=" x) with (Some (65536, ",t=3,p=2")) end.
  cbn [mbind option_bind].
  change (scan_number false 32 ",t=" ",t=3,p=2") with (Some (3, ",p=2")). cbn [mbind option_bind].
  change (scan_number false 8 ",p=" ",p=2") with (Some (2, "")). cbn [mbind option_bind].
  match goal with |- (if ?c then _ else _) = _ => change c with false end. cbv iota.
  subst s64 k64. rewrite !DecodeString_EncodeToString, Hsalt, Hkey. unfold saltLen.
  change ((16 <? 8) || (64 <? 16)) with false. change ((32 <? 16) || (64 <? 32)) with false. cbv iota.
  unfold beginPasswordWork. by destruct slot.
Qed.

(** The key is the password, cut or padded to length. *)
Fixpoint fit (n : nat) (s : string) : string :=
  match n with
  | O => EmptyString
  | S n => match s with String c s' => String c (fit n s') | EmptyString => String "." (fit n EmptyString) end
  end.
Definition sample_hashes : Hashes := {|
  argon2_IDKey pw _ _ _ _ n := fit (Z.to_nat n) pw; sha256_Sum s := fit 32 s |}.
Lemma fit_length n s : String.length (fit n s) = n.
Proof. revert s. induction n as [|n IH]; intros [|c s]; simpl; auto. Qed.

Lemma VerifyPassword_HashPassword_witness :
  ∃ encoded, @HashPassword sample_hashes true "0123456789abcdef" "correct horse battery" = Ok encoded ∧
    @VerifyPassword sample_hashes true encoded "correct horse battery" = Ok true ∧
    @VerifyPassword sample_hashes true encoded "wrong horse battery!" = Ok false.
Proof.
  eexists. split; [vm_compute; reflexivity|].
  assert (Hlaw : argon2_length sample_hashes).
  { intros pw salt t m p n Hn. unfold len; simpl. rewrite fit_length. lia. }
  split; (etrans; [apply (VerifyPassword_HashPassword sample_hashes true "0123456789abcdef"
    "correct horse battery"); [exact Hlaw|reflexivity|vm_compute; reflexivity]|vm_compute; reflexivity]).
Defined.
