(* ===== verification/Json.v ===== *)
(** * JSON values ([encoding/json])

    The values a Go [any] holds after decoding with [UseNumber], the text [Marshal]
    writes and the value [Decoder.Decode] reads.  A number keeps its text.  The
    parser runs on fuel: every step consumes a byte, so the length of the text is
    enough. *)

From S2P Require Import Prelude GoStrings.
From Stdlib Require Import Ascii String.

Inductive json :=
  | JNull
  | JBool (b : bool)
  | JNumber (text : string)
  | JString (s : string)
  | JArray (l : list json)
  | JObject (fields : list (string * json)).

(** ** Lookup in an object, as in a Go map: the last of equal keys *)
Definition field (k : string) (fields : list (string * json)) : option json :=
  foldl (λ acc kv, if String.eqb kv.1 k then Some kv.2 else acc) None fields.

(** ** Encoding *)

Definition hex_lower (n : nat) : ascii := byte (if (n <? 10)%nat then 48 + n else 87 + n)%nat.
Definition escape_u00 (n : nat) : string :=
  bytes [92; 117; 48; 48]%nat +:+ String (hex_lower (n / 16)) (String (hex_lower (n mod 16)) EmptyString).
Definition backslash : ascii := byte 92.

(** One byte of a string, HTML-sensitive characters escaped. *)
Definition escape_byte (c : ascii) : string :=
  match nat_of_ascii c with
  | 34 | 92 => String backslash (String c EmptyString)
  | 8 => String backslash "b" | 12 => String backslash "f"
  | 10 => String backslash "n" | 13 => String backslash "r" | 9 => String backslash "t"
  | 60 => escape_u00 60 | 62 => escape_u00 62 | 38 => escape_u00 38
  | n => if (n <? 32)%nat then escape_u00 n else String c EmptyString
  end.

(** Runes: invalid UTF-8 becomes the replacement character, the line and paragraph
    separators are escaped. *)
Fixpoint escape_string (fuel : nat) (s : string) : string :=
  match fuel, s with
  | S fuel, String c s' =>
      match rune_width s with
      | Some 1%nat => escape_byte c +:+ escape_string fuel s'
      | Some w =>
          let r := take_bytes w s in
          (if String.eqb r (bytes [226; 128; 168]%nat) then bytes [92]%nat +:+ "u2028"
           else if String.eqb r (bytes [226; 128; 169]%nat) then bytes [92]%nat +:+ "u2029" else r)
          +:+ escape_string fuel (drop_bytes w s)
      | None => bytes [92]%nat +:+ "ufffd" +:+ escape_string fuel s'
      end
  | _, _ => EmptyString
  end.
Definition encode_string (s : string) : string := quote +:+ escape_string (String.length s) s +:+ quote.

(** [json.Marshal] of a map writes its keys in byte order. *)
Definition key_le (a b : string * json) : Prop := String.leb a.1 b.1 = true.
#[global] Instance key_le_dec : RelDecision key_le.
Proof. intros a b. apply bool_eq_dec. Defined.

Fixpoint encode (v : json) : string :=
  match v with
  | JNull => "null"
  | JBool true => "true" | JBool false => "false"
  | JNumber t => t
  | JString s => encode_string s
  | JArray l => "[" +:+ join "," (map encode l) +:+ "]"
  | JObject fields =>
      "{" +:+ join "," (map (λ kv : string * string, encode_string kv.1 +:+ ":" +:+ kv.2)
                          ((fix go l := match l with
                                        | [] => []
                                        | (k, w) :: l' => (k, encode w) :: go l'
                                        end) fields)) +:+ "}"
  end.
(** The fields of every object in byte order, the last of equal keys kept. *)
Fixpoint dedup_fields (l : list (string * json)) : list (string * json) :=
  match l with
  | [] => []
  | (k, v) :: l' => if existsb (λ kv, String.eqb kv.1 k) l' then dedup_fields l' else (k, v) :: dedup_fields l'
  end.
Fixpoint normalize (v : json) : json :=
  match v with
  | JArray l => JArray (map normalize l)
  | JObject fields =>
      JObject (merge_sort key_le (dedup_fields
        ((fix go l := match l with [] => [] | (k, w) :: l' => (k, normalize w) :: go l' end) fields)))
  | _ => v
  end.
Definition Marshal (v : json) : string := encode (normalize v).

(** ** Decoding *)

Definition is_json_space (c : ascii) : bool :=
  Ascii.eqb c " " || (nat_of_ascii c =? 9)%nat || (nat_of_ascii c =? 10)%nat || (nat_of_ascii c =? 13)%nat.
Fixpoint skip_json_space (s : string) : string :=
  match s with String c s' => if is_json_space c then skip_json_space s' else s | EmptyString => EmptyString end.

Definition hex_digit_value (c : ascii) : option nat :=
  let n := nat_of_ascii c in
  if is_digit c then Some (n - 48)%nat
  else if in_range 97 102 c then Some (n - 87)%nat
  else if in_range 65 70 c then Some (n - 55)%nat else None.
Definition hex4 (s : string) : option (nat * string) :=
  match s with
  | String a (String b (String c (String d r))) =>
      w ← hex_digit_value a; x ← hex_digit_value b; y ← hex_digit_value c; z ← hex_digit_value d;
      Some (((w * 16 + x) * 16 + y) * 16 + z, r)%nat
  | _ => None
  end.
Definition utf8_encode (n : nat) : string :=
  (if n <? 128 then bytes [n]
   else if n <? 2048 then bytes [192 + n / 64; 128 + n mod 64]
   else if n <? 65536 then bytes [224 + n / 4096; 128 + n / 64 mod 64; 128 + n mod 64]
   else bytes [240 + n / 262144; 128 + n / 4096 mod 64; 128 + n / 64 mod 64; 128 + n mod 64])%nat.
(** The rune of a [\u] escape and of the surrogate pair it may begin. *)
Definition unicode_escape (s : string) : option (string * string) :=
  '(n, r) ← hex4 s;
  (if (55296 <=? n) && (n <=? 57343)
   then match cut_prefix (bytes [92; 117]) r ≫= hex4 with
        | Some (m, r') =>
            if (n <? 56320) && (56320 <=? m) && (m <=? 57343)
            then Some (utf8_encode (65536 + (n - 55296) * 1024 + (m - 56320)), r')
            else Some (replacement_char, r)
        | None => Some (replacement_char, r)
        end
   else Some (utf8_encode n, r))%nat.

(** The content of a string after its opening quote, and what follows the closing one. *)
Fixpoint parse_string (fuel : nat) (s : string) : option (string * string) :=
  match fuel, s with
  | S fuel, String c s' =>
      let n := nat_of_ascii c in
      if (n =? 34)%nat then Some (EmptyString, s')
      else if (n <? 32)%nat then None
      else if (n =? 92)%nat then
        match s' with
        | String e s'' =>
            '(piece, rest) ←
              match nat_of_ascii e with
              | 34 | 92 | 47 => Some (String e EmptyString, s'')
              | 98 => Some (bytes [8]%nat, s'') | 102 => Some (bytes [12]%nat, s'')
              | 110 => Some (bytes [10]%nat, s'') | 114 => Some (bytes [13]%nat, s'')
              | 116 => Some (bytes [9]%nat, s'') | 117 => unicode_escape s''
              | _ => None
              end;
            '(tail, r) ← parse_string fuel rest; Some (piece +:+ tail, r)
        | EmptyString => None
        end
      else
        match rune_width s with
        | Some w => '(tail, r) ← parse_string fuel (drop_bytes w s); Some (take_bytes w s +:+ tail, r)
        | None => '(tail, r) ← parse_string fuel s'; Some (replacement_char +:+ tail, r)
        end
  | _, _ => None
  end.

Fixpoint span_digits (s : string) : string * string :=
  match s with
  | String c s' => if is_digit c then let '(d, r) := span_digits s' in (String c d, r) else (EmptyString, s)
  | EmptyString => (EmptyString, EmptyString)
  end.
Definition digits1 (s : string) : option (string * string) :=
  let '(d, r) := span_digits s in if String.eqb d "" then None else Some (d, r).
Definition optional_sign (signs s : string) : string * string :=
  match s with
  | String c s' => if any_byte (Ascii.eqb c) signs then (String c EmptyString, s') else (EmptyString, s)
  | EmptyString => (EmptyString, EmptyString)
  end.
Definition parse_number (s : string) : option (string * string) :=
  let '(sign, s1) := optional_sign "-" s in
  '(int, s2) ← (match s1 with
                | String "0" r => Some ("0", r)
                | _ => digits1 s1
                end);
  '(frac, s3) ← (match s2 with
                 | String "." r => '(d, r') ← digits1 r; Some ("." +:+ d, r')
                 | _ => Some ("", s2)
                 end);
  '(exp, s4) ← (match s3 with
                | String e r =>
                    if any_byte (Ascii.eqb e) "eE" then
                      let '(sg, r1) := optional_sign "+-" r in
                      '(d, r2) ← digits1 r1; Some (String e (sg +:+ d), r2)
                    else Some ("", s3)
                | EmptyString => Some ("", s3)
                end);
  Some (sign +:+ int +:+ frac +:+ exp, s4).

Fixpoint parse_value (fuel : nat) (s0 : string) : option (json * string) :=
  match fuel with
  | O => None
  | S fuel =>
      match skip_json_space s0 with
      | EmptyString => None
      | String c s =>
          if (nat_of_ascii c =? 34)%nat then '(v, r) ← parse_string fuel s; Some (JString v, r)
          else if Ascii.eqb c "[" then
            match skip_json_space s with
            | String "]" r => Some (JArray [], r)
            | _ => '(l, r) ← parse_elements fuel s; Some (JArray l, r)
            end
          else if Ascii.eqb c "{" then
            match skip_json_space s with
            | String "}" r => Some (JObject [], r)
            | _ => '(l, r) ← parse_members fuel s; Some (JObject l, r)
            end
          else match cut_prefix "null" (String c s) with
          | Some r => Some (JNull, r)
          | None => match cut_prefix "true" (String c s) with
          | Some r => Some (JBool true, r)
          | None => match cut_prefix "false" (String c s) with
          | Some r => Some (JBool false, r)
          | None => '(n, r) ← parse_number (String c s); Some (JNumber n, r)
          end end end
      end
  end
with parse_elements (fuel : nat) (s : string) : option (list json * string) :=
  match fuel with
  | O => None
  | S fuel =>
      '(v, r) ← parse_value fuel s;
      match skip_json_space r with
      | String "," r' => '(l, r'') ← parse_elements fuel r'; Some (v :: l, r'')
      | String "]" r' => Some ([v], r')
      | _ => None
      end
  end
with parse_members (fuel : nat) (s : string) : option (list (string * json) * string) :=
  match fuel with
  | O => None
  | S fuel =>
      match skip_json_space s with
      | String q s1 =>
          if negb (nat_of_ascii q =? 34)%nat then None
          else
            '(k, r) ← parse_string fuel s1;
            match skip_json_space r with
            | String ":" r1 =>
                '(v, r2) ← parse_value fuel r1;
                match skip_json_space r2 with
                | String "," r3 => '(l, r4) ← parse_members fuel r3; Some ((k, v) :: l, r4)
                | String "}" r3 => Some ([(k, v)], r3)
                | _ => None
                end
            | _ => None
            end
      | EmptyString => None
      end
  end.

(** [Decoder.Decode]: the first value of the text. *)
Definition Decode (s : string) : option json :=
  '(v, _) ← parse_value (S (2 * String.length s)) s; Some v.
(** [json.Unmarshal]: nothing but white space may follow. *)
Definition Unmarshal (s : string) : option json :=
  '(v, r) ← parse_value (S (2 * String.length s)) s;
  if String.eqb (skip_json_space r) "" then Some v else None.

Example marshal_sorts :
  Marshal (JObject [("b", JNumber "1"); ("a", JArray [JNull; JString "x<y"])])
  = bytes [123; 34; 97; 34; 58; 91; 110; 117; 108; 108; 44; 34; 120; 92; 117; 48; 48; 51; 99; 121; 34;
           93; 44; 34; 98; 34; 58; 49; 125]%nat.
Proof. vm_compute. reflexivity. Qed.
Example decode_marshal :
  Decode (Marshal (JObject [("k", JArray [JBool true; JNumber "-1.5e3"; JString "tab"])]))
  = Some (JObject [("k", JArray [JBool true; JNumber "-1.5e3"; JString "tab"])]).
Proof. vm_compute. reflexivity. Qed.

(** ** Decoding into structs ([json.Unmarshal])

    A member of an object is stored into the field whose name it folds to; every member
    of that name in turn.  A JSON null leaves a scalar as it is.  Repeated arrays are
    each decoded afresh. *)

Open Scope Z_scope.

(** [foldName]: ASCII case and the two letters that fold to ASCII ones. *)
Fixpoint fold_name (s : string) : string :=
  match s with
  | EmptyString => EmptyString
  | String c s' =>
      match nat_of_ascii c, s' with
      | 226%nat, String d (String e s'') =>
          if Ascii.eqb d (byte 132) && Ascii.eqb e (byte 170) then String (byte 107) (fold_name s'')
          else String c (fold_name s')
      | 197%nat, String d s'' =>
          if Ascii.eqb d (byte 191) then String (byte 115) (fold_name s'') else String c (fold_name s')
      | _, _ => String (lower_byte c) (fold_name s')
      end
  end.
Definition key_is (name key : string) : bool := String.eqb (fold_name key) (fold_name name).

Section fields.
Context {A : Type}.
(** The members called [name] are decoded onto [zero] in their order. *)
Definition assigned (onto : A → json → option A) (name : string) (zero : A) (fields : list (string * json)) : option A :=
  foldl (λ acc kv, if key_is name kv.1 then v ← acc; onto v kv.2 else acc) (Some zero) fields.
Definition list_onto (element : json → option A) (old : option (list A)) (v : json) : option (option (list A)) :=
  match v with
  | JNull => Some None
  | JArray l => items ← mapM element l; Some (Some items)
  | _ => None
  end.
(** A struct: null leaves it as it is. *)
Definition struct_onto (decode : A → list (string * json) → option A) (old : A) (v : json) : option A :=
  match v with JNull => Some old | JObject fields => decode old fields | _ => None end.
End fields.

Definition string_onto (old : string) (v : json) : option string :=
  match v with JNull => Some old | JString s => Some s | _ => None end.
Definition int64_onto (old : Z) (v : json) : option Z :=
  match v with JNull => Some old | JNumber t => parse_int64 t | _ => None end.
Definition bool_onto (old : bool) (v : json) : option bool :=
  match v with JNull => Some old | JBool b => Some b | _ => None end.

Example decode_members :
  assigned string_onto "account_sid" "" [("ACCOUNT_SID", JString "a"); ("account_sid", JNull)] = Some "a"%string
  ∧ assigned int64_onto "n" 0 [("n", JNumber "1.0")] = None.
Proof. vm_compute. auto. Qed.
