(* ===== verification/Redaction.v ===== *)
(** * Redaction of job events (src/internal/store/job_events.go)

    The sanitisers every durable message, kind and data value goes through: secret
    assignments, runs of digits that may be codes, sensitive keys, and the decrypted
    secrets of the job's own profile and source. *)

From S2P Require Import Prelude GoStrings Json.
From Stdlib Require Import Ascii String.

Definition redacted : string := "[REDACTED]".

(** ** [digitSecretPattern]: a run of four to eight digits between word boundaries *)

Definition is_word (c : ascii) : bool := is_alnum c || Ascii.eqb c "_".
Definition starts_with_word (s : string) : bool :=
  match s with String c _ => is_word c | EmptyString => false end.

(** The length of the run of digits at the head, and whether a word ends there. *)
Fixpoint digit_run (s : string) : nat :=
  match s with String c s' => if is_digit c then S (digit_run s') else 0 | EmptyString => 0 end.
Lemma digit_run_app d b : all_bytes is_digit d = true → digit_run b = O → digit_run (d +:+ b) = String.length d.
Proof.
  intros Hd Hb. induction d as [|c d IH]; [done|]. rewrite append_cons. cbn in Hd |- *.
  apply andb_true_iff in Hd as [-> Hd]. by rewrite IH.
Qed.
Definition digit_secret_here (prev_word : bool) (s : string) : bool :=
  let n := digit_run s in
  negb prev_word && (4 <=? n)%nat && (n <=? 8)%nat && negb (starts_with_word (drop_bytes n s)).

(** [ReplaceAllString]: [skip] is the number of bytes of the current match that are
    still to be passed over. *)
Fixpoint redact_digits_from (prev_word : bool) (skip : nat) (s : string) : string :=
  match s with
  | EmptyString => EmptyString
  | String c s' =>
      match skip with
      | S k => redact_digits_from (is_word c) k s'
      | O =>
          if digit_secret_here prev_word s
          then redacted +:+ redact_digits_from (is_word c) (digit_run s - 1) s'
          else String c (redact_digits_from (is_word c) 0 s')
      end
  end.
Definition redact_digits (s : string) : string := redact_digits_from false 0 s.

(** ** [querySecretPattern]: [(?i)(password|token|secret|otp|code)=([^&\s]+)] *)

(** A case-insensitive letter: the long s and the Kelvin sign fold to ASCII. *)
Definition match_letter (c : ascii) (s : string) : option string :=
  match s with
  | EmptyString => None
  | String d s' =>
      if Ascii.eqb (lower_byte d) c then Some s'
      else if Ascii.eqb c "s" then cut_prefix (bytes [197; 191]%nat) s
      else if Ascii.eqb c "k" then cut_prefix (bytes [226; 132; 170]%nat) s
      else None
  end.
Fixpoint match_fold (p s : string) : option string :=
  match p with
  | EmptyString => Some s
  | String c p' => r ← match_letter c s; match_fold p' r
  end.
Definition query_keywords : list string := ["password"; "token"; "secret"; "otp"; "code"].

(** A byte of the value: neither an ampersand nor white space. *)
Definition value_byte (c : ascii) : bool :=
  negb (Ascii.eqb c "&" || in_range 9 10 c || in_range 12 13 c || Ascii.eqb c " ").
Fixpoint value_run (s : string) : nat :=
  match s with String c s' => if value_byte c then S (value_run s') else 0 | EmptyString => 0 end.

(** The keyword at the head with its value: the bytes of the keyword, and of the
    whole match. *)
Definition query_secret_here (s : string) : option (nat * nat) :=
  foldr (λ kw k,
    match match_fold kw s ≫= cut_prefix "=" with
    | Some rest =>
        let n := (String.length s - String.length rest)%nat in
        if (1 <=? value_run rest)%nat then Some (n - 1, n + value_run rest)%nat else k
    | None => k
    end) None query_keywords.

Fixpoint redact_query_from (skip : nat) (s : string) : string :=
  match s with
  | EmptyString => EmptyString
  | String c s' =>
      match skip with
      | S k => redact_query_from k s'
      | O =>
          match query_secret_here s with
          | Some (kw, whole) =>
              take_bytes kw s +:+ "=" +:+ redacted +:+ redact_query_from (whole - 1) s'
          | None => String c (redact_query_from 0 s')
          end
      end
  end.
Definition redact_query (s : string) : string := redact_query_from 0 s.

Definition sanitizeText (value : string) : string := redact_digits (redact_query value).

(** ** Structured data *)

Definition sensitive_key (key : string) : bool :=
  let lower := to_lower key in
  existsb (contains lower) ["password"; "token"; "secret"; "otp"; "code"].

Definition code_like (numeric : Z) : bool := (1000 <=? numeric)%Z && (numeric <=? 99999999)%Z.

(** After decoding with [UseNumber] a value is null, a boolean, a number, a string,
    an array or an object. *)
Fixpoint sanitizeValue (value : json) : json :=
  match value with
  | JNull => JObject []
  | JObject fields =>
      JObject ((fix go l := match l with
                            | [] => []
                            | (key, child) :: l' =>
                                (key, if sensitive_key key then JString redacted else sanitizeValue child)
                                :: go l'
                            end) fields)
  | JArray l => JArray (map sanitizeValue l)
  | JString s => JString (sanitizeText s)
  | JNumber t =>
      match parse_int64 t with
      | Some n => if code_like n then JString redacted else value
      | None => value
      end
  | JBool _ => value
  end.
Definition normalizeAndSanitize (value : json) : json := sanitizeValue (normalize value).

(** ** Known secrets *)

(** [strings.ReplaceAll] of a non-empty string by the marker. *)
Fixpoint replace_all_from (secret : string) (skip : nat) (s : string) : string :=
  match s with
  | EmptyString => EmptyString
  | String c s' =>
      match skip with
      | S k => replace_all_from secret k s'
      | O =>
          if has_prefix s secret
          then redacted +:+ replace_all_from secret (String.length secret - 1) s'
          else String c (replace_all_from secret 0 s')
      end
  end.
Definition redactKnownText (value : string) (secrets : list string) : string :=
  foldl (λ v secret, replace_all_from secret 0 v) value secrets.

Fixpoint redactKnownValue (value : json) (secrets : list string) : json :=
  match value with
  | JObject fields =>
      JObject ((fix go l := match l with
                            | [] => []
                            | (key, child) :: l' => (key, redactKnownValue child secrets) :: go l'
                            end) fields)
  | JArray l => JArray (map (λ v, redactKnownValue v secrets) l)
  | JString s => JString (redactKnownText s secrets)
  | _ => value
  end.

(** The trimmed strings of at least four bytes anywhere in a value. *)
Definition secret_leaf (s : string) : list string :=
  let t := trim_space s in if (4 <=? String.length t)%nat then [t] else [].
Fixpoint collectStringLeaves (value : json) : list string :=
  match value with
  | JObject fields =>
      (fix go l := match l with
                   | [] => []
                   | (_, child) :: l' => app (collectStringLeaves child) (go l')
                   end) fields
  | JArray l => flat_map collectStringLeaves l
  | JString s => secret_leaf s
  | _ => []
  end.

(** Longer secrets are replaced first. *)
Definition longer_first (a b : string) : Prop := (String.length b <= String.length a)%nat.
#[global] Instance longer_first_dec : RelDecision longer_first.
Proof. intros a b. apply Nat.le_dec. Defined.
Definition order_secrets (secrets : list string) : list string := merge_sort longer_first secrets.

Example sanitize_examples :
  sanitizeText "code=1234&x" = "code=[REDACTED]&x" ∧
  sanitizeText "your code is 123456." = "your code is [REDACTED]." ∧
  sanitizeText "id 123456789 a1234 12_34" = "id 123456789 a1234 12_34" ∧
  sanitizeText "Password=hunter2 ok" = "Password=[REDACTED] ok".
Proof. repeat split; vm_compute; reflexivity. Qed.

(** ** No known secret survives *)

(** [t] occurs in [s]. *)
Definition occurs (t s : string) : Prop := ∃ a b, s = a +:+ t +:+ b.
Definition free_of (c : ascii) (t : string) : Prop := all_bytes (λ d, negb (Ascii.eqb d c)) t = true.

Lemma free_of_cons c d t : free_of c (String d t) → d ≠ c ∧ free_of c t.
Proof.
  unfold free_of. cbn. intros [Hd Ht]%andb_true_iff. split; [|done].
  intros ->. by rewrite Ascii.eqb_refl in Hd.
Qed.

Lemma occurs_cons t c s : occurs t (String c s) → has_prefix (String c s) t = true ∨ occurs t s.
Proof.
  intros ([|d a] & b & Heq).
  - left. rewrite append_nil_l in Heq. rewrite Heq. apply has_prefix_app.
  - right. rewrite append_cons in Heq. injection Heq as _ ->. by exists a, b.
Qed.

Lemma occurs_tail t c s : occurs t s → occurs t (String c s).
Proof. intros (a & b & ->). exists (String c a), b. by rewrite append_cons. Qed.

Lemma prefix_occurs t s : has_prefix s t = true → occurs t s.
Proof.
  unfold has_prefix. destruct (cut_prefix t s) as [r|] eqn:Hc; [|done]. intros _.
  apply cut_prefix_Some in Hc as ->. by exists "", r.
Qed.

(** An occurrence does not straddle a byte the string does not contain. *)
Lemma occurs_split t a c b :
  free_of c t → t ≠ "" → occurs t (a +:+ String c b) → occurs t a ∨ occurs t b.
Proof.
  intros Hfree Hne. induction a as [|d a IH].
  - rewrite append_nil_l. intros [Hp|Hb]%occurs_cons; [|by right].
    destruct t as [|e t]; [done|]. apply free_of_cons in Hfree as [He _].
    unfold has_prefix in Hp. cbn in Hp. destruct (Ascii.eqb_spec e c); done.
  - rewrite append_cons. intros [Hp|Ha]%occurs_cons.
    + left. apply prefix_occurs. revert Hp. clear IH. revert Hfree.
      assert (Hgen : ∀ t s, free_of c t → has_prefix (s +:+ String c b) t = true → has_prefix s t = true).
      { clear. intros t. induction t as [|e t IH]; intros s Hf Hp; [done|].
        apply free_of_cons in Hf as [He Hf]. destruct s as [|x s].
        - rewrite append_nil_l in Hp. unfold has_prefix in Hp. cbn in Hp.
          by destruct (Ascii.eqb_spec e c).
        - rewrite append_cons in Hp. unfold has_prefix in Hp |- *. cbn in *.
          destruct (Ascii.eqb_spec e x); [|done]. by apply IH. }
      intros Hf Hp. apply Hgen; [done|]. by rewrite append_cons.
    + destruct (IH Ha) as [?|?]; [left; by apply occurs_tail|by right].
Qed.

(** A secret the marker cannot hide or complete: no brackets, not inside the word. *)
Definition safe_secret (t : string) : Prop :=
  t ≠ "" ∧ free_of "[" t ∧ free_of "]" t ∧ ¬ occurs t "REDACTED".

Lemma occurs_redacted t s : safe_secret t → occurs t (redacted +:+ s) → occurs t s.
Proof.
  intros (Hne & Hopen & Hclose & Hin).
  change (redacted +:+ s) with ("" +:+ String "[" ("REDACTED" +:+ String "]" s)).
  intros [Ho|Ho]%occurs_split; [|apply occurs_split in Ho as [?|?]; done|done|done].
  destruct Ho as (a & b & Hab). destruct a; [|done]. rewrite append_nil_l in Hab.
  by destruct t.
Qed.

Lemma prefix_replaced t u s :
  free_of "[" t → has_prefix (replace_all_from u 0 s) t = true → has_prefix s t = true.
Proof.
  revert t. induction s as [|c s IH]; intros t Hf Hp; [done|].
  destruct t as [|e t]; [done|]. apply free_of_cons in Hf as [He Hf].
  cbn [replace_all_from] in Hp. destruct (has_prefix (String c s) u).
  - change (redacted +:+ ?x) with (String "[" ("REDACTED]" +:+ x)) in Hp.
    unfold has_prefix in Hp. cbn in Hp. by destruct (Ascii.eqb_spec e "[").
  - unfold has_prefix in Hp |- *. cbn in *. destruct (Ascii.eqb_spec e c); [|done]. by apply IH.
Qed.

(** Replacing one secret brings no other one in. *)
Lemma replace_occurs t u s skip :
  safe_secret t → occurs t (replace_all_from u skip s) → occurs t s.
Proof.
  intros Ht. revert skip. induction s as [|c s IH]; intros skip Ho; [done|].
  destruct skip as [|k]; cbn [replace_all_from] in Ho.
  - destruct (has_prefix (String c s) u) eqn:Hu.
    + apply occurs_tail, IH with (skip := (String.length u - 1)%nat). by apply occurs_redacted.
    + apply occurs_cons in Ho as [Hp|Ho]; [|by apply occurs_tail, IH with (skip := 0%nat)].
      apply prefix_occurs. destruct t as [|e t]; [done|].
      destruct Ht as (_ & Hopen & _). apply free_of_cons in Hopen as [_ Hopen].
      unfold has_prefix in Hp |- *. cbn in *. destruct (Ascii.eqb_spec e c); [|done].
      by apply (prefix_replaced t u s).
  - by apply occurs_tail, IH with (skip := k).
Qed.

(** The secret itself is gone. *)
Lemma replace_removes u s skip : safe_secret u → ¬ occurs u (replace_all_from u skip s).
Proof.
  intros Hu. revert skip. induction s as [|c s IH]; intros skip.
  - cbn. intros ([|x a] & b & Hab); [|by rewrite append_cons in Hab].
    destruct Hu as (Hne & _). by destruct u.
  - destruct skip as [|k]; cbn [replace_all_from]; [|apply IH].
    destruct (has_prefix (String c s) u) eqn:Hp.
    + intros Ho. apply occurs_redacted in Ho; [|done]. by eapply IH.
    + intros [Hpre|Ho]%occurs_cons; [|by eapply IH].
      assert (has_prefix (String c s) u = true); [|congruence].
      pose proof Hu as (Hne & Hopen & _). destruct u as [|e u']; [done|].
      unfold has_prefix in Hpre |- *. cbn in Hpre |- *. destruct (Ascii.eqb_spec e c); [|done].
      apply (prefix_replaced u' (String e u') s); [|done]. by apply free_of_cons in Hopen as [_ ?].
Qed.

Lemma redactKnown_keeps_out t v secrets :
  safe_secret t → ¬ occurs t v → ¬ occurs t (redactKnownText v secrets).
Proof.
  intros Ht. unfold redactKnownText. revert v. induction secrets as [|u us IH]; intros v Hv; [done|].
  cbn [foldl]. apply IH. intros Ho. apply Hv. by eapply replace_occurs.
Qed.

(** After the known secrets of a job are redacted from a text, none of them
    occurs in it, whatever the text and the order: replacing one secret cannot
    uncover or complete another, as long as the secrets contain no square bracket
    and are not part of the word the marker is made of. *)
Theorem redactKnownText_hides secrets text secret :
  Forall safe_secret secrets → secret ∈ secrets → ¬ occurs secret (redactKnownText text secrets).
Proof.
  intros Hsafe Hin. unfold redactKnownText. revert text.
  induction Hsafe as [|u us Hu Hus IH]; intros text; [by apply not_elem_of_nil in Hin|].
  apply elem_of_cons in Hin as [->|Hin]; cbn [foldl]; [|by apply IH].
  apply redactKnown_keeps_out; [done|]. by apply replace_removes.
Qed.

(** Cutting a text does not bring a secret back. *)
Lemma occurs_take t n s : occurs t (take_bytes n s) → occurs t s.
Proof.
  intros (a & b & Hab). exists a, (b +:+ drop_bytes n s).
  assert (Hs : s = take_bytes n s +:+ drop_bytes n s).
  { clear. unfold take_bytes. revert n. induction s as [|c s IH]; intros n; [by destruct n|].
    destruct n as [|n]; [done|]. cbn. rewrite append_cons. by rewrite <- IH. }
  rewrite Hs at 1. rewrite Hab.
  assert (Happ : ∀ x y z : string, (x +:+ y) +:+ z = x +:+ y +:+ z).
  { clear. intros x y z. induction x as [|c x IH]; [done|]. rewrite !append_cons. by rewrite IH. }
  by rewrite !Happ.
Qed.

Lemma cut_None_occurs sub s : cut sub s = None → ¬ occurs sub s.
Proof.
  induction s as [|c s IH]; cbn [cut].
  - destruct (cut_prefix sub "") as [r|] eqn:Hc; [done|]. intros _ ([|x a] & b & Hab).
    + rewrite append_nil_l in Hab. rewrite Hab in Hc.
      pose proof (has_prefix_app sub b) as Hp. unfold has_prefix in Hp. by rewrite Hc in Hp.
    + by rewrite append_cons in Hab.
  - destruct (cut_prefix sub (String c s)) as [r|] eqn:Hc; [done|].
    destruct (cut sub s) as [[? ?]|] eqn:Hcut; [done|]. intros _ Ho.
    apply occurs_cons in Ho as [Hp|Ho]; [|by apply (IH eq_refl)].
    unfold has_prefix in Hp. by rewrite Hc in Hp.
Qed.

(** [safe_secret], tested. *)
Definition safe_secretb (t : string) : bool :=
  negb (String.eqb t "") && all_bytes (λ d, negb (Ascii.eqb d "[")) t
  && all_bytes (λ d, negb (Ascii.eqb d "]")) t && negb (contains "REDACTED" t).
Lemma safe_secretb_spec t : safe_secretb t = true → safe_secret t.
Proof.
  unfold safe_secretb, safe_secret, contains. intros H. bool_to_prop. split_and!; try done.
  - by apply String.eqb_neq.
  - apply cut_None_occurs. by destruct (cut t "REDACTED").
Qed.

Lemma redactKnownText_hides_witness :
  ¬ occurs "6045550123" (redactKnownText "call 6045550123 or 604-555-0123" ["6045550123"; "hunter22"]).
Proof.
  apply redactKnownText_hides.
  - repeat (constructor; [apply safe_secretb_spec; reflexivity|]). constructor.
  - left.
Defined.
