(* ===== verification/Logging.v ===== *)
(** * Logging (src/internal/observability/logging.go)

    Everything logged goes through a handler that redacts named secrets, credentials in
    URLs and sensitive attributes; the diagnostics of the action process lose every
    standalone code as well.  The patterns are written as matchers on the bytes: what they
    tell apart is ASCII, and a rune is passed over as a whole where that matters. *)

From S2P Require Import Prelude GoStrings GoUrl Json Redaction.
From Stdlib Require Import Ascii String.

Open Scope Z_scope.

Definition MaxLogMessageBytes : Z := 16 * 1024.

(** ** Replacing matches *)

(** The leftmost matches that do not overlap: [m] sees the byte before and the rest, and
    answers the length of its match and what replaces it. *)
Section replace.
Context (m : option ascii → string → option (nat * string)).
Fixpoint replace_from (prev : option ascii) (skip : nat) (s : string) : string :=
  match s with
  | EmptyString => EmptyString
  | String c s' =>
      match skip with
      | S k => replace_from (Some c) k s'
      | O =>
          match m prev s with
          | Some (n, r) => r +:+ replace_from (Some c) (n - 1) s'
          | None => String c (replace_from (Some c) 0 s')
          end
      end
  end.
Definition replace_matches (s : string) : string := replace_from None 0 s.
End replace.

(** [strings.ReplaceAll] for a text that is not empty. *)
Definition replace_text (old new : string) : string → string :=
  replace_matches (λ _ s, if has_prefix s old then Some (String.length old, new) else None).

(** The number of bytes at the head that pass a test. *)
Fixpoint run_of (p : ascii → bool) (s : string) : nat :=
  match s with String c s' => if p c then S (run_of p s') else O | EmptyString => O end.
(** [\s] *)
Definition space_byte (c : ascii) : bool := in_range 9 10 c || in_range 12 13 c || Ascii.eqb c " ".
Definition quote_byte (c : ascii) : bool := Ascii.eqb c (byte 34) || Ascii.eqb c (byte 39).
(** [\b] *)
Definition boundary (prev : option ascii) (s : string) : bool :=
  xorb (match prev with Some c => is_word c | None => false end) (starts_with_word s).

(** ** URLs *)

(** [urlPattern]: http or https in any case, a colon and two slashes, and everything up to
    white space, a quote or an angle bracket. *)
Definition url_byte (c : ascii) : bool := negb (space_byte c || quote_byte c || one_of "<>" c).
Definition url_here (s : string) : option nat :=
  r ← match_fold "http" s;
  r ← (match match_letter "s" r ≫= cut_prefix "://" with Some r' => Some r' | None => cut_prefix "://" r end);
  let n := run_of url_byte r in
  if (1 <=? n)%nat then Some (String.length s - String.length r + n)%nat else None.

(** [URL.String] of a URL with a host and without user, query and fragment. *)
Definition site_String (u : URL) : string :=
  let path := EscapedPath u in
  Scheme u +:+ "://" +:+ escape encodeHost (UHost u)
  +:+ (if negb (String.eqb path "") && negb (has_prefix path "/") then "/" +:+ path else path).
Definition sanitizeURL (value : string) : string :=
  match url_Parse value with
  | None => "[REDACTED-URL]"
  | Some parsed =>
      if String.eqb (Scheme parsed) "" || String.eqb (UHost parsed) "" then "[REDACTED-URL]" else site_String parsed
  end.
Definition sanitize_urls : string → string :=
  replace_matches (λ _ s, n ← url_here s; Some (n, sanitizeURL (take_bytes n s))).

(** ** Named values *)

(** A quote, white space and a colon or an equals sign, the first two optional: their
    length. *)
Definition separator_here (s : string) : option nat :=
  let q := match s with String c _ => if quote_byte c then 1%nat else 0%nat | EmptyString => 0%nat end in
  let w := run_of space_byte (drop_bytes q s) in
  match drop_bytes (q + w) s with
  | String c _ => if one_of ":=" c then Some (q + w + 1)%nat else None
  | EmptyString => None
  end.

(** [authorizationPattern]: white space after the separator that the value needs is given
    back, a byte at a time. *)
Definition header_byte (c : ascii) : bool := negb (in_range 10 10 c || in_range 13 13 c || one_of ",;" c).
Fixpoint header_value (spaces : nat) (s : string) : option (nat * nat) :=
  let n := run_of header_byte (drop_bytes spaces s) in
  if (1 <=? n)%nat then Some (spaces, n)
  else match spaces with S k => header_value k s | O => None end.
Definition authorization_here (prev : option ascii) (s : string) : option (nat * string) :=
  if negb (boundary prev s) then None
  else
    rest ← match_fold "authorization" s;
    if starts_with_word rest then None
    else
      sep ← separator_here rest;
      let after := drop_bytes sep rest in
      '(spaces, n) ← header_value (run_of space_byte after) after;
      Some (String.length s - String.length rest + sep + spaces + n,
            "authorization" +:+ take_bytes (sep + spaces) rest +:+ redacted)%nat.

(** [sensitiveValuePattern] *)
Definition sensitive_names : list string :=
  ["password"; "passwd"; "auth_token"; "access_token"; "refresh_token"; "api_key"; "secret"; "otp"; "passcode"; "code"].
Definition bare_byte (c : ascii) : bool := negb (space_byte c || one_of ",;" c).
(** A quoted value, or the run of bytes up to white space or a comma. *)
Definition value_here (s : string) : option nat :=
  let bare := let n := run_of bare_byte s in if (1 <=? n)%nat then Some n else None in
  match s with
  | String c rest =>
      if quote_byte c then
        let n := run_of (λ d, negb (Ascii.eqb d c)) rest in
        if (n <? String.length rest)%nat then Some (n + 2)%nat else bare
      else bare
  | EmptyString => None
  end.
Definition named_value_here (prev : option ascii) (s : string) : option (nat * string) :=
  if negb (boundary prev s) then None
  else
    foldr (λ name k,
      match rest ← match_fold name s;
            if starts_with_word rest then None
            else
              sep ← separator_here rest;
              let spaces := run_of space_byte (drop_bytes sep rest) in
              n ← value_here (drop_bytes (sep + spaces) rest);
              let kept := (String.length s - String.length rest + sep + spaces)%nat in
              Some (kept + n, take_bytes kept s +:+ redacted)%nat with
      | Some r => Some r
      | None => k
      end) None sensitive_names.

Definition replaceKnownSecrets (value : string) (secrets : list string) : string :=
  foldl (λ v secret, if String.eqb secret "" then v else replace_all_from secret 0 v) value secrets.
Definition truncate (value : string) (maximum : Z) : string :=
  if len value <=? maximum then value else take_bytes (Z.to_nat maximum) value +:+ "...[truncated]".
Definition Sanitize (value : string) (secrets : list string) : string :=
  let v := replaceKnownSecrets value secrets in
  let v := sanitize_urls v in
  let v := replace_matches authorization_here v in
  let v := replace_matches named_value_here v in
  truncate v MaxLogMessageBytes.

(** ** Diagnostics of the action process *)

(** [standaloneCodePattern]: a run of four to eight digits with the runes around it, the
    first of which may be the beginning of the text. *)
Definition redactedCode : string := "[REDACTED-CODE]".
Definition code_after (w : nat) (s : string) : option (nat * string) :=
  let digits := drop_bytes w s in
  let n := digit_run digits in
  if (4 <=? n)%nat && (n <=? 8)%nat then
    let tail := drop_bytes n digits in
    let t := match tail with EmptyString => O | _ => default 1%nat (rune_width tail) end in
    Some (w + n + t, take_bytes w s +:+ redactedCode +:+ take_bytes t tail)%nat
  else None.
Definition code_here (prev : option ascii) (s : string) : option (nat * string) :=
  match match prev with None => code_after 0 s | Some _ => None end with
  | Some r => Some r
  | None =>
      match s with
      | String c _ => if is_digit c then None else code_after (default 1%nat (rune_width s)) s
      | EmptyString => None
      end
  end.
Definition redact_codes_once : string → string := replace_matches code_here.
(** The loop until nothing changes. *)
Fixpoint redact_codes_from (fuel : nat) (value : string) : string :=
  let updated := redact_codes_once value in
  if String.eqb updated value then value
  else match fuel with O => updated | S fuel => redact_codes_from fuel updated end.
Definition redact_codes (value : string) : string := redact_codes_from (String.length value) value.

(** [%x] of an index. *)
Fixpoint hex_onto (fuel n : nat) (acc : string) : string :=
  let d := (n mod 16)%nat in
  let acc := String (byte (if (d <? 10)%nat then 48 + d else 87 + d)) acc in
  match fuel with
  | O => acc
  | S fuel => if (n <? 16)%nat then acc else hex_onto fuel (n / 16) acc
  end.
Definition url_token (index : nat) : string := "__LAKE_PASS_SAFE_URL_" +:+ hex_onto 16 index "" +:+ "__".
(** The URLs are set aside, each behind a token. *)
Fixpoint set_urls_aside (index skip : nat) (s : string) : string * list string :=
  match s with
  | EmptyString => (EmptyString, [])
  | String c s' =>
      match skip with
      | S k => set_urls_aside index k s'
      | O =>
          match url_here s with
          | Some n =>
              let '(v, urls) := set_urls_aside (S index) (n - 1) s' in
              (url_token index +:+ v, take_bytes n s :: urls)
          | None => let '(v, urls) := set_urls_aside index 0 s' in (String c v, urls)
          end
      end
  end.
Fixpoint put_urls_back (index : nat) (urls : list string) (value : string) : string :=
  match urls with
  | [] => value
  | url :: rest => put_urls_back (S index) rest (replace_text (url_token index) url value)
  end.
Definition SanitizeChildDiagnostic (value : string) (secrets : list string) : string :=
  let '(v, urls) := set_urls_aside 0 0 (Sanitize value secrets) in
  truncate (put_urls_back 0 urls (redact_codes v)) MaxLogMessageBytes.

Inductive Level := LevelDebug | LevelInfo | LevelWarn | LevelError.
Definition level_prefixes : list (string * Level) :=
  [("DEBUG ", LevelDebug); ("INFO ", LevelInfo); ("WARNING ", LevelWarn); ("WARN ", LevelWarn);
   ("ERROR ", LevelError); ("CRITICAL ", LevelError)].
(** The record logged for a line of diagnostics: its level and detail. *)
Definition LogActionDiagnostic (value : string) (secrets : list string) : option (Level * string) :=
  let v := SanitizeChildDiagnostic (trim_space value) secrets in
  if String.eqb v "" then None
  else Some (foldr (λ candidate k,
    match cut_prefix candidate.1 v with Some rest => (candidate.2, trim_space rest) | None => k end) (LevelInfo, v) level_prefixes).

(** ** The handler *)

(** A resolved attribute value: text, any other value with its printed form, a number, a
    time or another kind that is printed as it is, or a group. *)
Inductive attr :=
  | AString (key text : string)
  | AAny (key printed : string)
  | AOther (key printed : string)
  | AGroup (key : string) (nested : list attr).
Definition attr_key (a : attr) : string :=
  match a with AString k _ | AAny k _ | AOther k _ | AGroup k _ => k end.
Definition sensitive_attr_keys : list string :=
  ["password"; "passwd"; "auth_token"; "access_token"; "refresh_token"; "api_key"; "authorization"; "secret"; "otp";
   "passcode"; "code"; "setup_token"; "session"; "session_token"; "csrf"; "csrf_token"].
Definition sensitiveKey (key : string) : bool := bool_decide (to_lower (trim_space key) ∈ sensitive_attr_keys).
Fixpoint sanitizeAttr (a : attr) : attr :=
  if sensitiveKey (attr_key a) then AString (attr_key a) redacted
  else match a with
       | AString key text => AString key (Sanitize text [])
       | AAny key printed => AString key (Sanitize printed [])
       | AGroup key nested => AGroup key (map sanitizeAttr nested)
       | AOther _ _ => a
       end.
Record record := MkRecord { rc_level : Level; rc_message : string; rc_attrs : list attr }.
Definition Handle (r : record) : record :=
  MkRecord (rc_level r) (Sanitize (rc_message r) []) (map sanitizeAttr (rc_attrs r)).
Definition WithAttrs (kept attributes : list attr) : list attr := app kept (map sanitizeAttr attributes).

Definition parseLevel (value : string) : result Level :=
  let v := to_lower (trim_space value) in
  if bool_decide (v ∈ [""; "info"]) then Ok LevelInfo
  else if String.eqb v "debug" then Ok LevelDebug
  else if bool_decide (v ∈ ["warn"; "warning"]) then Ok LevelWarn
  else if String.eqb v "error" then Ok LevelError
  else Err (Errorf ("unsupported log level " +:+ quoted value)).
(** [Enabled] of the handler under it. *)
Definition severity (l : Level) : Z := match l with LevelDebug => -4 | LevelInfo => 0 | LevelWarn => 4 | LevelError => 8 end.
Definition NewLogger (level : string) : result (record → option record) :=
  minimum ← parseLevel level;
  Ok (λ r, if severity (rc_level r) <? severity minimum then None else Some (Handle r)).

Example sanitize_log_examples :
  Sanitize "GET https://user:pw@example.com/a?token=1#f failed" [] = "GET https://example.com/a failed"
  ∧ Sanitize "Authorization: Bearer abc, next" [] = "authorization: [REDACTED], next"
  ∧ Sanitize "password = 'a b' and Code=7;" [] = "password = [REDACTED] and Code=[REDACTED];"
  ∧ Sanitize "the token of 604" ["604"] = "the token of [REDACTED]"
  ∧ SanitizeChildDiagnostic "1234 5678 at https://example.com/1234 x12345678y 123456789" []
    = "[REDACTED-CODE] [REDACTED-CODE] at https://example.com/1234 x[REDACTED-CODE]y 123456789".
Proof. repeat split; vm_compute; reflexivity. Qed.

(** ** No standalone code survives *)

Fixpoint digits_in (s : string) : nat :=
  match s with String c s' => (if is_digit c then 1 else 0) + digits_in s' | EmptyString => 0 end%nat.
Lemma digits_in_app s t : digits_in (s +:+ t) = (digits_in s + digits_in t)%nat.
Proof. induction s as [|c s IH]; [done|]. rewrite append_cons. cbn [digits_in]. rewrite IH. lia. Qed.
Lemma digits_in_split n s : digits_in s = (digits_in (take_bytes n s) + digits_in (drop_bytes n s))%nat.
Proof. by rewrite <- digits_in_app, take_drop_bytes. Qed.
Lemma drop_bytes_drop n m s : drop_bytes n (drop_bytes m s) = drop_bytes (m + n) s.
Proof. revert s. induction m as [|m IH]; intros s; [done|]. destruct s as [|c s]; [by destruct n|]. cbn. apply IH. Qed.
Lemma digit_run_digits s : digits_in (take_bytes (digit_run s) s) = digit_run s.
Proof.
  unfold take_bytes. induction s as [|c s IH]; [done|]. cbn [digit_run]. destruct (is_digit c) eqn:Hc; [|done].
  cbn. by rewrite Hc, IH.
Qed.

Lemma code_after_digits w s n r :
  code_after w s = Some (n, r) → (4 ≤ n)%nat ∧ (digits_in r + 4 ≤ digits_in s - digits_in (drop_bytes n s))%nat
  ∧ (digits_in (drop_bytes n s) ≤ digits_in s)%nat.
Proof.
  unfold code_after. destruct (_ && _) eqn:Hrange; [|done]. bool_to_prop. apply Nat.leb_le in H, H0.
  set (k := digit_run (drop_bytes w s)) in *. set (t := match drop_bytes k _ with EmptyString => _ | _ => _ end).
  intros [= <- <-]. split; [lia|].
  pose proof (digits_in_split w s) as H1. pose proof (digits_in_split k (drop_bytes w s)) as H2.
  pose proof (digits_in_split t (drop_bytes k (drop_bytes w s))) as H3.
  pose proof (digit_run_digits (drop_bytes w s)) as H4. fold k in H4.
  rewrite !digits_in_app. change (digits_in redactedCode) with 0%nat.
  clearbody t. rewrite !drop_bytes_drop in *. rewrite !Nat.add_assoc in *. lia.
Qed.
Lemma code_here_digits prev s n r :
  code_here prev s = Some (n, r) → (4 ≤ n)%nat ∧ (digits_in r + 4 ≤ digits_in s - digits_in (drop_bytes n s))%nat
  ∧ (digits_in (drop_bytes n s) ≤ digits_in s)%nat.
Proof.
  unfold code_here. destruct (match prev with None => code_after 0 s | Some _ => None end) as [[? ?]|] eqn:H0.
  - intros [= <- <-]. destruct prev; [done|]. by eapply code_after_digits.
  - destruct s as [|c s]; [done|]. destruct (is_digit c); [done|]. apply code_after_digits.
Qed.

(** Some position that is visited matches. *)
Fixpoint code_found (prev : option ascii) (skip : nat) (s : string) : bool :=
  match s with
  | EmptyString => false
  | String c s' =>
      match skip with
      | S k => code_found (Some c) k s'
      | O => match code_here prev s with Some _ => true | None => code_found (Some c) 0 s' end
      end
  end.
Lemma replace_codes_digits prev skip s :
  (digits_in (replace_from code_here prev skip s) + (if code_found prev skip s then 4 else 0) ≤ digits_in (drop_bytes skip s))%nat.
Proof.
  revert prev skip. induction s as [|c s IH]; intros prev skip; [by destruct skip|].
  destruct skip as [|k]; [|apply IH]. cbn [replace_from code_found drop_bytes].
  destruct (code_here prev (String c s)) as [[n r]|] eqn:Hm.
  - apply code_here_digits in Hm as (Hn & Hr & Hle). rewrite digits_in_app.
    specialize (IH (Some c) (n - 1)%nat). destruct n as [|n]; [lia|]. cbn [drop_bytes] in Hr, Hle. replace (S n - 1)%nat with n in * by lia.
    destruct (code_found (Some c) n s); lia.
  - cbn [digits_in]. specialize (IH (Some c) 0%nat). cbn [drop_bytes] in IH. lia.
Qed.
Lemma replace_codes_none prev s : code_found prev 0 s = false → replace_from code_here prev 0 s = s.
Proof.
  revert prev. induction s as [|c s IH]; intros prev Hf; [done|]. cbn [replace_from code_found] in *.
  destruct (code_here prev (String c s)); [done|]. by rewrite IH.
Qed.

(** The loop ends with a text in which no position matches. *)
Lemma redact_codes_from_ends fuel s :
  (digits_in s < 4 * (fuel + 1))%nat → code_found None 0 (redact_codes_from fuel s) = false.
Proof.
  revert s. induction fuel as [|fuel IH]; intros s Hd; cbn [redact_codes_from];
    pose proof (replace_codes_digits None 0 s) as Hpass; change (replace_from code_here None 0 s) with (redact_codes_once s) in Hpass;
    cbn [drop_bytes] in Hpass; destruct (String.eqb_spec (redact_codes_once s) s) as [Heq|Hne].
  - destruct (code_found None 0 s); [|done]. rewrite Heq in Hpass. lia.
  - destruct (code_found None 0 s) eqn:Hf; [lia|]. by apply replace_codes_none in Hf.
  - destruct (code_found None 0 s) eqn:Hf; [rewrite Heq in Hpass; lia|done].
  - apply IH. destruct (code_found None 0 s) eqn:Hf; [lia|]. by apply replace_codes_none in Hf.
Qed.
Lemma digits_in_length s : (digits_in s ≤ String.length s)%nat.
Proof. induction s as [|c s IH]; [done|]. cbn. destruct (is_digit c); lia. Qed.
Lemma redact_codes_ends s : code_found None 0 (redact_codes s) = false.
Proof. apply redact_codes_from_ends. pose proof (digits_in_length s). lia. Qed.

(** A run of four to eight digits with no digit next to it. *)
Fixpoint last_plain (s : string) : bool :=
  match s with EmptyString => true | String c EmptyString => negb (is_digit c) | String _ s' => last_plain s' end.
Definition first_plain (s : string) : bool := match s with EmptyString => true | String c _ => negb (is_digit c) end.
Definition standalone_code (s : string) : Prop := ∃ a d b, s = a +:+ d +:+ b
  ∧ all_bytes is_digit d = true ∧ (4 ≤ String.length d ≤ 8)%nat ∧ last_plain a = true ∧ first_plain b = true.

Lemma first_plain_run b : first_plain b = true → digit_run b = O.
Proof. destruct b as [|c b]; [done|]. cbn. by intros ->%negb_true_iff. Qed.
Lemma code_after_finds w s d b :
  drop_bytes w s = d +:+ b → all_bytes is_digit d = true → (4 ≤ String.length d ≤ 8)%nat → first_plain b = true →
  is_Some (code_after w s).
Proof.
  intros Hs Hd Hlen Hb. unfold code_after. rewrite Hs, digit_run_app by (done || by apply first_plain_run).
  rewrite (proj2 (Nat.leb_le 4 _)), (proj2 (Nat.leb_le _ 8)) by lia. by eexists.
Qed.
Lemma rune_before_digit c d s : is_digit d = true → default 1%nat (rune_width (String c (String d s))) = 1%nat.
Proof.
  intros Hd. assert (Hn : (48 ≤ nat_of_ascii d ≤ 57)%nat).
  { unfold is_digit, in_range in Hd. apply andb_true_iff in Hd as [H1 H2]. apply Nat.leb_le in H1, H2. lia. }
  assert (Hc : ∀ lo hi, (58 ≤ lo)%nat → in_range lo hi d = false).
  { intros lo hi Hlo. unfold in_range. apply andb_false_iff. left. apply Nat.leb_gt. lia. }
  unfold rune_width, utf8_cont. rewrite !Hc by lia. cbv zeta.
  destruct (nat_of_ascii c <? 128)%nat; [done|]. destruct (_ && _); [done|].
  destruct s as [|x s]; [done|]. 
  assert (Hif : ∀ b1 b2 : bool, (if b1 then false else if b2 then false else false) = false) by by intros [] [].
  rewrite Hif. rewrite andb_false_l. destruct ((224 <=? _)%nat && _); [done|]. destruct s as [|y s]; [done|].
  rewrite Hif, andb_false_r. done.
Qed.
Lemma standalone_found prev a d b :
  (a = EmptyString → prev = None) → all_bytes is_digit d = true → (4 ≤ String.length d ≤ 8)%nat →
  last_plain a = true → first_plain b = true → code_found prev 0 (a +:+ d +:+ b) = true.
Proof.
  intros Hprev Hd Hlen Ha Hb. revert prev Hprev. induction a as [|c a IH]; intros prev Hprev.
  - rewrite append_nil_l, (Hprev eq_refl). destruct d as [|x d]; [simpl in Hlen; lia|].
    destruct (code_after_finds 0 (String x d +:+ b) (String x d) b) as [r Hr]; [done..|].
    rewrite append_cons in *. cbn [code_found]. unfold code_here. by rewrite Hr.
  - rewrite append_cons. cbn [code_found]. destruct (code_here prev _) as [?|] eqn:Hhere; [done|].
    destruct a as [|c' a]; [|apply IH; done]. exfalso. unfold code_here in Hhere.
    destruct (match prev with None => _ | Some _ => _ end); [done|]. cbn [last_plain] in Ha. apply negb_true_iff in Ha. rewrite Ha in Hhere.
    rewrite append_nil_l in Hhere. destruct d as [|x d]; [simpl in Hlen; lia|]. rewrite append_cons in Hhere.
    rewrite rune_before_digit in Hhere by (cbn in Hd; by apply andb_true_iff in Hd as [? _]).
    destruct (code_after_finds 1 (String c (String x (d +:+ b))) (String x d) b) as [r Hr]; [done..|]. congruence.
Qed.

(** C33: redacting the codes of a diagnostic ends, and in the text it ends with no run of
    four to eight digits stands alone: a code the first pass cannot see, because it shares
    the byte between them with the one before, is met by a later one.  A diagnostic without
    a URL and within the size is logged as that text. *)
Theorem no_standalone_code_is_logged value secrets v urls :
  set_urls_aside 0 0 (Sanitize value secrets) = (v, urls) →
  ¬ standalone_code (redact_codes v) ∧ redact_codes_once (redact_codes v) = redact_codes v
  ∧ (urls = [] → len (redact_codes v) <= MaxLogMessageBytes → SanitizeChildDiagnostic value secrets = redact_codes v).
Proof.
  intros Haside. pose proof (redact_codes_ends v) as Hends. split; [|split].
  - intros (a & d & b & Heq & Hd & Hlen & Ha & Hb). rewrite Heq in Hends. by rewrite standalone_found in Hends.
  - by apply replace_codes_none.
  - intros -> Hlen. unfold SanitizeChildDiagnostic. rewrite Haside. cbn [put_urls_back]. unfold truncate.
    by rewrite (proj2 (Z.leb_le _ _) Hlen).
Qed.
Lemma no_standalone_code_is_logged_witness :
  SanitizeChildDiagnostic "codes 1234 5678, 123456789" [] = redact_codes "codes 1234 5678, 123456789"
  ∧ redact_codes "codes 1234 5678, 123456789" = "codes [REDACTED-CODE] [REDACTED-CODE], 123456789".
Proof.
  split; [|vm_compute; reflexivity].
  apply (no_standalone_code_is_logged "codes 1234 5678, 123456789" [] "codes 1234 5678, 123456789" []); [vm_compute; reflexivity..|].
  vm_compute. discriminate.
Defined.

(** ** No sensitive attribute is shown *)

(** At every depth, an attribute with a sensitive key shows the marker. *)
Fixpoint hides_sensitive (a : attr) : Prop :=
  (sensitiveKey (attr_key a) = true → a = AString (attr_key a) redacted)
  ∧ match a with AGroup _ nested => (fix all l := match l with [] => True | x :: l' => hides_sensitive x ∧ all l' end) nested | _ => True end.
Section attr_ind.
Context (P : attr → Prop) (Hstring : ∀ k t, P (AString k t)) (Hany : ∀ k p, P (AAny k p)) (Hother : ∀ k p, P (AOther k p)).
Context (Hgroup : ∀ k l, Forall P l → P (AGroup k l)).
Fixpoint attr_ind' (a : attr) : P a :=
  match a with
  | AString k t => Hstring k t | AAny k p => Hany k p | AOther k p => Hother k p
  | AGroup k l => Hgroup k l ((fix all l : Forall P l := match l with [] => Forall_nil_2 _ | x :: l' => Forall_cons_2 _ _ _ (attr_ind' x) (all l') end) l)
  end.
End attr_ind.
Theorem sensitive_attributes_are_hidden a : hides_sensitive (sanitizeAttr a) ∧ attr_key (sanitizeAttr a) = attr_key a.
Proof.
  induction a as [k t|k p|k p|k l IH] using attr_ind'; cbn [sanitizeAttr attr_key];
    destruct (sensitiveKey k) eqn:Hk; cbn [hides_sensitive attr_key]; rewrite ?Hk; try done.
  split; [|done]. split; [done|]. induction IH as [|x l [Hx _] _ IH]; [done|]. cbn [map]. by split.
Qed.
