(* ===== verification/Database.v ===== *)
(** * The database (src/internal/store: tables, constraints and triggers)

    The SQLite database the store package owns: one finite map per table, the
    constraints a statement checks and the triggers it fires, for the statements the
    store executes.  An operation is a state-and-error computation; a statement that
    fails changes nothing.

    The schema is the one the embedded migrations leave.  A time column holds the
    instant whose fixed-width text the store writes.  A multi-row statement visits
    its rows in the order of their ids. *)

From S2P Require Import Prelude GoStrings GoTime Domain.
From Stdlib Require Import Ascii String.

Open Scope Z_scope.

(** ** Rows *)

Record UserRow := MkUserRow {
  ur_user : User;
  ur_normalized : string;
  ur_password_hash : string
}.
Record ProfileRow := MkProfileRow {
  pr_profile : Profile;
  pr_phone_ciphertext : string
}.
Record SourceRow := MkSourceRow {
  sr_source : OTPSource;
  sr_config_ciphertext : string
}.
Record LoginAttempt := MkLoginAttempt {
  la_rate_key : string;
  la_succeeded : bool;
  la_attempted_at : Time
}.

(** ** The database *)

Record db := MkDb {
  users : gmap Z UserRow;
  sessions : gmap string Session;
  attempts : gmap Z LoginAttempt;
  sources : gmap Z SourceRow;
  profiles : gmap Z ProfileRow;
  bookings : gmap Z BookingRequest;
  jobs : gmap Z Job;
  events : gmap Z JobEvent;
  decisions : gmap Z JobDecision;
  (** (profile id, target date) to the job that holds the reservation *)
  reservations : gmap (Z * string) (option Z);
  lake_settings : gmap (Z * string) LakeSettings;
  account_settings : gmap Z AccountSettings;
  otp_preferences : gmap Z Z;
  network_settings : option NetworkSettings;
  (** AUTOINCREMENT: the next id of each table *)
  next_user : Z; next_attempt : Z; next_source : Z; next_profile : Z;
  next_booking : Z; next_job : Z; next_event : Z
}.

Definition empty_db : db :=
  MkDb ∅ ∅ ∅ ∅ ∅ ∅ ∅ ∅ ∅ ∅ ∅ ∅ ∅ None 1 1 1 1 1 1 1.

Definition set_users f s := MkDb (f (users s)) (sessions s) (attempts s) (sources s) (profiles s)
  (bookings s) (jobs s) (events s) (decisions s) (reservations s) (lake_settings s)
  (account_settings s) (otp_preferences s) (network_settings s) (next_user s) (next_attempt s)
  (next_source s) (next_profile s) (next_booking s) (next_job s) (next_event s).
Definition set_sessions f s := MkDb (users s) (f (sessions s)) (attempts s) (sources s) (profiles s)
  (bookings s) (jobs s) (events s) (decisions s) (reservations s) (lake_settings s)
  (account_settings s) (otp_preferences s) (network_settings s) (next_user s) (next_attempt s)
  (next_source s) (next_profile s) (next_booking s) (next_job s) (next_event s).
Definition set_attempts f s := MkDb (users s) (sessions s) (f (attempts s)) (sources s) (profiles s)
  (bookings s) (jobs s) (events s) (decisions s) (reservations s) (lake_settings s)
  (account_settings s) (otp_preferences s) (network_settings s) (next_user s) (next_attempt s)
  (next_source s) (next_profile s) (next_booking s) (next_job s) (next_event s).
Definition set_sources f s := MkDb (users s) (sessions s) (attempts s) (f (sources s)) (profiles s)
  (bookings s) (jobs s) (events s) (decisions s) (reservations s) (lake_settings s)
  (account_settings s) (otp_preferences s) (network_settings s) (next_user s) (next_attempt s)
  (next_source s) (next_profile s) (next_booking s) (next_job s) (next_event s).
Definition set_profiles f s := MkDb (users s) (sessions s) (attempts s) (sources s) (f (profiles s))
  (bookings s) (jobs s) (events s) (decisions s) (reservations s) (lake_settings s)
  (account_settings s) (otp_preferences s) (network_settings s) (next_user s) (next_attempt s)
  (next_source s) (next_profile s) (next_booking s) (next_job s) (next_event s).
Definition set_bookings f s := MkDb (users s) (sessions s) (attempts s) (sources s) (profiles s)
  (f (bookings s)) (jobs s) (events s) (decisions s) (reservations s) (lake_settings s)
  (account_settings s) (otp_preferences s) (network_settings s) (next_user s) (next_attempt s)
  (next_source s) (next_profile s) (next_booking s) (next_job s) (next_event s).
Definition set_jobs f s := MkDb (users s) (sessions s) (attempts s) (sources s) (profiles s)
  (bookings s) (f (jobs s)) (events s) (decisions s) (reservations s) (lake_settings s)
  (account_settings s) (otp_preferences s) (network_settings s) (next_user s) (next_attempt s)
  (next_source s) (next_profile s) (next_booking s) (next_job s) (next_event s).
Definition set_events f s := MkDb (users s) (sessions s) (attempts s) (sources s) (profiles s)
  (bookings s) (jobs s) (f (events s)) (decisions s) (reservations s) (lake_settings s)
  (account_settings s) (otp_preferences s) (network_settings s) (next_user s) (next_attempt s)
  (next_source s) (next_profile s) (next_booking s) (next_job s) (next_event s).
Definition set_decisions f s := MkDb (users s) (sessions s) (attempts s) (sources s) (profiles s)
  (bookings s) (jobs s) (events s) (f (decisions s)) (reservations s) (lake_settings s)
  (account_settings s) (otp_preferences s) (network_settings s) (next_user s) (next_attempt s)
  (next_source s) (next_profile s) (next_booking s) (next_job s) (next_event s).
Definition set_reservations f s := MkDb (users s) (sessions s) (attempts s) (sources s) (profiles s)
  (bookings s) (jobs s) (events s) (decisions s) (f (reservations s)) (lake_settings s)
  (account_settings s) (otp_preferences s) (network_settings s) (next_user s) (next_attempt s)
  (next_source s) (next_profile s) (next_booking s) (next_job s) (next_event s).
Definition set_lake_settings f s := MkDb (users s) (sessions s) (attempts s) (sources s) (profiles s)
  (bookings s) (jobs s) (events s) (decisions s) (reservations s) (f (lake_settings s))
  (account_settings s) (otp_preferences s) (network_settings s) (next_user s) (next_attempt s)
  (next_source s) (next_profile s) (next_booking s) (next_job s) (next_event s).
Definition set_account_settings f s := MkDb (users s) (sessions s) (attempts s) (sources s) (profiles s)
  (bookings s) (jobs s) (events s) (decisions s) (reservations s) (lake_settings s)
  (f (account_settings s)) (otp_preferences s) (network_settings s) (next_user s) (next_attempt s)
  (next_source s) (next_profile s) (next_booking s) (next_job s) (next_event s).
Definition set_otp_preferences f s := MkDb (users s) (sessions s) (attempts s) (sources s) (profiles s)
  (bookings s) (jobs s) (events s) (decisions s) (reservations s) (lake_settings s)
  (account_settings s) (f (otp_preferences s)) (network_settings s) (next_user s) (next_attempt s)
  (next_source s) (next_profile s) (next_booking s) (next_job s) (next_event s).
Definition set_network_settings v s := MkDb (users s) (sessions s) (attempts s) (sources s) (profiles s)
  (bookings s) (jobs s) (events s) (decisions s) (reservations s) (lake_settings s)
  (account_settings s) (otp_preferences s) v (next_user s) (next_attempt s)
  (next_source s) (next_profile s) (next_booking s) (next_job s) (next_event s).
Definition bump_user s := MkDb (users s) (sessions s) (attempts s) (sources s) (profiles s)
  (bookings s) (jobs s) (events s) (decisions s) (reservations s) (lake_settings s)
  (account_settings s) (otp_preferences s) (network_settings s) (next_user s + 1) (next_attempt s)
  (next_source s) (next_profile s) (next_booking s) (next_job s) (next_event s).
Definition bump_attempt s := MkDb (users s) (sessions s) (attempts s) (sources s) (profiles s)
  (bookings s) (jobs s) (events s) (decisions s) (reservations s) (lake_settings s)
  (account_settings s) (otp_preferences s) (network_settings s) (next_user s) (next_attempt s + 1)
  (next_source s) (next_profile s) (next_booking s) (next_job s) (next_event s).
Definition bump_source s := MkDb (users s) (sessions s) (attempts s) (sources s) (profiles s)
  (bookings s) (jobs s) (events s) (decisions s) (reservations s) (lake_settings s)
  (account_settings s) (otp_preferences s) (network_settings s) (next_user s) (next_attempt s)
  (next_source s + 1) (next_profile s) (next_booking s) (next_job s) (next_event s).
Definition bump_profile s := MkDb (users s) (sessions s) (attempts s) (sources s) (profiles s)
  (bookings s) (jobs s) (events s) (decisions s) (reservations s) (lake_settings s)
  (account_settings s) (otp_preferences s) (network_settings s) (next_user s) (next_attempt s)
  (next_source s) (next_profile s + 1) (next_booking s) (next_job s) (next_event s).
Definition bump_booking s := MkDb (users s) (sessions s) (attempts s) (sources s) (profiles s)
  (bookings s) (jobs s) (events s) (decisions s) (reservations s) (lake_settings s)
  (account_settings s) (otp_preferences s) (network_settings s) (next_user s) (next_attempt s)
  (next_source s) (next_profile s) (next_booking s + 1) (next_job s) (next_event s).
Definition bump_job s := MkDb (users s) (sessions s) (attempts s) (sources s) (profiles s)
  (bookings s) (jobs s) (events s) (decisions s) (reservations s) (lake_settings s)
  (account_settings s) (otp_preferences s) (network_settings s) (next_user s) (next_attempt s)
  (next_source s) (next_profile s) (next_booking s) (next_job s + 1) (next_event s).
Definition bump_event s := MkDb (users s) (sessions s) (attempts s) (sources s) (profiles s)
  (bookings s) (jobs s) (events s) (decisions s) (reservations s) (lake_settings s)
  (account_settings s) (otp_preferences s) (network_settings s) (next_user s) (next_attempt s)
  (next_source s) (next_profile s) (next_booking s) (next_job s) (next_event s + 1).

(** ** Limits and classes of jobs *)

Definition MaxOTPSourcesPerUser : Z := 24.
Definition MaxProfilesPerUser : Z := 16.
Definition MaxPendingJobsPerUser : Z := 8.
Definition MaxTerminalJobHistoryPerUser : nat := 128.
Definition MaxRetainedJobsPerUser : Z := 200.
Definition MaxJobEventsPerJob : nat := 256.
Definition MaxSessionsPerUser : nat := 8.

(** [status IN ('queued', 'running', 'awaiting_approval')] *)
Definition is_pending (s : JobStatus) : bool :=
  bool_decide (s ∈ [JobQueued; JobRunning; JobAwaitingApproval]).
(** [status IN ('running', 'awaiting_approval')] *)
Definition is_active (s : JobStatus) : bool :=
  bool_decide (s ∈ [JobRunning; JobAwaitingApproval]).
(** [status IN ('succeeded', 'failed', 'cancelled', 'interrupted')] *)
Definition is_retained_status (s : JobStatus) : bool :=
  bool_decide (s ∈ [JobSucceeded; JobFailed; JobCancelled; JobInterrupted]).
(** [status IN ('failed', 'cancelled', 'interrupted')] *)
Definition is_retryable_status (s : JobStatus) : bool :=
  bool_decide (s ∈ [JobFailed; JobCancelled; JobInterrupted]).


(** [dedup_key GLOB 'pairing:*'] *)
Definition is_pairing_key (k : string) : bool := has_prefix k "pairing:".

(** Terminal history that retention may delete: not the outcomes that need review,
    and not a deduplication key whose window is open. *)
Definition prunable (now : Time) (j : Job) : bool :=
  is_retained_status (JStatus j)
  && (String.eqb (JDedupKey j) "" || is_pairing_key (JDedupKey j)
      || match JExpiresAt j with Some e => e <=? now | None => false end).

(** A book job that certainly never confirmed. *)
Definition unconfirmed_book (j : Job) : bool :=
  bool_decide (JCommand j = CommandBook) && negb (is_some (JConfirmationStartedAt j))
  && is_retryable_status (JStatus j).

(** ** Rows in order *)

Definition rel_of {A} (le : A → A → bool) : relation A := λ a b, le a b = true.
#[global] Instance rel_of_dec {A} (le : A → A → bool) : RelDecision (rel_of le).
Proof. intros a b. apply bool_eq_dec. Defined.
Definition sort_by {A} (le : A → A → bool) (l : list A) : list A := merge_sort (rel_of le) l.

Definition rows {A} (m : gmap Z A) : list (Z * A) :=
  sort_by (λ a b, a.1 <=? b.1) (map_to_list m).
(** The rows that satisfy a WHERE clause, in the order of their ids. *)
Definition select {A} (p : A → bool) (m : gmap Z A) : list (Z * A) :=
  filter (λ kv, p kv.2 = true) (rows m).
Definition exists_row {A} (p : A → bool) (m : gmap Z A) : bool :=
  existsb (λ kv, p kv.2) (map_to_list m).

(** ** Deleting jobs: foreign key actions and triggers *)

(** trigger [jobs_release_deleted_unconfirmed_booking] / [DELETE ... WHERE job_id] *)
Definition release_reservation (id : Z) : db → db :=
  set_reservations (filter (λ kv, kv.2 ≠ Some id)).
(** [job_id ... ON DELETE SET NULL] *)
Definition detach_reservation (id : Z) : db → db :=
  set_reservations (fmap (λ o : option Z, if bool_decide (o = Some id) then None else o)).

(** trigger [jobs_prune_booking_snapshot] *)
Definition prune_booking_snapshot (old : Job) (s : db) : db :=
  match JBookingRequestID old with
  | None => s
  | Some bid =>
      match bookings s !! bid with
      | Some b =>
          if (bool_decide (BKind b = BookingKindSnapshot) || bool_decide (BKind b = BookingKindArchived))
             && negb (exists_row (λ j, bool_decide (JBookingRequestID j = Some bid)) (jobs s))
          then set_bookings (delete bid) s else s
      | None => s
      end
  end.

Definition delete_job (id : Z) (s : db) : db :=
  match jobs s !! id with
  | None => s
  | Some old =>
      let s1 := if unconfirmed_book old then release_reservation id s else s in
      let s2 := set_jobs (delete id) s1 in
      let s3 := set_events (filter (λ kv, EJobID kv.2 ≠ id)) s2 in
      let s4 := set_decisions (delete id) s3 in
      let s5 := detach_reservation id s4 in
      prune_booking_snapshot old s5
  end.
Definition delete_jobs (ids : list Z) (s : db) : db := foldl (λ s id, delete_job id s) s ids.

(** ** Updating jobs *)

Definition newest_first (a b : Z * Job) : bool :=
  (JUpdatedAt b.2 <? JUpdatedAt a.2)
  || ((JUpdatedAt b.2 =? JUpdatedAt a.2) && (b.1 <=? a.1)).

(** trigger [jobs_terminal_history_limit]: the row just written comes first, then
    the most recently updated ones. *)
Definition history_excess (new : Job) (s : db) : list Z :=
  let candidates := select (λ j, (JUserID j =? JUserID new) && prunable (JUpdatedAt new) j) (jobs s) in
  let rank a b :=
    if a.1 =? JID new then true else if b.1 =? JID new then false else newest_first a b in
  drop MaxTerminalJobHistoryPerUser (sort_by rank candidates).*1.

Definition after_status_update (new : Job) (s : db) : db :=
  let s1 := if is_retained_status (JStatus new) then delete_jobs (history_excess new s) s else s in
  if bool_decide (JCommand new = CommandBook) && negb (is_some (JConfirmationStartedAt new))
     && is_retryable_status (JStatus new)
  then release_reservation (JID new) s1 else s1.

(** The unique indexes of [jobs]: two different rows may not agree on any of the
    keys they both have. *)
Definition same_opt_key (a b : option Z) : bool :=
  match a, b with Some x, Some y => x =? y | _, _ => false end.
Definition pairing_pending (j : Job) : bool :=
  negb (is_some (JBookingRequestID j)) && bool_decide (JCommand j = CommandAuthCheck)
  && is_pairing_key (JDedupKey j) && is_pending (JStatus j).
(** [jobs_dedup_idx], [jobs_one_pending_booking_run_idx], [jobs_one_active_profile_idx],
    [jobs_one_active_source_idx], [jobs_one_pending_profile_pairing_idx] *)
Definition clash_dedup (a b : Job) : bool :=
  negb (String.eqb (JDedupKey a) "") && String.eqb (JDedupKey a) (JDedupKey b).
Definition clash_run (a b : Job) : bool :=
  is_pending (JStatus a) && is_pending (JStatus b) && (JUserID a =? JUserID b)
  && same_opt_key (JBookingRequestID a) (JBookingRequestID b)
  && bool_decide (JCommand a = JCommand b) && bool_decide (JRunMode a = JRunMode b).
Definition clash_profile (a b : Job) : bool :=
  is_active (JStatus a) && is_active (JStatus b) && (JProfileID a =? JProfileID b).
Definition clash_source (a b : Job) : bool :=
  is_active (JStatus a) && is_active (JStatus b) && (JOTPSourceID a =? JOTPSourceID b).
Definition clash_pairing (a b : Job) : bool :=
  pairing_pending a && pairing_pending b && (JOTPSourceID a =? JOTPSourceID b).
Definition compatible (a b : Job) : bool :=
  negb (clash_dedup a b || clash_run a b || clash_profile a b || clash_source a b || clash_pairing a b).
Definition unique_ok (j : Job) (s : db) : bool :=
  bool_decide (map_Forall (λ k o, k = JID j ∨ compatible j o = true) (jobs s)).

Definition unique_error (what : string) : error :=
  Errorf ("constraint failed: UNIQUE constraint failed: " +:+ what +:+ " (2067)").

(** One row of an UPDATE: [status_set] tells whether the statement assigns the
    status column, which is what fires the AFTER UPDATE OF status triggers. *)
Definition put_job (status_set : bool) (new : Job) : ST db unit := λ s,
  if negb (unique_ok new s) then (s, Err (unique_error "jobs"))
  else
    let s1 := set_jobs (<[JID new := new]>) s in
    (if status_set then after_status_update new s1 else s1, Ok tt).

(** [UPDATE jobs SET ... WHERE id = ? AND ... RETURNING ...] *)
Definition update_job (id : Z) (where_ : Job → bool) (set_row : Job → Job) (status_set : bool)
    : ST db (option Job) :=
  row ← gets (λ s, jobs s !! id);
  match row with
  | None => mret None
  | Some j =>
      if where_ j then _ ← put_job status_set (set_row j); mret (Some (set_row j)) else mret None
  end.

(** [UPDATE jobs SET ... WHERE ...] over the table; the result is the number of
    rows changed.  A failing row undoes the statement. *)
Fixpoint update_ids (ids : list Z) (set_row : Job → Job) (status_set : bool) : ST db Z :=
  match ids with
  | [] => mret 0
  | id :: rest =>
      o ← update_job id (λ _, true) set_row status_set;
      n ← update_ids rest set_row status_set;
      mret (n + match o with Some _ => 1 | None => 0 end)
  end.
Definition update_jobs (where_ : Job → bool) (set_row : Job → Job) (status_set : bool) : ST db Z :=
  atomically (ids ← gets (λ s, (select where_ (jobs s)).*1); update_ids ids set_row status_set).

(** ** Inserting jobs *)

Definition count_jobs (p : Job → bool) (s : db) : Z := Z.of_nat (count_map p (jobs s)).

(** Foreign keys of a job row. *)
Definition job_foreign_keys (j : Job) (s : db) : bool :=
  is_some (users s !! JUserID j)
  && match profiles s !! JProfileID j with
     | Some p => PUserID (pr_profile p) =? JUserID j | None => false end
  && match sources s !! JOTPSourceID j with
     | Some o => OSUserID (sr_source o) =? JUserID j | None => false end
  && match JBookingRequestID j with
     | None => true
     | Some bid => match bookings s !! bid with Some b => BUserID b =? JUserID j | None => false end
     end.

(** CHECK constraints of a job row. *)
Definition job_checks (j : Job) : bool :=
  JobCommand_Valid (JCommand j) && RunMode_Valid (JRunMode j) && JobStatus_Valid (JStatus j)
  && (negb (JRunImmediately j)
      || (bool_decide (JCommand j = CommandBook) && bool_decide (JRunMode j = RunModeManual)
          && is_some (JExpiresAt j))).

(** trigger [jobs_reserve_booking] *)
Definition reserve_booking (j : Job) : ST db unit := λ s,
  if negb (bool_decide (JCommand j = CommandBook)) then (s, Ok tt)
  else
    match JBookingRequestID j ≫= λ bid, bookings s !! bid with
    | None => (s, Ok tt)
    | Some b =>
        match reservations s !! (JProfileID j, BTargetDate b) with
        | Some _ => (s, Err (unique_error "booking_reservations.profile_id, booking_reservations.target_date"))
        | None => (set_reservations (<[(JProfileID j, BTargetDate b) := Some (JID j)]>) s, Ok tt)
        end
    end.

(** [INSERT INTO jobs]: the row gets the next id, in a statement of its own. *)
Definition insert_job (row : Z → Job) : ST db Z :=
  atomically (
    id ← gets next_job;
    let j := row id in
    limit ← gets (λ s, MaxRetainedJobsPerUser <=? count_jobs (λ o, JUserID o =? JUserID j) s);
    _ ← st_reject limit (Errorf "per-user retained job limit reached");
    _ ← st_reject (negb (job_checks j)) (Errorf "CHECK constraint failed: jobs");
    unique ← gets (unique_ok j);
    _ ← st_reject (negb unique) (unique_error "jobs");
    _ ← modify (λ s, bump_job (set_jobs (<[id := j]>) s));
    _ ← reserve_booking j;
    fks ← gets (job_foreign_keys j);
    _ ← st_reject (negb fks) (Errorf "FOREIGN KEY constraint failed");
    mret id).

(** ** Errors of writes *)

Fixpoint error_text (e : error) : string :=
  match e with
  | Errorf m => m
  | Wrap m inner => m +:+ error_text inner
  | Sentinel _ => ""
  | Join a b => error_text a +:+ error_text b
  end.

Definition mapWriteError (e : error) : error :=
  let text := to_lower (error_text e) in
  if contains text "unique constraint failed: booking_reservations.profile_id" then
    Wrap "this profile and date already have a pending, successful, or unresolved booking" (Sentinel ErrConflict)
  else if contains text "unique constraint failed" then Wrap (error_text e) (Sentinel ErrConflict)
  else if contains text "limit reached" then Wrap (error_text e) (Sentinel ErrResourceLimit)
  else if contains text "foreign key constraint failed" then
    Wrap "record is in use or references a missing dependency" (Sentinel ErrConflict)
  else e.
