(* ===== verification/Lifecycle.v ===== *)
(** * Opening and migrating the database (src/internal/store: store.go, key_validation.go;
    src/internal/lockfile)

    A start opens the database file with the key of the installation, checks that the key
    authenticates every stored secret, and brings the schema to the last version, one
    script per transaction.  Any call may fail; a start that stops is one whose further
    calls all fail.  Migrations are serialised by a lock, so no other process changes the
    database between two calls. *)

From S2P Require Import Prelude GoStrings GoTime GoPath Secrets Database.
From Stdlib Require Import Ascii String.

Open Scope Z_scope.

(** ** The contents of the file *)

(** What SQLite says of the tables of a database other than [schema_migrations]: how many
    there are, the values of a column (none when there is no such column), the outcome of
    a script and the first violation [PRAGMA foreign_key_check] reports. *)
Class SQLite (C : Type) := {
  sql_empty : C;
  sql_tables : C → Z;
  sql_column : C → string → string → option (list (option string));
  sql_script : string → C → result C;
  sql_violation : C → option string
}.

(** The file, the rows of [schema_migrations] and the other tables. *)
Record database (C : Type) := MkDatabase {
  da_file : bool; da_registry : option (gmap Z (string * Time)); da_content : C }.
Arguments MkDatabase {_} _ _ _. Arguments da_file {_} _. Arguments da_registry {_} _. Arguments da_content {_} _.
(** A start: the database, whether the connection that migrates enforces foreign keys,
    whether this process and another one hold the lock, and the calls made so far. *)
Record lifecycle (C : Type) := MkLifecycle {
  lc_db : database C; lc_enforcing : bool; lc_locked : bool; lc_busy : bool; lc_calls : nat }.
Arguments MkLifecycle {_} _ _ _ _ _. Arguments lc_db {_} _. Arguments lc_enforcing {_} _.
Arguments lc_locked {_} _. Arguments lc_busy {_} _. Arguments lc_calls {_} _.

(** What the environment decides: which calls fail, the clock, and the embedded scripts. *)
Record conditions := MkConditions {
  cd_failing : nat → option error; cd_clock : nat → Time; cd_script : string → string }.

Section lifecycle.
Context {C : Type} `{SQLite C} `{AEAD} (env : conditions).
Notation start := (ST (lifecycle C)).

(** ** Calls *)

Definition call {A} (f : lifecycle C → lifecycle C * result A) : start A := λ st,
  let st' := MkLifecycle (lc_db st) (lc_enforcing st) (lc_locked st) (lc_busy st) (S (lc_calls st)) in
  match cd_failing env (lc_calls st) with Some e => (st', Err e) | None => f st' end.
Definition call_unit : start unit := call (λ st, (st, Ok tt)).
Definition query {A} (f : database C → A) : start A := call (λ st, (st, Ok (f (lc_db st)))).
Definition set_db (f : database C → database C) (st : lifecycle C) : lifecycle C :=
  MkLifecycle (f (lc_db st)) (lc_enforcing st) (lc_locked st) (lc_busy st) (lc_calls st).
Definition set_enforcing (b : bool) (st : lifecycle C) : lifecycle C :=
  MkLifecycle (lc_db st) b (lc_locked st) (lc_busy st) (lc_calls st).
Definition set_locked (b : bool) (st : lifecycle C) : lifecycle C :=
  MkLifecycle (lc_db st) (lc_enforcing st) b (lc_busy st) (lc_calls st).
Definition statement (f : database C → database C) : start unit := call (λ st, (set_db f st, Ok tt)).

(** ** Locks *)

(** [flock]: waiting for the lock ends with holding it. *)
Definition flock (nonblocking : bool) : start unit := call (λ st,
  if nonblocking && lc_busy st then (st, Err (Sentinel ErrLocked)) else (set_locked true st, Ok tt)).
Definition acquire (nonblocking : bool) : start unit :=
  _ ← map_err (Wrap "create lock directory") call_unit;
  _ ← map_err (Wrap "open lock file") call_unit;
  _ ← map_err (Wrap "secure lock file") call_unit;
  map_err (λ e, if errors_is e ErrLocked then Sentinel ErrLocked else Wrap "acquire lock" e) (flock nonblocking).
Definition Acquire : start unit := acquire false.
Definition TryAcquire : start unit := acquire true.
(** Closing the file releases the lock, whether or not the call to release it succeeds. *)
Definition Release : start unit := λ st, (set_locked false st, Ok tt).

(** ** The stored secrets *)

Record encryptedField := MkField { ef_table : string; ef_column : string; ef_limit : Z; ef_allowEmpty : bool }.
Definition encryptedFields : list encryptedField :=
  [MkField "otp_sources" "config_ciphertext" 8192 false;
   MkField "profiles" "yodel_phone_ciphertext" 4096 true;
   MkField "profiles" "yodel_email_ciphertext" 4096 true;
   MkField "profiles" "yodel_password_ciphertext" 4096 true].

Definition verify_value (field : encryptedField) (value : option string) : result unit :=
  match value with
  | None => Err (Sentinel ErrKeyMismatch)
  | Some ciphertext =>
      if ef_limit field <? len ciphertext then Err (Sentinel ErrKeyMismatch)
      else if String.eqb ciphertext "" && ef_allowEmpty field then Ok tt
      else match Decrypt ciphertext with Ok _ => Ok tt | Err _ => Err (Sentinel ErrKeyMismatch) end
  end.
(** Each [rows.Next] is a call, and so is the one that finds no further row. *)
Fixpoint verify_rows (field : encryptedField) (values : list (option string)) : start unit :=
  match values with
  | [] => map_err (Wrap "validate encrypted data") call_unit
  | value :: rest =>
      _ ← map_err (Wrap "validate encrypted data") call_unit;
      _ ← lift (verify_value field value);
      verify_rows field rest
  end.
Definition verify_field (field : encryptedField) : start unit :=
  column ← map_err (Wrap "inspect encrypted data schema") (query (λ d, sql_column (da_content d) (ef_table field) (ef_column field)));
  match column with
  | None => mret tt
  | Some _ =>
      values ← map_err (Wrap "read encrypted data for key validation")
                 (query (λ d, default [] (sql_column (da_content d) (ef_table field) (ef_column field))));
      verify_rows field values
  end.
Fixpoint verify_fields (fields : list encryptedField) : start unit :=
  match fields with [] => mret tt | field :: rest => _ ← verify_field field; verify_fields rest end.
Definition verifyEncryptedRecords : start unit := verify_fields encryptedFields.

Definition verifyExistingDatabaseKey : start unit :=
  found ← attempt (query da_file);
  match found with
  | Err e => if errors_is e ErrNotExist then mret tt else fail (Wrap "inspect existing database" e)
  | Ok exists_ =>
      if exists_ : bool
      then _ ← map_err (Wrap "open database for key validation") call_unit; verifyEncryptedRecords
      else mret tt
  end.

(** ** Migrations *)

(** The embedded directory [migrations/*.sql]. *)
Definition migrationFiles : list string :=
  ["0001_initial.sql"; "0002_yodel_phone_login.sql"; "0003_booking_reservations.sql"; "0004_immediate_bookings.sql";
   "0005_profile_login_url.sql"; "0006_pass_order.sql"; "0007_booking_lake.sql"; "0008_personal_lake_settings.sql";
   "0009_global_timing_settings.sql"; "0010_shared_signins_and_lake_vehicles.sql"; "0011_network_settings.sql";
   "0012_booking_snapshots.sql"; "0013_booking_defaults.sql"; "0014_retire_saved_schedules.sql"].

(** [fmt.Sscanf(name, "%04d_", &version)]: at most four characters of a number, then an
    underscore. *)
Fixpoint scan_digits (width : nat) (s : string) (acc : Z) (some : bool) : option (Z * string) :=
  match width, s with
  | S width, String c s' => if is_digit c then scan_digits width s' (acc * 10 + digit_value c) true
                            else if some then Some (acc, s) else None
  | _, _ => if some then Some (acc, s) else None
  end.
Definition scan_version (name : string) : option Z :=
  '(version, rest) ← match name with
    | String "-" s => '(v, r) ← scan_digits 3 s 0 false; Some (- v, r)
    | String "+" s => scan_digits 3 s 0 false
    | s => scan_digits 4 s 0 false
    end;
  if has_prefix rest "_" then Some version else None.

Definition create_registry (d : database C) : database C := MkDatabase (da_file d) (Some ∅) (da_content d).
Definition registered (version : Z) (d : database C) : bool :=
  match da_registry d with Some r => is_some (r !! version) | None => false end.
Definition with_content (c : C) (d : database C) : database C := MkDatabase (da_file d) (da_registry d) c.
Definition record_version (version : Z) (name : string) (now : Time) (d : database C) : database C :=
  MkDatabase (da_file d) (insert version (name, now) <$> da_registry d) (da_content d).

(** A transaction: its statements take effect when the commit, its last call, succeeds. *)
Definition in_transaction {A} (m : start A) : start A := λ st,
  match m st with (st', Err e) => (set_db (λ _, lc_db st) st', Err e) | other => other end.
Definition run_script (text : string) : start unit := call (λ st,
  match sql_script text (da_content (lc_db st)) with
  | Ok c => (set_db (with_content c) st, Ok tt) | Err e => (st, Err e) end).
Definition checkMigrationForeignKeys : start unit :=
  violation ← query (λ d, sql_violation (da_content d));
  match violation with None => mret tt | Some text => fail (Errorf text) end.
Definition migration_body (version : Z) (name text : string) : start unit :=
  _ ← map_err (Wrap ("disable foreign keys for migration " +:+ format_int version)) (call (λ st, (set_enforcing false st, Ok tt)));
  _ ← map_err (Wrap ("begin migration " +:+ format_int version)) call_unit;
  in_transaction (
    _ ← map_err (Wrap ("apply migration " +:+ format_int version)) (run_script text);
    _ ← map_err (Wrap ("validate migration " +:+ format_int version +:+ " foreign keys")) checkMigrationForeignKeys;
    now ← gets (λ st, cd_clock env (lc_calls st));
    _ ← map_err (Wrap ("record migration " +:+ format_int version)) (statement (record_version version name now));
    map_err (Wrap ("commit migration " +:+ format_int version)) call_unit).
(** What the deferred function does to the result: enforcement is restored and verified. *)
Definition after_ok (r : result unit) (m : start unit) : start (result unit) :=
  match r with Ok _ => attempt m | Err e => mret (Err e) end.
Definition restore_enforcement (version : Z) (r : result unit) : start (result unit) :=
  restored ← attempt (map_err (Wrap ("restore foreign keys after migration " +:+ format_int version)) (call (λ st, (set_enforcing true st, Ok tt))));
  r ← after_ok r (lift restored);
  r ← after_ok r (
    enabled ← map_err (Wrap ("verify foreign keys after migration " +:+ format_int version))
                (call (λ st, (st, Ok (lc_enforcing st))));
    st_reject (negb enabled) (Errorf ("verify foreign keys after migration " +:+ format_int version +:+ ": enforcement remained disabled")));
  closed ← attempt (map_err (Wrap ("close migration " +:+ format_int version +:+ " connection")) call_unit);
  after_ok r (lift closed).
Definition applyMigration (version : Z) (name text : string) : start unit :=
  _ ← map_err (Wrap ("acquire migration " +:+ format_int version +:+ " connection")) call_unit;
  r ← attempt (migration_body version name text);
  r ← restore_enforcement version r;
  lift r.

Fixpoint apply_entries (names : list string) : start unit :=
  match names with
  | [] => mret tt
  | name :: rest =>
      if negb (has_suffix name ".sql") then apply_entries rest
      else
        version ← lift (match scan_version name with
                        | Some v => if v <=? 0 then Err (Errorf ("invalid migration filename " +:+ quoted name)) else Ok v
                        | None => Err (Errorf ("invalid migration filename " +:+ quoted name)) end);
        applied ← map_err (Wrap ("check migration " +:+ format_int version)) (query (registered version));
        _ ← (if applied : bool then mret tt else applyMigration version name (cd_script env name));
        apply_entries rest
  end.
Definition migrateUnlocked : start unit :=
  _ ← verifyEncryptedRecords;
  table ← map_err (Wrap "inspect migration state") (query (λ d, is_some (da_registry d)));
  _ ← (if table : bool then mret tt
       else
         existing ← map_err (Wrap "inspect existing schema") (query (λ d, sql_tables (da_content d)));
         _ ← st_reject (0 <? existing) (Sentinel ErrUnversionedDatabase);
         map_err (Wrap "create migration registry") (statement create_registry));
  apply_entries (sort_by String.leb migrationFiles).

(** ** Opening *)

(** The first connection makes the file. *)
Definition make_file (d : database C) : database C := MkDatabase true (da_registry d) (da_content d).
Definition Open (databasePath : string) : start unit :=
  _ ← st_reject (blank databasePath) (Errorf "database path is required");
  _ ← map_err (Wrap "resolve database path") call_unit;
  _ ← verifyExistingDatabaseKey;
  _ ← map_err (Wrap "create database directory") call_unit;
  _ ← map_err (Wrap "open database") call_unit;
  _ ← map_err (Wrap "ping database") (statement make_file);
  map_err (Wrap "secure database file") call_unit.
(** A deferred release. *)
Definition locked {A} (m : start A) : start A :=
  r ← attempt m; _ ← Release; lift r.
Definition OpenMigrated (databasePath : string) : start unit :=
  _ ← map_err (Wrap "resolve database path") call_unit;
  _ ← map_err (Wrap "acquire migration lock") Acquire;
  locked (_ ← Open databasePath; migrateUnlocked).
Definition Migrate : start unit :=
  _ ← map_err (Wrap "acquire migration lock") Acquire;
  locked migrateUnlocked.
Definition SchemaVersion : start Z :=
  map_err (Wrap "read schema version")
    (query (λ d, foldr Z.max 0 (map_to_list (default ∅ (da_registry d))).*1)).
Definition Ping : start unit := call_unit.
End lifecycle.

(** * What opening a database promises

    The migrations run once each and in order, whatever fails and however often a start is
    repeated; a key that does not authenticate a stored secret changes nothing. *)

Section steps.
Context {C : Type} `{SQLite C} `{AEAD} (env : conditions).
Notation start := (ST (lifecycle C)).
Implicit Types (P : database C → bool → bool → Prop) (st : lifecycle C).

(** What holds of the database, of enforcement and of the lock; the count of calls is no
    part of it. *)
Definition holds P st : Prop := P (lc_db st) (lc_enforcing st) (lc_locked st).

Lemma triple_sql {A} P (f : lifecycle C → lifecycle C * result A) (Q : result A → lifecycle C → Prop) :
  (∀ st, holds P st → Q (f st).2 (f st).1) → (∀ e st, holds P st → Q (Err e) st) → triple (holds P) (call env f) Q.
Proof. intros Hq He st Hp. unfold call. destruct (cd_failing env _); simpl; auto. Qed.
(** A call that only looks. *)
Lemma triple_query {A} P (f : database C → A) :
  triple (holds P) (query env f) (λ r st, holds P st ∧ ∀ a, r = Ok a → a = f (lc_db st)).
Proof. apply triple_sql; [|by intros]. intros st Hp. split; [done|]. intros a Ha. by injection Ha. Qed.
Lemma triple_unit P : triple (holds P) (call_unit env) (λ _, holds P).
Proof. by apply triple_sql. Qed.
Lemma quiet_unit P f : triple (holds P) (map_err f (call_unit env)) (λ _, holds P).
Proof. exact (triple_map_err _ f (call_unit env) (λ _, holds P) (triple_unit P)). Qed.

Lemma quiet_query {A} P f (g : database C → A) : triple (holds P) (map_err f (query env g)) (λ _, holds P).
Proof. apply (triple_map_err _ f (query env g) (λ _, holds P)). eapply triple_weaken; [apply triple_query|done|by intros ? ? [? _]]. Qed.

(** *** Reading the secrets *)

(** A failure is one of [K] or that of a call. *)
Definition fails_by {A} (K : error → Prop) P (r : result A) st : Prop :=
  holds P st ∧ ∀ e, r = Err e → K e ∨ ∃ i, is_Some (cd_failing env i).
Definition key_error (e : error) : Prop := e = Sentinel ErrKeyMismatch.
Notation checked := (fails_by key_error).
Lemma checked_call {A} K P P' f (g : lifecycle C → lifecycle C * result A) :
  (∀ st, holds P st → is_ok (g st).2 = true ∧ holds P' (g st).1) → (∀ st, holds P st → holds P' st) →
  triple (holds P) (map_err f (call env g)) (fails_by K P').
Proof.
  intros Hg Hsame st Hst. unfold map_err, call. destruct (cd_failing env _) as [e|] eqn:Hf; simpl.
  - split; [by apply Hsame|]. intros e' _. right. exists (lc_calls st). by rewrite Hf.
  - set (st' := MkLifecycle _ _ _ _ _). destruct (Hg st' Hst) as [Hok Hst']. by destruct (g st') as [st2 [a|e]].
Qed.
Lemma checked_unit K P f : triple (holds P) (map_err f (call_unit env)) (fails_by K P).
Proof. by apply checked_call. Qed.
Lemma checked_bind {A B} K P P' (m : start A) (f : A → start B) :
  triple (holds P) m (fails_by K P) → (∀ a, triple (holds P) (f a) (fails_by K P')) → (∀ st, holds P st → holds P' st) →
  triple (holds P) (m ≫= f) (fails_by K P').
Proof.
  intros Hm Hf HP. apply (triple_bind _ _ _ (fails_by K P)); [done| |].
  - intros a. eapply triple_weaken; [apply Hf|by intros st [? _]|done].
  - intros e st [Hst He]. split; [by apply HP|]. intros e' [= <-]. by apply He.
Qed.
Lemma checked_ret {A} K P (a : A) : triple (holds P) (mret a) (fails_by K P).
Proof. by apply triple_ret; intros st Hst; split. Qed.
Lemma checked_map_err {A} K P f (m : start A) :
  triple (holds P) m (fails_by (λ _, False) P) → triple (holds P) (map_err f m) (fails_by K P).
Proof.
  intros Hm. apply triple_map_err. eapply triple_weaken; [exact Hm|done|]. intros [a|e] st [Hst He]; split; try done.
  intros e' _. destruct (He e eq_refl) as [[]|]. by right.
Qed.
Lemma checked_quiet {A} K P (m : start A) : triple (holds P) m (fails_by K P) → triple (holds P) m (λ _, holds P).
Proof. intros Hm. eapply triple_weaken; [exact Hm|done|by intros r st [? _]]. Qed.

Lemma verify_value_cases field value :
  verify_value field value = Ok tt ∨ verify_value field value = Err (Sentinel ErrKeyMismatch).
Proof.
  unfold verify_value. destruct value as [c|]; [|by right]. destruct (_ <? _); [by right|].
  destruct (_ && _); [by left|]. destruct (Decrypt c); [by left|by right].
Qed.
Lemma verify_rows_checked P field values : triple (holds P) (verify_rows env field values) (checked P).
Proof.
  induction values as [|value values IH]; cbn [verify_rows]; [apply checked_unit|].
  apply checked_bind; [apply checked_unit|intros _|done]. apply checked_bind; [|intros _; apply IH|done].
  apply triple_lift. intros st Hst. split; [done|]. intros e He. left.
  destruct (verify_value_cases field value); congruence.
Qed.
Lemma verify_fields_checked P fields : triple (holds P) (verify_fields env fields) (checked P).
Proof.
  induction fields as [|field fields IH]; cbn [verify_fields]; [apply checked_ret|].
  apply checked_bind; [|intros _; apply IH|done]. unfold verify_field.
  apply checked_bind; [by apply checked_call|intros column|done]. destruct column; [|apply checked_ret].
  apply checked_bind; [by apply checked_call|intros values; apply verify_rows_checked|done].
Qed.
Lemma verify_fields_quiet P fields : triple (holds P) (verify_fields env fields) (λ _, holds P).
Proof. eapply checked_quiet, verify_fields_checked. Qed.

(** ** Migrations *)

Section migrations.
Context (c0 : C).

Fixpoint run_scripts (script : string → string) (names : list string) (c : C) : result C :=
  match names with [] => Ok c | name :: rest => c' ← sql_script (script name) c; run_scripts script rest c' end.
Lemma run_scripts_snoc script names name c c' :
  run_scripts script names c = Ok c' → run_scripts script (names ++ [name]) c = sql_script (script name) c'.
Proof.
  revert c. induction names as [|n names IH]; cbn [run_scripts app].
  - intros c [= ->]. unfold mbind, result_bind. by destruct (sql_script _ c').
  - intros c Hrun. apply result_bind_Ok in Hrun as (c1 & Hc1 & Hrest). rewrite Hc1. by apply IH.
Qed.

(** The database after the first [k] scripts on [c0]: the registry names their versions,
    and after the first one no foreign key is violated. *)
Record at_version (script : string → string) (k : nat) (d : database C) : Prop := {
  av_bound : (k ≤ 14)%nat;
  av_registry : match da_registry d with
    | Some r => ∀ v, is_Some (r !! v) ↔ 1 <= v <= Z.of_nat k
    | None => k = 0%nat ∧ sql_tables (da_content d) = 0 end;
  av_content : run_scripts script (take k migrationFiles) c0 = Ok (da_content d);
  av_clean : k = 0%nat ∨ sql_violation (da_content d) = None
}.
Definition reached (k0 : nat) (d : database C) : Prop := ∃ k, (k0 ≤ k)%nat ∧ at_version (cd_script env) k d.
Definition ready (k0 j : nat) (d : database C) (enforcing locked : bool) : Prop :=
  ∃ k, (k0 ≤ k)%nat ∧ (j ≤ k)%nat ∧ at_version (cd_script env) k d ∧ is_Some (da_registry d) ∧ enforcing = true.
Lemma ready_reached k0 j st : holds (ready k0 j) st → reached k0 (lc_db st).
Proof. intros (k & ? & _ & ? & _). by exists k. Qed.

(** A transaction leaves the database of its start unless it succeeds. *)
Lemma triple_transaction {A} (P : lifecycle C → Prop) (I : database C → Prop) (m : start A) (Q : A → lifecycle C → Prop) :
  (∀ st, P st → I (lc_db st)) → triple P m (λ r st, match r with Ok a => Q a st | Err _ => True end) →
  triple P (in_transaction m) (λ r st, match r with Ok a => Q a st | Err _ => I (lc_db st) end).
Proof.
  intros HI Hm st Hp. specialize (Hm st Hp). unfold in_transaction. destruct (m st) as [st' [a|e]]; simpl in *; [done|].
  by apply HI.
Qed.

Lemma record_version_at d0 name j now d :
  migrationFiles !! j = Some name → at_version (cd_script env) j d0 → is_Some (da_registry d0) →
  da_registry d = da_registry d0 → sql_script (cd_script env name) (da_content d0) = Ok (da_content d) →
  sql_violation (da_content d) = None →
  is_Some (da_registry (record_version (Z.of_nat (S j)) name now d))
  ∧ at_version (cd_script env) (S j) (record_version (Z.of_nat (S j)) name now d).
Proof.
  intros Hname Hat [r Hr] Hsame Hrun Hv. cbn [record_version da_registry]. rewrite Hsame, Hr. split; [by eexists|].
  assert (Hj : (j < 14)%nat) by (apply lookup_lt_Some in Hname; simpl in Hname; lia).
  split; cbn [record_version da_registry da_content]; [lia| | |by right].
  - rewrite Hsame, Hr. cbn. intros v. pose proof (av_registry _ _ _ Hat) as Hav. rewrite Hr in Hav.
    rewrite lookup_insert_is_Some', Hav. lia.
  - by rewrite (take_S_r _ _ name Hname), (run_scripts_snoc _ _ _ _ _ (av_content _ _ _ Hat)).
Qed.

Lemma migration_body_runs j name :
  migrationFiles !! j = Some name →
  triple (holds (λ d _ _, at_version (cd_script env) j d ∧ is_Some (da_registry d)))
    (migration_body env (Z.of_nat (S j)) name (cd_script env name))
    (λ r st, is_Some (da_registry (lc_db st)) ∧
       at_version (cd_script env) (match r with Ok _ => S j | Err _ => j end) (lc_db st)).
Proof.
  intros Hname. set (I := λ d, at_version (cd_script env) j d ∧ is_Some (da_registry d)).
  assert (Herr : ∀ (e : error) st, I (lc_db st) → is_Some (da_registry (lc_db st)) ∧ at_version (cd_script env) j (lc_db st))
    by (intros e st [? ?]; done).
  unfold migration_body.
  apply (triple_bind _ _ _ (λ r, holds (λ d _ _, I d))); [|intros _|by intros e st [? ?]].
  { apply triple_map_err, triple_sql; intros; done. }
  apply (triple_bind _ _ _ (λ r, holds (λ d _ _, I d))); [|intros _|by intros e st [? ?]].
  { apply quiet_unit. }
  eapply triple_weaken; [apply (triple_transaction (holds (λ d _ _, I d)) I _
    (λ _ st, is_Some (da_registry (lc_db st)) ∧ at_version (cd_script env) (S j) (lc_db st)))|done|by intros [?|?] st Hst; [|apply Herr]]; [done|].
  set (ran := λ (d : database C) (_ _ : bool), ∃ d0, I d0 ∧ da_registry d = da_registry d0 ∧
    sql_script (cd_script env name) (da_content d0) = Ok (da_content d)).
  apply (triple_bind _ _ _ (λ r, match r with Ok _ => holds ran | Err _ => λ _, True end)); [|intros _|done].
  { apply triple_map_err, triple_sql; [|done]. intros st Hst. destruct (sql_script _ _) as [c|e] eqn:Hrun; [|done].
    simpl. by exists (lc_db st). }
  set (clean := λ (d : database C) (b l : bool), ran d b l ∧ sql_violation (da_content d) = None).
  apply (triple_bind _ _ _ (λ r, match r with Ok _ => holds clean | Err _ => λ _, True end)); [|intros _|done].
  { apply triple_map_err. unfold checkMigrationForeignKeys.
    eapply triple_bind; [apply triple_query| |done]. intros [text|]; [by apply triple_fail|].
    apply triple_ret. intros st [Hran Hv]. split; [done|]. by rewrite <- (Hv None). }
  apply (triple_bind _ _ _ (λ r, match r with Ok _ => holds clean | Err _ => λ _, True end)); [by intros st Hst|intros now|done].
  set (done_ := λ (d : database C) (_ _ : bool), is_Some (da_registry d) ∧ at_version (cd_script env) (S j) d).
  apply (triple_bind _ _ _ (λ r, match r with Ok _ => holds done_ | Err _ => λ _, True end)); [|intros _|done].
  - apply triple_map_err, triple_sql; [|done]. intros st ((d0 & [Hat Hreg] & Hsame & Hrun) & Hv).
    by apply (record_version_at d0 name).
  - eapply triple_weaken; [apply (quiet_unit done_)|done|]. by intros [?|?] st Hst.
Qed.

(** The deferred function: the database stays, and success means enforcement. *)
Lemma restore_enforcement_runs (I : database C → Prop) version r :
  triple (λ st, I (lc_db st)) (restore_enforcement env version r)
    (λ r' st, I (lc_db st) ∧ match r' with Ok (Ok _) => r = Ok tt ∧ lc_enforcing st = true | Ok (Err _) => True | Err _ => False end).
Proof.
  unfold restore_enforcement.
  set (on := λ (ok : Prop) (d : database C) (b l : bool), I d ∧ (ok → b = true)).
  apply (triple_bind _ _ _ (λ r st, match r with Ok restored => holds (on (restored = Ok tt)) st | Err _ => False end)); [|intros restored|done].
  { apply triple_attempt, triple_map_err, (triple_sql (λ d _ _, I d)); [done|]. intros e st Hi. by split. }
  apply (triple_bind _ _ _ (λ r' st, match r' with Ok r1 => holds (on (restored = Ok tt)) st ∧ (r1 = Ok tt → r = Ok tt ∧ restored = Ok tt) | Err _ => False end)); [|intros r1|done].
  { destruct r as [[]|e]; cbn [after_ok]; [|by apply triple_ret; intros st Hst; split].
    apply triple_attempt, triple_lift. intros st Hst. split; [done|]. by intros ->. }
  set (back := λ r2, λ (d : database C) (b l : bool), I d ∧ (r2 = Ok tt → r = Ok tt ∧ b = true)).
  apply (triple_bind _ _ _ (λ r' st, match r' with Ok r2 => holds (back r2) st | Err _ => False end)); [|intros r2|done].
  { destruct r1 as [[]|e]; cbn [after_ok]; [|by apply triple_ret; intros st [[Hi _] _]; split].
    apply triple_attempt. eapply (triple_bind _ _ _ (λ _, holds (λ d b l, I d ∧ r = Ok tt ∧ b = true)));
      [|intros enabled|by intros e st (? & _)].
    - apply triple_map_err. eapply triple_weaken; [apply (triple_sql (λ d b l, I d ∧ r = Ok tt ∧ b = true) _ (λ _, holds (λ d b l, I d ∧ r = Ok tt ∧ b = true))); done| |done].
      intros st [[Hi Hb] Hr]. destruct (Hr eq_refl) as [-> ->]. split; [done|]. split; [done|]. by apply Hb.
    - apply triple_reject; intros _ st (Hi & Hr & Hb); by split. }
  apply (triple_bind _ _ _ (λ r' st, match r' with Ok _ => holds (back r2) st | Err _ => False end)); [|intros closed|done].
  { apply triple_attempt, triple_map_err, triple_sql; done. }
  destruct r2 as [[]|e]; cbn [after_ok].
  - apply triple_attempt, triple_lift. intros st [Hi Hb]. split; [done|]. destruct closed; [by apply Hb|done].
  - apply triple_ret. by intros st [Hi _].
Qed.

Lemma applyMigration_runs k0 j name :
  (k0 ≤ j)%nat → migrationFiles !! j = Some name →
  triple (holds (λ d _ _, at_version (cd_script env) j d ∧ is_Some (da_registry d)))
    (applyMigration env (Z.of_nat (S j)) name (cd_script env name))
    (λ r st, reached k0 (lc_db st) ∧ match r with Ok _ => holds (ready k0 (S j)) st | Err _ => True end).
Proof.
  intros Hk Hname. set (I := λ d, at_version (cd_script env) j d ∧ is_Some (da_registry d)). unfold applyMigration.
  apply (triple_bind _ _ _ (λ _, holds (λ d _ _, I d))); [by apply quiet_unit|intros _|].
  2: { intros e st [Hat _]. split; [by exists j|done]. }
  set (D := λ (r : result unit) (d : database C), is_Some (da_registry d) ∧ at_version (cd_script env) (match r with Ok _ => S j | Err _ => j end) d).
  apply (triple_bind _ _ _ (λ r st, match r with Ok r => D r (lc_db st) | Err _ => False end)); [|intros r|done].
  { apply triple_attempt. by apply migration_body_runs. }
  apply (triple_bind _ _ _ (λ r' st, D r (lc_db st) ∧ match r' with Ok (Ok _) => r = Ok tt ∧ lc_enforcing st = true | Ok (Err _) => True | Err _ => False end));
    [apply restore_enforcement_runs|intros r'|by intros e st [_ []]].
  apply triple_lift. intros st ([Hreg Hat] & Hr). split.
  - eexists. split; [|exact Hat]. destruct r; lia.
  - destruct r' as [[]|e]; [|done]. destruct Hr as [-> Hb]. exists (S j). repeat split; try done; try lia; by apply Hat.
Qed.

Lemma migration_names j name :
  migrationFiles !! j = Some name → has_suffix name ".sql" = true ∧ scan_version name = Some (Z.of_nat (S j)).
Proof. unfold migrationFiles. do 14 (destruct j as [|j]; [intros [= <-]; split; reflexivity|]). done. Qed.
Lemma migrations_sorted : sort_by String.leb migrationFiles = migrationFiles.
Proof. vm_compute. reflexivity. Qed.

(** The entries from the [j]-th on. *)
Definition all_applied (k0 : nat) (r : result unit) (st : lifecycle C) : Prop :=
  reached k0 (lc_db st) ∧ match r with Ok _ => holds (ready k0 14) st | Err _ => True end.
Lemma all_applied_err k0 j e st : holds (ready k0 j) st → all_applied k0 (Err e) st.
Proof. intros Hst. split; [by eapply ready_reached, Hst|done]. Qed.

Lemma apply_entries_runs k0 j rest :
  rest = drop j migrationFiles → triple (holds (ready k0 j)) (apply_entries env rest) (all_applied k0).
Proof.
  revert j. induction rest as [|name rest IH]; intros j Hrest; cbn [apply_entries].
  - apply triple_ret. intros st Hst. split; [by eapply ready_reached, Hst|].
    assert (Hj : (14 ≤ j)%nat) by (apply (f_equal List.length) in Hrest; rewrite length_drop in Hrest; simpl in Hrest; lia).
    destruct Hst as (k & ? & ? & Hat & ? & ?). exists k. repeat split; try done; try apply Hat. lia.
  - assert (Hname : migrationFiles !! j = Some name) by (by rewrite <- (Nat.add_0_r j), <- lookup_drop, <- Hrest).
    rewrite (drop_S _ name j Hname) in Hrest. injection Hrest as Hrest.
    destruct (migration_names j name Hname) as [-> Hversion]. cbn [negb].
    apply (triple_known _ (holds (ready k0 j)) _ _ (Z.of_nat (S j))).
    { apply triple_lift. intros st Hst. rewrite Hversion. destruct (Z.leb_spec (Z.of_nat (S j)) 0); [lia|done]. }
    apply (triple_bind _ _ _ (λ r st, match r with
      | Ok applied => holds (ready k0 j) st ∧ applied = registered (Z.of_nat (S j)) (lc_db st) | Err _ => holds (ready k0 j) st end));
      [|intros applied|by intros e st ?; eapply all_applied_err].
    { apply triple_map_err. eapply triple_weaken; [apply triple_query|done|]. intros [a|e] st [Hst Ha]; [|done]. split; [done|by apply Ha]. }
    apply (triple_bind _ _ _ (λ r st, reached k0 (lc_db st) ∧ match r with Ok _ => holds (ready k0 (S j)) st | Err _ => True end));
      [|intros _; by eapply triple_weaken; [by apply (IH (S j))|by intros st [_ ?]|]|by intros e st [? _]; split].
    unfold registered. destruct applied.
    + apply triple_ret. intros st [(k & Hk0 & Hk & Hat & Hreg & Hb) Ha]. split; [by exists k|].
      exists k. repeat split; try done; try apply Hat. pose proof (av_registry _ _ _ Hat) as Hav.
      destruct (da_registry (lc_db st)) as [m|]; [|done]. symmetry in Ha.
      assert (Hin : is_Some (m !! Z.of_nat (S j))) by (destruct (m !! Z.of_nat (S j)); [by eexists|done]).
      apply Hav in Hin. lia.
    + intros st [(k & Hk0 & Hk & Hat & Hreg & Hb) Ha]. assert (k = j) as ->.
      { pose proof (av_registry _ _ _ Hat) as Hav. pose proof (av_bound _ _ _ Hat). destruct Hreg as [m Hm]. rewrite Hm in Hav, Ha.
        destruct (decide (S j ≤ k)%nat) as [Hle|]; [|lia].
        destruct (Hav (Z.of_nat (S j))) as [_ [x Hx]]; [lia|]. by rewrite Hx in Ha. }
      by apply (applyMigration_runs k0 j name).
Qed.

Lemma at_version_file script k d : at_version script k d → at_version script k (make_file d).
Proof. by intros []; split. Qed.

Lemma migrateUnlocked_runs k0 :
  triple (holds (λ d b _, at_version (cd_script env) k0 d ∧ b = true)) (migrateUnlocked env) (all_applied k0).
Proof.
  set (P := λ d b (_ : bool), at_version (cd_script env) k0 d ∧ b = true).
  assert (Herr : ∀ e st, holds P st → all_applied k0 (Err e) st) by (intros e st [Hat _]; split; [by exists k0|done]).
  unfold migrateUnlocked. apply (triple_bind _ _ _ (λ _, holds P)); [apply verify_fields_quiet|intros _|auto].
  apply (triple_bind _ _ _ (λ r st, holds P st ∧ ∀ t, r = Ok t → t = is_some (da_registry (lc_db st)))); [|intros table|by intros e st [? _]; auto].
  { apply triple_map_err. eapply triple_weaken; [apply triple_query|done|]. intros [t|e] st [Hst Ht]; split; try done. }
  apply (triple_bind _ _ _ (λ r st, match r with Ok _ => holds (ready k0 0) st | Err _ => holds P st end)); [|intros _|auto].
  2: { rewrite migrations_sorted. by apply (apply_entries_runs k0 0). }
  destruct table.
  - apply triple_ret. intros st [[Hat Hb] Ht]. exists k0. repeat split; try done; try apply Hat; try lia.
    specialize (Ht true eq_refl). destruct (da_registry (lc_db st)); [by eexists|done].
  - apply (triple_bind _ _ _ (λ _, holds (λ d b l, P d b l ∧ da_registry d = None))); [|intros existing|by intros e st [? _]].
    { eapply triple_weaken; [apply (quiet_query (λ d b l, P d b l ∧ da_registry d = None))| |done].
      intros st [Hst Ht]. split; [done|]. specialize (Ht false eq_refl). by destruct (da_registry (lc_db st)). }
    apply (triple_bind _ _ _ (λ _, holds (λ d b l, P d b l ∧ da_registry d = None))); [|intros _|by intros e st [? _]].
    { by apply triple_reject. }
    apply triple_map_err, triple_sql; [|by intros e st [? _]]. intros st [[Hat Hb] Hnone]. simpl.
    pose proof (av_registry _ _ _ Hat) as Hav. rewrite Hnone in Hav. destruct Hav as [Hk0 _].
    exists k0. split; [lia|]. split; [lia|]. split; [|split; [by eexists|done]].
    destruct Hat. split; cbn [create_registry da_registry da_content]; try done.
    intros v. subst k0. split; [|lia]. by intros [x Hx].
Qed.

Lemma Open_checked P path :
  blank path = false → (∀ d b l, P d b l → P (make_file d) b l) → triple (holds P) (Open env path) (checked P).
Proof.
  intros Hpath HP. unfold Open, verifyExistingDatabaseKey. rewrite Hpath.
  apply checked_bind; [apply (checked_ret _ P tt)|intros _|done].
  apply checked_bind; [apply checked_unit|intros _|done].
  apply checked_bind; [|intros _|done].
  { apply (triple_bind _ _ _ (λ r st, holds P st ∧ match r with Ok (Err _) => ∃ i, is_Some (cd_failing env i) | Ok _ => True | Err _ => False end));
      [|intros found|by intros e st [_ []]].
    - apply triple_attempt. intros st Hst. unfold query, call. destruct (cd_failing env _) eqn:Hf; simpl; split; try done. by eexists; rewrite Hf.
    - destruct found as [[]|e].
      + eapply triple_weaken; [|by intros st [Hst _]; exact Hst|done].
        apply checked_bind; [apply checked_unit|intros _; apply verify_fields_checked|done].
      + eapply triple_weaken; [apply (checked_ret key_error P tt)|by intros st [? _]|done].
      + apply triple_if; intros _; [eapply triple_weaken; [apply (checked_ret key_error P tt)|by intros st [? _]|done]|].
        apply triple_fail. intros st [Hst Hc]. split; [done|]. by right. }
  do 2 (apply checked_bind; [apply checked_unit|intros _|done]).
  apply checked_bind; [|intros _; apply checked_unit|done].
  apply checked_call; [|done]. intros st Hst. split; [done|by apply HP].
Qed.
Lemma Open_runs P path :
  (∀ d b l, P d b l → P (make_file d) b l) → triple (holds P) (Open env path) (λ _, holds P).
Proof.
  intros HP. destruct (blank path) eqn:Hpath; [|by eapply checked_quiet, Open_checked].
  unfold Open. rewrite Hpath. by intros st Hst.
Qed.
Lemma Acquire_runs (P : database C → bool → Prop) :
  triple (holds (λ d b l, P d b ∧ l = false)) (Acquire env)
    (λ r, holds (λ d b l, P d b ∧ match r with Ok _ => True | Err _ => l = false end)).
Proof.
  unfold Acquire, acquire. set (I := λ d b (l : bool), P d b ∧ l = false).
  do 3 (apply (triple_bind _ _ _ (λ _, holds I)); [apply quiet_unit|intros _|done]).
  apply triple_map_err, triple_sql; [|done]. intros st [Hst Hl]. by split.
Qed.
Lemma locked_runs {A} (I : lifecycle C → Prop) (m : start A) (Q : result A → lifecycle C → Prop) :
  (∀ r st, Q r st → Q r (set_locked false st)) →
  triple I m Q → triple I (locked m) (λ r st, Q r st ∧ lc_locked st = false).
Proof.
  intros HQ Hm st Hst. specialize (Hm st Hst). unfold locked. rewrite ST_bind_unfold. unfold attempt.
  destruct (m st) as [st' r]. simpl in *. split; [by apply HQ|done].
Qed.

Lemma OpenMigrated_runs path k0 :
  triple (holds (λ d b l, (at_version (cd_script env) k0 d ∧ b = true) ∧ l = false)) (OpenMigrated env path)
    (λ r st, all_applied k0 r st ∧ lc_locked st = false).
Proof.
  set (I := λ d b, at_version (cd_script env) k0 d ∧ b = true).
  assert (Herr : ∀ e st, holds (λ d b _, I d b) st → all_applied k0 (Err e) st) by (intros e st [Hat _]; split; [by exists k0|done]).
  unfold OpenMigrated.
  apply (triple_bind _ _ _ (λ _, holds (λ d b l, I d b ∧ l = false))); [apply quiet_unit|intros _|by intros e st [Hst Hl]; split; [apply Herr|]].
  apply (triple_bind _ _ _ (λ r, holds (λ d b l, I d b ∧ match r with Ok _ => True | Err _ => l = false end))); [|intros _|by intros e st [Hst Hl]; split; [apply Herr|]].
  { apply triple_map_err. eapply triple_weaken; [apply Acquire_runs|done|by intros [?|?]]. }
  apply (triple_weaken (holds (λ d b l, I d b)) _ _ (λ r st, all_applied k0 r st ∧ lc_locked st = false)); [|by intros st [? _]|done].
  apply locked_runs; [by intros|].
  apply (triple_bind _ _ _ (λ _, holds (λ d b _, I d b))); [|intros _; apply migrateUnlocked_runs|auto].
  apply Open_runs. intros d b _ [Hat Hb]. split; [by apply at_version_file|done].
Qed.
End migrations.

(** ** A key that does not fit *)

(** A stored secret that this key does not authenticate. *)
Definition foreign_secret (c : C) : Prop := ∃ field values value,
  field ∈ encryptedFields ∧ sql_column c (ef_table field) (ef_column field) = Some values
  ∧ value ∈ values ∧ verify_value field value = Err (Sentinel ErrKeyMismatch).

(** A program that cannot succeed. *)
Notation hopeless P m := (triple (holds P) m (λ r _, is_ok r = false)).
Lemma hopeless_bind {A B} P (m : start A) (f : A → start B) : hopeless P m → hopeless P (m ≫= f).
Proof. intros Hm. apply (triple_bind _ _ _ (λ r _, is_ok r = false)); [done| |done]. by intros a st. Qed.
Lemma hopeless_after {A B} P (m : start A) (f : A → start B) :
  triple (holds P) m (λ _, holds P) → (∀ a, hopeless P (f a)) → hopeless P (m ≫= f).
Proof. intros Hm Hf. by apply (triple_bind _ _ _ (λ _, holds P)). Qed.
Lemma hopeless_map_err {A} P f (m : start A) : hopeless P m → hopeless P (map_err f m).
Proof. intros Hm st Hst. specialize (Hm st Hst). unfold map_err. by destruct (m st) as [? [?|?]]. Qed.
Lemma hopeless_known {A B} P (g : database C → A) a (f : A → start B) h :
  (∀ d b l, P d b l → g d = a) → hopeless P (f a) → hopeless P (map_err h (query env g) ≫= f).
Proof.
  intros Hg Hf. apply (triple_bind _ _ _ (λ r st, holds P st ∧ ∀ x, r = Ok x → x = g (lc_db st))).
  - apply triple_map_err. eapply triple_weaken; [apply triple_query|done|]. intros [x|e] st [Hst Hx]; split; try done.
  - intros x st [Hst Hx]. rewrite (Hx x eq_refl), (Hg _ _ _ Hst). by apply Hf.
  - done.
Qed.

Section foreign.
Context (c : C) (registry : option (gmap Z (string * Time))) (Hforeign : foreign_secret c).
Definition unchanged (d : database C) (_ _ : bool) : Prop := da_content d = c ∧ da_registry d = registry.

Lemma verify_rows_hopeless field values value :
  value ∈ values → verify_value field value = Err (Sentinel ErrKeyMismatch) → hopeless unchanged (verify_rows env field values).
Proof using Type.
  intros Hin Hbad. induction values as [|v values IH]; [by apply elem_of_nil in Hin|]. cbn [verify_rows].
  apply hopeless_after; [apply quiet_unit|intros _]. apply elem_of_cons in Hin as [<-|Hin].
  - apply hopeless_bind. intros st _. unfold lift. by rewrite Hbad.
  - apply hopeless_after; [by apply (triple_lift _ _ (λ _, holds unchanged))|intros _]. by apply IH.
Qed.
Lemma verification_hopeless : hopeless unchanged (verifyEncryptedRecords env).
Proof using Hforeign.
  destruct Hforeign as (field & values & value & Hfield & Hcolumn & Hvalue & Hbad).
  unfold verifyEncryptedRecords. induction encryptedFields as [|f fields IH]; [by apply elem_of_nil in Hfield|].
  cbn [verify_fields]. apply elem_of_cons in Hfield as [<-|Hin].
  - apply hopeless_bind. unfold verify_field.
    apply (hopeless_known _ _ (Some values)); [intros d b l [-> _]; done|].
    apply (hopeless_known _ _ values); [intros d b l [-> _]; by rewrite Hcolumn|]. by eapply verify_rows_hopeless.
  - apply hopeless_after; [|intros _; by apply IH]. pose proof (verify_fields_quiet unchanged [f]) as Hq.
    intros st Hst. specialize (Hq st Hst). cbn [verify_fields] in Hq. rewrite ST_bind_unfold in Hq.
    by destruct (verify_field env f st) as [st' [[]|e]].
Qed.
Lemma migration_hopeless : hopeless unchanged (migrateUnlocked env).
Proof using Hforeign. apply hopeless_bind, verification_hopeless. Qed.
Lemma migration_unchanged : triple (holds unchanged) (migrateUnlocked env) (checked unchanged).
Proof using Hforeign.
  intros st Hst. pose proof (verify_fields_checked unchanged encryptedFields st Hst) as Hc.
  pose proof (verification_hopeless st Hst) as Hh. unfold migrateUnlocked, verifyEncryptedRecords in *. rewrite ST_bind_unfold.
  destruct (verify_fields env encryptedFields st) as [st' [[]|e]]; [done|]. simpl in *. destruct Hc as [Hc He]. split; [done|].
  intros e' [= <-]. by apply He.
Qed.
Lemma opening_hopeless path : hopeless unchanged (Open env path ≫= λ _, migrateUnlocked env).
Proof using Hforeign.
  apply hopeless_after; [|intros _; apply migration_hopeless].
  apply Open_runs. by intros d b l [? ?].
Qed.
Lemma OpenMigrated_unchanged path :
  blank path = false → triple (holds unchanged) (OpenMigrated env path) (λ r st, checked unchanged r st ∧ is_ok r = false).
Proof using Hforeign.
  intros Hpath. set (Q := λ (r : result unit) st, checked unchanged r st ∧ is_ok r = false).
  assert (Hsteps : ∀ (m : start unit) f, triple (holds unchanged) m (checked unchanged) →
    triple (holds unchanged) (f tt) Q → triple (holds unchanged) (m ≫= f) Q).
  { intros m f Hm Hf. apply (triple_bind _ _ _ (checked unchanged)); [done| |].
    - intros [] st [Hst _]. by apply Hf.
    - intros e st [Hst He]. split; [|done]. split; [done|]. intros e' [= <-]. by apply He. }
  unfold OpenMigrated. apply Hsteps; [apply checked_unit|].
  apply Hsteps.
  { apply checked_map_err. unfold Acquire, acquire.
    do 3 (apply checked_bind; [apply checked_unit|intros _|done]). by apply checked_call. }
  eapply triple_weaken; [apply (locked_runs _ _ Q); [by intros|]|done|by intros r st [? _]].
  intros st Hst. split; [|by apply opening_hopeless].
  revert st Hst. change (triple (holds unchanged) (_ ← Open env path; migrateUnlocked env) (checked unchanged)).
  apply checked_bind; [|intros _; apply migration_unchanged|done].
  apply Open_checked; [done|]. by intros d b l [? ?].
Qed.
End foreign.

(** ** Starts that nothing disturbs *)

(** A database at version [k] of the schema, whatever rows it holds: its registry names the
    versions up to [k], or it has none and no table yet. *)
Definition schema (k : nat) (d : database C) : Prop :=
  (k ≤ 14)%nat ∧ match da_registry d with
    | Some r => ∀ v, is_Some (r !! v) ↔ 1 <= v <= Z.of_nat k
    | None => k = 0%nat ∧ sql_tables (da_content d) = 0 end.
(** The scripts [names] run one after the other on [c], make [c'] of it, and none leaves a
    foreign key violated. *)
Inductive upgrades (script : string → string) : list string → C → C → Prop :=
  | nothing_left c : upgrades script [] c c
  | one_script name rest c c1 c' :
      sql_script (script name) c = Ok c1 → sql_violation c1 = None → upgrades script rest c1 c' →
      upgrades script (name :: rest) c c'.

Section undisturbed.
Context (Hworks : ∀ i, cd_failing env i = None).

Lemma call_sure {A} (f : lifecycle C → lifecycle C * result A) st :
  call env f st = f (MkLifecycle (lc_db st) (lc_enforcing st) (lc_locked st) (lc_busy st) (S (lc_calls st))).
Proof using Hworks. unfold call. by rewrite Hworks. Qed.
Lemma applyMigration_sure version name text st c :
  sql_script text (da_content (lc_db st)) = Ok c → sql_violation c = None →
  ∃ st' now, applyMigration env version name text st = (st', Ok tt)
    ∧ lc_db st' = record_version version name now (with_content c (lc_db st)).
Proof using Hworks.
  intros Hrun Hclean. do 2 eexists. split.
  - unfold applyMigration, migration_body, restore_enforcement, after_ok, in_transaction, run_script, checkMigrationForeignKeys,
      query, statement, call_unit, attempt, map_err, st_reject, lift, gets, mbind, ST_bind, mret, ST_ret.
    repeat first [rewrite call_sure | rewrite Hrun | rewrite Hclean | progress cbn]. reflexivity.
  - reflexivity.
Qed.

(** The program succeeds; what it leaves satisfies [Q]. *)
Definition succeeds (m : start unit) st (Q : database C → Prop) : Prop := ∃ st', m st = (st', Ok tt) ∧ Q (lc_db st').
Lemma succeeds_bind (m : start unit) f st Q Q' :
  succeeds m st Q → (∀ st', Q (lc_db st') → succeeds (f tt) st' Q') → succeeds (m ≫= f) st Q'.
Proof using Type. intros (st1 & Hm & Hq) Hf. unfold succeeds. rewrite ST_bind_unfold, Hm. by apply Hf. Qed.
Lemma succeeds_unit f st : succeeds (map_err f (call_unit env)) st (eq (lc_db st)).
Proof using Hworks. unfold succeeds, map_err, call_unit. rewrite call_sure. by eexists. Qed.
Lemma succeeds_query {A} f (g : database C → A) k st Q :
  (∀ st', lc_db st' = lc_db st → succeeds (k (g (lc_db st))) st' Q) → succeeds (map_err f (query env g) ≫= k) st Q.
Proof using Hworks.
  intros Hk. unfold succeeds. rewrite ST_bind_unfold. unfold map_err, query. rewrite call_sure. by apply Hk.
Qed.

Lemma succeeds_same m st (Q : database C → Prop) : succeeds m st (eq (lc_db st)) → Q (lc_db st) → succeeds m st Q.
Proof using Type. intros (st' & Hm & Heq) Hq. exists st'. split; [done|by rewrite <- Heq]. Qed.

Definition secrets_fit (c : C) : Prop := ∀ field values value,
  field ∈ encryptedFields → sql_column c (ef_table field) (ef_column field) = Some values → value ∈ values →
  verify_value field value = Ok tt.
Lemma verify_rows_sure field values st :
  (∀ value, value ∈ values → verify_value field value = Ok tt) → succeeds (verify_rows env field values) st (eq (lc_db st)).
Proof using Hworks.
  revert st. induction values as [|v values IH]; intros st Hfit; cbn [verify_rows]; [apply succeeds_unit|].
  eapply succeeds_bind; [apply succeeds_unit|]. intros st1 Hst1.
  unfold succeeds. rewrite ST_bind_unfold. unfold lift. rewrite Hfit by left. rewrite Hst1. apply IH. intros v' Hv. apply Hfit. by right.
Qed.
Lemma verification_sure st : secrets_fit (da_content (lc_db st)) → succeeds (verifyEncryptedRecords env) st (eq (lc_db st)).
Proof using Hworks.
  unfold secrets_fit, verifyEncryptedRecords. revert st. induction encryptedFields as [|f fields IH]; intros st Hfit; [by eexists|].
  cbn [verify_fields]. eapply (succeeds_bind _ _ _ (eq (lc_db st))).
  - unfold verify_field. apply succeeds_query. intros st1 Hst1. destruct (sql_column (da_content (lc_db st)) _ _) as [values|] eqn:Hcol; [|by eexists].
    apply succeeds_query. intros st2 Hst2. rewrite Hst1, Hcol. rewrite <- Hst1, <- Hst2. apply verify_rows_sure.
    intros v Hv. eapply Hfit; [left|done|done].
  - intros st1 Hst1. rewrite Hst1. apply IH. rewrite <- Hst1. intros field values value Hin. apply Hfit. by right.
Qed.

Section scripts.
Context (c' : C).
(** The database waits at version [k] for the scripts that make [c'] of what it holds. *)
Definition pending (k : nat) (d : database C) : Prop :=
  schema k d ∧ upgrades (cd_script env) (drop k migrationFiles) (da_content d) c'.
Notation installed j := (λ d, ∃ k, (j ≤ k)%nat ∧ pending k d ∧ is_Some (da_registry d)).

Lemma entry_sure j name st :
  migrationFiles !! j = Some name → pending j (lc_db st) → is_Some (da_registry (lc_db st)) →
  succeeds (applyMigration env (Z.of_nat (S j)) name (cd_script env name)) st (installed (S j)).
Proof using Hworks.
  intros Hname [[Hbound Hav] Hup] [m Hm].
  assert (Hj : (j < 14)%nat) by (apply lookup_lt_Some in Hname; simpl in Hname; lia).
  rewrite (drop_S _ name j Hname) in Hup. inversion Hup as [|? ? ? c ? Hrun Hclean Hrest]; subst.
  destruct (applyMigration_sure (Z.of_nat (S j)) name (cd_script env name) st c Hrun Hclean) as (st' & now & Hst & Hdb).
  exists st'. split; [done|]. rewrite Hdb. exists (S j). split; [lia|].
  cbn [record_version with_content da_registry]. rewrite Hm in Hav |- *. split; [|by eexists].
  split; [|done]. split; [lia|]. cbn [da_registry record_version with_content]. rewrite Hm. intros v.
  rewrite lookup_insert_is_Some', Hav. lia.
Qed.
Lemma apply_entries_sure rest j st :
  rest = drop j migrationFiles → installed j (lc_db st) → succeeds (apply_entries env rest) st (installed (j + List.length rest)).
Proof using Hworks.
  revert j st. induction rest as [|name rest IH]; intros j st Hrest (k & Hk & Hat & Hreg); cbn [apply_entries].
  { exists st. split; [done|]. exists k. cbn [List.length]. split; [lia|done]. }
  assert (Hname : migrationFiles !! j = Some name) by (by rewrite <- (Nat.add_0_r j), <- lookup_drop, <- Hrest).
  rewrite (drop_S _ name j Hname) in Hrest. injection Hrest as Hrest.
  destruct (migration_names j name Hname) as [-> ->]. cbn [negb].
  destruct (Z.leb_spec (Z.of_nat (S j)) 0); [lia|].
  replace (j + List.length (name :: rest))%nat with (S j + List.length rest)%nat by (cbn [List.length]; lia).
  unfold succeeds. rewrite ST_bind_unfold. unfold lift. cbv beta iota.
  change (succeeds (applied ← map_err (Wrap ("check migration " +:+ format_int (Z.of_nat (S j)))) (query env (registered (Z.of_nat (S j))));
    _ ← (if applied : bool then mret tt else applyMigration env (Z.of_nat (S j)) name (cd_script env name));
    apply_entries env rest) st (installed (S j + List.length rest))).
  apply succeeds_query. intros st1 Hst1. apply (succeeds_bind _ _ _ (installed (S j))); [|intros st2 Hst2; by apply (IH (S j))].
  rewrite <- Hst1 in *. pose proof (proj2 (proj1 Hat)) as Hav. unfold registered. destruct Hreg as [m Hm]. rewrite Hm in Hav |- *.
  destruct (m !! Z.of_nat (S j)) as [x|] eqn:Hx.
  - exists st1. split; [done|]. exists k. split; [|by rewrite Hm].
    assert (Hin : is_Some (m !! Z.of_nat (S j))) by (rewrite Hx; by eexists). apply Hav in Hin. lia.
  - assert (k = j) as ->; [|by apply entry_sure; [| |rewrite Hm]].
    destruct (decide (S j ≤ k)%nat) as [Hle|]; [|lia]. destruct (Hav (Z.of_nat (S j))) as [_ [y Hy]]; [lia|congruence].
Qed.

(** The last version, with the content the remaining scripts made. *)
Definition finished (d : database C) : Prop := schema 14 d ∧ is_Some (da_registry d) ∧ da_content d = c'.
Lemma migrateUnlocked_sure k st :
  secrets_fit (da_content (lc_db st)) → pending k (lc_db st) → succeeds (migrateUnlocked env) st finished.
Proof using Hworks.
  intros Hfit Hat. unfold migrateUnlocked. eapply succeeds_bind; [by apply verification_sure|]. intros st1 Hst1.
  apply succeeds_query. intros st2 Hst2. apply (succeeds_bind _ _ _ (installed 0)).
  2: { intros st3 Hst3. rewrite migrations_sorted. destruct (apply_entries_sure migrationFiles 0 st3 eq_refl Hst3) as (st' & Hm & k' & Hk' & [Hs Hup] & Hr).
       exists st'. split; [done|]. pose proof (proj1 Hs). assert (k' = 14%nat) as -> by (cbn in Hk'; lia).
       split; [done|]. split; [done|]. by inversion Hup. }
  rewrite Hst1 in Hat. destruct (da_registry (lc_db st1)) as [m|] eqn:Hreg; cbn [is_some].
  - exists st2. split; [done|]. rewrite Hst2, Hreg. exists k. split; [lia|done].
  - destruct Hat as [[Hbound Hav] Hup]. rewrite Hreg in Hav. destruct Hav as [-> Htables].
    apply succeeds_query. intros st3 Hst3. rewrite Hst2, Htables. unfold succeeds. rewrite ST_bind_unfold.
    unfold st_reject, lift, map_err, statement. cbn [reject Z.ltb Z.compare]. rewrite call_sure. eexists. split; [reflexivity|].
    cbn [set_db lc_db]. rewrite Hst3, Hst2. exists 0%nat. split; [done|]. split; [|by eexists].
    split; [|done]. split; [done|]. cbn [create_registry da_registry]. intros v. split; [by intros [x Hx]|lia].
Qed.
Lemma Open_sure path k st :
  blank path = false → secrets_fit (da_content (lc_db st)) → pending k (lc_db st) →
  succeeds (Open env path) st (λ d, secrets_fit (da_content d) ∧ pending k d).
Proof using Hworks.
  intros Hpath Hfit Hat. unfold Open. rewrite Hpath. set (Q := λ d, secrets_fit (da_content d) ∧ pending k d).
  assert (Hunit : ∀ f st, Q (lc_db st) → succeeds (map_err f (call_unit env)) st Q) by (intros f st' Hq; by apply succeeds_same; [apply succeeds_unit|]).
  apply (succeeds_bind _ _ _ Q); [by eexists|intros st1 H1].
  apply (succeeds_bind _ _ _ Q); [by apply Hunit|intros st2 H2].
  apply (succeeds_bind _ _ _ Q); [|intros st3 H3].
  - unfold verifyExistingDatabaseKey, succeeds. rewrite ST_bind_unfold. unfold attempt, query. rewrite call_sure. cbn [lc_db].
    set (st2' := MkLifecycle _ _ _ _ _). destruct (da_file (lc_db st2)); [|by eexists].
    apply (succeeds_bind _ _ st2' Q); [by apply Hunit|]. intros st3 H3. apply succeeds_same; [by apply verification_sure, H3|done].
  - apply (succeeds_bind _ _ _ Q); [by apply Hunit|intros st4 H4].
    apply (succeeds_bind _ _ _ Q); [by apply Hunit|intros st5 H5].
    apply (succeeds_bind _ _ _ Q); [|intros st6 H6; by apply Hunit].
    unfold succeeds, map_err, statement. rewrite call_sure. eexists. split; [reflexivity|]. cbn [set_db lc_db].
    split; [by destruct H5|by apply H5].
Qed.
Lemma OpenMigrated_sure path k st :
  blank path = false → secrets_fit (da_content (lc_db st)) → pending k (lc_db st) → succeeds (OpenMigrated env path) st finished.
Proof using Hworks.
  intros Hpath Hfit Hat. set (Q := λ d, secrets_fit (da_content d) ∧ pending k d).
  assert (Hunit : ∀ f st, Q (lc_db st) → succeeds (map_err f (call_unit env)) st Q) by (intros f st' Hq; by apply succeeds_same; [apply succeeds_unit|]).
  unfold OpenMigrated. apply (succeeds_bind _ _ _ Q); [by apply Hunit|intros st1 H1].
  apply (succeeds_bind _ _ _ Q).
  - assert (Hacq : succeeds (Acquire env) st1 Q).
    { unfold Acquire, acquire. do 3 (apply (succeeds_bind _ _ _ Q); [by apply Hunit|intros ? ?]).
      unfold succeeds, map_err, flock. rewrite call_sure. by eexists. }
    destruct Hacq as (st' & Hacq & Hq). exists st'. unfold map_err. by rewrite Hacq.
  - intros st2 H2. assert (Hin : succeeds (_ ← Open env path; migrateUnlocked env) st2 finished).
    { eapply succeeds_bind; [by apply Open_sure; [|apply H2|apply H2]|]. intros st3 [Hf Hv]. by eapply migrateUnlocked_sure. }
    destruct Hin as (st3 & Hin & Hfin). unfold succeeds, locked. rewrite ST_bind_unfold. unfold attempt. rewrite Hin. by eexists.
Qed.
End scripts.
End undisturbed.
End steps.

(** ** The properties *)

Section properties.
Context {C : Type} `{SQLite C} `{AEAD}.

(** A process starts: its connections enforce foreign keys. *)
Definition begin (busy : bool) (d : database C) : lifecycle C := MkLifecycle d true false busy 0.
(** Starts of one installation after each other. *)
Fixpoint open_all (path : string) (busy : bool) (envs : list conditions) (d : database C) : database C :=
  match envs with [] => d | env :: rest => open_all path busy rest (lc_db (OpenMigrated env path (begin busy d)).1) end.

Lemma open_all_at path busy c0 script envs k d :
  Forall (λ env, cd_script env = script) envs → at_version c0 script k d → ∃ k', at_version c0 script k' (open_all path busy envs d).
Proof.
  revert k d. induction envs as [|env envs IH]; intros k d Henvs Hat; [by exists k|]. inversion Henvs as [|? ? Henv Hrest]; subst.
  cbn [open_all]. destruct (OpenMigrated_runs env c0 path k (begin busy d)) as [[(k' & _ & Hat') _] _]; [done|]. by eapply IH.
Qed.

(** C19: however often the starts of a new installation fail and wherever, the database is
    the empty one after the first so many scripts, each run once and in order; a further
    start only adds to them, always gives the lock back, and when it succeeds all fourteen
    have run, no foreign key is violated and the connection enforces them. *)
Theorem repeated_starts_migrate_once path busy (c0 : C) script envs :
  sql_tables c0 = 0 → Forall (λ env, cd_script env = script) envs →
  let d := open_all path busy envs (MkDatabase false None c0) in
  ∃ k, at_version c0 script k d ∧ ∀ env, cd_script env = script →
    let '(st, r) := OpenMigrated env path (begin busy d) in
    lc_locked st = false ∧ (∃ k', (k ≤ k')%nat ∧ at_version c0 script k' (lc_db st))
    ∧ (r = Ok tt → at_version c0 script 14 (lc_db st) ∧ sql_violation (da_content (lc_db st)) = None ∧ lc_enforcing st = true).
Proof.
  intros Htables Henvs d. destruct (open_all_at path busy c0 script envs 0 (MkDatabase false None c0) Henvs) as [k Hat].
  { split; [lia|done|done|by left]. }
  exists k. split; [done|]. intros env <-.
  destruct (OpenMigrated_runs env c0 path k (begin busy d)) as [[Hreached Hr] Hlock]; [done|].
  destruct (OpenMigrated env path (begin busy d)) as [st r]. cbn [fst snd] in *. split; [done|]. split; [done|].
  intros ->. destruct Hr as (k' & _ & Hk' & Hat' & _ & Hb). pose proof (av_bound _ _ _ _ Hat').
  assert (k' = 14%nat) as -> by lia. split; [done|]. split; [|done]. by destruct (av_clean _ _ _ _ Hat').
Qed.

(** C20: a start with a key that does not authenticate some stored secret fails and leaves
    every table and the version of the schema as they were, and when no call failed it
    fails because of the key. *)
Theorem wrong_key_changes_nothing env path (st : lifecycle C) :
  blank path = false → foreign_secret (da_content (lc_db st)) →
  let '(st', r) := OpenMigrated env path st in
  da_content (lc_db st') = da_content (lc_db st) ∧ da_registry (lc_db st') = da_registry (lc_db st)
  ∧ ∃ e, r = Err e ∧ ((∀ i, cd_failing env i = None) → e = Sentinel ErrKeyMismatch).
Proof.
  intros Hpath Hforeign.
  destruct (OpenMigrated_unchanged env _ (da_registry (lc_db st)) Hforeign path Hpath st) as [[[Hc Hreg] He] Hfails]; [done|].
  destruct (OpenMigrated env path st) as [st' [u|e]]; [done|]. cbn [fst snd] in *. split; [done|]. split; [done|].
  exists e. split; [done|]. intros Hw. destruct (He e eq_refl) as [|[i [x Hi]]]; [done|]. by rewrite Hw in Hi.
Qed.

(** C39: a start that no call disturbs, of a database at any version of the schema and with
    any rows in it, whose stored secrets the key fits and on whose rows the scripts not yet
    run do run and violate no foreign key, opens it at version 14 with exactly what those
    scripts make of its rows; a database already there keeps every row. *)
Theorem undisturbed_start_completes env path busy k d c' :
  (∀ i, cd_failing env i = None) → blank path = false → schema k d →
  upgrades (cd_script env) (drop k migrationFiles) (da_content d) c' → secrets_fit (da_content d) →
  let '(st, r) := OpenMigrated env path (begin busy d) in
  r = Ok tt ∧ da_content (lc_db st) = c' ∧ (k = 14%nat → da_content (lc_db st) = da_content d)
  ∧ ∃ registry, da_registry (lc_db st) = Some registry ∧ ∀ v, is_Some (registry !! v) ↔ 1 <= v <= 14.
Proof.
  intros Hworks Hpath Hs Hup Hfit.
  destruct (OpenMigrated_sure env Hworks c' path k (begin busy d) Hpath Hfit (conj Hs Hup)) as (st & -> & [_ Hav] & [registry Hr] & Hc).
  split; [done|]. split; [done|]. split.
  - intros ->. rewrite Hc. by inversion Hup.
  - exists registry. split; [done|]. by rewrite Hr in Hav.
Qed.
End properties.

(** ** Witnesses *)

(** A library whose tables remember the scripts that made them and the configurations of
    the sources; the script named [broken] does not run. *)
Definition plain_content : Type := list string * list string.
#[global] Instance plain_sqlite (broken : string) : SQLite plain_content := {
  sql_empty := ([], []); sql_tables c := Z.of_nat (List.length c.1);
  sql_column c table column := if String.eqb table "otp_sources" && String.eqb column "config_ciphertext" then Some (Some <$> c.2) else None;
  sql_script text c := if String.eqb text broken then Err (Errorf "no such table") else Ok (app c.1 [text], c.2);
  sql_violation _ := None }.
(** A cipher whose tag is its key. *)
Definition keyed_aead (key : string) : AEAD := {|
  aead_seal _ plaintext _ := key +:+ plaintext; aead_open _ ciphertext _ := cut_prefix key ciphertext |}.
Definition at_call (n : nat) : conditions :=
  MkConditions (λ i, if (i =? n)%nat then Some (Errorf "disk is full") else None) (λ _, 0) (λ name, name).
Definition undisturbed : conditions := MkConditions (λ _, None) (λ _, 0) (λ name, name).

(** One start stops in the fourth migration, the next one finishes. *)
Lemma repeated_starts_migrate_once_witness :
  ∃ k, @at_version plain_content (plain_sqlite "") ([], []) (λ name, name) k
         (@open_all plain_content (plain_sqlite "") (keyed_aead "A") "/data/lake.db" false [at_call 50; undisturbed] (MkDatabase false None ([], []))).
Proof.
  destruct (@repeated_starts_migrate_once plain_content (plain_sqlite "") (keyed_aead "A") "/data/lake.db" false ([], []) (λ name, name)
    [at_call 50; undisturbed] eq_refl ltac:(repeat constructor)) as (k & Hat & _).
  exists k. exact Hat.
Defined.
Example a_stopped_start_is_resumed :
  let d := @open_all plain_content (plain_sqlite "") (keyed_aead "A") "/data/lake.db" false [at_call 50] (MkDatabase false None ([], [])) in
  (da_content d).1 = take 3 migrationFiles
  ∧ (da_content (@open_all plain_content (plain_sqlite "") (keyed_aead "A") "/data/lake.db" false [undisturbed] d)).1 = migrationFiles.
Proof. by vm_compute. Qed.

Definition stored_with (key : string) : database plain_content :=
  MkDatabase true (Some ∅) ([], [@Encrypt (keyed_aead key) "0123456789ab" "secret"]).
Lemma wrong_key_changes_nothing_witness :
  (@OpenMigrated plain_content (plain_sqlite "") (keyed_aead "B") undisturbed "/data/lake.db" (begin false (stored_with "A"))).2
    = Err (Sentinel ErrKeyMismatch).
Proof.
  pose proof (@wrong_key_changes_nothing plain_content (plain_sqlite "") (keyed_aead "B") undisturbed "/data/lake.db" (begin false (stored_with "A"))
    eq_refl) as Hmain.
  assert (Hforeign : @foreign_secret plain_content (plain_sqlite "") (keyed_aead "B") (da_content (stored_with "A"))).
  { exists (MkField "otp_sources" "config_ciphertext" 8192 false), [Some (@Encrypt (keyed_aead "A") "0123456789ab" "secret")],
      (Some (@Encrypt (keyed_aead "A") "0123456789ab" "secret")).
    split; [left|]. split; [reflexivity|]. split; [left|]. vm_compute. reflexivity. }
  specialize (Hmain Hforeign). destruct (OpenMigrated _ _ _) as [st r]. destruct Hmain as (_ & _ & e & -> & He).
  cbn [snd]. rewrite He; [reflexivity|]. intros i. reflexivity.
Defined.

(** The registry of a database at version [n]. *)
Definition registry_of (n : nat) : gmap Z (string * Time) := list_to_map ((λ k, (Z.of_nat k, ("", 0))) <$> seq 1 n).
Lemma registry_of_schema `{SQLite C} n (c : C) file : (n ≤ 14)%nat → schema n (MkDatabase file (Some (registry_of n)) c).
Proof.
  intros Hn. split; [done|]. cbn [da_registry]. intros v. unfold registry_of. split.
  - intros [x Hx]. apply elem_of_list_to_map_2 in Hx. apply list_elem_of_fmap in Hx as (k & [= -> _] & Hk). apply elem_of_seq in Hk. lia.
  - intros Hv. destruct (_ !! v) eqn:Hx; [by eexists|]. exfalso. apply not_elem_of_list_to_map_2 in Hx. apply Hx.
    rewrite <- list_fmap_compose. apply list_elem_of_fmap. exists (Z.to_nat v). rewrite elem_of_seq. cbn. lia.
Qed.
(** An installation of an earlier release: twelve scripts have run, and a source is stored. *)
Definition older_release : database plain_content :=
  MkDatabase true (Some (registry_of 12)) (take 12 migrationFiles, [@Encrypt (keyed_aead "A") "0123456789ab" "secret"]).
Lemma undisturbed_start_completes_witness :
  let '(st, r) := @OpenMigrated plain_content (plain_sqlite "") (keyed_aead "A") undisturbed "/data/lake.db" (begin false older_release) in
  r = Ok tt ∧ da_content (lc_db st) = (migrationFiles, [@Encrypt (keyed_aead "A") "0123456789ab" "secret"]).
Proof.
  assert (Hup : @upgrades plain_content (plain_sqlite "") (cd_script undisturbed) (drop 12 migrationFiles) (da_content older_release)
    (migrationFiles, (da_content older_release).2)).
  { do 2 (eapply one_script; [vm_compute; reflexivity|reflexivity|]). apply nothing_left. }
  assert (Hfit : @secrets_fit plain_content (plain_sqlite "") (keyed_aead "A") (da_content older_release)).
  { intros field values value Hin Hcol Hv. cbn in Hcol. destruct (_ && _) eqn:Hf; [|done]. injection Hcol as <-.
    apply list_elem_of_singleton in Hv as ->. unfold encryptedFields in Hin.
    repeat (apply elem_of_cons in Hin as [->|Hin]); try (by apply elem_of_nil in Hin); try discriminate Hf; vm_compute; reflexivity. }
  pose proof (@undisturbed_start_completes plain_content (plain_sqlite "") (keyed_aead "A") undisturbed "/data/lake.db" false 12
    older_release _ ltac:(intros i; reflexivity) eq_refl (@registry_of_schema plain_content (plain_sqlite "") 12 _ true ltac:(lia)) Hup Hfit) as Hmain.
  destruct (OpenMigrated _ _ _) as [st r]. destruct Hmain as (Hr & Hc & _). split; [exact Hr|exact Hc].
Defined.
