(* ===== verification/JobStore.v ===== *)
(** * The job store (src/internal/store: jobs, job_queue, job_decisions, bookings,
    booking_snapshots)

    Enqueueing, claiming, transitions, cancellation, recovery, expiry, retention and
    the approval decisions, one definition per operation.  The clock readings an
    operation makes are its arguments. *)

From S2P Require Import Prelude GoStrings GoTime Origin Domain Database.
From Stdlib Require Import Ascii String.

Open Scope Z_scope.

(** ** Reading jobs *)

Definition scan_job (o : option Job) : result Job := of_option (Sentinel ErrNotFound) o.

(** [WHERE id = ? AND user_id = ?] *)
Definition owned_job (userID id : Z) (s : db) : option Job :=
  j ← jobs s !! id; if JUserID j =? userID then Some j else None.

Definition SystemGetJob (id : Z) : ST db Job :=
  o ← gets (λ s, jobs s !! id); lift (scan_job o).

Definition GetJob (userID id : Z) : ST db Job :=
  _ ← st_reject (userID <=? 0) (Sentinel ErrUserRequired);
  o ← gets (owned_job userID id); lift (scan_job o).

(** [LIMIT]: an out-of-range limit is replaced by the default. *)
Definition list_limit (limit maximum default_ : Z) : nat :=
  Z.to_nat (if (limit <=? 0) || (maximum <? limit) then default_ else limit).

(** [ORDER BY id DESC LIMIT ?] *)
Definition newest_jobs (p : Job → bool) (limit : Z) (s : db) : list Job :=
  take (list_limit limit 500 100) (rev (select p (jobs s)).*2).

Definition ListJobs (userID limit : Z) : ST db (list Job) :=
  _ ← st_reject (userID <=? 0) (Sentinel ErrUserRequired);
  gets (newest_jobs (λ j, JUserID j =? userID) limit).
Definition SystemListJobs (limit : Z) : ST db (list Job) := gets (newest_jobs (λ _, true) limit).

(** [ORDER BY due_at, id] *)
Definition due_first (a b : Job) : bool :=
  (JDueAt a <? JDueAt b) || ((JDueAt a =? JDueAt b) && (JID a <=? JID b)).
Definition ListPendingBookingJobs (userID : Z) : ST db (list Job) :=
  _ ← st_reject (userID <=? 0) (Sentinel ErrUserRequired);
  gets (λ s, sort_by due_first
    (select (λ j, (JUserID j =? userID) && bool_decide (JCommand j = CommandBook)
                  && is_pending (JStatus j)) (jobs s)).*2).

(** ** Job rows: the columns an UPDATE assigns *)

Definition with_status (st : JobStatus) (j : Job) : Job :=
  MkJob (JID j) (JUserID j) (JBookingRequestID j) (JProfileID j) (JOTPSourceID j) (JCommand j)
    (JRunMode j) (JRunImmediately j) st (JDueAt j) (JExpiresAt j) (JDedupKey j) (JWorkerOwner j)
    (JCancelRequested j) (JMessage j) (JExitCode j) (JConfirmationStartedAt j) (JCreatedAt j)
    (JUpdatedAt j) (JStartedAt j) (JFinishedAt j).
Definition with_message (m : string) (j : Job) : Job :=
  MkJob (JID j) (JUserID j) (JBookingRequestID j) (JProfileID j) (JOTPSourceID j) (JCommand j)
    (JRunMode j) (JRunImmediately j) (JStatus j) (JDueAt j) (JExpiresAt j) (JDedupKey j) (JWorkerOwner j)
    (JCancelRequested j) m (JExitCode j) (JConfirmationStartedAt j) (JCreatedAt j)
    (JUpdatedAt j) (JStartedAt j) (JFinishedAt j).
Definition with_worker (w : string) (j : Job) : Job :=
  MkJob (JID j) (JUserID j) (JBookingRequestID j) (JProfileID j) (JOTPSourceID j) (JCommand j)
    (JRunMode j) (JRunImmediately j) (JStatus j) (JDueAt j) (JExpiresAt j) (JDedupKey j) w
    (JCancelRequested j) (JMessage j) (JExitCode j) (JConfirmationStartedAt j) (JCreatedAt j)
    (JUpdatedAt j) (JStartedAt j) (JFinishedAt j).
Definition with_cancel_requested (j : Job) : Job :=
  MkJob (JID j) (JUserID j) (JBookingRequestID j) (JProfileID j) (JOTPSourceID j) (JCommand j)
    (JRunMode j) (JRunImmediately j) (JStatus j) (JDueAt j) (JExpiresAt j) (JDedupKey j) (JWorkerOwner j)
    true (JMessage j) (JExitCode j) (JConfirmationStartedAt j) (JCreatedAt j)
    (JUpdatedAt j) (JStartedAt j) (JFinishedAt j).
Definition with_exit_code (c : option Z) (j : Job) : Job :=
  MkJob (JID j) (JUserID j) (JBookingRequestID j) (JProfileID j) (JOTPSourceID j) (JCommand j)
    (JRunMode j) (JRunImmediately j) (JStatus j) (JDueAt j) (JExpiresAt j) (JDedupKey j) (JWorkerOwner j)
    (JCancelRequested j) (JMessage j) c (JConfirmationStartedAt j) (JCreatedAt j)
    (JUpdatedAt j) (JStartedAt j) (JFinishedAt j).
Definition with_confirmation (c : option Time) (j : Job) : Job :=
  MkJob (JID j) (JUserID j) (JBookingRequestID j) (JProfileID j) (JOTPSourceID j) (JCommand j)
    (JRunMode j) (JRunImmediately j) (JStatus j) (JDueAt j) (JExpiresAt j) (JDedupKey j) (JWorkerOwner j)
    (JCancelRequested j) (JMessage j) (JExitCode j) c (JCreatedAt j)
    (JUpdatedAt j) (JStartedAt j) (JFinishedAt j).
Definition with_updated (t : Time) (j : Job) : Job :=
  MkJob (JID j) (JUserID j) (JBookingRequestID j) (JProfileID j) (JOTPSourceID j) (JCommand j)
    (JRunMode j) (JRunImmediately j) (JStatus j) (JDueAt j) (JExpiresAt j) (JDedupKey j) (JWorkerOwner j)
    (JCancelRequested j) (JMessage j) (JExitCode j) (JConfirmationStartedAt j) (JCreatedAt j)
    t (JStartedAt j) (JFinishedAt j).
Definition with_started (t : option Time) (j : Job) : Job :=
  MkJob (JID j) (JUserID j) (JBookingRequestID j) (JProfileID j) (JOTPSourceID j) (JCommand j)
    (JRunMode j) (JRunImmediately j) (JStatus j) (JDueAt j) (JExpiresAt j) (JDedupKey j) (JWorkerOwner j)
    (JCancelRequested j) (JMessage j) (JExitCode j) (JConfirmationStartedAt j) (JCreatedAt j)
    (JUpdatedAt j) t (JFinishedAt j).
Definition with_finished (t : option Time) (j : Job) : Job :=
  MkJob (JID j) (JUserID j) (JBookingRequestID j) (JProfileID j) (JOTPSourceID j) (JCommand j)
    (JRunMode j) (JRunImmediately j) (JStatus j) (JDueAt j) (JExpiresAt j) (JDedupKey j) (JWorkerOwner j)
    (JCancelRequested j) (JMessage j) (JExitCode j) (JConfirmationStartedAt j) (JCreatedAt j)
    (JUpdatedAt j) (JStartedAt j) t.

(** [COALESCE(column, ?)] *)
Definition coalesce {A} (o : option A) (d : A) : option A :=
  match o with Some _ => o | None => Some d end.

(** [EXISTS (SELECT 1 FROM users WHERE id = ? AND status = 'active')] *)
Definition user_active (uid : Z) (s : db) : bool :=
  match users s !! uid with
  | Some u => bool_decide (UStatus (ur_user u) = UserActive) | None => false end.

(** ** Transitions *)

Record JobTransition := MkTransition {
  JT_Message : string;
  JT_ExitCode : option Z;
  JT_ConfirmationStarted : bool
}.

Definition unknown_message : string :=
  "The action ended after final confirmation may have started; booking outcome is unknown.".
Definition revoked_message : string :=
  "Cancelled because cancellation was requested or the account was disabled.".

(** The CASE a terminal transition resolves in the same write: once confirmation may
    have started only success stands, everything else is unknown; before it, a
    committed cancellation or an inactive account wins. *)
Inductive resolution := ResolveUnknown | ResolveCancelled | ResolveAsAsked.
#[global] Instance resolution_eq_dec : EqDecision resolution.
Proof. solve_decision. Defined.
Definition resolve (to : JobStatus) (starting active : bool) (j : Job) : resolution :=
  if (is_some (JConfirmationStartedAt j) || starting) && negb (bool_decide (to = JobSucceeded))
  then ResolveUnknown
  else if negb (is_some (JConfirmationStartedAt j)) && negb starting && (JCancelRequested j || negb active)
  then ResolveCancelled
  else ResolveAsAsked.

Definition resolved_status (to : JobStatus) (r : resolution) : JobStatus :=
  match r with
  | ResolveUnknown => JobOutcomeUnknown | ResolveCancelled => JobCancelled | ResolveAsAsked => to
  end.

(** The SET clause of [SystemTransitionJob]; [message] is already sanitised. *)
Definition transition_row (to : JobStatus) (upd : JobTransition) (message : string) (now : Time)
    (active : bool) (j : Job) : Job :=
  let r := resolve to (JT_ConfirmationStarted upd) active j in
  let j1 :=
    if Terminal to then
      with_exit_code (match r with ResolveAsAsked => JT_ExitCode upd | _ => None end)
        (with_message (match r with
                       | ResolveUnknown => unknown_message | ResolveCancelled => revoked_message
                       | ResolveAsAsked => message end)
          (with_status (resolved_status to r) j))
    else with_exit_code (JT_ExitCode upd) (with_message message (with_status to j)) in
  let j2 := with_updated now j1 in
  let j3 := if JT_ConfirmationStarted upd
            then with_confirmation (coalesce (JConfirmationStartedAt j) now) j2 else j2 in
  let j4 := if bool_decide (to = JobRunning) then with_started (coalesce (JStartedAt j) now) j3 else j3 in
  if Terminal to then with_worker "" (with_finished (Some now) j4) else j4.

(** The WHERE clause. *)
Definition transition_where (expected : list JobStatus) (to : JobStatus) (active : bool) (j : Job) : bool :=
  bool_decide (JStatus j ∈ expected)
  && (negb (bool_decide (to = JobRunning) || bool_decide (to = JobAwaitingApproval))
      || (negb (JCancelRequested j) && active)).

Section Redaction.
(** The text sanitiser of the events file, applied to every job message. *)
Context (sanitizeText : string → string).

Definition truncate (s : string) (maximum : nat) : string := substring 0 maximum s.

Definition SystemTransitionJob (id : Z) (expected : list JobStatus) (to : JobStatus)
    (upd : JobTransition) (now : Time) : ST db Job :=
  _ ← st_reject (is_nil expected || negb (JobStatus_Valid to))
        (Errorf "expected states and a valid destination state are required");
  _ ← st_reject (negb (forallb (λ from, JobStatus_Valid from && CanTransition from to) expected))
        (Errorf "invalid job transition");
  current ← SystemGetJob id;
  _ ← st_reject (bool_decide (to = JobOutcomeUnknown) && negb (is_some (JConfirmationStartedAt current))
                 && negb (JT_ConfirmationStarted upd))
        (Errorf "outcome_unknown requires final confirmation to have started");
  let message := truncate (sanitizeText (JT_Message upd)) 1000 in
  active ← gets (user_active (JUserID current));
  o ← map_err (Wrap "transition job")
        (update_job id (transition_where expected to active)
           (transition_row to upd message now active) true);
  match o with
  | None => fail (Sentinel ErrTransitionConflict)
  | Some _ => SystemGetJob id
  end.
End Redaction.

Definition SystemMarkConfirmationStarted (id : Z) (now : Time) : ST db unit :=
  owner ← gets (λ s, match jobs s !! id with Some j => user_active (JUserID j) s | None => false end);
  o ← map_err (Wrap "mark final confirmation")
        (update_job id (λ j, is_active (JStatus j) && negb (JCancelRequested j) && owner)
           (λ j, with_updated now (with_confirmation (coalesce (JConfirmationStartedAt j) now) j)) false);
  st_reject (negb (is_some o)) (Sentinel ErrTransitionConflict).

(** ** Cancellation *)

Definition cancel_row (queued_message : string) (now : Time) (j : Job) : Job :=
  let queued := bool_decide (JStatus j = JobQueued) in
  with_updated now
    (with_finished (if queued then Some now else JFinishedAt j)
      (with_message (if queued then queued_message else JMessage j)
        (with_status (if queued then JobCancelled else JStatus j) (with_cancel_requested j)))).

(** [actorUserID = 0] is the system call, without the owner predicate. *)
Definition owner_matches (actorUserID : Z) (j : Job) : bool :=
  negb (0 <? actorUserID) || (JUserID j =? actorUserID).

Definition requestJobCancellation (actorUserID id : Z) (now : Time) : ST db unit :=
  o ← map_err (Wrap "request job cancellation")
        (update_job id
           (λ j, owner_matches actorUserID j
                 && (is_pending (JStatus j) || bool_decide (JStatus j = JobCancelled)))
           (cancel_row "Cancelled before execution." now) true);
  match o with
  | Some _ => mret tt
  | None =>
      exists_ ← gets (λ s, match jobs s !! id with Some j => owner_matches actorUserID j | None => false end);
      fail (Sentinel (if exists_ : bool then ErrTransitionConflict else ErrNotFound))
  end.
Definition RequestJobCancellation (userID id : Z) (now : Time) : ST db unit :=
  _ ← st_reject (userID <=? 0) (Sentinel ErrUserRequired);
  requestJobCancellation userID id now.
Definition SystemRequestJobCancellation (id : Z) (now : Time) : ST db unit :=
  requestJobCancellation 0 id now.

(** [jobs.cancel_requested OR users.status <> 'active'], joined on the owner. *)
Definition SystemJobCancellationRequested (id : Z) : ST db bool :=
  o ← gets (λ s, j ← jobs s !! id;
                 match users s !! JUserID j with
                 | Some u => Some (JCancelRequested j || negb (bool_decide (UStatus (ur_user u) = UserActive)))
                 | None => None
                 end);
  lift (of_option (Sentinel ErrNotFound) o).

(** ** Recovery, expiry and retention *)

Definition recover_row (now : Time) (j : Job) : Job :=
  let confirmed := is_some (JConfirmationStartedAt j) in
  with_updated now (with_finished (Some now) (with_worker ""
    (with_message (if confirmed
                   then "Control plane restarted after final confirmation began; outcome requires review."
                   else "Interrupted by control-plane restart.")
      (with_status (if confirmed then JobOutcomeUnknown else JobInterrupted) j)))).
Definition SystemRecoverInterruptedJobs (now : Time) : ST db Z :=
  map_err (Wrap "recover interrupted jobs")
    (update_jobs (λ j, is_active (JStatus j)) (recover_row now) true).

Definition expire_row (now : Time) (j : Job) : Job :=
  with_updated now (with_finished (Some now) (with_worker ""
    (with_message "The booking window expired before this job could start." (with_status JobFailed j)))).
Definition stale (now : Time) (j : Job) : bool :=
  bool_decide (JStatus j = JobQueued)
  && match JExpiresAt j with Some e => e <=? now | None => false end.
Definition SystemExpireStaleJobs (now : Time) : ST db Z :=
  map_err (Wrap "expire stale jobs") (update_jobs (stale now) (expire_row now) true).

(** The ids beyond the newest 128 prunable rows of each account; [userID = 0] means
    every account. *)
Definition history_tail (now : Time) (s : db) (uid : Z) : list Z :=
  drop MaxTerminalJobHistoryPerUser
    (sort_by newest_first (select (λ j, prunable now j && (JUserID j =? uid)) (jobs s))).*1.
Definition job_owners (s : db) : list Z := remove_dups (JUserID <$> (rows (jobs s)).*2).
Definition pruned_ids (userID : Z) (now : Time) (s : db) : list Z :=
  if userID =? 0 then mjoin (history_tail now s <$> job_owners s) else history_tail now s userID.
Definition pruneJobHistory (userID : Z) (now : Time) : ST db Z :=
  ids ← gets (pruned_ids userID now);
  _ ← modify (delete_jobs ids);
  mret (Z.of_nat (List.length ids)).

(** [date(?, '-1 day')] of a UTC timestamp. *)
Definition day_before (now : Time) : string := FormatDateOnly UTC (now - 24 * Hour).
Definition expired_guard (now : Time) (kv : (Z * string) * option Z) : bool :=
  negb (is_some kv.2) && String.ltb kv.1.2 (day_before now).
Definition SystemPruneTerminalJobs (now : Time) : ST db Z :=
  _ ← modify (set_reservations (filter (λ kv, expired_guard now kv = false)));
  pruneJobHistory 0 now.

(** ** Enqueueing *)

Record EnqueueJobParams := MkEnqueue {
  EBookingRequestID : option Z;
  EProfileID : Z;
  EOTPSourceID : Z;
  EDeduplicateProfileSignIn : bool;
  ECommand : JobCommand;
  ERunMode : RunMode;
  ERunImmediately : bool;
  EDueAt : Time;
  EExpiresAt : option Time;
  EDedupKey : string
}.

Definition with_mode_and_due (mode : RunMode) (due : Time) (p : EnqueueJobParams) : EnqueueJobParams :=
  MkEnqueue (EBookingRequestID p) (EProfileID p) (EOTPSourceID p) (EDeduplicateProfileSignIn p)
    (ECommand p) mode (ERunImmediately p) due (EExpiresAt p) (EDedupKey p).

(** The checks that read no table: the command decides the run mode, an omitted due
    time is the first clock reading, an immediate run is due now and unexpired. *)
Definition admit_params (clk : nat → Time) (p : EnqueueJobParams) : result EnqueueJobParams :=
  _ ← reject ((EOTPSourceID p <? 0)
              || (negb (EOTPSourceID p =? 0) && negb (bool_decide (ECommand p = CommandAuthCheck))))
        (Errorf "an explicit OTP source is only supported for sign-in checks");
  _ ← reject (negb (JobCommand_Valid (ECommand p)))
        (Errorf ("invalid job command " +:+ quoted (JobCommand_string (ECommand p))));
  mode ← (match ECommand p with
          | CommandAuthCheck => Ok RunModeManual
          | CommandDryRun => Ok RunModeDryRun
          | _ => if negb (bool_decide (ERunMode p = RunModeManual)) && negb (bool_decide (ERunMode p = RunModeAuto))
                 then Err (Errorf "book run mode must be manual or auto") else Ok (ERunMode p)
          end);
  _ ← reject (negb (RunMode_Valid mode)) (Errorf ("invalid run mode " +:+ quoted (RunMode_string mode)));
  _ ← reject (negb (bool_decide (ECommand p = CommandAuthCheck)) && negb (is_some (EBookingRequestID p)))
        (Errorf "dry-run and book jobs require a booking request");
  let due := if IsZero (EDueAt p) then clk 0%nat else EDueAt p in
  _ ← reject (match EExpiresAt p with Some e => negb (After e due) | None => false end)
        (Errorf "job expiry must be after its due time");
  _ ← immediate_run_ok (ERunImmediately p) (ECommand p) mode due (EExpiresAt p);
  _ ← reject (ERunImmediately p
              && (After due (clk 1%nat)
                  || match EExpiresAt p with Some e => negb (After e (clk 1%nat)) | None => true end))
        (Errorf "immediate booking must be due now with an unexpired deadline");
  Ok (with_mode_and_due mode due p).

(** The account and profile of the job, from the booking request and the profile. *)
Definition resolve_profile (actorUserID : Z) (p : EnqueueJobParams) (s : db) : result (Z * Z * Z) :=
  booked ←
    (match EBookingRequestID p with
     | None => Ok (EProfileID p, 0)
     | Some bid =>
         match bookings s !! bid with
         | None => Err (Sentinel ErrNotFound)
         | Some b =>
             if (0 <? actorUserID) && negb (BUserID b =? actorUserID) then Err (Sentinel ErrNotFound)
             else if negb (BEnabled b) then Err (Errorf "booking request is disabled")
             else if negb (EProfileID p =? 0) && negb (EProfileID p =? BProfileID b)
             then Err (Errorf "booking request does not belong to the selected profile")
             else Ok (BProfileID b, BUserID b)
         end
     end);
  let profileID := booked.1 in
  let jobUserID := booked.2 in
  _ ← reject (profileID <=? 0) (Errorf "profile is required");
  match profiles s !! profileID with
  | Some row =>
      if PEnabled (pr_profile row)
         && (negb (0 <? actorUserID) || (PUserID (pr_profile row) =? actorUserID))
      then
        _ ← reject (negb (jobUserID =? 0) && negb (jobUserID =? PUserID (pr_profile row)))
              (Wrap "booking request and profile owners differ" (Sentinel ErrConflict));
        Ok (profileID, PUserID (pr_profile row), POTPSourceID (pr_profile row))
      else Err (if 0 <? actorUserID then Sentinel ErrNotFound
                else Errorf "profile does not exist or is disabled")
  | None => Err (if 0 <? actorUserID then Sentinel ErrNotFound
                 else Errorf "profile does not exist or is disabled")
  end.

(** The pending profile-only sign-in that deduplication looks for. *)
Definition pending_sign_in (profileID userID : Z) (j : Job) : bool :=
  (JProfileID j =? profileID) && (JUserID j =? userID) && negb (is_some (JBookingRequestID j))
  && bool_decide (JCommand j = CommandAuthCheck) && is_pending (JStatus j).

(** The one-time-code source: an explicit one, the account's default, the profile's. *)
Definition resolve_source (p : EnqueueJobParams) (userID profileSource : Z) (s : db) : result Z :=
  let sourceID :=
    if negb (EOTPSourceID p =? 0) then EOTPSourceID p
    else match otp_preferences s !! userID with Some d => d | None => profileSource end in
  match sources s !! sourceID with
  | Some row => if OSUserID (sr_source row) =? userID then Ok sourceID else Err (Sentinel ErrNotFound)
  | None => Err (Sentinel ErrNotFound)
  end.

Definition new_job (userID profileID sourceID : Z) (p : EnqueueJobParams) (now : Time) (id : Z) : Job :=
  MkJob id userID (EBookingRequestID p) profileID sourceID (ECommand p) (ERunMode p) (ERunImmediately p)
    JobQueued (EDueAt p) (EExpiresAt p) (trim_space (EDedupKey p)) "" false "" None None now now None None.

Definition pending_count (userID : Z) (s : db) : Z :=
  count_jobs (λ j, (JUserID j =? userID) && is_pending (JStatus j)) s.
Definition retained_count (userID : Z) (s : db) : Z := count_jobs (λ j, JUserID j =? userID) s.

Definition enqueueJobTx (actorUserID : Z) (params : EnqueueJobParams) (clk : nat → Time) : ST db Job :=
  p ← lift (admit_params clk params);
  r ← gets (resolve_profile actorUserID p);
  owner ← lift r;
  let '(profileID, userID, profileSource) := (owner.1.1, owner.1.2, owner.2) in
  _ ← st_reject (EDeduplicateProfileSignIn p
                 && (negb (bool_decide (ECommand p = CommandAuthCheck)) || is_some (EBookingRequestID p)))
        (Errorf "sign-in deduplication requires a profile-only auth check");
  pending ← gets (λ s, exists_row (pending_sign_in profileID userID) (jobs s));
  _ ← st_reject (EDeduplicateProfileSignIn p && pending)
        (Wrap "this sign-in already has a pending job" (Sentinel ErrConflict));
  src ← gets (resolve_source p userID profileSource);
  sourceID ← lift src;
  let now := clk 2%nat in
  _ ← pruneJobHistory userID now;
  admitted ← gets (λ s, user_active userID s && (pending_count userID s <? MaxPendingJobsPerUser)
                        && (retained_count userID s <? MaxRetainedJobsPerUser));
  if admitted : bool then
    id ← map_err mapWriteError (insert_job (new_job userID profileID sourceID p now));
    SystemGetJob id
  else
    active ← gets (user_active userID);
    _ ← st_reject (negb active) (Sentinel ErrNotFound);
    retained ← gets (retained_count userID);
    _ ← st_reject (MaxRetainedJobsPerUser <=? retained)
          (Wrap "retained job history limit reached" (Sentinel ErrResourceLimit));
    fail (Wrap "pending job limit reached" (Sentinel ErrResourceLimit)).

Definition enqueueJob (actorUserID : Z) (params : EnqueueJobParams) (clk : nat → Time) : ST db Job :=
  atomically (enqueueJobTx actorUserID params clk).
Definition EnqueueJob (userID : Z) (params : EnqueueJobParams) (clk : nat → Time) : ST db Job :=
  _ ← st_reject (userID <=? 0) (Sentinel ErrUserRequired);
  enqueueJob userID params clk.
Definition SystemEnqueueJob (params : EnqueueJobParams) (clk : nat → Time) : ST db Job :=
  enqueueJob 0 params clk.

(** ** Claiming *)

(** Another job is running with the candidate's profile or source. *)
Definition lane_busy (c : Job) (s : db) : bool :=
  exists_row (λ a, is_active (JStatus a)
                   && ((JProfileID a =? JProfileID c) || (JOTPSourceID a =? JOTPSourceID c))) (jobs s).
Definition holds_reservation (c : Job) (s : db) : bool :=
  existsb (λ kv : (Z * string) * option Z,
             bool_decide (kv.2 = Some (JID c)) && (kv.1.1 =? JProfileID c)) (map_to_list (reservations s)).

Definition claimable (now : Time) (s : db) (c : Job) : bool :=
  bool_decide (JStatus c = JobQueued) && negb (JCancelRequested c) && (JDueAt c <=? now)
  && match JExpiresAt c with Some e => now <? e | None => true end
  && user_active (JUserID c) s
  && match profiles s !! JProfileID c with
     | Some p => (PUserID (pr_profile p) =? JUserID c) && PEnabled (pr_profile p) | None => false end
  && match sources s !! JOTPSourceID c with
     | Some o => OSUserID (sr_source o) =? JUserID c | None => false end
  && (negb (bool_decide (JCommand c = CommandBook)) || holds_reservation c s)
  && match JBookingRequestID c with
     | None => true
     | Some bid => match bookings s !! bid with
                   | Some b => BEnabled b && (BProfileID b =? JProfileID c) | None => false end
     end
  && negb (lane_busy c s).

(** The candidate of the common table expression: [ORDER BY due_at, id LIMIT 1]. *)
Definition next_candidate (now : Time) (s : db) : option Job :=
  head (sort_by due_first (select (claimable now s) (jobs s)).*2).

Definition claim_row (worker : string) (now : Time) (j : Job) : Job :=
  with_updated now (with_started (coalesce (JStartedAt j) now)
    (with_worker worker (with_status JobRunning j))).

(** Expiring stale jobs is a statement of its own: it stays when nothing is due. *)
Definition SystemClaimNextDueJobAt (workerOwner : string) (now : Time) : ST db Job :=
  let worker := trim_space workerOwner in
  _ ← st_reject (String.eqb worker "") (Errorf "job worker owner is required");
  _ ← SystemExpireStaleJobs now;
  candidate ← gets (next_candidate now);
  match candidate with
  | None => fail (Sentinel ErrNotFound)
  | Some c =>
      o ← map_err (Wrap "scan job")
            (update_job (JID c) (λ j, bool_decide (JStatus j = JobQueued)) (claim_row worker now) true);
      lift (scan_job o)
  end.

(** ** Approval decisions *)

Definition GetJobDecision (userID jobID : Z) : ST db JobDecision :=
  _ ← st_reject (userID <=? 0) (Sentinel ErrUserRequired);
  o ← gets (λ s, d ← decisions s !! jobID; if DUserID d =? userID then Some d else None);
  lift (of_option (Sentinel ErrNotFound) o).

(** [INSERT INTO job_decisions ... SELECT ... ON CONFLICT(job_id) DO NOTHING] *)
Definition insert_decision (userID jobID : Z) (decision : ApprovalDecision) (now : Time) (s : db) : db :=
  match jobs s !! jobID with
  | Some j =>
      if (JUserID j =? userID) && user_active (JUserID j) s
         && bool_decide (JStatus j = JobAwaitingApproval) && negb (is_some (decisions s !! jobID))
      then set_decisions (<[jobID := MkJobDecision jobID (JUserID j) decision now]>) s
      else s
  | None => s
  end.

Definition RecordJobDecision (userID jobID : Z) (decision : ApprovalDecision) (now : Time) : ST db JobDecision :=
  _ ← st_reject (userID <=? 0) (Sentinel ErrUserRequired);
  _ ← st_reject (negb (ApprovalDecision_Valid decision)) (Errorf "invalid job decision");
  _ ← modify (insert_decision userID jobID decision now);
  recorded ← gets (λ s, (GetJobDecision userID jobID s).2);
  match recorded with
  | Ok d => if bool_decide (DDecision d = decision) then mret d else fail (Sentinel ErrDecisionConflict)
  | Err e =>
      if negb (errors_is e ErrNotFound) then fail e
      else
        o ← gets (owned_job userID jobID);
        fail (Sentinel (if is_some o then ErrTransitionConflict else ErrNotFound))
  end.

(** ** Booking requests *)

Definition GetProfile (userID id : Z) : ST db Profile :=
  _ ← st_reject (userID <=? 0) (Sentinel ErrUserRequired);
  o ← gets (λ s, r ← profiles s !! id;
                 if PUserID (pr_profile r) =? userID then Some (pr_profile r) else None);
  lift (of_option (Sentinel ErrNotFound) o).

Definition GetBookingRequest (userID id : Z) : ST db BookingRequest :=
  _ ← st_reject (userID <=? 0) (Sentinel ErrUserRequired);
  o ← gets (λ s, b ← bookings s !! id; if BUserID b =? userID then Some b else None);
  lift (of_option (Sentinel ErrNotFound) o).
Definition SystemGetBookingRequest (id : Z) : ST db BookingRequest :=
  o ← gets (λ s, bookings s !! id); lift (of_option (Sentinel ErrNotFound) o).
(** [ORDER BY name, id] *)
Definition by_name {A} (name : A → string) (id : A → Z) (a b : A) : bool :=
  String.ltb (name a) (name b) || (String.eqb (name a) (name b) && (id a <=? id b)).
Definition ListBookingRequests (userID : Z) : ST db (list BookingRequest) :=
  _ ← st_reject (userID <=? 0) (Sentinel ErrUserRequired);
  gets (λ s, sort_by (by_name BName BID) (select (λ b, BUserID b =? userID) (bookings s)).*2).

Definition normalizeBooking (r : BookingRequest) : BookingRequest :=
  let passes := PassOrder r in
  MkBooking (BID r) (BUserID r) (trim_space (BName r)) (BKind r) (EffectiveLakeID r) (BProfileID r)
    (trim_space (BVehicleKeyword r)) (BEnabled r) (BScheduleEnabled r) (trim_space (BTargetDate r))
    (trim_space (BTimezone r)) (trim_space (BReleaseTime r))
    (* the days are read after the lake id is filled in *)
    (Some (match BReleaseDaysBefore r with
           | Some days => days | None => LakeReleaseDaysBefore (Resolve_value (EffectiveLakeID r)) end))
    (BPrepMinutesBefore r) (BAuthDeadlineMinutesBefore r) (BPollDeadlineSeconds r)
    (BPollMinSeconds r) (BPollMaxSeconds r) (BConfirmationMode r) (trim_space (BLoginProbeURL r))
    (trim_space (BAllDayPassURL r)) (trim_space (BHalfDayPassURL r)) (Some passes)
    (bool_decide (PassAllDay ∈ passes)) (bool_decide (PassAfternoon ∈ passes))
    (bool_decide (PassMorning ∈ passes)) (BCreatedAt r) (BUpdatedAt r).

Definition bookingProfile (userID : Z) (r : BookingRequest) : ST db Profile :=
  profile ← GetProfile userID (BProfileID r);
  lake ← lift (Resolve (BLakeID r));
  _ ← st_reject (negb (String.eqb (EffectiveProviderID profile) (ProviderID lake)))
        (Wrap "choose a sign-in for the selected lake's booking provider" (Sentinel ErrConflict));
  mret profile.

Definition with_user (uid : Z) (r : BookingRequest) : BookingRequest :=
  MkBooking (BID r) uid (BName r) (BKind r) (BLakeID r) (BProfileID r) (BVehicleKeyword r) (BEnabled r)
    (BScheduleEnabled r) (BTargetDate r) (BTimezone r) (BReleaseTime r) (BReleaseDaysBefore r)
    (BPrepMinutesBefore r) (BAuthDeadlineMinutesBefore r) (BPollDeadlineSeconds r) (BPollMinSeconds r)
    (BPollMaxSeconds r) (BConfirmationMode r) (BLoginProbeURL r) (BAllDayPassURL r) (BHalfDayPassURL r)
    (BPreferredPasses r) (BCheckAllDay r) (BCheckAfternoon r) (BCheckMorning r) (BCreatedAt r) (BUpdatedAt r).
Definition as_snapshot (r : BookingRequest) : BookingRequest :=
  MkBooking 0 (BUserID r) (BName r) BookingKindSnapshot (BLakeID r) (BProfileID r) (BVehicleKeyword r) true false
    (BTargetDate r) (BTimezone r) (BReleaseTime r) (BReleaseDaysBefore r) (BPrepMinutesBefore r)
    (BAuthDeadlineMinutesBefore r) (BPollDeadlineSeconds r) (BPollMinSeconds r) (BPollMaxSeconds r)
    (BConfirmationMode r) (BLoginProbeURL r) (BAllDayPassURL r) (BHalfDayPassURL r) (BPreferredPasses r)
    (BCheckAllDay r) (BCheckAfternoon r) (BCheckMorning r) (BCreatedAt r) (BUpdatedAt r).
Definition with_vehicle_and_login (vehicle login : string) (r : BookingRequest) : BookingRequest :=
  MkBooking (BID r) (BUserID r) (BName r) (BKind r) (BLakeID r) (BProfileID r) vehicle (BEnabled r)
    (BScheduleEnabled r) (BTargetDate r) (BTimezone r) (BReleaseTime r) (BReleaseDaysBefore r)
    (BPrepMinutesBefore r) (BAuthDeadlineMinutesBefore r) (BPollDeadlineSeconds r) (BPollMinSeconds r)
    (BPollMaxSeconds r) (BConfirmationMode r) login (BAllDayPassURL r) (BHalfDayPassURL r)
    (BPreferredPasses r) (BCheckAllDay r) (BCheckAfternoon r) (BCheckMorning r) (BCreatedAt r) (BUpdatedAt r).
Definition with_booking_name (name : string) (r : BookingRequest) : BookingRequest :=
  MkBooking (BID r) (BUserID r) name (BKind r) (BLakeID r) (BProfileID r) (BVehicleKeyword r) (BEnabled r)
    (BScheduleEnabled r) (BTargetDate r) (BTimezone r) (BReleaseTime r) (BReleaseDaysBefore r)
    (BPrepMinutesBefore r) (BAuthDeadlineMinutesBefore r) (BPollDeadlineSeconds r) (BPollMinSeconds r)
    (BPollMaxSeconds r) (BConfirmationMode r) (BLoginProbeURL r) (BAllDayPassURL r) (BHalfDayPassURL r)
    (BPreferredPasses r) (BCheckAllDay r) (BCheckAfternoon r) (BCheckMorning r) (BCreatedAt r) (BUpdatedAt r).
(** The columns an INSERT writes. *)
Definition booking_row (id userID : Z) (now : Time) (r : BookingRequest) : BookingRequest :=
  MkBooking id userID (BName r) (BKind r) (BLakeID r) (BProfileID r) (BVehicleKeyword r) (BEnabled r)
    (BScheduleEnabled r) (BTargetDate r) (BTimezone r) (BReleaseTime r) (Some (EffectiveReleaseDaysBefore r))
    (BPrepMinutesBefore r) (BAuthDeadlineMinutesBefore r) (BPollDeadlineSeconds r) (BPollMinSeconds r)
    (BPollMaxSeconds r) (BConfirmationMode r) (BLoginProbeURL r) (BAllDayPassURL r) (BHalfDayPassURL r)
    (BPreferredPasses r) (BCheckAllDay r) (BCheckAfternoon r) (BCheckMorning r) now now.

Definition prepareBookingRequest `{TimeZoneDB} (userID : Z) (r0 : BookingRequest) : ST db BookingRequest :=
  let r := normalizeBooking (with_user userID r0) in
  profile ← bookingProfile userID r;
  let vehicle := if String.eqb (BVehicleKeyword r) "" then trim_space (PDefaultVehicle profile)
                 else BVehicleKeyword r in
  let r1 := with_vehicle_and_login vehicle (BLoginProbeURL r) r in
  _ ← lift (booking_Validate r1);
  mret (if String.eqb (BLoginProbeURL r1) "" then with_vehicle_and_login vehicle (PLoginProbeURL profile) r1
        else r1).

(** The number of characters SQLite's [length] counts, up to the first NUL. *)
Fixpoint sql_length (s : string) : Z :=
  match s with
  | EmptyString => 0
  | String c s' => if Ascii.eqb c zero then 0
                   else (if rune_start c then 1 else 0) + sql_length s'
  end.
Definition length_between (lo hi : Z) (s : string) : bool :=
  (lo <=? sql_length s) && (sql_length s <=? hi).

(** CHECK constraints of a booking row. *)
Definition booking_checks (r : BookingRequest) : bool :=
  let passes := PassType_string <$> default [] (BPreferredPasses r) in
  length_between 1 128 (BName r) && length_between 1 128 (BTimezone r)
  && (0 <=? BPrepMinutesBefore r) && (BPrepMinutesBefore r <=? 180)
  && (0 <=? BAuthDeadlineMinutesBefore r) && (BAuthDeadlineMinutesBefore r <=? BPrepMinutesBefore r)
  && (0 <? BPollDeadlineSeconds r)
  && SpecFloat.SFltb (SpecFloat.S754_zero false) (BPollMinSeconds r)
  && SpecFloat.SFleb (BPollMinSeconds r) (BPollMaxSeconds r)
  && (bool_decide (BConfirmationMode r = RunModeManual) || bool_decide (BConfirmationMode r = RunModeAuto))
  && length_between 1 2048 (BLoginProbeURL r)
  && (sql_length (BAllDayPassURL r) <=? 2048) && (sql_length (BHalfDayPassURL r) <=? 2048)
  && (BCheckAllDay r || BCheckAfternoon r || BCheckMorning r)
  && negb (is_nil passes) && bool_decide (NoDup passes)
  && forallb (λ p, bool_decide (p ∈ ["all_day"; "afternoon"; "morning"])) passes
  && length_between 1 64 (BLakeID r) && (sql_length (BVehicleKeyword r) <=? 256)
  && (0 <=? EffectiveReleaseDaysBefore r) && (EffectiveReleaseDaysBefore r <=? 365)
  && match BKind r with BookingKindOther _ => false | _ => true end.

Definition insertBookingRequest (userID : Z) (r : BookingRequest) (now : Time) : ST db Z :=
  map_err mapWriteError (atomically (
    full ← gets (λ s, bool_decide (BKind r = BookingKindSaved)
                      && (64 <=? Z.of_nat (count_map (λ b, (BUserID b =? userID)
                            && bool_decide (BKind b = BookingKindSaved)) (bookings s))));
    _ ← st_reject full (Errorf "per-user booking request limit reached");
    id ← gets next_booking;
    let row := booking_row id userID now r in
    _ ← st_reject (negb (booking_checks row)) (Errorf "CHECK constraint failed: booking_requests");
    taken ← gets (λ s, exists_row (λ b, (BUserID b =? userID) && String.eqb (BName b) (BName r)) (bookings s));
    _ ← st_reject taken (unique_error "booking_requests.user_id, booking_requests.name");
    profile_ok ← gets (λ s, is_some (users s !! userID)
                            && match profiles s !! BProfileID r with
                               | Some p => PUserID (pr_profile p) =? userID | None => false end);
    _ ← st_reject (negb profile_ok) (Errorf "FOREIGN KEY constraint failed");
    _ ← modify (λ s, bump_booking (set_bookings (<[id := row]>) s));
    mret id)).

(** ** Booking snapshots *)

(** [hex.EncodeToString] of the random token. *)
Definition hex_byte (n : nat) : string :=
  let digit k := String (byte (if (k <? 10)%nat then 48 + k else 87 + k)%nat) EmptyString in
  digit (n / 16)%nat +:+ digit (n mod 16)%nat.
Definition snapshot_suffix (token : list nat) : string :=
  " " +:+ bytes [194; 183]%nat +:+ " " +:+ join "" (hex_byte <$> token).
Definition snapshotBookingName (token : list nat) (name0 : string) : string :=
  let suffix := snapshot_suffix token in
  let name := to_valid_utf8 (trim_space name0) in
  let limit := Z.to_nat (MaxResourceNameBytes - len suffix) in
  let cut := if (limit <? String.length name)%nat then cut_at_rune limit name else name in
  trim_space cut +:+ suffix.

Definition with_booking_request (id : Z) (p : EnqueueJobParams) : EnqueueJobParams :=
  MkEnqueue (Some id) (EProfileID p) (EOTPSourceID p) (EDeduplicateProfileSignIn p) (ECommand p)
    (ERunMode p) (ERunImmediately p) (EDueAt p) (EExpiresAt p) (EDedupKey p).
(** [clk 3] is the reading that stamps the request, [clk 0..2] those of the job. *)
Definition EnqueueBookingRequest `{TimeZoneDB} (userID : Z) (r : BookingRequest) (p : EnqueueJobParams)
    (token : list nat) (clk : nat → Time) : ST db Job :=
  _ ← st_reject (userID <=? 0) (Sentinel ErrUserRequired);
  _ ← st_reject (negb (bool_decide (ECommand p = CommandBook)) && negb (bool_decide (ECommand p = CommandDryRun)))
        (Errorf "booking snapshots require a book or dry-run job");
  _ ← st_reject (match EBookingRequestID p with Some id => negb (id =? 0) | None => false end)
        (Errorf "a new booking cannot use an existing request ID");
  prepared ← prepareBookingRequest userID (as_snapshot r);
  let request := with_booking_name (snapshotBookingName token (BName prepared)) prepared in
  atomically (
    id ← insertBookingRequest userID request (clk 3%nat);
    enqueueJobTx userID (with_booking_request id p) clk).
