(* ===== verification/Samples.v ===== *)
(** * Concrete states

    The small databases and requests the witnesses evaluate the theorems on. *)

From S2P Require Import Prelude GoStrings GoTime Origin Domain Scheduler Database JobStore.
From Stdlib Require Import Ascii String.

Open Scope Z_scope.

#[export] Instance sample_time_zones : TimeZoneDB := sample_zones.

(** 2026-01-09 06:00 in Vancouver: an hour before the release of the 10th. *)
Definition t0 : Time := 1767967200 * Second.
Definition sample_clock : nat → Time := λ _, t0.

Definition sample_user (id : Z) (role : UserRole) : UserRow :=
  MkUserRow (MkUser id ("user-" +:+ format_int id) role UserActive false t0 t0) ("user-" +:+ format_int id) "hash".
Definition sample_source (id uid : Z) : SourceRow :=
  MkSourceRow (MkOTPSource id uid ("phone-" +:+ format_int id) OTPProviderTwilio ("+1604555" +:+ format_int id)
    "" "" "" t0 t0) "ciphertext".
Definition sample_profile (id uid source : Z) : ProfileRow :=
  MkProfileRow (MkProfile id uid "yodel" "buntzen" ("sign-in-" +:+ format_int id) "Car"
    "https://yodelportal.com/buntzen-lake" source true "" "" 15000 true t0 t0) "phone-ciphertext".

(** Two members with a source and a profile each. *)
Definition sample_db : db :=
  MkDb (<[1 := sample_user 1 RoleAdmin]> (<[3 := sample_user 3 RoleMember]> ∅)) ∅ ∅
    (<[4 := sample_source 4 3]> (<[2 := sample_source 2 1]> ∅))
    (<[5 := sample_profile 5 3 4]> (<[6 := sample_profile 6 1 2]> ∅))
    ∅ ∅ ∅ ∅ ∅ ∅ ∅ (<[3 := 4]> (<[1 := 2]> ∅)) None 4 1 5 7 1 1 1.

Definition book_params : EnqueueJobParams :=
  MkEnqueue None 0 0 false CommandBook RunModeManual false t0 (Some (t0 + 3720 * Second)) "".

Definition sample_enqueue : ST db Job :=
  EnqueueBookingRequest 3 (sample_booking "America/Vancouver" "2026-01-10" 1) book_params
    [1; 2; 3; 4; 5; 6; 7; 8]%nat sample_clock.

(** After one accepted booking, after its claim, and with its confirmation begun. *)
Definition queued_db : db := (sample_enqueue sample_db).1.
Definition running_db : db := (SystemClaimNextDueJobAt "worker" t0 queued_db).1.
Definition confirming_db : db := (SystemMarkConfirmationStarted 1 t0 running_db).1.

Example sample_enqueue_ok : is_ok (sample_enqueue sample_db).2 = true.
Proof. vm_compute. reflexivity. Qed.
Example sample_second_conflicts :
  match (sample_enqueue queued_db).2 with Err e => errors_is e ErrConflict | Ok _ => false end = true.
Proof. vm_compute. reflexivity. Qed.
Example sample_claim_ok :
  match (SystemClaimNextDueJobAt "worker" t0 queued_db).2 with
  | Ok j => bool_decide (JStatus j = JobRunning) | Err _ => false end = true.
Proof. vm_compute. reflexivity. Qed.
