(* ===== verification/JobInvariants.v ===== *)
(** * Invariants of the job tables

    What every statement and trigger of the job store keeps: keys and counters,
    foreign keys, the unique indexes, the reservation of every booking that may still
    confirm, the agreement of a job's outcome with its confirmation, and the
    per-account limits. *)

From S2P Require Import Prelude GoStrings GoTime Domain Database JobStore.
From Stdlib Require Import Ascii String.

Open Scope Z_scope.

(** ** Rows of a table *)

Section rows.
Context {A : Type}.
Implicit Types m : gmap Z A.

Lemma elem_of_sort_by (le : A → A → bool) (l : list A) x : x ∈ sort_by le l ↔ x ∈ l.
Proof. unfold sort_by. by rewrite merge_sort_Permutation. Qed.

Lemma elem_of_rows m k a : (k, a) ∈ rows m ↔ m !! k = Some a.
Proof. unfold rows, sort_by. rewrite merge_sort_Permutation. apply elem_of_map_to_list. Qed.

Lemma elem_of_select p m k a : (k, a) ∈ select p m ↔ m !! k = Some a ∧ p a = true.
Proof. unfold select. rewrite list_elem_of_filter, elem_of_rows. simpl. tauto. Qed.

Lemma elem_of_select_keys p m k : k ∈ (select p m).*1 ↔ ∃ a, m !! k = Some a ∧ p a = true.
Proof.
  rewrite list_elem_of_fmap. split.
  - intros ([k' a] & -> & Hin). apply elem_of_select in Hin. eauto.
  - intros (a & Ha). exists (k, a). split; [done|]. by apply elem_of_select.
Qed.

Lemma elem_of_select_rows p m a : a ∈ (select p m).*2 ↔ ∃ k, m !! k = Some a ∧ p a = true.
Proof.
  rewrite list_elem_of_fmap. split.
  - intros ([k a'] & -> & Hin). apply elem_of_select in Hin. eauto.
  - intros (k & Ha). exists (k, a). split; [done|]. by apply elem_of_select.
Qed.

Lemma exists_row_true p m : exists_row p m = true ↔ ∃ k a, m !! k = Some a ∧ p a = true.
Proof.
  unfold exists_row. rewrite existsb_exists. split.
  - intros ([k a] & Hin & Hp). apply list_elem_of_In, elem_of_map_to_list in Hin. eauto.
  - intros (k & a & Hk & Hp). exists (k, a). split; [|done].
    by apply list_elem_of_In, elem_of_map_to_list.
Qed.

Lemma exists_row_false p m : exists_row p m = false ↔ map_Forall (λ _ a, p a = false) m.
Proof.
  rewrite <- not_true_iff_false, exists_row_true. split.
  - intros Hn k a Hk. apply not_true_iff_false. naive_solver.
  - intros Hall (k & a & Hk & Hp). by rewrite (Hall k a Hk) in Hp.
Qed.
End rows.

(** ** The invariant *)

Definition outcome_ok (j : Job) : bool :=
  match JStatus j with
  | JobOutcomeUnknown => is_some (JConfirmationStartedAt j)
  | JobQueued | JobFailed | JobCancelled | JobInterrupted => negb (is_some (JConfirmationStartedAt j))
  | _ => true
  end.

(** A job's reservation: the profile and the visit date of its booking request. *)
Definition job_slot (s : db) (j : Job) : option (Z * string) :=
  bid ← JBookingRequestID j; b ← bookings s !! bid; Some (JProfileID j, BTargetDate b).

Record db_inv (s : db) : Prop := {
  inv_job_key : ∀ k j, jobs s !! k = Some j → JID j = k ∧ k < next_job s;
  inv_booking_key : ∀ k b, bookings s !! k = Some b → BID b = k ∧ k < next_booking s;
  inv_unique : ∀ k1 k2 j1 j2, jobs s !! k1 = Some j1 → jobs s !! k2 = Some j2 → k1 ≠ k2 →
    compatible j1 j2 = true;
  inv_checks : ∀ k j, jobs s !! k = Some j → job_checks j = true ∧ outcome_ok j = true;
  inv_fk : ∀ k j, jobs s !! k = Some j → job_foreign_keys j s = true;
  inv_guard : ∀ k j, jobs s !! k = Some j → JCommand j = CommandBook → unconfirmed_book j = false →
    ∃ slot, job_slot s j = Some slot ∧ reservations s !! slot = Some (Some k);
  inv_reservation : ∀ slot k, reservations s !! slot = Some (Some k) →
    ∃ j, jobs s !! k = Some j ∧ JCommand j = CommandBook ∧ job_slot s j = Some slot;
  inv_event : ∀ k e, events s !! k = Some e → (EID e = k ∧ k < next_event s) ∧
    ∃ j, jobs s !! EJobID e = Some j ∧ JUserID j = EUserID e;
  inv_event_limit : ∀ id, (count_map (λ e, Z.eqb (EJobID e) id) (events s) ≤ MaxJobEventsPerJob)%nat;
  inv_decision : ∀ k d, decisions s !! k = Some d → DJobID d = k ∧
    ∃ j, jobs s !! k = Some j ∧ JUserID j = DUserID d;
  inv_pending : ∀ uid, pending_count uid s <= MaxPendingJobsPerUser;
  inv_retained : ∀ uid, retained_count uid s <= MaxRetainedJobsPerUser
}.

(** ** Deleting rows

    [shrinks s s']: [s'] lost some jobs with what belongs to them and nothing else. *)

Record shrinks (s s' : db) : Prop := {
  sh_jobs : jobs s' ⊆ jobs s;
  sh_bookings : bookings s' ⊆ bookings s;
  sh_booking_kept : ∀ k j bid, jobs s' !! k = Some j → JBookingRequestID j = Some bid →
    bookings s' !! bid = bookings s !! bid;
  sh_events : events s' ⊆ events s;
  sh_event_job : ∀ k e, events s' !! k = Some e → jobs s' !! EJobID e = jobs s !! EJobID e;
  sh_decisions : decisions s' ⊆ decisions s;
  sh_decision_job : ∀ k d, decisions s' !! k = Some d → jobs s' !! k = jobs s !! k;
  sh_held : ∀ slot k j, jobs s' !! k = Some j → reservations s !! slot = Some (Some k) →
    reservations s' !! slot = Some (Some k);
  sh_holder : ∀ slot k, reservations s' !! slot = Some (Some k) →
    reservations s !! slot = Some (Some k) ∧ jobs s' !! k = jobs s !! k;
  sh_users : users s' = users s;
  sh_profiles : profiles s' = profiles s;
  sh_sources : sources s' = sources s;
  sh_next_job : next_job s' = next_job s;
  sh_next_booking : next_booking s' = next_booking s;
  sh_next_event : next_event s' = next_event s
}.

#[export] Instance shrinks_refl : Reflexive shrinks.
Proof. intros s. split; try done; eauto. Qed.

#[export] Instance shrinks_trans : Transitive shrinks.
Proof.
  intros s1 s2 s3 H12 H23. split.
  - etrans; [apply H23|apply H12].
  - etrans; [apply H23|apply H12].
  - intros k j bid Hk Hb. rewrite (sh_booking_kept _ _ H23 k j bid Hk Hb).
    apply (sh_booking_kept _ _ H12 k j); [|done]. eapply lookup_weaken; [done|apply H23].
  - etrans; [apply H23|apply H12].
  - intros k e Hk. rewrite (sh_event_job _ _ H23 k e Hk).
    apply (sh_event_job _ _ H12 k). eapply lookup_weaken; [done|apply H23].
  - etrans; [apply H23|apply H12].
  - intros k d Hk. rewrite (sh_decision_job _ _ H23 k d Hk).
    apply (sh_decision_job _ _ H12 k d). eapply lookup_weaken; [done|apply H23].
  - intros slot k j Hk Hr. apply (sh_held _ _ H23 slot k j Hk).
    apply (sh_held _ _ H12 slot k j); [|done]. eapply lookup_weaken; [done|apply H23].
  - intros slot k Hr. destruct (sh_holder _ _ H23 slot k Hr) as [Hr2 Hj2].
    destruct (sh_holder _ _ H12 slot k Hr2) as [Hr1 Hj1]. split; [done|congruence].
  - by rewrite (sh_users _ _ H23), (sh_users _ _ H12).
  - by rewrite (sh_profiles _ _ H23), (sh_profiles _ _ H12).
  - by rewrite (sh_sources _ _ H23), (sh_sources _ _ H12).
  - by rewrite (sh_next_job _ _ H23), (sh_next_job _ _ H12).
  - by rewrite (sh_next_booking _ _ H23), (sh_next_booking _ _ H12).
  - by rewrite (sh_next_event _ _ H23), (sh_next_event _ _ H12).
Qed.

Section shrinks_inv.
Context (s s' : db) (Hsh : shrinks s s').

Lemma sh_job k j : jobs s' !! k = Some j → jobs s !! k = Some j.
Proof using Hsh. intros Hk. eapply lookup_weaken; [done|apply Hsh]. Qed.

Lemma sh_slot k j : jobs s' !! k = Some j → job_slot s' j = job_slot s j.
Proof using Hsh.
  intros Hk. unfold job_slot. destruct (JBookingRequestID j) as [bid|] eqn:Hb; [|done]. simpl.
  by rewrite (sh_booking_kept _ _ Hsh k j bid Hk Hb).
Qed.

Lemma sh_foreign_keys k j :
  jobs s' !! k = Some j → job_foreign_keys j s' = job_foreign_keys j s.
Proof using Hsh.
  intros Hk. unfold job_foreign_keys.
  rewrite (sh_users _ _ Hsh), (sh_profiles _ _ Hsh), (sh_sources _ _ Hsh). f_equal.
  destruct (JBookingRequestID j) as [bid|] eqn:Hb; [|done].
  by rewrite (sh_booking_kept _ _ Hsh k j bid Hk Hb).
Qed.

Lemma sh_count p : count_jobs p s' <= count_jobs p s.
Proof using Hsh.
  unfold count_jobs. apply Nat2Z.inj_le, count_map_subseteq, Hsh.
Qed.

(** Losing jobs keeps the invariant. *)
Lemma shrinks_inv : db_inv s → db_inv s'.
Proof using Hsh.
  intros Hs. split.
  - intros k j Hk%sh_job. rewrite (sh_next_job _ _ Hsh). by apply (inv_job_key _ Hs).
  - intros k b Hk. rewrite (sh_next_booking _ _ Hsh).
    apply (inv_booking_key _ Hs). eapply lookup_weaken; [done|apply Hsh].
  - intros k1 k2 j1 j2 H1%sh_job H2%sh_job. by eapply (inv_unique _ Hs).
  - intros k j Hk%sh_job. by eapply (inv_checks _ Hs).
  - intros k j Hk. rewrite (sh_foreign_keys k j Hk). eapply (inv_fk _ Hs), sh_job, Hk.
  - intros k j Hk Hc Hu. destruct (inv_guard _ Hs k j (sh_job _ _ Hk) Hc Hu) as (slot & Hslot & Hr).
    exists slot. rewrite (sh_slot k j Hk). split; [done|]. by eapply (sh_held _ _ Hsh).
  - intros slot k Hr. destruct (sh_holder _ _ Hsh slot k Hr) as [Hr' Hj].
    destruct (inv_reservation _ Hs slot k Hr') as (j & Hk & Hc & Hslot).
    exists j. assert (jobs s' !! k = Some j) as Hk' by (by rewrite Hj).
    by rewrite (sh_slot k j Hk').
  - intros k e Hk. rewrite (sh_next_event _ _ Hsh).
    destruct (inv_event _ Hs k e) as (Hlt & j & Hj & Hu); [eapply lookup_weaken; [done|apply Hsh]|].
    split; [done|]. exists j. by rewrite (sh_event_job _ _ Hsh k e Hk).
  - intros id. etrans; [|apply (inv_event_limit _ Hs id)]. apply count_map_subseteq, Hsh.
  - intros k d Hk. destruct (inv_decision _ Hs k d) as (Hd & j & Hj & Hu);
      [eapply lookup_weaken; [done|apply Hsh]|].
    split; [done|]. exists j. by rewrite (sh_decision_job _ _ Hsh k d Hk).
  - intros uid. etrans; [apply sh_count|apply (inv_pending _ Hs)].
  - intros uid. etrans; [apply sh_count|apply (inv_retained _ Hs)].
Qed.
End shrinks_inv.

(** ** The statements that delete *)

Lemma lookup_release id s slot o :
  reservations (release_reservation id s) !! slot = Some o ↔
  reservations s !! slot = Some o ∧ o ≠ Some id.
Proof. unfold release_reservation. simpl. rewrite map_lookup_filter_Some. simpl. done. Qed.

Lemma lookup_detach id s slot o :
  reservations (detach_reservation id s) !! slot = Some (Some o) ↔
  reservations s !! slot = Some (Some o) ∧ o ≠ id.
Proof.
  unfold detach_reservation. simpl. rewrite lookup_fmap_Some. split.
  - intros (o' & Ho' & Hk). case_bool_decide; naive_solver.
  - intros [Hk Hne]. exists (Some o). split; [|done]. rewrite bool_decide_false by congruence. done.
Qed.

(** The tables a deleted job touches. *)
Lemma delete_job_jobs id s : jobs (delete_job id s) = delete id (jobs s).
Proof.
  unfold delete_job. destruct (jobs s !! id) as [old|] eqn:Hid.
  - unfold prune_booking_snapshot. cbv zeta. repeat (case_match; simpl; try done).
  - by rewrite delete_id.
Qed.

Lemma prune_booking_shrinks old s : shrinks s (prune_booking_snapshot old s).
Proof.
  unfold prune_booking_snapshot.
  destruct (JBookingRequestID old) as [bid|]; [|done].
  destruct (bookings s !! bid) as [b|]; [|done].
  destruct (_ && negb (exists_row _ _)) eqn:Hcond; [|done]. bool_to_prop.
  match goal with H : exists_row _ _ = false |- _ => rename H into Hnone end.
  rewrite exists_row_false in Hnone.
  split; simpl; try done.
  - apply delete_subseteq.
  - intros k j bid' Hk Hb. rewrite lookup_delete_ne; [done|]. intros <-.
    specialize (Hnone k j Hk). simpl in Hnone. by rewrite bool_decide_true in Hnone.
Qed.

Lemma delete_job_shrinks id s : shrinks s (delete_job id s).
Proof.
  unfold delete_job. destruct (jobs s !! id) as [old|] eqn:Hid; [|done]. cbv zeta.
  etrans; [|apply prune_booking_shrinks].
  assert (Hres : ∀ slot k,
    reservations (detach_reservation id (set_decisions (delete id)
      (set_events (filter (λ kv, EJobID kv.2 ≠ id)) (set_jobs (delete id)
        (if unconfirmed_book old then release_reservation id s else s))))) !! slot = Some (Some k) ↔
    reservations s !! slot = Some (Some k) ∧ k ≠ id).
  { intros slot k. rewrite lookup_detach. simpl.
    destruct (unconfirmed_book old); [|done].
    change (reservations (release_reservation id s) !! slot = Some (Some k) ∧ k ≠ id ↔
            reservations s !! slot = Some (Some k) ∧ k ≠ id).
    rewrite lookup_release. naive_solver. }
  split; try (by destruct (unconfirmed_book old)).
  - destruct (unconfirmed_book old); simpl; apply delete_subseteq.
  - destruct (unconfirmed_book old); simpl; apply map_filter_subseteq.
  - intros k e. destruct (unconfirmed_book old); simpl;
      rewrite map_lookup_filter_Some; intros [_ Hne]; simpl in Hne; by rewrite lookup_delete_ne.
  - destruct (unconfirmed_book old); simpl; apply delete_subseteq.
  - intros k d. destruct (unconfirmed_book old); simpl;
      rewrite lookup_delete_Some; intros [Hne _]; by rewrite lookup_delete_ne.
  - intros slot k j Hk Hr. apply Hres. split; [done|]. intros ->.
    by destruct (unconfirmed_book old); simpl in Hk; rewrite lookup_delete_eq in Hk.
  - intros slot k Hr. apply Hres in Hr as [Hr Hne]. split; [done|].
    destruct (unconfirmed_book old); simpl; by rewrite lookup_delete_ne.
Qed.

Lemma delete_jobs_shrinks ids s : shrinks s (delete_jobs ids s).
Proof.
  revert s. induction ids as [|id ids IH]; intros s; [done|].
  simpl. etrans; [apply (delete_job_shrinks id)|apply IH].
Qed.

Lemma delete_jobs_jobs ids s k :
  jobs (delete_jobs ids s) !! k = if bool_decide (k ∈ ids) then None else jobs s !! k.
Proof.
  revert s. induction ids as [|id ids IH]; intros s; [done|].
  change (delete_jobs (id :: ids) s) with (delete_jobs ids (delete_job id s)).
  rewrite IH, delete_job_jobs.
  destruct (decide (k = id)) as [->|Hne].
  - rewrite lookup_delete_eq, (bool_decide_true (id ∈ id :: ids)) by set_solver.
    by destruct (bool_decide _).
  - rewrite lookup_delete_ne by done. repeat case_bool_decide; set_solver.
Qed.

(** Removing the reservation of a job that cannot confirm any more. *)
Lemma release_inv id s :
  db_inv s → (∀ j, jobs s !! id = Some j → unconfirmed_book j = true ∨ JCommand j ≠ CommandBook) →
  db_inv (release_reservation id s).
Proof.
  intros Hs Hid. split; try apply Hs.
  - intros k j Hk Hc Hu. destruct (inv_guard _ Hs k j Hk Hc Hu) as (slot & Hslot & Hr).
    exists slot. split; [done|]. apply lookup_release. split; [done|].
    intros [= ->]. destruct (Hid j Hk); congruence.
  - intros slot k Hr. apply lookup_release in Hr as [Hr _]. by apply (inv_reservation _ Hs).
Qed.

(** ** Updates of a row *)

(** What every UPDATE of the store keeps of a row: the identity columns, a started
    confirmation, the end of a job that is over. *)
Record row_step (old new : Job) : Prop := {
  rs_id : JID new = JID old;
  rs_user : JUserID new = JUserID old;
  rs_booking : JBookingRequestID new = JBookingRequestID old;
  rs_profile : JProfileID new = JProfileID old;
  rs_source : JOTPSourceID new = JOTPSourceID old;
  rs_command : JCommand new = JCommand old;
  rs_mode : JRunMode new = JRunMode old;
  rs_immediate : JRunImmediately new = JRunImmediately old;
  rs_expires : JExpiresAt new = JExpiresAt old;
  rs_dedup : JDedupKey new = JDedupKey old;
  rs_status : JStatus new = JStatus old ∨
    is_pending (JStatus old) = true ∧ JobStatus_Valid (JStatus new) = true ∧ JStatus new ≠ JobQueued;
  rs_cancel : JCancelRequested old = true → JCancelRequested new = true;
  rs_confirmation : ∀ t, JConfirmationStartedAt old = Some t → JConfirmationStartedAt new = Some t;
  rs_outcome : outcome_ok new = true
}.

Lemma CanTransition_spec from to :
  CanTransition from to = true →
  is_pending from = true ∧ Terminal from = false ∧ JobStatus_Valid to = true ∧ to ≠ JobQueued.
Proof.
  destruct from; simpl; try done; intros Hto;
    repeat (apply orb_true_iff in Hto as [Hto|Hto]); bool_to_prop; subst; done.
Qed.

Lemma is_retryable_terminal st : is_retryable_status st = true → is_pending st = false.
Proof. by destruct st. Qed.

Lemma same_opt_key_sym a b : same_opt_key a b = same_opt_key b a.
Proof. destruct a, b; simpl; [apply Z.eqb_sym|done..]. Qed.

Lemma clash_dedup_sym a b : clash_dedup a b = clash_dedup b a.
Proof.
  unfold clash_dedup. rewrite (String.eqb_sym (JDedupKey b) (JDedupKey a)).
  destruct (String.eqb_spec (JDedupKey a) (JDedupKey b)) as [->|]; [done|]. by rewrite !andb_false_r.
Qed.

Lemma clash_run_sym a b : clash_run a b = clash_run b a.
Proof.
  unfold clash_run. rewrite (same_opt_key_sym (JBookingRequestID b)), (Z.eqb_sym (JUserID b)).
  rewrite (andb_comm (is_pending (JStatus b))).
  by rewrite (bool_decide_ext (JCommand b = JCommand a) (JCommand a = JCommand b)),
    (bool_decide_ext (JRunMode b = JRunMode a) (JRunMode a = JRunMode b)).
Qed.

Lemma compatible_sym a b : compatible a b = compatible b a.
Proof.
  unfold compatible. rewrite (clash_dedup_sym b a), (clash_run_sym b a).
  unfold clash_profile, clash_source, clash_pairing.
  by rewrite (Z.eqb_sym (JProfileID b)), (Z.eqb_sym (JOTPSourceID b)),
    (andb_comm (is_active (JStatus b))), (andb_comm (pairing_pending b)).
Qed.

Section row_step.
Context (s : db) (old new : Job).
Context (Hs : db_inv s) (Hold : jobs s !! JID old = Some old) (Hstep : row_step old new).

Lemma rs_key : jobs s !! JID new = Some old.
Proof using Hold Hstep. by rewrite (rs_id _ _ Hstep). Qed.

Lemma rs_pending : is_pending (JStatus new) = true → is_pending (JStatus old) = true.
Proof using Hstep.
  by destruct (rs_status _ _ Hstep) as [->|[? _]].
Qed.

Lemma rs_valid : JobStatus_Valid (JStatus old) = true → JobStatus_Valid (JStatus new) = true.
Proof using Hstep.
  by destruct (rs_status _ _ Hstep) as [->|(_ & ? & _)].
Qed.

(** A job released for good stays so. *)
Lemma rs_unconfirmed : unconfirmed_book old = true → unconfirmed_book new = true.
Proof using Hstep.
  unfold unconfirmed_book. rewrite (rs_command _ _ Hstep). intros Hu. bool_to_prop.
  pose proof (rs_outcome _ _ Hstep) as Ho.
  destruct (rs_status _ _ Hstep) as [Heq|[Hp _]].
  - unfold outcome_ok in Ho. rewrite Heq in *. rewrite bool_decide_true by done.
    destruct (JStatus old); try done; by rewrite Ho.
  - by rewrite (is_retryable_terminal (JStatus old)) in Hp.
Qed.

Lemma rs_checks : job_checks old = true → job_checks new = true.
Proof using Hstep.
  unfold job_checks. rewrite (rs_command _ _ Hstep), (rs_mode _ _ Hstep),
    (rs_immediate _ _ Hstep), (rs_expires _ _ Hstep).
  rewrite !andb_true_iff. intros [[[? ?] Hv] ?]. split_and!; auto using rs_valid.
Qed.

(** Writing the row keeps the invariant. *)
Lemma put_row_inv : unique_ok new s = true → db_inv (set_jobs (<[JID new := new]>) s).
Proof using Hs Hold Hstep.
  intros Huniq. unfold unique_ok in Huniq. apply bool_decide_eq_true in Huniq.
  pose proof rs_key as Hkey.
  assert (Hlook : ∀ k j, <[JID new := new]> (jobs s) !! k = Some j →
    k = JID new ∧ j = new ∨ k ≠ JID new ∧ jobs s !! k = Some j).
  { intros k j. rewrite lookup_insert_Some. naive_solver. }
  assert (Hslot : job_slot s new = job_slot s old).
  { unfold job_slot. by rewrite (rs_booking _ _ Hstep), (rs_profile _ _ Hstep). }
  assert (Hcount : ∀ p, (p new = true → p old = true) →
    count_jobs p (set_jobs (<[JID new := new]>) s) <= count_jobs p s).
  { intros p Hp. unfold count_jobs. simpl. pose proof (count_map_insert p _ _ _ new Hkey) as Hc.
    destruct (p new), (p old); lia. }
  split; simpl; try apply Hs.
  - intros k j [[-> ->]|[_ Hk]]%Hlook; [|by apply (inv_job_key _ Hs)].
    split; [done|]. by apply (inv_job_key _ Hs _ old).
  - intros k1 k2 j1 j2 [[-> ->]|[Hne1 H1]]%Hlook [[-> ->]|[Hne2 H2]]%Hlook Hne; try done.
    + destruct (Huniq k2 j2 H2); congruence.
    + rewrite compatible_sym. destruct (Huniq k1 j1 H1); congruence.
    + by eapply (inv_unique _ Hs).
  - intros k j [[-> ->]|[_ Hk]]%Hlook; [|by apply (inv_checks _ Hs k)].
    split; [|apply Hstep]. apply rs_checks. by apply (inv_checks _ Hs _ _ Hkey).
  - intros k j Hk. change (job_foreign_keys j s = true).
    apply Hlook in Hk as [[-> ->]|[_ Hk]]; [|by apply (inv_fk _ Hs k)].
    pose proof (inv_fk _ Hs _ _ Hkey) as Hfk. unfold job_foreign_keys in *.
    by rewrite (rs_booking _ _ Hstep), (rs_profile _ _ Hstep), (rs_source _ _ Hstep), (rs_user _ _ Hstep).
  - intros k j Hk Hc Hu. change (∃ slot, job_slot s j = Some slot ∧ reservations s !! slot = Some (Some k)).
    apply Hlook in Hk as [[-> ->]|[_ Hk]]; [|by apply (inv_guard _ Hs)].
    rewrite Hslot. apply (inv_guard _ Hs _ old Hkey); [by rewrite <- (rs_command _ _ Hstep)|].
    destruct (unconfirmed_book old) eqn:Hu'; [|done]. apply rs_unconfirmed in Hu'. congruence.
  - intros slot k Hr. destruct (inv_reservation _ Hs slot k Hr) as (j & Hk & Hc & Hj).
    destruct (decide (k = JID new)) as [->|Hne].
    + exists new. rewrite lookup_insert_eq. simplify_eq. split_and!; [done| |].
      * by rewrite (rs_command _ _ Hstep).
      * unfold job_slot in *; simpl. by rewrite (rs_booking _ _ Hstep), (rs_profile _ _ Hstep).
    + exists j. by rewrite lookup_insert_ne.
  - intros k e Hk. destruct (inv_event _ Hs k e Hk) as (Hlt & j & Hj & Hu). split; [done|].
    destruct (decide (EJobID e = JID new)) as [Heq|Hne].
    + exists new. rewrite Heq, lookup_insert_eq. split; [done|]. rewrite Heq in Hj. simplify_eq.
      by rewrite (rs_user _ _ Hstep).
    + exists j. by rewrite lookup_insert_ne.
  - intros k d Hk. destruct (inv_decision _ Hs k d Hk) as (Hlt & j & Hj & Hu). split; [done|].
    destruct (decide (k = JID new)) as [->|Hne].
    + exists new. rewrite lookup_insert_eq. split; [done|]. simplify_eq. by rewrite (rs_user _ _ Hstep).
    + exists j. by rewrite lookup_insert_ne.
  - intros uid. etrans; [apply Hcount|apply (inv_pending _ Hs)].
    rewrite (rs_user _ _ Hstep). rewrite !andb_true_iff. intros [? ?]. split; [done|by apply rs_pending].
  - intros uid. etrans; [apply Hcount|apply (inv_retained _ Hs)].
    by rewrite (rs_user _ _ Hstep).
Qed.
End row_step.

(** ** Statements on the table of jobs *)

Lemma after_status_update_inv new s :
  db_inv s → jobs s !! JID new = Some new → db_inv (after_status_update new s).
Proof.
  intros Hs Hnew. unfold after_status_update.
  set (s1 := if is_retained_status (JStatus new) then delete_jobs (history_excess new s) s else s).
  assert (Hsh : shrinks s s1) by (subst s1; destruct (is_retained_status _); [apply delete_jobs_shrinks|done]).
  assert (Hs1 : db_inv s1) by (by eapply shrinks_inv).
  destruct (_ && _) eqn:Hrel; [|done]. apply release_inv; [done|].
  intros j Hj. left. eapply sh_job in Hj; [|done]. rewrite Hnew in Hj. injection Hj as <-. done.
Qed.

Lemma put_job_inv st old new s :
  db_inv s → jobs s !! JID old = Some old → row_step old new → db_inv (put_job st new s).1.
Proof.
  intros Hs Hold Hstep. unfold put_job.
  destruct (unique_ok new s) eqn:Hu; [|done]. cbn [negb fst].
  pose proof (put_row_inv s old new Hs Hold Hstep Hu) as Hput.
  destruct st; [|done]. apply after_status_update_inv; [done|]. simpl. apply lookup_insert_eq.
Qed.

(** The triggers of a row's update change no other row, they only delete some. *)
Lemma put_job_other st new s k j :
  k ≠ JID new → jobs (put_job st new s).1 !! k = Some j → jobs s !! k = Some j.
Proof.
  intros Hne. unfold put_job. destruct (negb _); [done|]. cbn [fst].
  assert (Hins : jobs (set_jobs (<[JID new := new]>) s) !! k = jobs s !! k).
  { simpl. by rewrite lookup_insert_ne. }
  destruct st; [|by rewrite Hins]. unfold after_status_update. rewrite <- Hins. intros Hk.
  destruct (_ && _) in Hk; cbn in Hk;
    (destruct (is_retained_status _) in Hk; [|exact Hk]);
    (eapply lookup_weaken; [exact Hk|apply delete_jobs_shrinks]).
Qed.

Lemma update_job_other id where_ set_row st s k j :
  (∀ o, jobs s !! id = Some o → where_ o = true → JID (set_row o) = id) →
  k ≠ id → jobs (update_job id where_ set_row st s).1 !! k = Some j → jobs s !! k = Some j.
Proof.
  intros Hid Hne. unfold update_job. rewrite ST_bind_unfold. cbn [gets].
  destruct (jobs s !! id) as [o|] eqn:Ho; [|done]. destruct (where_ o) eqn:Hw; [|done].
  specialize (Hid o eq_refl Hw). rewrite ST_bind_unfold. intros Hk.
  apply (put_job_other st (set_row o)); [congruence|].
  by destruct (put_job st (set_row o) s) as [s' [u|e]].
Qed.

Lemma select_keys_NoDup {A} (p : A → bool) (m : gmap Z A) : NoDup (select p m).*1.
Proof.
  assert (Hrows : NoDup (rows m).*1).
  { unfold rows, sort_by. rewrite merge_sort_Permutation. apply NoDup_fst_map_to_list. }
  revert Hrows. unfold select. generalize (rows m) as l.
  induction l as [|[k a] l IH]; simpl; [done|]. intros [Hnin Hnd]%NoDup_cons.
  rewrite filter_cons. case_decide; simpl; [|by apply IH].
  apply NoDup_cons. split; [|by apply IH].
  intros Hin. apply Hnin. apply list_elem_of_fmap in Hin as (kv & -> & Hin).
  apply list_elem_of_filter in Hin as [_ Hin]. apply list_elem_of_fmap. eauto.
Qed.

Lemma reserve_booking_Ok j s s' u :
  reserve_booking j s = (s', Ok u) →
  (s' = s ∧ (JCommand j ≠ CommandBook ∨ job_slot s j = None)) ∨
  ∃ slot, JCommand j = CommandBook ∧ job_slot s j = Some slot ∧ reservations s !! slot = None ∧
    s' = set_reservations (<[slot := Some (JID j)]>) s.
Proof.
  unfold reserve_booking, job_slot. destruct (bool_decide _) eqn:Hc; bool_to_prop; cbn [negb].
  2: { intros [= <- <-]. auto. }
  destruct (JBookingRequestID j) as [bid|]; simpl; [|intros [= <- <-]; auto].
  destruct (bookings s !! bid) as [b|]; simpl; [|intros [= <- <-]; auto].
  destruct (reservations s !! _) eqn:Hr; intros [= <- <-]. right. eauto 10.
Qed.

(** A row that the store inserts: queued, with the booking request a book job needs. *)
Record fresh_row (id : Z) (j : Job) : Prop := {
  fr_id : JID j = id;
  fr_status : JStatus j = JobQueued;
  fr_confirmation : JConfirmationStartedAt j = None;
  fr_booking : JCommand j = CommandBook → is_some (JBookingRequestID j) = true
}.

(** An accepted INSERT: the state it leaves and what it checked. *)
Lemma insert_job_Ok row s s' id :
  insert_job row s = (s', Ok id) →
  id = next_job s ∧ job_checks (row id) = true ∧ unique_ok (row id) s = true ∧
  retained_count (JUserID (row id)) s < MaxRetainedJobsPerUser ∧
  ∃ s1, s1 = bump_job (set_jobs (<[id := row id]>) s) ∧
    reserve_booking (row id) s1 = (s', Ok tt) ∧ job_foreign_keys (row id) s' = true.
Proof.
  unfold insert_job. intros H. inv_ok. bool_to_prop. split_and!; try done.
  eexists. split; [reflexivity|].
  match goal with H : reserve_booking _ _ = (_, Ok ?u) |- _ => by destruct u end.
Qed.

Lemma insert_job_inv row s :
  db_inv s → fresh_row (next_job s) (row (next_job s)) →
  pending_count (JUserID (row (next_job s))) s < MaxPendingJobsPerUser →
  db_inv (insert_job row s).1.
Proof.
  intros Hs Hfresh Hpend. destruct (insert_job row s) as [s' [id|e]] eqn:Hins.
  2: { apply atomically_Err in Hins as ->. done. }
  apply insert_job_Ok in Hins as (-> & Hchk & Huniq & Hret & s1 & Hs1 & Hres & Hfk).
  set (new := row (next_job s)) in *. destruct Hfresh as [Hid Hst Hconf Hbook].
  simpl. apply bool_decide_eq_true in Huniq.
  assert (Hnone : jobs s !! next_job s = None).
  { apply eq_None_not_Some. intros [j Hj]. apply (inv_job_key _ Hs) in Hj as [_ ?]. lia. }
  assert (Hlook : ∀ k j, jobs s1 !! k = Some j →
    k = next_job s ∧ j = new ∨ k ≠ next_job s ∧ jobs s !! k = Some j).
  { subst s1. intros k j. simpl. rewrite lookup_insert_Some. naive_solver. }
  assert (Hslot1 : ∀ j, job_slot s1 j = job_slot s j) by (by subst s1).
  assert (Hs' : jobs s' = jobs s1 ∧ bookings s' = bookings s1 ∧ events s' = events s1 ∧
    decisions s' = decisions s1 ∧ next_job s' = next_job s + 1 ∧ next_booking s' = next_booking s ∧
    next_event s' = next_event s ∧ users s' = users s ∧ profiles s' = profiles s ∧ sources s' = sources s ∧
    (∀ slot k, reservations s !! slot = Some k → reservations s' !! slot = Some k) ∧
    (∀ slot k, reservations s' !! slot = Some (Some k) → reservations s !! slot = Some (Some k) ∨
      k = next_job s ∧ JCommand new = CommandBook ∧ job_slot s new = Some slot) ∧
    (JCommand new = CommandBook → ∃ slot, job_slot s new = Some slot ∧
      reservations s' !! slot = Some (Some (next_job s)))).
  { apply reserve_booking_Ok in Hres as [[-> Hno]|(slot & Hc & Hslot & Hfree & ->)].
    - subst s1. split_and!; try done; [by eauto|]. intros Hc. exfalso. destruct Hno as [|Hno]; [done|].
      specialize (Hbook Hc). unfold job_foreign_keys in Hfk. unfold job_slot in Hno.
      destruct (JBookingRequestID new) as [bid|]; [|done]. simpl in Hfk, Hno.
      rewrite !andb_true_iff in Hfk. destruct Hfk as [_ Hfk]. by destruct (bookings s !! bid).
    - rewrite Hslot1 in Hslot. subst s1. simpl in *. rewrite Hid. split_and!; try done.
      + intros slot' k Hk. rewrite lookup_insert_ne; [done|]. intros <-. simpl in Hfree. congruence.
      + intros slot' k. rewrite lookup_insert_Some. naive_solver.
      + intros _. exists slot. by rewrite lookup_insert_eq. }
  destruct Hs' as (Hj & Hb & He & Hd & Hnj & Hnb & Hne & Husr & Hprf & Hsrc & Hkeep & Hnew & Hguard).
  assert (Hslot : ∀ j, job_slot s' j = job_slot s j)
    by (intros j; unfold job_slot; rewrite Hb; by subst s1).
  assert (Hcount : ∀ p, count_jobs p s' = count_jobs p s + (if p new then 1 else 0)).
  { intros p. unfold count_jobs. rewrite Hj. subst s1. simpl.
    rewrite count_map_insert_fresh by done. destruct (p new); lia. }
  split.
  - intros k j. rewrite Hj, Hnj. intros [[-> ->]|[_ Hk]]%Hlook; [split; [done|lia]|].
    apply (inv_job_key _ Hs) in Hk. lia.
  - intros k b. rewrite Hb, Hnb. subst s1. apply (inv_booking_key _ Hs).
  - intros k1 k2 j1 j2. rewrite Hj.
    intros [[-> ->]|[? H1]]%Hlook [[-> ->]|[? H2]]%Hlook Hk; try done.
    + destruct (Huniq k2 j2 H2); congruence.
    + rewrite compatible_sym. destruct (Huniq k1 j1 H1); congruence.
    + by eapply (inv_unique _ Hs).
  - intros k j. rewrite Hj. intros [[-> ->]|[_ Hk]]%Hlook; [|by apply (inv_checks _ Hs k)].
    split; [done|]. unfold outcome_ok. by rewrite Hst, Hconf.
  - intros k j. rewrite Hj. intros [[-> ->]|[_ Hk]]%Hlook; [done|].
    pose proof (inv_fk _ Hs k j Hk) as Hf. unfold job_foreign_keys in *.
    rewrite Husr, Hprf, Hsrc, Hb. by subst s1.
  - intros k j. rewrite Hj. intros [[-> ->]|[_ Hk]]%Hlook Hc Hu; rewrite Hslot.
    + destruct (Hguard Hc) as (slot & ? & ?). by exists slot.
    + destruct (inv_guard _ Hs k j Hk Hc Hu) as (slot & ? & ?). exists slot. auto.
  - intros slot k Hr. rewrite Hj. apply Hnew in Hr as [Hr|(-> & Hc & Hsl)].
    + destruct (inv_reservation _ Hs slot k Hr) as (j & Hk & ? & ?). exists j. rewrite Hslot.
      split; [|done]. subst s1. simpl. rewrite lookup_insert_ne; [done|]. congruence.
    + exists new. rewrite Hslot. split; [|done]. subst s1. simpl. by rewrite lookup_insert_eq.
  - intros k e. rewrite He, Hne. subst s1. simpl. rewrite Hj. simpl. intros Hk.
    destruct (inv_event _ Hs k e Hk) as (? & j & Hjk & ?). split; [done|]. exists j.
    rewrite lookup_insert_ne; [done|]. congruence.
  - intros i. rewrite He. subst s1. apply (inv_event_limit _ Hs).
  - intros k d. rewrite Hd, Hj. subst s1. simpl. intros Hk.
    destruct (inv_decision _ Hs k d Hk) as (? & j & Hjk & ?). split; [done|]. exists j.
    rewrite lookup_insert_ne; [done|]. congruence.
  - intros uid. unfold pending_count. rewrite Hcount.
    pose proof (inv_pending _ Hs uid) as Hp. unfold pending_count in Hp, Hpend.
    destruct (JUserID new =? uid) eqn:Heq; simpl; [|lia]. bool_to_prop. subst uid.
    rewrite Hst. simpl. lia.
  - intros uid. unfold retained_count. rewrite Hcount.
    pose proof (inv_retained _ Hs uid) as Hp. unfold retained_count in Hp, Hret.
    destruct (JUserID new =? uid) eqn:Heq; [|lia]. bool_to_prop. subst uid. lia.
Qed.

(** A new booking row touches no job's slot. *)
Lemma insert_booking_inv s row :
  db_inv s → BID row = next_booking s →
  db_inv (bump_booking (set_bookings (<[next_booking s := row]>) s)).
Proof.
  intros Hs Hid.
  set (s' := bump_booking (set_bookings (<[next_booking s := row]>) s)).
  assert (Hb : ∀ k j bid, jobs s !! k = Some j → JBookingRequestID j = Some bid →
    bookings s' !! bid = bookings s !! bid).
  { intros k j bid Hk Hbid. simpl. rewrite lookup_insert_ne; [done|]. intros <-.
    pose proof (inv_fk _ Hs k j Hk) as Hfk. unfold job_foreign_keys in Hfk.
    rewrite Hbid, !andb_true_iff in Hfk. destruct Hfk as [_ Hfk].
    destruct (bookings s !! next_booking s) as [b|] eqn:Hnb; [|done].
    apply (inv_booking_key _ Hs) in Hnb. lia. }
  assert (Hslot : ∀ k j, jobs s !! k = Some j → job_slot s' j = job_slot s j).
  { intros k j Hk. unfold job_slot. destruct (JBookingRequestID j) as [bid|] eqn:Hbid; [|done].
    simpl. pose proof (Hb k j bid Hk Hbid) as Hb'. simpl in Hb'. by rewrite Hb'. }
  split; try apply Hs.
  - intros k b. simpl. rewrite lookup_insert_Some. intros [[<- <-]|[_ Hk]]; [split; [done|lia]|].
    apply (inv_booking_key _ Hs) in Hk. lia.
  - intros k j Hk. pose proof (inv_fk _ Hs k j Hk) as Hfk. unfold job_foreign_keys in *.
    destruct (JBookingRequestID j) as [bid|] eqn:Hbid; [|done].
    by rewrite (Hb k j bid Hk Hbid).
  - intros k j Hk Hc Hu. rewrite (Hslot k j Hk). by apply (inv_guard _ Hs).
  - intros slot k Hr. destruct (inv_reservation _ Hs slot k Hr) as (j & Hk & ? & ?).
    exists j. by rewrite (Hslot k j Hk).
Qed.

Lemma insert_decision_inv uid id decision now s : db_inv s → db_inv (insert_decision uid id decision now s).
Proof.
  intros Hs. unfold insert_decision. destruct (jobs s !! id) as [j|] eqn:Hj; [|done].
  destruct (_ && _); [|done]. split; try apply Hs.
  intros k d. simpl. rewrite lookup_insert_Some. intros [[<- <-]|[_ Hk]]; [|by apply (inv_decision _ Hs)].
  split; [done|]. by exists j.
Qed.

(** Dropping reservations that no job holds. *)
Lemma drop_detached_inv (p : (Z * string) * option Z → bool) s :
  (∀ kv, p kv = true → kv.2 = None) → db_inv s →
  db_inv (set_reservations (filter (λ kv, p kv = false)) s).
Proof.
  intros Hp Hs. split; try apply Hs.
  - intros k j Hk Hc Hu. destruct (inv_guard _ Hs k j Hk Hc Hu) as (slot & ? & ?). exists slot.
    split; [done|]. simpl. apply map_lookup_filter_Some. split; [done|]. simpl.
    destruct (p (slot, Some k)) eqn:He; [|done]. by apply Hp in He.
  - intros slot k Hr. simpl in Hr. apply map_lookup_filter_Some in Hr as [Hr _].
    by apply (inv_reservation _ Hs).
Qed.

(** ** The rows the operations write *)

(** A SET clause that keeps the invariant of the rows its WHERE clause selects. *)
Definition legal_update (where_ : Job → bool) (set_row : Job → Job) : Prop :=
  ∀ j, outcome_ok j = true → where_ j = true → row_step j (set_row j).

Lemma is_active_pending st : is_active st = true → is_pending st = true.
Proof. by destruct st. Qed.

Lemma outcome_pending j :
  JStatus j ≠ JobQueued → is_pending (JStatus j) = true → outcome_ok j = true.
Proof. unfold outcome_ok. by destruct (JStatus j). Qed.

Lemma expire_legal now : legal_update (stale now) (expire_row now).
Proof.
  intros j Ho Hw. unfold stale in Hw. bool_to_prop. unfold outcome_ok in Ho.
  match goal with H : JStatus j = _ |- _ => rewrite H in Ho; split; simpl; try done; auto;
    right; rewrite H; done end.
Qed.

Lemma recover_legal now : legal_update (λ j, is_active (JStatus j)) (recover_row now).
Proof.
  intros j Ho Hw. split; simpl; try done.
  - right. apply is_active_pending in Hw. by destruct (is_some _).
  - unfold outcome_ok; simpl. by destruct (JConfirmationStartedAt j).
Qed.

Lemma cancel_legal message now uid :
  legal_update (λ j, owner_matches uid j && (is_pending (JStatus j) || bool_decide (JStatus j = JobCancelled)))
    (cancel_row message now).
Proof.
  intros j Ho _. unfold cancel_row. cbv zeta.
  destruct (bool_decide (JStatus j = JobQueued)) eqn:Hq; bool_to_prop.
  - split; simpl; try done.
    + right. by match goal with H : JStatus j = _ |- _ => rewrite H end.
    + unfold outcome_ok in *; simpl. by match goal with H : JStatus j = _ |- _ => rewrite H in Ho end.
  - split; simpl; try done; auto.
Qed.

Lemma claim_legal worker now :
  legal_update (λ j, bool_decide (JStatus j = JobQueued)) (claim_row worker now).
Proof.
  intros j Ho Hw. bool_to_prop. split; simpl; try done. right.
  by match goal with H : JStatus j = _ |- _ => rewrite H end.
Qed.

(** The row a transition writes, from a state it may leave. *)
Lemma transition_step to upd message now active j :
  outcome_ok j = true → is_pending (JStatus j) = true → JobStatus_Valid to = true → to ≠ JobQueued →
  (to = JobOutcomeUnknown → is_some (JConfirmationStartedAt j) || JT_ConfirmationStarted upd = true) →
  row_step j (transition_row to upd message now active j).
Proof.
  intros Ho Hp Hv Hq Hunk.
  assert (Hconf : ∀ t, JConfirmationStartedAt j = Some t →
    coalesce (JConfirmationStartedAt j) now = Some t) by (by intros t ->).
  unfold transition_row. set (r := resolve to (JT_ConfirmationStarted upd) active j).
  assert (Hr : JobStatus_Valid (resolved_status to r) = true ∧ resolved_status to r ≠ JobQueued)
    by (by destruct r).
  destruct (Terminal to) eqn:Ht, (JT_ConfirmationStarted upd) eqn:Hst,
    (bool_decide (to = JobRunning)) eqn:Hrun; split; simpl; try done; auto;
    try (right; split; [done|by apply Hr || done]);
    unfold outcome_ok; simpl; subst r; unfold resolve in *; rewrite ?Hst in *;
    try (by destruct to);
    destruct (JConfirmationStartedAt j) eqn:Hc; simpl in *; try case_bool_decide; simplify_eq; simpl; try done;
    try (by destruct to); 
    destruct (JCancelRequested j || negb active); simpl; destruct to; try done; by specialize (Hunk eq_refl).
Qed.

Lemma admit_params_Ok clk p q :
  admit_params clk p = Ok q →
  JobCommand_Valid (ECommand q) = true ∧ RunMode_Valid (ERunMode q) = true ∧
  EBookingRequestID q = EBookingRequestID p ∧ ECommand q = ECommand p ∧
  (ECommand q ≠ CommandAuthCheck → is_some (EBookingRequestID q) = true) ∧
  (∀ e, EExpiresAt q = Some e → EDueAt q < e) ∧
  immediate_run_ok (ERunImmediately q) (ECommand q) (ERunMode q) (EDueAt q) (EExpiresAt q) = Ok tt.
Proof.
  unfold admit_params. intros H. inv_ok. simpl. split_and!.
  - by match goal with H : negb (JobCommand_Valid _) = false |- _ => apply negb_false_iff in H end.
  - by match goal with H : negb (RunMode_Valid _) = false |- _ => apply negb_false_iff in H end.
  - done.
  - done.
  - intros Hc. match goal with H : negb (bool_decide (_ = CommandAuthCheck)) && _ = false |- _ =>
      rewrite bool_decide_false in H by done; by apply negb_false_iff in H end.
  - intros e He. rewrite He in *. bool_to_prop. unfold After in *. bool_to_prop. lia.
  - by match goal with H : immediate_run_ok _ _ _ _ _ = Ok ?u |- _ => destruct u end.
Qed.

Lemma new_job_fresh uid pid sid p now id :
  (ECommand p ≠ CommandAuthCheck → is_some (EBookingRequestID p) = true) →
  fresh_row id (new_job uid pid sid p now id).
Proof. intros Hb. split; simpl; try done. intros Hc. apply Hb. by rewrite Hc. Qed.
