(* ===== verification/EventStore.v ===== *)
(** * Job events (src/internal/store/job_events.go)

    Appending a sanitised event to a job's bounded log, and reading it back. *)

From S2P Require Import Prelude GoStrings GoTime Json Secrets Redaction Domain Database JobStore.
From Stdlib Require Import Ascii String.

Open Scope Z_scope.

Record JobEventInput := MkEventInput {
  EI_JobID : Z;
  EI_Level : string;
  EI_Kind : string;
  EI_Message : string;
  EI_Data : json
}.

(** The decrypted secrets of the job's profile and source, longest first. *)
Definition durableEventSecrets `{AEAD} (jobID : Z) (s : db) : result (list string) :=
  match (j ← jobs s !! jobID; p ← profiles s !! JProfileID j; o ← sources s !! JOTPSourceID j;
         Some (pr_phone_ciphertext p, sr_config_ciphertext o)) with
  | None => Err (Sentinel ErrNotFound)
  | Some (encryptedPhone, encryptedProvider) =>
      phone ←
        (if String.eqb encryptedPhone "" then Ok []
         else match Decrypt encryptedPhone with
              | Ok plaintext => Ok (secret_leaf plaintext)
              | Err e => Err (Wrap "load event redaction material" e)
              end);
      match Decrypt encryptedProvider with
      | Err e => Err (Wrap "load event redaction material" e)
      | Ok providerJSON =>
          match Decode providerJSON with
          | None => Err (Errorf "load event redaction material")
          | Some providerData =>
              Ok (order_secrets (phone ++ collectStringLeaves (normalize providerData))%list)
          end
      end
  end.

(** trigger [job_events_per_job_limit]: before an insert, all but the newest 255 of
    the job's events go. *)
Definition trim_events (jobID : Z) (s : db) : db :=
  let kept := take (MaxJobEventsPerJob - 1)
                (rev (select (λ e, EJobID e =? jobID) (events s)).*1) in
  set_events (filter (λ kv, EJobID kv.2 ≠ jobID ∨ kv.1 ∈ kept)) s.

(** [INSERT INTO job_events ... SELECT ... FROM jobs WHERE id = ?] *)
Definition insert_event (e : Z → Z → JobEvent) (jobID : Z) : ST db (option Z) := λ s,
  match jobs s !! jobID with
  | None => (s, Ok None)
  | Some j =>
      let id := next_event s in
      (bump_event (set_events (<[id := e id (JUserID j)]>) (trim_events jobID s)), Ok (Some id))
  end.

Definition SystemAppendJobEvent `{AEAD} (input : JobEventInput) (now : Time) : ST db JobEvent :=
  let level0 := to_lower (trim_space (EI_Level input)) in
  let level := if String.eqb level0 "" then "info" else level0 in
  _ ← st_reject (negb (bool_decide (level ∈ ["debug"; "info"; "warning"; "error"])))
        (Errorf "invalid job event level");
  let kind0 := truncate (sanitizeText (trim_space (EI_Kind input))) 80 in
  _ ← st_reject (String.eqb kind0 "") (Errorf "job event kind is required");
  secrets ← gets (durableEventSecrets (EI_JobID input));
  knownSecrets ← lift secrets;
  let data := redactKnownValue (normalizeAndSanitize (EI_Data input)) knownSecrets in
  let encoded := Marshal data in
  _ ← st_reject (16 * 1024 <? len encoded) (Errorf "job event data exceeds 16 KiB");
  let message := truncate (redactKnownText (sanitizeText (EI_Message input)) knownSecrets) 2000 in
  let kind := truncate (redactKnownText kind0 knownSecrets) 80 in
  let row id user := MkJobEvent id user (EI_JobID input) level kind message encoded now in
  o ← insert_event row (EI_JobID input);
  match o with
  | None => fail (Sentinel ErrNotFound)
  | Some id => job ← SystemGetJob (EI_JobID input); mret (row id (JUserID job))
  end.

(** [userID = 0] leaves the owner out of the query. *)
Definition listJobEvents (userID jobID afterID limit : Z) (s : db) : list JobEvent :=
  take (list_limit limit 1000 200)
    (filter (λ e, afterID < EID e)
      (select (λ e, (EJobID e =? jobID) && (negb (0 <? userID) || (EUserID e =? userID))) (events s)).*2).
Definition ListJobEvents (userID jobID afterID limit : Z) : ST db (list JobEvent) :=
  _ ← st_reject (userID <=? 0) (Sentinel ErrUserRequired);
  _ ← GetJob userID jobID;
  gets (listJobEvents userID jobID afterID limit).
Definition SystemListJobEvents (jobID afterID limit : Z) : ST db (list JobEvent) :=
  _ ← SystemGetJob jobID;
  gets (listJobEvents 0 jobID afterID limit).
