(* ===== verification/JobOperations.v ===== *)
(** * What every operation of the job store keeps

    [job_stable I] is the interface of the statements and triggers on the job tables:
    a property that each of them keeps is kept by every operation of the store.  It
    is implemented by the invariant of the tables, and by the invariant together with
    the history of the jobs (JobHistory). *)

From S2P Require Import Prelude GoStrings GoTime Json Secrets Redaction Domain Database JobStore EventStore.
From S2P Require Import JobInvariants.
From Stdlib Require Import Ascii String.

Open Scope Z_scope.

(** The part that changes no row: [job_stable] adds the updates of a row. *)
Class job_calm (I : db → Prop) : Prop := {
  js_inv : ∀ s, I s → db_inv s;
  js_prune : ∀ s ids, I s →
    (∀ id j, id ∈ ids → jobs s !! id = Some j → is_retained_status (JStatus j) = true) → I (delete_jobs ids s);
  js_insert : ∀ s row, I s → fresh_row (next_job s) (row (next_job s)) →
    pending_count (JUserID (row (next_job s))) s < MaxPendingJobsPerUser → I (insert_job row s).1;
  js_booking : ∀ s row, I s → BID row = next_booking s →
    I (bump_booking (set_bookings (<[next_booking s := row]>) s));
  js_decision : ∀ s uid id d now, I s → I (insert_decision uid id d now s);
  js_event : ∀ s row id, I s → (∀ k u, EID (row k u) = k ∧ EJobID (row k u) = id ∧ EUserID (row k u) = u) →
    I (insert_event row id s).1
}.
Class job_stable (I : db → Prop) : Prop := {
  #[global] js_calm :: job_calm I;
  js_put : ∀ s st old new, I s → jobs s !! JID old = Some old → row_step old new → I (put_job st new s).1
}.

(** ** Statements over several rows *)

(** The rows are the ones the first pass selected, none of which another row's triggers
    can change: what every single update keeps, the statement keeps. *)
Section rows.
Context (I : db → Prop) (where_ : Job → bool) (set_row : Job → Job) (st : bool).
Context (HI : ∀ s, I s → db_inv s) (Hleg : legal_update where_ set_row).
Context (Hone : ∀ id s, I s → (∀ j, jobs s !! id = Some j → where_ j = true) → I (update_job id (λ _, true) set_row st s).1).

Lemma update_ids_keeps ids : NoDup ids →
  ∀ s, I s → (∀ id j, id ∈ ids → jobs s !! id = Some j → where_ j = true) → I (update_ids ids set_row st s).1.
Proof using HI Hleg Hone.
  induction ids as [|id ids IH]; intros Hnd s Hs Hsel; [done|].
  apply NoDup_cons in Hnd as [Hnin Hnd].
  cbn [update_ids]. rewrite ST_bind_unfold.
  assert (Hstep : ∀ o, jobs s !! id = Some o → row_step o (set_row o)).
  { intros o Ho. apply Hleg; [by apply (inv_checks _ (HI _ Hs) id)|]. apply (Hsel id); [left|done]. }
  assert (Hkeep : ∀ k j, k ≠ id →
    jobs (update_job id (λ _, true) set_row st s).1 !! k = Some j → jobs s !! k = Some j).
  { intros k j. apply update_job_other. intros o Ho _. rewrite (rs_id _ _ (Hstep o Ho)).
    by apply (inv_job_key _ (HI _ Hs)). }
  assert (Hinv : I (update_job id (λ _, true) set_row st s).1).
  { apply Hone; [done|]. intros j. apply Hsel. left. }
  destruct (update_job id (λ _, true) set_row st s) as [s1 [o|e]]; [|done]. simpl in Hinv, Hkeep.
  rewrite ST_bind_unfold.
  assert (Hrest : I (update_ids ids set_row st s1).1).
  { apply IH; [done|done|]. intros k j Hk Hj. apply (Hsel k); [by right|].
    apply Hkeep; [|done]. by intros ->. }
  by destruct (update_ids ids set_row st s1) as [s2 [n|e]].
Qed.
Lemma update_jobs_keeps : preserves I (update_jobs where_ set_row st).
Proof using HI Hleg Hone.
  intros s Hs.
  assert (Hids : I (update_ids (select where_ (jobs s)).*1 set_row st s).1).
  { apply update_ids_keeps; [apply select_keys_NoDup|done|].
    intros id j Hid Hj. apply elem_of_select_keys in Hid as (j' & Hj' & Hw). by simplify_eq. }
  unfold update_jobs, atomically. rewrite ST_bind_unfold. cbn [gets].
  by destruct (update_ids _ _ _ _) as [s' [n|e]].
Qed.
End rows.

(** ** Calls that change no row *)

Section calm.
Context {I : db → Prop} `{HI : !job_calm I}.

Lemma map_err_stable {A} f (m : ST db A) : preserves I m → preserves I (map_err f m).
Proof using Type. intros Hm s Hs. specialize (Hm s Hs). unfold map_err. by destruct (m s) as [s' [a|e]]. Qed.
#[local] Hint Resolve map_err_stable : preserves.

Lemma SystemGetJob_stable id : preserves I (SystemGetJob id).
Proof using Type. unfold SystemGetJob. auto with preserves. Qed.

Lemma pruned_ids_retained uid now s id j :
  db_inv s → id ∈ pruned_ids uid now s → jobs s !! id = Some j → is_retained_status (JStatus j) = true.
Proof using Type.
  intros Hs Hid Hj.
  assert (Htail : ∀ u, id ∈ history_tail now s u → is_retained_status (JStatus j) = true).
  { intros u Hin. unfold history_tail in Hin. rewrite <- fmap_drop in Hin. apply list_elem_of_fmap in Hin as ([k j'] & -> & Hin).
    assert (Hin' : (k, j') ∈ sort_by newest_first (select (λ j, prunable now j && (JUserID j =? u)) (jobs s))).
    { rewrite <- (take_drop MaxTerminalJobHistoryPerUser). apply elem_of_app. by right. }
    apply elem_of_sort_by, elem_of_select in Hin' as [Hk Hp]. simpl in Hj. simplify_eq.
    unfold prunable in Hp. by bool_to_prop. }
  unfold pruned_ids in Hid. destruct (uid =? 0); [|by eapply Htail].
  apply list_elem_of_join in Hid as (l & Hl & Hin). apply list_elem_of_fmap in Hin as (u & -> & _).
  by eapply Htail.
Qed.

Lemma pruneJobHistory_stable uid now : preserves I (pruneJobHistory uid now).
Proof using HI.
  intros s Hs. unfold pruneJobHistory.
  apply bind_inv_at; [done|]. intros s1 ids [-> ->]%gets_Ok _.
  apply bind_inv_at; [|done]. apply js_prune; [done|]. intros id j Hid Hj.
  eapply pruned_ids_retained; [by apply js_inv|exact Hid|done].
Qed.

Lemma RecordJobDecision_stable uid id decision now : preserves I (RecordJobDecision uid id decision now).
Proof using HI.
  do 2 (apply preserves_bind; [auto with preserves|intros _]).
  apply preserves_bind.
  - apply preserves_modify. intros s Hs. by apply js_decision.
  - intros _. apply preserves_bind; [auto with preserves|].
    intros [d|e]; [auto with preserves|]. apply preserves_if; auto with preserves.
Qed.

Lemma SystemAppendJobEvent_stable `{AEAD} input now : preserves I (SystemAppendJobEvent input now).
Proof using HI.
  unfold SystemAppendJobEvent. cbv zeta.
  do 2 (apply preserves_bind; [auto with preserves|intros _]).
  apply preserves_bind; [auto with preserves|intros secrets].
  apply preserves_bind; [auto with preserves|intros known].
  apply preserves_bind; [auto with preserves|intros _].
  apply preserves_bind; [intros s Hs; by apply js_event|].
  intros [id|]; [|auto with preserves].
  apply preserves_bind; [apply SystemGetJob_stable|auto with preserves].
Qed.

Lemma insertBookingRequest_stable uid r now : preserves I (insertBookingRequest uid r now).
Proof using HI.
  apply map_err_stable, preserves_atomically. intros s Hs.
  apply bind_inv_at; [done|]. intros s1 full [-> _]%gets_Ok _.
  apply bind_inv_at; [done|]. intros s1 [] [-> _]%st_reject_Ok _.
  apply bind_inv_at; [done|]. intros s1 id [-> ->]%gets_Ok _.
  apply bind_inv_at; [done|]. intros s1 [] [-> _]%st_reject_Ok _.
  apply bind_inv_at; [done|]. intros s1 taken [-> _]%gets_Ok _.
  apply bind_inv_at; [done|]. intros s1 [] [-> _]%st_reject_Ok _.
  apply bind_inv_at; [done|]. intros s1 ok [-> _]%gets_Ok _.
  apply bind_inv_at; [done|]. intros s1 [] [-> _]%st_reject_Ok _.
  apply bind_inv_at; [by apply js_booking|]. done.
Qed.

Lemma enqueueJobTx_stable actor params clk : preserves I (enqueueJobTx actor params clk).
Proof using HI.
  intros s Hs. unfold enqueueJobTx.
  apply bind_inv_at; [done|]. intros s1 p [-> Hp]%lift_Ok _.
  apply bind_inv_at; [done|]. intros s1 r [-> _]%gets_Ok _.
  apply bind_inv_at; [done|]. intros s1 owner [-> _]%lift_Ok _.
  apply bind_inv_at; [done|]. intros s1 [] [-> _]%st_reject_Ok _.
  apply bind_inv_at; [done|]. intros s1 pending [-> _]%gets_Ok _.
  apply bind_inv_at; [done|]. intros s1 [] [-> _]%st_reject_Ok _.
  apply bind_inv_at; [done|]. intros s1 src [-> _]%gets_Ok _.
  apply bind_inv_at; [done|]. intros s1 sourceID [-> _]%lift_Ok _.
  apply bind_inv_at; [by apply pruneJobHistory_stable|]. intros s1 n _ Hs1.
  apply bind_inv_at; [done|]. intros s2 admitted [-> ->]%gets_Ok _.
  destruct (_ && _) eqn:Hadm; bool_to_prop.
  - apply bind_inv_at; [|intros s2 id _ ?; by apply SystemGetJob_stable].
    unfold map_err.
    match goal with |- context [insert_job ?row s1] =>
      assert (Hinv : I (insert_job row s1).1);
        [|by destruct (insert_job row s1) as [? [?|?]]] end.
    apply js_insert; [done|apply new_job_fresh; by apply (admit_params_Ok _ _ _ Hp)|done].
  - apply (preserves_bind I); auto with preserves.
Qed.

Lemma enqueueJob_stable actor params clk : preserves I (enqueueJob actor params clk).
Proof using HI. apply preserves_atomically, enqueueJobTx_stable. Qed.

Lemma EnqueueBookingRequest_stable `{TimeZoneDB} uid r p token clk :
  preserves I (EnqueueBookingRequest uid r p token clk).
Proof using HI.
  do 3 (apply preserves_bind; [auto with preserves|intros _]).
  apply preserves_bind.
  - unfold prepareBookingRequest, bookingProfile, GetProfile.
    repeat (apply preserves_bind; intros); auto with preserves.
  - intros prepared. apply preserves_atomically.
    apply preserves_bind; [apply insertBookingRequest_stable|intros id; apply enqueueJobTx_stable].
Qed.
End calm.

Section stable.
Context {I : db → Prop} `{HI : !job_stable I}.
#[local] Hint Resolve map_err_stable : preserves.

(** ** Statements *)

Lemma update_job_stable_at id where_ set_row st s :
  I s → (∀ j, jobs s !! id = Some j → where_ j = true → row_step j (set_row j)) →
  I (update_job id where_ set_row st s).1.
Proof using HI.
  intros Hs Hleg. unfold update_job. rewrite ST_bind_unfold. cbn [gets].
  destruct (jobs s !! id) as [j|] eqn:Hj; [|done].
  destruct (where_ j) eqn:Hw; [|done].
  destruct (inv_job_key _ (js_inv _ Hs) id j Hj) as [Hid _].
  pose proof (js_put s st j (set_row j) Hs ltac:(by rewrite Hid) (Hleg j eq_refl Hw)) as Hput.
  rewrite ST_bind_unfold. by destruct (put_job st (set_row j) s) as [s' [u|e]].
Qed.

Lemma update_job_stable id where_ set_row st :
  legal_update where_ set_row → preserves I (update_job id where_ set_row st).
Proof using HI.
  intros Hleg s Hs. apply update_job_stable_at; [done|]. intros j Hj Hw.
  apply Hleg; [|done]. by apply (inv_checks _ (js_inv _ Hs) id).
Qed.

Lemma update_ids_stable ids set_row st where_ :
  legal_update where_ set_row → NoDup ids →
  ∀ s, I s →
    (∀ id j, id ∈ ids → jobs s !! id = Some j → where_ j = true) →
    I (update_ids ids set_row st s).1.
Proof using HI.
  intros Hleg. apply update_ids_keeps; [apply js_inv|done|]. intros id s Hs Hw.
  apply update_job_stable_at; [done|]. intros j Hj _. apply Hleg; [by apply (inv_checks _ (js_inv _ Hs) id)|by apply Hw].
Qed.

Lemma update_jobs_stable where_ set_row st :
  legal_update where_ set_row → preserves I (update_jobs where_ set_row st).
Proof using HI.
  intros Hleg. apply update_jobs_keeps; [apply js_inv|done|]. intros id s Hs Hw.
  apply update_job_stable_at; [done|]. intros j Hj _. apply Hleg; [by apply (inv_checks _ (js_inv _ Hs) id)|by apply Hw].
Qed.

(** ** The operations *)

Lemma SystemExpireStaleJobs_stable now : preserves I (SystemExpireStaleJobs now).
Proof using HI. apply map_err_stable, update_jobs_stable, expire_legal. Qed.

Lemma SystemRecoverInterruptedJobs_stable now : preserves I (SystemRecoverInterruptedJobs now).
Proof using HI. apply map_err_stable, update_jobs_stable, recover_legal. Qed.

Lemma requestJobCancellation_stable uid id now : preserves I (requestJobCancellation uid id now).
Proof using HI.
  apply preserves_bind; [apply map_err_stable, update_job_stable, cancel_legal|].
  intros [j|]; auto with preserves.
Qed.

Lemma SystemMarkConfirmationStarted_stable id now : preserves I (SystemMarkConfirmationStarted id now).
Proof using HI.
  apply preserves_bind; [auto with preserves|]. intros owner.
  apply preserves_bind; [|auto with preserves]. apply map_err_stable, update_job_stable.
  intros j Ho Hw. bool_to_prop. split; simpl; try done; auto.
  - by intros t ->.
  - unfold outcome_ok; simpl. by destruct (JStatus j).
Qed.

Lemma SystemTransitionJob_stable san id expected to upd now :
  preserves I (SystemTransitionJob san id expected to upd now).
Proof using HI.
  intros s Hs. unfold SystemTransitionJob.
  apply bind_inv_at; [done|]. intros s1 [] [-> Hv]%st_reject_Ok _.
  apply bind_inv_at; [done|]. intros s1 [] [-> Hexp]%st_reject_Ok _.
  apply bind_inv_at; [by apply SystemGetJob_stable|]. intros s1 current Hcur _.
  unfold SystemGetJob in Hcur. inv_ok.
  apply bind_inv_at; [done|]. intros s1 [] [-> Hunk]%st_reject_Ok _.
  apply bind_inv_at; [done|]. intros s1 active [-> ->]%gets_Ok _.
  apply bind_inv_at; [|intros s1 [?|] _ ?; [by apply SystemGetJob_stable|done]].
  unfold map_err. match goal with |- context [update_job ?a ?b ?c ?d s] =>
    assert (Hinv : I (update_job a b c d s).1); [|by destruct (update_job a b c d s) as [? [?|?]]] end.
  apply update_job_stable_at; [done|]. intros j Hj Hw.
  match goal with H : scan_job (jobs s !! id) = Ok _ |- _ => rewrite Hj in H; injection H as -> end.
  unfold transition_where in Hw. apply andb_true_iff in Hw as [Hin _]. bool_to_prop.
  apply forallb_forall with (x := JStatus current) in Hexp; [|by apply list_elem_of_In].
  bool_to_prop. match goal with H : CanTransition _ _ = true |- _ => apply CanTransition_spec in H as (?&?&?&?) end.
  apply transition_step; try done; [by apply (inv_checks _ (js_inv _ Hs) id)|].
  intros ->. rewrite bool_decide_true in Hunk by done. simpl in Hunk.
  by destruct (is_some _), (JT_ConfirmationStarted upd).
Qed.

Lemma SystemClaimNextDueJobAt_stable worker now : preserves I (SystemClaimNextDueJobAt worker now).
Proof using HI.
  apply preserves_bind; [auto with preserves|intros _].
  apply preserves_bind; [apply SystemExpireStaleJobs_stable|intros _].
  apply preserves_bind; [auto with preserves|]. intros [c|]; [|auto with preserves].
  apply preserves_bind; [|auto with preserves]. apply map_err_stable, update_job_stable, claim_legal.
Qed.

End stable.

(** ** The invariant of the tables is stable *)

Lemma trim_events_count id s :
  (count_map (λ e, Z.eqb (EJobID e) id) (events (trim_events id s)) ≤ MaxJobEventsPerJob - 1)%nat.
Proof.
  unfold trim_events. cbv zeta. simpl. set (kept := take _ _).
  etrans; [apply (count_map_keys _ _ kept)|subst kept; rewrite length_take; lia].
  intros k e Hk Hp. apply map_lookup_filter_Some in Hk as [_ [Hne|Hin]]; [|done].
  simpl in Hne. apply Z.eqb_eq in Hp. done.
Qed.

Lemma insert_event_inv row id s :
  (∀ k u, EID (row k u) = k ∧ EJobID (row k u) = id ∧ EUserID (row k u) = u) →
  db_inv s → db_inv (insert_event row id s).1.
Proof.
  intros Hrow Hs. unfold insert_event. destruct (jobs s !! id) as [j|] eqn:Hj; [|done].
  destruct (Hrow (next_event s) (JUserID j)) as (Hkey & Hid & Huser).
  assert (Htrim : events (trim_events id s) ⊆ events s) by apply map_filter_subseteq.
  assert (Hfresh : events (trim_events id s) !! next_event s = None).
  { apply eq_None_not_Some. intros [e He]. eapply lookup_weaken in He; [|exact Htrim].
    apply (inv_event _ Hs) in He as [[_ ?] _]. lia. }
  split; try apply Hs.
  - intros k e. simpl. rewrite lookup_insert_Some. intros [[<- <-]|[Hne Hk]].
    + split; [split; [done|lia]|]. rewrite Hid. by exists j.
    + eapply lookup_weaken in Hk; [|exact Htrim].
      destruct (inv_event _ Hs k e Hk) as [[? ?] ?]. split; [split; [done|lia]|done].
  - intros i. simpl. rewrite count_map_insert_fresh by done. rewrite Hid.
    destruct (Z.eqb_spec id i) as [->|Hne].
    + pose proof (trim_events_count i s) as Hc. simpl in Hc. unfold MaxJobEventsPerJob in *. lia.
    + etrans; [|apply (inv_event_limit _ Hs i)]. simpl. by apply count_map_subseteq.
Qed.

#[export] Instance db_inv_stable : job_stable db_inv.
Proof.
  split; [split|]; eauto using put_job_inv, insert_job_inv, insert_booking_inv, insert_decision_inv, insert_event_inv.
  intros s ids Hs _. eapply shrinks_inv; [apply delete_jobs_shrinks|done].
Qed.

Lemma SystemPruneTerminalJobs_stable (I : db → Prop) `{!job_calm I} now :
  (∀ s, I s → I (set_reservations (filter (λ kv, expired_guard now kv = false)) s)) →
  preserves I (SystemPruneTerminalJobs now).
Proof.
  intros Hexp. apply preserves_bind; [by apply preserves_modify|intros; by apply pruneJobHistory_stable].
Qed.
Lemma SystemPruneTerminalJobs_inv now : preserves db_inv (SystemPruneTerminalJobs now).
Proof.
  apply SystemPruneTerminalJobs_stable; [apply _|]. intros s. apply drop_detached_inv.
  intros [slot [k|]]; unfold expired_guard; simpl; done.
Qed.
