(* ===== verification/JobHistory.v ===== *)
(** * The history of jobs

    How the job tables of a later state relate to those of an earlier one, whatever
    operations ran between: a job that is still there has taken legal steps, its id
    was never reused, an unresolved outcome is still there, and the reservation of a
    booking that was or may have been confirmed still stands. *)

From S2P Require Import Prelude GoStrings GoTime Json Secrets Redaction Domain Database JobStore EventStore.
From S2P Require Import JobInvariants JobOperations.
From Stdlib Require Import Ascii String.

Open Scope Z_scope.

(** ** Steps of a row compose *)

Lemma row_step_refl j : outcome_ok j = true → row_step j j.
Proof. intros Ho. split; auto. Qed.

Lemma row_step_trans j1 j2 j3 : row_step j1 j2 → row_step j2 j3 → row_step j1 j3.
Proof.
  intros H12 H23. split; try (etrans; [apply H23|apply H12]).
  - destruct (rs_status _ _ H12) as [He|(Hp & Hv & Hq)], (rs_status _ _ H23) as [He'|(Hp' & Hv' & Hq')].
    + left. congruence.
    + right. by rewrite <- He.
    + right. by rewrite He'.
    + by right.
  - intros Hc. by apply (rs_cancel _ _ H23), (rs_cancel _ _ H12).
  - intros t Ht. by apply (rs_confirmation _ _ H23), (rs_confirmation _ _ H12).
  - apply H23.
Qed.

(** ** Guarded dates *)

(** A booking that succeeded, or whose final confirmation may have begun. *)
Definition may_have_booked (j : Job) : bool :=
  is_some (JConfirmationStartedAt j) || bool_decide (JStatus j ∈ [JobSucceeded; JobOutcomeUnknown]).

(** The date is guarded for job [i]: its reservation is held by that job, which may
    have booked, or is left over from a row that retention deleted. *)
Definition guarded (i : Z) (s : db) (slot : Z * string) : Prop :=
  ∃ o, reservations s !! slot = Some o ∧
    match o with
    | None => True
    | Some k => k = i ∧ ∃ j, jobs s !! k = Some j ∧ may_have_booked j = true
    end.

Lemma may_have_booked_step j j' : row_step j j' → may_have_booked j = true → may_have_booked j' = true.
Proof.
  intros Hstep. unfold may_have_booked. rewrite !orb_true_iff. intros [Hc|Hst].
  - left. destruct (JConfirmationStartedAt j) as [t|] eqn:Ht; [|done].
    by rewrite (rs_confirmation _ _ Hstep t Ht).
  - right. apply bool_decide_eq_true in Hst. destruct (rs_status _ _ Hstep) as [->|[Hp _]].
    + by apply bool_decide_eq_true.
    + apply elem_of_cons in Hst as [Hst|Hst%list_elem_of_singleton]; by rewrite Hst in Hp.
Qed.

Lemma may_have_booked_kept j : may_have_booked j = true → unconfirmed_book j = false.
Proof.
  unfold may_have_booked, unconfirmed_book. rewrite orb_true_iff. intros [Hc|Hst].
  - rewrite Hc. simpl. by rewrite andb_false_r.
  - apply bool_decide_eq_true in Hst.
    apply elem_of_cons in Hst as [Hst|Hst%list_elem_of_singleton]; rewrite Hst; by rewrite andb_false_r.
Qed.

Lemma delete_job_reservation id s slot o :
  db_inv s → reservations s !! slot = Some o →
  reservations (delete_job id s) !! slot =
    match o with
    | Some k => if bool_decide (k = id) then
                  (if match jobs s !! id with Some j => unconfirmed_book j | None => false end
                   then None else Some None)
                else Some (Some k)
    | None => Some None
    end.
Proof.
  intros Hs Hr. unfold delete_job. destruct (jobs s !! id) as [old|] eqn:Hid.
  2: { destruct o as [k|]; [|done]. case_bool_decide as He; [|done]. subst k.
       destruct (inv_reservation _ Hs slot id Hr) as (j & ? & _). congruence. }
  cbv zeta. assert (Hprune : ∀ s1, reservations (prune_booking_snapshot old s1) = reservations s1).
  { intros s1. unfold prune_booking_snapshot. repeat (case_match; simpl; try done). }
  rewrite Hprune. simpl. rewrite lookup_fmap.
  destruct (unconfirmed_book old) eqn:Hun.
  - destruct (decide (o = Some id)) as [->|Hne].
    + assert (Hnone : reservations (release_reservation id s) !! slot = None).
      { apply eq_None_not_Some. intros [o Ho]. apply lookup_release in Ho as [Ho ?]. congruence. }
      simpl in Hnone |- *. rewrite Hnone. simpl. by rewrite bool_decide_true.
    + assert (Hkept : reservations (release_reservation id s) !! slot = Some o) by (by apply lookup_release).
      simpl in Hkept |- *. rewrite Hkept. simpl. destruct o as [k|]; [|done].
      repeat case_bool_decide; naive_solver.
  - rewrite Hr. simpl. destruct o as [k|]; [|done]. repeat case_bool_decide; naive_solver.
Qed.

Lemma delete_job_guarded i id s slot : db_inv s → guarded i s slot → guarded i (delete_job id s) slot.
Proof.
  intros Hs (o & Hr & Ho). unfold guarded. rewrite (delete_job_reservation id s slot o Hs Hr).
  destruct o as [k|]; [|by exists None]. destruct Ho as (-> & j & Hk & Hb). case_bool_decide as He.
  - subst i. rewrite Hk, (may_have_booked_kept j Hb). by exists None.
  - exists (Some i). split; [done|]. split; [done|]. exists j. by rewrite delete_job_jobs, lookup_delete_ne.
Qed.

Lemma delete_jobs_guarded i ids s slot : db_inv s → guarded i s slot → guarded i (delete_jobs ids s) slot.
Proof.
  revert s. induction ids as [|id ids IH]; intros s Hs Hg; [done|]. simpl. apply IH.
  - eapply shrinks_inv; [apply delete_job_shrinks|done].
  - by apply delete_job_guarded.
Qed.

Lemma release_guarded i id s slot :
  (∀ j, jobs s !! id = Some j → unconfirmed_book j = true) →
  guarded i s slot → guarded i (release_reservation id s) slot.
Proof.
  intros Hid (o & Hr & Ho). exists o. split; [|done]. apply lookup_release. split; [done|].
  intros ->. destruct Ho as (<- & j & Hj & Hb). apply may_have_booked_kept in Hb. by rewrite (Hid j Hj) in Hb.
Qed.

(** ** What time does to the tables

    [lost]: the dates whose guard the operations between may have dropped; [forgot]:
    the accounts whose jobs they may have deleted for good. *)

(** The log of events: no number is given twice, and no row changes. *)
Definition log_grows (s s' : db) : Prop :=
  next_event s <= next_event s' ∧ ∀ k e, events s' !! k = Some e → k < next_event s → events s !! k = Some e.
#[export] Instance log_grows_preorder : PreOrder log_grows.
Proof.
  split; [done|]. intros s1 s2 s3 [Hn12 H12] [Hn23 H23]. split; [lia|]. intros k e Hk Hlt.
  apply H12; [|done]. apply H23; [done|lia].
Qed.
Lemma log_shrinks s s' : next_event s' = next_event s → events s' ⊆ events s → log_grows s s'.
Proof. intros Hn He. split; [lia|]. intros k e Hk _. by eapply lookup_weaken. Qed.
Lemma log_same s s' : next_event s' = next_event s → events s' = events s → log_grows s s'.
Proof. intros Hn He. apply log_shrinks; [done|by rewrite He]. Qed.
Lemma insert_event_grows row id s : log_grows s (insert_event row id s).1.
Proof.
  unfold insert_event. destruct (jobs s !! id) as [j|]; [|done]. split; simpl; [lia|].
  intros k e. rewrite lookup_insert_Some. intros [[<- _]|[_ Hk]] Hlt; [lia|]. by apply map_lookup_filter_Some in Hk as [? _].
Qed.

Record evolves (lost : Z * string → Prop) (forgot : Z → Prop) (s s' : db) : Prop := {
  ev_next : next_job s <= next_job s';
  ev_job : ∀ k j, jobs s !! k = Some j → jobs s' !! k = None ∨ ∃ j', jobs s' !! k = Some j' ∧ row_step j j';
  ev_fresh : ∀ k j, jobs s' !! k = Some j → jobs s !! k = None → next_job s <= k;
  ev_unknown : ∀ k j, jobs s !! k = Some j → JStatus j = JobOutcomeUnknown → ¬ forgot (JUserID j) →
    is_some (jobs s' !! k) = true;
  ev_guard : ∀ i slot, ¬ lost slot → guarded i s slot → guarded i s' slot;
  ev_decision : ∀ k d, decisions s !! k = Some d → ¬ forgot (DUserID d) →
    jobs s' !! k = None ∨ decisions s' !! k = Some d;
  ev_log : log_grows s s'
}.

Lemma evolves_refl lost (forgot : Z → Prop) s : db_inv s → evolves lost forgot s s.
Proof.
  intros Hs. split; try done.
  - intros k j Hk. right. exists j. split; [done|]. apply row_step_refl. by apply (inv_checks _ Hs k).
  - intros k j Hk Hn. congruence.
  - intros k j Hk _ _. by rewrite Hk.
  - intros k d Hd _. by right.
Qed.

Lemma row_step_over j j' : row_step j j' → is_pending (JStatus j) = false → JStatus j' = JStatus j.
Proof. intros Hstep Hp. destruct (rs_status _ _ Hstep) as [?|[Hp' _]]; congruence. Qed.

Lemma evolves_trans lost (forgot : Z → Prop) s1 s2 s3 : db_inv s1 → evolves lost forgot s1 s2 → evolves lost forgot s2 s3 → evolves lost forgot s1 s3.
Proof.
  intros Hs H12 H23. pose proof (ev_next _ _ _ _ H12). split.
  - etrans; [apply H12|apply H23].
  - intros k j Hk. destruct (ev_job _ _ _ _ H12 k j Hk) as [Hn|(j2 & Hk2 & Hstep)].
    + destruct (jobs s3 !! k) as [j3|] eqn:Hk3; [|by left].
      apply (ev_fresh _ _ _ _ H23 k j3 Hk3) in Hn. apply (inv_job_key _ Hs) in Hk as [_ ?]. lia.
    + destruct (ev_job _ _ _ _ H23 k j2 Hk2) as [Hn|(j3 & Hk3 & Hstep')]; [by left|].
      right. exists j3. eauto using row_step_trans.
  - intros k j Hk Hn. destruct (jobs s2 !! k) as [j2|] eqn:Hk2; [by eapply (ev_fresh _ _ _ _ H12)|].
    pose proof (ev_fresh _ _ _ _ H23 k j Hk Hk2). lia.
  - intros k j Hk Hst Hf. pose proof (ev_unknown _ _ _ _ H12 k j Hk Hst Hf) as Hk2.
    destruct (ev_job _ _ _ _ H12 k j Hk) as [Hn|(j2 & Hj2 & Hstep)]; [by rewrite Hn in Hk2|].
    apply (ev_unknown _ _ _ _ H23 k j2 Hj2); [|by rewrite (rs_user _ _ Hstep)]. rewrite (row_step_over _ _ Hstep), Hst; [done|by rewrite Hst].
  - intros i slot Hl Hg. apply (ev_guard _ _ _ _ H23 i slot Hl), (ev_guard _ _ _ _ H12 i slot Hl), Hg.
  - intros k d Hd Hf. destruct (ev_decision _ _ _ _ H12 k d Hd Hf) as [Hn|Hd2]; [|by apply (ev_decision _ _ _ _ H23)].
    destruct (jobs s3 !! k) as [j3|] eqn:Hk3; [|by left]. apply (ev_fresh _ _ _ _ H23 k j3 Hk3) in Hn.
    apply (inv_decision _ Hs) in Hd as (_ & j & Hk & _). apply (inv_job_key _ Hs) in Hk as [_ ?]. lia.
  - etrans; [apply H12|apply H23].
Qed.

(** ** The statements *)

Lemma delete_job_decisions id s k d :
  decisions s !! k = Some d → jobs (delete_job id s) !! k = None ∨ decisions (delete_job id s) !! k = Some d.
Proof.
  intros Hd. destruct (decide (k = id)) as [->|Hne]; [left; by rewrite delete_job_jobs, lookup_delete_eq|right].
  unfold delete_job. destruct (jobs s !! id) as [old|]; [|done]. cbv zeta.
  assert (Hprune : ∀ s1, decisions (prune_booking_snapshot old s1) = decisions s1).
  { intros s1. unfold prune_booking_snapshot. repeat (case_match; simpl; try done). }
  rewrite Hprune. simpl. rewrite lookup_delete_ne by done. by destruct (unconfirmed_book old).
Qed.
Lemma delete_jobs_decisions ids s k d :
  decisions s !! k = Some d → jobs (delete_jobs ids s) !! k = None ∨ decisions (delete_jobs ids s) !! k = Some d.
Proof.
  revert s. induction ids as [|id ids IH]; intros s Hd; [by right|].
  change (delete_jobs (id :: ids) s) with (delete_jobs ids (delete_job id s)).
  destruct (delete_job_decisions id s k d Hd) as [Hn|Hd']; [left|by apply IH].
  rewrite delete_jobs_jobs. by destruct (bool_decide _).
Qed.

Lemma delete_jobs_evolves lost (forgot : Z → Prop) ids s :
  db_inv s →
  (∀ id j, id ∈ ids → jobs s !! id = Some j → JStatus j ≠ JobOutcomeUnknown ∨ forgot (JUserID j)) →
  evolves lost forgot s (delete_jobs ids s).
Proof.
  intros Hs Hids. split.
  - by rewrite (sh_next_job _ _ (delete_jobs_shrinks ids s)).
  - intros k j Hk. rewrite delete_jobs_jobs. destruct (bool_decide (k ∈ ids)); [by left|]. right. exists j.
    split; [done|]. apply row_step_refl. by apply (inv_checks _ Hs k).
  - intros k j. rewrite delete_jobs_jobs. destruct (bool_decide (k ∈ ids)); congruence.
  - intros k j Hk Hst Hf. rewrite delete_jobs_jobs. destruct (bool_decide (k ∈ ids)) eqn:He; [|by rewrite Hk].
    bool_to_prop. by destruct (Hids k j He Hk).
  - intros i slot _. by apply delete_jobs_guarded.
  - intros k d Hd _. by apply delete_jobs_decisions.
  - apply log_shrinks; apply delete_jobs_shrinks.
Qed.

Lemma put_row_evolves lost (forgot : Z → Prop) s old new :
  db_inv s → jobs s !! JID old = Some old → row_step old new →
  evolves lost forgot s (set_jobs (<[JID new := new]>) s).
Proof.
  intros Hs Hold Hstep. assert (Hkey : jobs s !! JID new = Some old) by (by rewrite (rs_id _ _ Hstep)).
  split; simpl.
  - done.
  - intros k j Hk. right. destruct (decide (k = JID new)) as [->|Hne].
    + simplify_eq. exists new. by rewrite lookup_insert_eq.
    + exists j. rewrite lookup_insert_ne by done. split; [done|]. apply row_step_refl. by apply (inv_checks _ Hs k).
  - intros k j Hk Hn. rewrite lookup_insert_ne in Hk by congruence. congruence.
  - intros k j Hk _ _. destruct (decide (k = JID new)) as [->|Hne]; [by rewrite lookup_insert_eq|].
    by rewrite lookup_insert_ne, Hk.
  - intros i slot _ (o & Hr & Ho). exists o. split; [done|]. destruct o as [k|]; [|done].
    destruct Ho as (<- & j & Hk & Hb). simpl. split; [done|]. destruct (decide (k = JID new)) as [->|Hne].
    + simplify_eq. exists new. rewrite lookup_insert_eq. eauto using may_have_booked_step.
    + exists j. by rewrite lookup_insert_ne.
  - intros k d Hd _. by right.
  - by apply log_same.
Qed.

Lemma history_excess_retained new s id j :
  id ∈ history_excess new s → jobs s !! id = Some j → is_retained_status (JStatus j) = true.
Proof.
  unfold history_excess. cbv zeta. rewrite <- fmap_drop. intros Hin Hj.
  apply list_elem_of_fmap in Hin as ([k j'] & -> & Hin).
  match type of Hin with _ ∈ drop ?n ?l =>
    assert (Hin' : (k, j') ∈ l) by (rewrite <- (take_drop n l); apply elem_of_app; by right) end.
  apply elem_of_sort_by, elem_of_select in Hin' as [Hk Hp]. simpl in Hj. simplify_eq.
  unfold prunable in Hp. by bool_to_prop.
Qed.

Lemma put_job_evolves lost (forgot : Z → Prop) st s old new :
  db_inv s → jobs s !! JID old = Some old → row_step old new → evolves lost forgot s (put_job st new s).1.
Proof.
  intros Hs Hold Hstep. unfold put_job.
  destruct (unique_ok new s) eqn:Hu; [|by apply evolves_refl]. cbn [negb fst].
  pose proof (put_row_evolves lost forgot s old new Hs Hold Hstep) as Hput.
  pose proof (put_row_inv s old new Hs Hold Hstep Hu) as Hinv.
  set (s1 := set_jobs _ s) in *. destruct st; [|done].
  eapply evolves_trans; [done|exact Hput|]. unfold after_status_update.
  assert (Hdel : ∀ ids, ids = history_excess new s1 → evolves lost forgot s1 (delete_jobs ids s1)).
  { intros ids ->. apply delete_jobs_evolves; [done|]. intros id j Hid Hj. left. intros Heq.
    pose proof (history_excess_retained _ _ _ _ Hid Hj) as Hr. by rewrite Heq in Hr. }
  set (s2 := if is_retained_status (JStatus new) then delete_jobs (history_excess new s1) s1 else s1).
  assert (H12 : evolves lost forgot s1 s2) by (subst s2; destruct (is_retained_status _); [by apply Hdel|by apply evolves_refl]).
  destruct (_ && _) eqn:Hrel; [|done].
  eapply evolves_trans; [done|exact H12|].
  assert (Hsh : shrinks s1 s2) by (subst s2; destruct (is_retained_status _); [apply delete_jobs_shrinks|done]).
  assert (Hs2 : db_inv s2) by (by eapply shrinks_inv).
  assert (Hun : ∀ j, jobs s2 !! JID new = Some j → unconfirmed_book j = true).
  { intros j Hj. eapply sh_job in Hj; [|exact Hsh]. subst s1. simpl in Hj. rewrite lookup_insert_eq in Hj.
    injection Hj as <-. exact Hrel. }
  destruct (evolves_refl lost forgot s2 Hs2). split; try done.
  intros i slot _. by apply release_guarded.
Qed.

Lemma insert_job_evolves lost (forgot : Z → Prop) row s :
  db_inv s → fresh_row (next_job s) (row (next_job s)) → evolves lost forgot s (insert_job row s).1.
Proof.
  intros Hs Hfresh. destruct (insert_job row s) as [s' [id|e]] eqn:Hins.
  2: { apply atomically_Err in Hins as ->. by apply evolves_refl. }
  apply insert_job_Ok in Hins as (-> & _ & _ & _ & s1 & -> & Hres & _). cbn [fst].
  set (new := row (next_job s)) in *.
  assert (Hnone : jobs s !! next_job s = None).
  { apply eq_None_not_Some. intros [j Hj]. apply (inv_job_key _ Hs) in Hj as [_ ?]. lia. }
  assert (Hs' : jobs s' = <[next_job s := new]> (jobs s) ∧ next_job s' = next_job s + 1 ∧
    decisions s' = decisions s ∧ (∀ slot o, reservations s !! slot = Some o → reservations s' !! slot = Some o)
    ∧ log_grows s s').
  { apply reserve_booking_Ok in Hres as [[-> _]|(slot & _ & _ & Hfree & ->)]; split_and!; try done.
    intros slot' o Hr. simpl in *. rewrite lookup_insert_ne; [done|congruence]. }
  destruct Hs' as (Hj & Hn & Hd & Hr & Hlog). split.
  - lia.
  - intros k j Hk. right. exists j. rewrite Hj, lookup_insert_ne by congruence. split; [done|].
    apply row_step_refl. by apply (inv_checks _ Hs k).
  - intros k j. rewrite Hj, lookup_insert_Some. intros [[<- _]|[_ Hk]] Hnk; [lia|congruence].
  - intros k j Hk _ _. rewrite Hj, lookup_insert_ne by congruence. by rewrite Hk.
  - intros i slot _ (o & Ho & Hm). exists o. split; [by apply Hr|]. destruct o as [k|]; [|done].
    destruct Hm as (-> & j & Hk & Hb). split; [done|]. exists j. by rewrite Hj, lookup_insert_ne by congruence.
  - intros k d Hk _. right. by rewrite Hd.
  - done.
Qed.

(** States with the same jobs, that lost reservations of [lost] dates at most. *)
Lemma same_jobs_evolves lost (forgot : Z → Prop) s s' :
  db_inv s → jobs s' = jobs s → next_job s' = next_job s → log_grows s s' →
  (∀ k d, decisions s !! k = Some d → ¬ forgot (DUserID d) → decisions s' !! k = Some d) →
  (∀ slot o, ¬ lost slot → reservations s !! slot = Some o → reservations s' !! slot = Some o) →
  evolves lost forgot s s'.
Proof.
  intros Hs Hj Hn Hlog Hd Hr. split; rewrite ?Hj, ?Hn; try apply (evolves_refl lost forgot s Hs).
  - intros i slot Hl (o & Ho & Hm). exists o. split; [by apply Hr|]. by rewrite Hj.
  - intros k d Hk Hf. right. by apply Hd.
  - done.
Qed.

(** The invariant together with the history since [s0] is stable. *)
Section since.
Context (lost : Z * string → Prop) (forgot : Z → Prop) (s0 : db) (H0 : db_inv s0).

Definition since (s : db) : Prop := db_inv s ∧ evolves lost forgot s0 s.

Lemma since_step s s' : since s → db_inv s' → evolves lost forgot s s' → since s'.
Proof using H0. intros [Hs He] Hs' He'. split; [done|]. by eapply evolves_trans. Qed.

Lemma since_same s s' :
  since s → db_inv s' → jobs s' = jobs s → next_job s' = next_job s → log_grows s s' →
  (∀ k d, decisions s !! k = Some d → decisions s' !! k = Some d) →
  (∀ slot o, ¬ lost slot → reservations s !! slot = Some o → reservations s' !! slot = Some o) → since s'.
Proof using H0. intros Hs Hs' ?????. eapply since_step; [done|done|]. destruct Hs. apply same_jobs_evolves; eauto. Qed.

Lemma since_stable : job_stable since.
Proof using H0.
  split; [split|].
  - by intros s [].
  - intros s ids Hs Hids. destruct Hs as [Hs He]. eapply since_step; [by split|..].
    + eapply shrinks_inv; [apply delete_jobs_shrinks|done].
    + apply delete_jobs_evolves; [done|]. intros id j Hid Hj. left. intros Heq. specialize (Hids id j Hid Hj). by rewrite Heq in Hids.
  - intros s row Hs Hf Hp. destruct Hs as [Hs He]. eapply since_step; [by split|..].
    + by apply insert_job_inv.
    + by apply insert_job_evolves.
  - intros s row Hs Hid. eapply since_same; [done| |done..]. destruct Hs. by apply insert_booking_inv.
  - intros s uid id d now Hs. destruct Hs as [Hs He].
    assert (Hsame : jobs (insert_decision uid id d now s) = jobs s ∧
      next_job (insert_decision uid id d now s) = next_job s ∧
      reservations (insert_decision uid id d now s) = reservations s ∧
      log_grows s (insert_decision uid id d now s) ∧
      ∀ k d', decisions s !! k = Some d' → decisions (insert_decision uid id d now s) !! k = Some d').
    { unfold insert_decision. destruct (jobs s !! id); [|done].
      destruct (_ && user_active _ s && _) eqn:Hg; [|by rewrite andb_false_l]. destruct (decisions s !! id) eqn:Hn; [by rewrite andb_false_r|].
      split_and!; try done. intros k d' Hd. simpl. rewrite lookup_insert_ne; [done|congruence]. }
    destruct Hsame as (? & ? & Hr & ? & ?).
    eapply since_same; [by split|by apply insert_decision_inv|done..|]. intros slot o _. by rewrite Hr.
  - intros s row id Hs Hrow. destruct Hs as [Hs He].
    assert (Hsame : jobs (insert_event row id s).1 = jobs s ∧ next_job (insert_event row id s).1 = next_job s ∧
      reservations (insert_event row id s).1 = reservations s ∧ decisions (insert_event row id s).1 = decisions s).
    { unfold insert_event. by destruct (jobs s !! id). }
    destruct Hsame as (? & ? & Hr & Hd).
    eapply since_same; [by split|by apply insert_event_inv|done|done|apply insert_event_grows|by rewrite Hd|]. intros slot o _. by rewrite Hr.
  - intros s st old new Hs Hold Hstep. destruct Hs as [Hs He]. eapply since_step; [by split|..].
    + by eapply put_job_inv.
    + by eapply put_job_evolves.
Qed.
End since.
