(* ===== verification/JobLemmas.v ===== *)
(** * What the statements of the job store do

    The row an UPDATE leaves (the retention trigger never deletes the row just
    written), the statements that cannot fail, and the order of the queue. *)

From S2P Require Import Prelude GoStrings GoTime Json Secrets Redaction Domain Database JobStore EventStore.
From S2P Require Import JobInvariants JobOperations JobHistory.
From Stdlib Require Import Ascii String.

Open Scope Z_scope.

(** ** Sorting *)

Section sorting.
Context {A : Type} (le : A → A → bool).
Context (Htotal : ∀ a b, le a b = true ∨ le b a = true).
Context (Htrans : ∀ a b c, le a b = true → le b c = true → le a c = true).

Lemma sort_by_sorted l : StronglySorted (rel_of le) (sort_by le l).
Proof using Htotal Htrans.
  assert (Transitive (rel_of le)) by (intros a b c; apply Htrans).
  assert (Total (rel_of le)) by (intros a b; apply Htotal).
  unfold sort_by. by apply StronglySorted_merge_sort.
Qed.

(** The head of a sorted list is least. *)
Lemma sort_by_head l x y : head (sort_by le l) = Some x → y ∈ l → x = y ∨ le x y = true.
Proof using Htotal Htrans.
  pose proof (sort_by_sorted l) as Hs. intros Hh Hy. apply (elem_of_sort_by le) in Hy.
  destruct (sort_by le l) as [|h t]; [done|]. simpl in Hh. injection Hh as ->.
  apply elem_of_cons in Hy as [->|Hy]; [by left|]. right.
  apply StronglySorted_inv in Hs as [_ Hall]. rewrite Forall_forall in Hall. by apply Hall.
Qed.

Lemma sort_by_head_None l : head (sort_by le l) = None ↔ l = [].
Proof using Type.
  split.
  - intros Hh. destruct (sort_by le l) eqn:Hl; [|done].
    assert (Hp : sort_by le l ≡ₚ l) by apply merge_sort_Permutation.
    rewrite Hl in Hp. by apply Permutation_nil in Hp.
  - by intros ->.
Qed.
End sorting.

(** ** The retention trigger keeps the row just written *)

Definition trigger_rank (id : Z) (a b : Z * Job) : bool :=
  if a.1 =? id then true else if b.1 =? id then false else newest_first a b.

Lemma newest_first_total a b : newest_first a b = true ∨ newest_first b a = true.
Proof.
  unfold newest_first. destruct (Z.lt_trichotomy (JUpdatedAt a.2) (JUpdatedAt b.2)) as [Hlt|[Heq|Hlt]].
  - right. apply orb_true_iff. left. by apply Z.ltb_lt.
  - rewrite Heq, Z.ltb_irrefl, Z.eqb_refl. simpl. destruct (Z.leb_spec b.1 a.1); [by left|right].
    apply Z.leb_le. lia.
  - left. apply orb_true_iff. left. by apply Z.ltb_lt.
Qed.

Lemma newest_first_spec a b :
  newest_first a b = true ↔
  JUpdatedAt b.2 < JUpdatedAt a.2 ∨ JUpdatedAt b.2 = JUpdatedAt a.2 ∧ b.1 <= a.1.
Proof. unfold newest_first. rewrite orb_true_iff, andb_true_iff, Z.ltb_lt, Z.eqb_eq, Z.leb_le. done. Qed.

Lemma newest_first_trans a b c : newest_first a b = true → newest_first b c = true → newest_first a c = true.
Proof. rewrite !newest_first_spec. lia. Qed.

Lemma history_excess_not_new new s : JID new ∉ history_excess new s.
Proof.
  unfold history_excess. cbv zeta. set (cands := select _ (jobs s)).
  change (JID new ∉ drop MaxTerminalJobHistoryPerUser (sort_by (trigger_rank (JID new)) cands).*1).
  assert (Hsort : StronglySorted (rel_of (trigger_rank (JID new))) (sort_by (trigger_rank (JID new)) cands)).
  { apply sort_by_sorted.
    - intros a b. unfold trigger_rank. pose proof (newest_first_total a b). destruct (a.1 =? JID new), (b.1 =? JID new); auto.
    - intros a b c. unfold trigger_rank. pose proof (newest_first_trans a b c).
      destruct (a.1 =? JID new), (b.1 =? JID new), (c.1 =? JID new); auto; done. }
  assert (Hnd : NoDup (sort_by (trigger_rank (JID new)) cands).*1).
  { assert (Hp : (sort_by (trigger_rank (JID new)) cands).*1 ≡ₚ cands.*1)
      by (apply fmap_Permutation, merge_sort_Permutation).
    rewrite Hp. apply select_keys_NoDup. }
  destruct (sort_by (trigger_rank (JID new)) cands) as [|h t]; [by apply not_elem_of_nil|].
  simpl in Hnd. apply NoDup_cons in Hnd as [Hh _]. apply StronglySorted_inv in Hsort as [_ Hall].
  unfold MaxTerminalJobHistoryPerUser. simpl. intros Hin.
  assert (Hin' : JID new ∈ t.*1) by (rewrite <- (take_drop 127 t.*1); apply elem_of_app; by right).
  apply list_elem_of_fmap in Hin' as (x & Hx & Hxt). rewrite Forall_forall in Hall.
  specialize (Hall x Hxt). unfold rel_of, trigger_rank in Hall. rewrite <- Hx, Z.eqb_refl in Hall.
  destruct (Z.eqb_spec h.1 (JID new)) as [He|]; [|done].
  apply Hh. rewrite He, Hx. apply list_elem_of_fmap. eauto.
Qed.

Lemma put_job_Ok st new s s' u : put_job st new s = (s', Ok u) → jobs s' !! JID new = Some new.
Proof.
  unfold put_job. destruct (negb _); [done|]. intros [= <- _]. destruct st; [|apply lookup_insert_eq].
  unfold after_status_update.
  set (s1 := set_jobs (<[JID new := new]>) s).
  assert (Hdel : jobs (if is_retained_status (JStatus new) then delete_jobs (history_excess new s1) s1 else s1)
    !! JID new = Some new).
  { destruct (is_retained_status _); [|apply lookup_insert_eq].
    rewrite delete_jobs_jobs, bool_decide_false by apply history_excess_not_new. apply lookup_insert_eq. }
  by destruct (_ && _).
Qed.

(** An UPDATE of one row that succeeds: the row it found and the row it left. *)
Lemma update_job_Ok id where_ set_row st s s' o :
  (∀ j, JID (set_row j) = JID j) → db_inv s →
  update_job id where_ set_row st s = (s', Ok o) →
  match o with
  | None => s' = s ∧ (∀ j, jobs s !! id = Some j → where_ j = false)
  | Some j' => ∃ j, jobs s !! id = Some j ∧ where_ j = true ∧ j' = set_row j ∧ jobs s' !! id = Some j'
  end.
Proof.
  intros Hid Hs. unfold update_job. rewrite ST_bind_unfold. cbn [gets].
  destruct (jobs s !! id) as [j|] eqn:Hj; [|intros [= <- <-]; done].
  destruct (where_ j) eqn:Hw; [|intros [= <- <-]; split; [done|by intros ? [= <-]]].
  rewrite ST_bind_unfold. destruct (put_job st (set_row j) s) as [s1 [u|e]] eqn:Hput; [|done].
  intros [= <- <-]. exists j. split_and!; try done.
  apply put_job_Ok in Hput. rewrite Hid in Hput. by destruct (inv_job_key _ Hs id j Hj) as [<- _].
Qed.

(** ** Statements that cannot fail *)

(** A row that leaves the pending states clashes with no row it did not clash with. *)
Lemma compatible_over j j' o :
  row_step j j' → is_pending (JStatus j') = false → compatible j o = true → compatible j' o = true.
Proof.
  intros Hstep Hp. unfold compatible. rewrite !negb_true_iff, !orb_false_iff.
  intros [[[[Hd _] _] _] _].
  assert (Ha : is_active (JStatus j') = false) by (destruct (is_active _) eqn:He; [apply is_active_pending in He; congruence|done]).
  split_and!.
  - unfold clash_dedup in *. by rewrite (rs_dedup _ _ Hstep).
  - unfold clash_run. by rewrite Hp.
  - unfold clash_profile. by rewrite Ha.
  - unfold clash_source. by rewrite Ha.
  - unfold clash_pairing, pairing_pending. by rewrite Hp, !andb_false_r.
Qed.

Lemma unique_ok_spec new s :
  unique_ok new s = true ↔ ∀ k o, jobs s !! k = Some o → k ≠ JID new → compatible new o = true.
Proof.
  unfold unique_ok. rewrite bool_decide_eq_true. split.
  - intros Hu k o Hk Hne. by destruct (Hu k o Hk).
  - intros Hu k o Hk. destruct (decide (k = JID new)); [by left|right; eauto].
Qed.

Lemma put_over_unique s old new :
  db_inv s → jobs s !! JID old = Some old → row_step old new → is_pending (JStatus new) = false →
  unique_ok new s = true.
Proof.
  intros Hs Hold Hstep Hp. apply unique_ok_spec. intros k o Hk Hne.
  apply (compatible_over old); [done|done|]. eapply (inv_unique _ Hs); [exact Hold|exact Hk|].
  by rewrite <- (rs_id _ _ Hstep).
Qed.

Definition ending_update (where_ : Job → bool) (set_row : Job → Job) : Prop :=
  legal_update where_ set_row ∧ ∀ j, where_ j = true → is_pending (JStatus (set_row j)) = false.

Lemma update_job_ends id where_ set_row st s :
  db_inv s → (∀ j, jobs s !! id = Some j → where_ j = true →
    row_step j (set_row j) ∧ is_pending (JStatus (set_row j)) = false) →
  ∃ s' o, update_job id where_ set_row st s = (s', Ok o).
Proof.
  intros Hs Hend. unfold update_job. rewrite ST_bind_unfold. cbn [gets].
  destruct (jobs s !! id) as [j|] eqn:Hj; [|by eexists _, _].
  destruct (where_ j) eqn:Hw; [|by eexists _, _]. destruct (Hend j eq_refl Hw) as [Hstep Hp].
  rewrite ST_bind_unfold. unfold put_job. rewrite (put_over_unique s j); try done; [by eexists _, _|].
  by destruct (inv_job_key _ Hs id j Hj) as [-> _].
Qed.

(** The rows of a statement that ends jobs: every one of them that retention keeps is
    the row the SET clause makes, the rest of the table only shrinks. *)
Lemma update_ids_ends ids set_row st where_ :
  ending_update where_ set_row → NoDup ids →
  ∀ s, db_inv s → (∀ id j, id ∈ ids → jobs s !! id = Some j → where_ j = true) →
  ∃ s' n, update_ids ids set_row st s = (s', Ok n) ∧
    ∀ k j', jobs s' !! k = Some j' → ∃ j, jobs s !! k = Some j ∧ j' = if bool_decide (k ∈ ids) then set_row j else j.
Proof.
  intros [Hleg Hend]. induction ids as [|id ids IH]; intros Hnd s Hs Hsel.
  { exists s, 0. split; [done|]. intros k j' Hk. exists j'. by rewrite bool_decide_false by apply not_elem_of_nil. }
  apply NoDup_cons in Hnd as [Hnin Hnd]. cbn [update_ids]. rewrite ST_bind_unfold.
  assert (Hstep : ∀ o, jobs s !! id = Some o → row_step o (set_row o)).
  { intros o Ho. apply Hleg; [by apply (inv_checks _ Hs id)|]. apply (Hsel id); [left|done]. }
  destruct (update_job_ends id (λ _, true) set_row st s Hs) as (s1 & o & Hupd).
  { intros j Hj _. split; [by apply Hstep|]. apply Hend, (Hsel id); [left|done]. }
  rewrite Hupd.
  assert (Hother : ∀ k j, k ≠ id → jobs s1 !! k = Some j → jobs s !! k = Some j).
  { intros k j Hk. replace s1 with (update_job id (λ _, true) set_row st s).1 by (by rewrite Hupd).
    apply update_job_other; [|done]. intros x Hx _. rewrite (rs_id _ _ (Hstep x Hx)). by apply (inv_job_key _ Hs). }
  assert (Hs1 : db_inv s1).
  { replace s1 with (update_job id (λ _, true) set_row st s).1 by (by rewrite Hupd). by apply update_job_stable_at; auto. }
  destruct (IH Hnd s1 Hs1) as (s2 & n & Hrest & Hrows).
  { intros k j Hk Hj. apply (Hsel k); [by right|]. apply Hother; [|done]. by intros ->. }
  rewrite ST_bind_unfold, Hrest. eexists _, _. split; [reflexivity|].
  intros k j' Hk. destruct (Hrows k j' Hk) as (j & Hj & ->). destruct (decide (k = id)) as [->|Hne].
  - rewrite (bool_decide_false (id ∈ ids)) by done. rewrite bool_decide_true by left.
    unfold update_job in Hupd. rewrite ST_bind_unfold in Hupd. cbn [gets] in Hupd.
    destruct (jobs s !! id) as [old|] eqn:Hold; [|by injection Hupd as <- <-; congruence].
    rewrite ST_bind_unfold in Hupd. destruct (put_job st (set_row old) s) as [s1' [u|e]] eqn:Hput; [|done].
    injection Hupd as <- _. apply put_job_Ok in Hput. rewrite (rs_id _ _ (Hstep old eq_refl)) in Hput.
    destruct (inv_job_key _ Hs id old Hold) as [Hkey _]. rewrite Hkey in Hput.
    exists old. split; [done|congruence].
  - exists j. split; [by apply Hother|]. repeat case_bool_decide; set_solver.
Qed.

Lemma update_jobs_ends where_ set_row st s :
  ending_update where_ set_row → db_inv s →
  ∃ s' n, update_jobs where_ set_row st s = (s', Ok n) ∧
    ∀ k j', jobs s' !! k = Some j' → ∃ j, jobs s !! k = Some j ∧ j' = if where_ j then set_row j else j.
Proof.
  intros Hend Hs. unfold update_jobs, atomically. rewrite ST_bind_unfold. cbn [gets].
  destruct (update_ids_ends (select where_ (jobs s)).*1 set_row st where_ Hend (select_keys_NoDup _ _) s Hs)
    as (s' & n & Hupd & Hrows).
  { intros id j Hid Hj. apply elem_of_select_keys in Hid as (j' & Hj' & Hw). by simplify_eq. }
  rewrite Hupd. exists s', n. split; [done|]. intros k j' Hk. destruct (Hrows k j' Hk) as (j & Hj & ->).
  exists j. split; [done|]. destruct (where_ j) eqn:Hw.
  - rewrite bool_decide_true; [done|]. apply elem_of_select_keys. eauto.
  - rewrite bool_decide_false; [done|]. intros (j' & Hj' & Hw')%elem_of_select_keys. congruence.
Qed.

Lemma expire_ends now : ending_update (stale now) (expire_row now).
Proof. split; [apply expire_legal|done]. Qed.
Lemma recover_ends now : ending_update (λ j, is_active (JStatus j)) (recover_row now).
Proof. split; [apply recover_legal|]. intros j _. simpl. by destruct (is_some _). Qed.

(** ** The queue *)

Lemma due_first_total a b : due_first a b = true ∨ due_first b a = true.
Proof.
  unfold due_first. destruct (Z.lt_trichotomy (JDueAt a) (JDueAt b)) as [Hlt|[Heq|Hlt]].
  - left. apply orb_true_iff. left. by apply Z.ltb_lt.
  - rewrite Heq, Z.ltb_irrefl, Z.eqb_refl. simpl. destruct (Z.leb_spec (JID a) (JID b)); [by left|right].
    apply Z.leb_le. lia.
  - right. apply orb_true_iff. left. by apply Z.ltb_lt.
Qed.
Lemma due_first_trans a b c : due_first a b = true → due_first b c = true → due_first a c = true.
Proof. unfold due_first. rewrite !orb_true_iff, !andb_true_iff, !Z.ltb_lt, !Z.eqb_eq, !Z.leb_le. lia. Qed.

Lemma next_candidate_Some now s c :
  next_candidate now s = Some c →
  ∃ k, jobs s !! k = Some c ∧ claimable now s c = true ∧
    ∀ k' c', jobs s !! k' = Some c' → claimable now s c' = true → due_first c c' = true.
Proof.
  unfold next_candidate. intros Hh.
  assert (Hin : c ∈ (select (claimable now s) (jobs s)).*2).
  { apply (elem_of_sort_by due_first). by apply head_Some_elem_of. }
  apply elem_of_select_rows in Hin as (k & Hk & Hc). exists k. split_and!; [done..|].
  intros k' c' Hk' Hc'. destruct (sort_by_head _ due_first_total due_first_trans _ c c' Hh) as [->|]; [|..|done].
  - apply elem_of_select_rows. eauto.
  - by destruct (due_first_total c' c').
Qed.
Lemma next_candidate_None now s :
  next_candidate now s = None → ∀ k c, jobs s !! k = Some c → claimable now s c = false.
Proof.
  unfold next_candidate. rewrite sort_by_head_None. intros Hnil k c Hk. apply not_true_iff_false. intros Hc.
  assert (Hin : c ∈ (select (claimable now s) (jobs s)).*2) by (apply elem_of_select_rows; eauto).
  rewrite Hnil in Hin. by apply not_elem_of_nil in Hin.
Qed.
