(* ===== verification/ResourceStore.v ===== *)
(** * Sign-in profiles and one-time-code sources (src/internal/store: profiles,
    sources, otp_preferences, the owner-bound UserStore)

    Creating, editing and deleting the resources a job runs with.  A provider's
    configuration is a JSON value; the nonce of an encryption is an argument. *)

From S2P Require Import Prelude GoStrings GoTime Json Secrets Origin Domain Database JobStore.
From Stdlib Require Import Ascii String.

Open Scope Z_scope.

(** ** Shared classification of owned, guarded updates *)

(** [classifyOwnedGuardedUpdate]: nothing changed because the row is not the
    account's, or because the guard refused it. *)
Definition guarded_update_error (owned : bool) : error :=
  if owned then Wrap "record has a queued or active job" (Sentinel ErrConflict) else Sentinel ErrNotFound.

(** ** Reading sources *)

Definition owned_source (userID id : Z) (s : db) : option SourceRow :=
  r ← sources s !! id; if OSUserID (sr_source r) =? userID then Some r else None.
Definition GetOTPSource (userID id : Z) : ST db OTPSource :=
  _ ← st_reject (userID <=? 0) (Sentinel ErrUserRequired);
  o ← gets (owned_source userID id);
  lift (of_option (Sentinel ErrNotFound) (sr_source <$> o)).
Definition SystemGetOTPSource (id : Z) : ST db OTPSource :=
  o ← gets (λ s, sources s !! id);
  lift (of_option (Sentinel ErrNotFound) (sr_source <$> o)).
Definition ListOTPSources (userID : Z) : ST db (list OTPSource) :=
  _ ← st_reject (userID <=? 0) (Sentinel ErrUserRequired);
  gets (λ s, sort_by (by_name OSName OSID)
    (sr_source <$> (select (λ r, OSUserID (sr_source r) =? userID) (sources s)).*2)).
Definition by_owner_name {A} (owner : A → Z) (name : A → string) (id : A → Z) (a b : A) : bool :=
  (owner a <? owner b) || ((owner a =? owner b) && by_name name id a b).
Definition SystemListOTPSources : ST db (list OTPSource) :=
  gets (λ s, sort_by (by_owner_name OSUserID OSName OSID) (sr_source <$> (rows (sources s)).*2)).

Definition GetDefaultOTPSource (userID : Z) : ST db OTPSource :=
  _ ← st_reject (userID <=? 0) (Sentinel ErrUserRequired);
  o ← gets (λ s, otp_preferences s !! userID);
  sourceID ← lift (of_option (Sentinel ErrNotFound) o);
  GetOTPSource userID sourceID.
Definition SetDefaultOTPSource (userID sourceID : Z) : ST db unit :=
  _ ← st_reject (userID <=? 0) (Sentinel ErrUserRequired);
  o ← gets (owned_source userID sourceID);
  match o with
  | None => fail (Sentinel ErrNotFound)
  | Some _ => modify (set_otp_preferences (<[userID := sourceID]>))
  end.

(** ** Provider configuration *)

Definition MaxProviderConfigJSONBytes : Z := 4 * 1024.
Definition MaxProviderConfigCiphertextBytes : Z := 8 * 1024.

Definition encryptJSON `{AEAD} (nonce : string) (value : json) : result string :=
  let encoded := Marshal value in
  if MaxProviderConfigJSONBytes <? len encoded then Err (Errorf "provider configuration is too large")
  else
    let ciphertext := Encrypt nonce encoded in
    if MaxProviderConfigCiphertextBytes <? len ciphertext
    then Err (Errorf "encrypted provider configuration is too large") else Ok ciphertext.

Definition decrypt_config `{AEAD} (ciphertext : string) : result json :=
  match Decrypt ciphertext with
  | Err e => Err (Wrap "decrypt provider configuration" e)
  | Ok plaintext => of_option (Errorf "decode provider configuration") (Unmarshal plaintext)
  end.
Definition GetOTPSourceConfig `{AEAD} (userID id : Z) : ST db json :=
  _ ← st_reject (userID <=? 0) (Sentinel ErrUserRequired);
  o ← gets (owned_source userID id);
  row ← lift (of_option (Sentinel ErrNotFound) o);
  lift (decrypt_config (sr_config_ciphertext row)).
Definition SystemGetOTPSourceConfig `{AEAD} (id : Z) : ST db json :=
  o ← gets (λ s, sources s !! id);
  row ← lift (of_option (Sentinel ErrNotFound) o);
  lift (decrypt_config (sr_config_ciphertext row)).

(** ** Writing sources *)

Record OTPSourceInput := MkSourceInput {
  SI_Name : string;
  SI_Provider : OTPProvider;
  SI_Identity : string;
  SI_ProviderConfig : option json;
  SI_SecretProvided : bool;
  SI_PairingChatGUID : string;
  SI_PairingSender : string;
  SI_PairingService : string
}.

Definition validatePairing (provider : OTPProvider) (chatGUID sender service : string) : result unit :=
  let populated := Z.of_nat (List.length (filter (λ v, blank v = false) [chatGUID; sender; service])) in
  let blue := bool_decide (provider = OTPProviderBlueBubbles) in
  _ ← reject ((MaxPairingChatGUIDBytes <? len chatGUID) || (MaxPairingSenderBytes <? len sender)
              || (MaxPairingServiceBytes <? len service))
        (Errorf "BlueBubbles pairing fingerprint is too long");
  _ ← reject (negb blue && negb (populated =? 0)) (Errorf "pairing fingerprints are only valid for BlueBubbles");
  reject (blue && negb (populated =? 0) && negb (populated =? 3))
    (Errorf "BlueBubbles pairing requires chat, sender, and service together").

(** The unique indexes of [otp_sources]. *)
Definition has_pairing (o : OTPSource) : bool :=
  bool_decide (OSProvider o = OTPProviderBlueBubbles) && negb (String.eqb (OSPairingChatGUID o) "")
  && negb (String.eqb (OSPairingSender o) "") && negb (String.eqb (OSPairingService o) "").
Definition source_clash (a b : OTPSource) : bool :=
  ((OSUserID a =? OSUserID b) && String.eqb (OSName a) (OSName b))
  || (bool_decide (OSProvider a = OSProvider b) && String.eqb (OSIdentity a) (OSIdentity b))
  || (bool_decide (OSProvider a = OTPProviderBlueBubbles) && bool_decide (OSProvider b = OTPProviderBlueBubbles))
  || (has_pairing a && has_pairing b && equal_fold (OSPairingChatGUID a) (OSPairingChatGUID b)
      && equal_fold (OSPairingSender a) (OSPairingSender b)
      && equal_fold (OSPairingService a) (OSPairingService b)).
Definition source_unique (o : OTPSource) (s : db) : bool :=
  bool_decide (map_Forall (λ k r, k = OSID o ∨ source_clash o (sr_source r) = false) (sources s)).

(** CHECK constraints of a source row. *)
Definition source_checks (r : SourceRow) : bool :=
  let o := sr_source r in
  length_between 1 128 (OSName o) && OTPProvider_Valid (OSProvider o)
  && length_between 1 2048 (OSIdentity o) && (sql_length (sr_config_ciphertext r) <=? 8192)
  && (sql_length (OSPairingChatGUID o) <=? 1024) && (sql_length (OSPairingSender o) <=? 320)
  && (sql_length (OSPairingService o) <=? 64).

Definition input_source (id userID : Z) (input : OTPSourceInput) (created updated : Time) : OTPSource :=
  MkOTPSource id userID (trim_space (SI_Name input)) (SI_Provider input) (trim_space (SI_Identity input))
    (trim_space (SI_PairingChatGUID input)) (trim_space (SI_PairingSender input))
    (trim_space (SI_PairingService input)) created updated.
Definition validate_source (o : OTPSource) : result unit :=
  _ ← source_Validate o;
  validatePairing (OSProvider o) (OSPairingChatGUID o) (OSPairingSender o) (OSPairingService o).

(** [INSERT INTO otp_sources], with the per-account limit trigger and the trigger
    that makes an account's first source its default. *)
Definition insert_source (userID : Z) (row : Z → SourceRow) : ST db Z :=
  atomically (
    full ← gets (λ s, MaxOTPSourcesPerUser <=?
                      Z.of_nat (count_map (λ r, OSUserID (sr_source r) =? userID) (sources s)));
    _ ← st_reject full (Errorf "per-user OTP source limit reached");
    id ← gets next_source;
    _ ← st_reject (negb (source_checks (row id))) (Errorf "CHECK constraint failed: otp_sources");
    unique ← gets (source_unique (sr_source (row id)));
    _ ← st_reject (negb unique) (unique_error "otp_sources");
    owner ← gets (λ s, is_some (users s !! userID));
    _ ← st_reject (negb owner) (Errorf "FOREIGN KEY constraint failed");
    _ ← modify (λ s, bump_source (set_sources (<[id := row id]>) s));
    _ ← modify (set_otp_preferences (λ m, match m !! userID with Some _ => m | None => <[userID := id]> m end));
    mret id).

Definition CreateOTPSource `{AEAD} (userID : Z) (input : OTPSourceInput) (nonce : string) (now : Time) : ST db OTPSource :=
  _ ← st_reject (userID <=? 0) (Sentinel ErrUserRequired);
  config ← lift (of_option (Errorf "provider configuration is required") (SI_ProviderConfig input));
  _ ← lift (validate_source (input_source 0 userID input now now));
  ciphertext ← lift (match encryptJSON nonce config with
                     | Ok c => Ok c | Err e => Err (Wrap "encrypt provider configuration" e) end);
  id ← map_err mapWriteError
         (insert_source userID (λ id, MkSourceRow (input_source id userID input now now) ciphertext));
  GetOTPSource userID id.

(** A pending job uses the source. *)
Definition source_in_use (id : Z) (s : db) : bool :=
  exists_row (λ j, (JOTPSourceID j =? id) && is_pending (JStatus j)) (jobs s).

(** The pairing fingerprint an update writes: a BlueBubbles source that moves to
    another server loses it. *)
Definition updated_source (existing : OTPSource) (input : OTPSourceInput) (now : Time) : result OTPSource :=
  let o := input_source (OSID existing) (OSUserID existing) input (OSCreatedAt existing) now in
  if bool_decide (OSProvider existing = OTPProviderBlueBubbles)
     && bool_decide (OSProvider o = OTPProviderBlueBubbles)
     && negb (String.eqb (OSIdentity existing) (OSIdentity o))
  then
    if negb (SI_SecretProvided input)
    then Err (Errorf "changing the BlueBubbles server requires a newly supplied password")
    else Ok (MkOTPSource (OSID o) (OSUserID o) (OSName o) (OSProvider o) (OSIdentity o) "" "" ""
               (OSCreatedAt o) (OSUpdatedAt o))
  else Ok o.

(** The UPDATE: owner, identity and pending-job guards are part of the statement. *)
Definition update_source_row (userID id : Z) (secret_provided : bool) (o : OTPSource)
    (ciphertext : option string) : ST db bool :=
  row ← gets (owned_source userID id);
  busy ← gets (source_in_use id);
  match row with
  | None => mret false
  | Some old =>
      let blue p := bool_decide (p = OTPProviderBlueBubbles) in
      if negb (secret_provided || negb (blue (OSProvider (sr_source old))) || negb (blue (OSProvider o))
               || String.eqb (OSIdentity (sr_source old)) (OSIdentity o)) || (busy : bool)
      then mret false
      else
        let new := MkSourceRow o (default (sr_config_ciphertext old) ciphertext) in
        unique ← gets (source_unique o);
        _ ← st_reject (negb (source_checks new)) (Errorf "CHECK constraint failed: otp_sources");
        _ ← st_reject (negb unique) (unique_error "otp_sources");
        _ ← modify (set_sources (<[id := new]>));
        mret true
  end.

Definition UpdateOTPSource `{AEAD} (userID id : Z) (input : OTPSourceInput) (nonce : string) (now : Time) : ST db OTPSource :=
  _ ← st_reject (userID <=? 0) (Sentinel ErrUserRequired);
  existing ← GetOTPSource userID id;
  o ← lift (updated_source existing input now);
  _ ← lift (validate_source o);
  _ ← st_reject (negb (is_some (SI_ProviderConfig input))
                 && negb (bool_decide (OSProvider existing = SI_Provider input)))
        (Errorf "changing OTP provider requires replacement provider configuration");
  ciphertext ← lift (match SI_ProviderConfig input with
                     | None => Ok None
                     | Some config => match encryptJSON nonce config with
                                      | Ok c => Ok (Some c) | Err e => Err (mapWriteError e) end
                     end);
  changed ← map_err mapWriteError (update_source_row userID id (SI_SecretProvided input) o ciphertext);
  owned ← gets (λ s, is_some (owned_source userID id s));
  _ ← st_reject (negb changed) (guarded_update_error owned);
  GetOTPSource userID id.

(** The supervised pairing is persisted only while its own job still runs. *)
Definition pairing_job_running (jobID sourceID owner : Z) (s : db) : bool :=
  match jobs s !! jobID with
  | None => false
  | Some j =>
      user_active (JUserID j) s && (JUserID j =? owner) && (JOTPSourceID j =? sourceID)
      && bool_decide (JCommand j = CommandAuthCheck) && bool_decide (JStatus j = JobRunning)
      && negb (JCancelRequested j)
      && has_prefix (JDedupKey j) ("pairing:" +:+ format_int sourceID +:+ ":")
  end.
Definition SystemPersistOTPSourcePairing (jobID sourceID : Z) (chatGUID0 sender0 service0 : string)
    (now : Time) : ST db unit :=
  _ ← st_reject ((jobID <=? 0) || (sourceID <=? 0)) (Errorf "pairing job and source are required");
  source ← SystemGetOTPSource sourceID;
  let chatGUID := trim_space chatGUID0 in
  let sender := trim_space sender0 in
  let service := trim_space service0 in
  _ ← lift (validatePairing (OSProvider source) chatGUID sender service);
  row ← gets (λ s, sources s !! sourceID);
  running ← gets (pairing_job_running jobID sourceID (OSUserID source));
  match row with
  | Some old =>
      if bool_decide (OSProvider source = OTPProviderBlueBubbles) && (running : bool) then
        let o := MkOTPSource (OSID source) (OSUserID source) (OSName source) (OSProvider source)
                   (OSIdentity source) chatGUID sender service (OSCreatedAt source) now in
        unique ← gets (source_unique o);
        _ ← st_reject (negb unique) (Wrap "persist OTP source pairing" (mapWriteError (unique_error "otp_sources")));
        modify (set_sources (<[sourceID := MkSourceRow o (sr_config_ciphertext old)]>))
      else fail (Sentinel ErrTransitionConflict)
  | None => fail (Sentinel ErrTransitionConflict)
  end.

(** [DELETE FROM otp_sources]: restricted while a profile or a job uses it; the
    default preference goes with it. *)
Definition delete_sources (p : SourceRow → bool) : ST db bool := λ s,
  let gone := (select p (sources s)).*1 in
  let used id := exists_row (λ r, POTPSourceID (pr_profile r) =? id) (profiles s)
                 || exists_row (λ j, JOTPSourceID j =? id) (jobs s) in
  if existsb used gone then (s, Err (Errorf "FOREIGN KEY constraint failed"))
  else (set_otp_preferences (filter (λ kv, kv.2 ∉ gone))
          (set_sources (filter (λ kv, kv.1 ∉ gone)) s), Ok (negb (is_nil gone))).
Definition DeleteOTPSource (userID id : Z) : ST db unit :=
  _ ← st_reject (userID <=? 0) (Sentinel ErrUserRequired);
  deleted ← map_err (λ e, Wrap "delete OTP source" (mapWriteError e))
              (delete_sources (λ r, (OSID (sr_source r) =? id) && (OSUserID (sr_source r) =? userID)));
  st_reject (negb deleted) (Sentinel ErrNotFound).
