(* ===== verification/ProfileStore.v ===== *)
(** * Sign-in profiles (src/internal/store/profiles.go)

    Creating, editing, enabling and deleting the profiles jobs run with, and their
    encrypted mobile number. *)

From S2P Require Import Prelude GoStrings GoTime Json Secrets Origin Domain Database JobStore ResourceStore.
From Stdlib Require Import Ascii String.

Open Scope Z_scope.

(** ** The mobile number *)

Definition MaxYodelPhoneInputBytes : Z := 64.
Definition MaxYodelCredentialCiphertextBytes : Z := 4 * 1024.

Definition phone_separator (c : ascii) : bool := any_byte (Ascii.eqb c) " -.()".
(** The digits of the number; a plus sign only in front. *)
Fixpoint phone_digits (first : bool) (s : string) : option string :=
  match s with
  | EmptyString => Some EmptyString
  | String c s' =>
      if is_digit c then d ← phone_digits false s'; Some (String c d)
      else if (Ascii.eqb c "+" && first) || phone_separator c then phone_digits false s'
      else None
  end.
Definition drop_country_code (d : string) : string :=
  match d with
  | String "1" rest => if len d =? 11 then rest else d
  | _ => d
  end.
Definition normalizeYodelPhone (value0 : string) : result string :=
  let value := trim_space value0 in
  if String.eqb value "" then Err (Errorf "Yodel mobile number is required")
  else if MaxYodelPhoneInputBytes <? len value then Err (Errorf "Yodel mobile number is too long")
  else
    match phone_digits true value with
    | None => Err (Errorf "Yodel mobile number must contain only digits and common separators")
    | Some digits =>
        if has_prefix value "+" && (negb (len digits =? 11) || negb (has_prefix digits "1"))
        then Err (Errorf "Yodel mobile number international format must use the +1 country code")
        else
          let normalized := drop_country_code digits in
          if negb (len normalized =? 10)
          then Err (Errorf "Yodel mobile number must contain 10 North American digits")
          else Ok normalized
    end.

Definition encrypt_phone `{AEAD} (nonce phone0 : string) : result string :=
  phone ← normalizeYodelPhone phone0;
  let c := Encrypt nonce phone in
  if MaxYodelCredentialCiphertextBytes <? len c
  then Err (Errorf "encrypted Yodel mobile number is too large") else Ok c.

(** ** Profiles *)

Record ProfileInput := MkProfileInput {
  PI_ProviderID : string;
  PI_LakeID : string;
  PI_Name : string;
  PI_DefaultVehicle : string;
  PI_LoginProbeURL : string;
  PI_OTPSourceID : Z;
  PI_Headless : bool;
  PI_BrowserChannel : string;
  PI_BrowserExecutable : string;
  PI_DefaultTimeoutMS : Z;
  PI_Enabled : bool;
  PI_Credentials : option string
}.

Definition profileFromInput (id userID : Z) (input : ProfileInput) (created updated : Time) : Profile :=
  let lake := trim_space (PI_LakeID input) in
  let provider := trim_space (PI_ProviderID input) in
  MkProfile id userID (if String.eqb provider "" then ProviderYodel else provider)
    (if String.eqb lake "" then DefaultLakeID else lake) (trim_space (PI_Name input))
    (trim_space (PI_DefaultVehicle input)) (trim_space (PI_LoginProbeURL input)) (PI_OTPSourceID input)
    (PI_Headless input) (trim_space (PI_BrowserChannel input)) (trim_space (PI_BrowserExecutable input))
    (PI_DefaultTimeoutMS input) (PI_Enabled input) created updated.
Definition input_ValidateForOrigins (input : ProfileInput) (allowed : list string) : result unit :=
  profile_ValidateForOrigins (profileFromInput 0 0 input zero_time zero_time) allowed.

Definition owned_profile (userID id : Z) (s : db) : option ProfileRow :=
  r ← profiles s !! id; if PUserID (pr_profile r) =? userID then Some r else None.
Definition ListProfiles (userID : Z) : ST db (list Profile) :=
  _ ← st_reject (userID <=? 0) (Sentinel ErrUserRequired);
  gets (λ s, sort_by (by_name PName PID)
    (pr_profile <$> (select (λ r, PUserID (pr_profile r) =? userID) (profiles s)).*2)).
Definition SystemGetProfile (id : Z) : ST db Profile :=
  o ← gets (λ s, profiles s !! id); lift (of_option (Sentinel ErrNotFound) (pr_profile <$> o)).
Definition SystemListProfiles : ST db (list Profile) :=
  gets (λ s, sort_by (by_owner_name PUserID PName PID) (pr_profile <$> (rows (profiles s)).*2)).

Definition decrypt_phone `{AEAD} (ciphertext : string) : result string :=
  if String.eqb ciphertext "" then Err (Sentinel ErrYodelPhoneRequired)
  else match Decrypt ciphertext with
       | Ok phone => Ok phone | Err e => Err (Wrap "decrypt Yodel mobile number" e) end.
Definition GetProfileCredentials `{AEAD} (userID id : Z) : ST db string :=
  _ ← st_reject (userID <=? 0) (Sentinel ErrUserRequired);
  o ← gets (owned_profile userID id);
  row ← lift (of_option (Sentinel ErrNotFound) o);
  lift (decrypt_phone (pr_phone_ciphertext row)).
Definition SystemGetProfileCredentials `{AEAD} (id : Z) : ST db string :=
  o ← gets (λ s, profiles s !! id);
  row ← lift (of_option (Sentinel ErrNotFound) o);
  lift (decrypt_phone (pr_phone_ciphertext row)).

Definition profile_checks (r : ProfileRow) : bool :=
  let p := pr_profile r in
  length_between 1 128 (PName p) && (sql_length (PDefaultVehicle p) <=? 256)
  && (sql_length (pr_phone_ciphertext r) <=? 4096) && (sql_length (PBrowserChannel p) <=? 64)
  && (sql_length (PBrowserExecutable p) <=? 2048) && (0 <? PDefaultTimeoutMS p)
  && length_between 1 64 (PLakeID p) && length_between 1 64 (PProviderID p).
Definition profile_unique (p : Profile) (s : db) : bool :=
  bool_decide (map_Forall (λ k r, k = PID p ∨
    negb ((PUserID (pr_profile r) =? PUserID p) && String.eqb (PName (pr_profile r)) (PName p)) = true)
    (profiles s)).
Definition profile_foreign_key (p : Profile) (s : db) : bool :=
  is_some (users s !! PUserID p)
  && match sources s !! POTPSourceID p with
     | Some r => OSUserID (sr_source r) =? PUserID p | None => false end.

Definition insert_profile (userID : Z) (row : Z → ProfileRow) : ST db Z :=
  atomically (
    full ← gets (λ s, MaxProfilesPerUser <=?
                      Z.of_nat (count_map (λ r, PUserID (pr_profile r) =? userID) (profiles s)));
    _ ← st_reject full (Errorf "per-user profile limit reached");
    id ← gets next_profile;
    _ ← st_reject (negb (profile_checks (row id))) (Errorf "CHECK constraint failed: profiles");
    unique ← gets (profile_unique (pr_profile (row id)));
    _ ← st_reject (negb unique) (unique_error "profiles.user_id, profiles.name");
    fk ← gets (profile_foreign_key (pr_profile (row id)));
    _ ← st_reject (negb fk) (Errorf "FOREIGN KEY constraint failed");
    _ ← modify (λ s, bump_profile (set_profiles (<[id := row id]>) s));
    mret id).

Definition with_source (sourceID : Z) (input : ProfileInput) : ProfileInput :=
  MkProfileInput (PI_ProviderID input) (PI_LakeID input) (PI_Name input) (PI_DefaultVehicle input)
    (PI_LoginProbeURL input) sourceID (PI_Headless input) (PI_BrowserChannel input)
    (PI_BrowserExecutable input) (PI_DefaultTimeoutMS input) (PI_Enabled input) (PI_Credentials input).

Definition CreateProfile `{AEAD} (userID : Z) (input0 : ProfileInput) (nonce : string) (now : Time) : ST db Profile :=
  _ ← st_reject (userID <=? 0) (Sentinel ErrUserRequired);
  input ← (if PI_OTPSourceID input0 =? 0
           then source ← GetDefaultOTPSource userID; mret (with_source (OSID source) input0)
           else mret input0);
  _ ← lift (profile_Validate (profileFromInput 0 userID input now now));
  phone ← lift (of_option (Errorf "Yodel mobile number is required when creating a profile") (PI_Credentials input));
  ciphertext ← lift (encrypt_phone nonce phone);
  id ← map_err mapWriteError
         (insert_profile userID (λ id, MkProfileRow (profileFromInput id userID input now now) ciphertext));
  GetProfile userID id.

(** A pending job uses the profile. *)
Definition profile_in_use (id : Z) (s : db) : bool :=
  exists_row (λ j, (JProfileID j =? id) && is_pending (JStatus j)) (jobs s).
(** trigger [lake_booking_profile_identity] *)
Definition identity_locked (old new : Profile) (s : db) : bool :=
  (negb (PUserID new =? PUserID old) || negb (String.eqb (PLakeID new) (PLakeID old))
   || negb (String.eqb (PProviderID new) (PProviderID old)))
  && bool_decide (Exists (λ kv : (Z * string) * LakeSettings, LSBookingProfileID kv.2 = PID old)
                    (map_to_list (lake_settings s))).

Definition update_profile_row (userID id : Z) (p : Profile) (ciphertext : option string) : ST db bool :=
  row ← gets (owned_profile userID id);
  busy ← gets (profile_in_use id);
  match row with
  | None => mret false
  | Some old =>
      if busy : bool then mret false
      else
        let p' := MkProfile (PID p) (PUserID p) (PProviderID p) (PLakeID p) (PName p) (PDefaultVehicle p)
                    (PLoginProbeURL p) (POTPSourceID p) (PHeadless p) (PBrowserChannel p)
                    (PBrowserExecutable p) (PDefaultTimeoutMS p) (PEnabled p)
                    (PCreatedAt (pr_profile old)) (PUpdatedAt p) in
        let new := MkProfileRow p' (default (pr_phone_ciphertext old) ciphertext) in
        locked ← gets (identity_locked (pr_profile old) p');
        _ ← st_reject locked (Errorf "an account used for bookings cannot change its owner, lake, or provider");
        _ ← st_reject (negb (profile_checks new)) (Errorf "CHECK constraint failed: profiles");
        unique ← gets (profile_unique p');
        _ ← st_reject (negb unique) (unique_error "profiles.user_id, profiles.name");
        fk ← gets (profile_foreign_key p');
        _ ← st_reject (negb fk) (Errorf "FOREIGN KEY constraint failed");
        _ ← modify (set_profiles (<[id := new]>));
        mret true
  end.

Definition UpdateProfile `{AEAD} (userID id : Z) (input : ProfileInput) (nonce : string) (now : Time) : ST db Profile :=
  _ ← st_reject (userID <=? 0) (Sentinel ErrUserRequired);
  let p := profileFromInput id userID input zero_time now in
  _ ← lift (profile_Validate p);
  row ← gets (owned_profile userID id);
  _ ← (if PEnabled p && negb (is_some (PI_Credentials input)) then
         r ← lift (of_option (Sentinel ErrNotFound) row);
         st_reject (String.eqb (pr_phone_ciphertext r) "") (Sentinel ErrYodelPhoneRequired)
       else mret tt);
  ciphertext ← lift (match PI_Credentials input with
                     | None => Ok None
                     | Some phone => c ← encrypt_phone nonce phone; Ok (Some c)
                     end);
  changed ← map_err mapWriteError (update_profile_row userID id p ciphertext);
  owned ← gets (λ s, is_some (owned_profile userID id s));
  _ ← st_reject (negb changed) (guarded_update_error owned);
  GetProfile userID id.

(** [DELETE FROM profiles]: restricted while a booking request, a job or a lake's
    default refers to it; its reservations go with it. *)
Definition delete_profiles (gone : list Z) : ST db unit := λ s,
  let used id := exists_row (λ b, BProfileID b =? id) (bookings s)
                 || exists_row (λ j, JProfileID j =? id) (jobs s)
                 || existsb (λ kv : (Z * string) * LakeSettings, LSBookingProfileID kv.2 =? id)
                      (map_to_list (lake_settings s)) in
  if existsb used gone then (s, Err (Errorf "FOREIGN KEY constraint failed"))
  else (set_reservations (filter (λ kv, kv.1.1 ∉ gone)) (set_profiles (filter (λ kv, kv.1 ∉ gone)) s), Ok tt).

Definition chosen_by_lake (id : Z) (s : db) : bool :=
  existsb (λ kv : (Z * string) * LakeSettings, LSBookingProfileID kv.2 =? id) (map_to_list (lake_settings s)).
Definition DeleteProfile (userID id : Z) : ST db unit :=
  _ ← st_reject (userID <=? 0) (Sentinel ErrUserRequired);
  row ← gets (owned_profile userID id);
  chosen ← gets (chosen_by_lake id);
  match row with
  | None => fail (Sentinel ErrNotFound)
  | Some _ =>
      if chosen : bool
      then fail (Wrap "choose another booking account or clear the lake's booking account before deleting this sign-in"
                   (guarded_update_error true))
      else map_err (λ e, Wrap "delete profile" (mapWriteError e)) (delete_profiles [id])
  end.
