(* ===== verification/SettingsStore.v ===== *)
(** * Personal and installation settings (src/internal/store: settings,
    network_settings)

    The defaults a lake and an account give to a booking, and the network settings of
    the installation.  The stored pass order is the comma-separated text of the
    column, read back by splitting it. *)

From S2P Require Import Prelude GoStrings GoTime Json Origin Domain Database JobStore.
From Stdlib Require Import Ascii String.

Open Scope Z_scope.

(** ** Lake settings *)

Definition passOrderCSV (order : list PassType) : string := join "," (PassType_string <$> order).
Definition read_pass_order (column : string) : list PassType := PassType_of <$> split_byte "," column.

Definition GetLakeSettings (userID : Z) (lakeID : string) : ST db LakeSettings :=
  _ ← st_reject (userID <=? 0) (Sentinel ErrUserRequired);
  lake ← lift (Resolve lakeID);
  o ← gets (λ s, lake_settings s !! (userID, LakeID lake));
  lift (of_option (Sentinel ErrNotFound) o).

(** What the assignments before the validation make of the input. *)
Definition trimmed_settings (userID : Z) (lake : Lake) (s : LakeSettings) : LakeSettings :=
  MkLakeSettings userID (LakeID lake) (LSBookingProfileID s) (trim_space (LSVehicleKeyword s))
    (trim_space (LSTimezone s)) (trim_space (LSReleaseTime s)) (LSReleaseDaysBefore s)
    (trim_space (LSAllDayPassURL s)) (trim_space (LSHalfDayPassURL s)) (LSPreferredPasses s)
    (LSUpdatedAt s).
(** The row the upsert leaves: a non-positive profile id is NULL, which reads as 0. *)
Definition settings_row (now : Time) (s : LakeSettings) : LakeSettings :=
  MkLakeSettings (LSUserID s) (LSLakeID s)
    (if 0 <? LSBookingProfileID s then LSBookingProfileID s else 0) (LSVehicleKeyword s)
    (LSTimezone s) (LSReleaseTime s) (LSReleaseDaysBefore s) (LSAllDayPassURL s) (LSHalfDayPassURL s)
    (Some (read_pass_order (passOrderCSV (default [] (LSPreferredPasses s))))) now.

(** triggers [lake_booking_profile_insert] and [lake_booking_profile_update] *)
Definition profile_of_lake (row : LakeSettings) (s : db) : bool :=
  (LSBookingProfileID row =? 0)
  || match profiles s !! LSBookingProfileID row with
     | Some r => (PUserID (pr_profile r) =? LSUserID row) && String.eqb (PLakeID (pr_profile r)) (LSLakeID row)
     | None => false
     end.
(** CHECK constraints of a lake settings row. *)
Definition settings_checks (row : LakeSettings) : bool :=
  length_between 1 64 (LSLakeID row) && (0 <=? LSReleaseDaysBefore row) && (LSReleaseDaysBefore row <=? 365)
  && (sql_length (LSVehicleKeyword row) <=? 256).
Definition upsert_lake_settings (row : LakeSettings) : ST db unit :=
  linked ← gets (profile_of_lake row);
  _ ← st_reject (negb linked) (Errorf "booking account must belong to the lake and its owner");
  _ ← st_reject (negb (settings_checks row)) (Errorf "CHECK constraint failed: lake_settings");
  owner ← gets (λ s, is_some (users s !! LSUserID row));
  _ ← st_reject (negb owner) (Errorf "FOREIGN KEY constraint failed");
  modify (set_lake_settings (<[(LSUserID row, LSLakeID row) := row]>)).

Definition SaveLakeSettings `{TimeZoneDB} (userID : Z) (settings0 : LakeSettings) (now : Time) : ST db LakeSettings :=
  _ ← st_reject (userID <=? 0) (Sentinel ErrUserRequired);
  lake ← lift (Resolve (LSLakeID settings0));
  let settings := trimmed_settings userID lake settings0 in
  _ ← lift (settings_Validate settings);
  _ ← (if 0 <? LSBookingProfileID settings then
         profile ← GetProfile userID (LSBookingProfileID settings);
         st_reject (negb (String.eqb (profile_EffectiveLakeID profile) (LakeID lake))
                    || negb (String.eqb (EffectiveProviderID profile) (ProviderID lake))) (Sentinel ErrConflict)
       else mret tt);
  _ ← map_err mapWriteError (upsert_lake_settings (settings_row now settings));
  GetLakeSettings userID (LakeID lake).

Definition ResetLakeSettings (userID : Z) (lakeID : string) : ST db unit :=
  _ ← st_reject (userID <=? 0) (Sentinel ErrUserRequired);
  lake ← lift (Resolve lakeID);
  modify (set_lake_settings (delete (userID, LakeID lake))).

(** ** Account settings *)

Definition with_account_user (uid : Z) (s : AccountSettings) : AccountSettings :=
  MkAccountSettings uid (ASDefaultConfirmationMode s) (ASHeadless s) (ASBrowserChannel s)
    (ASDefaultTimeoutMS s) (ASPrepMinutesBefore s) (ASAuthDeadlineMinutesBefore s)
    (ASPollDeadlineSeconds s) (ASPollMinSeconds s) (ASPollMaxSeconds s) (ASUpdatedAt s).
Definition GetAccountSettings (userID : Z) : ST db AccountSettings :=
  _ ← st_reject (userID <=? 0) (Sentinel ErrUserRequired);
  gets (λ s, match account_settings s !! userID with
             | Some a => a | None => with_account_user userID DefaultAccountSettings end).

Definition normalized_account (userID : Z) (s : AccountSettings) : AccountSettings :=
  MkAccountSettings userID
    (if bool_decide (ASDefaultConfirmationMode s = RunModeOther "") then RunModeManual
     else ASDefaultConfirmationMode s)
    (ASHeadless s) (to_lower (trim_space (ASBrowserChannel s))) (ASDefaultTimeoutMS s)
    (ASPrepMinutesBefore s) (ASAuthDeadlineMinutesBefore s) (ASPollDeadlineSeconds s)
    (ASPollMinSeconds s) (ASPollMaxSeconds s) (ASUpdatedAt s).
Definition account_row (now : Time) (s : AccountSettings) : AccountSettings :=
  MkAccountSettings (ASUserID s) (ASDefaultConfirmationMode s) (ASHeadless s) (ASBrowserChannel s)
    (ASDefaultTimeoutMS s) (ASPrepMinutesBefore s) (ASAuthDeadlineMinutesBefore s)
    (ASPollDeadlineSeconds s) (ASPollMinSeconds s) (ASPollMaxSeconds s) now.
(** CHECK constraints of an account settings row. *)
Definition account_checks (a : AccountSettings) : bool :=
  (bool_decide (ASDefaultConfirmationMode a = RunModeManual)
   || bool_decide (ASDefaultConfirmationMode a = RunModeAuto))
  && bool_decide (ASBrowserChannel a ∈ [""; "chrome"; "chrome-beta"; "chrome-dev"; "chrome-canary"])
  && (1000 <=? ASDefaultTimeoutMS a) && (ASDefaultTimeoutMS a <=? 120000)
  && (0 <=? ASPrepMinutesBefore a) && (ASPrepMinutesBefore a <=? 180)
  && (0 <=? ASAuthDeadlineMinutesBefore a) && (ASAuthDeadlineMinutesBefore a <=? ASPrepMinutesBefore a)
  && (1 <=? ASPollDeadlineSeconds a) && (ASPollDeadlineSeconds a <=? 900)
  && SpecFloat.SFleb f64_0_05 (ASPollMinSeconds a) && SpecFloat.SFleb (ASPollMinSeconds a) f64_60
  && SpecFloat.SFleb (ASPollMinSeconds a) (ASPollMaxSeconds a) && SpecFloat.SFleb (ASPollMaxSeconds a) f64_60.
Definition upsert_account_settings (row : AccountSettings) : ST db unit :=
  _ ← st_reject (negb (account_checks row)) (Errorf "CHECK constraint failed: account_settings");
  owner ← gets (λ s, is_some (users s !! ASUserID row));
  _ ← st_reject (negb owner) (Errorf "FOREIGN KEY constraint failed");
  modify (set_account_settings (<[ASUserID row := row]>)).
Definition SaveAccountSettings (userID : Z) (settings0 : AccountSettings) (now : Time) : ST db AccountSettings :=
  _ ← st_reject (userID <=? 0) (Sentinel ErrUserRequired);
  let settings := normalized_account userID settings0 in
  _ ← lift (account_Validate settings);
  _ ← map_err mapWriteError (upsert_account_settings (account_row now settings));
  GetAccountSettings userID.

(** ** Network settings *)

Definition SystemGetNetworkSettings : ST db NetworkSettings :=
  o ← gets network_settings;
  stored ← lift (of_option (Sentinel ErrNotFound) o);
  lift (match Normalize stored with
        | Ok n => Ok n | Err e => Err (Wrap "read network settings" e) end).
Definition SystemSaveNetworkSettings (settings : NetworkSettings) : ST db NetworkSettings :=
  normalized ← lift (Normalize settings);
  let column := Marshal (JArray (JString <$> NSAllowedHosts normalized)) in
  _ ← st_reject ((33000 <? len column) || (64 <? Z.of_nat (List.length (NSAllowedHosts normalized))))
        (Wrap "save network settings" (Errorf "CHECK constraint failed: network_settings"));
  _ ← modify (set_network_settings (Some normalized));
  mret normalized.
