(* ===== verification/AccountStore.v ===== *)
(** * Accounts and sessions (src/internal/store: accounts, auth, sessions)

    The permanent administrator, the members, their passwords, and what disabling or
    deleting an account does to its sessions and jobs.  [slot] tells whether the
    password work limit has a free place, [salt] is the random salt of a new hash.  The
    second part issues, refreshes and revokes browser sessions and counts failed logins; the
    random bytes of a token are arguments. *)

From S2P Require Import Prelude GoStrings GoTime Auth Domain Database JobStore ResourceStore ProfileStore.
From Stdlib Require Import Ascii String.

Open Scope Z_scope.

Definition normalizeUsername (username : string) : result (string * string) :=
  let display := trim_space username in
  normalized ← NormalizeUsername display;
  Ok (display, normalized).

Definition mapUserWriteError (e : error) : error :=
  if contains (to_lower (error_text e)) "permanent administrator"
  then Wrap (error_text e) (Sentinel ErrProtectedAdmin) else mapWriteError e.

(** ** Reading accounts *)

Definition getUser (id : Z) : ST db UserRow :=
  o ← gets (λ s, users s !! id); lift (of_option (Sentinel ErrNotFound) o).
Definition GetUser (id : Z) : ST db User := row ← getUser id; mret (ur_user row).
(** [WHERE username_normalized = ?]: the column is unique. *)
Definition find_username (normalized : string) (s : db) : option UserRow :=
  snd <$> head (select (λ r, String.eqb (ur_normalized r) normalized) (users s)).
(** [WHERE role = 'admin'] *)
Definition find_admin (s : db) : option UserRow :=
  snd <$> head (select (λ r, bool_decide (URole (ur_user r) = RoleAdmin)) (users s)).
Definition HasUsers : ST db bool := gets (λ s, exists_row (λ _, true) (users s)).

(** [ORDER BY CASE role WHEN 'admin' THEN 0 ELSE 1 END, username_normalized, id] *)
Definition admin_first (a b : UserRow) : bool :=
  let rank r := if bool_decide (URole (ur_user r) = RoleAdmin) then 0 else 1 in
  (rank a <? rank b)
  || ((rank a =? rank b) && by_name ur_normalized (λ r, UID (ur_user r)) a b).
Definition ListUsers : ST db (list User) := gets (λ s, ur_user <$> sort_by admin_first (rows (users s)).*2).

(** ** Writing accounts *)

(** The unique indexes of [users]: the normalized name, and one administrator. *)
Definition user_clash (a b : UserRow) : bool :=
  String.eqb (ur_normalized a) (ur_normalized b)
  || (bool_decide (URole (ur_user a) = RoleAdmin) && bool_decide (URole (ur_user b) = RoleAdmin)).
Definition user_unique (r : UserRow) (s : db) : bool :=
  bool_decide (map_Forall (λ k o, k = UID (ur_user r) ∨ user_clash r o = false) (users s)).

(** [INSERT INTO users ... SELECT ... WHERE]: the number of rows and the new id. *)
Definition insert_user (where_ : db → bool) (row : Z → UserRow) : ST db (option Z) :=
  admitted ← gets where_;
  if admitted : bool then
    id ← gets next_user;
    unique ← gets (user_unique (row id));
    _ ← st_reject (negb unique) (unique_error "users.username_normalized");
    _ ← modify (λ s, bump_user (set_users (<[id := row id]>) s));
    mret (Some id)
  else mret None.

(** triggers [users_protect_admin_update] and [users_protect_member_promotion] *)
Definition protected_update (old new : UserRow) : option string :=
  let admin r := bool_decide (URole (ur_user r) = RoleAdmin) in
  if admin old && (negb (admin new) || negb (bool_decide (UStatus (ur_user new) = UserActive)))
  then Some "the permanent administrator cannot be demoted or disabled"
  else if negb (admin old) && admin new
  then Some "the permanent administrator cannot be replaced" else None.
(** [UPDATE users SET ... WHERE id = ? AND ...]: whether a row changed. *)
Definition update_user (id : Z) (where_ : UserRow → bool) (set_row : UserRow → UserRow) : ST db bool :=
  o ← gets (λ s, users s !! id);
  match o with
  | None => mret false
  | Some old =>
      if negb (where_ old) then mret false
      else
        let new := set_row old in
        match protected_update old new with
        | Some message => fail (Errorf message)
        | None =>
            unique ← gets (user_unique new);
            _ ← st_reject (negb unique) (unique_error "users.username_normalized");
            _ ← modify (set_users (<[id := new]>));
            mret true
        end
  end.

Definition is_active_user (r : UserRow) : bool := bool_decide (UStatus (ur_user r) = UserActive).
Definition rename_user (display normalized : string) (status : UserStatus) (now : Time) (r : UserRow) : UserRow :=
  let u := ur_user r in
  MkUserRow (MkUser (UID u) display (URole u) status (UMustChangePassword u) (UCreatedAt u) now)
    normalized (ur_password_hash r).
Definition set_password (hash : string) (status : UserStatus) (mustChange : bool) (now : Time) (r : UserRow) : UserRow :=
  let u := ur_user r in
  MkUserRow (MkUser (UID u) (UUsername u) (URole u) status mustChange (UCreatedAt u) now)
    (ur_normalized r) hash.

Definition delete_sessions_of (userID : Z) : db → db :=
  set_sessions (filter (λ kv, SUserID kv.2 ≠ userID)).

Record CreateUserInput := MkCreateUser {
  CU_Username : string; CU_Password : string; CU_MustChangePassword : bool
}.

Section Hashing.
Context `{Hashes}.

(** The administrator is inserted only into an empty table. *)
Definition SetupAdmin (username password salt : string) (slot : bool) (now : Time) : ST db User :=
  hasUsers ← HasUsers;
  _ ← st_reject hasUsers (Sentinel ErrSetupComplete);
  names ← lift (normalizeUsername username);
  hash ← lift (HashPassword slot salt password);
  o ← map_err (λ e, if errors_is (mapWriteError e) ErrConflict then Sentinel ErrSetupComplete
                    else Wrap "create initial administrator" e)
        (insert_user (λ s, negb (exists_row (λ _, true) (users s)))
           (λ id, MkUserRow (MkUser id names.1 RoleAdmin UserActive false now now) names.2 hash));
  match o with
  | None => fail (Sentinel ErrSetupComplete)
  | Some id => GetUser id
  end.

Definition CreateMember (input : CreateUserInput) (salt : string) (slot : bool) (now : Time) : ST db User :=
  names ← lift (normalizeUsername (CU_Username input));
  hash ← lift (HashPassword slot salt (CU_Password input));
  o ← map_err mapWriteError
        (insert_user (λ s, exists_row (λ r, bool_decide (URole (ur_user r) = RoleAdmin)) (users s))
           (λ id, MkUserRow (MkUser id names.1 RoleMember UserActive (CU_MustChangePassword input) now now)
                    names.2 hash));
  match o with
  | None => fail (Sentinel ErrSetupRequired)
  | Some id => GetUser id
  end.

Definition ChangeUsername (id : Z) (currentPassword username : string) (slot : bool) (now : Time) : ST db bool :=
  row ← getUser id;
  if negb (is_active_user row) || UMustChangePassword (ur_user row) then mret false
  else
    ok ← lift (match VerifyPassword slot (ur_password_hash row) currentPassword with
               | Ok b => Ok b | Err e => Err (Wrap "verify current password" e) end);
    if negb ok then mret false
    else
      names ← lift (normalizeUsername username);
      map_err mapUserWriteError
        (update_user id
           (λ r, is_active_user r && negb (UMustChangePassword (ur_user r))
                 && String.eqb (ur_password_hash r) (ur_password_hash row))
           (λ r, rename_user names.1 names.2 (UStatus (ur_user r)) now r)).

(** ** Disabling an account *)

(** The SET clause over the pending jobs of a disabled account is the one of a
    cancellation with its own message. *)
Definition disable_jobs (userID : Z) (now : Time) : ST db Z :=
  update_jobs (λ j, (JUserID j =? userID) && is_pending (JStatus j))
    (cancel_row "Cancelled because the account was disabled." now) true.

Definition UpdateUser (id : Z) (username : string) (status : UserStatus) (now : Time) : ST db User :=
  names ← lift (normalizeUsername username);
  _ ← st_reject (negb (UserStatus_Valid status)) (Errorf "account status must be active or disabled");
  _ ← atomically (
    row ← getUser id;
    _ ← st_reject (bool_decide (URole (ur_user row) = RoleAdmin) && negb (bool_decide (status = UserActive)))
          (Sentinel ErrProtectedAdmin);
    changed ← map_err mapUserWriteError
                (update_user id (λ _, true) (rename_user names.1 names.2 status now));
    _ ← st_reject (negb changed) (Sentinel ErrNotFound);
    if bool_decide (status = UserDisabled) then
      _ ← modify (delete_sessions_of id);
      _ ← map_err (Wrap "cancel disabled user jobs") (disable_jobs id now);
      mret tt
    else mret tt);
  GetUser id.

(** ** Deleting a member *)

(** [DELETE FROM booking_requests WHERE user_id = ?]: restricted while a job uses one. *)
Definition delete_bookings_of (userID : Z) : ST db unit := λ s,
  let gone b := BUserID b =? userID in
  if exists_row (λ j, match JBookingRequestID j ≫= λ bid, bookings s !! bid with
                      | Some b => gone b | None => false end) (jobs s)
  then (s, Err (Errorf "FOREIGN KEY constraint failed"))
  else (set_bookings (filter (λ kv, gone kv.2 = false)) s, Ok tt).

(** A row of another table that forbids deleting the account. *)
Definition user_referenced (id : Z) (s : db) : bool :=
  exists_row (λ r, OSUserID (sr_source r) =? id) (sources s)
  || exists_row (λ r, PUserID (pr_profile r) =? id) (profiles s)
  || exists_row (λ b, BUserID b =? id) (bookings s)
  || exists_row (λ j, JUserID j =? id) (jobs s)
  || exists_row (λ e, EUserID e =? id) (events s)
  || exists_row (λ d, DUserID d =? id) (decisions s).
(** [DELETE FROM users]: the protecting triggers, the restricting references, and the
    tables that cascade. *)
Definition delete_user (id : Z) (where_ : UserRow → bool) : ST db bool := λ s,
  match users s !! id with
  | None => (s, Ok false)
  | Some r =>
      if negb (where_ r) then (s, Ok false)
      else if bool_decide (URole (ur_user r) = RoleAdmin)
      then (s, Err (Errorf "the permanent administrator cannot be deleted"))
      else if bool_decide (URole (ur_user r) = RoleMember) && negb (bool_decide (UStatus (ur_user r) = UserDisabled))
      then (s, Err (Errorf "member account must be disabled before deletion"))
      else if user_referenced id s then (s, Err (Errorf "FOREIGN KEY constraint failed"))
      else (set_users (delete id)
              (delete_sessions_of id
                (set_lake_settings (filter (λ kv, kv.1.1 ≠ id))
                  (set_account_settings (delete id) (set_otp_preferences (delete id) s)))), Ok true)
  end.
End Hashing.

(** The member's rows go table by table, each job with its triggers. *)
Definition DeleteMember (id : Z) (confirmedUsername : string) : ST db unit :=
  _ ← st_reject (id <=? 0) (Sentinel ErrNotFound);
  atomically (
    row ← getUser id;
    let user := ur_user row in
    _ ← st_reject (bool_decide (URole user = RoleAdmin)) (Sentinel ErrProtectedAdmin);
    _ ← st_reject (negb (bool_decide (UStatus user = UserDisabled))) (Sentinel ErrMemberMustBeDisabled);
    _ ← st_reject (negb (String.eqb confirmedUsername (UUsername user))) (Sentinel ErrMemberDeleteConfirmation);
    activeJobs ← gets (λ s, exists_row (λ j, (JUserID j =? id) && is_pending (JStatus j)) (jobs s));
    _ ← st_reject activeJobs (Sentinel ErrMemberHasActiveJobs);
    _ ← modify (set_decisions (filter (λ kv, DUserID kv.2 ≠ id)));
    _ ← modify (set_events (filter (λ kv, EUserID kv.2 ≠ id)));
    owned ← gets (λ s, (select (λ j, JUserID j =? id) (jobs s)).*1);
    _ ← modify (delete_jobs owned);
    _ ← map_err (Wrap "delete member-owned state") (delete_bookings_of id);
    _ ← modify (set_lake_settings (filter (λ kv, kv.1.1 ≠ id)));
    gone ← gets (λ s, (select (λ r, PUserID (pr_profile r) =? id) (profiles s)).*1);
    _ ← map_err (Wrap "delete member-owned state") (delete_profiles gone);
    _ ← map_err (Wrap "delete member-owned state") (delete_sources (λ r, OSUserID (sr_source r) =? id));
    _ ← modify (delete_sessions_of id);
    deleted ← map_err (λ e, Wrap "delete member account" (mapUserWriteError e))
                (delete_user id (λ r, bool_decide (URole (ur_user r) = RoleMember)
                   && bool_decide (UStatus (ur_user r) = UserDisabled)
                   && String.eqb (UUsername (ur_user r)) confirmedUsername));
    st_reject (negb deleted) (Sentinel ErrNotFound)).

(** ** Passwords *)

Section Passwords.
Context `{Hashes}.

(** The account and the hash that was verified; [None] when the name or the password
    is wrong or the account is not active. *)
Definition authenticatePassword (username password : string) (slot : bool)
    : ST db (option (User * string)) :=
  match NormalizeUsername username with
  | Err _ => _ ← lift (EqualizePasswordCheck slot password); mret None
  | Ok normalized =>
      o ← gets (find_username normalized);
      match o with
      | None => _ ← lift (EqualizePasswordCheck slot password); mret None
      | Some row =>
          ok ← lift (match VerifyPassword slot (ur_password_hash row) password with
                     | Ok b => Ok b | Err e => Err (Wrap "verify account password" e) end);
          mret (if negb ok || negb (is_active_user row) then None
                else Some (ur_user row, ur_password_hash row))
      end
  end.
Definition AuthenticateUser (username password : string) (slot : bool) : ST db (option User) :=
  o ← authenticatePassword username password slot; mret (fst <$> o).

Definition ResetUserPassword (id : Z) (password salt : string) (mustChange slot : bool) (now : Time) : ST db unit :=
  hash ← lift (HashPassword slot salt password);
  atomically (
    changed ← map_err (Wrap "reset user password")
      (update_user id (λ _, true) (λ r, set_password hash (UStatus (ur_user r)) mustChange now r));
    _ ← st_reject (negb changed) (Sentinel ErrNotFound);
    modify (delete_sessions_of id)).

(** [slot1] is for the verification, [slot2] for the new hash. *)
Definition ChangeUserPassword (id : Z) (currentPassword newPassword salt : string) (slot1 slot2 : bool)
    (now : Time) : ST db bool :=
  row ← getUser id;
  if negb (is_active_user row) then mret false
  else
    ok ← lift (match VerifyPassword slot1 (ur_password_hash row) currentPassword with
               | Ok b => Ok b | Err e => Err (Wrap "verify current password" e) end);
    if negb ok then mret false
    else
      _ ← st_reject (String.eqb currentPassword newPassword) (Sentinel ErrPasswordUnchanged);
      hash ← lift (HashPassword slot2 salt newPassword);
      atomically (
        changed ← map_err (Wrap "change password")
          (update_user id (λ r, is_active_user r && String.eqb (ur_password_hash r) (ur_password_hash row))
             (λ r, set_password hash (UStatus (ur_user r)) false now r));
        if negb changed then mret false
        else _ ← modify (delete_sessions_of id); mret true).

Definition ResetAdministratorPassword (password salt : string) (slot : bool) (now : Time) : ST db User :=
  hash ← lift (HashPassword slot salt password);
  id ← atomically (
    o ← gets find_admin;
    row ← lift (of_option (Sentinel ErrNotFound) o);
    let id := UID (ur_user row) in
    changed ← map_err mapUserWriteError
      (update_user id (λ r, bool_decide (URole (ur_user r) = RoleAdmin)) (set_password hash UserActive false now));
    _ ← st_reject (negb changed) (Sentinel ErrNotFound);
    _ ← modify (delete_sessions_of id);
    mret id);
  GetUser id.
End Passwords.

(** * Sessions and login attempts (internal/store/sessions.go) *)

Definition SessionIdleTimeout : Duration := 30 * Minute.
Definition MaxSessionLifetime : Duration := 31 * 24 * Hour.

Record SessionCredentials := MkCredentials {
  SC_Token : string; SC_CSRFToken : string; SC_Session : Session
}.

(** trigger [sessions_user_limit]: before an insert, all but the seven sessions of the
    account seen last go. [ORDER BY last_seen_at DESC, id DESC] *)
Definition session_rank (a b : string * Session) : bool :=
  (SLastSeenAt b.2 <? SLastSeenAt a.2)
  || ((SLastSeenAt b.2 =? SLastSeenAt a.2) && String.leb b.1 a.1).
Definition kept_sessions (userID : Z) (s : db) : list string :=
  (take (MaxSessionsPerUser - 1)
    (sort_by session_rank (filter (λ kv, SUserID kv.2 = userID) (map_to_list (sessions s))))).*1.
Definition trim_sessions (userID : Z) (s : db) : db :=
  let kept := kept_sessions userID s in
  set_sessions (filter (λ kv, SUserID kv.2 ≠ userID ∨ kv.1 ∈ kept)) s.

(** [INSERT INTO sessions ... SELECT ... FROM users WHERE id = ? AND status = 'active']
    with the optional password hash: the number of rows. *)
Definition insert_session (session : Session) (expectedHash : option string) : ST db bool := λ s,
  match users s !! SUserID session with
  | Some r =>
      if is_active_user r
         && match expectedHash with Some h => String.eqb (ur_password_hash r) h | None => true end
      then
        let s1 := trim_sessions (SUserID session) s in
        match sessions s1 !! SID session with
        | Some _ => (s, Err (unique_error "sessions.id"))
        | None => (set_sessions (<[SID session := session]>) s1, Ok true)
        end
      else (s, Ok false)
  | None => (s, Ok false)
  end.

Section Tokens.
Context `{Hashes}.

Definition newSessionInScope (userID : Z) (lifetime : Duration) (expectedHash : option string)
    (scope raw csrfRaw : string) (now : Time) : ST db SessionCredentials :=
  _ ← st_reject ((lifetime <=? 0) || (MaxSessionLifetime <? lifetime))
        (Errorf "session lifetime must be between zero and 31 days");
  let token := NewSessionToken raw scope in
  let csrf := NewToken csrfRaw in
  let session := MkSession (HashToken token) userID (HashToken csrf) (Add now lifetime) now now in
  created ← map_err (Wrap "create session") (insert_session session expectedHash);
  _ ← st_reject (negb created) (Sentinel ErrNotFound);
  mret (MkCredentials token csrf session).
Definition NewSession (userID : Z) (lifetime : Duration) (raw csrfRaw : string) (now : Time) : ST db SessionCredentials :=
  newSessionInScope userID lifetime None "" raw csrfRaw now.

(** The session is bound to the password hash that was verified: an account that is
    gone, disabled or has another password by then is a failed login. *)
Definition issue_session (user : User) (hash : string) (lifetime : Duration) (scope raw csrfRaw : string)
    (now : Time) : ST db (option (User * SessionCredentials)) := λ s,
  match newSessionInScope (UID user) lifetime (Some hash) scope raw csrfRaw now s with
  | (s', Ok credentials) => (s', Ok (Some (user, credentials)))
  | (s', Err e) => if errors_is e ErrNotFound then (s', Ok None) else (s', Err e)
  end.
Definition AuthenticateAndCreateSessionInScope (username password : string) (lifetime : Duration)
    (scope raw csrfRaw : string) (slot : bool) (now : Time) : ST db (option (User * SessionCredentials)) :=
  o ← authenticatePassword username password slot;
  match o with
  | None => mret None
  | Some (user, hash) => issue_session user hash lifetime scope raw csrfRaw now
  end.
Definition AuthenticateAndCreateSession (username password : string) (lifetime : Duration)
    (raw csrfRaw : string) (slot : bool) (now : Time) : ST db (option (User * SessionCredentials)) :=
  AuthenticateAndCreateSessionInScope username password lifetime "" raw csrfRaw slot now.

(** ** Use *)

Definition live_session (now : Time) (session : Session) (s : db) : bool :=
  (now <? SExpiresAt session) && (Add now (- SessionIdleTimeout) <? SLastSeenAt session)
  && user_active (SUserID session) s.
Definition GetSession (token : string) (now : Time) : ST db (Session * User) :=
  o ← gets (λ s,
    session ← sessions s !! HashToken token;
    r ← users s !! SUserID session;
    if live_session now session s then Some (session, ur_user r) else None);
  lift (of_option (Sentinel ErrNotFound) o).

(** [subtle.ConstantTimeCompare] of the stored hash. *)
Definition ValidateCSRF (session : Session) (token : string) : bool :=
  String.eqb (HashToken token) (SCSRFTokenHash session).

Definition touched (now : Time) (session : Session) : Session :=
  MkSession (SID session) (SUserID session) (SCSRFTokenHash session) (SExpiresAt session)
    (SCreatedAt session) now.
Definition TouchSession (token : string) (now : Time) : ST db unit :=
  o ← gets (λ s,
    session ← sessions s !! HashToken token;
    if live_session now session s then Some session else None);
  match o with
  | None => fail (Sentinel ErrNotFound)
  | Some session => modify (set_sessions (<[HashToken token := touched now session]>))
  end.
Definition DeleteSession (token : string) : ST db unit := modify (set_sessions (delete (HashToken token))).
End Tokens.

Definition expired_session (now : Time) (session : Session) : bool :=
  (SExpiresAt session <=? now) || (SLastSeenAt session <=? Add now (- SessionIdleTimeout)).
Definition PurgeExpiredSessions (now : Time) : ST db Z :=
  n ← gets (λ s, Z.of_nat (count_map (expired_session now) (sessions s)));
  _ ← modify (set_sessions (filter (λ kv, expired_session now kv.2 = false)));
  mret n.

(** ** Login attempts *)

Definition trim_keys (rateKeys : list string) : result (list string) :=
  foldr (λ key acc, keys ← acc;
           let k := trim_space key in
           if String.eqb k "" || (256 <? len k)
           then Err (Errorf "login rate key must contain at most 256 characters") else Ok (k :: keys))
    (Ok []) rateKeys.
Definition insert_attempt (key : string) (now : Time) (s : db) : db :=
  bump_attempt (set_attempts (<[next_attempt s := MkLoginAttempt key false now]>) s).
(** A success clears the failures of the keys, a failure adds one per key; attempts
    older than a day go in the same transaction.  [clk i] is the clock reading of the
    [i]-th insert, [clk 8] the one of the purge. *)
Definition RecordLoginAttempts (rateKeys : list string) (succeeded : bool) (clk : nat → Time) : ST db unit :=
  keys ← lift (trim_keys rateKeys);
  let unique := remove_dups keys in
  _ ← st_reject (is_nil unique || (8 <? Z.of_nat (List.length unique)))
        (Errorf "between one and eight login rate keys are required");
  atomically (
    _ ← (if succeeded then modify (set_attempts (filter (λ kv, la_rate_key kv.2 ∉ unique)))
         else modify (λ s, foldl (λ s p, insert_attempt p.2 (clk p.1) s) s (imap pair unique)));
    modify (set_attempts (filter (λ kv, Z.ltb (la_attempted_at kv.2) (Add (clk 8%nat) (- (24 * Hour))) = false)))).
Definition RecordLoginAttempt (rateKey : string) (succeeded : bool) (clk : nat → Time) : ST db unit :=
  RecordLoginAttempts [rateKey] succeeded clk.

(** The failures of the key inside the window, and the oldest of them. *)
Definition recent_failures (key : string) (since : Time) (s : db) : list Time :=
  la_attempted_at <$> (select (λ a, String.eqb (la_rate_key a) key && negb (la_succeeded a)
                                    && (since <? la_attempted_at a)) (attempts s)).*2.
Definition oldest (ts : list Time) : option Time :=
  foldr (λ t acc, Some (match acc with Some u => Z.min t u | None => t end)) None ts.
Definition LoginRateLimit (rateKey : string) (now : Time) (window : Duration) (maxFailures : Z)
    : ST db (bool * option Time) :=
  _ ← st_reject ((window <=? 0) || (maxFailures <=? 0))
        (Errorf "rate-limit window and maximum must be positive");
  failures ← gets (recent_failures (trim_space rateKey) (Add now (- window)));
  mret (match oldest failures with
        | Some first =>
            if Z.of_nat (List.length failures) <? maxFailures then (true, None)
            else (false, Some (Add first window))
        | None => (true, None)
        end).
