(* ===== verification/AccountInvariants.v ===== *)
(** * Accounts, resources and settings keep the invariants of the job tables

    Every operation outside the job store leaves the jobs, their bookings, events,
    decisions and reservations as they were, or only loses the ones of a deleted
    member, and keeps the rows the jobs refer to. *)

From S2P Require Import Prelude GoStrings GoTime Json Secrets Auth Origin Domain Database JobStore.
From S2P Require Import JobInvariants EventStore JobOperations ResourceStore ProfileStore SettingsStore AccountStore.
From S2P Require Import AccountStore.
From Stdlib Require Import Ascii String.

Open Scope Z_scope.

(** ** States with the same job tables *)

Record keeps (s s' : db) : Prop := {
  kp_jobs : jobs s' = jobs s;
  kp_bookings : bookings s' = bookings s;
  kp_events : events s' = events s;
  kp_decisions : decisions s' = decisions s;
  kp_reservations : reservations s' = reservations s;
  kp_next_job : next_job s' = next_job s;
  kp_next_booking : next_booking s' = next_booking s;
  kp_next_event : next_event s' = next_event s;
  kp_foreign_keys : ∀ k j, jobs s !! k = Some j → job_foreign_keys j s = true → job_foreign_keys j s' = true
}.

Lemma keeps_inv s s' : keeps s s' → db_inv s → db_inv s'.
Proof.
  intros K Hs. split; unfold job_slot, pending_count, retained_count, count_jobs;
    rewrite ?(kp_jobs _ _ K), ?(kp_bookings _ _ K), ?(kp_events _ _ K), ?(kp_decisions _ _ K),
      ?(kp_reservations _ _ K), ?(kp_next_job _ _ K), ?(kp_next_booking _ _ K), ?(kp_next_event _ _ K);
    try apply Hs.
  intros k j Hk. apply (kp_foreign_keys _ _ K k j Hk). by apply (inv_fk _ Hs k).
Qed.

(** A row keeps its owner: the part of a row a job's foreign keys read. *)
Definition same_owner {A} (owner : A → Z) (o1 o2 : option A) : Prop :=
  ∀ a, o1 = Some a → ∃ b, o2 = Some b ∧ owner b = owner a.

Lemma same_owner_refl {A} (owner : A → Z) o : same_owner owner o o.
Proof. intros a ->. eauto. Qed.

Lemma insert_same_owner {A} (owner : A → Z) (m : gmap Z A) id a :
  (∀ old, m !! id = Some old → owner a = owner old) →
  ∀ k, same_owner owner (m !! k) (<[id := a]> m !! k).
Proof.
  intros Hid k b Hk. destruct (decide (k = id)) as [->|Hne].
  - rewrite lookup_insert_eq. eauto.
  - rewrite lookup_insert_ne by done. eauto.
Qed.

Lemma keeps_owners s s' :
  jobs s' = jobs s → bookings s' = bookings s → events s' = events s → decisions s' = decisions s →
  reservations s' = reservations s → next_job s' = next_job s → next_booking s' = next_booking s →
  next_event s' = next_event s →
  (∀ k, same_owner (λ _, 0) (users s !! k) (users s' !! k)) →
  (∀ k, same_owner (λ r, PUserID (pr_profile r)) (profiles s !! k) (profiles s' !! k)) →
  (∀ k, same_owner (λ r, OSUserID (sr_source r)) (sources s !! k) (sources s' !! k)) →
  keeps s s'.
Proof.
  intros ?? ?? ?? ?? Hu Hp Ho. split; try done. intros k j Hj.
  unfold job_foreign_keys. replace (bookings s') with (bookings s) by done.
  rewrite !andb_true_iff. intros [[[Hu1 Hp1] Ho1] ?]. split_and!; [| | |done].
  - destruct (users s !! JUserID j) eqn:He; [|done]. by destruct (Hu _ _ He) as (? & -> & _).
  - destruct (profiles s !! JProfileID j) eqn:He; [|done]. destruct (Hp _ _ He) as (? & -> & Heq).
    simpl in Heq. by rewrite Heq.
  - destruct (sources s !! JOTPSourceID j) eqn:He; [|done]. destruct (Ho _ _ He) as (? & -> & Heq).
    simpl in Heq. by rewrite Heq.
Qed.

(** Statements on tables the invariant does not read. *)
Lemma modify_other_inv f :
  (∀ s, jobs (f s) = jobs s ∧ bookings (f s) = bookings s ∧ events (f s) = events s ∧
    decisions (f s) = decisions s ∧ reservations (f s) = reservations s ∧ next_job (f s) = next_job s ∧
    next_booking (f s) = next_booking s ∧ next_event (f s) = next_event s ∧ users (f s) = users s ∧
    profiles (f s) = profiles s ∧ sources (f s) = sources s) →
  preserves db_inv (modify f).
Proof.
  intros Hf. apply preserves_modify. intros s. apply keeps_inv.
  destruct (Hf s) as (?&?&?&?&?&?&?&?&Hu&Hp&Ho).
  apply keeps_owners; try done; intros k; rewrite ?Hu, ?Hp, ?Ho; apply same_owner_refl.
Qed.
#[export] Hint Extern 2 (preserves db_inv (modify _)) =>
  solve [apply modify_other_inv; intros; repeat split; reflexivity] : preserves.

(** ** The invariant of accounts and resources *)

(** A row with this id exists and belongs to the account. *)
Definition owned_in {A} (owner : A → Z) (m : gmap Z A) (id uid : Z) : Prop :=
  ∃ a, m !! id = Some a ∧ owner a = uid.
Definition profile_owner (r : ProfileRow) : Z := PUserID (pr_profile r).
Definition source_owner (r : SourceRow) : Z := OSUserID (sr_source r).
Definition has_user (us : gmap Z UserRow) (uid : Z) : Prop := is_some (us !! uid) = true.

Record user_inv (us : gmap Z UserRow) (next : Z) : Prop := {
  ui_key : ∀ k r, us !! k = Some r → UID (ur_user r) = k ∧ k < next;
  ui_unique : ∀ k1 k2 r1 r2, us !! k1 = Some r1 → us !! k2 = Some r2 → k1 ≠ k2 → user_clash r1 r2 = false;
  ui_admin : ∀ k r, us !! k = Some r → URole (ur_user r) = RoleAdmin → UStatus (ur_user r) = UserActive;
  ui_role : ∀ k r, us !! k = Some r → URole (ur_user r) = RoleAdmin ∨ URole (ur_user r) = RoleMember
}.

(** [skip]: an account whose sessions are about to be revoked. *)
Record session_inv (skip : option Z) (us : gmap Z UserRow) (ss : gmap string Session) : Prop := {
  si_key : ∀ k x, ss !! k = Some x → SID x = k;
  si_active : ∀ k x, ss !! k = Some x → has_user us (SUserID x) ∧
    (skip ≠ Some (SUserID x) → ∃ r, us !! SUserID x = Some r ∧ is_active_user r = true);
  si_limit : ∀ uid, (count_map (λ x, Z.eqb (SUserID x) uid) ss ≤ MaxSessionsPerUser)%nat
}.

Record source_inv (us : gmap Z UserRow) (os : gmap Z SourceRow) (next : Z) (prefs : gmap Z Z) : Prop := {
  oi_key : ∀ k r, os !! k = Some r → OSID (sr_source r) = k ∧ k < next ∧ has_user us (source_owner r);
  oi_unique : ∀ k1 k2 r1 r2, os !! k1 = Some r1 → os !! k2 = Some r2 → k1 ≠ k2 →
    source_clash (sr_source r1) (sr_source r2) = false;
  oi_limit : ∀ uid, Z.of_nat (count_map (λ r, Z.eqb (OSUserID (sr_source r)) uid) os) <= MaxOTPSourcesPerUser;
  oi_default : ∀ uid id, prefs !! uid = Some id → owned_in source_owner os id uid
}.

Record profile_inv (us : gmap Z UserRow) (os : gmap Z SourceRow) (ps : gmap Z ProfileRow) (next : Z) : Prop := {
  pi_key : ∀ k r, ps !! k = Some r → PID (pr_profile r) = k ∧ k < next ∧ has_user us (profile_owner r) ∧
    owned_in source_owner os (POTPSourceID (pr_profile r)) (profile_owner r);
  pi_limit : ∀ uid, Z.of_nat (count_map (λ r, Z.eqb (PUserID (pr_profile r)) uid) ps) <= MaxProfilesPerUser
}.

Record link_inv (us : gmap Z UserRow) (ps : gmap Z ProfileRow) (bs : gmap Z BookingRequest)
    (ls : gmap (Z * string) LakeSettings) : Prop := {
  li_booking : ∀ k b, bs !! k = Some b → has_user us (BUserID b) ∧ owned_in profile_owner ps (BProfileID b) (BUserID b);
  li_lake : ∀ k row, ls !! k = Some row → k = (LSUserID row, LSLakeID row) ∧ has_user us (LSUserID row) ∧
    (LSBookingProfileID row = 0 ∨ owned_in profile_owner ps (LSBookingProfileID row) (LSUserID row))
}.

Record account_inv_but (skip : option Z) (s : db) : Prop := {
  ai_users : user_inv (users s) (next_user s);
  ai_sessions : session_inv skip (users s) (sessions s);
  ai_sources : source_inv (users s) (sources s) (next_source s) (otp_preferences s);
  ai_profiles : profile_inv (users s) (sources s) (profiles s) (next_profile s);
  ai_links : link_inv (users s) (profiles s) (bookings s) (lake_settings s)
}.
Notation account_inv := (account_inv_but None).

(** The state the whole program keeps. *)
Definition system_inv (s : db) : Prop := db_inv s ∧ account_inv s.

(** ** Job operations and accounts *)

(** Everything but the tables of jobs is the same; booking requests may go. *)
Record account_frame (s s' : db) : Prop := {
  af_users : users s' = users s; af_sessions : sessions s' = sessions s;
  af_sources : sources s' = sources s; af_prefs : otp_preferences s' = otp_preferences s;
  af_profiles : profiles s' = profiles s; af_lakes : lake_settings s' = lake_settings s;
  af_next_user : next_user s' = next_user s; af_next_source : next_source s' = next_source s;
  af_next_profile : next_profile s' = next_profile s;
  af_bookings : bookings s' ⊆ bookings s
}.
#[export] Instance account_frame_preorder : PreOrder account_frame.
Proof.
  split; [by intros s; split|]. intros s1 s2 s3 [] []. split; try congruence. by etrans.
Qed.

Lemma account_frame_inv skip s s' : account_frame s s' → account_inv_but skip s → account_inv_but skip s'.
Proof.
  intros F [Hu Hss Ho Hp Hl].
  split; rewrite ?(af_users _ _ F), ?(af_sessions _ _ F), ?(af_sources _ _ F), ?(af_prefs _ _ F),
    ?(af_profiles _ _ F), ?(af_lakes _ _ F), ?(af_next_user _ _ F), ?(af_next_source _ _ F),
    ?(af_next_profile _ _ F); try done.
  split; [|apply Hl]. intros k b Hk. apply (li_booking _ _ _ _ Hl k). eapply lookup_weaken; [done|apply F].
Qed.

(** [framed m]: the operation [m] leaves the accounts as they were. *)
Notation framed m := (∀ s0, preserves (account_frame s0) m).

Lemma framed_account {A} (m : ST db A) : framed m → preserves account_inv m.
Proof. intros Hm s Hs. eapply account_frame_inv; [|exact Hs]. by apply Hm. Qed.

Lemma framed_modify f s0 : (∀ s, account_frame s (f s)) → preserves (account_frame s0) (modify f).
Proof. intros Hf. apply preserves_modify. intros s Hs. by etrans. Qed.

Lemma framed_map_err {A} f (m : ST db A) s0 :
  preserves (account_frame s0) m → preserves (account_frame s0) (map_err f m).
Proof. intros Hm s Hs. specialize (Hm s Hs). unfold map_err. by destruct (m s) as [? [?|?]]. Qed.
#[export] Hint Resolve framed_map_err : preserves.

Lemma delete_job_frame id s : account_frame s (delete_job id s).
Proof.
  split; try (unfold delete_job, prune_booking_snapshot; cbv zeta; by repeat (case_match; simpl)).
  apply (sh_bookings _ _ (delete_job_shrinks id s)).
Qed.
Lemma delete_jobs_frame ids s : account_frame s (delete_jobs ids s).
Proof.
  revert s. induction ids as [|id ids IH]; intros s; [done|]. etrans; [apply (delete_job_frame id)|apply IH].
Qed.

Lemma put_job_framed st new : framed (put_job st new).
Proof.
  intros s0 s Hs. etrans; [exact Hs|]. unfold put_job. destruct (negb _); [done|]. cbn [fst].
  assert (Hset : account_frame s (set_jobs (<[JID new := new]>) s)) by done.
  destruct st; [|done]. etrans; [exact Hset|]. unfold after_status_update.
  set (s1 := set_jobs _ s). clearbody s1.
  assert (Hdel : account_frame s1 (if is_retained_status (JStatus new)
    then delete_jobs (history_excess new s1) s1 else s1)) by (destruct (is_retained_status _); [apply delete_jobs_frame|done]).
  destruct (_ && _); [|exact Hdel]. etrans; [exact Hdel|done].
Qed.
#[export] Hint Resolve put_job_framed : preserves.

Lemma reserve_booking_framed j : framed (reserve_booking j).
Proof.
  intros s0 s Hs. etrans; [exact Hs|]. unfold reserve_booking.
  destruct (negb _); [done|]. destruct (_ ≫= _) as [b|]; [|done].
  by destruct (reservations s !! _).
Qed.
#[export] Hint Resolve reserve_booking_framed : preserves.
#[export] Hint Extern 3 (preserves (account_frame _) (modify _)) =>
  apply framed_modify; intros; first [apply delete_jobs_frame | split; reflexivity] : preserves.

(** [framing] takes a program of framed steps apart. *)
Ltac framing :=
  repeat first
    [ match goal with |- ∀ _, _ => intro end
    | progress cbv zeta
    | solve [auto 3 with preserves]
    | apply preserves_bind
    | apply preserves_if
    | apply preserves_atomically
    | apply framed_map_err
    | match goal with |- preserves _ (match ?o with _ => _ end) => destruct o end ].

Lemma update_job_framed id w f st : framed (update_job id w f st).
Proof. unfold update_job. framing. Qed.
#[export] Hint Resolve update_job_framed : preserves.
Lemma update_ids_framed ids f st : framed (update_ids ids f st).
Proof. induction ids as [|id ids IH]; cbn [update_ids]; framing. Qed.
#[export] Hint Resolve update_ids_framed : preserves.
Lemma update_jobs_framed w f st : framed (update_jobs w f st).
Proof. unfold update_jobs. framing. Qed.
#[export] Hint Resolve update_jobs_framed : preserves.

Lemma SystemGetJob_framed id : framed (SystemGetJob id).
Proof. unfold SystemGetJob. framing. Qed.
Lemma GetProfile_framed uid id : framed (GetProfile uid id).
Proof. unfold GetProfile. framing. Qed.
#[export] Hint Resolve SystemGetJob_framed GetProfile_framed : preserves.
Lemma SystemTransitionJob_framed san id expected to upd now :
  framed (SystemTransitionJob san id expected to upd now).
Proof. unfold SystemTransitionJob. framing. Qed.
Lemma SystemMarkConfirmationStarted_framed id now : framed (SystemMarkConfirmationStarted id now).
Proof. unfold SystemMarkConfirmationStarted. framing. Qed.
Lemma requestJobCancellation_framed uid id now : framed (requestJobCancellation uid id now).
Proof. unfold requestJobCancellation. framing. Qed.
Lemma SystemRecoverInterruptedJobs_framed now : framed (SystemRecoverInterruptedJobs now).
Proof. unfold SystemRecoverInterruptedJobs. framing. Qed.
Lemma SystemExpireStaleJobs_framed now : framed (SystemExpireStaleJobs now).
Proof. unfold SystemExpireStaleJobs. framing. Qed.
#[export] Hint Resolve SystemExpireStaleJobs_framed : preserves.
Lemma pruneJobHistory_framed uid now : framed (pruneJobHistory uid now).
Proof. unfold pruneJobHistory. framing. Qed.
#[export] Hint Resolve pruneJobHistory_framed : preserves.
Lemma SystemPruneTerminalJobs_framed now : framed (SystemPruneTerminalJobs now).
Proof. unfold SystemPruneTerminalJobs. framing. Qed.
Lemma insert_job_framed row : framed (insert_job row).
Proof. unfold insert_job. framing. Qed.
#[export] Hint Resolve insert_job_framed : preserves.
Lemma enqueueJobTx_framed actor p clk : framed (enqueueJobTx actor p clk).
Proof. unfold enqueueJobTx. framing. Qed.
Lemma SystemClaimNextDueJobAt_framed worker now : framed (SystemClaimNextDueJobAt worker now).
Proof. unfold SystemClaimNextDueJobAt. framing. Qed.
Lemma RecordJobDecision_framed uid id d now : framed (RecordJobDecision uid id d now).
Proof.
  assert (Hins : ∀ s, account_frame s (insert_decision uid id d now s)).
  { intros s. unfold insert_decision. destruct (jobs s !! id); [|done]. by destruct (_ && _). }
  intros s0. pose proof (framed_modify _ s0 Hins). unfold RecordJobDecision. framing.
Qed.
Lemma SystemAppendJobEvent_framed `{AEAD} input now : framed (SystemAppendJobEvent input now).
Proof.
  assert (Hins : ∀ row i, framed (insert_event row i)).
  { intros row i s0 s Hs. unfold insert_event. destruct (jobs s !! i); [|done]. simpl. by etrans. }
  unfold SystemAppendJobEvent. framing.
Qed.
