(* ===== verification/ResourceInvariants.v ===== *)
(** * Booking requests, sources, profiles and settings keep the invariants

    Each operation that writes a resource keeps the invariants of the job tables and
    those of accounts and resources, which are proved together: a new row's id is
    fresh, so no job refers to it. *)

From S2P Require Import Prelude GoStrings GoTime Json Secrets Auth Origin Domain Database JobStore.
From S2P Require Import JobInvariants EventStore JobOperations ResourceStore ProfileStore SettingsStore AccountStore.
From S2P Require Import AccountStore AccountInvariants.
From Stdlib Require Import Ascii String.

Open Scope Z_scope.

#[local] Notation account_inv := (account_inv_but None).

Lemma preserves_and {A} (I J : db → Prop) (m : ST db A) :
  preserves I m → preserves J m → preserves (λ s, I s ∧ J s) m.
Proof. intros HI HJ s [? ?]. split; auto. Qed.

Lemma framed_system {A} (m : ST db A) :
  preserves db_inv m → (∀ s0, preserves (account_frame s0) m) → preserves system_inv m.
Proof. intros Hdb Hf. apply preserves_and; [done|]. by apply framed_account. Qed.

Lemma map_err_system {A} f (m : ST db A) (I : db → Prop) : preserves I m → preserves I (map_err f m).
Proof. intros Hm s Hs. specialize (Hm s Hs). unfold map_err. by destruct (m s) as [? [?|?]]. Qed.

(** [reading] takes a program apart down to its writes. *)
Ltac reading :=
  repeat first
    [ match goal with |- ∀ _, _ => intro end
    | progress cbv zeta
    | solve [auto 3 with preserves]
    | match goal with
      | |- preserves _ (_ ≫= _) => apply preserves_bind
      | |- preserves _ (if _ then _ else _) => apply preserves_if
      | |- preserves _ (atomically _) => apply preserves_atomically
      | |- preserves _ (map_err _ _) => apply map_err_system
      | |- preserves _ (match ?o with _ => _ end) => destruct o
      end ].

Lemma GetProfile_reads I uid id : preserves I (GetProfile uid id).
Proof. unfold GetProfile. reading. Qed.
Lemma GetOTPSource_reads I uid id : preserves I (GetOTPSource uid id).
Proof. unfold GetOTPSource. reading. Qed.
Lemma GetDefaultOTPSource_reads I uid : preserves I (GetDefaultOTPSource uid).
Proof. unfold GetDefaultOTPSource, GetOTPSource. reading. Qed.
Lemma getUser_reads I id : preserves I (getUser id).
Proof. unfold getUser. reading. Qed.
Lemma GetUser_reads I id : preserves I (GetUser id).
Proof. unfold GetUser, getUser. reading. Qed.
Lemma GetLakeSettings_reads I uid lake : preserves I (GetLakeSettings uid lake).
Proof. unfold GetLakeSettings. reading. Qed.
Lemma GetAccountSettings_reads I uid : preserves I (GetAccountSettings uid).
Proof. unfold GetAccountSettings. reading. Qed.
Lemma SystemGetOTPSource_reads I id : preserves I (SystemGetOTPSource id).
Proof. unfold SystemGetOTPSource. reading. Qed.
#[export] Hint Resolve GetProfile_reads GetOTPSource_reads GetDefaultOTPSource_reads getUser_reads
  GetUser_reads GetLakeSettings_reads GetAccountSettings_reads SystemGetOTPSource_reads : preserves.

(** ** Booking requests *)

Lemma owned_in_insert {A} (owner : A → Z) (m : gmap Z A) id a k uid :
  (∀ old, m !! id = Some old → owner a = owner old) →
  owned_in owner m k uid → owned_in owner (<[id := a]> m) k uid.
Proof.
  intros Hid (b & Hk & Hb). destruct (insert_same_owner owner m id a Hid k b Hk) as (b' & ? & ?).
  exists b'. split; [done|congruence].
Qed.

Lemma insertBookingRequest_account uid r now : preserves account_inv (insertBookingRequest uid r now).
Proof.
  apply map_err_system, preserves_atomically. intros s Hs.
  apply bind_inv_at; [done|]. intros s1 full [-> _]%gets_Ok _.
  apply bind_inv_at; [done|]. intros s1 [] [-> _]%st_reject_Ok _.
  apply bind_inv_at; [done|]. intros s1 id [-> ->]%gets_Ok _.
  apply bind_inv_at; [done|]. intros s1 [] [-> _]%st_reject_Ok _.
  apply bind_inv_at; [done|]. intros s1 taken [-> _]%gets_Ok _.
  apply bind_inv_at; [done|]. intros s1 [] [-> _]%st_reject_Ok _.
  apply bind_inv_at; [done|]. intros s1 ok [-> ->]%gets_Ok _.
  apply bind_inv_at; [done|]. intros s1 [] [-> Hok]%st_reject_Ok _.
  apply bind_inv_at; [|done]. bool_to_prop. simpl.
  destruct Hs as [Hu Hss Ho Hp Hl]. split; try done. simpl. split; [|apply Hl].
  intros k b. rewrite lookup_insert_Some. intros [[<- <-]|[_ Hk]]; [|by apply (li_booking _ _ _ _ Hl k)].
  simpl. split; [done|]. destruct (profiles s !! BProfileID r) as [p|] eqn:Hpr; [|done]. bool_to_prop.
  by exists p.
Qed.

Lemma EnqueueBookingRequest_system `{TimeZoneDB} uid r p token clk :
  preserves system_inv (EnqueueBookingRequest uid r p token clk).
Proof.
  apply preserves_and; [apply EnqueueBookingRequest_stable|].
  do 3 (apply preserves_bind; [auto with preserves|intros _]).
  apply preserves_bind.
  - unfold prepareBookingRequest, bookingProfile. reading.
  - intros prepared. apply preserves_atomically.
    apply preserves_bind; [apply insertBookingRequest_account|].
    intros id. apply framed_account, enqueueJobTx_framed.
Qed.

(** ** Sources *)

(** A table of sources that keeps the owner of every row it had. *)
Lemma sources_system s os next prefs :
  system_inv s →
  (∀ k, same_owner source_owner (sources s !! k) (os !! k)) →
  source_inv (users s) os next prefs →
  ∀ s', s' = MkDb (users s) (sessions s) (attempts s) os (profiles s) (bookings s) (jobs s) (events s)
              (decisions s) (reservations s) (lake_settings s) (account_settings s) prefs
              (network_settings s) (next_user s) (next_attempt s) next (next_profile s) (next_booking s)
              (next_job s) (next_event s) →
  system_inv s'.
Proof.
  intros [Hdb [Hu Hss Ho Hp Hl]] Hkeep Hinv s' ->. split.
  - eapply keeps_inv; [|exact Hdb]. apply keeps_owners; try done; intros k; apply same_owner_refl.
  - split; try done. simpl. split; [|apply Hp]. intros k r Hk.
    destruct (pi_key _ _ _ _ Hp k r Hk) as (? & ? & ? & a & Ha & Hown). split_and!; try done.
    destruct (Hkeep _ a Ha) as (b & Hb & Hb'). exists b. split; [done|congruence].
Qed.

Lemma source_clash_sym a b : source_clash a b = source_clash b a.
Proof.
  unfold source_clash, equal_fold.
  rewrite (Z.eqb_sym (OSUserID b)), (String.eqb_sym (OSName b)), (String.eqb_sym (OSIdentity b)),
    (String.eqb_sym (to_lower (OSPairingChatGUID b))), (String.eqb_sym (to_lower (OSPairingSender b))),
    (String.eqb_sym (to_lower (OSPairingService b))), (andb_comm (has_pairing b)),
    (andb_comm (bool_decide (OSProvider b = OTPProviderBlueBubbles))).
  by rewrite (bool_decide_ext (OSProvider b = OSProvider a) (OSProvider a = OSProvider b)).
Qed.

(** The rows of a table with one row written, and those of the table it had. *)
Lemma insert_pairwise {A} (m : gmap Z A) (P : A → A → Prop) id a :
  (∀ x y, P x y → P y x) →
  (∀ k1 k2 x y, m !! k1 = Some x → m !! k2 = Some y → k1 ≠ k2 → P x y) →
  (∀ k x, m !! k = Some x → k ≠ id → P a x) →
  ∀ k1 k2 x y, <[id := a]> m !! k1 = Some x → <[id := a]> m !! k2 = Some y → k1 ≠ k2 → P x y.
Proof.
  intros Hsym Hm Ha k1 k2 x y. rewrite !lookup_insert_Some.
  intros [[<- <-]|[? H1]] [[<- <-]|[? H2]] Hne; [done|by eapply Ha|eapply Hsym, Ha; eauto|by eapply Hm].
Qed.

Lemma source_unique_spec o s k r :
  source_unique o s = true → sources s !! k = Some r → k ≠ OSID o → source_clash o (sr_source r) = false.
Proof.
  unfold source_unique. intros Hu Hk Hne. bool_to_prop. destruct (Hu k r Hk); congruence.
Qed.

(** Writing the row of a source that exists. *)
Lemma put_source_system s old new :
  system_inv s → sources s !! OSID (sr_source new) = Some old → source_owner new = source_owner old →
  source_unique (sr_source new) s = true →
  system_inv (set_sources (<[OSID (sr_source new) := new]>) s).
Proof.
  intros Hs Hold Hown Huniq. pose proof Hs as [_ [_ _ Ho _ _]].
  assert (Hkeep : ∀ k, same_owner source_owner (sources s !! k) (<[OSID (sr_source new):=new]> (sources s) !! k)).
  { apply insert_same_owner. intros old' Hold'. congruence. }
  eapply (sources_system s _ (next_source s) (otp_preferences s) Hs Hkeep); [|done].
  destruct (oi_key _ _ _ _ Ho _ _ Hold) as (Hid & Hlt & Huser).
  split.
  - intros k r. rewrite lookup_insert_Some. intros [[<- <-]|[_ Hk]]; [|by apply (oi_key _ _ _ _ Ho)].
    split_and!; [done|lia|by rewrite Hown].
  - apply insert_pairwise; [by intros x y Hxy; rewrite source_clash_sym|apply Ho|].
    intros k r Hk Hne. by eapply source_unique_spec.
  - intros uid. pose proof (oi_limit _ _ _ _ Ho uid) as Hl.
    pose proof (count_map_insert (λ r, OSUserID (sr_source r) =? uid) _ _ _ new Hold) as Hc. simpl in Hc.
    unfold source_owner in Hown. rewrite Hown in Hc. destruct (_ =? uid) in Hc; lia.
  - intros uid id Hpref. apply (oi_default _ _ _ _ Ho) in Hpref as (a & Ha & Hau).
    destruct (Hkeep id a Ha) as (b & Hb & Hbo). exists b. split; [done|congruence].
Qed.

Lemma insert_source_system userID row :
  (∀ id, OSID (sr_source (row id)) = id ∧ OSUserID (sr_source (row id)) = userID) →
  preserves system_inv (insert_source userID row).
Proof.
  intros Hrow. apply preserves_atomically. intros s Hs.
  apply bind_inv_at; [done|]. intros s1 full [-> ->]%gets_Ok _.
  apply bind_inv_at; [done|]. intros s1 [] [-> Hfull]%st_reject_Ok _.
  apply bind_inv_at; [done|]. intros s1 id [-> ->]%gets_Ok _.
  apply bind_inv_at; [done|]. intros s1 [] [-> _]%st_reject_Ok _.
  apply bind_inv_at; [done|]. intros s1 unique [-> ->]%gets_Ok _.
  apply bind_inv_at; [done|]. intros s1 [] [-> Huniq]%st_reject_Ok _.
  apply bind_inv_at; [done|]. intros s1 ok [-> ->]%gets_Ok _.
  apply bind_inv_at; [done|]. intros s1 [] [-> Hok]%st_reject_Ok _.
  bool_to_prop. destruct (Hrow (next_source s)) as [Hid Huser].
  set (new := row (next_source s)) in *. pose proof Hs as [_ [_ _ Ho _ _]].
  assert (Hnone : sources s !! next_source s = None).
  { apply eq_None_not_Some. intros [r Hr]. apply (oi_key _ _ _ _ Ho) in Hr as (_ & ? & _). lia. }
  assert (Hkeep : ∀ k, same_owner source_owner (sources s !! k) (<[next_source s:=new]> (sources s) !! k)).
  { apply insert_same_owner. congruence. }
  change (system_inv
    (set_otp_preferences (λ m, match m !! userID with Some _ => m | None => <[userID := next_source s]> m end)
      (bump_source (set_sources (<[next_source s := new]>) s)))).
  eapply (sources_system s _ (next_source s + 1) _ Hs Hkeep); [|done].
  split.
  - intros k r. rewrite lookup_insert_Some. intros [[<- <-]|[_ Hk]].
    + split_and!; [done|lia|]. unfold has_user, source_owner. by rewrite Huser.
    + destruct (oi_key _ _ _ _ Ho k r Hk) as (? & ? & ?). split_and!; [done|lia|done].
  - apply insert_pairwise; [by intros x y Hxy; rewrite source_clash_sym|apply Ho|].
    intros k r Hk Hne. eapply source_unique_spec; [done|done|congruence].
  - intros uid. rewrite count_map_insert_fresh by done. rewrite Huser.
    pose proof (oi_limit _ _ _ _ Ho uid). destruct (Z.eqb_spec userID uid) as [<-|]; lia.
  - intros uid id Hpref.
    assert (Hin : (uid = userID ∧ id = next_source s) ∨ otp_preferences s !! uid = Some id).
    { simpl in Hpref. destruct (otp_preferences s !! userID); [by right|].
      apply lookup_insert_Some in Hpref as [[<- <-]|[_ ?]]; [by left|by right]. }
    destruct Hin as [[-> ->]|Hin].
    + exists new. rewrite lookup_insert_eq. done.
    + apply (oi_default _ _ _ _ Ho) in Hin as (a & Ha & Hau).
      destruct (Hkeep id a Ha) as (b & ? & ?). exists b. split; [done|congruence].
Qed.

Lemma CreateOTPSource_system `{AEAD} uid input nonce now :
  preserves system_inv (CreateOTPSource uid input nonce now).
Proof.
  unfold CreateOTPSource. reading. apply insert_source_system. done.
Qed.

Lemma owned_source_Some uid id s r :
  owned_source uid id s = Some r → sources s !! id = Some r ∧ OSUserID (sr_source r) = uid.
Proof. unfold owned_source. intros H. inv_opt. by bool_to_prop. Qed.
Lemma owned_profile_Some uid id s r :
  owned_profile uid id s = Some r → profiles s !! id = Some r ∧ PUserID (pr_profile r) = uid.
Proof. unfold owned_profile. intros H. inv_opt. by bool_to_prop. Qed.

Lemma update_source_row_system uid id provided o ciphertext s :
  system_inv s → (is_some (owned_source uid id s) = true → OSID o = id ∧ OSUserID o = uid) →
  system_inv (update_source_row uid id provided o ciphertext s).1.
Proof.
  intros Hs Ho. unfold update_source_row.
  apply bind_inv_at; [done|]. intros s1 row [-> ->]%gets_Ok _.
  apply bind_inv_at; [done|]. intros s1 busy [-> ->]%gets_Ok _.
  destruct (owned_source uid id s) as [old|] eqn:Hrow; [|done].
  destruct Ho as [Hid Huser]; [done|]. apply owned_source_Some in Hrow as [Hold Hown].
  cbv zeta. destruct (_ || _); [done|].
  apply bind_inv_at; [done|]. intros s1 unique [-> ->]%gets_Ok _.
  apply bind_inv_at; [done|]. intros s1 [] [-> _]%st_reject_Ok _.
  apply bind_inv_at; [done|]. intros s1 [] [-> Huniq]%st_reject_Ok _.
  apply bind_inv_at; [|done]. bool_to_prop. cbn [fst modify].
  set (new := MkSourceRow o _).
  replace id with (OSID (sr_source new)) by done. apply (put_source_system s old new); [done| |change (OSUserID o = OSUserID (sr_source old)); congruence|done].
  simpl. by rewrite Hid.
Qed.

Lemma UpdateOTPSource_system `{AEAD} uid id input nonce now :
  preserves system_inv (UpdateOTPSource uid id input nonce now).
Proof.
  intros s Hs. unfold UpdateOTPSource.
  apply bind_inv_at; [done|]. intros s1 [] [-> _]%st_reject_Ok _.
  apply bind_inv_at; [by apply GetOTPSource_reads|]. intros s1 existing Hex _.
  unfold GetOTPSource in Hex. inv_ok.
  match goal with H : sr_source <$> _ = Some _ |- _ => apply fmap_Some in H as (old & Hold & ->) end.
  apply owned_source_Some in Hold as [Hold Hown].
  apply bind_inv_at; [done|]. intros s1 o [-> Ho]%lift_Ok _.
  assert (Hoo : OSID o = OSID (sr_source old) ∧ OSUserID o = OSUserID (sr_source old)).
  { unfold updated_source in Ho. repeat case_match; by simplify_eq. }
  apply bind_inv_at; [done|]. intros s1 u [-> _]%lift_Ok _.
  apply bind_inv_at; [done|]. intros s1 [] [-> _]%st_reject_Ok _.
  apply bind_inv_at; [done|]. intros s1 ciphertext [-> _]%lift_Ok _.
  apply bind_inv_at.
  - unfold map_err. match goal with |- context [update_source_row ?a ?b ?c ?d ?e s] =>
      assert (Hinv : system_inv (update_source_row a b c d e s).1);
        [|by destruct (update_source_row a b c d e s) as [? [?|?]]] end.
    apply update_source_row_system; [done|]. intros _. destruct Hoo as [-> ->]. split; [|done].
    destruct Hs as [_ [_ _ Hsrc _ _]]. by apply (oi_key _ _ _ _ Hsrc) in Hold as [? _].
  - intros s2 changed _ Hs2. revert s2 Hs2. change (preserves system_inv (
      owned ← gets (λ s, is_some (owned_source uid id s));
      _ ← st_reject (negb changed) (guarded_update_error owned); GetOTPSource uid id)). reading.
Qed.

Lemma SystemPersistOTPSourcePairing_system job id chat sender service now :
  preserves system_inv (SystemPersistOTPSourcePairing job id chat sender service now).
Proof.
  intros s Hs. unfold SystemPersistOTPSourcePairing.
  apply bind_inv_at; [done|]. intros s1 [] [-> _]%st_reject_Ok _.
  apply bind_inv_at; [by apply SystemGetOTPSource_reads|]. intros s1 source Hsrc _.
  unfold SystemGetOTPSource in Hsrc. inv_ok.
  match goal with H : sr_source <$> _ = Some _ |- _ => apply fmap_Some in H as (old & Hold & ->) end.
  cbv zeta. apply bind_inv_at; [done|]. intros s1 u [-> _]%lift_Ok _.
  apply bind_inv_at; [done|]. intros s1 row [-> ->]%gets_Ok _. rewrite Hold.
  apply bind_inv_at; [done|]. intros s1 running [-> _]%gets_Ok _.
  destruct (_ && _); [|done].
  apply bind_inv_at; [done|]. intros s1 unique [-> ->]%gets_Ok _.
  apply bind_inv_at; [done|]. intros s1 [] [-> Huniq]%st_reject_Ok _. bool_to_prop. cbn [fst modify].
  pose proof Hs as [_ [_ _ Ho _ _]]. destruct (oi_key _ _ _ _ Ho _ _ Hold) as (Hid & _).
  match goal with |- context [<[id := ?x]>] => set (new := x) end.
  replace id with (OSID (sr_source new)) by done. apply (put_source_system s old new); [done| |done|done].
  simpl. by rewrite Hid.
Qed.

Lemma SetDefaultOTPSource_system uid id : preserves system_inv (SetDefaultOTPSource uid id).
Proof.
  intros s Hs. unfold SetDefaultOTPSource.
  apply bind_inv_at; [done|]. intros s1 [] [-> _]%st_reject_Ok _.
  apply bind_inv_at; [done|]. intros s1 o [-> ->]%gets_Ok _.
  destruct (owned_source uid id s) as [r|] eqn:Hr; [|done]. apply owned_source_Some in Hr as [Hr Hown].
  pose proof Hs as [_ [_ _ Ho _ _]].
  eapply (sources_system s (sources s) (next_source s) (<[uid := id]> (otp_preferences s)) Hs); [| |done].
  { intros k. apply same_owner_refl. }
  split; try apply Ho. intros u i. rewrite lookup_insert_Some.
  intros [[<- <-]|[_ Hu]]; [by exists r|by apply (oi_default _ _ _ _ Ho)].
Qed.

(** Rows that pass a filter: fewer of them, each as it was. *)
Lemma filter_count {A} (P : Z * A → Prop) `{!∀ x, Decision (P x)} (p : A → bool) (m : gmap Z A) :
  (count_map p (filter P m) ≤ count_map p m)%nat.
Proof. apply count_map_subseteq, map_filter_subseteq. Qed.
Lemma filter_some {A} (P : Z * A → Prop) `{!∀ x, Decision (P x)} (m : gmap Z A) k a :
  filter P m !! k = Some a → m !! k = Some a.
Proof. rewrite map_lookup_filter_Some. tauto. Qed.

Lemma existsb_false_in {A} (f : A → bool) (l : list A) x : existsb f l = false → x ∈ l → f x = false.
Proof.
  intros Hf Hx. apply not_true_iff_false. intros Ht. apply not_true_iff_false in Hf. apply Hf.
  apply existsb_exists. exists x. split; [by apply list_elem_of_In|done].
Qed.

Lemma delete_sources_system p : preserves system_inv (delete_sources p).
Proof.
  intros s Hs. unfold delete_sources. set (gone := (select p (sources s)).*1). cbv zeta.
  destruct (existsb _ gone) eqn:Hused; [done|]. cbn [fst].
  assert (Hfree : ∀ id, id ∈ gone →
    (∀ k r, profiles s !! k = Some r → POTPSourceID (pr_profile r) ≠ id) ∧
    (∀ k j, jobs s !! k = Some j → JOTPSourceID j ≠ id)).
  { intros id Hid. pose proof (existsb_false_in _ _ _ Hused Hid) as Hf. simpl in Hf. bool_to_prop.
    split; intros k x Hk Heq;
      match goal with H : exists_row _ ?m = false, H' : ?m !! k = _ |- _ =>
        rewrite exists_row_false in H; specialize (H k x H'); simpl in H; by apply Z.eqb_neq in H end. }
  destruct Hs as [Hdb [Hu Hss Ho Hp Hl]]. split.
  - eapply keeps_inv; [|exact Hdb]. split; try done. intros k j Hj. unfold job_foreign_keys; simpl.
    rewrite !andb_true_iff. intros [[[? ?] Hso] ?]. split_and!; try done.
    destruct (sources s !! JOTPSourceID j) as [r|] eqn:Hr; [|done].
    assert (Hin : filter (λ kv : Z * SourceRow, kv.1 ∉ gone) (sources s) !! JOTPSourceID j = Some r).
    { apply map_lookup_filter_Some. split; [done|]. simpl. intros Hg.
      destruct (Hfree _ Hg) as [_ Hjob]. by destruct (Hjob k j Hj). }
    by rewrite Hin.
  - split; try done; simpl.
    + split.
      * intros k r Hk%filter_some. by apply (oi_key _ _ _ _ Ho).
      * intros k1 k2 r1 r2 H1%filter_some H2%filter_some. by apply (oi_unique _ _ _ _ Ho k1 k2).
      * intros uid. pose proof (oi_limit _ _ _ _ Ho uid).
        pose proof (filter_count (λ kv : Z * SourceRow, kv.1 ∉ gone)
          (λ r, OSUserID (sr_source r) =? uid) (sources s)). lia.
      * intros uid id Hpref. apply map_lookup_filter_Some in Hpref as [Hpref Hng]. simpl in Hng.
        apply (oi_default _ _ _ _ Ho) in Hpref as (a & Ha & Hau). exists a. split; [|done].
        by apply map_lookup_filter_Some.
    + split; [|apply Hp]. intros k r Hk. destruct (pi_key _ _ _ _ Hp k r Hk) as (? & ? & ? & a & Ha & Hau).
      split_and!; try done. exists a. split; [|done]. apply map_lookup_filter_Some. split; [done|].
      intros Hg. destruct (Hfree _ Hg) as [Hpr _]. by destruct (Hpr k r Hk).
Qed.

Lemma DeleteOTPSource_system uid id : preserves system_inv (DeleteOTPSource uid id).
Proof. unfold DeleteOTPSource. reading. apply delete_sources_system. Qed.

(** ** Profiles *)

Lemma profiles_system s ps next :
  system_inv s →
  (∀ k, same_owner profile_owner (profiles s !! k) (ps !! k)) →
  profile_inv (users s) (sources s) ps next →
  ∀ s', s' = MkDb (users s) (sessions s) (attempts s) (sources s) ps (bookings s) (jobs s) (events s)
              (decisions s) (reservations s) (lake_settings s) (account_settings s) (otp_preferences s)
              (network_settings s) (next_user s) (next_attempt s) (next_source s) next (next_booking s)
              (next_job s) (next_event s) →
  system_inv s'.
Proof.
  intros [Hdb [Hu Hss Ho Hp Hl]] Hkeep Hinv s' ->. split.
  - eapply keeps_inv; [|exact Hdb]. apply keeps_owners; try done; intros k; apply same_owner_refl.
  - assert (Hown : ∀ id uid, owned_in profile_owner (profiles s) id uid → owned_in profile_owner ps id uid).
    { intros id uid (a & Ha & Hau). destruct (Hkeep id a Ha) as (b & ? & ?). exists b. split; [done|congruence]. }
    split; try done. simpl. split.
    + intros k b Hk. destruct (li_booking _ _ _ _ Hl k b Hk) as [? ?]. auto.
    + intros k row Hk. destruct (li_lake _ _ _ _ Hl k row Hk) as (? & ? & [?|?]); auto 6.
Qed.

Lemma profile_foreign_key_spec p s :
  profile_foreign_key p s = true →
  has_user (users s) (PUserID p) ∧ owned_in source_owner (sources s) (POTPSourceID p) (PUserID p).
Proof.
  unfold profile_foreign_key. intros H. bool_to_prop. split; [done|].
  destruct (sources s !! POTPSourceID p) as [r|] eqn:Hr; [|done]. bool_to_prop. by exists r.
Qed.

Lemma insert_profile_system userID row :
  (∀ id, PID (pr_profile (row id)) = id ∧ PUserID (pr_profile (row id)) = userID) →
  preserves system_inv (insert_profile userID row).
Proof.
  intros Hrow. apply preserves_atomically. intros s Hs.
  apply bind_inv_at; [done|]. intros s1 full [-> ->]%gets_Ok _.
  apply bind_inv_at; [done|]. intros s1 [] [-> Hfull]%st_reject_Ok _.
  apply bind_inv_at; [done|]. intros s1 id [-> ->]%gets_Ok _.
  apply bind_inv_at; [done|]. intros s1 [] [-> _]%st_reject_Ok _.
  apply bind_inv_at; [done|]. intros s1 unique [-> _]%gets_Ok _.
  apply bind_inv_at; [done|]. intros s1 [] [-> _]%st_reject_Ok _.
  apply bind_inv_at; [done|]. intros s1 ok [-> ->]%gets_Ok _.
  apply bind_inv_at; [done|]. intros s1 [] [-> Hok]%st_reject_Ok _.
  bool_to_prop. destruct (Hrow (next_profile s)) as [Hid Huser].
  set (new := row (next_profile s)) in *. pose proof Hs as [_ [_ _ _ Hp _]].
  apply profile_foreign_key_spec in Hok as [Hus Hsrc].
  assert (Hnone : profiles s !! next_profile s = None).
  { apply eq_None_not_Some. intros [r Hr]. apply (pi_key _ _ _ _ Hp) in Hr as (_ & ? & _). lia. }
  eapply (profiles_system s (<[next_profile s := new]> (profiles s)) (next_profile s + 1) Hs); [| |reflexivity].
  { apply insert_same_owner. congruence. }
  split.
  - intros k r. rewrite lookup_insert_Some. intros [[<- <-]|[_ Hk]].
    + split_and!; [done|lia|done|done].
    + destruct (pi_key _ _ _ _ Hp k r Hk) as (? & ? & ? & ?). split_and!; [done|lia|done|done].
  - intros uid. rewrite count_map_insert_fresh by done. rewrite Huser.
    pose proof (pi_limit _ _ _ _ Hp uid). destruct (Z.eqb_spec userID uid) as [<-|]; lia.
Qed.

Lemma CreateProfile_system `{AEAD} uid input nonce now : preserves system_inv (CreateProfile uid input nonce now).
Proof. unfold CreateProfile. reading. apply insert_profile_system. done. Qed.

Lemma update_profile_row_system uid id p ciphertext :
  PID p = id → PUserID p = uid → preserves system_inv (update_profile_row uid id p ciphertext).
Proof.
  intros Hid Huser s Hs. unfold update_profile_row.
  apply bind_inv_at; [done|]. intros s1 row [-> ->]%gets_Ok _.
  apply bind_inv_at; [done|]. intros s1 busy [-> _]%gets_Ok _.
  destruct (owned_profile uid id s) as [old|] eqn:Hrow; [|done].
  apply owned_profile_Some in Hrow as [Hold Hown]. destruct busy; [done|]. cbv zeta.
  match goal with |- context [MkProfileRow ?x ?y] => set (p' := x); set (new := MkProfileRow p' y) end.
  apply bind_inv_at; [done|]. intros s1 locked [-> _]%gets_Ok _.
  apply bind_inv_at; [done|]. intros s1 [] [-> _]%st_reject_Ok _.
  apply bind_inv_at; [done|]. intros s1 [] [-> _]%st_reject_Ok _.
  apply bind_inv_at; [done|]. intros s1 unique [-> _]%gets_Ok _.
  apply bind_inv_at; [done|]. intros s1 [] [-> _]%st_reject_Ok _.
  apply bind_inv_at; [done|]. intros s1 fk [-> ->]%gets_Ok _.
  apply bind_inv_at; [done|]. intros s1 [] [-> Hok]%st_reject_Ok _.
  apply bind_inv_at; [|done]. cbn [fst modify]. bool_to_prop.
  apply profile_foreign_key_spec in Hok as [Hus Hsrc].
  pose proof Hs as [_ [_ _ _ Hp _]]. destruct (pi_key _ _ _ _ Hp _ _ Hold) as (Hk & Hlt & _).
  assert (Hsame : PUserID (pr_profile new) = PUserID (pr_profile old)) by (simpl; congruence).
  eapply (profiles_system s (<[id := new]> (profiles s)) (next_profile s) Hs); [| |reflexivity].
  { apply insert_same_owner. intros old' Hold'. unfold profile_owner. congruence. }
  split.
  - intros k r. rewrite lookup_insert_Some. intros [[<- <-]|[_ Hkr]]; [|by apply (pi_key _ _ _ _ Hp)].
    split_and!; [done|lia|done|done].
  - intros u. pose proof (pi_limit _ _ _ _ Hp u).
    pose proof (count_map_insert (λ r, PUserID (pr_profile r) =? u) _ _ _ new Hold) as Hc.
    cbv beta in Hc. rewrite Hsame in Hc. destruct (_ =? u) in Hc; lia.
Qed.

Lemma UpdateProfile_system `{AEAD} uid id input nonce now :
  preserves system_inv (UpdateProfile uid id input nonce now).
Proof. unfold UpdateProfile. reading. apply update_profile_row_system; done. Qed.

Lemma delete_profiles_system gone : preserves system_inv (delete_profiles gone).
Proof.
  intros s Hs. unfold delete_profiles. cbv zeta.
  destruct (existsb _ gone) eqn:Hused; [done|]. cbn [fst].
  assert (Hfree : ∀ id, id ∈ gone →
    (∀ k b, bookings s !! k = Some b → BProfileID b ≠ id) ∧
    (∀ k j, jobs s !! k = Some j → JProfileID j ≠ id) ∧
    (∀ k row, lake_settings s !! k = Some row → LSBookingProfileID row ≠ id)).
  { intros id Hid. pose proof (existsb_false_in _ _ _ Hused Hid) as Hf. simpl in Hf. bool_to_prop.
    split; [|split]; intros k x Hk Heq.
    1,2: match goal with H : exists_row _ ?m = false, H' : ?m !! _ = _ |- _ =>
        rewrite exists_row_false in H; specialize (H _ _ H'); simpl in H; by apply Z.eqb_neq in H end.
    apply elem_of_map_to_list in Hk.
    match goal with H : existsb _ (map_to_list _) = false |- _ =>
      pose proof (existsb_false_in _ _ _ H Hk) as Hx end.
    simpl in Hx. by rewrite Heq, Z.eqb_refl in Hx. }
  assert (Hkept : ∀ k r, k ∉ gone → profiles s !! k = Some r →
    filter (λ kv : Z * ProfileRow, kv.1 ∉ gone) (profiles s) !! k = Some r).
  { intros k r Hng Hk. by apply map_lookup_filter_Some. }
  destruct Hs as [Hdb [Hu Hss Ho Hp Hl]]. split.
  - split; simpl; try apply Hdb.
    + intros k j Hk. pose proof (inv_fk _ Hdb k j Hk) as Hfk. unfold job_foreign_keys in *; simpl.
      rewrite !andb_true_iff in Hfk. destruct Hfk as [[[? Hpr] ?] ?].
      rewrite !andb_true_iff. split_and!; try done.
      destruct (profiles s !! JProfileID j) as [r|] eqn:Hr; [|done].
      rewrite (Hkept (JProfileID j) r); [done| |done].
      intros Hg. destruct (Hfree _ Hg) as (_ & Hj & _). by destruct (Hj k j Hk).
    + intros k j Hk Hc Hun. destruct (inv_guard _ Hdb k j Hk Hc Hun) as (slot & Hslot & Hr).
      exists slot. split; [done|]. apply map_lookup_filter_Some. split; [done|]. simpl. intros Hg.
      unfold job_slot in Hslot. inv_opt. destruct (Hfree _ Hg) as (_ & Hj & _). by destruct (Hj k j Hk).
    + intros slot k Hr. apply map_lookup_filter_Some in Hr as [Hr _]. by apply (inv_reservation _ Hdb).
  - split; try done; simpl.
    + split.
      * intros k r Hk%filter_some. by apply (pi_key _ _ _ _ Hp).
      * intros uid. pose proof (pi_limit _ _ _ _ Hp uid).
        pose proof (filter_count (λ kv : Z * ProfileRow, kv.1 ∉ gone)
          (λ r, PUserID (pr_profile r) =? uid) (profiles s)). lia.
    + split.
      * intros k b Hk. destruct (li_booking _ _ _ _ Hl k b Hk) as (? & r & Hr & ?). split; [done|].
        exists r. split; [|done]. apply Hkept; [|done].
        intros Hg. destruct (Hfree _ Hg) as (Hb & _). by destruct (Hb k b Hk).
      * intros k row Hk. destruct (li_lake _ _ _ _ Hl k row Hk) as (? & ? & [?|(r & Hr & ?)]); [by auto|].
        split_and!; [done..|]. right. exists r. split; [|done]. apply Hkept; [|done].
        intros Hg. destruct (Hfree _ Hg) as (_ & _ & Hb). by destruct (Hb k row Hk).
Qed.

Lemma DeleteProfile_system uid id : preserves system_inv (DeleteProfile uid id).
Proof. unfold DeleteProfile. reading. apply delete_profiles_system. Qed.

(** ** Settings *)

Lemma lakes_system s ls :
  system_inv s →
  (∀ k row, ls !! k = Some row → lake_settings s !! k = Some row ∨
    k = (LSUserID row, LSLakeID row) ∧ has_user (users s) (LSUserID row) ∧
    (LSBookingProfileID row = 0 ∨ owned_in profile_owner (profiles s) (LSBookingProfileID row) (LSUserID row))) →
  system_inv (set_lake_settings (λ _, ls) s).
Proof.
  intros [Hdb [Hu Hss Ho Hp Hl]] Hls. split.
  - eapply keeps_inv; [|exact Hdb]. by apply keeps_owners; intros; try apply same_owner_refl.
  - split; try done; simpl. split; [apply Hl|].
    intros k row Hk. destruct (Hls k row Hk) as [Hk'|Hk']; [by apply (li_lake _ _ _ _ Hl)|done].
Qed.

Lemma upsert_lake_settings_system row : preserves system_inv (upsert_lake_settings row).
Proof.
  intros s Hs. unfold upsert_lake_settings.
  apply bind_inv_at; [done|]. intros s1 linked [-> ->]%gets_Ok _.
  apply bind_inv_at; [done|]. intros s1 [] [-> Hlink]%st_reject_Ok _.
  apply bind_inv_at; [done|]. intros s1 [] [-> _]%st_reject_Ok _.
  apply bind_inv_at; [done|]. intros s1 owner [-> ->]%gets_Ok _.
  apply bind_inv_at; [done|]. intros s1 [] [-> Hown]%st_reject_Ok _. bool_to_prop.
  apply (lakes_system s (<[_ := row]> (lake_settings s)) Hs).
  intros k x. rewrite lookup_insert_Some. intros [[<- <-]|[_ Hk]]; [right|by left].
  split_and!; [done|done|]. unfold profile_of_lake in Hlink. apply orb_true_iff in Hlink as [Hz|Hlink].
  - left. by apply Z.eqb_eq.
  - right. destruct (profiles s !! _) as [r|] eqn:Hr; [|done]. bool_to_prop. by exists r.
Qed.

Lemma SaveLakeSettings_system `{TimeZoneDB} uid st now : preserves system_inv (SaveLakeSettings uid st now).
Proof. unfold SaveLakeSettings. reading. apply upsert_lake_settings_system. Qed.

Lemma ResetLakeSettings_system uid lake : preserves system_inv (ResetLakeSettings uid lake).
Proof.
  unfold ResetLakeSettings. reading. apply preserves_modify. intros s Hs.
  eapply (lakes_system s (delete _ (lake_settings s)) Hs). intros k row Hk.
  apply lookup_delete_Some in Hk as [_ Hk]. by left.
Qed.

(** Tables that neither invariant reads. *)
Lemma modify_unread_system f :
  (∀ s, account_frame s (f s) ∧ keeps s (f s)) → preserves system_inv (modify f).
Proof.
  intros Hf. apply preserves_modify. intros s [Hdb Hacc]. destruct (Hf s) as [HF HK].
  split; [by eapply keeps_inv|by eapply account_frame_inv].
Qed.
#[export] Hint Extern 3 (preserves system_inv (modify _)) =>
  solve [apply modify_unread_system; intros; split;
    [by split|by apply keeps_owners; intros; try apply same_owner_refl]] : preserves.

Lemma SaveAccountSettings_system uid st now : preserves system_inv (SaveAccountSettings uid st now).
Proof. unfold SaveAccountSettings. reading. unfold upsert_account_settings. reading. Qed.

Lemma SystemSaveNetworkSettings_system st : preserves system_inv (SystemSaveNetworkSettings st).
Proof. unfold SystemSaveNetworkSettings. reading. Qed.
