(* ===== verification/SystemInvariants.v ===== *)
(** * Accounts and sessions keep the invariants

    Setup, creation, renaming, disabling and deletion of accounts, password changes,
    sessions and login attempts.  Disabling an account revokes its sessions and
    cancels its queued jobs in one transaction. *)

From S2P Require Import Prelude GoStrings GoTime Json Secrets Auth Origin Domain Database JobStore.
From S2P Require Import JobInvariants EventStore JobOperations ResourceStore ProfileStore SettingsStore AccountStore.
From S2P Require Import AccountStore AccountInvariants ResourceInvariants.
From Stdlib Require Import Ascii String.

Open Scope Z_scope.

#[local] Notation account_inv := (account_inv_but None).

(** ** Accounts *)

Lemma user_clash_sym a b : user_clash a b = user_clash b a.
Proof.
  unfold user_clash. rewrite (String.eqb_sym (ur_normalized b)).
  by rewrite (andb_comm (bool_decide (URole (ur_user b) = RoleAdmin))).
Qed.

Lemma user_unique_spec r s k o :
  user_unique r s = true → users s !! k = Some o → k ≠ UID (ur_user r) → user_clash r o = false.
Proof. unfold user_unique. intros Hu Hk Hne. bool_to_prop. destruct (Hu k o Hk); congruence. Qed.

(** A table of users that keeps every account it had. *)
Lemma users_inv s us next skip :
  system_inv s →
  (∀ k, same_owner (λ _, 0) (users s !! k) (us !! k)) →
  user_inv us next →
  (∀ k r, users s !! k = Some r → skip = Some k ∨ ∃ r', us !! k = Some r' ∧ (is_active_user r = true → is_active_user r' = true)) →
  db_inv (set_users (λ _, us) s) ∧
  ∀ s', s' = MkDb us (sessions s) (attempts s) (sources s) (profiles s) (bookings s) (jobs s) (events s)
              (decisions s) (reservations s) (lake_settings s) (account_settings s) (otp_preferences s)
              (network_settings s) next (next_attempt s) (next_source s) (next_profile s) (next_booking s)
              (next_job s) (next_event s) →
  db_inv s' ∧ account_inv_but skip s'.
Proof.
  intros [Hdb [Hu Hss Ho Hp Hl]] Hkeep Hinv Hact.
  assert (Hdb' : ∀ s', keeps s s' → db_inv s') by (intros; by eapply keeps_inv).
  assert (Hhas : ∀ uid, has_user (users s) uid → has_user us uid).
  { intros uid Hh. unfold has_user in *. destruct (users s !! uid) as [r|] eqn:Hr; [|done].
    by destruct (Hkeep uid r Hr) as (? & -> & _). }
  split; [|intros s' ->; split].
  1,2: apply Hdb', keeps_owners; try done; intros k; apply same_owner_refl.
  split; simpl; [done|..].
  - split; [apply Hss| |apply Hss]. intros k x Hk. destruct (si_active _ _ _ Hss k x Hk) as [Hh Ha].
    split; [auto|]. intros Hskip. destruct Ha as (r & Hr & Hra); [done|].
    destruct (Hact _ _ Hr) as [?|(r' & ? & ?)]; [done|]. exists r'. auto.
  - split; try apply Ho. intros k r Hk. destruct (oi_key _ _ _ _ Ho k r Hk) as (? & ? & ?). auto.
  - split; [|apply Hp]. intros k r Hk. destruct (pi_key _ _ _ _ Hp k r Hk) as (? & ? & ? & ?). auto.
  - split.
    + intros k b Hk. destruct (li_booking _ _ _ _ Hl k b Hk). auto.
    + intros k row Hk. destruct (li_lake _ _ _ _ Hl k row Hk) as (? & ? & ?). auto.
Qed.

Lemma insert_user_system where_ row :
  (∀ id, UID (ur_user (row id)) = id ∧ is_active_user (row id) = true ∧
    (URole (ur_user (row id)) = RoleAdmin ∨ URole (ur_user (row id)) = RoleMember)) →
  preserves system_inv (insert_user where_ row).
Proof.
  intros Hrow s Hs. unfold insert_user.
  apply bind_inv_at; [done|]. intros s1 admitted [-> _]%gets_Ok _. destruct admitted; [|done].
  apply bind_inv_at; [done|]. intros s1 id [-> ->]%gets_Ok _.
  apply bind_inv_at; [done|]. intros s1 unique [-> ->]%gets_Ok _.
  apply bind_inv_at; [done|]. intros s1 [] [-> Huniq]%st_reject_Ok _. bool_to_prop.
  apply bind_inv_at; [|done]. cbn [fst modify].
  destruct (Hrow (next_user s)) as (Hid & Hact & Hrole). set (new := row (next_user s)) in *.
  pose proof Hs as [_ [Hu _ _ _ _]].
  assert (Hnone : users s !! next_user s = None).
  { apply eq_None_not_Some. intros [r Hr]. apply (ui_key _ _ Hu) in Hr as [_ ?]. lia. }
  eapply (users_inv s (<[next_user s := new]> (users s)) (next_user s + 1) None Hs); [| | |reflexivity].
  - apply insert_same_owner. done.
  - split.
    + intros k r. rewrite lookup_insert_Some. intros [[<- <-]|[_ Hk]]; [split; [done|lia]|].
      apply (ui_key _ _ Hu) in Hk. split; [tauto|lia].
    + apply insert_pairwise; [by intros x y Hxy; rewrite user_clash_sym|apply Hu|].
      intros k r Hk Hne. eapply user_unique_spec; [done|done|congruence].
    + intros k r. rewrite lookup_insert_Some. intros [[<- <-]|[_ Hk]]; [|by apply (ui_admin _ _ Hu k)].
      intros _. unfold is_active_user in Hact. by bool_to_prop.
    + intros k r. rewrite lookup_insert_Some. intros [[<- <-]|[_ Hk]]; [done|by apply (ui_role _ _ Hu k)].
  - intros k r Hk. right. exists r. rewrite lookup_insert_ne; [done|]. congruence.
Qed.

(** The UPDATE keeps the role and the id; an account it disables is to be revoked. *)
Lemma update_user_inv id where_ set_row skip s :
  (∀ r, UID (ur_user (set_row r)) = UID (ur_user r) ∧ URole (ur_user (set_row r)) = URole (ur_user r)) →
  (∀ r, users s !! id = Some r → where_ r = true → skip = Some id ∨ (is_active_user r = true → is_active_user (set_row r) = true)) →
  system_inv s →
  db_inv (update_user id where_ set_row s).1 ∧ account_inv_but skip (update_user id where_ set_row s).1.
Proof.
  intros Hset Hact Hs.
  assert (Hweak : db_inv s ∧ account_inv_but skip s).
  { destruct Hs as [Hdb [Hu Hss Ho Hp Hl]]. split; [done|]. split; try done. split; try apply Hss.
    intros k x Hk. destruct (si_active _ _ _ Hss k x Hk) as [? Ha]. auto. }
  unfold update_user. apply (bind_inv_at (λ s, db_inv s ∧ account_inv_but skip s)); [done|].
  intros s1 o [-> ->]%gets_Ok _. destruct (users s !! id) as [old|] eqn:Hold; [|done].
  destruct (where_ old) eqn:Hw; [|done]. cbn [negb]. cbv zeta.
  destruct (protected_update old (set_row old)) eqn:Hprot; [done|].
  apply (bind_inv_at (λ s, db_inv s ∧ account_inv_but skip s)); [done|]. intros s1 unique [-> ->]%gets_Ok _.
  apply (bind_inv_at (λ s, db_inv s ∧ account_inv_but skip s)); [done|]. intros s1 [] [-> Huniq]%st_reject_Ok _. bool_to_prop.
  apply (bind_inv_at (λ s, db_inv s ∧ account_inv_but skip s)); [|done]. cbn [fst modify].
  destruct (Hset old) as [Hid Hrole]. pose proof Hs as [_ [Hu _ _ _ _]].
  destruct (ui_key _ _ Hu id old Hold) as [Hkey Hlt].
  eapply (users_inv s (<[id := set_row old]> (users s)) (next_user s) skip Hs); [| | |reflexivity].
  - apply insert_same_owner. done.
  - split.
    + intros k r. rewrite lookup_insert_Some. intros [[<- <-]|[_ Hk]]; [split; [congruence|lia]|].
      by apply (ui_key _ _ Hu).
    + apply insert_pairwise; [by intros x y Hxy; rewrite user_clash_sym|apply Hu|].
      intros k r Hk Hne. eapply user_unique_spec; [done|done|congruence].
    + intros k r. rewrite lookup_insert_Some. intros [[<- <-]|[_ Hk]]; [|by apply (ui_admin _ _ Hu k)].
      intros Hadm. unfold protected_update in Hprot. rewrite Hadm in Hrole.
      rewrite (bool_decide_true (URole (ur_user old) = RoleAdmin)), (bool_decide_true (URole _ = RoleAdmin)) in Hprot by done.
      simpl in Hprot. by destruct (bool_decide (UStatus _ = UserActive)) eqn:He; bool_to_prop.
    + intros k r. rewrite lookup_insert_Some. intros [[<- <-]|[_ Hk]]; [|by apply (ui_role _ _ Hu k)].
      rewrite Hrole. by apply (ui_role _ _ Hu id).
  - intros k r Hk. destruct (decide (k = id)) as [->|Hne].
    + simplify_eq. destruct (Hact old eq_refl Hw) as [?|?]; [by left|]. right. exists (set_row old).
      by rewrite lookup_insert_eq.
    + right. exists r. by rewrite lookup_insert_ne.
Qed.

Lemma update_user_system id where_ set_row :
  (∀ r, UID (ur_user (set_row r)) = UID (ur_user r) ∧ URole (ur_user (set_row r)) = URole (ur_user r)) →
  (∀ r, is_active_user r = true → is_active_user (set_row r) = true) →
  preserves system_inv (update_user id where_ set_row).
Proof. intros Hset Hact s Hs. by apply update_user_inv; auto. Qed.

(** Revoking the sessions of an account. *)
Lemma delete_sessions_inv id s :
  db_inv s ∧ account_inv_but (Some id) s → system_inv (delete_sessions_of id s).
Proof.
  intros [Hdb [Hu Hss Ho Hp Hl]]. split.
  - eapply keeps_inv; [|exact Hdb]. apply keeps_owners; try done; intros k; apply same_owner_refl.
  - split; try done. simpl. split.
    + intros k x Hk. apply map_lookup_filter_Some in Hk as [Hk _]. by apply (si_key _ _ _ Hss).
    + intros k x Hk. apply map_lookup_filter_Some in Hk as [Hk Hne]. simpl in Hne.
      destruct (si_active _ _ _ Hss k x Hk) as [? Ha]. split; [done|]. intros _. apply Ha. congruence.
    + intros uid. etrans; [|apply (si_limit _ _ _ Hss uid)]. apply count_map_subseteq, map_filter_subseteq.
Qed.

Lemma delete_sessions_system id : preserves system_inv (modify (delete_sessions_of id)).
Proof.
  apply preserves_modify. intros s [Hdb [Hu Hss Ho Hp Hl]]. apply delete_sessions_inv. split; [done|].
  split; try done. split; try apply Hss. intros k x Hk. destruct (si_active _ _ _ Hss k x Hk) as [? Ha].
  split; [done|]. intros _. by apply Ha.
Qed.
#[export] Hint Resolve delete_sessions_system : preserves.

Section Hashing.
Context `{Hashes}.

Lemma SetupAdmin_system username password salt slot now :
  preserves system_inv (SetupAdmin username password salt slot now).
Proof. unfold SetupAdmin, HasUsers. reading. apply insert_user_system. simpl. auto. Qed.

Lemma CreateMember_system input salt slot now : preserves system_inv (CreateMember input salt slot now).
Proof. unfold CreateMember. reading. apply insert_user_system. simpl. auto. Qed.

Lemma ChangeUsername_system id password username slot now :
  preserves system_inv (ChangeUsername id password username slot now).
Proof. unfold ChangeUsername. reading. apply update_user_system; done. Qed.

Lemma ResetUserPassword_system id password salt must slot now :
  preserves system_inv (ResetUserPassword id password salt must slot now).
Proof. unfold ResetUserPassword. reading. apply update_user_system; done. Qed.

Lemma ChangeUserPassword_system id old new salt slot1 slot2 now :
  preserves system_inv (ChangeUserPassword id old new salt slot1 slot2 now).
Proof. unfold ChangeUserPassword. reading. apply update_user_system; done. Qed.

Lemma ResetAdministratorPassword_system password salt slot now :
  preserves system_inv (ResetAdministratorPassword password salt slot now).
Proof.
  unfold ResetAdministratorPassword. reading. by apply update_user_system.
Qed.

Lemma disable_jobs_system id now : preserves system_inv (disable_jobs id now).
Proof.
  apply framed_system; [|intros s0; apply update_jobs_framed]. apply update_jobs_stable.
  intros j Ho Hw. bool_to_prop. apply (cancel_legal _ now 0); [done|]. simpl. by apply orb_true_iff; left.
Qed.

Lemma map_err_Ok {A} f (m : ST db A) s s' a : map_err f m s = (s', Ok a) → m s = (s', Ok a).
Proof. unfold map_err. by destruct (m s) as [? [?|?]]. Qed.

Lemma UpdateUser_system id username status now : preserves system_inv (UpdateUser id username status now).
Proof.
  intros s Hs. unfold UpdateUser.
  apply bind_inv_at; [done|]. intros s1 names [-> _]%lift_Ok _.
  apply bind_inv_at; [done|]. intros s1 [] [-> Hv]%st_reject_Ok _.
  apply bind_inv_at; [|intros s1 [] _; apply GetUser_reads].
  apply atomically_inv_at; [done|]. intros s' [] Hrun. unfold getUser in Hrun. bool_to_prop. inv_ok.
  match goal with H : map_err _ _ _ = (_, Ok _) |- _ => apply map_err_Ok in H end.
  assert (Hset : ∀ r, UID (ur_user (rename_user names.1 names.2 status now r)) = UID (ur_user r) ∧
    URole (ur_user (rename_user names.1 names.2 status now r)) = URole (ur_user r)) by done.
  match goal with H : update_user _ _ _ s = (?s2, _) |- _ => rename H into Hupd; rename s2 into s1 end.
  destruct (bool_decide (status = UserDisabled)) eqn:Hdis; bool_to_prop.
  - pose proof (update_user_inv id (λ _, true) _ (Some id) s Hset ltac:(auto) Hs) as Hinv.
    rewrite Hupd in Hinv. apply delete_sessions_inv in Hinv. inv_ok.
    match goal with H : map_err _ _ _ = (_, Ok _) |- _ => apply map_err_Ok in H; rename H into Hjobs end.
    pose proof (disable_jobs_system id now _ Hinv) as Hfin. cbn [fst] in Hfin.
    by rewrite Hjobs in Hfin.
  - inv_ok. pose proof (update_user_inv id (λ _, true) _ None s Hset) as Hinv.
    rewrite Hupd in Hinv. apply Hinv; [|done]. intros r _ _. right. intros Hr.
    by destruct status.
Qed.
End Hashing.

(** ** Deleting a member *)

Lemma delete_decisions_of_system id : preserves system_inv (modify (set_decisions (filter (λ kv, DUserID kv.2 ≠ id)))).
Proof.
  apply preserves_modify. intros s [Hdb Hacc]. split; [|by eapply account_frame_inv; [|exact Hacc]].
  split; try apply Hdb. intros k d Hk. apply filter_some in Hk. by apply (inv_decision _ Hdb).
Qed.
Lemma delete_events_of_system id : preserves system_inv (modify (set_events (filter (λ kv, EUserID kv.2 ≠ id)))).
Proof.
  apply preserves_modify. intros s [Hdb Hacc]. split; [|by eapply account_frame_inv; [|exact Hacc]].
  split; try apply Hdb.
  - intros k e Hk. apply filter_some in Hk. by apply (inv_event _ Hdb).
  - intros i. etrans; [|apply (inv_event_limit _ Hdb i)]. apply filter_count.
Qed.
Lemma delete_jobs_system ids : preserves system_inv (modify (delete_jobs ids)).
Proof.
  apply framed_system; [apply preserves_modify; intros s; apply shrinks_inv, delete_jobs_shrinks|].
  intros s0. apply framed_modify. intros. apply delete_jobs_frame.
Qed.

Lemma delete_bookings_of_system id : preserves system_inv (delete_bookings_of id).
Proof.
  intros s Hs. unfold delete_bookings_of. cbv zeta. destruct (exists_row _ _) eqn:Hused; [done|]. cbn [fst].
  rewrite exists_row_false in Hused. destruct Hs as [Hdb Hacc].
  assert (Hkept : ∀ k j bid b, jobs s !! k = Some j → JBookingRequestID j = Some bid → bookings s !! bid = Some b →
    filter (λ kv : Z * BookingRequest, (BUserID kv.2 =? id) = false) (bookings s) !! bid = Some b).
  { intros k j bid b Hk Hbid Hb. apply map_lookup_filter_Some. split; [done|]. simpl.
    specialize (Hused k j Hk). simpl in Hused. rewrite Hbid in Hused. simpl in Hused. by rewrite Hb in Hused. }
  assert (Hslot : ∀ k j slot, jobs s !! k = Some j → job_slot s j = Some slot →
    job_slot (set_bookings (filter (λ kv, (BUserID kv.2 =? id) = false)) s) j = Some slot).
  { intros k j slot Hk Hsl. unfold job_slot in *; simpl. inv_opt.
    match goal with H : JBookingRequestID j = Some _, H' : bookings s !! _ = Some _ |- _ =>
      rewrite H; simpl; by rewrite (Hkept _ _ _ _ Hk H H') end. }
  split.
  - split; try apply Hdb.
    + intros k b Hk. simpl in Hk. apply filter_some in Hk. by apply (inv_booking_key _ Hdb).
    + intros k j Hk. pose proof (inv_fk _ Hdb k j Hk) as Hfk. unfold job_foreign_keys in *; simpl.
      rewrite !andb_true_iff in Hfk. destruct Hfk as [[[? ?] ?] Hb]. rewrite !andb_true_iff. split_and!; try done.
      destruct (JBookingRequestID j) as [bid|] eqn:Hbid; [|done].
      destruct (bookings s !! bid) as [b|] eqn:Hbk; [|done]. by rewrite (Hkept _ _ _ _ Hk Hbid Hbk).
    + intros k j Hk Hc Hun. destruct (inv_guard _ Hdb k j Hk Hc Hun) as (slot & Hsl & Hr).
      exists slot. split; [by eapply Hslot|done].
    + intros slot k Hr. destruct (inv_reservation _ Hdb slot k Hr) as (j & Hk & Hc & Hsl).
      exists j. split_and!; [done..|]. by eapply Hslot.
  - eapply account_frame_inv; [|exact Hacc]. split; try done. apply map_filter_subseteq.
Qed.

Lemma delete_lakes_of_system id : preserves system_inv (modify (set_lake_settings (filter (λ kv, kv.1.1 ≠ id)))).
Proof.
  apply preserves_modify. intros s Hs. apply (lakes_system s (filter _ (lake_settings s)) Hs).
  intros k row Hk. apply map_lookup_filter_Some in Hk as [Hk _]. by left.
Qed.

Lemma user_referenced_false id s :
  user_referenced id s = false →
  (∀ k r, sources s !! k = Some r → source_owner r ≠ id) ∧
  (∀ k r, profiles s !! k = Some r → profile_owner r ≠ id) ∧
  (∀ k b, bookings s !! k = Some b → BUserID b ≠ id) ∧
  (∀ k j, jobs s !! k = Some j → JUserID j ≠ id).
Proof.
  unfold user_referenced. intros H. bool_to_prop.
  repeat match goal with H : exists_row _ _ = false |- _ => rewrite exists_row_false in H end.
  split_and!; intros k x Hk;
    match goal with H : map_Forall _ ?m, H' : ?m !! _ = _ |- _ => specialize (H _ _ H'); by apply Z.eqb_neq in H end.
Qed.

Lemma delete_user_system id where_ : preserves system_inv (delete_user id where_).
Proof.
  intros s Hs. unfold delete_user. destruct (users s !! id) as [r|] eqn:Hr; [|done].
  repeat case_match; try done. cbn [fst].
  match goal with H : user_referenced id s = false |- _ => apply user_referenced_false in H as (Hos & Hps & Hbs & Hjs) end.
  destruct Hs as [Hdb [Hu Hss Ho Hp Hl]].
  assert (Hhas : ∀ uid, uid ≠ id → has_user (users s) uid → has_user (delete id (users s)) uid).
  { intros uid Hne. unfold has_user. by rewrite lookup_delete_ne. }
  split.
  - eapply keeps_inv; [|exact Hdb]. split; try done. intros k j Hj. unfold job_foreign_keys; simpl.
    rewrite lookup_delete_ne by (intros Heq; by destruct (Hjs k j Hj)). done.
  - split; simpl.
    + split.
      * intros k u Hk. apply lookup_delete_Some in Hk as [_ Hk]. by apply (ui_key _ _ Hu).
      * intros k1 k2 r1 r2 [_ Hk1]%lookup_delete_Some [_ Hk2]%lookup_delete_Some. by apply (ui_unique _ _ Hu k1 k2).
      * intros k u [_ Hk]%lookup_delete_Some. by apply (ui_admin _ _ Hu k).
      * intros k u [_ Hk]%lookup_delete_Some. by apply (ui_role _ _ Hu k).
    + split.
      * intros k x Hk. apply map_lookup_filter_Some in Hk as [Hk _]. by apply (si_key _ _ _ Hss).
      * intros k x Hk. apply map_lookup_filter_Some in Hk as [Hk Hne]. simpl in Hne.
        destruct (si_active _ _ _ Hss k x Hk) as [Hh Ha]. split; [by apply Hhas|]. intros _.
        destruct Ha as (u & ? & ?); [done|]. exists u. by rewrite lookup_delete_ne.
      * intros uid. etrans; [|apply (si_limit _ _ _ Hss uid)]. apply count_map_subseteq, map_filter_subseteq.
    + split; try apply Ho.
      * intros k o Hk. destruct (oi_key _ _ _ _ Ho k o Hk) as (? & ? & ?). split_and!; [done..|].
        apply Hhas; [|done]. by eapply Hos.
      * intros uid sid [_ Hpref]%lookup_delete_Some. by apply (oi_default _ _ _ _ Ho).
    + split; [|apply Hp]. intros k p Hk. destruct (pi_key _ _ _ _ Hp k p Hk) as (? & ? & ? & ?).
      split_and!; [done..| |done]. apply Hhas; [|done]. by eapply Hps.
    + split.
      * intros k b Hk. destruct (li_booking _ _ _ _ Hl k b Hk). split; [|done]. apply Hhas; [|done]. by eapply Hbs.
      * intros k row Hk. apply map_lookup_filter_Some in Hk as [Hk Hne].
        destruct (li_lake _ _ _ _ Hl k row Hk) as (-> & ? & ?). simpl in Hne. split_and!; [done| |done]. by apply Hhas.
Qed.

#[export] Hint Resolve delete_decisions_of_system delete_events_of_system delete_jobs_system
  delete_bookings_of_system delete_lakes_of_system delete_profiles_system delete_sources_system
  delete_user_system : preserves.

Lemma DeleteMember_system id name : preserves system_inv (DeleteMember id name).
Proof. unfold DeleteMember. reading. Qed.

(** ** Sessions *)

Lemma sessions_system s ss :
  system_inv s → session_inv None (users s) ss → system_inv (set_sessions (λ _, ss) s).
Proof.
  intros [Hdb [Hu Hss Ho Hp Hl]] Hinv. split; [|by split].
  eapply keeps_inv; [|exact Hdb]. by apply keeps_owners; intros; try apply same_owner_refl.
Qed.

Lemma trim_sessions_count uid s :
  (count_map (λ x, Z.eqb (SUserID x) uid) (sessions (trim_sessions uid s)) ≤ MaxSessionsPerUser - 1)%nat.
Proof.
  unfold trim_sessions. cbv zeta. simpl.
  etrans; [apply (count_map_keys _ _ (kept_sessions uid s))|].
  - intros k x Hk Hp. apply map_lookup_filter_Some in Hk as [_ [Hne|Hin]]; [|done].
    apply Z.eqb_eq in Hp. done.
  - unfold kept_sessions. rewrite length_fmap, length_take. unfold MaxSessionsPerUser. lia.
Qed.

Lemma insert_session_system session expected : preserves system_inv (insert_session session expected).
Proof.
  intros s Hs. unfold insert_session. destruct (users s !! SUserID session) as [r|] eqn:Hr; [|done].
  destruct (_ && _) eqn:Hact; [|done]. cbv zeta. bool_to_prop.
  destruct (sessions (trim_sessions (SUserID session) s) !! SID session) eqn:Hnone; [done|]. cbn [fst].
  apply (sessions_system s (<[SID session := session]> (sessions (trim_sessions (SUserID session) s))) Hs).
  destruct Hs as [_ [_ Hss _ _ _]].
  assert (Htrim : sessions (trim_sessions (SUserID session) s) ⊆ sessions s) by apply map_filter_subseteq.
  split.
  - intros k x. rewrite lookup_insert_Some. intros [[<- <-]|[_ Hk]]; [done|].
    apply (si_key _ _ _ Hss). by eapply lookup_weaken.
  - intros k x. rewrite lookup_insert_Some. intros [[<- <-]|[_ Hk]].
    + split; [unfold has_user; by rewrite Hr|]. intros _. by exists r.
    + eapply (si_active _ _ _ Hss k). by eapply lookup_weaken.
  - intros uid. rewrite count_map_insert_fresh by done.
    destruct (Z.eqb_spec (SUserID session) uid) as [<-|Hne].
    + pose proof (trim_sessions_count (SUserID session) s). unfold MaxSessionsPerUser in *. lia.
    + simpl. etrans; [|apply (si_limit _ _ _ Hss uid)]. by apply count_map_subseteq.
Qed.
#[export] Hint Resolve insert_session_system : preserves.

Lemma sessions_shrink_system f :
  (∀ m, f m ⊆ m) → preserves system_inv (modify (set_sessions f)).
Proof.
  intros Hf. apply preserves_modify. intros s Hs. apply (sessions_system s (f (sessions s)) Hs).
  destruct Hs as [_ [_ Hss _ _ _]]. split.
  - intros k x Hk. apply (si_key _ _ _ Hss). by eapply lookup_weaken.
  - intros k x Hk. apply (si_active _ _ _ Hss k). by eapply lookup_weaken.
  - intros uid. etrans; [|apply (si_limit _ _ _ Hss uid)]. by apply count_map_subseteq.
Qed.

Section Tokens.
Context `{Hashes}.

Lemma newSessionInScope_system uid lifetime expected scope raw csrf now :
  preserves system_inv (newSessionInScope uid lifetime expected scope raw csrf now).
Proof. unfold newSessionInScope. reading. Qed.

Lemma AuthenticateAndCreateSessionInScope_system username password lifetime scope raw csrf slot now :
  preserves system_inv (AuthenticateAndCreateSessionInScope username password lifetime scope raw csrf slot now).
Proof.
  unfold AuthenticateAndCreateSessionInScope. apply preserves_bind.
  - unfold authenticatePassword. reading.
  - intros [[user hash]|]; [|auto with preserves]. intros s Hs. unfold issue_session.
    pose proof (newSessionInScope_system (UID user) lifetime (Some hash) scope raw csrf now s Hs) as Hn.
    destruct (newSessionInScope _ _ _ _ _ _ _ s) as [s' [c|e]]; [done|]. by destruct (errors_is e _).
Qed.

Lemma TouchSession_system token now : preserves system_inv (TouchSession token now).
Proof.
  intros s Hs. unfold TouchSession. apply bind_inv_at; [done|]. intros s1 o [-> ->]%gets_Ok _.
  destruct (sessions s !! HashToken token) as [x|] eqn:Hx; [|done]. simpl.
  destruct (live_session now x s); [|done].
  apply (sessions_system s (<[HashToken token := touched now x]> (sessions s)) Hs).
  destruct Hs as [_ [_ Hss _ _ _]]. split.
  - intros k y. rewrite lookup_insert_Some. intros [[<- <-]|[_ Hk]];
      [exact (si_key _ _ _ Hss _ _ Hx)|by apply (si_key _ _ _ Hss)].
  - intros k y. rewrite lookup_insert_Some. intros [[<- <-]|[_ Hk]];
      [exact (si_active _ _ _ Hss _ _ Hx)|by apply (si_active _ _ _ Hss k)].
  - intros uid. pose proof (si_limit _ _ _ Hss uid).
    pose proof (count_map_insert (λ y, SUserID y =? uid) _ _ _ (touched now x) Hx) as Hc. simpl in Hc.
    destruct (SUserID x =? uid) in Hc; lia.
Qed.

Lemma DeleteSession_system token : preserves system_inv (DeleteSession token).
Proof. apply sessions_shrink_system. intros m. apply delete_subseteq. Qed.
End Tokens.

Lemma PurgeExpiredSessions_system now : preserves system_inv (PurgeExpiredSessions now).
Proof.
  unfold PurgeExpiredSessions. reading. apply sessions_shrink_system. intros m. apply map_filter_subseteq.
Qed.

(** ** Login attempts *)

Lemma RecordLoginAttempts_system keys succeeded clk : preserves system_inv (RecordLoginAttempts keys succeeded clk).
Proof.
  unfold RecordLoginAttempts. reading. apply modify_unread_system. intros s.
  generalize (imap pair (remove_dups a)). intros l.
  assert (Hsame : ∀ s1, account_frame s1 (foldl (λ s p, insert_attempt p.2 (clk p.1) s) s1 l) ∧
    keeps s1 (foldl (λ s p, insert_attempt p.2 (clk p.1) s) s1 l)); [|done].
  induction l as [|p l IH]; intros s1; simpl.
  { split; [done|]. by apply keeps_owners; intros; try apply same_owner_refl. }
  destruct (IH (insert_attempt p.2 (clk p.1) s1)) as [[] []]. split; split; done.
Qed.
