(* ===== verification/System.v ===== *)
(** * The store as a whole

    Every call that writes the database, as one type of operations; a run is a list
    of them from the empty database, in any order and with any arguments, clock
    readings and random bytes.  The invariants hold in every state a run reaches, and
    the history of the jobs between two states of a run is legal. *)

From S2P Require Import Prelude GoStrings GoTime Json Secrets Redaction Auth Origin Domain Scheduler Database.
From S2P Require Import JobStore Samples JobInvariants EventStore JobOperations JobHistory ResourceStore ProfileStore.
From S2P Require Import SettingsStore AccountStore AccountInvariants ResourceInvariants SystemInvariants.
From Stdlib Require Import Ascii String.

Open Scope Z_scope.

Inductive op :=
  | OpEnqueueJob (userID : Z) (params : EnqueueJobParams) (clk : nat → Time)
  | OpSystemEnqueueJob (params : EnqueueJobParams) (clk : nat → Time)
  | OpEnqueueBookingRequest (userID : Z) (request : BookingRequest) (params : EnqueueJobParams)
      (token : list nat) (clk : nat → Time)
  | OpSystemClaimNextDueJobAt (worker : string) (now : Time)
  | OpSystemTransitionJob (id : Z) (expected : list JobStatus) (to : JobStatus) (upd : JobTransition) (now : Time)
  | OpSystemMarkConfirmationStarted (id : Z) (now : Time)
  | OpRequestJobCancellation (userID id : Z) (now : Time)
  | OpSystemRequestJobCancellation (id : Z) (now : Time)
  | OpSystemRecoverInterruptedJobs (now : Time)
  | OpSystemExpireStaleJobs (now : Time)
  | OpSystemPruneTerminalJobs (now : Time)
  | OpRecordJobDecision (userID jobID : Z) (decision : ApprovalDecision) (now : Time)
  | OpSystemAppendJobEvent (input : JobEventInput) (now : Time)
  | OpCreateOTPSource (userID : Z) (input : OTPSourceInput) (nonce : string) (now : Time)
  | OpUpdateOTPSource (userID id : Z) (input : OTPSourceInput) (nonce : string) (now : Time)
  | OpDeleteOTPSource (userID id : Z)
  | OpSetDefaultOTPSource (userID id : Z)
  | OpSystemPersistOTPSourcePairing (jobID sourceID : Z) (chatGUID sender service : string) (now : Time)
  | OpCreateProfile (userID : Z) (input : ProfileInput) (nonce : string) (now : Time)
  | OpUpdateProfile (userID id : Z) (input : ProfileInput) (nonce : string) (now : Time)
  | OpDeleteProfile (userID id : Z)
  | OpSaveLakeSettings (userID : Z) (settings : LakeSettings) (now : Time)
  | OpResetLakeSettings (userID : Z) (lakeID : string)
  | OpSaveAccountSettings (userID : Z) (settings : AccountSettings) (now : Time)
  | OpSystemSaveNetworkSettings (settings : NetworkSettings)
  | OpSetupAdmin (username password salt : string) (slot : bool) (now : Time)
  | OpCreateMember (input : CreateUserInput) (salt : string) (slot : bool) (now : Time)
  | OpChangeUsername (id : Z) (password username : string) (slot : bool) (now : Time)
  | OpUpdateUser (id : Z) (username : string) (status : UserStatus) (now : Time)
  | OpDeleteMember (id : Z) (username : string)
  | OpResetUserPassword (id : Z) (password salt : string) (mustChange slot : bool) (now : Time)
  | OpChangeUserPassword (id : Z) (current new salt : string) (slot1 slot2 : bool) (now : Time)
  | OpResetAdministratorPassword (password salt : string) (slot : bool) (now : Time)
  | OpNewSession (userID : Z) (lifetime : Duration) (raw csrf : string) (now : Time)
  | OpAuthenticateAndCreateSession (username password : string) (lifetime : Duration) (scope raw csrf : string)
      (slot : bool) (now : Time)
  | OpTouchSession (token : string) (now : Time)
  | OpDeleteSession (token : string)
  | OpPurgeExpiredSessions (now : Time)
  | OpRecordLoginAttempts (keys : list string) (succeeded : bool) (clk : nat → Time).

Section exec.
Context `{AEAD} `{Hashes} `{TimeZoneDB}.

Definition exec (o : op) (s : db) : db :=
  match o with
  | OpEnqueueJob uid p clk => (EnqueueJob uid p clk s).1
  | OpSystemEnqueueJob p clk => (SystemEnqueueJob p clk s).1
  | OpEnqueueBookingRequest uid r p token clk => (EnqueueBookingRequest uid r p token clk s).1
  | OpSystemClaimNextDueJobAt worker now => (SystemClaimNextDueJobAt worker now s).1
  | OpSystemTransitionJob id expected to upd now => (SystemTransitionJob sanitizeText id expected to upd now s).1
  | OpSystemMarkConfirmationStarted id now => (SystemMarkConfirmationStarted id now s).1
  | OpRequestJobCancellation uid id now => (RequestJobCancellation uid id now s).1
  | OpSystemRequestJobCancellation id now => (SystemRequestJobCancellation id now s).1
  | OpSystemRecoverInterruptedJobs now => (SystemRecoverInterruptedJobs now s).1
  | OpSystemExpireStaleJobs now => (SystemExpireStaleJobs now s).1
  | OpSystemPruneTerminalJobs now => (SystemPruneTerminalJobs now s).1
  | OpRecordJobDecision uid id d now => (RecordJobDecision uid id d now s).1
  | OpSystemAppendJobEvent input now => (SystemAppendJobEvent input now s).1
  | OpCreateOTPSource uid input nonce now => (CreateOTPSource uid input nonce now s).1
  | OpUpdateOTPSource uid id input nonce now => (UpdateOTPSource uid id input nonce now s).1
  | OpDeleteOTPSource uid id => (DeleteOTPSource uid id s).1
  | OpSetDefaultOTPSource uid id => (SetDefaultOTPSource uid id s).1
  | OpSystemPersistOTPSourcePairing job id chat sender service now =>
      (SystemPersistOTPSourcePairing job id chat sender service now s).1
  | OpCreateProfile uid input nonce now => (CreateProfile uid input nonce now s).1
  | OpUpdateProfile uid id input nonce now => (UpdateProfile uid id input nonce now s).1
  | OpDeleteProfile uid id => (DeleteProfile uid id s).1
  | OpSaveLakeSettings uid st now => (SaveLakeSettings uid st now s).1
  | OpResetLakeSettings uid lake => (ResetLakeSettings uid lake s).1
  | OpSaveAccountSettings uid st now => (SaveAccountSettings uid st now s).1
  | OpSystemSaveNetworkSettings st => (SystemSaveNetworkSettings st s).1
  | OpSetupAdmin name password salt slot now => (SetupAdmin name password salt slot now s).1
  | OpCreateMember input salt slot now => (CreateMember input salt slot now s).1
  | OpChangeUsername id password name slot now => (ChangeUsername id password name slot now s).1
  | OpUpdateUser id name status now => (UpdateUser id name status now s).1
  | OpDeleteMember id name => (DeleteMember id name s).1
  | OpResetUserPassword id password salt must slot now => (ResetUserPassword id password salt must slot now s).1
  | OpChangeUserPassword id old new salt slot1 slot2 now => (ChangeUserPassword id old new salt slot1 slot2 now s).1
  | OpResetAdministratorPassword password salt slot now => (ResetAdministratorPassword password salt slot now s).1
  | OpNewSession uid lifetime raw csrf now => (NewSession uid lifetime raw csrf now s).1
  | OpAuthenticateAndCreateSession name password lifetime scope raw csrf slot now =>
      (AuthenticateAndCreateSessionInScope name password lifetime scope raw csrf slot now s).1
  | OpTouchSession token now => (TouchSession token now s).1
  | OpDeleteSession token => (DeleteSession token s).1
  | OpPurgeExpiredSessions now => (PurgeExpiredSessions now s).1
  | OpRecordLoginAttempts keys succeeded clk => (RecordLoginAttempts keys succeeded clk s).1
  end.
Definition run (ops : list op) (s : db) : db := foldl (λ s o, exec o s) s ops.
Definition reachable (s : db) : Prop := ∃ ops, s = run ops empty_db.

(** ** The invariants *)

Lemma exec_system_inv o s : system_inv s → system_inv (exec o s).
Proof using Type.
  intros Hs. destruct o; cbn [exec].
  - refine (preserves_bind _ _ _ _ _ _ Hs); [auto with preserves|]. intros _.
    apply framed_system; [apply enqueueJob_stable|]. intros. apply preserves_atomically, enqueueJobTx_framed.
  - refine (framed_system _ _ _ _ Hs); [apply enqueueJob_stable|].
    intros. apply preserves_atomically, enqueueJobTx_framed.
  - by apply EnqueueBookingRequest_system.
  - refine (framed_system _ _ _ _ Hs); [apply SystemClaimNextDueJobAt_stable|apply SystemClaimNextDueJobAt_framed].
  - refine (framed_system _ _ _ _ Hs); [apply SystemTransitionJob_stable|apply SystemTransitionJob_framed].
  - refine (framed_system _ _ _ _ Hs);
      [apply SystemMarkConfirmationStarted_stable|apply SystemMarkConfirmationStarted_framed].
  - refine (preserves_bind _ _ _ _ _ _ Hs); [auto with preserves|]. intros _.
    apply framed_system; [apply requestJobCancellation_stable|apply requestJobCancellation_framed].
  - refine (framed_system _ _ _ _ Hs); [apply requestJobCancellation_stable|apply requestJobCancellation_framed].
  - refine (framed_system _ _ _ _ Hs); [apply SystemRecoverInterruptedJobs_stable|apply SystemRecoverInterruptedJobs_framed].
  - refine (framed_system _ _ _ _ Hs); [apply SystemExpireStaleJobs_stable|apply SystemExpireStaleJobs_framed].
  - refine (framed_system _ _ _ _ Hs); [apply SystemPruneTerminalJobs_inv|apply SystemPruneTerminalJobs_framed].
  - refine (framed_system _ _ _ _ Hs); [apply RecordJobDecision_stable|apply RecordJobDecision_framed].
  - refine (framed_system _ _ _ _ Hs); [apply SystemAppendJobEvent_stable|apply SystemAppendJobEvent_framed].
  - by apply CreateOTPSource_system.
  - by apply UpdateOTPSource_system.
  - by apply DeleteOTPSource_system.
  - by apply SetDefaultOTPSource_system.
  - by apply SystemPersistOTPSourcePairing_system.
  - by apply CreateProfile_system.
  - by apply UpdateProfile_system.
  - by apply DeleteProfile_system.
  - by apply SaveLakeSettings_system.
  - by apply ResetLakeSettings_system.
  - by apply SaveAccountSettings_system.
  - by apply SystemSaveNetworkSettings_system.
  - by apply SetupAdmin_system.
  - by apply CreateMember_system.
  - by apply ChangeUsername_system.
  - by apply UpdateUser_system.
  - by apply DeleteMember_system.
  - by apply ResetUserPassword_system.
  - by apply ChangeUserPassword_system.
  - by apply ResetAdministratorPassword_system.
  - by apply newSessionInScope_system.
  - by apply AuthenticateAndCreateSessionInScope_system.
  - by apply TouchSession_system.
  - by apply DeleteSession_system.
  - by apply PurgeExpiredSessions_system.
  - by apply RecordLoginAttempts_system.
Qed.

Lemma run_system_inv ops s : system_inv s → system_inv (run ops s).
Proof using Type.
  revert s. induction ops as [|o ops IH]; intros s Hs; [done|]. apply IH. by apply exec_system_inv.
Qed.

Lemma empty_system_inv : system_inv empty_db.
Proof using Type.
  split; split; try (intros uid; unfold pending_count, retained_count, count_jobs); try done.
  - unfold MaxJobEventsPerJob. change (0 ≤ 256)%nat. lia.
  - split; try done. intros uid. unfold MaxSessionsPerUser. change (0 ≤ 8)%nat. lia.
Qed.

Lemma reachable_inv s : reachable s → system_inv s.
Proof using Type. intros [ops ->]. apply run_system_inv, empty_system_inv. Qed.
End exec.
