(* ===== verification/SystemHistory.v ===== *)
(** * The history of a run

    Between any two states of a run the jobs took legal steps ([evolves]); only three
    operations end the protection of a date: the retention of reservations whose date
    is past, and the deletion of the profile or of its owner. *)

From S2P Require Import Prelude GoStrings GoTime Json Secrets Redaction Auth Origin Domain Scheduler Database.
From S2P Require Import JobStore Samples JobInvariants EventStore JobOperations JobHistory ResourceStore ProfileStore.
From S2P Require Import SettingsStore AccountStore AccountInvariants ResourceInvariants SystemInvariants.
From S2P Require Import System.
From Stdlib Require Import Ascii String.

Open Scope Z_scope.

(** The dates whose guard an operation may drop. *)
Definition op_lost (o : op) (s : db) (slot : Z * string) : Prop :=
  match o with
  | OpSystemPruneTerminalJobs now => String.ltb slot.2 (day_before now) = true
  | OpDeleteProfile _ id => slot.1 = id
  | OpDeleteMember id _ => owned_in profile_owner (profiles s) slot.1 id
  | _ => False
  end.
(** The accounts whose jobs an operation may delete for good. *)
Definition op_forgets (o : op) (uid : Z) : Prop :=
  match o with OpDeleteMember id _ => uid = id | _ => False end.

#[export] Instance op_forgets_dec o uid : Decision (op_forgets o uid).
Proof. destruct o; simpl; apply _. Defined.

(** ** Operations that touch no job *)

Definition job_frame (s0 s : db) : Prop :=
  jobs s = jobs s0 ∧ next_job s = next_job s0 ∧ reservations s = reservations s0 ∧ decisions s = decisions s0
  ∧ events s = events s0 ∧ next_event s = next_event s0.
Notation untouched m := (∀ s0, preserves (job_frame s0) m).

#[export] Hint Extern 3 (preserves (job_frame _) (modify _)) =>
  apply preserves_modify; intros ? (? & ? & ? & ? & ? & ?); split_and!; assumption : preserves.

Lemma frame_evolves lost forgot s s' : db_inv s → job_frame s s' → evolves lost forgot s s'.
Proof.
  intros Hs (? & ? & Hr & Hd & ? & ?). apply same_jobs_evolves; try done.
  - by apply log_same.
  - intros k d Hk _. by rewrite Hd.
  - intros slot o _. by rewrite Hr.
Qed.
Lemma untouched_evolves {A} (m : ST db A) lost forgot s :
  untouched m → db_inv s → evolves lost forgot s (m s).1.
Proof. intros Hm Hs. apply frame_evolves; [done|]. by apply (Hm s s). Qed.

Section untouched.
Context `{AEAD} `{Hashes} `{TimeZoneDB}.

Lemma insert_source_untouched uid row : untouched (insert_source uid row).
Proof. intros. unfold insert_source. reading. Qed.
Lemma update_source_row_untouched uid id b o c : untouched (update_source_row uid id b o c).
Proof. intros. unfold update_source_row. reading. Qed.
Lemma delete_sources_untouched p : untouched (delete_sources p).
Proof. intros s0 s Hs. unfold delete_sources. by destruct (existsb _ _). Qed.
Lemma insert_profile_untouched uid row : untouched (insert_profile uid row).
Proof. intros. unfold insert_profile. reading. Qed.
Lemma update_profile_row_untouched uid id p c : untouched (update_profile_row uid id p c).
Proof. intros. unfold update_profile_row. reading. Qed.
Lemma insert_user_untouched w row : untouched (insert_user w row).
Proof. intros. unfold insert_user. reading. Qed.
Lemma update_user_untouched id w f : untouched (update_user id w f).
Proof. intros. unfold update_user. reading. Qed.
Lemma insert_session_untouched x h : untouched (insert_session x h).
Proof. intros s0 s Hs. unfold insert_session. by repeat case_match. Qed.
End untouched.
#[export] Hint Resolve insert_source_untouched update_source_row_untouched delete_sources_untouched
  insert_profile_untouched update_profile_row_untouched insert_user_untouched update_user_untouched
  insert_session_untouched : preserves.

Section history.
Context `{AEAD} `{Hashes} `{TimeZoneDB}.

Lemma authenticate_untouched name password lifetime scope raw csrf slot now :
  untouched (AuthenticateAndCreateSessionInScope name password lifetime scope raw csrf slot now).
Proof.
  intros s0. unfold AuthenticateAndCreateSessionInScope, authenticatePassword. apply preserves_bind; [reading|].
  intros [[user hash]|]; [|auto with preserves]. intros s Hs. unfold issue_session.
  assert (Hn : preserves (job_frame s0) (newSessionInScope (UID user) lifetime (Some hash) scope raw csrf now))
    by (unfold newSessionInScope; reading).
  specialize (Hn s Hs). destruct (newSessionInScope _ _ _ _ _ _ _ s) as [s' [c|e]]; [done|].
  by destruct (errors_is e _).
Qed.

Lemma RecordLoginAttempts_untouched keys succeeded clk : untouched (RecordLoginAttempts keys succeeded clk).
Proof.
  intros. unfold RecordLoginAttempts. reading. apply preserves_modify.
  generalize (imap pair (remove_dups a)). intros l.
  induction l as [|p l IH]; intros s Hs; [done|]. simpl. by apply IH.
Qed.

(** ** The operations that do *)

Lemma stable_evolves {A} (m : ST db A) lost forgot s :
  (∀ I, job_stable I → preserves I m) → db_inv s → evolves lost forgot s (m s).1.
Proof.
  intros Hm Hs. assert (Hs0 : since lost forgot s s) by (split; [done|by apply evolves_refl]).
  by destruct (Hm _ (since_stable lost forgot s Hs) s Hs0) as [_ ?].
Qed.

Lemma SystemPruneTerminalJobs_evolves now s :
  db_inv s → evolves (op_lost (OpSystemPruneTerminalJobs now) s) (λ _, False) s (SystemPruneTerminalJobs now s).1.
Proof.
  intros Hs. set (lost := op_lost _ s).
  assert (Hst : preserves (since lost (λ _, False) s) (SystemPruneTerminalJobs now)).
  { apply SystemPruneTerminalJobs_stable; [by apply since_stable|].
    intros s1 Hs1. eapply since_same; [done|exact Hs1| |done|done|by apply log_same|done|].
    - destruct Hs1 as [Hs1 _]. apply drop_detached_inv; [|done].
      intros [slot [k|]]; unfold expired_guard; simpl; done.
    - intros slot o Hl Hr. simpl. apply map_lookup_filter_Some. split; [done|].
      unfold expired_guard; simpl. destruct o; [done|]. simpl. by apply not_true_iff_false. }
  by destruct (Hst s (conj Hs (evolves_refl _ _ s Hs))).
Qed.

Lemma delete_profiles_evolves lost forgot gone s :
  db_inv s → (∀ slot, slot.1 ∈ gone → lost slot) → evolves lost forgot s (delete_profiles gone s).1.
Proof.
  intros Hs Hl. unfold delete_profiles. cbv zeta. destruct (existsb _ gone); [by apply evolves_refl|].
  apply same_jobs_evolves; try done. intros slot o Hn Hr. simpl. apply map_lookup_filter_Some. naive_solver.
Qed.

(** What the statements of [UpdateUser] keep, it keeps: one that touches no job, and the
    cancellation of the jobs of a disabled account. *)
Lemma UpdateUser_keeps (P : db → Prop) id name status now s :
  system_inv s → P s → (∀ s1, db_inv s1 → job_frame s s1 → P s1) →
  (∀ s1, system_inv s1 → P s1 → P (disable_jobs id now s1).1) → P (UpdateUser id name status now s).1.
Proof.
  intros Hs HP Hframe Hdisable. assert (Hdb : db_inv s) by apply Hs. unfold UpdateUser.
  apply bind_inv_at; [done|]. intros s1 names [-> _]%lift_Ok _.
  apply bind_inv_at; [done|]. intros s1 [] [-> _]%st_reject_Ok _.
  apply bind_inv_at; [|intros s1 [] _; apply GetUser_reads].
  apply atomically_inv_at; [done|]. intros s' [] Hrun. unfold getUser in Hrun. bool_to_prop. inv_ok.
  match goal with H : map_err _ _ _ = (_, Ok _) |- _ => apply map_err_Ok in H; rename H into Hupd end.
  match type of Hupd with _ = (?s2, _) => rename s2 into s1 end.
  pose proof (update_user_inv id (λ _, true) (rename_user names.1 names.2 status now) (Some id) s
    ltac:(done) ltac:(auto) Hs) as [Hdb1 Hacc1].
  pose proof (update_user_untouched id (λ _, true) (rename_user names.1 names.2 status now) s s
    ltac:(done)) as Hsame.
  rewrite Hupd in Hdb1, Hacc1, Hsame. cbn [fst] in *.
  destruct (bool_decide (status = UserDisabled)).
  - inv_ok. match goal with H : map_err _ _ _ = (_, Ok _) |- _ => apply map_err_Ok in H; rename H into Hjobs end.
    replace s' with (disable_jobs id now (delete_sessions_of id s1)).1 by (by rewrite Hjobs).
    assert (Hs2 : system_inv (delete_sessions_of id s1)) by (by apply delete_sessions_inv).
    apply Hdisable; [done|]. apply Hframe; [apply Hs2|done].
  - inv_ok. by apply Hframe.
Qed.
Lemma disable_legal id now :
  legal_update (λ j, (JUserID j =? id) && is_pending (JStatus j)) (cancel_row "Cancelled because the account was disabled." now).
Proof. intros j Ho Hw. bool_to_prop. apply (cancel_legal _ now 0); [done|]. simpl. by apply orb_true_iff; left. Qed.
Lemma UpdateUser_evolves lost forgot id name status now s :
  system_inv s → evolves lost forgot s (UpdateUser id name status now s).1.
Proof.
  intros Hs. assert (Hdb : db_inv s) by apply Hs. apply UpdateUser_keeps; [done|by apply evolves_refl|..].
  - intros s1 _. by apply frame_evolves.
  - intros s1 Hs1 Hev. eapply evolves_trans; [done|exact Hev|]. apply stable_evolves; [|apply Hs1].
    intros I HI. apply update_jobs_stable, disable_legal.
Qed.

(** ** Deleting a member *)

Section member.
Context (id : Z) (s : db) (Hs : system_inv s).
#[local] Notation lost := (op_lost (OpDeleteMember id "") s).
#[local] Notation forgot := (op_forgets (OpDeleteMember id "")).

(** What holds while the member's rows go. *)
Definition leaving (s1 : db) : Prop := system_inv s1 ∧ evolves lost forgot s s1 ∧ profiles s1 ⊆ profiles s.

Lemma leaving_at s1 s2 :
  leaving s1 → system_inv s2 → evolves lost forgot s1 s2 → profiles s2 ⊆ profiles s1 → leaving s2.
Proof using Hs.
  intros (Hs1 & He & Hp) Hs2 He' Hp'. split_and!; [done| |by etrans].
  eapply evolves_trans; [apply Hs|done|done].
Qed.

Lemma leaving_untouched {A} (m : ST db A) :
  preserves system_inv m → untouched m → (∀ s1, profiles (m s1).1 ⊆ profiles s1) → preserves leaving m.
Proof using Hs.
  intros Hm Hu Hp s1 Hl. pose proof Hl as ([Hdb Hacc] & _). eapply leaving_at; [done| | |apply Hp].
  - by apply Hm.
  - by apply untouched_evolves.
Qed.

Lemma delete_bookings_of_untouched uid : untouched (delete_bookings_of uid).
Proof using Type. intros s0 s1 Hs1. unfold delete_bookings_of. cbv zeta. by destruct (exists_row _ _). Qed.
Lemma delete_user_untouched uid w : untouched (delete_user uid w).
Proof using Type. intros s0 s1 Hs1. unfold delete_user. by repeat case_match. Qed.

Lemma leaving_reads {A} (m : ST db A) : (∀ I, preserves I m) → preserves leaving m.
Proof using Type. auto. Qed.

Lemma map_err_profiles {A} f (m : ST db A) s1 :
  profiles (m s1).1 ⊆ profiles s1 → profiles (map_err f m s1).1 ⊆ profiles s1.
Proof using Type. unfold map_err. by destruct (m s1) as [? [?|?]]. Qed.

Lemma forget_decisions_leaving : preserves leaving (modify (set_decisions (filter (λ kv, DUserID kv.2 ≠ id)))).
Proof using Hs.
  intros s1 Hl. pose proof Hl as ([Hdb Hacc] & _). eapply leaving_at; [done| | |done].
  - assert (Hp : preserves system_inv (modify (set_decisions (filter (λ kv : Z * JobDecision, DUserID kv.2 ≠ id))))) by auto with preserves.
    by apply Hp.
  - apply same_jobs_evolves; try done. intros k d Hk Hf. by apply map_lookup_filter_Some.
Qed.

Lemma forget_events_leaving : preserves leaving (modify (set_events (filter (λ kv, EUserID kv.2 ≠ id)))).
Proof using Hs.
  intros s1 Hl. pose proof Hl as ([Hdb Hacc] & _). eapply leaving_at; [done| | |done].
  - by apply delete_events_of_system.
  - apply same_jobs_evolves; try done. apply log_shrinks; [done|]. apply map_filter_subseteq.
Qed.

Lemma DeleteMember_leaving name : preserves leaving (DeleteMember id name).
Proof using Hs.
  unfold DeleteMember. apply preserves_bind; [auto with preserves|intros _]. apply preserves_atomically.
  apply preserves_bind; [auto with preserves|intros row]. cbv zeta.
  do 3 (apply preserves_bind; [auto with preserves|intros _]).
  do 2 (apply preserves_bind; [auto with preserves|intros ?]).
  apply preserves_bind; [apply forget_decisions_leaving|intros _].
  apply preserves_bind; [apply forget_events_leaving|intros _].
  intros s1 Hs1. apply bind_inv_at; [done|]. intros s1' owned [-> ->]%gets_Ok _.
  apply bind_inv_at.
  { pose proof Hs1 as ([Hdb Hacc] & _). eapply leaving_at; [done|by apply delete_jobs_system| |].
    - apply delete_jobs_evolves; [done|]. intros k j Hk Hj. right.
      apply elem_of_select_keys in Hk as (j' & Hj' & Hu). simplify_eq. by bool_to_prop.
    - cbn [modify fst]. by rewrite (af_profiles _ _ (delete_jobs_frame _ s1)). }
  intros s2 [] _. revert s2. apply preserves_bind.
  { apply map_err_system, leaving_untouched; [auto using delete_bookings_of_untouched with preserves..|].
    intros s2. unfold delete_bookings_of. cbv zeta. by destruct (exists_row _ _). }
  intros _. apply preserves_bind; [apply leaving_untouched; [auto with preserves..|done]|intros _].
  intros s2 Hs2. apply bind_inv_at; [done|]. intros s2' gone [-> ->]%gets_Ok _.
  apply bind_inv_at.
  { pose proof Hs2 as ([Hdb Hacc] & He & Hp). unfold map_err.
    set (gone := (select _ (profiles s2)).*1).
    assert (Hl : leaving (delete_profiles gone s2).1).
    - eapply leaving_at; [done|by apply delete_profiles_system| |].
      + apply delete_profiles_evolves; [done|]. intros slot Hg.
        apply elem_of_select_keys in Hg as (r & Hr & Hu). bool_to_prop. exists r. split; [|done].
        by eapply lookup_weaken.
      + unfold delete_profiles. cbv zeta. destruct (existsb _ _); [done|]. apply map_filter_subseteq.
    - by destruct (delete_profiles gone s2) as [? [?|?]]. }
  intros s3 [] _. revert s3. apply preserves_bind.
  { apply map_err_system, leaving_untouched; [auto with preserves..|].
    intros s3. unfold delete_sources. by destruct (existsb _ _). }
  intros _. apply preserves_bind; [apply leaving_untouched; [auto with preserves..|done]|intros _].
  apply preserves_bind; [|auto with preserves].
  apply map_err_system, leaving_untouched; [auto using delete_user_untouched with preserves..|].
  intros s3. unfold delete_user. by repeat case_match.
Qed.
End member.

Lemma DeleteProfile_evolves forgot uid id s :
  db_inv s → evolves (op_lost (OpDeleteProfile uid id) s) forgot s (DeleteProfile uid id s).1.
Proof.
  intros Hs. set (L := op_lost _ s). pose proof (evolves_refl L forgot s Hs) as Hr. unfold DeleteProfile.
  apply bind_inv_at; [done|]. intros s1 [] [-> _]%st_reject_Ok _.
  apply bind_inv_at; [done|]. intros s1 row [-> _]%gets_Ok _.
  apply bind_inv_at; [done|]. intros s1 chosen [-> _]%gets_Ok _.
  destruct row as [r|]; [|done]. destruct chosen; [done|].
  pose proof (delete_profiles_evolves L forgot [id] s Hs) as Hd. unfold map_err.
  assert (He : evolves L forgot s (delete_profiles [id] s).1).
  { apply Hd. intros slot Hin%list_elem_of_singleton. exact Hin. }
  by destruct (delete_profiles [id] s) as [? [?|?]].
Qed.

(** The calls that write the job tables, or the reservations. *)
Definition writes_jobs (o : op) : bool :=
  match o with
  | OpEnqueueJob _ _ _ | OpSystemEnqueueJob _ _ | OpEnqueueBookingRequest _ _ _ _ _ | OpSystemClaimNextDueJobAt _ _
  | OpSystemTransitionJob _ _ _ _ _ | OpSystemMarkConfirmationStarted _ _ | OpRequestJobCancellation _ _ _
  | OpSystemRequestJobCancellation _ _ | OpSystemRecoverInterruptedJobs _ | OpSystemExpireStaleJobs _
  | OpSystemPruneTerminalJobs _ | OpRecordJobDecision _ _ _ _ | OpSystemAppendJobEvent _ _
  | OpDeleteProfile _ _ | OpUpdateUser _ _ _ _ | OpDeleteMember _ _ => true
  | _ => false
  end.
Lemma exec_untouched o s : writes_jobs o = false → job_frame s (exec o s).
Proof.
  intros Ho. destruct o; try discriminate Ho; cbn [exec];
    match goal with |- job_frame s (?m s).1 => assert (Hm : untouched m); [intros s0|by apply (Hm s s)] end.
  all: try (unfold CreateOTPSource, UpdateOTPSource, DeleteOTPSource, SetDefaultOTPSource, SystemPersistOTPSourcePairing,
      CreateProfile, UpdateProfile, SaveLakeSettings, upsert_lake_settings, ResetLakeSettings,
      SaveAccountSettings, upsert_account_settings, SystemSaveNetworkSettings, SetupAdmin, HasUsers, CreateMember,
      ChangeUsername, ResetUserPassword, ChangeUserPassword, ResetAdministratorPassword, NewSession,
      newSessionInScope, TouchSession, DeleteSession, PurgeExpiredSessions; reading; done).
  - apply authenticate_untouched.
  - apply RecordLoginAttempts_untouched.
Qed.

(** Every operation continues the history of the jobs. *)
Lemma exec_evolves o s : system_inv s → evolves (op_lost o s) (op_forgets o) s (exec o s).
Proof.
  intros Hs. assert (Hdb : db_inv s) by apply Hs.
  destruct (writes_jobs o) eqn:Hw; [|by apply frame_evolves, exec_untouched]. destruct o; try discriminate Hw; cbn [exec];
    try (apply stable_evolves; [|done]; intros I HI;
         first [ apply enqueueJob_stable | apply EnqueueBookingRequest_stable | apply SystemClaimNextDueJobAt_stable
               | apply SystemTransitionJob_stable | apply SystemMarkConfirmationStarted_stable
               | apply requestJobCancellation_stable | apply SystemRecoverInterruptedJobs_stable
               | apply SystemExpireStaleJobs_stable | apply RecordJobDecision_stable
               | apply SystemAppendJobEvent_stable
               | apply preserves_bind; [auto with preserves|intros _];
                 first [apply enqueueJob_stable | apply requestJobCancellation_stable] ]).
  - by apply SystemPruneTerminalJobs_evolves.
  - by apply DeleteProfile_evolves.
  - by apply UpdateUser_evolves.
  - destruct (DeleteMember_leaving id s Hs username s) as (_ & He & _); [|done].
    split_and!; [done|by apply evolves_refl|done].
Qed.

(** The dates a run may stop guarding, and the accounts it forgets, operation by
    operation. *)
Fixpoint run_lost (ops : list op) (s : db) (slot : Z * string) : Prop :=
  match ops with
  | [] => False
  | o :: rest => op_lost o s slot ∨ run_lost rest (exec o s) slot
  end.
Definition run_forgets (ops : list op) (uid : Z) : Prop := Exists (λ o, op_forgets o uid) ops.
#[export] Instance run_forgets_dec ops uid : Decision (run_forgets ops uid).
Proof. unfold run_forgets. apply _. Defined.

Lemma evolves_weaken lost lost' (forgot forgot' : Z → Prop) s s' :
  (∀ slot, lost slot → lost' slot) → (∀ u, forgot u → forgot' u) →
  evolves lost forgot s s' → evolves lost' forgot' s s'.
Proof.
  intros Hl Hf []. split; try done.
  - intros k j Hk Hst Hn. eauto.
  - intros i slot Hn. eauto.
  - intros k d Hk Hn. eauto.
Qed.

Lemma run_evolves ops s : system_inv s → evolves (run_lost ops s) (run_forgets ops) s (run ops s).
Proof.
  revert s. induction ops as [|o ops IH]; intros s Hs; [apply evolves_refl, Hs|].
  change (run (o :: ops) s) with (run ops (exec o s)).
  eapply evolves_trans; [apply Hs| |].
  - eapply evolves_weaken; [..|by apply exec_evolves]; [by left|by constructor].
  - eapply evolves_weaken; [..|by apply IH, exec_system_inv]; [by right|intros u Hu; by right].
Qed.

(** ** Decisions are permanent

    A call to delete a member that fails deletes nothing, and one that succeeds leaves
    no job of the member. *)

Lemma DeleteMember_gone id name s s' : DeleteMember id name s = (s', Ok tt) → users s' !! id = None.
Proof.
  unfold DeleteMember, getUser. intros Hrun. bool_to_prop. inv_ok.
  match goal with H : map_err _ (delete_user _ _) _ = _, Hd : negb _ = false |- _ =>
    apply map_err_Ok in H; apply negb_false_iff in Hd as ->; rename H into Hdel end.
  unfold delete_user in Hdel. repeat case_match; simplify_eq. simpl. apply lookup_delete_eq.
Qed.
Lemma exec_keeps_decision o s k d :
  system_inv s → decisions s !! k = Some d → jobs (exec o s) !! k = None ∨ decisions (exec o s) !! k = Some d.
Proof.
  intros Hs Hd. pose proof (exec_evolves o s Hs) as He.
  destruct (decide (op_forgets o (DUserID d))) as [Hf|Hf]; [|by eapply ev_decision].
  destruct o; try done. simpl in Hf. subst id. cbn [exec] in *.
  destruct (inv_decision _ (proj1 Hs) k d Hd) as (_ & j & Hj & Hu).
  destruct (DeleteMember (DUserID d) username s) as [s' [[]|e]] eqn:Hdel; simpl in *.
  - left. apply eq_None_not_Some. intros [j' Hj'].
    assert (Hs' : system_inv s') by (pose proof (exec_system_inv (OpDeleteMember (DUserID d) username) s Hs) as H'; simpl in H'; by rewrite Hdel in H').
    destruct (ev_job _ _ _ _ He k j Hj) as [Hn|(j2 & Hj2 & Hstep)]; [congruence|]. simplify_eq.
    pose proof (inv_fk _ (proj1 Hs') k j' Hj') as Hfk. unfold job_foreign_keys in Hfk.
    rewrite (rs_user _ _ Hstep), Hu in Hfk. rewrite (DeleteMember_gone _ _ _ _ Hdel) in Hfk. done.
  - right. unfold DeleteMember in Hdel. rewrite ST_bind_unfold in Hdel.
    destruct (st_reject (DUserID d <=? 0) (Sentinel ErrNotFound) s) as [s1 [[]|x]] eqn:Hr.
    + apply st_reject_Ok in Hr as [-> _]. apply atomically_Err in Hdel. by subst.
    + unfold st_reject, lift in Hr. destruct (reject _ _); naive_solver.
Qed.
Lemma run_keeps_decision ops s k d :
  system_inv s → decisions s !! k = Some d → jobs (run ops s) !! k = None ∨ decisions (run ops s) !! k = Some d.
Proof.
  revert s. induction ops as [|o ops IH]; intros s Hs Hd; [by right|].
  change (run (o :: ops) s) with (run ops (exec o s)). pose proof (exec_system_inv o s Hs) as Hs'.
  destruct (exec_keeps_decision o s k d Hs Hd) as [Hn|Hd']; [|by apply IH].
  left. destruct (inv_decision _ (proj1 Hs) k d Hd) as (_ & j & Hj & _). apply eq_None_not_Some. intros [j' Hj'].
  apply (ev_fresh _ _ _ _ (run_evolves ops _ Hs') k j' Hj') in Hn.
  pose proof (ev_next _ _ _ _ (exec_evolves o s Hs)). apply (inv_job_key _ (proj1 Hs)) in Hj as [_ ?]. lia.
Qed.
End history.
