(* ===== verification/SystemSamples.v ===== *)
(** * A concrete run

    The run the witnesses evaluate the theorems about reachable states on: setup, a
    source, a sign-in, a booking that is claimed and confirmed, and a second member. *)

From S2P Require Import Prelude GoStrings GoTime Json Secrets Redaction Auth Origin Domain Scheduler Database.
From S2P Require Import JobStore Samples JobInvariants EventStore JobOperations JobHistory ResourceStore ProfileStore.
From S2P Require Import SettingsStore AccountStore System.
From Stdlib Require Import Ascii String.

Open Scope Z_scope.

#[export] Instance sample_aead_instance : AEAD := sample_aead.
#[export] Instance sample_hashes_instance : Hashes := sample_hashes.

Definition sample_source_input : OTPSourceInput :=
  MkSourceInput "phone" OTPProviderTwilio "+16045550100" (Some (JObject [("auth_token", JString "token"); ("to_number", JString "+16045550100")])) true "" "" "".
Definition sample_profile_input : ProfileInput :=
  MkProfileInput "" "" "sign-in" "Car" "https://yodelportal.com/buntzen-lake" 0 true "" "" 15000 true
    (Some "604-555-0199").
(** A booking of profile 1 for the 10th of January, released on the 9th. *)
Definition sample_request (date : string) : BookingRequest :=
  let b := sample_booking "America/Vancouver" date 1 in
  MkBooking 0 0 (BName b) (BKind b) (BLakeID b) 1 (BVehicleKeyword b) (BEnabled b) (BScheduleEnabled b)
    (BTargetDate b) (BTimezone b) (BReleaseTime b) (BReleaseDaysBefore b) (BPrepMinutesBefore b)
    (BAuthDeadlineMinutesBefore b) (BPollDeadlineSeconds b) (BPollMinSeconds b) (BPollMaxSeconds b)
    (BConfirmationMode b) (BLoginProbeURL b) (BAllDayPassURL b) (BHalfDayPassURL b) (BPreferredPasses b)
    (BCheckAllDay b) (BCheckAfternoon b) (BCheckMorning b) (BCreatedAt b) (BUpdatedAt b).
Definition sample_enqueue_op (user : Z) (date : string) : op :=
  OpEnqueueBookingRequest user (sample_request date) book_params [1; 2; 3; 4; 5; 6; 7; 8]%nat sample_clock.

Definition setup_ops : list op :=
  [ OpSetupAdmin "owner" "correct horse battery" "0123456789abcdef" true t0;
    OpCreateOTPSource 1 sample_source_input "0123456789ab" t0;
    OpCreateProfile 1 sample_profile_input "0123456789ab" t0 ].
Definition setup_db : db := run setup_ops empty_db.
Definition booked_ops : list op := (setup_ops ++ [sample_enqueue_op 1 "2026-01-10"])%list.
Definition booked_db : db := run booked_ops empty_db.
Definition confirmed_ops : list op :=
  (booked_ops ++ [OpSystemClaimNextDueJobAt "worker" t0; OpSystemMarkConfirmationStarted 1 t0])%list.
Definition confirmed_db : db := run confirmed_ops empty_db.

Example booked_job : JStatus <$> (jobs booked_db !! 1) = Some JobQueued.
Proof. vm_compute. reflexivity. Qed.
Example confirmed_job : (is_some ∘ JConfirmationStartedAt) <$> (jobs confirmed_db !! 1) = Some true.
Proof. vm_compute. reflexivity. Qed.

Lemma reachable_run ops : reachable (run ops empty_db).
Proof. by exists ops. Qed.

(** A job of a state, with a test it passes. *)
Lemma job_where s k (p : Job → bool) :
  match jobs s !! k with Some j => p j | None => false end = true →
  ∃ j, jobs s !! k = Some j ∧ p j = true.
Proof. destruct (jobs s !! k); eauto; done. Qed.
Ltac at_job s k p j Hj Hp :=
  let H := fresh in
  pose proof (job_where s k p) as H; destruct H as (j & Hj & Hp); [vm_compute; reflexivity|].
