(* ===== verification/SealedSecrets.v ===== *)
(** * The store's secrets fit the key of the installation (of System and Lifecycle)

    Whatever calls write the store, each stored secret is an envelope of the installation's
    key within the limits the verification sets, so that a database the store wrote always
    opens again. *)

From S2P Require Import Prelude GoStrings GoTime Json Secrets Redaction Auth Origin Domain Scheduler Database.
From S2P Require Import JobStore Samples JobInvariants EventStore JobOperations JobHistory ResourceStore ProfileStore.
From S2P Require Import SettingsStore AccountStore AccountInvariants ResourceInvariants SystemInvariants.
From S2P Require Import System SystemHistory SystemSamples Lifecycle.
From Stdlib Require Import Ascii String.

Open Scope Z_scope.

(** The encrypted columns of the store's tables. *)
Definition stored_column (s : db) (table column : string) : option (list (option string)) :=
  if String.eqb table "otp_sources" && String.eqb column "config_ciphertext"
  then Some ((λ kv, Some (sr_config_ciphertext kv.2)) <$> map_to_list (sources s))
  else if String.eqb table "profiles" && String.eqb column "yodel_phone_ciphertext"
  then Some ((λ kv, Some (pr_phone_ciphertext kv.2)) <$> map_to_list (profiles s))
  else None.
(** The random bytes of an encryption are a nonce of the cipher. *)
Definition fresh_nonce (o : op) : Prop :=
  match o with
  | OpCreateOTPSource _ _ nonce _ | OpUpdateOTPSource _ _ _ nonce _
  | OpCreateProfile _ _ nonce _ | OpUpdateProfile _ _ _ nonce _ => String.length nonce = NonceSize
  | _ => True
  end.

Section sealed.
Context `{A : AEAD} `{Hashes} `{TimeZoneDB}.
Context (Hlaw : aead_round_trip A).

Definition config_field : encryptedField := MkField "otp_sources" "config_ciphertext" 8192 false.
Definition phone_field : encryptedField := MkField "profiles" "yodel_phone_ciphertext" 4096 true.
Definition fits (field : encryptedField) (ciphertext : string) : Prop := verify_value field (Some ciphertext) = Ok tt.
Definition sealed (s : db) : Prop :=
  map_Forall (λ _ r, fits config_field (sr_config_ciphertext r)) (sources s)
  ∧ map_Forall (λ _ r, fits phone_field (pr_phone_ciphertext r)) (profiles s).

Lemma sealed_same s s' : sources s' ⊆ sources s → profiles s' ⊆ profiles s → sealed s → sealed s'.
Proof using Type. intros Hs Hp [H1 H2]. split; intros k r Hk; [eapply H1|eapply H2]; by eapply lookup_weaken. Qed.
Lemma framed_sealed {X} (m : ST db X) : framed m → preserves sealed m.
Proof using Type. intros Hm s Hs. pose proof (Hm s s ltac:(reflexivity)) as F. eapply sealed_same; [..|exact Hs]; by rewrite ?(af_sources _ _ F), ?(af_profiles _ _ F). Qed.
#[local] Hint Extern 3 (preserves sealed (modify _)) => apply preserves_modify; intros ? [? ?]; split; assumption : preserves.

Lemma Encrypt_fits field nonce plaintext :
  String.length nonce = NonceSize → ef_limit field <? len (Encrypt nonce plaintext) = false → fits field (Encrypt nonce plaintext).
Proof using Hlaw.
  intros Hn Hlen. unfold fits, verify_value. rewrite Hlen. unfold Encrypt at 2. rewrite Decrypt_envelope, Hlaw by done. by destruct (_ && _).
Qed.
Lemma encryptJSON_fits nonce value c : String.length nonce = NonceSize → encryptJSON nonce value = Ok c → fits config_field c.
Proof using Hlaw.
  intros Hn. unfold encryptJSON. cbv zeta. destruct (_ <? _); [done|]. destruct (_ <? len (Encrypt _ _)) eqn:Hlen; [done|].
  intros [= <-]. by apply Encrypt_fits.
Qed.
Lemma encrypt_phone_fits nonce phone c : String.length nonce = NonceSize → encrypt_phone nonce phone = Ok c → fits phone_field c.
Proof using Hlaw.
  intros Hn Hc. unfold encrypt_phone in Hc. apply result_bind_Ok in Hc as (p & _ & Hc). cbv zeta in Hc.
  destruct (_ <? len (Encrypt _ _)) eqn:Hlen; [done|]. injection Hc as <-. by apply Encrypt_fits.
Qed.

(** Statements on the two tables. *)
Lemma insert_source_sealed uid row : (∀ id, fits config_field (sr_config_ciphertext (row id))) → preserves sealed (insert_source uid row).
Proof using Type.
  intros Hrow. unfold insert_source. reading. apply preserves_modify. intros s [H1 H2]. split; [|done]. by apply map_Forall_insert_2.
Qed.
Lemma update_source_row_sealed uid id provided o c :
  (∀ x, c = Some x → fits config_field x) → preserves sealed (update_source_row uid id provided o c).
Proof using Type.
  intros Hc s Hs. unfold update_source_row.
  apply bind_inv_at; [done|]. intros s1 row [-> ->]%gets_Ok _. apply bind_inv_at; [done|]. intros s1 busy [-> _]%gets_Ok _.
  destruct (owned_source uid id s) as [old|] eqn:Hold; [|done]. apply owned_source_Some in Hold as [Hold _]. cbv zeta. destruct (_ || _); [done|].
  apply bind_inv_at; [done|]. intros s1 unique [-> _]%gets_Ok _.
  do 2 (apply bind_inv_at; [done|]; intros s1 [] [-> _]%st_reject_Ok _). apply bind_inv_at; [|done].
  destruct Hs as [H1 H2]. split; [|done]. apply map_Forall_insert_2; [|done]. destruct c as [x|]; [by apply Hc|]. by apply (H1 id old).
Qed.
Lemma insert_profile_sealed uid row : (∀ id, fits phone_field (pr_phone_ciphertext (row id))) → preserves sealed (insert_profile uid row).
Proof using Type.
  intros Hrow. unfold insert_profile. reading. apply preserves_modify. intros s [H1 H2]. split; [done|]. by apply map_Forall_insert_2.
Qed.
Lemma update_profile_row_sealed uid id p c :
  (∀ x, c = Some x → fits phone_field x) → preserves sealed (update_profile_row uid id p c).
Proof using Type.
  intros Hc s Hs. unfold update_profile_row.
  apply bind_inv_at; [done|]. intros s1 row [-> ->]%gets_Ok _. apply bind_inv_at; [done|]. intros s1 busy [-> _]%gets_Ok _.
  destruct (owned_profile uid id s) as [old|] eqn:Hold; [|done]. apply owned_profile_Some in Hold as [Hold _]. destruct (busy : bool); [done|]. cbv zeta.
  apply bind_inv_at; [done|]. intros s1 l [-> _]%gets_Ok _.
  do 2 (apply bind_inv_at; [done|]; intros s1 [] [-> _]%st_reject_Ok _).
  apply bind_inv_at; [done|]. intros s1 u [-> _]%gets_Ok _. apply bind_inv_at; [done|]. intros s1 [] [-> _]%st_reject_Ok _.
  apply bind_inv_at; [done|]. intros s1 f [-> _]%gets_Ok _. apply bind_inv_at; [done|]. intros s1 [] [-> _]%st_reject_Ok _.
  apply bind_inv_at; [|done]. destruct Hs as [H1 H2]. split; [done|]. apply map_Forall_insert_2; [|done].
  destruct c as [x|]; [by apply Hc|]. by apply (H2 id old).
Qed.
Lemma delete_sources_sealed p : preserves sealed (delete_sources p).
Proof using Type.
  intros s Hs. unfold delete_sources. cbv zeta. destruct (existsb _ _); [done|]. eapply sealed_same; [..|exact Hs]; [apply map_filter_subseteq|done].
Qed.
Lemma delete_profiles_sealed gone : preserves sealed (delete_profiles gone).
Proof using Type.
  intros s Hs. unfold delete_profiles. cbv zeta. destruct (existsb _ _); [done|]. eapply sealed_same; [..|exact Hs]; [done|apply map_filter_subseteq].
Qed.
Lemma pairing_sealed job id chat sender service now : preserves sealed (SystemPersistOTPSourcePairing job id chat sender service now).
Proof using Type.
  intros s Hs. unfold SystemPersistOTPSourcePairing.
  apply bind_inv_at; [done|]. intros s1 [] [-> _]%st_reject_Ok _.
  apply bind_inv_at; [by apply SystemGetOTPSource_reads|]. intros s1 source Hsrc _. unfold SystemGetOTPSource in Hsrc. inv_ok.
  match goal with H : sr_source <$> _ = Some _ |- _ => apply fmap_Some in H as (old & Hold & ->) end.
  cbv zeta. apply bind_inv_at; [done|]. intros s1 u [-> _]%lift_Ok _.
  apply bind_inv_at; [done|]. intros s1 row [-> ->]%gets_Ok _. rewrite Hold.
  apply bind_inv_at; [done|]. intros s1 running [-> _]%gets_Ok _. destruct (_ && _); [|done].
  apply bind_inv_at; [done|]. intros s1 unique [-> ->]%gets_Ok _. apply bind_inv_at; [done|]. intros s1 [] [-> _]%st_reject_Ok _.
  destruct Hs as [H1 H2]. split; [|done]. apply map_Forall_insert_2; [by apply (H1 id old)|done].
Qed.
(** The accounts' statements touch neither table. *)
Lemma insert_user_sealed w row : preserves sealed (insert_user w row).
Proof using Type. unfold insert_user. reading. Qed.
Lemma update_user_sealed id w f : preserves sealed (update_user id w f).
Proof using Type. unfold update_user. reading. Qed.
Lemma insert_session_sealed x h : preserves sealed (insert_session x h).
Proof using Type. intros s Hs. unfold insert_session. by repeat case_match. Qed.
#[local] Hint Resolve delete_sources_sealed delete_profiles_sealed insert_user_sealed update_user_sealed insert_session_sealed : preserves.

Lemma authenticate_sealed name password lifetime scope raw csrf slot now :
  preserves sealed (AuthenticateAndCreateSessionInScope name password lifetime scope raw csrf slot now).
Proof using Type.
  unfold AuthenticateAndCreateSessionInScope, authenticatePassword. apply preserves_bind; [reading|].
  intros [[user hash]|]; [|auto with preserves]. intros s Hs. unfold issue_session.
  assert (Hn : preserves sealed (newSessionInScope (UID user) lifetime (Some hash) scope raw csrf now))
    by (unfold newSessionInScope; reading).
  specialize (Hn s Hs). destruct (newSessionInScope _ _ _ _ _ _ _ s) as [s' [c|e]]; [done|].
  by destruct (errors_is e _).
Qed.
Lemma RecordLoginAttempts_sealed keys succeeded clk : preserves sealed (RecordLoginAttempts keys succeeded clk).
Proof using Type.
  unfold RecordLoginAttempts. reading. apply preserves_modify. generalize (imap pair (remove_dups a)). intros l.
  induction l as [|p l IH]; intros s Hs; [done|]. simpl. by apply IH.
Qed.
Lemma lift_known {X Y} (r : result X) (f : X → ST db Y) I : (∀ x, r = Ok x → preserves I (f x)) → preserves I (lift r ≫= f).
Proof using Type. intros Hf s Hs. apply bind_inv_at; [done|]. intros s1 x [-> Hr]%lift_Ok _. by apply Hf. Qed.
Lemma sealed_after {X} (m : ST db X) s : preserves sealed m → sealed s → sealed (m s).1.
Proof using Type. auto. Qed.
Lemma exec_sealed o s : fresh_nonce o → sealed s → sealed (exec o s).
Proof using Hlaw.
  intros Hn Hs. destruct o; cbn [exec fresh_nonce] in *;
    try (refine (framed_sealed _ _ _ Hs); first [ apply SystemClaimNextDueJobAt_framed
               | apply SystemTransitionJob_framed | apply SystemMarkConfirmationStarted_framed
               | apply requestJobCancellation_framed | apply SystemRecoverInterruptedJobs_framed
               | apply SystemExpireStaleJobs_framed | apply SystemPruneTerminalJobs_framed
               | apply RecordJobDecision_framed
               | apply SystemAppendJobEvent_framed
               | intros; apply preserves_atomically, enqueueJobTx_framed ]).
  all: try (apply sealed_after; [|done];
    unfold DeleteOTPSource, SetDefaultOTPSource, DeleteProfile, SaveLakeSettings, upsert_lake_settings, ResetLakeSettings,
      SaveAccountSettings, upsert_account_settings, SystemSaveNetworkSettings, SetupAdmin, HasUsers, CreateMember,
      ChangeUsername, ResetUserPassword, ChangeUserPassword, ResetAdministratorPassword, NewSession,
      newSessionInScope, TouchSession, DeleteSession, PurgeExpiredSessions; reading; done).
  - apply sealed_after; [|done]. unfold EnqueueJob, enqueueJob. reading. apply framed_sealed. intros s0. apply enqueueJobTx_framed.
  - apply sealed_after; [|done]. unfold EnqueueBookingRequest, prepareBookingRequest, bookingProfile, insertBookingRequest. reading. apply framed_sealed. intros s0. apply enqueueJobTx_framed.
  - apply sealed_after; [|done]. unfold RequestJobCancellation. reading. apply framed_sealed, requestJobCancellation_framed.
  - apply sealed_after; [|done]. unfold CreateOTPSource. apply preserves_bind; [auto with preserves|intros _].
    apply preserves_bind; [auto with preserves|intros config]. apply preserves_bind; [auto with preserves|intros _].
    apply lift_known. intros c Hc. destruct (encryptJSON nonce _) as [c'|e] eqn:Henc; simplify_eq.
    reading. apply insert_source_sealed. intros id. by eapply encryptJSON_fits.
  - apply sealed_after; [|done]. unfold UpdateOTPSource. apply preserves_bind; [auto with preserves|intros _].
    apply preserves_bind; [auto with preserves|intros existing]. do 3 (apply preserves_bind; [auto with preserves|intros ?]).
    apply lift_known. intros c Hc. reading. apply update_source_row_sealed. intros x ->.
    destruct (SI_ProviderConfig input); [|done]. destruct (encryptJSON nonce _) as [c'|e] eqn:Henc; simplify_eq. by eapply encryptJSON_fits.
  - apply sealed_after; [|done]. by apply pairing_sealed.
  - apply sealed_after; [|done]. unfold CreateProfile. apply preserves_bind; [auto with preserves|intros _].
    apply preserves_bind; [reading|intros input']. do 2 (apply preserves_bind; [auto with preserves|intros ?]).
    apply lift_known. intros c Hc. reading. apply insert_profile_sealed. intros id. by eapply encrypt_phone_fits.
  - apply sealed_after; [|done]. unfold UpdateProfile. apply preserves_bind; [auto with preserves|intros _]. cbv zeta.
    do 2 (apply preserves_bind; [auto with preserves|intros ?]). apply preserves_bind; [reading|intros ?].
    apply lift_known. intros c Hc. reading. apply update_profile_row_sealed. intros x ->.
    destruct (PI_Credentials input) as [phone|]; [|done]. apply result_bind_Ok in Hc as (c & Hc & [= ->]). by eapply encrypt_phone_fits.
  - apply sealed_after; [|done]. unfold UpdateUser. reading. apply framed_sealed, update_jobs_framed.
  - apply sealed_after; [|done]. unfold DeleteMember. reading.
    + apply framed_sealed. intros s0. apply framed_modify. intros. apply delete_jobs_frame.
    + intros s1 Hs1. unfold delete_bookings_of. cbv zeta. by destruct (exists_row _ _).
    + intros s1 Hs1. unfold delete_user. by repeat case_match.
  - apply sealed_after; [|done]. apply authenticate_sealed.
  - apply sealed_after; [|done]. apply RecordLoginAttempts_sealed.
Qed.

Lemma run_sealed ops s : Forall fresh_nonce ops → sealed s → sealed (run ops s).
Proof using Hlaw.
  intros Hops. revert s. induction Hops as [|o ops Ho _ IH]; intros s Hs; [done|]. apply IH. by apply exec_sealed.
Qed.
Lemma sealed_secrets_fit `{SQLite C} (c : C) s :
  (∀ table column, sql_column c table column = stored_column s table column) → sealed s → secrets_fit c.
Proof using Type.
  intros Hc [Hsources Hprofiles] field values value Hfield Hcol Hvalue. rewrite Hc in Hcol. unfold encryptedFields in Hfield.
  repeat (apply elem_of_cons in Hfield as [->|Hfield]); try (by apply elem_of_nil in Hfield);
    cbn in Hcol; try discriminate Hcol; injection Hcol as <-;
    apply list_elem_of_fmap in Hvalue as ([id r] & -> & Hin); apply elem_of_map_to_list in Hin;
    [by apply (Hsources id r)|by apply (Hprofiles id r)].
Qed.
End sealed.

(** C23: the key that wrote the store opens it: after any calls on an empty store, with
    nonces of the cipher's size, a database of the current version whose encrypted columns
    are those of the store passes the verification, and every start that nothing disturbs
    opens it and leaves all its rows as they are. *)
Theorem own_key_always_opens `{A : AEAD} `{Hashes} `{TimeZoneDB} `{SQLite C} ops (d : database C) :
  aead_round_trip A → Forall fresh_nonce ops → schema 14 d →
  (∀ table column, sql_column (da_content d) table column = stored_column (run ops empty_db) table column) →
  secrets_fit (da_content d)
  ∧ ∀ env path busy, (∀ i, cd_failing env i = None) → blank path = false →
      let '(st, r) := OpenMigrated env path (begin busy d) in
      r = Ok tt ∧ da_content (lc_db st) = da_content d ∧ schema 14 (lc_db st).
Proof.
  intros Hlaw Hops Hschema Hcolumns.
  assert (Hfit : secrets_fit (da_content d)) by (eapply sealed_secrets_fit; [exact Hcolumns|by apply run_sealed]).
  split; [done|]. intros env path busy Hworks Hpath.
  destruct (OpenMigrated_sure env Hworks (da_content d) path 14 (begin busy d) Hpath Hfit (conj Hschema (nothing_left _ _)))
    as (st & -> & Hs & _ & Hc). done.
Qed.

(** ** Witness: an installation with a source and a sign-in *)

(** A library that shows the store's tables. *)
Definition store_sqlite : SQLite db := {|
  sql_empty := empty_db; sql_tables _ := 12; sql_column := stored_column; sql_script _ c := Ok c; sql_violation _ := None |}.
Example setup_stores_secrets :
  stored_column setup_db "profiles" "yodel_phone_ciphertext" = Some [Some (Encrypt "0123456789ab" "6045550199")].
Proof. by vm_compute. Qed.
(** The database of that installation, at the current version. *)
Definition setup_database : database db := MkDatabase true (Some (registry_of 14)) (run setup_ops empty_db).
Lemma own_key_always_opens_witness :
  @secrets_fit db store_sqlite sample_aead_instance (run setup_ops empty_db)
  ∧ let '(st, r) := @OpenMigrated db store_sqlite sample_aead_instance undisturbed "/data/lake.db" (begin false setup_database) in
    r = Ok tt ∧ da_content (lc_db st) = run setup_ops empty_db.
Proof.
  assert (Hlaw : aead_round_trip sample_aead_instance) by (intros nonce plaintext data _; reflexivity).
  assert (Hops : Forall fresh_nonce setup_ops) by (repeat constructor).
  assert (Hcol : ∀ table column, @sql_column db store_sqlite (da_content setup_database) table column
    = stored_column (run setup_ops empty_db) table column) by (intros; cbn [da_content sql_column store_sqlite setup_database]; reflexivity).
  destruct (@own_key_always_opens sample_aead_instance sample_hashes_instance sample_time_zones db store_sqlite setup_ops
    setup_database Hlaw Hops (@registry_of_schema db store_sqlite 14 _ true ltac:(lia)) Hcol) as [Hfit Hopen].
  split; [exact Hfit|]. specialize (Hopen undisturbed "/data/lake.db" false (λ i, eq_refl) eq_refl).
  destruct (OpenMigrated _ _ _) as [st r]. destruct Hopen as (Hr & Hc & _). split; [exact Hr|exact Hc].
Defined.
