(* ===== verification/RunProperties.v ===== *)
(** * What holds in every state of a run

    The safety of the booking service as statements about runs: no date is booked
    twice, a booking that may have been confirmed is never repeated, jobs only take
    legal steps, one worker per sign-in and phone, outcomes agree with confirmations,
    every row stays inside its account and its limits. *)

From S2P Require Import Prelude GoStrings GoTime Json Secrets Redaction Auth Origin Domain Scheduler Database.
From S2P Require Import JobStore Samples JobInvariants EventStore JobOperations JobHistory ResourceStore ProfileStore.
From S2P Require Import SettingsStore AccountStore AccountInvariants ResourceInvariants SystemInvariants.
From S2P Require Import System SystemHistory SystemSamples.
From Stdlib Require Import Ascii String.

Open Scope Z_scope.

(** A book job that is pending, succeeded, unresolved, or began its confirmation: one
    that may still make or already made a booking of the slot. *)
Definition holds_slot (s : db) (k : Z) (slot : Z * string) : Prop :=
  ∃ j, jobs s !! k = Some j ∧ JCommand j = CommandBook ∧ unconfirmed_book j = false ∧ job_slot s j = Some slot.

Lemma holder_reserves s k slot : db_inv s → holds_slot s k slot → reservations s !! slot = Some (Some k).
Proof.
  intros Hs (j & Hk & Hc & Hu & Hsl). destruct (inv_guard _ Hs k j Hk Hc Hu) as (slot' & Hsl' & Hr). congruence.
Qed.

Section runs.
Context `{AEAD} `{Hashes} `{TimeZoneDB}.

(** C1: no double booking.  In every state a run reaches, at most one job per sign-in
    and visit date is pending, succeeded, unresolved or past the start of its final
    confirmation, whatever calls were made in whatever order. *)
Theorem no_double_booking s k1 k2 slot :
  reachable s → holds_slot s k1 slot → holds_slot s k2 slot → k1 = k2.
Proof.
  intros [Hs _]%reachable_inv Hk1 Hk2.
  apply holder_reserves in Hk1, Hk2; [congruence|done..].
Qed.

(** C2: a booking that may have been confirmed is never repeated.  Once a book job has
    succeeded, is unresolved or began its final confirmation, in every later state of
    any run no other job can be pending or confirmed for the same sign-in and date,
    even after retention deleted the job's row, until one of the operations that
    drops the date's reservation runs: retention once the date is past, and deleting
    the sign-in or its owner. *)
Theorem confirmed_booking_never_repeated s k j slot ops k' :
  reachable s → jobs s !! k = Some j → JCommand j = CommandBook → may_have_booked j = true →
  job_slot s j = Some slot → ¬ run_lost ops s slot →
  holds_slot (run ops s) k' slot → k' = k.
Proof.
  intros Hs%reachable_inv Hk Hc Hb Hsl Hlost Hh.
  assert (Hg : guarded k s slot).
  { exists (Some k). split; [|by eauto]. apply holder_reserves; [apply Hs|].
    exists j. eauto using may_have_booked_kept. }
  apply (ev_guard _ _ _ _ (run_evolves ops s Hs)) in Hg as (o & Hr & Ho); [|done].
  apply holder_reserves in Hh; [|by apply run_system_inv]. destruct o as [k0|]; [|congruence].
  destruct Ho as [-> _]. congruence.
Qed.

(** C25: jobs only take legal steps.  Over any run, a job that is not deleted keeps its
    id, owner, booking, sign-in, source, command and mode; once it is over its status
    never changes; a confirmation instant, once written, a cancellation request and a
    recorded decision stay; an id is never given to another job; and an unresolved outcome is never
    deleted unless its whole account is. *)
Theorem job_history_is_legal s ops k j :
  reachable s → jobs s !! k = Some j →
  match jobs (run ops s) !! k with
  | None => JStatus j = JobOutcomeUnknown → run_forgets ops (JUserID j)
  | Some j' =>
      JID j' = JID j ∧ JUserID j' = JUserID j ∧ JBookingRequestID j' = JBookingRequestID j ∧
      JProfileID j' = JProfileID j ∧ JOTPSourceID j' = JOTPSourceID j ∧ JCommand j' = JCommand j ∧
      JRunMode j' = JRunMode j ∧ JExpiresAt j' = JExpiresAt j ∧
      (Terminal (JStatus j) = true → JStatus j' = JStatus j) ∧
      (∀ t, JConfirmationStartedAt j = Some t → JConfirmationStartedAt j' = Some t) ∧
      (JCancelRequested j = true → JCancelRequested j' = true) ∧
      (∀ d, decisions s !! k = Some d → decisions (run ops s) !! k = Some d)
  end.
Proof.
  intros Hs%reachable_inv Hk. pose proof (run_evolves ops s Hs) as He.
  pose proof (ev_unknown _ _ _ _ He k j Hk) as Hunk.
  destruct (ev_job _ _ _ _ He k j Hk) as [Hn|(j' & Hk' & Hstep)].
  - rewrite Hn in *. intros Hst. destruct (decide (run_forgets ops (JUserID j))) as [|Hf]; [done|].
    by specialize (Hunk Hst Hf).
  - rewrite Hk'. destruct Hstep. split_and!; try done.
    + intros Ht. destruct rs_status as [|[Hp _]]; [done|]. by destruct (JStatus j).
    + intros d Hd. destruct (run_keeps_decision ops s k d Hs Hd) as [Hn|?]; [congruence|done].
Qed.

(** C26: one worker per lane.  In every reachable state two different jobs that are
    running or awaiting approval share neither the sign-in nor the phone that receives
    its codes, so concurrent browsers never mix their codes. *)
Theorem active_lanes_are_exclusive s k1 k2 j1 j2 :
  reachable s → jobs s !! k1 = Some j1 → jobs s !! k2 = Some j2 → k1 ≠ k2 →
  is_active (JStatus j1) = true → is_active (JStatus j2) = true →
  JProfileID j1 ≠ JProfileID j2 ∧ JOTPSourceID j1 ≠ JOTPSourceID j2.
Proof.
  intros [Hs _]%reachable_inv Hk1 Hk2 Hne Ha1 Ha2. pose proof (inv_unique _ Hs _ _ _ _ Hk1 Hk2 Hne) as Hcomp.
  unfold compatible, clash_profile, clash_source in Hcomp. rewrite Ha1, Ha2 in Hcomp. cbn [andb] in Hcomp.
  by bool_to_prop.
Qed.

(** Outcomes agree with confirmations.  In every reachable state an unresolved job
    began its final confirmation, a job that is over after its confirmation began
    either succeeded or is unresolved, and a queued, failed, cancelled or interrupted
    job never began it. *)
Theorem outcome_agrees_with_confirmation s k j :
  reachable s → jobs s !! k = Some j →
  (JStatus j = JobOutcomeUnknown → is_some (JConfirmationStartedAt j) = true) ∧
  (is_some (JConfirmationStartedAt j) = true →
    JStatus j ∈ [JobRunning; JobAwaitingApproval; JobSucceeded; JobOutcomeUnknown]).
Proof.
  intros [Hs _]%reachable_inv Hk. destruct (inv_checks _ Hs k j Hk) as [Hc Ho].
  unfold outcome_ok in Ho. unfold job_checks in Hc. bool_to_prop.
  destruct (JStatus j); try done; split; try done; intros Hco; try (by rewrite Hco in Ho); set_solver.
Qed.

(** Every account stays within its limits: 8 pending and 200 retained jobs, 256
    events per job, 16 sign-ins, 24 phones and 8 sessions. *)
Theorem account_limits s uid id :
  reachable s →
  pending_count uid s <= 8 ∧ retained_count uid s <= 200 ∧
  (count_map (λ e, Z.eqb (EJobID e) id) (events s) ≤ 256)%nat ∧
  (count_map (λ r, Z.eqb (PUserID (pr_profile r)) uid) (profiles s) ≤ 16)%nat ∧
  (count_map (λ r, Z.eqb (OSUserID (sr_source r)) uid) (sources s) ≤ 24)%nat ∧
  (count_map (λ x, Z.eqb (SUserID x) uid) (sessions s) ≤ 8)%nat.
Proof.
  intros [Hs [_ Hss Ho Hp _]]%reachable_inv. split_and!.
  - apply (inv_pending _ Hs).
  - apply (inv_retained _ Hs).
  - apply (inv_event_limit _ Hs).
  - pose proof (pi_limit _ _ _ _ Hp uid). unfold MaxProfilesPerUser in *. lia.
  - pose proof (oi_limit _ _ _ _ Ho uid). unfold MaxOTPSourcesPerUser in *. lia.
  - apply (si_limit _ _ _ Hss).
Qed.

(** C35: accounts are isolated.  In every reachable state a job's account exists and
    owns the sign-in, the phone and the booking request the job uses; the events and
    the approval decision of a job belong to its account; a booking request, a lake's
    default sign-in and a default phone belong to the account that refers to them. *)
Theorem references_stay_in_the_account s :
  reachable s →
  (∀ k j, jobs s !! k = Some j →
    has_user (users s) (JUserID j) ∧
    owned_in profile_owner (profiles s) (JProfileID j) (JUserID j) ∧
    owned_in source_owner (sources s) (JOTPSourceID j) (JUserID j) ∧
    ∀ bid, JBookingRequestID j = Some bid → owned_in BUserID (bookings s) bid (JUserID j)) ∧
  (∀ k e, events s !! k = Some e → owned_in JUserID (jobs s) (EJobID e) (EUserID e)) ∧
  (∀ k d, decisions s !! k = Some d → owned_in JUserID (jobs s) (DJobID d) (DUserID d)) ∧
  (∀ k b, bookings s !! k = Some b → owned_in profile_owner (profiles s) (BProfileID b) (BUserID b)) ∧
  (∀ k row, lake_settings s !! k = Some row → LSBookingProfileID row ≠ 0 →
    owned_in profile_owner (profiles s) (LSBookingProfileID row) (LSUserID row)) ∧
  (∀ uid id, otp_preferences s !! uid = Some id → owned_in source_owner (sources s) id uid).
Proof.
  intros [Hs [_ _ Ho _ Hl]]%reachable_inv. split_and!.
  - intros k j Hk. pose proof (inv_fk _ Hs k j Hk) as Hfk. unfold job_foreign_keys in Hfk. bool_to_prop.
    split_and!; [done|..].
    + destruct (profiles s !! JProfileID j) as [r|] eqn:Hr; [|done]. bool_to_prop. by exists r.
    + destruct (sources s !! JOTPSourceID j) as [r|] eqn:Hr; [|done]. bool_to_prop. by exists r.
    + intros bid Hb. rewrite Hb in *. destruct (bookings s !! bid) as [b|] eqn:Hr; [|done].
      bool_to_prop. by exists b.
  - intros k e Hk. destruct (inv_event _ Hs k e Hk) as (_ & j & ? & ?). by exists j.
  - intros k d Hk. destruct (inv_decision _ Hs k d Hk) as (-> & j & ? & ?). by exists j.
  - intros k b Hk. by apply (li_booking _ _ _ _ Hl k b).
  - intros k row Hk Hne. by destruct (li_lake _ _ _ _ Hl k row Hk) as (_ & _ & [?|?]).
  - apply Ho.
Qed.

(** Accounts are well formed in every reachable state: two accounts never share a
    name up to case, at most one is the administrator, the administrator is active,
    and a session always belongs to an account that exists and is active. *)
Theorem accounts_are_well_formed s :
  reachable s →
  (∀ k1 k2 r1 r2, users s !! k1 = Some r1 → users s !! k2 = Some r2 → ur_normalized r1 = ur_normalized r2 → k1 = k2) ∧
  (∀ k1 k2 r1 r2, users s !! k1 = Some r1 → users s !! k2 = Some r2 →
    URole (ur_user r1) = RoleAdmin → URole (ur_user r2) = RoleAdmin → k1 = k2) ∧
  (∀ k r, users s !! k = Some r → URole (ur_user r) = RoleAdmin → UStatus (ur_user r) = UserActive) ∧
  (∀ token x, sessions s !! token = Some x → user_active (SUserID x) s = true).
Proof.
  intros [_ [Hu Hss _ _ _]]%reachable_inv. split_and!.
  - intros k1 k2 r1 r2 Hk1 Hk2 Hn. destruct (decide (k1 = k2)) as [|Hne]; [done|].
    pose proof (ui_unique _ _ Hu _ _ _ _ Hk1 Hk2 Hne) as Hc. unfold user_clash in Hc.
    by rewrite Hn, String.eqb_refl in Hc.
  - intros k1 k2 r1 r2 Hk1 Hk2 Ha1 Ha2. destruct (decide (k1 = k2)) as [|Hne]; [done|].
    pose proof (ui_unique _ _ Hu _ _ _ _ Hk1 Hk2 Hne) as Hc. unfold user_clash in Hc.
    rewrite Ha1, Ha2, (bool_decide_true (RoleAdmin = RoleAdmin)) in Hc by done. simpl in Hc.
    by rewrite orb_true_r in Hc.
  - intros k r Hk. by apply (ui_admin _ _ Hu k).
  - intros token x Hk. destruct (si_active _ _ _ Hss token x Hk) as [_ Ha].
    destruct Ha as (r & Hr & Hact); [done|]. unfold user_active. by rewrite Hr.
Qed.
End runs.

(** ** Concrete runs *)

(** [holds_slot] as a test, to evaluate it. *)
Definition holds_slotb (s : db) (k : Z) (slot : Z * string) : bool :=
  match jobs s !! k with
  | Some j => bool_decide (JCommand j = CommandBook) && negb (unconfirmed_book j)
              && bool_decide (job_slot s j = Some slot)
  | None => false
  end.
Lemma holds_slotb_spec s k slot : holds_slotb s k slot = true → holds_slot s k slot.
Proof.
  unfold holds_slotb. destruct (jobs s !! k) as [j|] eqn:Hj; [|done]. intros Hh. bool_to_prop. by exists j.
Qed.
Definition sample_slot : Z * string := (1, "2026-01-10"%string).

Lemma no_double_booking_witness :
  holds_slot booked_db 1 sample_slot ∧ ∀ k, holds_slot booked_db k sample_slot → k = 1.
Proof.
  assert (Hone : holds_slot booked_db 1 sample_slot) by (apply holds_slotb_spec; vm_compute; reflexivity).
  split; [exact Hone|]. intros k Hk.
  exact (no_double_booking booked_db k 1 sample_slot (reachable_run booked_ops) Hk Hone).
Defined.

(** After the confirmation the worker disappears, the control plane restarts, history
    is pruned and the owner books the same date again. *)
Definition later_ops : list op :=
  [ OpSystemRecoverInterruptedJobs (t0 + Hour); OpSystemPruneTerminalJobs (t0 + Hour);
    sample_enqueue_op 1 "2026-01-10" ].

Lemma confirmed_booking_never_repeated_witness :
  holds_slot (run later_ops confirmed_db) 1 sample_slot ∧
  ∀ k, holds_slot (run later_ops confirmed_db) k sample_slot → k = 1.
Proof.
  split; [apply holds_slotb_spec; vm_compute; reflexivity|]. intros k Hk.
  at_job confirmed_db 1 (λ j : Job, bool_decide (JCommand j = CommandBook) && may_have_booked j
              && bool_decide (job_slot confirmed_db j = Some sample_slot)) j Hj Hp. apply andb_true_iff in Hp as [Hp Hsl]. apply andb_true_iff in Hp as [Hc Hb].
  refine (confirmed_booking_never_repeated confirmed_db 1 j sample_slot later_ops k
    (reachable_run confirmed_ops) Hj (bool_decide_eq_true_1 _ Hc) Hb (bool_decide_eq_true_1 _ Hsl) _ Hk).
  intros [[]|[Hl|[[]|[]]]]. vm_compute in Hl. discriminate Hl.
Defined.

Lemma job_history_is_legal_witness :
  ∃ j j', jobs confirmed_db !! 1 = Some j ∧ jobs (run later_ops confirmed_db) !! 1 = Some j' ∧
    JConfirmationStartedAt j' = JConfirmationStartedAt j.
Proof.
  at_job confirmed_db 1 (λ j : Job, bool_decide (JConfirmationStartedAt j = Some t0)) j Hj Hp. apply bool_decide_eq_true_1 in Hp.
  at_job (run later_ops confirmed_db) 1 (λ _ : Job, true) j' Hj' Htrue.
  pose proof (job_history_is_legal confirmed_db later_ops 1 j (reachable_run confirmed_ops) Hj) as Hl.
  rewrite Hj' in Hl. destruct Hl as (_ & _ & _ & _ & _ & _ & _ & _ & _ & Hconf & _).
  exists j, j'. split; [exact Hj|]. split; [exact Hj'|]. rewrite Hp. by apply Hconf.
Defined.

(** A run in which two members' jobs are active at once. *)
Definition second_member_ops : list op :=
  (confirmed_ops ++
   [ OpCreateMember (MkCreateUser "member" "another long password" false) "fedcba9876543210" true t0;
     OpCreateOTPSource 2 (MkSourceInput "mine" OTPProviderTwilio "+16045550111"
       (Some (JObject [("auth_token", JString "other")])) true "" "" "") "0123456789ab" t0;
     OpCreateProfile 2 sample_profile_input "0123456789ab" t0;
     OpEnqueueJob 2 (MkEnqueue None 2 0 true CommandAuthCheck RunModeManual false t0 None "") sample_clock;
     OpSystemClaimNextDueJobAt "worker" t0 ])%list.
Definition two_members_db : db := run second_member_ops empty_db.

Lemma active_lanes_are_exclusive_witness :
  ∃ j1 j2, jobs two_members_db !! 1 = Some j1 ∧ jobs two_members_db !! 2 = Some j2 ∧
    JProfileID j1 ≠ JProfileID j2.
Proof.
  at_job two_members_db 1 (λ j : Job, is_active (JStatus j)) j1 Hj1 Ha1.
  at_job two_members_db 2 (λ j : Job, is_active (JStatus j)) j2 Hj2 Ha2.
  exists j1, j2. split; [exact Hj1|]. split; [exact Hj2|].
  apply (active_lanes_are_exclusive two_members_db 1 2 j1 j2 (reachable_run second_member_ops) Hj1 Hj2 ltac:(done) Ha1 Ha2).
Defined.

Definition recovered_db : db := run (confirmed_ops ++ [OpSystemRecoverInterruptedJobs (t0 + Hour)]) empty_db.
Lemma outcome_agrees_with_confirmation_witness :
  ∃ j, jobs recovered_db !! 1 = Some j ∧ is_some (JConfirmationStartedAt j) = true.
Proof.
  at_job recovered_db 1 (λ j : Job, bool_decide (JStatus j = JobOutcomeUnknown)) j Hj Hst. apply bool_decide_eq_true_1 in Hst.
  exists j. split; [exact Hj|].
  apply (outcome_agrees_with_confirmation recovered_db 1 j
    (reachable_run (confirmed_ops ++ [OpSystemRecoverInterruptedJobs (t0 + Hour)])) Hj), Hst.
Defined.

Lemma account_limits_witness :
  pending_count 1 two_members_db = 1 ∧ retained_count 1 two_members_db <= 200.
Proof.
  split; [vm_compute; reflexivity|].
  apply (account_limits two_members_db 1 1 (reachable_run second_member_ops)).
Defined.

Lemma references_stay_in_the_account_witness :
  ∃ j, jobs two_members_db !! 2 = Some j ∧ owned_in profile_owner (profiles two_members_db) (JProfileID j) (JUserID j).
Proof.
  at_job two_members_db 2 (λ _ : Job, true) j Hj Htrue.
  exists j. split; [exact Hj|].
  destruct (references_stay_in_the_account two_members_db (reachable_run second_member_ops)) as (Hjobs & _).
  apply (Hjobs 2 j Hj).
Defined.

Lemma accounts_are_well_formed_witness :
  ∃ r1 r2, users two_members_db !! 1 = Some r1 ∧ users two_members_db !! 2 = Some r2 ∧
    ur_normalized r1 ≠ ur_normalized r2.
Proof.
  destruct (users two_members_db !! 1) as [r1|] eqn:Hr1; [|vm_compute in Hr1; discriminate].
  destruct (users two_members_db !! 2) as [r2|] eqn:Hr2; [|vm_compute in Hr2; discriminate].
  exists r1, r2. split; [done|]. split; [done|]. intros Heq.
  destruct (accounts_are_well_formed two_members_db (reachable_run second_member_ops)) as (Hn & _).
  specialize (Hn 1 2 r1 r2 Hr1 Hr2 Heq). discriminate Hn.
Defined.
