(* ===== verification/JobProperties.v ===== *)
(** * What the operations on jobs do

    Claiming, transitions, cancellation, recovery, decisions and admission, on every
    branch that matters for a booking. *)

From S2P Require Import Prelude GoStrings GoTime Json Secrets Redaction Auth Origin Domain Scheduler Database JobStore Samples JobInvariants.
From S2P Require Import EventStore JobOperations JobHistory JobLemmas ResourceStore ProfileStore SettingsStore AccountStore AccountInvariants ResourceInvariants SystemInvariants System SystemHistory SystemSamples.
From Stdlib Require Import Ascii String.

Open Scope Z_scope.

Lemma map_err_inv_Ok {A} f (m : ST db A) s s' a : map_err f m s = (s', Ok a) → m s = (s', Ok a).
Proof. unfold map_err. by destruct (m s) as [? [?|?]]. Qed.

(** ** Claiming *)

(** A claimable job can always be claimed: no unique index stands in its way. *)
Lemma claimable_unique worker now s k c :
  db_inv s → jobs s !! k = Some c → claimable now s c = true → unique_ok (claim_row worker now c) s = true.
Proof.
  intros Hs Hk Hc. apply unique_ok_spec. simpl. intros k' o Hk' Hne.
  destruct (inv_job_key _ Hs k c Hk) as [Hid _].
  assert (Hcomp : compatible c o = true) by (eapply (inv_unique _ Hs); [exact Hk|exact Hk'|congruence]).
  unfold claimable in Hc. bool_to_prop.
  match goal with H : lane_busy c s = false |- _ => rename H into Hlane end.
  unfold lane_busy in Hlane. rewrite exists_row_false in Hlane. specialize (Hlane k' o Hk'). simpl in Hlane.
  match goal with H : JStatus c = JobQueued |- _ => rename H into Hq end.
  unfold compatible in *. rewrite negb_true_iff, !orb_false_iff in Hcomp |- *.
  destruct Hcomp as [[[[Hd Hr] _] _] Hp].
  split_and!; [done|by unfold clash_run in *; rewrite Hq in Hr| | |].
  - unfold clash_profile. simpl. rewrite (Z.eqb_sym (JProfileID c)).
    destruct (is_active (JStatus o)); [|done]. simpl in Hlane. by apply orb_false_iff in Hlane as [-> _].
  - unfold clash_source. simpl. rewrite (Z.eqb_sym (JOTPSourceID c)).
    destruct (is_active (JStatus o)); [|done]. simpl in Hlane. by apply orb_false_iff in Hlane as [_ ->].
  - unfold clash_pairing, pairing_pending in *. by rewrite Hq in Hp.
Qed.

(** A job that may be claimed, read without the code. *)
Definition may_be_claimed (now : Time) (s : db) (c : Job) : Prop :=
  JStatus c = JobQueued ∧ JCancelRequested c = false ∧ JDueAt c <= now ∧ (∀ e, JExpiresAt c = Some e → now < e)
  ∧ user_active (JUserID c) s = true
  ∧ (∃ p, profiles s !! JProfileID c = Some p ∧ PUserID (pr_profile p) = JUserID c ∧ PEnabled (pr_profile p) = true)
  ∧ (∃ o, sources s !! JOTPSourceID c = Some o ∧ OSUserID (sr_source o) = JUserID c)
  ∧ (JCommand c = CommandBook → ∃ date, reservations s !! (JProfileID c, date) = Some (Some (JID c)))
  ∧ (∀ bid, JBookingRequestID c = Some bid →
       ∃ b, bookings s !! bid = Some b ∧ BEnabled b = true ∧ BProfileID b = JProfileID c)
  ∧ (∀ k a, jobs s !! k = Some a → is_active (JStatus a) = true →
       JProfileID a ≠ JProfileID c ∧ JOTPSourceID a ≠ JOTPSourceID c).

Lemma holds_reservation_spec c s :
  holds_reservation c s = true ↔ ∃ date, reservations s !! (JProfileID c, date) = Some (Some (JID c)).
Proof.
  unfold holds_reservation. rewrite existsb_exists. split.
  - intros ([[p d] o] & Hin & Hb). bool_to_prop. simpl in *. subst. exists d.
    apply elem_of_map_to_list. by apply list_elem_of_In.
  - intros [d Hd]. exists ((JProfileID c, d), Some (JID c)). split.
    + apply list_elem_of_In. by apply elem_of_map_to_list.
    + simpl. by rewrite bool_decide_true, Z.eqb_refl.
Qed.
Lemma lane_busy_spec c s :
  lane_busy c s = false ↔ ∀ k a, jobs s !! k = Some a → is_active (JStatus a) = true →
    JProfileID a ≠ JProfileID c ∧ JOTPSourceID a ≠ JOTPSourceID c.
Proof.
  unfold lane_busy. rewrite exists_row_false. split; intros Hall k a Hk.
  - intros Ha. specialize (Hall k a Hk). simpl in Hall. rewrite Ha in Hall. simpl in Hall. by bool_to_prop.
  - specialize (Hall k a Hk). destruct (is_active (JStatus a)); [|done]. simpl.
    destruct (Hall eq_refl). apply orb_false_iff. by rewrite !Z.eqb_neq.
Qed.
Lemma claimable_spec now s c : claimable now s c = true ↔ may_be_claimed now s c.
Proof.
  unfold claimable, may_be_claimed. rewrite !andb_true_iff, !negb_true_iff, lane_busy_spec, bool_decide_eq_true, Z.leb_le.
  rewrite orb_true_iff, negb_true_iff, bool_decide_eq_false, holds_reservation_spec.
  assert (match JExpiresAt c with Some e => now <? e | None => true end = true ↔ ∀ e, JExpiresAt c = Some e → now < e) as ->.
  { destruct (JExpiresAt c) as [e|]; [rewrite Z.ltb_lt|]; naive_solver. }
  assert (match profiles s !! JProfileID c with
          | Some p => (PUserID (pr_profile p) =? JUserID c) && PEnabled (pr_profile p) | None => false end = true
     ↔ ∃ p, profiles s !! JProfileID c = Some p ∧ PUserID (pr_profile p) = JUserID c ∧ PEnabled (pr_profile p) = true) as ->.
  { destruct (profiles s !! JProfileID c); [rewrite andb_true_iff, Z.eqb_eq|]; naive_solver. }
  assert (match sources s !! JOTPSourceID c with Some o => OSUserID (sr_source o) =? JUserID c | None => false end = true
     ↔ ∃ o, sources s !! JOTPSourceID c = Some o ∧ OSUserID (sr_source o) = JUserID c) as ->.
  { destruct (sources s !! JOTPSourceID c); [rewrite Z.eqb_eq|]; naive_solver. }
  assert (match JBookingRequestID c with
          | None => true
          | Some bid => match bookings s !! bid with Some b => BEnabled b && (BProfileID b =? JProfileID c) | None => false end
          end = true
     ↔ ∀ bid, JBookingRequestID c = Some bid → ∃ b, bookings s !! bid = Some b ∧ BEnabled b = true ∧ BProfileID b = JProfileID c) as ->.
  { destruct (JBookingRequestID c) as [bid|]; [|naive_solver].
    destruct (bookings s !! bid) eqn:Hb; [rewrite andb_true_iff, Z.eqb_eq|]; naive_solver. }
  destruct (decide (JCommand c = CommandBook)); tauto.
Qed.

(** C16: claiming takes the right job.  For a named worker it first fails the queued jobs
    whose window has ended; then it either reports that nothing can be claimed, and no
    job is claimable, or it starts exactly the claimable job that is due first (ties by
    id): due, unexpired, not cancelled, of an active account with an enabled sign-in,
    holding its reservation if it books, and with its sign-in and phone idle.  It never
    fails in any other way. *)
Theorem claim_takes_first_due s worker now :
  db_inv s → String.eqb (trim_space worker) "" = false →
  ∃ s1 n, SystemExpireStaleJobs now s = (s1, Ok n) ∧
    match SystemClaimNextDueJobAt worker now s with
    | (s', Ok j) => ∃ c, jobs s1 !! JID c = Some c ∧ may_be_claimed now s1 c ∧
        (∀ k c', jobs s1 !! k = Some c' → may_be_claimed now s1 c' → due_first c c' = true) ∧
        j = claim_row (trim_space worker) now c ∧ jobs s' !! JID c = Some j
    | (s', Err e) => e = Sentinel ErrNotFound ∧ s' = s1 ∧
        ∀ k c, jobs s1 !! k = Some c → ¬ may_be_claimed now s1 c
    end.
Proof.
  intros Hs Hw. destruct (update_jobs_ends _ _ true s (expire_ends now) Hs) as (s1 & n & Hexp & _).
  assert (Hstale : SystemExpireStaleJobs now s = (s1, Ok n)) by (unfold SystemExpireStaleJobs, map_err; by rewrite Hexp).
  exists s1, n. split; [done|].
  assert (Hs1 : db_inv s1) by (pose proof (SystemExpireStaleJobs_stable now s Hs) as H'; by rewrite Hstale in H').
  unfold SystemClaimNextDueJobAt. rewrite ST_bind_unfold. unfold st_reject at 1, lift at 1. rewrite Hw. cbn [reject].
  rewrite ST_bind_unfold, Hstale, ST_bind_unfold. cbn [gets].
  destruct (next_candidate now s1) as [c|] eqn:Hc.
  2: { cbn. split_and!; [done..|]. intros k c Hk. rewrite <- claimable_spec.
       by rewrite (next_candidate_None now s1 Hc k c Hk). }
  apply next_candidate_Some in Hc as (k & Hk & Hcl & Hleast).
  destruct (inv_job_key _ Hs1 k c Hk) as [Hid _].
  rewrite ST_bind_unfold. unfold map_err, update_job. rewrite ST_bind_unfold. cbn [gets]. rewrite Hid, Hk.
  assert (Hq : bool_decide (JStatus c = JobQueued) = true).
  { unfold claimable in Hcl. bool_to_prop. by apply bool_decide_eq_true. }
  rewrite Hq, ST_bind_unfold.
  pose proof (claimable_unique (trim_space worker) now s1 k c Hs1 Hk Hcl) as Huniq.
  set (new := claim_row (trim_space worker) now c) in *.
  assert (Hput : put_job true new s1 = (after_status_update new (set_jobs (<[JID new := new]>) s1), Ok tt))
    by (unfold put_job; by rewrite Huniq).
  rewrite Hput. cbn [scan_job of_option lift mret ST_ret].
  exists c. rewrite Hid. split_and!; try done; [by apply claimable_spec|intros ? ? ? ?%claimable_spec; eauto|].
  apply put_job_Ok in Hput. rewrite <- Hid. exact Hput.
Qed.

(** ** Recovery and expiry *)

(** Recovery after a restart always succeeds and leaves no job active: a job that
    was running or awaiting approval is unresolved if its confirmation had begun and
    interrupted if not, its worker is gone, and no other job changes. *)
Theorem recovery_leaves_no_active_job s now :
  db_inv s →
  ∃ s' n, SystemRecoverInterruptedJobs now s = (s', Ok n) ∧
    (∀ k j, jobs s' !! k = Some j → is_active (JStatus j) = false) ∧
    (∀ k j', jobs s' !! k = Some j' → ∃ j, jobs s !! k = Some j ∧
      if is_active (JStatus j)
      then JStatus j' = (if is_some (JConfirmationStartedAt j) then JobOutcomeUnknown else JobInterrupted) ∧
           JWorkerOwner j' = "" ∧ JFinishedAt j' = Some now
      else j' = j).
Proof.
  intros Hs. destruct (update_jobs_ends _ _ true s (recover_ends now) Hs) as (s' & n & Hrec & Hrows).
  exists s', n. split; [unfold SystemRecoverInterruptedJobs, map_err; by rewrite Hrec|]. split.
  - intros k j' Hk. destruct (Hrows k j' Hk) as (j & Hj & ->).
    destruct (is_active (JStatus j)) eqn:Ha; [|done]. simpl. by destruct (is_some _).
  - intros k j' Hk. destruct (Hrows k j' Hk) as (j & Hj & ->). exists j. split; [done|].
    destruct (is_active (JStatus j)); [|done]. done.
Qed.

(** Expiry always succeeds, and afterwards no queued job has a window that ended:
    each of them is failed, every other job is as it was. *)
Theorem expiry_fails_ended_windows s now :
  db_inv s →
  ∃ s' n, SystemExpireStaleJobs now s = (s', Ok n) ∧
    (∀ k j e, jobs s' !! k = Some j → JStatus j = JobQueued → JExpiresAt j = Some e → now < e) ∧
    (∀ k j', jobs s' !! k = Some j' → ∃ j, jobs s !! k = Some j ∧
      (j' = j ∨ JStatus j = JobQueued ∧ JStatus j' = JobFailed ∧ ∃ e, JExpiresAt j = Some e ∧ e <= now)).
Proof.
  intros Hs. destruct (update_jobs_ends _ _ true s (expire_ends now) Hs) as (s' & n & Hexp & Hrows).
  exists s', n. split; [unfold SystemExpireStaleJobs, map_err; by rewrite Hexp|]. split.
  - intros k j' e Hk Hq He. destruct (Hrows k j' Hk) as (j & Hj & ->).
    destruct (stale now j) eqn:Hst; [done|]. unfold stale in Hst. rewrite Hq, He in Hst.
    rewrite bool_decide_true in Hst by done. simpl in Hst. bool_to_prop. lia.
  - intros k j' Hk. destruct (Hrows k j' Hk) as (j & Hj & ->). exists j. split; [done|].
    destruct (stale now j) eqn:Hst; [|by left]. right. unfold stale in Hst. bool_to_prop.
    destruct (JExpiresAt j) as [e|] eqn:He; [|done]. bool_to_prop. split_and!; eauto.
Qed.

(** ** Transitions *)

Lemma transition_row_spec to upd message now active j :
  let new := transition_row to upd message now active j in
  let started := is_some (JConfirmationStartedAt j) || JT_ConfirmationStarted upd in
  let revoked := JCancelRequested j || negb active in
  JID new = JID j ∧
  if Terminal to then
    JStatus new = (if started then (if bool_decide (to = JobSucceeded) then to else JobOutcomeUnknown)
                   else if revoked then JobCancelled else to) ∧
    JFinishedAt new = Some now ∧ JWorkerOwner new = ""
  else JStatus new = to.
Proof.
  intros new started revoked. subst new started revoked. unfold transition_row. cbv zeta.
  split; [by repeat case_match|]. destruct (Terminal to) eqn:Ht.
  - unfold resolve.
    destruct (is_some (JConfirmationStartedAt j)), (JT_ConfirmationStarted upd), (bool_decide (to = JobSucceeded)),
      (JCancelRequested j || negb active), (bool_decide (to = JobRunning)); done.
  - destruct (JT_ConfirmationStarted upd), (bool_decide (to = JobRunning)); done.
Qed.

Lemma transition_outcome s s' san id expected to upd now j' :
  db_inv s → SystemTransitionJob san id expected to upd now s = (s', Ok j') →
  ∃ j, jobs s !! id = Some j ∧ JStatus j ∈ expected ∧ CanTransition (JStatus j) to = true ∧
    jobs s' !! id = Some j' ∧
    let started := is_some (JConfirmationStartedAt j) || JT_ConfirmationStarted upd in
    let revoked := JCancelRequested j || negb (user_active (JUserID j) s) in
    if Terminal to then
      JStatus j' = (if started then (if bool_decide (to = JobSucceeded) then to else JobOutcomeUnknown)
                    else if revoked then JobCancelled else to) ∧
      JFinishedAt j' = Some now ∧ JWorkerOwner j' = ""
    else JStatus j' = to ∧ revoked = false.
Proof.
  intros Hs Hrun. unfold SystemTransitionJob, SystemGetJob in Hrun. inv_ok.
  match goal with H : scan_job (jobs s !! id) = Ok _ |- _ => apply of_option_Ok in H; rename H into Hcur end.
  match goal with H : map_err _ _ _ = (_, Ok ?o) |- _ => apply map_err_inv_Ok in H;
    apply update_job_Ok in H; [rename H into Hupd|intros; apply transition_row_spec|done] end.
  match type of Hupd with match ?o with _ => _ end => destruct o as [new|]; [|inv_ok] end. inv_ok.
  match goal with H : scan_job _ = Ok _ |- _ => apply of_option_Ok in H end.
  match goal with H : jobs s !! id = Some ?x |- _ => exists x; rename x into j end.
  match goal with H : transition_where _ _ _ _ = true |- _ => unfold transition_where in H;
    apply andb_true_iff in H as [Hin Hrev] end.
  bool_to_prop. split_and!; try done.
  - match goal with H : forallb _ _ = true |- _ => rewrite forallb_forall in H;
      apply list_elem_of_In in Hin; by specialize (H _ Hin); bool_to_prop end.
  - match goal with H : jobs ?s' !! id = Some (transition_row ?a ?b ?c ?d ?e ?f), H' : jobs ?s' !! id = Some j' |- _ =>
      rewrite H in H'; injection H' as <-; pose proof (transition_row_spec a b c d e f) as [_ Hspec] end.
    cbv zeta in *. destruct (Terminal to) eqn:Ht; [exact Hspec|]. split; [exact Hspec|].
    assert (Hto : bool_decide (to = JobRunning) || bool_decide (to = JobAwaitingApproval) = true).
    { match goal with H : forallb _ _ = true |- _ => rewrite forallb_forall in H;
        apply list_elem_of_In in Hin; specialize (H _ Hin) end. bool_to_prop. by destruct to, (JStatus j). }
    rewrite Hto in Hrev. simpl in Hrev. destruct (JCancelRequested j); [done|].
    simpl in *. by rewrite Hrev.
Qed.

(** What a transition writes.  A transition that succeeds left an expected state by
    a legal edge and the stored row is the one it returns.  A terminal transition is
    resolved in the same write: once confirmation began or begins with it, anything but
    success is recorded as unresolved; before that, a cancellation request or a disabled
    account turns it into a cancellation; otherwise it is what the caller asked.  A
    running or awaiting state is only entered without a cancellation request and by an
    active account. *)
Theorem transition_resolves_the_outcome s s' san id expected to upd now j' :
  db_inv s → SystemTransitionJob san id expected to upd now s = (s', Ok j') →
  ∃ j, jobs s !! id = Some j ∧ JStatus j ∈ expected ∧ CanTransition (JStatus j) to = true ∧
    jobs s' !! id = Some j' ∧
    let started := is_some (JConfirmationStartedAt j) || JT_ConfirmationStarted upd in
    let revoked := JCancelRequested j || negb (user_active (JUserID j) s) in
    if Terminal to then
      JStatus j' = (if started then (if bool_decide (to = JobSucceeded) then to else JobOutcomeUnknown)
                    else if revoked then JobCancelled else to) ∧
      JFinishedAt j' = Some now ∧ JWorkerOwner j' = ""
    else JStatus j' = to ∧ revoked = false.
Proof. apply transition_outcome. Qed.

(** ** Cancellation against confirmation *)

Section runs.
Context `{AEAD} `{Hashes} `{TimeZoneDB}.

Lemma cancel_row_id message now j : JID (cancel_row message now j) = JID j.
Proof. done. Qed.

(** C5: an accepted cancellation excludes the final confirmation.  After a cancellation
    request was accepted, no later state of any run lets a worker begin the final
    confirmation of the job: marking it is refused and writes nothing.  A job that was
    still queued is cancelled for good. *)
Theorem accepted_cancellation_excludes_confirmation s s' uid id now ops now' :
  reachable s → requestJobCancellation uid id now s = (s', Ok tt) →
  (∃ j, jobs s !! id = Some j ∧ (JStatus j = JobQueued → JStatus <$> (jobs s' !! id) = Some JobCancelled)) ∧
  SystemMarkConfirmationStarted id now' (run ops s') = (run ops s', Err (Sentinel ErrTransitionConflict)).
Proof.
  intros Hs%reachable_inv Hreq. pose proof Hs as [Hdb _]. unfold requestJobCancellation in Hreq. inv_ok.
  match goal with H : map_err _ _ _ = (?s1, Ok ?o) |- _ => apply map_err_inv_Ok in H;
    pose proof H as Hrun; apply update_job_Ok in H; [rename H into Hupd|done|done]; rename o into r; rename s1 into s1 end.
  destruct r as [new|]; [|by inv_ok]. destruct Hupd as (j & Hj & Hw & -> & Hnew). inv_ok.
  assert (Hs' : system_inv s').
  { assert (Hsys : preserves system_inv (requestJobCancellation uid id now)).
    { apply framed_system; [apply requestJobCancellation_stable|apply requestJobCancellation_framed]. }
    specialize (Hsys s Hs). unfold requestJobCancellation in Hsys. rewrite ST_bind_unfold in Hsys.
    unfold map_err in Hsys. by rewrite Hrun in Hsys. }
  split.
  - exists j. split; [done|]. intros Hq. rewrite Hnew. simpl. by rewrite Hq.
  - unfold SystemMarkConfirmationStarted. rewrite ST_bind_unfold. cbn [gets]. rewrite ST_bind_unfold.
    unfold map_err, update_job. rewrite ST_bind_unfold. cbn [gets].
    pose proof (run_evolves ops s' Hs') as He.
    destruct (ev_job _ _ _ _ He id _ Hnew) as [->|(j' & -> & Hstep)]; [done|].
    pose proof (rs_cancel _ _ Hstep eq_refl) as Hc. rewrite Hc. by rewrite andb_false_r.
Qed.

(** The final confirmation begins only for a job that may still book: its worker is
    running or awaiting approval, no cancellation was requested and its account is
    active.  The first instant is kept, nothing else but the update time changes, and
    from then on the job can only be running, awaiting approval, succeeded or
    unresolved. *)
Theorem confirmation_begins_only_when_allowed s s' id now ops :
  reachable s → SystemMarkConfirmationStarted id now s = (s', Ok tt) →
  ∃ j, jobs s !! id = Some j ∧ is_active (JStatus j) = true ∧ JCancelRequested j = false ∧
    user_active (JUserID j) s = true ∧
    jobs s' !! id = Some (with_updated now (with_confirmation (coalesce (JConfirmationStartedAt j) now) j)) ∧
    ∀ j', jobs (run ops s') !! id = Some j' →
      JStatus j' ∈ [JobRunning; JobAwaitingApproval; JobSucceeded; JobOutcomeUnknown].
Proof.
  intros Hs%reachable_inv Hmark. pose proof Hs as [Hdb _].
  assert (Hs' : system_inv s').
  { pose proof (framed_system _ (SystemMarkConfirmationStarted_stable id now)
      (SystemMarkConfirmationStarted_framed id now) s Hs) as Hp. by rewrite Hmark in Hp. }
  unfold SystemMarkConfirmationStarted in Hmark. inv_ok.
  match goal with H : map_err _ _ _ = (_, Ok ?o) |- _ => apply map_err_inv_Ok in H;
    apply update_job_Ok in H; [rename H into Hupd|done|done]; rename o into r end.
  destruct r as [new|]; [|done]. destruct Hupd as (j & Hj & Hw & -> & Hnew). rewrite Hj in Hw. bool_to_prop.
  exists j. split_and!; try done. intros j' Hj'.
  pose proof (run_evolves ops _ Hs') as He.
  destruct (ev_job _ _ _ _ He id _ Hnew) as [Hn|(j2 & Hk2 & Hstep)]; [congruence|]. simplify_eq.
  pose proof (run_system_inv ops _ Hs') as [Hrun _].
  destruct (inv_checks _ Hrun id j' Hj') as [Hchk Ho]. unfold job_checks in Hchk. bool_to_prop.
  assert (Hc : is_some (JConfirmationStartedAt j') = true).
  { destruct (JConfirmationStartedAt j) as [t|] eqn:Ht.
    - rewrite (rs_confirmation _ _ Hstep t); [done|]. simpl. done.
    - rewrite (rs_confirmation _ _ Hstep now); [done|]. simpl. done. }
  unfold outcome_ok in Ho. rewrite Hc in Ho. destruct (JStatus j'); try done; set_solver.
Qed.
End runs.

(** ** Approval decisions *)

(** The first decision on a job stands.  Recording a valid decision for one's own
    job succeeds exactly when the job already has that decision, or has none and is
    waiting for one in an active account; it then returns the stored decision.  A
    second, different decision is refused and changes nothing; the same one again
    returns the recorded one and changes nothing. *)
Theorem first_decision_stands s uid id decision now :
  db_inv s → 0 < uid → ApprovalDecision_Valid decision = true →
  match decisions s !! id with
  | Some d =>
      (RecordJobDecision uid id decision now s).1 = s ∧
      (DUserID d = uid →
        (RecordJobDecision uid id decision now s).2 =
          if bool_decide (DDecision d = decision) then Ok d else Err (Sentinel ErrDecisionConflict)) ∧
      (DUserID d ≠ uid → (RecordJobDecision uid id decision now s).2 = Err (Sentinel ErrNotFound))
  | None =>
      match jobs s !! id with
      | Some j =>
          if JUserID j =? uid then
            if user_active uid s && bool_decide (JStatus j = JobAwaitingApproval) then
              RecordJobDecision uid id decision now s =
                (set_decisions (<[id := MkJobDecision id uid decision now]>) s, Ok (MkJobDecision id uid decision now))
            else RecordJobDecision uid id decision now s = (s, Err (Sentinel ErrTransitionConflict))
          else RecordJobDecision uid id decision now s = (s, Err (Sentinel ErrNotFound))
      | None => RecordJobDecision uid id decision now s = (s, Err (Sentinel ErrNotFound))
      end
  end.
Proof.
  intros Hs Hu Hv. assert (Hpos : uid <=? 0 = false) by (apply Z.leb_gt; lia).
  assert (Hrun : RecordJobDecision uid id decision now s =
    match (d ← decisions (insert_decision uid id decision now s) !! id; if DUserID d =? uid then Some d else None) with
    | Some d => (insert_decision uid id decision now s,
        if bool_decide (DDecision d = decision) then Ok d else Err (Sentinel ErrDecisionConflict))
    | None => (insert_decision uid id decision now s,
        Err (Sentinel (if is_some (owned_job uid id (insert_decision uid id decision now s))
                       then ErrTransitionConflict else ErrNotFound)))
    end).
  { cbv beta iota delta [RecordJobDecision GetJobDecision st_reject lift gets modify fail mret ST_ret mbind
      ST_bind option_bind]. rewrite Hpos, Hv. cbn [reject negb snd].
    destruct (decisions (insert_decision uid id decision now s) !! id) as [d|]; [|done].
    destruct (DUserID d =? uid); [|done]. cbn. by destruct (bool_decide (DDecision d = decision)). }
  rewrite Hrun. clear Hrun. unfold insert_decision.
  destruct (decisions s !! id) as [d|] eqn:Hd.
  - destruct (inv_decision _ Hs id d Hd) as (Hid & j & Hj & Hju). rewrite Hj, andb_false_r, Hd. simpl.
    destruct (Z.eqb_spec (DUserID d) uid) as [He|Hne]; split_and!; try done.
    intros _. unfold owned_job. rewrite Hj. simpl. by destruct (Z.eqb_spec (JUserID j) uid); [congruence|].
  - destruct (jobs s !! id) as [j|] eqn:Hj.
    2: { rewrite Hd. simpl. unfold owned_job. by rewrite Hj. }
    destruct (Z.eqb_spec (JUserID j) uid) as [<-|Hne]; simpl.
    2: { rewrite Hd. simpl. unfold owned_job. rewrite Hj. simpl. by destruct (Z.eqb_spec (JUserID j) uid). }
    rewrite andb_true_r. destruct (_ && _).
    + simpl. rewrite lookup_insert_eq. simpl. by rewrite Z.eqb_refl, bool_decide_true.
    + rewrite Hd. simpl. unfold owned_job. rewrite Hj. simpl. by rewrite Z.eqb_refl.
Qed.

(** ** Witnesses *)

Lemma run_db_inv ops : db_inv (run ops empty_db).
Proof. apply (proj1 (reachable_inv _ (reachable_run ops))). Qed.

Lemma claim_takes_first_due_witness :
  ∃ j, (SystemClaimNextDueJobAt "worker" t0 booked_db).2 = Ok j ∧ JWorkerOwner j = "worker".
Proof.
  destruct (claim_takes_first_due booked_db "worker" t0 (run_db_inv booked_ops) eq_refl) as (s1 & n & _ & Hclaim).
  assert (Hok : is_ok (SystemClaimNextDueJobAt "worker" t0 booked_db).2 = true) by (vm_compute; reflexivity).
  destruct (SystemClaimNextDueJobAt "worker" t0 booked_db) as [s' [j|e]]; [|discriminate Hok].
  destruct Hclaim as (c & _ & _ & _ & -> & _). eexists. split; [reflexivity|]. reflexivity.
Defined.

Lemma recovery_leaves_no_active_job_witness :
  ∃ j j', jobs confirmed_db !! 1 = Some j ∧ is_active (JStatus j) = true ∧
    jobs (SystemRecoverInterruptedJobs (t0 + Hour) confirmed_db).1 !! 1 = Some j' ∧ is_active (JStatus j') = false.
Proof.
  destruct (recovery_leaves_no_active_job confirmed_db (t0 + Hour) (run_db_inv confirmed_ops))
    as (s' & n & Hrec & Hnone & _).
  at_job confirmed_db 1 (λ j : Job, is_active (JStatus j)) j Hj Ha.
  at_job (SystemRecoverInterruptedJobs (t0 + Hour) confirmed_db).1 1 (λ _ : Job, true) j' Hj' Htrue.
  exists j, j'. split; [exact Hj|]. split; [exact Ha|]. split; [exact Hj'|].
  apply (Hnone 1). rewrite Hrec in Hj'. exact Hj'.
Defined.

Lemma expiry_fails_ended_windows_witness :
  ∃ j, jobs (SystemExpireStaleJobs (t0 + 2 * Hour) booked_db).1 !! 1 = Some j ∧ JStatus j = JobFailed.
Proof.
  destruct (expiry_fails_ended_windows booked_db (t0 + 2 * Hour) (run_db_inv booked_ops)) as (s' & n & Hexp & _ & Hrows).
  at_job (SystemExpireStaleJobs (t0 + 2 * Hour) booked_db).1 1
    (λ j : Job, negb (bool_decide (JStatus j = JobQueued))) j Hj Hq. apply negb_true_iff, bool_decide_eq_false_1 in Hq.
  at_job booked_db 1 (λ j : Job, bool_decide (JStatus j = JobQueued)) j0 Hj0 Hq0. apply bool_decide_eq_true_1 in Hq0.
  exists j. split; [exact Hj|]. rewrite Hexp in Hj. destruct (Hrows 1 j Hj) as (j1 & Hj1 & [->|(_ & Hf & _)]); [|exact Hf].
  congruence.
Defined.

Lemma accepted_cancellation_excludes_confirmation_witness :
  ∃ s', requestJobCancellation 1 1 t0 booked_db = (s', Ok tt) ∧
    SystemMarkConfirmationStarted 1 t0 (run [OpSystemClaimNextDueJobAt "worker" t0] s') =
      (run [OpSystemClaimNextDueJobAt "worker" t0] s', Err (Sentinel ErrTransitionConflict)).
Proof.
  assert (Hok : is_ok (requestJobCancellation 1 1 t0 booked_db).2 = true) by (vm_compute; reflexivity).
  destruct (requestJobCancellation 1 1 t0 booked_db) as [s' [[]|e]] eqn:Hreq; [|discriminate Hok].
  exists s'. split; [reflexivity|].
  apply (accepted_cancellation_excludes_confirmation booked_db s' 1 1 t0 [OpSystemClaimNextDueJobAt "worker" t0] t0
    (reachable_run booked_ops) Hreq).
Defined.

Definition claimed_ops : list op := (booked_ops ++ [OpSystemClaimNextDueJobAt "worker" t0])%list.
Definition claimed_db : db := run claimed_ops empty_db.

Lemma transition_resolves_the_outcome_witness :
  ∃ j', (SystemTransitionJob id 1 [JobRunning] JobFailed (MkTransition "boom" None true) t0 claimed_db).2 = Ok j' ∧
    JStatus j' = JobOutcomeUnknown.
Proof.
  assert (Hok : is_ok (SystemTransitionJob id 1 [JobRunning] JobFailed (MkTransition "boom" None true) t0 claimed_db).2 = true)
    by (vm_compute; reflexivity).
  destruct (SystemTransitionJob _ _ _ _ _ _ _) as [s' [j'|e]] eqn:Htr; [|discriminate Hok].
  exists j'. split; [reflexivity|].
  destruct (transition_resolves_the_outcome claimed_db s' id 1 [JobRunning] JobFailed _ t0 j' (run_db_inv claimed_ops) Htr)
    as (j & _ & _ & _ & _ & Hres & _).
  rewrite orb_true_r in Hres. exact Hres.
Defined.

Lemma confirmation_begins_only_when_allowed_witness :
  ∃ j, jobs claimed_db !! 1 = Some j ∧ is_active (JStatus j) = true ∧
    is_ok (SystemMarkConfirmationStarted 1 t0 claimed_db).2 = true.
Proof.
  assert (Hok : is_ok (SystemMarkConfirmationStarted 1 t0 claimed_db).2 = true) by (vm_compute; reflexivity).
  destruct (SystemMarkConfirmationStarted 1 t0 claimed_db) as [s' [[]|e]] eqn:Hm; [|discriminate Hok].
  destruct (confirmation_begins_only_when_allowed claimed_db s' 1 t0 [] (reachable_run claimed_ops) Hm) as (j & Hj & Ha & _).
  exists j. split; [exact Hj|]. split; [exact Ha|reflexivity].
Defined.

Definition waiting_ops : list op :=
  (claimed_ops ++ [OpSystemTransitionJob 1 [JobRunning] JobAwaitingApproval (MkTransition "" None false) t0;
                   OpRecordJobDecision 1 1 DecisionApprove t0])%list.
Definition decided_db : db := run waiting_ops empty_db.

Lemma first_decision_stands_witness :
  (RecordJobDecision 1 1 DecisionCancel t0 decided_db).1 = decided_db ∧ is_some (decisions decided_db !! 1) = true.
Proof.
  pose proof (first_decision_stands decided_db 1 1 DecisionCancel t0 (run_db_inv waiting_ops) ltac:(lia) eq_refl) as Hstand.
  assert (Hd : is_some (decisions decided_db !! 1) = true) by (vm_compute; reflexivity).
  destruct (decisions decided_db !! 1) as [d|]; [|discriminate Hd].
  split; [exact (proj1 Hstand)|reflexivity].
Defined.

(** * Admission of jobs

    What an accepted enqueue implies and what it leaves, and that a date which is
    already taken is refused without a trace. *)

(** ** An accepted enqueue *)

Lemma pruneJobHistory_run uid now s :
  pruneJobHistory uid now s =
    (delete_jobs (pruned_ids uid now s) s, Ok (Z.of_nat (List.length (pruned_ids uid now s)))).
Proof. done. Qed.

Lemma enqueueJobTx_Ok actor params clk s s' j :
  enqueueJobTx actor params clk s = (s', Ok j) →
  ∃ p profileID userID profileSource sourceID,
    admit_params clk params = Ok p ∧
    resolve_profile actor p s = Ok (profileID, userID, profileSource) ∧
    resolve_source p userID profileSource s = Ok sourceID ∧
    let s1 := delete_jobs (pruned_ids userID (clk 2%nat) s) s in
    user_active userID s1 = true ∧
    pending_count userID s1 < MaxPendingJobsPerUser ∧ retained_count userID s1 < MaxRetainedJobsPerUser ∧
    insert_job (new_job userID profileID sourceID p (clk 2%nat)) s1 = (s', Ok (next_job s1)) ∧
    j = new_job userID profileID sourceID p (clk 2%nat) (next_job s1) ∧ jobs s' !! next_job s1 = Some j.
Proof.
  unfold enqueueJobTx. intros Hrun. apply ST_bind_Ok in Hrun as (s1 & p & [-> Hp]%lift_Ok & Hrun).
  apply ST_bind_Ok in Hrun as (s1 & r & [-> ->]%gets_Ok & Hrun).
  apply ST_bind_Ok in Hrun as (s1 & [[profileID userID] psource] & [-> Hr]%lift_Ok & Hrun). cbn [fst snd] in Hrun.
  apply ST_bind_Ok in Hrun as (s1 & u & [-> _]%st_reject_Ok & Hrun).
  apply ST_bind_Ok in Hrun as (s1 & pend & [-> _]%gets_Ok & Hrun).
  apply ST_bind_Ok in Hrun as (s1 & u1 & [-> _]%st_reject_Ok & Hrun).
  apply ST_bind_Ok in Hrun as (s1 & src & [-> ->]%gets_Ok & Hrun).
  apply ST_bind_Ok in Hrun as (s1 & sourceID & [-> Hsrc]%lift_Ok & Hrun).
  apply ST_bind_Ok in Hrun as (s1 & n & Hprune & Hrun). rewrite pruneJobHistory_run in Hprune.
  injection Hprune as <- _.
  apply ST_bind_Ok in Hrun as (s2 & adm & [-> ->]%gets_Ok & Hrun).
  exists p, profileID, userID, psource, sourceID. cbv zeta.
  set (s1 := delete_jobs (pruned_ids userID (clk 2%nat) s) s) in *.
  destruct (_ && _) eqn:Hadm.
  - apply andb_true_iff in Hadm as [Hadm Hret]. apply andb_true_iff in Hadm as [Hact Hpen].
    apply Z.ltb_lt in Hpen, Hret.
    apply ST_bind_Ok in Hrun as (s2 & id & Hins & Hget). unfold SystemGetJob in Hget.
    apply ST_bind_Ok in Hget as (s3 & o & [-> ->]%gets_Ok & [-> Hj]%lift_Ok). apply of_option_Ok in Hj.
    assert (Hins' : insert_job (new_job userID profileID sourceID p (clk 2%nat)) s1 = (s2, Ok id)).
    { unfold map_err in Hins. by destruct (insert_job _ s1) as [? [?|?]]. }
    pose proof Hins' as Hok. apply insert_job_Ok in Hok as (-> & _ & _ & _ & s3 & -> & Hres & _).
    assert (Hnew : jobs s2 !! next_job s1 = Some (new_job userID profileID sourceID p (clk 2%nat) (next_job s1))).
    { apply reserve_booking_Ok in Hres as [[-> _]|(slot & _ & _ & _ & ->)]; simpl; apply lookup_insert_eq. }
    split_and!; try done. congruence.
  - apply ST_bind_Ok in Hrun as (s2 & act & [-> ->]%gets_Ok & Hrun).
    apply ST_bind_Ok in Hrun as (s2 & u2 & [-> _]%st_reject_Ok & Hrun).
    apply ST_bind_Ok in Hrun as (s2 & ret & [-> ->]%gets_Ok & Hrun).
    apply ST_bind_Ok in Hrun as (s2 & u3 & [-> _]%st_reject_Ok & Hrun). done.
Qed.

(** ** Taken dates *)

(** A reservation that retention cannot free: left over from a deleted row, or held by
    a job that is not known to have failed before its confirmation. *)
Definition taken (s : db) (slot : Z * string) : Prop :=
  ∃ o, reservations s !! slot = Some o ∧
    match o with None => True | Some k => ∃ j, jobs s !! k = Some j ∧ unconfirmed_book j = false end.

Lemma delete_jobs_taken ids s slot : db_inv s → taken s slot → taken (delete_jobs ids s) slot.
Proof.
  revert s. induction ids as [|id ids IH]; intros s Hs Ht; [done|]. simpl. apply IH.
  { eapply shrinks_inv; [apply delete_job_shrinks|done]. }
  destruct Ht as (o & Hr & Ho). unfold taken. rewrite (delete_job_reservation id s slot o Hs Hr).
  destruct o as [k|]; [|by exists None]. destruct Ho as (j & Hk & Hu). case_bool_decide as He.
  - subst k. rewrite Hk, Hu. by exists None.
  - exists (Some k). split; [done|]. exists j. by rewrite delete_job_jobs, lookup_delete_ne.
Qed.

Lemma insertBookingRequest_Ok uid r now s s' id :
  insertBookingRequest uid r now s = (s', Ok id) →
  id = next_booking s ∧ s' = bump_booking (set_bookings (<[id := booking_row id uid now r]>) s).
Proof.
  unfold insertBookingRequest, map_err. destruct (atomically _ s) as [s1 [i|e]] eqn:Hat; [|done].
  intros [= <- <-]. inv_ok. done.
Qed.

Lemma refused_reading {A B} (m : ST db A) (f : A → ST db B) s s' e :
  (∀ I, preserves I m) → (m ≫= f) s = (s', Err e) → s' = s ∨ ∃ a, m s = (s, Ok a) ∧ f a s = (s', Err e).
Proof.
  intros Hm. rewrite ST_bind_unfold. pose proof (Hm (λ x, x = s) s eq_refl) as Hs.
  destruct (m s) as [s1 [a|e1]]; simpl in Hs; subst s1; [eauto|]. intros [= -> _]. by left.
Qed.

Lemma prepareBookingRequest_reads `{TimeZoneDB} I uid r : preserves I (prepareBookingRequest uid r).
Proof. unfold prepareBookingRequest, bookingProfile. reading. Qed.

Lemma prepareBookingRequest_Ok `{TimeZoneDB} uid r s s' prepared :
  prepareBookingRequest uid r s = (s', Ok prepared) →
  s' = s ∧ BProfileID prepared = BProfileID r ∧ BTargetDate prepared = trim_space (BTargetDate r).
Proof.
  intros Hprep. pose proof (prepareBookingRequest_reads (λ x, x = s) uid r s eq_refl) as Hs.
  rewrite Hprep in Hs. split; [done|]. unfold prepareBookingRequest in Hprep. cbv zeta in Hprep.
  apply ST_bind_Ok in Hprep as (s1 & pr & _ & Hprep). apply ST_bind_Ok in Hprep as (s2 & u & _ & Hprep).
  injection Hprep as _ <-. repeat case_match; done.
Qed.

Lemma EnqueueBookingRequest_refused `{TimeZoneDB} uid r p token clk s s' e :
  EnqueueBookingRequest uid r p token clk s = (s', Err e) → s' = s.
Proof.
  unfold EnqueueBookingRequest. intros Hrun.
  do 3 (apply refused_reading in Hrun as [|(? & _ & Hrun)]; [done| |intros I; reading]).
  apply refused_reading in Hrun as [|(? & _ & Hrun)]; [done| |intros I; apply prepareBookingRequest_reads].
  by apply atomically_Err in Hrun.
Qed.

Lemma admit_params_keeps clk p q :
  admit_params clk p = Ok q → ECommand q = ECommand p ∧ EBookingRequestID q = EBookingRequestID p.
Proof. unfold admit_params. intros Hp. inv_ok. done. Qed.

Lemma resolve_profile_booked actor q s bid b pid owner psource :
  EBookingRequestID q = Some bid → bookings s !! bid = Some b → BUserID b ≠ 0 →
  resolve_profile actor q s = Ok (pid, owner, psource) →
  pid = BProfileID b ∧ owner = BUserID b ∧
  ∃ row, profiles s !! pid = Some row ∧ PUserID (pr_profile row) = owner ∧ PEnabled (pr_profile row) = true.
Proof.
  intros Hq Hb Hne. unfold resolve_profile. rewrite Hq, Hb. intros Hr.
  apply result_bind_Ok in Hr as ([pid0 owner0] & Hbooked & Hr).
  destruct (_ && _); [done|]. destruct (negb (BEnabled b)); [done|]. destruct (_ && _); [done|].
  injection Hbooked as <- <-. cbn [fst snd] in Hr.
  apply result_bind_Ok in Hr as (u & _ & Hr).
  destruct (profiles s !! BProfileID b) as [row|] eqn:Hrow; [|done].
  destruct (PEnabled (pr_profile row) && _) eqn:Hen; [|done].
  apply result_bind_Ok in Hr as (u1 & Hown%reject_Ok & Hr). injection Hr as <- <- <-.
  apply andb_false_iff in Hown as [Hown|Hown]; apply negb_false_iff, Z.eqb_eq in Hown; [done|].
  apply andb_true_iff in Hen as [Hen _]. split_and!; try done. eauto.
Qed.

(** C6: what booking a date does.  An accepted request leaves one queued job of the
    caller's account, for an enabled sign-in of that account, and, for a booking, the
    reservation of the sign-in and date held by that job; it is accepted only if no
    pending, confirmed or unresolved booking had that date.  A refused request leaves
    the database exactly as it was, request snapshot included. *)
Theorem booking_admission `{TimeZoneDB} uid r p token clk s :
  db_inv s →
  match EnqueueBookingRequest uid r p token clk s with
  | (s', Err _) => s' = s
  | (s', Ok j) =>
      JStatus j = JobQueued ∧ JUserID j = uid ∧ JProfileID j = BProfileID r ∧ jobs s' !! JID j = Some j ∧
      (∃ row, profiles s !! BProfileID r = Some row ∧ PUserID (pr_profile row) = uid ∧ PEnabled (pr_profile row) = true) ∧
      (ECommand p = CommandBook →
        ¬ taken s (BProfileID r, trim_space (BTargetDate r)) ∧
        reservations s' !! (BProfileID r, trim_space (BTargetDate r)) = Some (Some (JID j)))
  end.
Proof.
  intros Hs. destruct (EnqueueBookingRequest uid r p token clk s) as [s' [j|e]] eqn:Hrun.
  2: by eapply EnqueueBookingRequest_refused.
  unfold EnqueueBookingRequest in Hrun.
  apply ST_bind_Ok in Hrun as (s1 & u & [-> Hu%Z.leb_gt]%st_reject_Ok & Hrun).
  apply ST_bind_Ok in Hrun as (s1 & u1 & [-> _]%st_reject_Ok & Hrun).
  apply ST_bind_Ok in Hrun as (s1 & u2 & [-> _]%st_reject_Ok & Hrun).
  apply ST_bind_Ok in Hrun as (s1 & prepared & (-> & Hpid & Hdate)%prepareBookingRequest_Ok & Hrun).
  change (BProfileID prepared = BProfileID r) in Hpid.
  change (BTargetDate prepared = trim_space (BTargetDate r)) in Hdate.
  cbv zeta in Hrun. apply (proj1 (atomically_Ok _ _ _ _)) in Hrun.
  apply ST_bind_Ok in Hrun as (s1 & bid & [-> Hs1]%insertBookingRequest_Ok & Hrun).
  set (row := booking_row (next_booking s) uid (clk 3%nat)
    (with_booking_name (snapshotBookingName token (BName prepared)) prepared)) in *.
  assert (Hb : bookings s1 !! next_booking s = Some row) by (subst s1; simpl; apply lookup_insert_eq).
  assert (Hinv1 : db_inv s1) by (subst s1; by apply insert_booking_inv).
  apply enqueueJobTx_Ok in Hrun as (q & pid & owner & psource & sid & Hadm & Hres & _ & Hrest). cbv zeta in Hrest.
  apply admit_params_keeps in Hadm as [Hcmd Hreq].
  apply (resolve_profile_booked _ _ _ _ _ _ _ _ Hreq Hb) in Hres as (-> & -> & prow & Hprow & Hown & Hen);
    [|simpl; lia].
  destruct Hrest as (_ & _ & _ & Hins & -> & Hj).
  set (s2 := delete_jobs _ s1) in *. change (BProfileID row) with (BProfileID prepared) in *.
  split_and!; try done.
  { exists prow. split_and!; try done. rewrite <- Hpid. by subst s1. }
  intros Hbook. simpl JID.
  apply insert_job_Ok in Hins as (_ & _ & _ & _ & s3 & -> & Hreserve & Hfk).
  assert (Hslot : ∀ slot, job_slot s2 (new_job uid (BProfileID prepared) sid q (clk 2%nat) (next_job s2)) = Some slot →
    slot = (BProfileID r, trim_space (BTargetDate r))).
  { unfold job_slot. simpl. rewrite Hreq. simpl. intros slot.
    destruct (bookings s2 !! next_booking s) as [b|] eqn:Hb2; [|done]. intros [= <-].
    assert (b = row) as ->.
    { assert (bookings s1 !! next_booking s = Some b) by (eapply lookup_weaken; [exact Hb2|apply delete_jobs_shrinks]).
      congruence. }
    by rewrite Hpid, <- Hdate. }
  apply reserve_booking_Ok in Hreserve as [[-> Hno]|(slot & _ & Hsl & Hfree & ->)].
  - exfalso. destruct Hno as [Hno|Hno]; [by apply Hno; simpl; rewrite Hcmd|].
    unfold job_foreign_keys in Hfk. unfold job_slot in Hno. simpl in Hfk, Hno. rewrite Hreq in Hfk, Hno. simpl in Hfk, Hno.
    rewrite !andb_true_iff in Hfk. destruct Hfk as [_ Hfk]. by destruct (bookings s2 !! next_booking s).
  - apply Hslot in Hsl as ->. simpl in Hfree. split; [|simpl; apply lookup_insert_eq].
    intros Htaken. assert (Ht : taken s1 (BProfileID r, trim_space (BTargetDate r))) by (by subst s1; exact Htaken).
    apply (delete_jobs_taken (pruned_ids uid (clk 2%nat) s1)) in Ht as (o & Ho & _); [|done].
    change (reservations s2 !! (BProfileID r, trim_space (BTargetDate r)) = Some o) in Ho. congruence.
Qed.

Lemma booking_admission_witness :
  (∃ j, (EnqueueBookingRequest 1 (sample_request "2026-01-10") book_params [1; 2; 3; 4; 5; 6; 7; 8]%nat
           sample_clock setup_db).2 = Ok j ∧ JUserID j = 1) ∧
  (EnqueueBookingRequest 1 (sample_request "2026-01-10") book_params [1; 2; 3; 4; 5; 6; 7; 9]%nat
     sample_clock booked_db).1 = booked_db.
Proof.
  split.
  - pose proof (booking_admission 1 (sample_request "2026-01-10") book_params [1; 2; 3; 4; 5; 6; 7; 8]%nat
      sample_clock setup_db (proj1 (reachable_inv _ (reachable_run setup_ops)))) as Hadm.
    assert (Hok : is_ok (EnqueueBookingRequest 1 (sample_request "2026-01-10") book_params
      [1; 2; 3; 4; 5; 6; 7; 8]%nat sample_clock setup_db).2 = true) by (vm_compute; reflexivity).
    destruct (EnqueueBookingRequest _ _ _ _ _ _) as [s' [j|e]]; [|discriminate Hok].
    exists j. split; [reflexivity|]. apply Hadm.
  - pose proof (booking_admission 1 (sample_request "2026-01-10") book_params [1; 2; 3; 4; 5; 6; 7; 9]%nat
      sample_clock booked_db (proj1 (reachable_inv _ (reachable_run booked_ops)))) as Hadm.
    assert (Hok : is_ok (EnqueueBookingRequest 1 (sample_request "2026-01-10") book_params
      [1; 2; 3; 4; 5; 6; 7; 9]%nat sample_clock booked_db).2 = false) by (vm_compute; reflexivity).
    destruct (EnqueueBookingRequest _ _ _ _ _ _) as [s' [j|e]]; [discriminate Hok|]. exact Hadm.
Defined.
