(* ===== verification/Otp.v ===== *)
(** * One-time codes (src/internal/otp/otp.go)

    Which message carries the code of a challenge: extraction, the filter of the paired
    source, the order of the candidates, and the bounded memory of seen messages. *)

From S2P Require Import Prelude GoStrings GoTime Json Redaction Database.
From Stdlib Require Import Ascii String.

Open Scope Z_scope.

(** [strings.EqualFold], by simple Unicode folding; its value on ASCII strings. *)
Class UnicodeFold := {
  EqualFold : string → string → bool;
  EqualFold_ascii : ∀ s t, all_bytes (in_range 0 127) s = true → all_bytes (in_range 0 127) t = true →
    EqualFold s t = equal_fold s t
}.

Record Filter := MkFilter {
  FChatGUID : string;
  FSender : string;
  FRecipient : string;
  FService : string;
  FFreshAfter : Time;
  FPairing : bool;
  FRequireYodel : bool
}.

Record Cursor := MkCursor { CuPosition : Z; CuTimestamp : Time; CuIDs : list string }.
Record Armed := MkArmed { AProvider : string; AArmedAt : Time; ACursor : Cursor; AFilter : Filter }.

Record Message := MkMessage {
  MID : string;
  MCode : string;
  MSender : string;
  MRecipient : string;
  MChatGUID : string;
  MService : string;
  MReceivedAt : Time;
  MCursor : Z
}.

Record RawMessage := MkRaw {
  RID : string;
  RBody : string;
  RSender : string;
  RRecipient : string;
  RChatGUID : string;
  RService : string;
  RReceivedAt : Time;
  RCursor : Z;
  RInbound : bool
}.

(** ** The patterns *)

(** The run of digits at the head, if it can be a code: the whole run has four to
    eight digits. *)
Definition code_here (s : string) : option string :=
  let n := digit_run s in
  if (4 <=? n)%nat && (n <=? 8)%nat then Some (take_bytes n s) else None.
Definition starts_with_digit (s : string) : bool :=
  match s with String c _ => is_digit c | EmptyString => false end.
(** The rest after the rune (or invalid byte) at the head. *)
Definition drop_rune (s : string) : string := drop_bytes (default 1%nat (rune_width s)) s.

(** [[^0-9]{0,24}] up to a digit. *)
Fixpoint gap_to_digit (limit : nat) (s : string) : option string :=
  if String.eqb s "" then None
  else if starts_with_digit s then Some s
  else match limit with S l => gap_to_digit l (drop_rune s) | O => None end.

Definition first_keyword (keywords : list string) (s : string) : option string :=
  foldr (λ kw k, match match_fold kw s with Some rest => Some rest | None => k end) None keywords.

(** [codeAfterKeyword] *)
Definition after_keywords : list string := ["verification"; "passcode"; "code"].
Definition code_after_here (s : string) : option string :=
  rest ← first_keyword after_keywords s; digits ← gap_to_digit 24 rest; code_here digits.
Fixpoint code_after (s : string) : option string :=
  match code_after_here s, s with
  | Some code, _ => Some code
  | None, String _ s' => code_after s'
  | None, EmptyString => None
  end.

(** [[^0-9]{0,24}(?:verification|verify|passcode|code)\b] *)
Definition keyword_word (s : string) : bool :=
  existsb (λ kw, match match_fold kw s with Some rest => negb (starts_with_word rest) | None => false end)
    ["verification"; "verify"; "passcode"; "code"].
Fixpoint keyword_within (limit : nat) (s : string) : bool :=
  keyword_word s
  || (negb (String.eqb s "") && negb (starts_with_digit s)
      && match limit with S l => keyword_within l (drop_rune s) | O => false end).

(** The first run of digits that can be a code and satisfies [ok] of what follows;
    [after_digit] tells whether the preceding byte is a digit. *)
Fixpoint first_code (ok : string → bool) (after_digit : bool) (s : string) : option string :=
  match s with
  | EmptyString => None
  | String c s' =>
      match code_here s with
      | Some code =>
          if negb after_digit && ok (drop_bytes (digit_run s) s) then Some code
          else first_code ok (is_digit c) s'
      | None => first_code ok (is_digit c) s'
      end
  end.
(** [codeBeforeKeyword], [codePattern] *)
Definition code_before (s : string) : option string := first_code (keyword_within 24) false s.
Definition code_standalone (s : string) : option string := first_code (λ _, true) false s.

(** The patterns in the order of their preference. *)
Definition ExtractCode (body : string) : option string :=
  match code_after body with
  | Some code => Some code
  | None => match code_before body with Some code => Some code | None => code_standalone body end
  end.

(** [yodelPattern]: a word of its own, in any case. *)
Fixpoint yodel_from (prev_word : bool) (s : string) : bool :=
  (negb prev_word && match match_fold "yodel" s with Some rest => negb (starts_with_word rest) | None => false end)
  || match s with String c s' => yodel_from (is_word c) s' | EmptyString => false end.
Definition IsYodelMessage (body : string) : bool := yodel_from false body.

(** ** Addresses *)

Definition phone_mark (c : ascii) : bool :=
  existsb (Ascii.eqb c) [byte 43; byte 45; byte 40; byte 41; byte 46; byte 32; byte 9]%nat.
Fixpoint digits_of (s : string) : string :=
  match s with
  | EmptyString => EmptyString
  | String c s' => if is_digit c then String c (digits_of s') else digits_of s'
  end.
Definition phoneDigits (value : string) : option string :=
  if all_bytes (λ c, is_digit c || phone_mark c) value
  then (if String.eqb (digits_of value) "" then None else Some (digits_of value)) else None.

Definition repeat_byte (n : nat) (c : ascii) : string := string_of_list_ascii (replicate n c).
Definition star : ascii := byte 42.
Definition MaskAddress (value0 : string) : string :=
  let value := trim_space value0 in
  let n := String.length value in
  if String.eqb value "" then "unknown"
  else
    match cut_last "@" value with
    | Some (local, domain) =>
        if (0 <? String.length local)%nat && (0 <? String.length domain)%nat
        then take_bytes 1 value +:+ "***" +:+ "@" +:+ domain
        else
          (* neither digits nor marks contain an at sign *)
          if (n =? 1)%nat then "*" else take_bytes 1 value +:+ repeat_byte (n - 1) star
    | None =>
        match phoneDigits value with
        | Some digits =>
            let m := String.length digits in
            let visible := if (7 <=? m)%nat then 4%nat else 2%nat in
            if (m <=? visible)%nat then repeat_byte m star
            else repeat_byte (m - visible) star +:+ drop_bytes (m - visible) digits
        | None => if (n =? 1)%nat then "*" else take_bytes 1 value +:+ repeat_byte (n - 1) star
        end
    end.
Definition MaskedSender (m : Message) : string := MaskAddress (MSender m).

Section fold.
Context `{UnicodeFold}.

Definition SameAddress (left0 right0 : string) : bool :=
  let left := trim_space left0 in
  let right := trim_space right0 in
  if String.eqb left "" || String.eqb right "" then String.eqb left right
  else match phoneDigits left, phoneDigits right with
       | Some l, Some r => String.eqb l r
       | _, _ => EqualFold left right
       end.

(** ** Matching *)

Definition Match (raw : RawMessage) (filter : Filter) : option Message :=
  if negb (RInbound raw) || blank (RID raw) then None
  else if FPairing filter && (blank (RChatGUID raw) || blank (RSender raw) || blank (RService raw)) then None
  else if (FPairing filter || FRequireYodel filter) && negb (IsYodelMessage (RBody raw)) then None
  else if negb (IsZero (FFreshAfter filter))
          && (IsZero (RReceivedAt raw) || Before (RReceivedAt raw) (FFreshAfter filter)) then None
  else if negb (String.eqb (FChatGUID filter) "") && negb (String.eqb (RChatGUID raw) (FChatGUID filter)) then None
  else if negb (String.eqb (FSender filter) "") && negb (SameAddress (RSender raw) (FSender filter)) then None
  else if negb (String.eqb (FRecipient filter) "") && negb (SameAddress (RRecipient raw) (FRecipient filter)) then None
  else if negb (String.eqb (FService filter) "")
          && negb (EqualFold (trim_space (RService raw)) (trim_space (FService filter))) then None
  else
    code ← ExtractCode (RBody raw);
    Some (MkMessage (RID raw) code (RSender raw) (RRecipient raw) (RChatGUID raw) (RService raw)
            (RReceivedAt raw) (RCursor raw)).
End fold.

(** ** The bounded set of seen messages *)

Record Deduper := MkDeduper { d_capacity : nat; d_order : list string; d_seen : gset string }.

Definition deduper_add (id0 : string) (d : Deduper) : Deduper * bool :=
  let id := trim_space id0 in
  if String.eqb id "" then (d, false)
  else if bool_decide (id ∈ d_seen d) then (d, false)
  else
    let order := (d_order d ++ [id])%list in
    let seen := {[ id ]} ∪ d_seen d in
    match order with
    | oldest :: rest =>
        if (d_capacity d <? List.length order)%nat
        then (MkDeduper (d_capacity d) rest (seen ∖ {[ oldest ]}), true)
        else (MkDeduper (d_capacity d) order seen, true)
    | [] => (MkDeduper (d_capacity d) order seen, true)
    end.
Definition NewDeduper (capacity : Z) (seed : list string) : Deduper :=
  foldl (λ d id, (deduper_add id d).1)
    (MkDeduper (if capacity <? 1 then 1%nat else Z.to_nat capacity) [] ∅) seed.

(** ** Selecting *)

(** Newest first: by time, cursor, and then the greater id. *)
Definition newer (a b : Message) : bool :=
  if MReceivedAt a =? MReceivedAt b then
    if MCursor a =? MCursor b then String.ltb (MID b) (MID a) else MCursor b <? MCursor a
  else After (MReceivedAt a) (MReceivedAt b).
(** [sort.SliceStable]: [a] may stand before [b] unless [b] is less. *)
Definition not_older (a b : Message) : bool := negb (newer b a).

Section select.
Context `{UnicodeFold}.

Fixpoint select_fresh (raw : list RawMessage) (filter : Filter) (seen : option Deduper)
    : list Message * option Deduper :=
  match raw with
  | [] => ([], seen)
  | candidate :: rest =>
      let '(seen', new) := match seen with
                           | None => (None, true)
                           | Some d => let '(d', b) := deduper_add (RID candidate) d in (Some d', b)
                           end in
      let '(result, seen'') := select_fresh rest filter seen' in
      (match new, Match candidate filter with
       | true, Some m => m :: result
       | _, _ => result
       end, seen'')
  end.
Definition Select (raw : list RawMessage) (filter : Filter) (seen : option Deduper) : list Message * option Deduper :=
  let '(result, seen') := select_fresh raw filter seen in (sort_by not_older result, seen').
End select.

Example extract_examples :
  ExtractCode "Your Yodel code is 123456." = Some "123456"%string ∧
  ExtractCode "Call 604555 now: 9876 is your passcode" = Some "9876"%string ∧
  ExtractCode "ref 123456789, 4321" = Some "4321"%string ∧ ExtractCode "123" = None ∧
  IsYodelMessage "from YODEL: hi" = true ∧ IsYodelMessage "yodeling" = false ∧
  MaskAddress "+1 (604) 555-0199" = "*******0199"%string ∧ MaskAddress "someone@example.com" = "s***@example.com"%string.
Proof. vm_compute. done. Qed.
