(* ===== verification/OtpProperties.v ===== *)
(** * What a one-time code is, and which message carries it *)

From S2P Require Import Prelude GoStrings GoTime Json Redaction Database JobInvariants JobOperations JobHistory JobLemmas.
From S2P Require Import Otp.
From Stdlib Require Import Ascii String.

Open Scope Z_scope.

(** ** Strings at byte positions *)

Lemma app_assoc_s (a b c : string) : (a +:+ b) +:+ c = a +:+ b +:+ c.
Proof. induction a as [|x a IH]; [done|]. rewrite !append_cons. by rewrite IH. Qed.
Lemma app_empty_r (a : string) : a +:+ "" = a.
Proof. induction a as [|x a IH]; [done|]. rewrite append_cons. by rewrite IH. Qed.

Lemma take_cons n c s : take_bytes (S n) (String c s) = String c (take_bytes n s).
Proof. done. Qed.

Fixpoint ends_with_digit (s : string) : bool :=
  match s with
  | EmptyString => false
  | String c EmptyString => is_digit c
  | String _ s' => ends_with_digit s'
  end.
Lemma ends_with_digit_snoc a c : ends_with_digit (a +:+ String c "") = is_digit c.
Proof.
  induction a as [|x a IH]; [done|]. rewrite append_cons. destruct (a +:+ String c "") eqn:He.
  - by destruct a.
  - simpl. by rewrite <- IH.
Qed.
Lemma ends_with_digit_app a b : b ≠ "" → ends_with_digit (a +:+ b) = ends_with_digit b.
Proof.
  intros Hb. induction a as [|x a IH]; [done|]. rewrite append_cons. rewrite <- IH.
  destruct (a +:+ b) eqn:He; [|done]. destruct a; [|done]. by destruct b.
Qed.

(** A run of four to eight digits with no digit before or after it. *)
Definition standalone (body code : string) : Prop :=
  ∃ a b, body = a +:+ code +:+ b ∧ all_bytes is_digit code = true ∧ 4 <= len code <= 8 ∧
    ends_with_digit a = false ∧ starts_with_digit b = false.

Lemma standalone_app p s code :
  (∃ a b, s = a +:+ code +:+ b ∧ all_bytes is_digit code = true ∧ 4 <= len code <= 8 ∧
    ends_with_digit (p +:+ a) = false ∧ starts_with_digit b = false) → standalone (p +:+ s) code.
Proof. intros (a & b & -> & Hd & Hl & Ha & Hb). exists (p +:+ a), b. by rewrite app_assoc_s. Qed.

Lemma digit_run_spec s :
  all_bytes is_digit (take_bytes (digit_run s) s) = true ∧
  String.length (take_bytes (digit_run s) s) = digit_run s ∧
  starts_with_digit (drop_bytes (digit_run s) s) = false.
Proof.
  induction s as [|c s IH]; [done|]. simpl digit_run. destruct (is_digit c) eqn:Hc; [|done].
  rewrite take_cons. simpl. rewrite Hc. destruct IH as (-> & -> & ->). done.
Qed.

Lemma code_here_Some s code :
  code_here s = Some code →
  ∃ b, s = code +:+ b ∧ all_bytes is_digit code = true ∧ 4 <= len code <= 8 ∧ starts_with_digit b = false ∧
    b = drop_bytes (digit_run s) s.
Proof.
  unfold code_here. destruct (_ && _) eqn:Hn; [|done]. intros [= <-].
  destruct (digit_run_spec s) as (Hd & Hl & Hb). exists (drop_bytes (digit_run s) s).
  apply andb_true_iff in Hn as [H1 H2]. apply Nat.leb_le in H1, H2. unfold len. rewrite Hl.
  split_and!; try done; [by rewrite take_drop_bytes|lia|lia].
Qed.

Lemma no_digit_run b : starts_with_digit b = false → digit_run b = O.
Proof. destruct b as [|c b]; [done|]. simpl. by intros ->. Qed.

Lemma take_bytes_exact code b : take_bytes (String.length code) (code +:+ b) = code.
Proof. induction code as [|c code IH]; [by destruct b|]. rewrite append_cons. simpl String.length. by rewrite take_cons, IH. Qed.

Lemma code_here_app code b :
  all_bytes is_digit code = true → 4 <= len code <= 8 → starts_with_digit b = false → code_here (code +:+ b) = Some code.
Proof.
  intros Hd Hl Hb. unfold code_here. rewrite digit_run_app by (done || by apply no_digit_run). unfold len in Hl.
  destruct (4 <=? String.length code)%nat eqn:H4; [|apply Nat.leb_gt in H4; lia].
  destruct (String.length code <=? 8)%nat eqn:H8; [|apply Nat.leb_gt in H8; lia]. by rewrite take_bytes_exact.
Qed.

(** ** The first code of a text *)

Lemma first_code_sound ok p s code :
  first_code ok (ends_with_digit p) s = Some code → standalone (p +:+ s) code.
Proof.
  revert p. induction s as [|c s IH]; intros p Hf; [done|]. cbn [first_code] in Hf.
  assert (Hnext : first_code ok (is_digit c) s = Some code → standalone (p +:+ String c s) code).
  { rewrite <- (ends_with_digit_snoc p). intros Hn. apply IH in Hn. rewrite app_assoc_s in Hn. exact Hn. }
  destruct (code_here (String c s)) as [code'|] eqn:Hc; [|auto].
  destruct (negb (ends_with_digit p) && _) eqn:Hok; [|auto]. injection Hf as <-.
  apply andb_true_iff in Hok as [Hp _]. apply negb_true_iff in Hp.
  apply code_here_Some in Hc as (b & -> & Hd & Hl & Hb & _).
  apply standalone_app. exists "", b. rewrite app_empty_r. done.
Qed.

Lemma first_code_complete a code b after_digit :
  all_bytes is_digit code = true → 4 <= len code <= 8 → starts_with_digit b = false →
  (if String.eqb a "" then after_digit else ends_with_digit a) = false →
  first_code (λ _, true) after_digit (a +:+ code +:+ b) ≠ None.
Proof.
  intros Hd Hl Hb. revert after_digit. induction a as [|c a IH]; intros ad Ha.
  - change ("" +:+ code +:+ b) with (code +:+ b). pose proof (code_here_app code b Hd Hl Hb) as Hc.
    destruct (code +:+ b) as [|x s] eqn:He; [done|]. cbn [first_code]. rewrite Hc. simpl in Ha. by rewrite Ha.
  - rewrite append_cons. cbn [first_code].
    assert (Hrec : first_code (λ _, true) (is_digit c) (a +:+ code +:+ b) ≠ None).
    { apply IH. simpl in Ha. by destruct a. }
    destruct (code_here _); [|done]. by destruct (negb ad && true).
Qed.

(** ** A code after a keyword *)

Lemma match_letter_Some c s rest :
  is_digit c = false → match_letter c s = Some rest → ∃ u, s = u +:+ rest ∧ u ≠ "" ∧ ends_with_digit u = false.
Proof.
  intros Hc. destruct s as [|d s]; [done|]. unfold match_letter.
  destruct (Ascii.eqb_spec (lower_byte d) c) as [He|].
  - intros [= <-]. exists (String d ""). split_and!; [done|done|]. simpl. destruct (is_digit d) eqn:Hd; [|done].
    assert (Hl : lower_byte d = d).
    { unfold lower_byte. destruct (is_upper d) eqn:Hup; [|done]. unfold is_digit, is_upper, in_range in *.
      apply andb_true_iff in Hd as [_ Hd]. apply andb_true_iff in Hup as [Hup _].
      apply Nat.leb_le in Hd, Hup. lia. }
    congruence.
  - destruct (Ascii.eqb c "s").
    + intros Hr%cut_prefix_Some. exists (bytes [197; 191]%nat). by rewrite Hr.
    + destruct (Ascii.eqb c "k"); [|done]. intros Hr%cut_prefix_Some. exists (bytes [226; 132; 170]%nat). by rewrite Hr.
Qed.

Lemma match_fold_Some p s rest :
  all_bytes (λ c, negb (is_digit c)) p = true → p ≠ "" → match_fold p s = Some rest →
  ∃ u, s = u +:+ rest ∧ u ≠ "" ∧ ends_with_digit u = false.
Proof.
  revert s. induction p as [|c p IH]; intros s Hp Hne Hm; [done|]. simpl in Hp, Hm.
  apply andb_true_iff in Hp as [Hc Hp]. apply negb_true_iff in Hc.
  destruct (match_letter c s) as [r|] eqn:Hl; [|done]. simpl in Hm.
  apply match_letter_Some in Hl as (u & -> & Hu & Hend); [|done].
  destruct (decide (p = "")) as [->|Hpne].
  - injection Hm as ->. by exists u.
  - apply IH in Hm as (u' & -> & Hu' & Hend'); [|done|done]. exists (u +:+ u').
    rewrite app_assoc_s. split_and!; [done|by destruct u|]. by rewrite ends_with_digit_app.
Qed.

Lemma first_keyword_Some kws s rest :
  forallb (λ p, all_bytes (λ c, negb (is_digit c)) p && negb (String.eqb p "")) kws = true →
  first_keyword kws s = Some rest → ∃ u, s = u +:+ rest ∧ u ≠ "" ∧ ends_with_digit u = false.
Proof.
  induction kws as [|kw kws IH]; [done|]. simpl. intros [Hkw Hkws]%andb_true_iff.
  apply andb_true_iff in Hkw as [Hd Hne]. apply negb_true_iff, String.eqb_neq in Hne.
  destruct (match_fold kw s) as [r|] eqn:Hm; [|by apply IH]. intros [= <-]. by eapply match_fold_Some.
Qed.

Lemma high_not_digit c : (128 <=? nat_of_ascii c)%nat = true → is_digit c = false.
Proof. intros Hc%Nat.leb_le. unfold is_digit, in_range. apply andb_false_iff. right. apply Nat.leb_gt. lia. Qed.
Lemma in_high_not_digit lo hi c : (128 <= lo)%nat → in_range lo hi c = true → is_digit c = false.
Proof. unfold in_range. intros Hlo [Hc _]%andb_true_iff. apply Nat.leb_le in Hc. apply high_not_digit, Nat.leb_le. lia. Qed.

Lemma cont_not_digit c : utf8_cont c = true → is_digit c = false.
Proof. apply in_high_not_digit. lia. Qed.

Lemma rune_width_spec s w :
  rune_width s = Some w →
  ∃ c t, take_bytes w s = String c t ∧ all_bytes (λ c, negb (is_digit c)) t = true.
Proof.
  assert (Hrange : ∀ (b : bool) lo hi x, (128 <= lo)%nat → (if b then in_range lo hi x else utf8_cont x) = true →
    is_digit x = false).
  { intros [] lo hi x Hlo Hx; [exact (in_high_not_digit lo hi x Hlo Hx)|by apply cont_not_digit]. }
  assert (Hrange2 : ∀ (b b' : bool) lo hi lo' hi' x, (128 <= lo)%nat → (128 <= lo')%nat →
    (if b then in_range lo hi x else if b' then in_range lo' hi' x else utf8_cont x) = true → is_digit x = false).
  { intros [] b' lo hi lo' hi' x Hlo Hlo' Hx; [exact (in_high_not_digit lo hi x Hlo Hx)|exact (Hrange b' lo' hi' x Hlo' Hx)]. }
  destruct s as [|a s1]; [done|]. unfold rune_width.
  destruct (nat_of_ascii a <? 128)%nat; [intros [= <-]; exists a, ""; by destruct s1|].
  destruct s1 as [|b s2]; [done|].
  destruct (_ && _); [destruct (utf8_cont b) eqn:Hb; [|done]; intros [= <-]|].
  { exists a, (String b ""). split; [by destruct s2|]. simpl. by rewrite cont_not_digit. }
  destruct s2 as [|c s3]; [done|]. cbv zeta.
  destruct (_ && _).
  { destruct (_ && utf8_cont c) eqn:Hok; [|done]. intros [= <-]. apply andb_true_iff in Hok as [Hb Hc].
    exists a, (String b (String c "")). split; [by destruct s3|]. simpl.
    rewrite (cont_not_digit c Hc). assert (is_digit b = false) as -> by (eapply Hrange2; [| |exact Hb]; lia). done. }
  destruct s3 as [|d s4]; [done|]. destruct (_ && utf8_cont d) eqn:Hok; [|done]. intros [= <-].
  rewrite !andb_true_iff in Hok. destruct Hok as [[[_ Hb] Hc] Hd].
  exists a, (String b (String c (String d ""))). split; [by destruct s4|]. simpl.
  rewrite (cont_not_digit c Hc), (cont_not_digit d Hd).
  assert (is_digit b = false) as -> by (eapply Hrange2; [| |exact Hb]; lia). done.
Qed.

Lemma no_digits_end s : all_bytes (λ c, negb (is_digit c)) s = true → ends_with_digit s = false.
Proof.
  induction s as [|c s IH]; [done|]. simpl. intros [Hc Hs]%andb_true_iff. apply negb_true_iff in Hc.
  destruct s; [done|]. by apply IH.
Qed.

Lemma drop_rune_spec s :
  s ≠ "" → starts_with_digit s = false → ∃ u, s = u +:+ drop_rune s ∧ u ≠ "" ∧ ends_with_digit u = false.
Proof.
  intros Hs Hd. destruct s as [|c s]; [done|]. simpl in Hd.
  exists (take_bytes (default 1%nat (rune_width (String c s))) (String c s)).
  split; [symmetry; apply take_drop_bytes|].
  destruct (rune_width (String c s)) as [w|] eqn:Hw; simpl default.
  - apply rune_width_spec in Hw as (x & t & Ht & Hnd). rewrite Ht. split; [done|].
    assert (x = c) as -> by (destruct w; [by destruct s|]; rewrite take_cons in Ht; by injection Ht).
    apply no_digits_end. simpl. by rewrite Hd, Hnd.
  - replace (take_bytes 1 (String c s)) with (String c "") by (by destruct s). split; [done|]. simpl. by rewrite Hd.
Qed.

Lemma gap_to_digit_Some n s rest :
  gap_to_digit n s = Some rest →
  starts_with_digit rest = true ∧ (s = rest ∨ ∃ u, s = u +:+ rest ∧ u ≠ "" ∧ ends_with_digit u = false).
Proof.
  revert s. induction n as [|n IH]; intros s; simpl.
  - destruct (String.eqb s ""); [done|]. destruct (starts_with_digit s) eqn:Hs; [|done]. intros [= <-]. auto.
  - destruct (String.eqb_spec s "") as [|Hne]; [done|]. destruct (starts_with_digit s) eqn:Hs; [intros [= <-]; auto|].
    destruct (drop_rune_spec s Hne Hs) as (u & Hsu & Hu & Hend).
    intros [Hd [Heq|(u' & Heq & Hu' & Hend')]]%IH; (split; [done|]); right.
    + exists u. by rewrite <- Heq.
    + exists (u +:+ u'). rewrite app_assoc_s, <- Heq. split_and!; [done|by destruct u|]. by rewrite ends_with_digit_app.
Qed.

Lemma code_after_here_Some s code :
  code_after_here s = Some code → ∃ u b, s = u +:+ code +:+ b ∧ all_bytes is_digit code = true ∧
    4 <= len code <= 8 ∧ (u ≠ "" ∧ ends_with_digit u = false) ∧ starts_with_digit b = false.
Proof.
  unfold code_after_here. intros (rest & Hk & (digits & Hg & Hc)%bind_Some)%bind_Some.
  apply first_keyword_Some in Hk as (u & -> & Hu & Hend); [|done].
  apply code_here_Some in Hc as (b & -> & Hd & Hl & Hb & _).
  apply gap_to_digit_Some in Hg as [_ [->|(u' & -> & Hu' & Hend')]].
  - exists u, b. done.
  - exists (u +:+ u'), b. split; [by rewrite app_assoc_s|]. split; [done|]. split; [done|]. split; [|done].
    split; [by destruct u|by rewrite ends_with_digit_app].
Qed.

Lemma code_after_sound p s code : code_after s = Some code → standalone (p +:+ s) code.
Proof.
  revert p. induction s as [|c s IH]; intros p; cbn [code_after]; [done|].
  destruct (code_after_here (String c s)) as [code'|] eqn:Hc.
  - intros [= <-]. apply code_after_here_Some in Hc as (u & b & Hs & Hd & Hl & [Hu Hend] & Hb). rewrite Hs.
    apply standalone_app. exists u, b. by rewrite ends_with_digit_app.
  - intros Hn. apply (IH (p +:+ String c "")) in Hn. by rewrite app_assoc_s in Hn.
Qed.

(** What a one-time code is.  A code found in a message is a run of four to eight
    digits of the message with no digit before or after it, and a code is found in
    every message that has such a run; a run next to a keyword is preferred. *)
Theorem extracted_code_is_standalone body :
  match ExtractCode body with
  | Some code => standalone body code
  | None => ∀ code, ¬ standalone body code
  end.
Proof.
  unfold ExtractCode. destruct (code_after body) as [code|] eqn:Ha; [by apply (code_after_sound "")|].
  destruct (code_before body) as [code|] eqn:Hb; [by apply (first_code_sound (keyword_within 24) "")|].
  destruct (code_standalone body) as [code|] eqn:Hs; [by apply (first_code_sound (λ _, true) "")|].
  intros code (a & b & -> & Hd & Hl & Hda & Hdb). revert Hs. apply first_code_complete; try done.
  by destruct (String.eqb a "").
Qed.

(** ** The patterns, read without the matcher

    A pattern is a relation between what stands before a position, what stands from it on
    and the code it finds there; the first pattern that matches anywhere counts, at its
    leftmost position. *)

(** A text that spells a lower-case word, in any case; two letters have a further form. *)
Inductive spells : string → string → Prop :=
  | spells_nil : spells "" ""
  | spells_byte c d p v : lower_byte d = c → spells p v → spells (String c p) (String d v)
  | spells_long_s p v : spells p v → spells (String "s" p) (bytes [197; 191]%nat +:+ v)
  | spells_kelvin p v : spells p v → spells (String "k" p) (bytes [226; 132; 170]%nat +:+ v).
(** [n] runes that are no digits lie between [s] and [t]. *)
Inductive skips : nat → string → string → Prop :=
  | skips_none s : skips 0 s s
  | skips_rune n s t : s ≠ "" → starts_with_digit s = false → skips n (drop_rune s) t → skips (S n) s t.
Definition is_code (code : string) : Prop := all_bytes is_digit code = true ∧ 4 <= len code <= 8.
Definition pattern := string → string → string → Prop.

(** [codeAfterKeyword], [codeBeforeKeyword] and [codePattern]. *)
Definition after_keyword : pattern := λ _ s code, ∃ kw v rest n b,
  kw ∈ ["verification"; "passcode"; "code"] ∧ spells kw v ∧ s = v +:+ rest ∧ skips n rest (code +:+ b) ∧ (n ≤ 24)%nat
  ∧ is_code code ∧ starts_with_digit b = false.
Definition stands_alone : pattern := λ a s code,
  ends_with_digit a = false ∧ is_code code ∧ ∃ b, s = code +:+ b ∧ starts_with_digit b = false.
Definition before_keyword : pattern := λ a s code,
  ends_with_digit a = false ∧ is_code code ∧ ∃ b n kw v rest, s = code +:+ b ∧ starts_with_digit b = false
  ∧ skips n b (v +:+ rest) ∧ (n ≤ 24)%nat
  ∧ kw ∈ ["verification"; "verify"; "passcode"; "code"] ∧ spells kw v ∧ starts_with_word rest = false.
Definition leftmost (P : pattern) (body code : string) : Prop := ∃ a s, body = a +:+ s ∧ P a s code
  ∧ ∀ a' s' code', body = a' +:+ s' → (String.length a' < String.length a)%nat → ¬ P a' s' code'.
Definition nowhere (P : pattern) (body : string) : Prop := ∀ a s code, body = a +:+ s → ¬ P a s code.
Definition extracted (body code : string) : Prop :=
  leftmost after_keyword body code
  ∨ nowhere after_keyword body ∧ (leftmost before_keyword body code
      ∨ nowhere before_keyword body ∧ leftmost stands_alone body code).
(** [yodelPattern] *)
Definition ends_with_word (s : string) : bool := match rev (list_ascii_of_string s) with c :: _ => is_word c | [] => false end.
Definition names_site (body : string) : Prop := ∃ a v b, body = a +:+ v +:+ b ∧ spells "yodel" v
  ∧ ends_with_word a = false ∧ starts_with_word b = false.

Lemma spells_match p s rest : match_fold p s = Some rest ↔ ∃ v, s = v +:+ rest ∧ spells p v.
Proof.
  split.
  - revert s. induction p as [|c p IH]; intros s Hm; [injection Hm as ->; exists ""; by split; [|constructor]|].
    cbn [match_fold] in Hm. apply bind_Some in Hm as (r & Hl & Hm). apply IH in Hm as (v & -> & Hv).
    destruct s as [|d s]; [done|]. unfold match_letter in Hl. destruct (Ascii.eqb_spec (lower_byte d) c) as [He|].
    { injection Hl as ->. exists (String d v). split; [done|by constructor]. }
    destruct (Ascii.eqb_spec c "s") as [->|].
    { apply cut_prefix_Some in Hl. exists (bytes [197; 191]%nat +:+ v). rewrite Hl, app_assoc_s. split; [done|by constructor]. }
    destruct (Ascii.eqb_spec c "k") as [->|]; [|done].
    apply cut_prefix_Some in Hl. exists (bytes [226; 132; 170]%nat +:+ v). rewrite Hl, app_assoc_s. split; [done|by constructor].
  - intros (v & -> & Hv). induction Hv as [|c d p v Hc Hv IH|p v Hv IH|p v Hv IH]; [done|..].
    + cbn [match_fold]. rewrite append_cons. unfold match_letter. by rewrite Hc, Ascii.eqb_refl.
    + rewrite app_assoc_s. cbn [match_fold]. replace (match_letter "s" _) with (Some (v +:+ rest)); [done|].
      symmetry. change (match_letter "s" (bytes [197; 191]%nat +:+ (v +:+ rest))) with (cut_prefix (bytes [197; 191]%nat) (bytes [197; 191]%nat +:+ (v +:+ rest))).
      by apply cut_prefix_Some.
    + rewrite app_assoc_s. cbn [match_fold]. replace (match_letter "k" _) with (Some (v +:+ rest)); [done|].
      symmetry. change (match_letter "k" (bytes [226; 132; 170]%nat +:+ (v +:+ rest))) with (cut_prefix (bytes [226; 132; 170]%nat) (bytes [226; 132; 170]%nat +:+ (v +:+ rest))).
      by apply cut_prefix_Some.
Qed.
Lemma gap_skips limit s t :
  gap_to_digit limit s = Some t ↔ starts_with_digit t = true ∧ ∃ n, (n ≤ limit)%nat ∧ skips n s t.
Proof.
  split.
  - revert s. induction limit as [|l IH]; intros s; cbn [gap_to_digit]; destruct (String.eqb_spec s "") as [->|Hne]; try done;
      destruct (starts_with_digit s) eqn:Hs; try done.
    + intros [= ->]. split; [done|]. exists 0%nat. split; [lia|constructor].
    + intros [= ->]. split; [done|]. exists 0%nat. split; [lia|constructor].
    + intros (Hd & n & Hn & Hk)%IH. split; [done|]. exists (S n). split; [lia|by constructor].
  - intros (Hd & n & Hn & Hk). revert limit Hn. induction Hk as [s|n s t Hne Hs Hk IH]; intros limit Hn.
    + destruct s as [|c s]; [done|]. destruct limit; cbn [gap_to_digit]; by rewrite Hd.
    + destruct limit as [|l]; [lia|]. cbn [gap_to_digit]. rewrite (proj2 (String.eqb_neq s "")), Hs by done. apply IH; [done|lia].
Qed.
Lemma match_fold_head c p d s r :
  Ascii.eqb c "s" = false → Ascii.eqb c "k" = false → match_fold (String c p) (String d s) = Some r → lower_byte d = c.
Proof.
  intros Hs Hk. cbn [match_fold]. unfold match_letter. rewrite Hs, Hk. by destruct (Ascii.eqb_spec (lower_byte d) c).
Qed.
(** The keywords begin with different letters, so at most one of them stands at a place. *)
Lemma first_keyword_spells s rest :
  first_keyword after_keywords s = Some rest ↔
  ∃ kw v, kw ∈ ["verification"; "passcode"; "code"] ∧ spells kw v ∧ s = v +:+ rest.
Proof.
  assert (Hone : ∀ kw kw' r r', kw ∈ after_keywords → kw' ∈ after_keywords →
    match_fold kw s = Some r → match_fold kw' s = Some r' → kw = kw').
  { intros kw kw' r r' Hkw Hkw' Hm Hm'. destruct s as [|d s]; [unfold after_keywords in Hkw; repeat (apply elem_of_cons in Hkw as [->|Hkw]; [done|]); by apply not_elem_of_nil in Hkw|].
    unfold after_keywords in Hkw, Hkw'.
    repeat (apply elem_of_cons in Hkw as [->|Hkw]); repeat (apply elem_of_cons in Hkw' as [->|Hkw']);
      try done; try (by apply not_elem_of_nil in Hkw); try (by apply not_elem_of_nil in Hkw');
      apply match_fold_head in Hm; try done; apply match_fold_head in Hm'; try done;
      congruence. }
  transitivity (∃ kw, kw ∈ after_keywords ∧ match_fold kw s = Some rest).
  - unfold first_keyword. split.
    + intros Hf. unfold after_keywords in *. cbn [foldr] in Hf.
      repeat match type of Hf with match ?o with _ => _ end = _ => let H := fresh in destruct o eqn:H end;
        try done; injection Hf as ->; eexists; (split; [|eassumption]); set_solver.
    + intros (kw & Hkw & Hm).
      assert (Hany : ∀ l, kw ∈ l → (∀ k, k ∈ l → k ∈ after_keywords) →
        foldr (λ kw k, match match_fold kw s with Some rest => Some rest | None => k end) None l = Some rest); [|by apply Hany].
      intros l Hl Hsub. induction l as [|k l IH]; [by apply not_elem_of_nil in Hl|]. cbn [foldr].
      destruct (match_fold k s) as [r|] eqn:Hk.
      * assert (k = kw) as -> by (eapply Hone; eauto; apply Hsub; left). congruence.
      * apply elem_of_cons in Hl as [->|Hl]; [congruence|]. apply IH; [done|]. intros k' Hk'. apply Hsub. by right.
  - split.
    + intros (kw & Hkw & (v & -> & Hv)%spells_match). by exists kw, v.
    + intros (kw & v & Hkw & Hv & ->). exists kw. split; [done|]. apply spells_match. by exists v.
Qed.

Lemma code_here_is s code : code_here s = Some code ↔ is_code code ∧ ∃ b, s = code +:+ b ∧ starts_with_digit b = false.
Proof.
  split; [intros (b & ? & ? & ? & ? & _)%code_here_Some; split; [done|by exists b]|].
  intros [[Hd Hl] (b & -> & Hb)]. by apply code_here_app.
Qed.
Lemma code_starts code b : is_code code → starts_with_digit (code +:+ b) = true.
Proof. intros [Hd Hl]. destruct code as [|c code]; [unfold len in Hl; cbn in Hl; lia|]. rewrite append_cons. cbn [all_bytes starts_with_digit] in *. by apply andb_true_iff in Hd as [? _]. Qed.
Lemma after_keyword_here a s code : code_after_here s = Some code ↔ after_keyword a s code.
Proof.
  unfold code_after_here, after_keyword. split.
  - intros (rest & (kw & v & Hkw & Hv & ->)%first_keyword_spells & (t & (_ & n & Hn & Hk)%gap_skips & (Hc & b & -> & Hb)%code_here_is)%bind_Some)%bind_Some.
    by exists kw, v, rest, n, b.
  - intros (kw & v & rest & n & b & Hkw & Hv & -> & Hk & Hn & Hc & Hb). apply bind_Some. exists rest. split.
    { apply first_keyword_spells. by exists kw, v. }
    apply bind_Some. exists (code +:+ b). split; [apply gap_skips; split; [by apply code_starts|by exists n]|].
    apply code_here_is. split; [done|by exists b].
Qed.
Lemma keyword_within_skips limit s :
  keyword_within limit s = true ↔ ∃ n kw v rest, skips n s (v +:+ rest) ∧ (n ≤ limit)%nat
    ∧ kw ∈ ["verification"; "verify"; "passcode"; "code"] ∧ spells kw v ∧ starts_with_word rest = false.
Proof.
  assert (Hword : ∀ s, keyword_word s = true ↔
    ∃ kw v rest, kw ∈ ["verification"; "verify"; "passcode"; "code"] ∧ spells kw v ∧ s = v +:+ rest ∧ starts_with_word rest = false).
  { intros t. unfold keyword_word. rewrite existsb_exists. split.
    - intros (kw & Hin%list_elem_of_In & Hm). destruct (match_fold kw t) as [rest|] eqn:Hf; [|done].
      apply spells_match in Hf as (v & -> & Hv). apply negb_true_iff in Hm. by exists kw, v, rest.
    - intros (kw & v & rest & Hkw & Hv & -> & Hw). exists kw. split; [by apply list_elem_of_In|].
      rewrite (proj2 (spells_match kw (v +:+ rest) rest)) by (by exists v). by rewrite Hw. }
  revert s. induction limit as [|l IH]; intros s; cbn [keyword_within]; rewrite orb_true_iff, Hword.
  - rewrite andb_false_r. split.
    + intros [(kw & v & rest & ? & ? & -> & ?)|?]; [|done]. exists 0%nat, kw, v, rest. split; [constructor|]. split; [lia|done].
    + intros (n & kw & v & rest & Hk & Hn & ? & ? & ?). assert (n = 0%nat) as -> by lia. inversion Hk; subst. left. by exists kw, v, rest.
  - rewrite !andb_true_iff, !negb_true_iff, String.eqb_neq, IH. split.
    + intros [(kw & v & rest & ? & ? & -> & ?)|[[Hne Hs] (n & kw & v & rest & Hk & Hn & ?)]].
      * exists 0%nat, kw, v, rest. split; [constructor|]. split; [lia|done].
      * exists (S n), kw, v, rest. split; [by constructor|]. split; [lia|done].
    + intros (n & kw & v & rest & Hk & Hn & Hrest). inversion Hk as [|n' s' t' Hne Hs Hk']; subst.
      * left. exists kw, v, rest. tauto.
      * right. split; [done|]. exists n', kw, v, rest. split; [done|]. split; [lia|done].
Qed.
Lemma append_same_head c s t : c +:+ s = c +:+ t → s = t.
Proof. induction c as [|x c IH]; [done|]. rewrite !append_cons. by intros [= ?%IH]. Qed.
Definition here_code (ok : string → bool) (a s : string) : option string :=
  match code_here s with
  | Some code => if negb (ends_with_digit a) && ok (drop_bytes (digit_run s) s) then Some code else None
  | None => None
  end.
Lemma here_code_is ok a s code :
  here_code ok a s = Some code ↔
  ends_with_digit a = false ∧ is_code code ∧ ∃ b, s = code +:+ b ∧ starts_with_digit b = false ∧ ok b = true.
Proof.
  unfold here_code. split.
  - destruct (code_here s) as [code'|] eqn:Hc; [|done]. destruct (negb _ && _) eqn:Hok; [|done]. intros [= ->].
    apply code_here_Some in Hc as (b & -> & Hd & Hl & Hb & Hdrop). apply andb_true_iff in Hok as [Ha%negb_true_iff Hok].
    rewrite <- Hdrop in Hok. split; [done|]. split; [done|by exists b].
  - intros (Ha & [Hd Hl] & b & -> & Hb & Hok). pose proof (code_here_app code b Hd Hl Hb) as Hc.
    rewrite Hc, Ha. apply code_here_Some in Hc as (b' & Heq & _ & _ & _ & Hdrop). apply append_same_head in Heq as <-.
    by rewrite <- Hdrop, Hok.
Qed.
Lemma stands_alone_here a s code : here_code (λ _, true) a s = Some code ↔ stands_alone a s code.
Proof.
  rewrite here_code_is. unfold stands_alone. split; intros (Ha & Hc & b & Hb); (split; [done|split; [done|exists b; tauto]]).
Qed.
Lemma before_keyword_here a s code : here_code (keyword_within 24) a s = Some code ↔ before_keyword a s code.
Proof.
  rewrite here_code_is. unfold before_keyword. split.
  - intros (Ha & Hc & b & Hs & Hb & (n & kw & v & rest & Hk & Hn & Hrest)%keyword_within_skips).
    split; [done|]. split; [done|]. by exists b, n, kw, v, rest.
  - intros (Ha & Hc & b & n & kw & v & rest & Hs & Hb & Hk & Hn & Hrest). split; [done|]. split; [done|]. exists b.
    split; [done|]. split; [done|]. apply keyword_within_skips. by exists n, kw, v, rest.
Qed.

(** A scan that tries every position from the left. *)
Section scan.
Context (P : pattern) (here g : string → string → option string).
Context (Hhere : ∀ a s code, here a s = Some code ↔ P a s code).
Context (Hg : ∀ a s, g a s = match here a s with
  | Some code => Some code | None => match s with EmptyString => None | String c s' => g (a +:+ String c "") s' end end).
Lemma scan_from a s :
  match g a s with
  | Some code => ∃ b t, s = b +:+ t ∧ P (a +:+ b) t code
      ∧ ∀ b' t' code', s = b' +:+ t' → (String.length b' < String.length b)%nat → ¬ P (a +:+ b') t' code'
  | None => ∀ b t code, s = b +:+ t → ¬ P (a +:+ b) t code
  end.
Proof using Hhere Hg.
  revert a. induction s as [|c s IH]; intros a; rewrite Hg.
  - destruct (here a "") as [code|] eqn:Hh.
    + exists "", "". rewrite (app_empty_r a). split; [done|]. split; [by apply Hhere|]. intros ? ? ? _ Hlt. cbn in Hlt. lia.
    + intros [|? ?] t code Heq HP; [|done]. rewrite append_nil_l in Heq. subst t. rewrite (app_empty_r a) in HP.
      apply Hhere in HP. congruence.
  - destruct (here a (String c s)) as [code|] eqn:Hh.
    + exists "", (String c s). rewrite (app_empty_r a). split; [done|]. split; [by apply Hhere|]. intros ? ? ? _ Hlt. cbn in Hlt. lia.
    + assert (Hfirst : ∀ code, ¬ P (a +:+ "") (String c s) code) by (intros code; rewrite (app_empty_r a); intros HP%Hhere; congruence).
      specialize (IH (a +:+ String c "")).
      assert (Hmove : ∀ b, (a +:+ String c "") +:+ b = a +:+ String c b) by (intros b; by rewrite app_assoc_s).
      destruct (g (a +:+ String c "") s) as [code|].
      * destruct IH as (b & t & -> & HP & Hleft). rewrite Hmove in HP. exists (String c b), t. split; [done|]. split; [done|].
        intros [|c' b'] t' code' Heq Hlt HP'; [rewrite append_nil_l in Heq; subst t'; by eapply Hfirst|].
        rewrite append_cons in Heq. injection Heq as <- Heq. rewrite <- Hmove in HP'. eapply Hleft; [exact Heq| |exact HP']. cbn in Hlt. lia.
      * intros [|c' b'] t' code' Heq HP'; [rewrite append_nil_l in Heq; subst t'; by eapply Hfirst|].
        rewrite append_cons in Heq. injection Heq as <- Heq. rewrite <- Hmove in HP'. by eapply IH.
Qed.
Lemma scan_is body : match g "" body with Some code => leftmost P body code | None => nowhere P body end.
Proof using Hhere Hg. exact (scan_from "" body). Qed.
Lemma pattern_once a s code code' : P a s code → P a s code' → code = code'.
Proof using Hhere. rewrite <- !Hhere. congruence. Qed.
Lemma leftmost_once body code code' : leftmost P body code → leftmost P body code' → code = code'.
Proof using Hhere.
  intros (a & s & -> & HP & Hl) (a' & s' & Heq & HP' & Hl').
  destruct (Nat.lt_trichotomy (String.length a) (String.length a')) as [Hlt|[Hlen|Hlt]].
  - by destruct (Hl' a s code eq_refl Hlt).
  - assert (a = a' ∧ s = s') as [<- <-]; [|by eapply pattern_once].
    clear -Heq Hlen. revert a' Heq Hlen. induction a as [|c a IH]; intros [|c' a'] Heq Hlen; try done.
    rewrite !append_cons in Heq. injection Heq as <- Heq. cbn in Hlen. destruct (IH a' Heq) as [<- <-]; [lia|done].
  - by destruct (Hl a' s' code' Heq Hlt).
Qed.
Lemma not_nowhere body code : leftmost P body code → ¬ nowhere P body.
Proof using Type. intros (a & s & Hs & HP & _) Hno. by eapply Hno. Qed.
End scan.

Lemma ExtractCode_extracted body code : ExtractCode body = Some code ↔ extracted body code.
Proof.
  pose proof (scan_is after_keyword (λ _ s, code_after_here s) (λ _ s, code_after s) after_keyword_here
    ltac:(intros a []; reflexivity) body) as Hafter.
  assert (Hstep : ∀ ok a s, first_code ok (ends_with_digit a) s = match here_code ok a s with
    | Some code => Some code | None => match s with EmptyString => None | String c s' => first_code ok (ends_with_digit (a +:+ String c "")) s' end end).
  { intros ok a [|c s]; [done|]. cbn [first_code]. unfold here_code. rewrite ends_with_digit_snoc.
    destruct (code_here (String c s)); [|done]. by destruct (negb _ && _). }
  pose proof (scan_is before_keyword (here_code (keyword_within 24)) (λ a s, first_code (keyword_within 24) (ends_with_digit a) s)
    before_keyword_here (Hstep _) body) as Hbefore.
  pose proof (scan_is stands_alone (here_code (λ _, true)) (λ a s, first_code (λ _, true) (ends_with_digit a) s)
    stands_alone_here (Hstep _) body) as Halone.
  unfold ExtractCode, code_before, code_standalone. cbn [ends_with_digit] in *. unfold extracted. split.
  - destruct (code_after body); [intros [= <-]; by left|]. right. split; [done|].
    destruct (first_code (keyword_within 24) false body); [simplify_eq; by left|]. right. split; [done|]. by simplify_option_eq.
  - destruct (code_after body) as [c1|].
    { intros [Hl|[Hno _]]; [by rewrite (leftmost_once _ _ after_keyword_here _ _ _ Hafter Hl)|by destruct (not_nowhere _ _ _ Hafter)]. }
    intros [Hl|[_ Hrest]]; [by destruct (not_nowhere _ _ _ Hl)|].
    destruct (first_code (keyword_within 24) false body) as [c2|].
    { destruct Hrest as [Hl|[Hno _]]; [by rewrite (leftmost_once _ _ before_keyword_here _ _ _ Hbefore Hl)|by destruct (not_nowhere _ _ _ Hbefore)]. }
    destruct Hrest as [Hl|[_ Hl]]; [by destruct (not_nowhere _ _ _ Hl)|].
    destruct (first_code (λ _, true) false body) as [c3|]; [|by destruct (not_nowhere _ _ _ Hl)].
    by rewrite (leftmost_once _ _ stands_alone_here _ _ _ Halone Hl).
Qed.

Lemma ends_with_word_snoc a c : ends_with_word (a +:+ String c "") = is_word c.
Proof.
  unfold ends_with_word. replace (list_ascii_of_string (a +:+ String c "")) with (app (list_ascii_of_string a) [c]); [by rewrite rev_app_distr|].
  induction a as [|x a IH]; [done|]. rewrite append_cons. cbn. by rewrite <- IH.
Qed.
Lemma yodel_from_spec p s :
  yodel_from (ends_with_word p) s = true ↔ ∃ a v b, s = a +:+ v +:+ b ∧ spells "yodel" v
    ∧ ends_with_word (p +:+ a) = false ∧ starts_with_word b = false.
Proof.
  revert p. induction s as [|c s IH]; intros p.
  - cbn [yodel_from]. split; [by rewrite orb_false_r, andb_false_r|]. intros (a & v & b & Heq & Hv & _).
    inversion Hv; subst; destruct a; done.
  - cbn [yodel_from]. rewrite orb_true_iff, <- (ends_with_word_snoc p), IH. split.
    + intros [Hh|(a & v & b & -> & Hv & Ha & Hb)].
      * apply andb_true_iff in Hh as [Hp%negb_true_iff Hh]. destruct (match_fold "yodel" (String c s)) as [rest|] eqn:Hm; [|done].
        apply spells_match in Hm as (v & -> & Hv). apply negb_true_iff in Hh. exists "", v, rest. by rewrite app_empty_r.
      * exists (String c a), v, b. rewrite app_assoc_s in Ha. done.
    + intros ([|c' a] & v & b & Heq & Hv & Ha & Hb).
      * left. rewrite append_nil_l in Heq. rewrite app_empty_r in Ha. rewrite Ha, Heq.
        by rewrite (proj2 (spells_match "yodel" (v +:+ b) b)), Hb by (by exists v).
      * right. rewrite append_cons in Heq. injection Heq as <- ->. exists a, v, b. by rewrite app_assoc_s.
Qed.
Lemma IsYodelMessage_names body : IsYodelMessage body = true ↔ names_site body.
Proof. exact (yodel_from_spec "" body). Qed.

(** ** The bounded set of seen messages *)

Record deduper_ok (d : Deduper) : Prop := {
  do_nodup : NoDup (d_order d);
  do_seen : ∀ id, id ∈ d_seen d ↔ id ∈ d_order d;
  do_bound : (List.length (d_order d) <= d_capacity d)%nat;
  do_capacity : (1 <= d_capacity d)%nat
}.

Lemma deduper_add_spec d id d' new :
  deduper_ok d → deduper_add id d = (d', new) →
  deduper_ok d' ∧ d_capacity d' = d_capacity d ∧
  (new = true ↔ trim_space id ≠ "" ∧ trim_space id ∉ d_order d) ∧
  d_order d' = (if new then drop (List.length (d_order d) + 1 - d_capacity d) (d_order d ++ [trim_space id])
                else d_order d).
Proof.
  intros [Hnd Hseen Hbound Hcap]. unfold deduper_add. set (i := trim_space id).
  destruct (String.eqb_spec i "") as [Hi|Hi].
  { intros [= <- <-]. split; [by split|]. split; [done|]. split; [|done]. split; [done|]. by intros [? _]. }
  case_bool_decide as Hin.
  { intros [= <- <-]. split; [by split|]. split; [done|]. split; [|done]. split; [done|].
    apply Hseen in Hin. by intros [_ ?]. }
  rewrite Hseen in Hin.
  assert (Hnd' : NoDup (d_order d ++ [i])).
  { apply NoDup_app. split_and!; [done|set_solver|apply NoDup_singleton]. }
  assert (Hlen : List.length (d_order d ++ [i]) = (List.length (d_order d) + 1)%nat) by (rewrite length_app; done).
  destruct (d_order d ++ [i])%list as [|oldest rest] eqn:Ho; [by destruct (d_order d)|]. simpl in Hlen.
  destruct (d_capacity d <? List.length (oldest :: rest))%nat eqn:Hfull; intros [= <- <-].
  - apply Nat.ltb_lt in Hfull. simpl in Hfull.
    replace (List.length (d_order d) + 1 - d_capacity d)%nat with 1%nat by lia.
    apply NoDup_cons in Hnd' as [Hold Hrest].
    split_and!; [|done|by split; [done|]|done]. split; simpl; [done| |lia|done].
    intros x. rewrite elem_of_difference, elem_of_union, !elem_of_singleton, Hseen.
    assert (Hx : x ∈ d_order d ∨ x = i ↔ x = oldest ∨ x ∈ rest).
    { rewrite <- elem_of_cons, <- Ho, elem_of_app, list_elem_of_singleton. done. }
    split; [intros [[Hxi|Hxo] Hne]|intros Hxr].
    + destruct (proj1 Hx) as [|]; [by right|done|done].
    + destruct (proj1 Hx) as [|]; [by left|done|done].
    + split; [destruct (proj2 Hx); auto|]. by intros ->.
  - apply Nat.ltb_ge in Hfull. simpl in Hfull.
    replace (List.length (d_order d) + 1 - d_capacity d)%nat with 0%nat by lia.
    split_and!; [|done|by split; [done|]|done]. split; simpl; [done| |lia|done].
    intros x. rewrite elem_of_union, elem_of_singleton, Hseen, <- Ho, elem_of_app, list_elem_of_singleton. tauto.
Qed.

Lemma NewDeduper_ok capacity seed : deduper_ok (NewDeduper capacity seed).
Proof.
  unfold NewDeduper. set (d := MkDeduper _ [] ∅). assert (Hd : deduper_ok d).
  { split; simpl; [constructor|set_solver|lia|]. destruct (Z.ltb_spec capacity 1); lia. }
  clearbody d. revert d Hd. induction seed as [|id seed IH]; intros d Hd; [done|]. simpl. apply IH.
  destruct (deduper_add id d) as [d' new] eqn:Ha. by apply (deduper_add_spec d id d' new).
Qed.

(** The memory of seen messages.  It never holds more than its capacity nor an id
    twice.  An id is new exactly when, trimmed, it is not empty and not among the
    remembered ones; a new id is remembered last and, past the capacity, only the one
    remembered first is forgotten; an id that is not new changes nothing. *)
Theorem deduper_remembers_the_last d id d' new :
  deduper_ok d → deduper_add id d = (d', new) →
  deduper_ok d' ∧ d_capacity d' = d_capacity d ∧
  (new = true ↔ trim_space id ≠ "" ∧ trim_space id ∉ d_order d) ∧
  d_order d' = (if new then drop (List.length (d_order d) + 1 - d_capacity d) (d_order d ++ [trim_space id])
                else d_order d).
Proof. apply deduper_add_spec. Qed.

(** ** Matching *)

Section fold.
Context `{UnicodeFold}.

(** What the filter of a challenge asks of a message. *)
Record accepts (raw : RawMessage) (f : Filter) : Prop := {
  ac_inbound : RInbound raw = true;
  ac_id : blank (RID raw) = false;
  ac_pairing : FPairing f = true → blank (RChatGUID raw) = false ∧ blank (RSender raw) = false ∧ blank (RService raw) = false;
  ac_yodel : FPairing f = true ∨ FRequireYodel f = true → IsYodelMessage (RBody raw) = true;
  ac_fresh : IsZero (FFreshAfter f) = false → IsZero (RReceivedAt raw) = false ∧ FFreshAfter f <= RReceivedAt raw;
  ac_chat : FChatGUID f ≠ "" → RChatGUID raw = FChatGUID f;
  ac_sender : FSender f ≠ "" → SameAddress (RSender raw) (FSender f) = true;
  ac_recipient : FRecipient f ≠ "" → SameAddress (RRecipient raw) (FRecipient f) = true;
  ac_service : FService f ≠ "" → EqualFold (trim_space (RService raw)) (trim_space (FService f)) = true
}.

Lemma Match_spec raw f m :
  Match raw f = Some m ↔
  accepts raw f ∧ ∃ code, ExtractCode (RBody raw) = Some code ∧
    m = MkMessage (RID raw) code (RSender raw) (RRecipient raw) (RChatGUID raw) (RService raw)
          (RReceivedAt raw) (RCursor raw).
Proof.
  assert (Hstr : ∀ s, negb (String.eqb s "") = true ↔ s ≠ "").
  { intros s. rewrite negb_true_iff. apply String.eqb_neq. }
  unfold Match, Before. split.
  - intros Hm.
    repeat match type of Hm with (if ?b then None else _) = _ => let Hb := fresh "Hb" in destruct b eqn:Hb; [done|] end.
    apply bind_Some in Hm as (code & Hc & [= <-]). split; [|eauto].
    apply orb_false_iff in Hb as [Hin Hid]. apply negb_false_iff in Hin.
    split; try done.
    + intros Hp. rewrite Hp in Hb0. simpl in Hb0. rewrite !orb_false_iff in Hb0. tauto.
    + intros Hp. apply andb_false_iff in Hb1 as [Hb1|Hb1]; [|by apply negb_false_iff].
      apply orb_false_iff in Hb1. destruct Hb1, Hp; congruence.
    + intros Hz. rewrite Hz in Hb2. simpl in Hb2. apply orb_false_iff in Hb2 as [? Hlt%Z.ltb_ge]. done.
    + intros Hne%Hstr. rewrite Hne in Hb3. simpl in Hb3. apply negb_false_iff in Hb3. by apply String.eqb_eq.
    + intros Hne%Hstr. rewrite Hne in Hb4. simpl in Hb4. by apply negb_false_iff in Hb4.
    + intros Hne%Hstr. rewrite Hne in Hb5. simpl in Hb5. by apply negb_false_iff in Hb5.
    + intros Hne%Hstr. rewrite Hne in Hb6. simpl in Hb6. by apply negb_false_iff in Hb6.
  - intros [[Hin Hid Hpair Hy Hfresh Hchat Hsend Hrec Hsvc] (code & Hc & ->)].
    rewrite Hin, Hid, Hc. simpl.
    assert (Hopt : ∀ s b, (s ≠ "" → b = true) → negb (String.eqb s "") && negb b = false).
    { intros s b Hb. destruct (String.eqb_spec s ""); [done|]. simpl. by rewrite Hb. }
    rewrite (Hopt _ (String.eqb (RChatGUID raw) (FChatGUID f))) by (intros Hne; by apply String.eqb_eq, Hchat).
    rewrite (Hopt _ _ Hsend), (Hopt _ _ Hrec), (Hopt _ _ Hsvc).
    destruct (FPairing f); simpl; [destruct Hpair as (-> & -> & ->); [done|]; rewrite Hy by (by left)|
      destruct (FRequireYodel f); simpl; [rewrite Hy by (by right)|]]; simpl;
      (destruct (IsZero (FFreshAfter f)); simpl; [done|]; destruct Hfresh as [-> Hle]; [done|]; simpl;
       apply Z.ltb_ge in Hle; by rewrite Hle).
Qed.

(** A telephone number and its digits. *)
Definition phone (value digits : string) : Prop :=
  Forall (λ c, is_digit c = true ∨ c ∈ [byte 43; byte 45; byte 40; byte 41; byte 46; byte 32; byte 9]%nat) (list_ascii_of_string value)
  ∧ digits = string_of_list_ascii (filter (λ c, is_digit c = true) (list_ascii_of_string value)) ∧ digits ≠ "".
(** The same number, or the same name in any case. *)
Definition same_address (left right : string) : Prop :=
  let l := trim_space left in let r := trim_space right in
  (l = "" ∧ r = "")
  ∨ (l ≠ "" ∧ r ≠ "" ∧ ((∃ digits, phone l digits ∧ phone r digits)
      ∨ ((∀ d d', phone l d → phone r d' → False) ∧ EqualFold l r = true))).
Lemma phoneDigits_phone value digits : phoneDigits value = Some digits ↔ phone value digits.
Proof using Type.
  assert (Hall : all_bytes (λ c, is_digit c || phone_mark c) value = true ↔
    Forall (λ c, is_digit c = true ∨ c ∈ [byte 43; byte 45; byte 40; byte 41; byte 46; byte 32; byte 9]%nat) (list_ascii_of_string value)).
  { induction value as [|c value IH]; [by split; [constructor|]|]. cbn [all_bytes list_ascii_of_string].
    rewrite Forall_cons, andb_true_iff, orb_true_iff, IH. unfold phone_mark. rewrite existsb_exists.
    assert (Hin : (∃ x, In x [byte 43; byte 45; byte 40; byte 41; byte 46; byte 32; byte 9]%nat ∧ Ascii.eqb c x = true)
      ↔ c ∈ [byte 43; byte 45; byte 40; byte 41; byte 46; byte 32; byte 9]%nat); [|by rewrite Hin].
    split; [intros (x & ? & ->%Ascii.eqb_eq); by apply list_elem_of_In|intros ?; exists c; split; [by apply list_elem_of_In|apply Ascii.eqb_refl]]. }
  assert (Hdigits : digits_of value = string_of_list_ascii (filter (λ c, is_digit c = true) (list_ascii_of_string value))).
  { clear Hall. induction value as [|c value IH]; [done|]. cbn [digits_of list_ascii_of_string]. rewrite filter_cons, IH.
    by destruct (is_digit c). }
  unfold phoneDigits, phone. rewrite <- Hall, <- Hdigits. destruct (all_bytes _ value); [|by split; [|intros [? _]]].
  destruct (String.eqb_spec (digits_of value) "") as [He|He]; split; try done.
  - intros (_ & -> & Hne). done.
  - by intros [= <-].
  - by intros (_ & -> & _).
Qed.
Lemma SameAddress_same left right : SameAddress left right = true ↔ same_address left right.
Proof using Type.
  unfold SameAddress, same_address. cbv zeta. set (l := trim_space left). set (r := trim_space right).
  destruct (String.eqb_spec l "") as [Hl|Hl], (String.eqb_spec r "") as [Hr|Hr]; cbn [orb].
  - rewrite Hl, Hr. split; [by left|done].
  - rewrite (proj2 (String.eqb_neq l r)) by congruence. split; [done|]. by intros [[_ ?]|[? _]].
  - rewrite (proj2 (String.eqb_neq l r)) by congruence. split; [done|]. by intros [[? _]|(_ & ? & _)].
  - transitivity ((∃ digits, phone l digits ∧ phone r digits) ∨ ((∀ d d', phone l d → phone r d' → False) ∧ EqualFold l r = true)); [|tauto].
    setoid_rewrite <- phoneDigits_phone. destruct (phoneDigits l) as [dl|], (phoneDigits r) as [dr|].
    { rewrite String.eqb_eq. split; [intros ->; left; by exists dr|]. intros [(d & ? & ?)|[Hno _]]; [congruence|]. by destruct (Hno dl dr). }
    all: split; [intros He; right; by split|intros [(d & ? & ?)|[_ ?]]; done].
Qed.

(** What the filter of a challenge asks of a message, and the code in it. *)
Record answers (raw : RawMessage) (f : Filter) (code : string) : Prop := {
  an_inbound : RInbound raw = true;
  an_id : trim_space (RID raw) ≠ "";
  an_pairing : FPairing f = true → trim_space (RChatGUID raw) ≠ "" ∧ trim_space (RSender raw) ≠ "" ∧ trim_space (RService raw) ≠ "";
  an_site : FPairing f = true ∨ FRequireYodel f = true → names_site (RBody raw);
  an_fresh : IsZero (FFreshAfter f) = false → IsZero (RReceivedAt raw) = false ∧ FFreshAfter f <= RReceivedAt raw;
  an_chat : FChatGUID f ≠ "" → RChatGUID raw = FChatGUID f;
  an_sender : FSender f ≠ "" → same_address (RSender raw) (FSender f);
  an_recipient : FRecipient f ≠ "" → same_address (RRecipient raw) (FRecipient f);
  an_service : FService f ≠ "" → EqualFold (trim_space (RService raw)) (trim_space (FService f)) = true;
  an_code : extracted (RBody raw) code
}.
Lemma answers_accepts raw f code : answers raw f code ↔ accepts raw f ∧ ExtractCode (RBody raw) = Some code.
Proof using Type.
  assert (Hblank : ∀ s, blank s = false ↔ trim_space s ≠ "") by (intros s; apply String.eqb_neq).
  rewrite ExtractCode_extracted. split.
  - intros [? ? ? ? ? ? ? ? ? ?]. split; [|done].
    split; rewrite ?Hblank, ?IsYodelMessage_names, ?SameAddress_same; auto.
  - intros [[Hin Hid Hp Hy Hf Hc Hs Hr Hv] Hcode]. rewrite ?Hblank, ?IsYodelMessage_names, ?SameAddress_same in *. by split.
Qed.

Lemma Match_answers raw f m :
  Match raw f = Some m ↔ ∃ code, answers raw f code ∧
    m = MkMessage (RID raw) code (RSender raw) (RRecipient raw) (RChatGUID raw) (RService raw) (RReceivedAt raw) (RCursor raw).
Proof.
  rewrite Match_spec. setoid_rewrite answers_accepts. split.
  - intros (Ha & code & Hc & Hm). by exists code.
  - intros (code & [Ha Hc] & Hm). split; [done|by exists code].
Qed.

(** C27: which messages answer a challenge.  A message is taken exactly when it is inbound
    with an id, received no earlier than the moment the inbox was armed, from the paired
    chat, sender, recipient and service where these are known, spells the name of the booking
    site as a word of its own where that is asked, and carries a code; two addresses are the
    same when they are the same telephone number or the same name in any case, and the code
    is the leftmost run of four to eight digits after a keyword, else before one, else
    anywhere, with no digit next to it.  What is returned is the code and the addressing of
    the message, never its text. *)
Theorem Match_takes_exactly raw f m :
  Match raw f = Some m ↔ ∃ code, answers raw f code ∧
    m = MkMessage (RID raw) code (RSender raw) (RRecipient raw) (RChatGUID raw) (RService raw) (RReceivedAt raw) (RCursor raw).
Proof. apply Match_answers. Qed.

(** ** Selecting *)

Lemma select_fresh_sound raw f seen ms seen' :
  select_fresh raw f seen = (ms, seen') → ∀ m, m ∈ ms → ∃ r, r ∈ raw ∧ Match r f = Some m.
Proof.
  revert seen ms seen'. induction raw as [|r raw IH]; intros seen ms seen' Hs m Hm; cbn [select_fresh] in Hs.
  - injection Hs as <- _. by apply not_elem_of_nil in Hm.
  - destruct (match seen with None => _ | Some d => _ end) as [seen1 new].
    destruct (select_fresh raw f seen1) as [rest seen2] eqn:Hr. injection Hs as <- <-.
    assert (Hrest : m ∈ rest → ∃ r0, r0 ∈ r :: raw ∧ Match r0 f = Some m).
    { intros Hin. destruct (IH _ _ _ Hr m Hin) as (r0 & ? & ?). exists r0. split; [by right|done]. }
    destruct new; [|auto]. destruct (Match r f) as [m0|] eqn:Hm0; [|auto].
    apply elem_of_cons in Hm as [->|Hm]; [|auto]. exists r. split; [left|done].
Qed.

End fold.

Section select.
Context `{UnicodeFold}.

Lemma select_fresh_NoDup raw f d old added ms seen' :
  deduper_ok d → d_order d = (old ++ added)%list → (List.length added + List.length raw <= d_capacity d)%nat →
  select_fresh raw f (Some d) = (ms, seen') →
  NoDup ((trim_space ∘ MID) <$> ms) ∧ ∀ m, m ∈ ms → trim_space (MID m) ∉ added.
Proof.
  revert d old added ms seen'. induction raw as [|r raw IH]; intros d old added ms seen' Hok Hord Hlen Hs; cbn [select_fresh] in Hs.
  { injection Hs as <- _. split; [constructor|]. intros m Hm. by apply not_elem_of_nil in Hm. }
  destruct (deduper_add (RID r) d) as [d1 new] eqn:Hadd.
  destruct (select_fresh raw f (Some d1)) as [rest seen2] eqn:Hr. injection Hs as <- <-.
  pose proof (deduper_add_spec d (RID r) d1 new Hok Hadd) as (Hok1 & Hcap & Hnew & Hord1).
  cbn [List.length] in Hlen. destruct new.
  - rewrite Hord in Hord1. rewrite <- app_assoc, drop_app_le in Hord1
      by (rewrite length_app; pose proof (do_bound _ Hok) as Hb; rewrite Hord, length_app in Hb; lia).
    destruct (IH d1 _ (added ++ [trim_space (RID r)])%list rest seen2 Hok1 Hord1) as [Hnd Hout]; [|done|].
    { rewrite length_app, Hcap. simpl. lia. }
    assert (Hrest : ∀ m, m ∈ rest → trim_space (MID m) ≠ trim_space (RID r) ∧ trim_space (MID m) ∉ added).
    { intros m Hm. specialize (Hout m Hm). set_solver. }
    destruct (Match r f) as [m|] eqn:Hm; [|split; [done|]; intros m Hm'; by apply Hrest].
    assert (Hid : MID m = RID r) by (apply Match_spec in Hm as (_ & code & _ & ->); done).
    split.
    + rewrite fmap_cons. apply NoDup_cons. split; [|done]. intros (m' & Heq & Hm')%list_elem_of_fmap.
      apply Hrest in Hm' as [Hne _]. simpl in Heq. congruence.
    + intros m' [->|Hm']%elem_of_cons; [|by apply Hrest]. rewrite Hid.
      destruct (proj1 Hnew eq_refl) as [_ Hnin]. rewrite Hord in Hnin. set_solver.
  - rewrite Hord in Hord1. apply (IH d1 old added rest seen2 Hok1 Hord1); [rewrite Hcap; lia|done].
Qed.

(** The order of the candidates: by time, then cursor, then id, greatest first. *)
Lemma not_older_spec a b :
  not_older a b = true ↔
  MReceivedAt b < MReceivedAt a ∨ MReceivedAt b = MReceivedAt a ∧
    (MCursor b < MCursor a ∨ MCursor b = MCursor a ∧ String.leb (MID b) (MID a) = true).
Proof.
  unfold not_older, newer, After. rewrite negb_true_iff.
  destruct (Z.eqb_spec (MReceivedAt b) (MReceivedAt a)).
  2: { rewrite Z.ltb_ge. split; [intros; left; lia|]. intros [?|[? _]]; lia. }
  destruct (Z.eqb_spec (MCursor b) (MCursor a)).
  2: { rewrite Z.ltb_ge. split; [intros; right; split; [done|left; lia]|]. intros [?|[_ [?|[? _]]]]; lia. }
  rewrite string_ltb_leb. split; [by auto|]. by intros [?|[_ [?|[_ ?]]]]; [lia|lia|].
Qed.
Lemma not_older_total a b : not_older a b = true ∨ not_older b a = true.
Proof.
  rewrite !not_older_spec.
  destruct (Z.lt_trichotomy (MReceivedAt a) (MReceivedAt b)) as [|[|]]; [right; left; lia| |left; left; lia].
  destruct (Z.lt_trichotomy (MCursor a) (MCursor b)) as [|[|]]; [right; right; lia| |left; right; lia].
  destruct (String.leb_total (MID a) (MID b)) as [Hl|Hl]; [right|left]; right; (split; [lia|]); right; (split; [lia|done]).
Qed.
Lemma not_older_trans a b c : not_older a b = true → not_older b c = true → not_older a c = true.
Proof.
  rewrite !not_older_spec. intros Hab Hbc.
  destruct Hab as [?|[? [?|[? Hab]]]], Hbc as [?|[? [?|[? Hbc]]]]; try (left; lia); right; (split; [lia|]);
    try (left; lia); right; (split; [lia|]). by eapply string_leb_trans.
Qed.

(** The candidates of a poll.  They are exactly messages of the poll that answer
    the challenge, newest first (by time, then cursor, then id), and, as long as the
    poll is no longer than the memory of seen messages, none is offered twice. *)
Theorem selected_candidates raw f seen ms seen' :
  Select raw f seen = (ms, seen') →
  StronglySorted (rel_of not_older) ms ∧
  (∀ m, m ∈ ms → ∃ r, r ∈ raw ∧ Match r f = Some m) ∧
  (∀ d, seen = Some d → deduper_ok d → (List.length raw <= d_capacity d)%nat → NoDup ((trim_space ∘ MID) <$> ms)).
Proof.
  unfold Select. destruct (select_fresh raw f seen) as [result s] eqn:Hs. intros [= <- <-].
  split; [apply sort_by_sorted; [apply not_older_total|apply not_older_trans]|]. split.
  - intros m Hm%elem_of_sort_by. by eapply select_fresh_sound.
  - intros d -> Hok Hlen. assert (Hp : sort_by not_older result ≡ₚ result) by apply merge_sort_Permutation.
    rewrite Hp. apply (select_fresh_NoDup raw f d (d_order d) [] result s Hok); [by rewrite app_nil_r|done|done].
Qed.
End select.

(** ** Witnesses *)

#[local] Instance ascii_fold : UnicodeFold := { EqualFold := equal_fold; EqualFold_ascii := λ _ _ _ _, eq_refl }.

Definition sample_filter : Filter := MkFilter "" "+1 604 555 0100" "" "" 1000 false true.
Definition sample_raw (id body : string) (at_ : Time) : RawMessage :=
  MkRaw id body "(1604) 555-0100" "+16045550199" "" "SMS" at_ 7 true.

Lemma deduper_remembers_the_last_witness :
  deduper_ok (deduper_add "c" (NewDeduper 2 ["a"; "b"])).1 ∧
  d_order (deduper_add "c" (NewDeduper 2 ["a"; "b"])).1 = ["b"; "c"]%string.
Proof.
  pose proof (NewDeduper_ok 2 ["a"; "b"]) as Hok.
  destruct (deduper_add "c" (NewDeduper 2 ["a"; "b"])) as [d' new] eqn:Hadd.
  destruct (deduper_remembers_the_last _ "c" d' new Hok Hadd) as (Hok' & _ & Hnew & Hord).
  split; [exact Hok'|]. simpl. rewrite Hord.
  assert (new = true) as -> by (vm_compute in Hadd; by injection Hadd). vm_compute. reflexivity.
Defined.

Lemma Match_takes_exactly_witness :
  (∃ code, answers (sample_raw "1" "Yodel code 4821" 1000) sample_filter code ∧ code = "4821") ∧
  Match (sample_raw "2" "Yodel code 4821" 999) sample_filter = None.
Proof.
  split; [|vm_compute; reflexivity].
  destruct (proj1 (Match_takes_exactly (sample_raw "1" "Yodel code 4821" 1000) sample_filter
    (MkMessage "1" "4821" "(1604) 555-0100" "+16045550199" "" "SMS" 1000 7)) ltac:(vm_compute; reflexivity)) as (code & Ha & Hm).
  exists code. split; [exact Ha|]. by injection Hm.
Defined.

Lemma selected_candidates_witness :
  ∃ m1 m2, (Select [sample_raw "1" "Yodel code 4821" 1000; sample_raw "2" "Yodel code 9042" 1001] sample_filter None).1
    = [m1; m2] ∧ not_older m1 m2 = true.
Proof.
  destruct (Select [sample_raw "1" "Yodel code 4821" 1000; sample_raw "2" "Yodel code 9042" 1001] sample_filter None)
    as [ms seen'] eqn:Hs.
  destruct (selected_candidates _ _ _ _ _ Hs) as (Hsort & _ & _).
  destruct ms as [|m1 [|m2 [|]]]; try (vm_compute in Hs; discriminate Hs).
  exists m1, m2. split; [reflexivity|]. apply StronglySorted_inv in Hsort as [_ Hall].
  rewrite Forall_forall in Hall. apply Hall. left.
Defined.
