(* ===== verification/Hub.v ===== *)
(** * The live hub (src/internal/control/hub.go)

    The state that is never stored: live events to subscribers, active one-time codes,
    and the waits for an approval or for the choice of a message.  Every definition
    [Hub_*] is one critical section of the hub's mutex; a method that locks twice is
    the composition of two sections, between which other calls may run.  A waiter is
    a pointer shared by the hub's table and the goroutine that waits on it, so waiters
    live in a heap.  A send on a full channel blocks: [None]. *)

From S2P Require Import Prelude GoStrings GoTime Json Otp.
From Stdlib Require Import Ascii String.

Open Scope Z_scope.

Record LiveEvent := MkLive { LKind : string; LData : json }.
Record OTPState := MkOTP { OCode : string; OExpiresAt : Time }.

(** Channels of capacity one. *)
Record decisionWaiter := MkDecisionWaiter { dw_ch : option string; dw_decided : bool }.
Record pairingWaiter := MkPairingWaiter {
  pw_ch : option Message; pw_candidates : gmap string Message; pw_selected : bool }.

(** A subscriber's channel: what it has not received yet. *)
Record subscriber := MkSubscriber { sub_job : string; sub_queue : list LiveEvent; sub_closed : bool }.

Record Hub := MkHub {
  h_subscribers : gmap string (gset nat);
  h_otps : gmap string OTPState;
  h_decisions : gmap string nat;
  h_pairings : gmap string nat;
  (* the heap *)
  h_channels : gmap nat subscriber;
  h_decision_waiters : gmap nat decisionWaiter;
  h_pairing_waiters : gmap nat pairingWaiter;
  h_next : nat
}.

Definition NewHub : Hub := MkHub ∅ ∅ ∅ ∅ ∅ ∅ ∅ 0.

Definition set_subscribers (f : gmap string (gset nat) → gmap string (gset nat)) (h : Hub) : Hub :=
  MkHub (f (h_subscribers h)) (h_otps h) (h_decisions h) (h_pairings h) (h_channels h) (h_decision_waiters h)
    (h_pairing_waiters h) (h_next h).
Definition set_otps (f : gmap string OTPState → gmap string OTPState) (h : Hub) : Hub :=
  MkHub (h_subscribers h) (f (h_otps h)) (h_decisions h) (h_pairings h) (h_channels h) (h_decision_waiters h)
    (h_pairing_waiters h) (h_next h).
Definition set_decision_table (f : gmap string nat → gmap string nat) (h : Hub) : Hub :=
  MkHub (h_subscribers h) (h_otps h) (f (h_decisions h)) (h_pairings h) (h_channels h) (h_decision_waiters h)
    (h_pairing_waiters h) (h_next h).
Definition set_pairing_table (f : gmap string nat → gmap string nat) (h : Hub) : Hub :=
  MkHub (h_subscribers h) (h_otps h) (h_decisions h) (f (h_pairings h)) (h_channels h) (h_decision_waiters h)
    (h_pairing_waiters h) (h_next h).
Definition set_channels (f : gmap nat subscriber → gmap nat subscriber) (h : Hub) : Hub :=
  MkHub (h_subscribers h) (h_otps h) (h_decisions h) (h_pairings h) (f (h_channels h)) (h_decision_waiters h)
    (h_pairing_waiters h) (h_next h).
Definition set_decision_waiters (f : gmap nat decisionWaiter → gmap nat decisionWaiter) (h : Hub) : Hub :=
  MkHub (h_subscribers h) (h_otps h) (h_decisions h) (h_pairings h) (h_channels h) (f (h_decision_waiters h))
    (h_pairing_waiters h) (h_next h).
Definition set_pairing_waiters (f : gmap nat pairingWaiter → gmap nat pairingWaiter) (h : Hub) : Hub :=
  MkHub (h_subscribers h) (h_otps h) (h_decisions h) (h_pairings h) (h_channels h) (h_decision_waiters h)
    (f (h_pairing_waiters h)) (h_next h).
Definition bump_next (h : Hub) : Hub :=
  MkHub (h_subscribers h) (h_otps h) (h_decisions h) (h_pairings h) (h_channels h) (h_decision_waiters h)
    (h_pairing_waiters h) (S (h_next h)).

(** ** Publishing *)

Definition subscriber_capacity : nat := 32.
(** [select { case ch <- event: default: }]: a full subscriber misses the event. *)
Definition offer (event : LiveEvent) (sub : subscriber) : subscriber :=
  if (List.length (sub_queue sub) <? subscriber_capacity)%nat
  then MkSubscriber (sub_job sub) (sub_queue sub ++ [event]) (sub_closed sub) else sub.
Definition Publish (jobID : string) (event : LiveEvent) (h : Hub) : Hub :=
  set_channels (map_imap (λ ch sub,
    Some (if bool_decide (ch ∈ default ∅ (h_subscribers h !! jobID)) then offer event sub else sub))) h.

Definition live_otp_active (code : string) : LiveEvent :=
  MkLive "otp" (JObject [("active", JBool true); ("code", JString code)]).
Definition live_inactive (kind : string) : LiveEvent := MkLive kind (JObject [("active", JBool false)]).

(** The views of the candidates; Go ranges over the map in no fixed order, here in the
    order of the keys. *)
Definition pairing_view (candidate : Message) : json :=
  JObject [("id", JString (MID candidate)); ("code", JString (MCode candidate));
           ("masked_sender", JString (MaskedSender candidate)); ("service", JString (MService candidate))].
Definition pairingPublicData (waiter : pairingWaiter) : json :=
  JObject [("active", JBool true);
           ("candidates", JArray (pairing_view <$> (map_to_list (pw_candidates waiter)).*2))].

(** ** One-time codes *)

Definition activeOTPLocked (jobID : string) (now : Time) (h : Hub) : Hub * option OTPState :=
  match h_otps h !! jobID with
  | None => (h, None)
  | Some otp =>
      if negb (IsZero (OExpiresAt otp)) && negb (Before now (OExpiresAt otp))
      then (set_otps (delete jobID) h, None) else (h, Some otp)
  end.
Definition OTP (jobID : string) (now : Time) (h : Hub) : Hub * option OTPState := activeOTPLocked jobID now h.

(** [SetOTP]: the entry, then its publication; [expireOTP] runs when the timer fires. *)
Definition Hub_set_otp (jobID code : string) (expiresAt : Time) (h : Hub) : Hub :=
  set_otps (<[jobID := MkOTP code expiresAt]>) h.
Definition SetOTP (jobID code : string) (expiresAt : Time) (h : Hub) : Hub :=
  Publish jobID (live_otp_active code) (Hub_set_otp jobID code expiresAt h).
Definition otp_is (code : string) (expiresAt : Time) (otp : OTPState) : bool :=
  String.eqb (OCode otp) code && (OExpiresAt otp =? expiresAt).
Definition expireOTP (jobID code : string) (expiresAt : Time) (h : Hub) : Hub :=
  match h_otps h !! jobID with
  | Some otp =>
      if otp_is code expiresAt otp
      then Publish jobID (live_inactive "otp") (set_otps (delete jobID) h) else h
  | None => h
  end.
Definition Hub_clear_otp (jobID : string) (h : Hub) : Hub := set_otps (delete jobID) h.
Definition ClearOTP (jobID : string) (h : Hub) : Hub := Publish jobID (live_inactive "otp") (Hub_clear_otp jobID h).

(** ** Subscribing *)

(** The two sends fit the new channel's capacity.  The channel is returned. *)
Definition Subscribe (jobID : string) (now : Time) (h0 : Hub) : Hub * nat :=
  let ch := h_next h0 in
  let h1 := bump_next (set_subscribers (partial_alter (λ o, Some ({[ ch ]} ∪ default ∅ o)) jobID) h0) in
  let '(h2, otp) := activeOTPLocked jobID now h1 in
  let first := match otp with Some o => [live_otp_active (OCode o)] | None => [] end in
  let second := match h_pairings h2 !! jobID ≫= λ p, h_pairing_waiters h2 !! p with
                | Some waiter => [MkLive "pairing" (pairingPublicData waiter)] | None => [] end in
  (set_channels (<[ch := MkSubscriber jobID (first ++ second) false]>) h2, ch).
Definition close_channel (ch : nat) : gmap nat subscriber → gmap nat subscriber :=
  alter (λ sub, MkSubscriber (sub_job sub) (sub_queue sub) true) ch.
Definition Unsubscribe (jobID : string) (ch : nat) (h : Hub) : Hub :=
  match h_subscribers h !! jobID with
  | None => h
  | Some subs =>
      let h1 := if bool_decide (ch ∈ subs) then set_channels (close_channel ch) h else h in
      let subs' := subs ∖ {[ ch ]} in
      set_subscribers (if bool_decide (subs' = ∅) then delete jobID else <[jobID := subs']>) h1
  end.

(** ** Approvals *)

Definition BeginDecision (jobID : string) (h : Hub) : Hub * result unit :=
  match h_decisions h !! jobID with
  | Some _ => (h, Err (Sentinel ErrDecisionAlreadySet))
  | None =>
      (bump_next (set_decision_waiters (<[h_next h := MkDecisionWaiter None false]>)
        (set_decision_table (<[jobID := h_next h]>) h)), Ok tt)
  end.

(** [waiter.decided = true; waiter.ch <- decision] *)
Definition send_decision (p : nat) (decision : string) (h : Hub) : option Hub :=
  match h_decision_waiters h !! p with
  | Some w =>
      match dw_ch w with
      | Some _ => None
      | None => Some (set_decision_waiters (<[p := MkDecisionWaiter (Some decision) true]>) h)
      end
  | None => None
  end.
Definition Decide (jobID decision : string) (h : Hub) : option (Hub * result unit) :=
  match h_decisions h !! jobID with
  | None => Some (h, Err (Sentinel ErrDecisionNotPending))
  | Some p =>
      match h_decision_waiters h !! p with
      | Some w =>
          if dw_decided w then Some (h, Err (Sentinel ErrDecisionAlreadySet))
          else h' ← send_decision p decision h; Some (h', Ok tt)
      | None => None
      end
  end.

(** [WaitDecision]: the waiter of the job, then either its decision or the end of the
    context, each followed by removing the job's entry. *)
Definition WaitDecision_begin (jobID : string) (h : Hub) : result nat :=
  of_option (Sentinel ErrDecisionNotPending) (h_decisions h !! jobID).
Definition WaitDecision_take (p : nat) (h : Hub) : option (Hub * string) :=
  w ← h_decision_waiters h !! p;
  decision ← dw_ch w;
  Some (set_decision_waiters (<[p := MkDecisionWaiter None (dw_decided w)]>) h, decision).
Definition WaitDecision_done (jobID : string) (h : Hub) : Hub := set_decision_table (delete jobID) h.

(** ** Pairing *)

Definition candidates_of (candidates : list Message) : gmap string Message :=
  foldl (λ m c, if String.eqb (MID c) "" then m else <[MID c := c]> m) ∅ candidates.
Definition Hub_set_pairing (jobID : string) (candidates : gmap string Message) (h : Hub) : Hub * result unit :=
  match h_pairings h !! jobID with
  | Some _ => (h, Err (Sentinel ErrPairingAlreadySet))
  | None =>
      (bump_next (set_pairing_waiters (<[h_next h := MkPairingWaiter None candidates false]>)
        (set_pairing_table (<[jobID := h_next h]>) h)), Ok tt)
  end.
Definition SetPairingCandidates (jobID : string) (candidates : list Message) (h : Hub) : Hub * result unit :=
  let cs := candidates_of candidates in
  if bool_decide (cs = ∅) then (h, Err (Sentinel ErrPairingNotPending))
  else
    match Hub_set_pairing jobID cs h with
    | (h', Err e) => (h', Err e)
    | (h', Ok _) =>
        (Publish jobID (MkLive "pairing" (pairingPublicData (MkPairingWaiter None cs false))) h', Ok tt)
    end.

Definition ChoosePairing (jobID messageID : string) (h : Hub) : option (Hub * result unit) :=
  match h_pairings h !! jobID with
  | None => Some (h, Err (Sentinel ErrPairingNotPending))
  | Some p =>
      match h_pairing_waiters h !! p with
      | None => None
      | Some w =>
          if pw_selected w then Some (h, Err (Sentinel ErrPairingAlreadySet))
          else
            match pw_candidates w !! messageID with
            | None => Some (h, Err (Sentinel ErrPairingNotPending))
            | Some candidate =>
                match pw_ch w with
                | Some _ => None
                | None => Some (set_pairing_waiters (<[p := MkPairingWaiter (Some candidate) (pw_candidates w) true]>) h, Ok tt)
                end
            end
      end
  end.
Definition WaitPairing_begin (jobID : string) (h : Hub) : result nat :=
  of_option (Sentinel ErrPairingNotPending) (h_pairings h !! jobID).
Definition Hub_clear_pairing (jobID : string) (h : Hub) : Hub := set_pairing_table (delete jobID) h.
Definition ClearPairing (jobID : string) (h : Hub) : Hub :=
  Publish jobID (live_inactive "pairing") (Hub_clear_pairing jobID h).
Definition WaitPairing_take (p : nat) (h : Hub) : option (Hub * Message) :=
  w ← h_pairing_waiters h !! p;
  selected ← pw_ch w;
  Some (set_pairing_waiters (<[p := MkPairingWaiter None (pw_candidates w) (pw_selected w)]>) h, selected).
Definition WaitPairing_done (jobID : string) (h : Hub) : Hub := ClearPairing jobID h.

(** ** Cancelling *)

Definition Hub_cancel_decision (jobID : string) (h : Hub) : option Hub :=
  match h_decisions h !! jobID with
  | None => Some h
  | Some p =>
      match h_decision_waiters h !! p with
      | Some w => if dw_decided w then Some h else send_decision p "cancel" h
      | None => None
      end
  end.
Definition CancelJob (jobID : string) (h : Hub) : option Hub :=
  Hub_cancel_decision jobID (ClearPairing jobID (ClearOTP jobID h)).

(** ** Runs

    The critical sections in the order in which they take the mutex, with a client
    receiving from its channel.  A blocked section would leave the hub as it is. *)

Inductive hub_op :=
  | HSubscribe (jobID : string) (now : Time)
  | HUnsubscribe (jobID : string) (ch : nat)
  | HClientReceive (ch : nat)
  | HPublish (jobID : string) (event : LiveEvent)
  | HSetOTP (jobID code : string) (expiresAt : Time)
  | HExpireOTP (jobID code : string) (expiresAt : Time)
  | HOTP (jobID : string) (now : Time)
  | HClearOTP (jobID : string)
  | HBeginDecision (jobID : string)
  | HDecide (jobID decision : string)
  | HWaitDecisionTake (p : nat)
  | HWaitDecisionDone (jobID : string)
  | HSetPairing (jobID : string) (candidates : gmap string Message)
  | HChoosePairing (jobID messageID : string)
  | HWaitPairingTake (p : nat)
  | HClearPairing (jobID : string)
  | HCancelDecision (jobID : string).

Definition hub_exec (op : hub_op) (h : Hub) : Hub :=
  match op with
  | HSubscribe jobID now => (Subscribe jobID now h).1
  | HUnsubscribe jobID ch => Unsubscribe jobID ch h
  | HClientReceive ch => set_channels (alter (λ sub, MkSubscriber (sub_job sub) (tail (sub_queue sub)) (sub_closed sub)) ch) h
  | HPublish jobID event => Publish jobID event h
  | HSetOTP jobID code expiresAt => Hub_set_otp jobID code expiresAt h
  | HExpireOTP jobID code expiresAt => expireOTP jobID code expiresAt h
  | HOTP jobID now => (OTP jobID now h).1
  | HClearOTP jobID => Hub_clear_otp jobID h
  | HBeginDecision jobID => (BeginDecision jobID h).1
  | HDecide jobID decision => match Decide jobID decision h with Some (h', _) => h' | None => h end
  | HWaitDecisionTake p => match WaitDecision_take p h with Some (h', _) => h' | None => h end
  | HWaitDecisionDone jobID => WaitDecision_done jobID h
  | HSetPairing jobID candidates => (Hub_set_pairing jobID candidates h).1
  | HChoosePairing jobID messageID => match ChoosePairing jobID messageID h with Some (h', _) => h' | None => h end
  | HWaitPairingTake p => match WaitPairing_take p h with Some (h', _) => h' | None => h end
  | HClearPairing jobID => Hub_clear_pairing jobID h
  | HCancelDecision jobID => match Hub_cancel_decision jobID h with Some h' => h' | None => h end
  end.
Definition hub_run (ops : list hub_op) (h : Hub) : Hub := foldl (λ h op, hub_exec op h) h ops.
