(* ===== verification/HubProperties.v ===== *)
(** * The live hub is safe under every interleaving

    Invariants of the hub's heap, proved section by section for any order of calls. *)

From S2P Require Import Prelude GoStrings GoTime Json Otp Hub.
From Stdlib Require Import Ascii String.

Open Scope Z_scope.

Record hub_inv (h : Hub) : Prop := {
  hi_decision_heap : ∀ p w, h_decision_waiters h !! p = Some w → (p < h_next h)%nat ∧ (dw_decided w = false → dw_ch w = None);
  hi_decision_table : ∀ job p, h_decisions h !! job = Some p → is_Some (h_decision_waiters h !! p);
  hi_pairing_heap : ∀ p w, h_pairing_waiters h !! p = Some w →
    (p < h_next h)%nat ∧ (pw_selected w = false → pw_ch w = None) ∧
    (∀ m, pw_ch w = Some m → ∃ id, pw_candidates w !! id = Some m);
  hi_pairing_table : ∀ job p, h_pairings h !! job = Some p → is_Some (h_pairing_waiters h !! p);
  hi_channel_heap : ∀ ch sub, h_channels h !! ch = Some sub →
    (ch < h_next h)%nat ∧ (List.length (sub_queue sub) <= subscriber_capacity)%nat;
  hi_channel_table : ∀ job subs ch, h_subscribers h !! job = Some subs → ch ∈ subs →
    ∃ sub, h_channels h !! ch = Some sub ∧ sub_job sub = job ∧ sub_closed sub = false
}.

Lemma NewHub_inv : hub_inv NewHub.
Proof. by split. Qed.

(** The parts of the hub a section leaves alone carry over. *)
Ltac same H := first [exact (hi_decision_heap _ H) | exact (hi_decision_table _ H) | exact (hi_pairing_heap _ H)
  | exact (hi_pairing_table _ H) | exact (hi_channel_heap _ H) | exact (hi_channel_table _ H)].

Lemma set_otps_inv f h : hub_inv h → hub_inv (set_otps f h).
Proof. intros Hh. split; same Hh. Qed.
Lemma delete_decision_inv job h : hub_inv h → hub_inv (set_decision_table (delete job) h).
Proof. intros Hh. split; try same Hh. intros j p Hp; simpl in Hp. apply lookup_delete_Some in Hp as [_ Hp]. by apply (hi_decision_table _ Hh j). Qed.
Lemma delete_pairing_inv job h : hub_inv h → hub_inv (set_pairing_table (delete job) h).
Proof. intros Hh. split; try same Hh. intros j p Hp; simpl in Hp. apply lookup_delete_Some in Hp as [_ Hp]. by apply (hi_pairing_table _ Hh j). Qed.

Lemma put_decision_inv p w w' h :
  hub_inv h → h_decision_waiters h !! p = Some w → (dw_decided w' = false → dw_ch w' = None) →
  hub_inv (set_decision_waiters (<[p := w']>) h).
Proof.
  intros Hh Hp Hw. split; try same Hh; simpl.
  - intros q x [[<- <-]|[_ Hq]]%lookup_insert_Some; [|by apply (hi_decision_heap _ Hh)].
    split; [by apply (hi_decision_heap _ Hh p w)|done].
  - intros j q Hj%(hi_decision_table _ Hh). rewrite lookup_insert. case_decide; [done|exact Hj].
Qed.
Lemma put_pairing_inv p w w' h :
  hub_inv h → h_pairing_waiters h !! p = Some w → (pw_selected w' = false → pw_ch w' = None) →
  (∀ m, pw_ch w' = Some m → ∃ id, pw_candidates w' !! id = Some m) →
  hub_inv (set_pairing_waiters (<[p := w']>) h).
Proof.
  intros Hh Hp Hw Hm. split; try same Hh; simpl.
  - intros q x [[<- <-]|[_ Hq]]%lookup_insert_Some; [|by apply (hi_pairing_heap _ Hh)].
    split; [by apply (hi_pairing_heap _ Hh p w)|done].
  - intros j q Hj%(hi_pairing_table _ Hh). rewrite lookup_insert. case_decide; [done|exact Hj].
Qed.

(** A change of the queues only. *)
Lemma queues_inv (f : nat → subscriber → subscriber) h :
  hub_inv h →
  (∀ ch sub, sub_job (f ch sub) = sub_job sub ∧ sub_closed (f ch sub) = sub_closed sub) →
  (∀ ch sub, (List.length (sub_queue sub) <= subscriber_capacity)%nat →
    (List.length (sub_queue (f ch sub)) <= subscriber_capacity)%nat) →
  hub_inv (set_channels (map_imap (λ ch sub, Some (f ch sub))) h).
Proof.
  intros Hh Hsame Hlen. split; try same Hh; simpl.
  - intros ch sub Hc. rewrite map_lookup_imap in Hc. destruct (h_channels h !! ch) as [s|] eqn:Hs; [|done].
    injection Hc as <-. apply (hi_channel_heap _ Hh) in Hs as [? ?]. auto.
  - intros job subs ch Hj Hin. destruct (hi_channel_table _ Hh job subs ch Hj Hin) as (sub & Hs & Hsj & Hop).
    exists (f ch sub). rewrite map_lookup_imap, Hs. destruct (Hsame ch sub) as [-> ->]. done.
Qed.

Lemma Publish_inv job ev h : hub_inv h → hub_inv (Publish job ev h).
Proof.
  intros Hh. apply queues_inv; [done| |].
  - intros ch sub. case_bool_decide; [|done]. unfold offer. by destruct (_ <? _)%nat.
  - intros ch sub Hl. case_bool_decide; [|done]. unfold offer. destruct (_ <? _)%nat eqn:Hlt; [|done].
    apply Nat.ltb_lt in Hlt. simpl. rewrite length_app. simpl. lia.
Qed.

Lemma activeOTP_inv job now h : hub_inv h → hub_inv (activeOTPLocked job now h).1.
Proof.
  intros Hh. unfold activeOTPLocked. destruct (h_otps h !! job); [|done]. destruct (_ && _); [by apply set_otps_inv|done].
Qed.
Lemma activeOTP_rest job now h h' o :
  activeOTPLocked job now h = (h', o) →
  h_subscribers h' = h_subscribers h ∧ h_channels h' = h_channels h ∧ h_next h' = h_next h.
Proof. unfold activeOTPLocked. destruct (h_otps h !! job); [destruct (_ && _)|]; by intros [= <- _]. Qed.

Lemma Subscribe_inv job now h : hub_inv h → hub_inv (Subscribe job now h).1.
Proof.
  intros Hh. unfold Subscribe. cbv zeta.
  set (h1 := bump_next _). assert (Hpre : hub_inv (bump_next h)).
  { split; try same Hh; simpl.
    - intros p w Hp%(hi_decision_heap _ Hh). split; [lia|tauto].
    - intros p w Hp%(hi_pairing_heap _ Hh). split; [lia|tauto].
    - intros p w Hp%(hi_channel_heap _ Hh). split; [lia|tauto]. }
  destruct (activeOTPLocked job now h1) as [h2 otp] eqn:Hact.
  assert (Hparts : hub_inv h1 → hub_inv h2) by (intros H1; pose proof (activeOTP_inv job now h1 H1) as H2; by rewrite Hact in H2).
  pose proof (activeOTP_rest job now h1 h2 otp Hact) as (Hs & Hc & Hn).
  assert (Hrest : h_decision_waiters h2 = h_decision_waiters h ∧ h_decisions h2 = h_decisions h ∧
    h_pairing_waiters h2 = h_pairing_waiters h ∧ h_pairings h2 = h_pairings h).
  { unfold activeOTPLocked in Hact. destruct (h_otps h1 !! job); [destruct (_ && _)|]; by injection Hact as <- _. }
  destruct Hrest as (Hd & Hdt & Hp & Hpt). simpl. split; simpl; rewrite ?Hd, ?Hdt, ?Hp, ?Hpt, ?Hs, ?Hc, ?Hn; try same Hpre.
  - intros ch sub [[<- <-]|[_ Hch]]%lookup_insert_Some; [|by apply (hi_channel_heap _ Hpre)].
    split; [simpl; lia|]. simpl. rewrite length_app.
    destruct otp, (h_pairings h !! job ≫= λ p, h_pairing_waiters h !! p); simpl; unfold subscriber_capacity; lia.
  - intros j subs ch Hj Hin. simpl in Hj.
    destruct (decide (ch = h_next h)) as [->|Hne].
    + rewrite lookup_insert_eq. eexists. split; [reflexivity|]. simpl. split; [|done].
      destruct (decide (j = job)) as [->|Hj']; [done|]. rewrite lookup_partial_alter_ne in Hj by done.
      destruct (hi_channel_table _ Hh j subs (h_next h) Hj Hin) as (sub & Hsub & _).
      apply (hi_channel_heap _ Hh) in Hsub as [? _]. lia.
    + rewrite lookup_insert_ne by done. destruct (decide (j = job)) as [->|Hj'].
      * rewrite lookup_partial_alter_eq in Hj. injection Hj as <-.
        apply elem_of_union in Hin as [Hin%elem_of_singleton|Hin]; [done|].
        destruct (h_subscribers h !! job) as [subs0|] eqn:Hs0; [|simpl in Hin; set_solver].
        by apply (hi_channel_table _ Hh job subs0 ch).
      * rewrite lookup_partial_alter_ne in Hj by done. by apply (hi_channel_table _ Hh j subs ch).
Qed.

Lemma Unsubscribe_inv job ch h : hub_inv h → hub_inv (Unsubscribe job ch h).
Proof.
  intros Hh. unfold Unsubscribe. destruct (h_subscribers h !! job) as [subs|] eqn:Hs; [|done]. cbv zeta.
  set (subs' := subs ∖ {[ ch ]}).
  set (h1 := if bool_decide (ch ∈ subs) then set_channels (close_channel ch) h else h).
  assert (Hheap : ∀ k sub, h_channels h1 !! k = Some sub →
    (k < h_next h)%nat ∧ (List.length (sub_queue sub) <= subscriber_capacity)%nat).
  { intros k sub. unfold h1. case_bool_decide; [|apply (hi_channel_heap _ Hh)]. simpl. unfold close_channel.
    rewrite lookup_alter_Some. intros [(-> & s & Hk & ->)|[_ Hk]]; by apply (hi_channel_heap _ Hh) in Hk. }
  assert (Hkeep : ∀ j s k, h_subscribers h !! j = Some s → k ∈ s → (j = job → k ≠ ch) →
    ∃ sub, h_channels h1 !! k = Some sub ∧ sub_job sub = j ∧ sub_closed sub = false).
  { intros j s k Hj Hk Hne. destruct (hi_channel_table _ Hh j s k Hj Hk) as (sub & Hsub & Hjob & Hopen).
    unfold h1. case_bool_decide as Hc; [|by eauto]. exists sub. simpl. unfold close_channel.
    rewrite lookup_alter_ne; [done|]. intros <-.
    destruct (hi_channel_table _ Hh job subs ch Hs Hc) as (sub2 & Hsub2 & Hjob2 & _).
    apply Hne; [congruence|done]. }
  assert (Hsame : h_decision_waiters h1 = h_decision_waiters h ∧ h_decisions h1 = h_decisions h ∧
    h_pairing_waiters h1 = h_pairing_waiters h ∧ h_pairings h1 = h_pairings h ∧ h_next h1 = h_next h ∧
    h_subscribers h1 = h_subscribers h) by (unfold h1; by case_bool_decide).
  destruct Hsame as (Hd & Hdt & Hp & Hpt & Hn & Hsub).
  split; simpl; rewrite ?Hd, ?Hdt, ?Hp, ?Hpt, ?Hn, ?Hsub; try same Hh; [exact Hheap|].
  intros j s k Hj Hk. destruct (decide (j = job)) as [->|Hne].
  - assert (Hin : k ∈ subs' ∧ s = subs').
    { case_bool_decide; [by rewrite lookup_delete_eq in Hj|]. rewrite lookup_insert_eq in Hj. by injection Hj as <-. }
    destruct Hin as [Hin ->]. apply (Hkeep job subs); set_solver.
  - apply (Hkeep j s); [|done|done].
    case_bool_decide; [by rewrite lookup_delete_ne in Hj|by rewrite lookup_insert_ne in Hj].
Qed.

Lemma begin_decision_inv job h : hub_inv h → hub_inv (BeginDecision job h).1.
Proof.
  intros Hh. unfold BeginDecision. destruct (h_decisions h !! job) eqn:Hj; [done|]. simpl. split; simpl; try same Hh.
  - intros p w [[<- <-]|[_ Hp]]%lookup_insert_Some; [split; [lia|done]|].
    apply (hi_decision_heap _ Hh) in Hp. split; [lia|tauto].
  - intros j p [[<- <-]|[_ Hp]]%lookup_insert_Some; [by rewrite lookup_insert_eq|].
    apply (hi_decision_table _ Hh) in Hp. rewrite lookup_insert. by case_decide.
  - intros p w Hp%(hi_pairing_heap _ Hh). split; [lia|tauto].
  - intros p w Hp%(hi_channel_heap _ Hh). split; [lia|tauto].
Qed.
Lemma set_pairing_inv job cs h : hub_inv h → hub_inv (Hub_set_pairing job cs h).1.
Proof.
  intros Hh. unfold Hub_set_pairing. destruct (h_pairings h !! job) eqn:Hj; [done|]. simpl. split; simpl; try same Hh.
  - intros p w Hp%(hi_decision_heap _ Hh). split; [lia|tauto].
  - intros p w [[<- <-]|[_ Hp]]%lookup_insert_Some; [split; [lia|done]|].
    apply (hi_pairing_heap _ Hh) in Hp. split; [lia|tauto].
  - intros j p [[<- <-]|[_ Hp]]%lookup_insert_Some; [by rewrite lookup_insert_eq|].
    apply (hi_pairing_table _ Hh) in Hp. rewrite lookup_insert. by case_decide.
  - intros p w Hp%(hi_channel_heap _ Hh). split; [lia|tauto].
Qed.

Lemma send_decision_spec p d h h' :
  send_decision p d h = Some h' →
  ∃ w, h_decision_waiters h !! p = Some w ∧ h' = set_decision_waiters (<[p := MkDecisionWaiter (Some d) true]>) h.
Proof.
  unfold send_decision. destruct (h_decision_waiters h !! p) as [w|]; [|done]. destruct (dw_ch w); [done|].
  intros [= <-]. eauto.
Qed.
Lemma send_decision_inv p d h h' : hub_inv h → send_decision p d h = Some h' → hub_inv h'.
Proof. intros Hh (w & Hw & ->)%send_decision_spec. by apply (put_decision_inv p w). Qed.

Lemma hub_exec_inv op h : hub_inv h → hub_inv (hub_exec op h).
Proof.
  intros Hh. destruct op; simpl.
  - by apply Subscribe_inv.
  - by apply Unsubscribe_inv.
  - replace (set_channels _ h) with (set_channels (map_imap (λ k sub, Some (if (k =? ch)%nat
      then MkSubscriber (sub_job sub) (tail (sub_queue sub)) (sub_closed sub) else sub))) h).
    + apply queues_inv; [done|intros k sub; by destruct (k =? ch)%nat|]. intros k sub Hl.
      destruct (k =? ch)%nat; [|done]. simpl. destruct (sub_queue sub); simpl in *; lia.
    + unfold set_channels. f_equal. apply map_eq. intros k. rewrite map_lookup_imap.
      destruct (Nat.eqb_spec k ch) as [->|Hne].
      * rewrite lookup_alter_eq. by destruct (h_channels h !! ch).
      * rewrite lookup_alter_ne by done. by destruct (h_channels h !! k).
  - by apply Publish_inv.
  - by apply set_otps_inv.
  - unfold expireOTP. destruct (h_otps h !! jobID); [|done]. destruct (otp_is _ _ _); [|done].
    by apply Publish_inv, set_otps_inv.
  - by apply activeOTP_inv.
  - by apply set_otps_inv.
  - by apply begin_decision_inv.
  - unfold Decide. destruct (h_decisions h !! jobID) as [p|]; [|done].
    destruct (h_decision_waiters h !! p) as [w|]; [|done]. destruct (dw_decided w); [done|].
    destruct (send_decision p decision h) as [h'|] eqn:Hs; simpl; [by eapply send_decision_inv|done].
  - unfold WaitDecision_take. destruct (h_decision_waiters h !! p) as [w|] eqn:Hp; [|done]. simpl.
    destruct (dw_ch w) as [d|] eqn:Hd; [|done]. simpl. by apply (put_decision_inv p w).
  - by apply delete_decision_inv.
  - by apply set_pairing_inv.
  - unfold ChoosePairing. destruct (h_pairings h !! jobID) as [p|]; [|done].
    destruct (h_pairing_waiters h !! p) as [w|] eqn:Hp; [|done]. destruct (pw_selected w); [done|].
    destruct (pw_candidates w !! messageID) as [c|] eqn:Hc; [|done]. destruct (pw_ch w); [done|].
    apply (put_pairing_inv p w); [done|done|done|]. simpl. intros m [= <-]. eauto.
  - unfold WaitPairing_take. destruct (h_pairing_waiters h !! p) as [w|] eqn:Hp; [|done]. simpl.
    destruct (pw_ch w) as [d|] eqn:Hd; [|done]. simpl. by apply (put_pairing_inv p w).
  - by apply delete_pairing_inv.
  - unfold Hub_cancel_decision. destruct (h_decisions h !! jobID) as [p|]; [|done].
    destruct (h_decision_waiters h !! p) as [w|]; [|done]. destruct (dw_decided w); [done|].
    destruct (send_decision p "cancel" h) as [h'|] eqn:Hs; [by eapply send_decision_inv|done].
Qed.

Lemma hub_run_inv ops h : hub_inv h → hub_inv (hub_run ops h).
Proof. revert h. induction ops as [|op ops IH]; intros h Hh; [done|]. by apply IH, hub_exec_inv. Qed.

(** No call on the live hub blocks while it holds the mutex, and no event is sent
    on a closed channel.  Whatever sections ran in whatever order, deciding, choosing a
    candidate and cancelling find room in the waiter's channel, every channel of a
    subscription is open, and no subscriber's channel holds more than its capacity. *)
Theorem hub_never_blocks ops :
  let h := hub_run ops NewHub in
  (∀ job d, is_Some (Decide job d h)) ∧ (∀ job id, is_Some (ChoosePairing job id h)) ∧
  (∀ job, is_Some (Hub_cancel_decision job h)) ∧
  (∀ job subs ch, h_subscribers h !! job = Some subs → ch ∈ subs →
    ∃ sub, h_channels h !! ch = Some sub ∧ sub_job sub = job ∧ sub_closed sub = false ∧
      (List.length (sub_queue sub) <= subscriber_capacity)%nat).
Proof.
  intros h. assert (Hh : hub_inv h) by apply hub_run_inv, NewHub_inv. clearbody h.
  assert (Hsend : ∀ job p w d, h_decisions h !! job = Some p → h_decision_waiters h !! p = Some w →
    dw_decided w = false → is_Some (send_decision p d h)).
  { intros job p w d _ Hp Hw. unfold send_decision. rewrite Hp. destruct (hi_decision_heap _ Hh p w Hp) as [_ ->]; done. }
  split_and!.
  - intros job d. unfold Decide. destruct (h_decisions h !! job) as [p|] eqn:Hj; [|done].
    destruct (hi_decision_table _ Hh job p Hj) as [w Hp]. rewrite Hp. destruct (dw_decided w) eqn:Hd; [done|].
    destruct (Hsend job p w d Hj Hp Hd) as [h' ->]. done.
  - intros job id. unfold ChoosePairing. destruct (h_pairings h !! job) as [p|] eqn:Hj; [|done].
    destruct (hi_pairing_table _ Hh job p Hj) as [w Hp]. rewrite Hp. destruct (pw_selected w) eqn:Hd; [done|].
    destruct (pw_candidates w !! id); [|done]. destruct (hi_pairing_heap _ Hh p w Hp) as (_ & Hch & _).
    rewrite (Hch Hd). done.
  - intros job. unfold Hub_cancel_decision. destruct (h_decisions h !! job) as [p|] eqn:Hj; [|done].
    destruct (hi_decision_table _ Hh job p Hj) as [w Hp]. rewrite Hp. destruct (dw_decided w) eqn:Hd; [done|].
    by eapply Hsend.
  - intros job subs ch Hs Hc. destruct (hi_channel_table _ Hh job subs ch Hs Hc) as (sub & Hsub & Hj & Ho).
    exists sub. split_and!; [done..|]. by apply (hi_channel_heap _ Hh) in Hsub as [_ ?].
Qed.

(** ** The first decision *)

(** The waiter has its decision: its channel holds that one or nothing. *)
Definition decided_as (p : nat) (d : string) (h : Hub) : Prop :=
  ∃ w, h_decision_waiters h !! p = Some w ∧ dw_decided w = true ∧ (dw_ch w = Some d ∨ dw_ch w = None).

Lemma decided_other p d q w h : q ≠ p → decided_as p d h → decided_as p d (set_decision_waiters (<[q := w]>) h).
Proof. intros Hne (x & Hx & Hd). exists x. split; [|done]. simpl. by rewrite lookup_insert_ne. Qed.
Lemma decided_send p d q d' w h :
  decided_as p d h → h_decision_waiters h !! q = Some w → dw_decided w = false →
  decided_as p d (set_decision_waiters (<[q := MkDecisionWaiter (Some d') true]>) h).
Proof. intros Hdec Hq Hf. apply decided_other; [|done]. intros ->. destruct Hdec as (x & Hx & Hd & _). congruence. Qed.

Lemma decided_exec p d op h : hub_inv h → decided_as p d h → decided_as p d (hub_exec op h).
Proof.
  intros Hh Hdec. destruct op; simpl; try exact Hdec.
  - unfold Subscribe, activeOTPLocked. simpl. destruct (h_otps h !! jobID); [destruct (_ && _)|]; exact Hdec.
  - unfold Unsubscribe. destruct (h_subscribers h !! jobID); [|done]. repeat case_bool_decide; exact Hdec.
  - unfold expireOTP. destruct (h_otps h !! jobID); [|done]. destruct (otp_is _ _ _); exact Hdec.
  - unfold OTP, activeOTPLocked. destruct (h_otps h !! jobID); [|done]. destruct (_ && _); exact Hdec.
  - unfold BeginDecision. destruct (h_decisions h !! jobID); [done|]. destruct Hdec as (w & Hw & Hd).
    exists w. split; [|done]. simpl. rewrite lookup_insert_ne; [done|]. intros <-.
    apply (hi_decision_heap _ Hh) in Hw as [? _]. lia.
  - unfold Decide. destruct (h_decisions h !! jobID) as [q|]; [|done].
    destruct (h_decision_waiters h !! q) as [w|] eqn:Hq; [|done]. destruct (dw_decided w) eqn:Hf; [done|].
    destruct (send_decision q decision h) as [h'|] eqn:Hs; [|done]. simpl.
    apply send_decision_spec in Hs as (w' & Hw' & ->). exact (decided_send p d q _ w h Hdec Hq Hf).
  - unfold WaitDecision_take. destruct (h_decision_waiters h !! p0) as [w|] eqn:Hq; [|done]. simpl.
    destruct (dw_ch w) as [x|] eqn:Hx; [|done]. simpl. destruct (decide (p0 = p)) as [->|Hne]; [|exact (decided_other p d p0 _ h Hne Hdec)].
    destruct Hdec as (w' & Hw' & Hd & _). exists (MkDecisionWaiter None (dw_decided w)). simpl.
    rewrite lookup_insert_eq. split; [done|]. split; [congruence|by right].
  - unfold Hub_set_pairing. destruct (h_pairings h !! jobID); exact Hdec.
  - unfold ChoosePairing. destruct (h_pairings h !! jobID) as [q|]; [|done].
    destruct (h_pairing_waiters h !! q) as [w|]; [|done]. destruct (pw_selected w); [done|].
    destruct (pw_candidates w !! messageID); [|done]. destruct (pw_ch w); exact Hdec.
  - unfold WaitPairing_take. destruct (h_pairing_waiters h !! p0) as [w|]; [|done]. simpl. destruct (pw_ch w); exact Hdec.
  - unfold Hub_cancel_decision. destruct (h_decisions h !! jobID) as [q|]; [|done].
    destruct (h_decision_waiters h !! q) as [w|] eqn:Hq; [|done]. destruct (dw_decided w) eqn:Hf; [done|].
    destruct (send_decision q "cancel" h) as [h'|] eqn:Hs; [|done].
    apply send_decision_spec in Hs as (w' & Hw' & ->). exact (decided_send p d q _ w h Hdec Hq Hf).
Qed.

Lemma decided_run p d ops h : hub_inv h → decided_as p d h → decided_as p d (hub_run ops h).
Proof.
  revert h. induction ops as [|op ops IH]; intros h Hh Hd; [done|].
  apply IH; [by apply hub_exec_inv|by apply decided_exec].
Qed.

(** The first live decision stands.  Once a decision was accepted for a job, whatever
    runs afterwards, the waiter of that job can only ever receive that decision, and as
    long as it is the job's waiter every further decision is refused and changes
    nothing. *)
Theorem first_live_decision_stands pre job d h' ops :
  let h := hub_run pre NewHub in
  Decide job d h = Some (h', Ok tt) →
  ∃ p, h_decisions h !! job = Some p ∧
    let later := hub_run ops h' in
    (∀ h'' d'', WaitDecision_take p later = Some (h'', d'') → d'' = d) ∧
    (h_decisions later !! job = Some p → ∀ d',
      Decide job d' later = Some (later, Err (Sentinel ErrDecisionAlreadySet))).
Proof.
  intros h Hdec. assert (Hh : hub_inv h) by apply hub_run_inv, NewHub_inv. clearbody h.
  assert (Hh' : hub_inv h').
  { pose proof (hub_exec_inv (HDecide job d) h Hh) as Hi. simpl in Hi. by rewrite Hdec in Hi. }
  unfold Decide in Hdec. destruct (h_decisions h !! job) as [p|]; [|done].
  destruct (h_decision_waiters h !! p) as [w|] eqn:Hp; [|done]. destruct (dw_decided w) eqn:Hf; [done|].
  destruct (send_decision p d h) as [h1|] eqn:Hs; [|done]. injection Hdec as ->.
  apply send_decision_spec in Hs as (w' & _ & Heq). exists p. split; [done|]. cbv zeta.
  assert (Hlater : decided_as p d (hub_run ops h')).
  { apply decided_run; [done|]. subst h'. exists (MkDecisionWaiter (Some d) true). simpl. rewrite lookup_insert_eq. auto. }
  destruct Hlater as (x & Hx & Hxd & Hch). split.
  - intros h'' d''. unfold WaitDecision_take. rewrite Hx. simpl. destruct Hch as [->| ->]; [|done].
    simpl. by intros [= _ <-].
  - intros Hj d'. unfold Decide. by rewrite Hj, Hx, Hxd.
Qed.

(** ** Active codes *)

Lemma exec_otps op h job o :
  h_otps (hub_exec op h) !! job = Some o →
  op = HSetOTP job (OCode o) (OExpiresAt o) ∨
  h_otps h !! job = Some o ∧ op ≠ HClearOTP job ∧ ∀ c e, op ≠ HSetOTP job c e.
Proof.
  assert (Hdel : ∀ j (m : gmap string OTPState), delete j m !! job = Some o → m !! job = Some o ∧ j ≠ job)
    by (intros j m [? ?]%lookup_delete_Some; done).
  assert (Hact : ∀ j now x, h_otps (activeOTPLocked j now x).1 !! job = Some o → h_otps x !! job = Some o).
  { intros j now x. unfold activeOTPLocked. destruct (h_otps x !! j); [|done]. destruct (_ && _); [|done].
    simpl. by intros [? _]%Hdel. }
  destruct op; simpl; try (by right).
  - intros Ho. right. split; [|done]. unfold Subscribe in Ho. cbv zeta in Ho.
    destruct (activeOTPLocked jobID now _) as [h2 x] eqn:Ha. simpl in Ho.
    apply (Hact jobID now (bump_next (set_subscribers (partial_alter (λ o0, Some ({[h_next h]} ∪ default ∅ o0)) jobID) h))).
    by rewrite Ha.
  - unfold Unsubscribe. destruct (h_subscribers h !! jobID); [|by right]. repeat case_bool_decide; by right.
  - unfold Hub_set_otp. simpl. rewrite lookup_insert_Some. intros [[-> <-]|[Hne Ho]]; [by left|].
    right. split_and!; [done|done|]. intros c e [= -> _ _]. done.
  - unfold expireOTP. destruct (h_otps h !! jobID); [|by right]. destruct (otp_is _ _ _); [|by right]. simpl.
    intros [? _]%Hdel. by right.
  - intros Ho. right. split; [|done]. by eapply Hact.
  - intros [? Hne]%Hdel. right. split_and!; [done| |done]. by intros [= ->].
  - unfold BeginDecision. destruct (h_decisions h !! jobID); by right.
  - unfold Decide. destruct (h_decisions h !! jobID) as [q|]; [|by right].
    destruct (h_decision_waiters h !! q) as [w|]; [|by right]. destruct (dw_decided w); [by right|].
    destruct (send_decision q decision h) as [h'|] eqn:Hs; [|by right]. simpl.
    apply send_decision_spec in Hs as (? & _ & ->). by right.
  - unfold WaitDecision_take. destruct (h_decision_waiters h !! p) as [w|]; [|by right]. simpl.
    destruct (dw_ch w); by right.
  - unfold Hub_set_pairing. destruct (h_pairings h !! jobID); by right.
  - unfold ChoosePairing. destruct (h_pairings h !! jobID) as [q|]; [|by right].
    destruct (h_pairing_waiters h !! q) as [w|]; [|by right]. destruct (pw_selected w); [by right|].
    destruct (pw_candidates w !! messageID); [|by right]. destruct (pw_ch w); by right.
  - unfold WaitPairing_take. destruct (h_pairing_waiters h !! p) as [w|]; [|by right]. simpl.
    destruct (pw_ch w); by right.
  - unfold Hub_cancel_decision. destruct (h_decisions h !! jobID) as [q|]; [|by right].
    destruct (h_decision_waiters h !! q) as [w|]; [|by right]. destruct (dw_decided w); [by right|].
    destruct (send_decision q "cancel" h) as [h'|] eqn:Hs; [|by right].
    apply send_decision_spec in Hs as (? & _ & ->). by right.
Qed.

Lemma hub_run_snoc ops op h : hub_run (ops ++ [op]) h = hub_exec op (hub_run ops h).
Proof. unfold hub_run. by rewrite foldl_app. Qed.

(** A code is shown only while it is active.  A code the hub reports for a job was
    set for that job, has not been cleared or replaced since, and has not expired. *)
Theorem live_code_is_current ops job now h' otp :
  OTP job now (hub_run ops NewHub) = (h', Some otp) →
  (IsZero (OExpiresAt otp) = true ∨ now < OExpiresAt otp) ∧
  ∃ before after, ops = (before ++ HSetOTP job (OCode otp) (OExpiresAt otp) :: after)%list ∧
    HClearOTP job ∉ after ∧ ∀ c e, HSetOTP job c e ∉ after.
Proof.
  unfold OTP, activeOTPLocked. destruct (h_otps (hub_run ops NewHub) !! job) as [o|] eqn:Ho; [|done].
  destruct (_ && _) eqn:Hexp; [done|]. intros [= _ <-]. split.
  { apply andb_false_iff in Hexp as [Hz|Hb]; [left; by apply negb_false_iff|].
    right. apply negb_false_iff, Z.ltb_lt in Hb. done. }
  clear Hexp. revert o Ho. induction ops as [|op ops IH] using rev_ind; intros o Ho; [done|].
  rewrite hub_run_snoc in Ho. apply exec_otps in Ho as [->|(Ho & Hclear & Hset)].
  - exists ops, []. split; [done|]. split; [apply not_elem_of_nil|]. intros c e. apply not_elem_of_nil.
  - destruct (IH o Ho) as (before & after & -> & Hc & Hs). exists before, (after ++ [op])%list.
    split; [by rewrite <- app_assoc|]. split.
    + rewrite elem_of_app, list_elem_of_singleton. naive_solver.
    + intros c e. rewrite elem_of_app, list_elem_of_singleton. specialize (Hset c e). specialize (Hs c e). naive_solver.
Qed.

(** ** Witnesses *)

Lemma first_live_decision_stands_witness :
  ∃ h', Decide "7" "approve" (hub_run [HBeginDecision "7"] NewHub) = Some (h', Ok tt) ∧
    Decide "7" "cancel" h' = Some (h', Err (Sentinel ErrDecisionAlreadySet)).
Proof.
  destruct (Decide "7" "approve" (hub_run [HBeginDecision "7"] NewHub)) as [[h' [[]|e]]|] eqn:Hd;
    try (vm_compute in Hd; discriminate Hd).
  exists h'. split; [reflexivity|].
  destruct (first_live_decision_stands [HBeginDecision "7"] "7" "approve" h' [] Hd) as (p & Hp & _ & Hagain).
  apply Hagain. change (hub_run [] h') with h'.
  assert (Htab : h_decisions h' !! "7" = h_decisions (hub_run [HBeginDecision "7"] NewHub) !! "7").
  { vm_compute in Hd. injection Hd as <-. vm_compute. reflexivity. }
  rewrite Htab. exact Hp.
Defined.

Lemma live_code_is_current_witness :
  ∃ h' otp, OTP "7" 500 (hub_run [HSetOTP "7" "4821" 1000; HPublish "7" (live_otp_active "4821")] NewHub) = (h', Some otp) ∧
    500 < OExpiresAt otp.
Proof.
  destruct (OTP "7" 500 (hub_run [HSetOTP "7" "4821" 1000; HPublish "7" (live_otp_active "4821")] NewHub))
    as [h' [otp|]] eqn:Ho; [|vm_compute in Ho; discriminate Ho].
  exists h', otp. split; [reflexivity|].
  destruct (live_code_is_current _ _ _ _ _ Ho) as [[Hz|Hlt] _]; [|exact Hlt].
  assert (He : OExpiresAt otp = 1000) by (vm_compute in Ho; by injection Ho as _ <-). rewrite He in Hz. discriminate Hz.
Defined.
