(* ===== verification/ActionProc.v ===== *)
(** * The boundary of the action process (src/internal/actionproc/process.go)

    The frames exchanged with the browser action, the environment it starts with and
    what of its diagnostics is passed on.  Pipes, signals and waiting are not modelled. *)

From S2P Require Import Prelude GoStrings Json.
From Stdlib Require Import Ascii String.

Open Scope Z_scope.

Definition ProtocolVersion : Z := 2.
Definition MaxFrameBytes : Z := 64 * 1024.
Definition maxStderrLineBytes : Z := 4 * 1024.
Definition maxStderrTotalBytes : Z := 256 * 1024.
Definition maxStderrLines : Z := 2 * 1024.
Definition stderrSuppressedLine : string := "action stderr limit reached; further child diagnostics suppressed".
Definition stderrOversizedLine : string := "oversized action stderr line discarded to protect sensitive values".

Definition inheritedEnvironmentKeys : list string :=
  ["HOME"; "LANG"; "LC_ALL"; "LC_CTYPE"; "PATH"; "PLAYWRIGHT_BROWSERS_PATH"; "SSL_CERT_DIR"; "SSL_CERT_FILE";
   "TMPDIR"; "TZ"; "XDG_CACHE_HOME"].
Definition allowedEnvironmentOverrides : list string :=
  ["LAKE_PASS_BROWSER_EXECUTABLE"; "LAKE_PASS_ACTIONPROC_HELPER"; "LAKE_PASS_ACTION_LOG_LEVEL";
   "PYTHONDONTWRITEBYTECODE"; "PYTHONUNBUFFERED"].

(** ** Numbers decoded as float64 *)

(** A JSON number as [m * 10 ^ e]. *)
Definition decimal (text : string) : Z * Z :=
  let '(sign, s) := optional_sign "-" text in
  let '(int, r) := span_digits s in
  let '(frac, r2) := match r with String "." r' => span_digits r' | _ => ("", r) end in
  let e := match r2 with
           | String _ r3 =>
               let '(sg, d) := optional_sign "+-" r3 in
               let v := default 0 (parse_digits d) in if String.eqb sg "-" then - v else v
           | EmptyString => 0
           end in
  let m := default 0 (parse_digits (int +:+ frac)) in
  ((if String.eqb sign "-" then - m else m), e - len frac).
(** [a * 10 ^ max(0, -e) <= m * 10 ^ max(0, e) * b], the comparison of [a / b] with the number. *)
Definition ratio_le (a b m e : Z) : bool := a * 10 ^ Z.max 0 (- e) <=? m * 10 ^ Z.max 0 e * b.
Definition ratio_ge (a b m e : Z) : bool := m * 10 ^ Z.max 0 e * b <=? a * 10 ^ Z.max 0 (- e).
(** The float64 nearest to the number is 2: it lies between 2 - 2^-53 and 2 + 2^-52. *)
Definition float_is_two (text : string) : bool :=
  let '(m, e) := decimal text in
  ratio_le (2 ^ 54 - 1) (2 ^ 53) m e && ratio_ge (2 ^ 54 + 2) (2 ^ 53) m e.
(** The number rounds to no finite float64, which [encoding/json] reports as an error. *)
Definition float_overflows (text : string) : bool :=
  let '(m, e) := decimal text in ratio_le (2 ^ 1024 - 2 ^ 970) 1 (Z.abs m) e.

Fixpoint has_overflow (v : json) : bool :=
  match v with
  | JNumber t => float_overflows t
  | JArray l => existsb has_overflow l
  | JObject fields =>
      (fix go l := match l with [] => false | (_, w) :: l' => has_overflow w || go l' end) fields
  | _ => false
  end.
Fixpoint depth (v : json) : nat :=
  match v with
  | JArray l => S (fold_right (λ w n, Nat.max (depth w) n) O l)
  | JObject fields => S ((fix go l := match l with [] => O | (_, w) :: l' => Nat.max (depth w) (go l') end) fields)
  | _ => O
  end.
Definition maxNestingDepth : nat := Z.to_nat 10000.

(** ** Frames *)

(** The payload is the whole decoded object; [field] looks a key up. *)
Record Frame := MkFrame { FVersion : Z; FType : string; FPayload : list (string * json) }.

Definition malformed (what : string) : error := Wrap what (Sentinel ErrMalformedFrame).
Definition decodeFrame (raw : string) : result Frame :=
  _ ← reject (MaxFrameBytes <? len raw) (Sentinel ErrFrameTooLarge);
  payload ←
    match Unmarshal raw with
    | Some v =>
        if has_overflow v || (maxNestingDepth <? depth v)%nat then Err (malformed ": invalid JSON")
        else match v with
             | JObject fields => Ok fields
             | JNull => Ok []
             | _ => Err (malformed ": invalid JSON")
             end
    | None => Err (malformed ": invalid JSON")
    end;
  _ ← reject (negb match field "v" payload with Some (JNumber t) => float_is_two t | _ => false end)
        (Sentinel ErrUnsupportedVersion);
  match field "type" payload with
  | Some (JString kind) =>
      if blank kind then Err (malformed ": missing type") else Ok (MkFrame ProtocolVersion kind payload)
  | _ => Err (malformed ": missing type")
  end.

(** [Send] up to the write: the line that is written. *)
Definition reserved_key (k : string) : bool := String.eqb k "v" || String.eqb k "type".
Definition encodeFrame (kind : string) (payload : list (string * json)) : result string :=
  _ ← reject (blank kind) (Errorf "action frame type is required");
  let frame := (filter (λ kv, reserved_key kv.1 = false) payload
                ++ [("v", JNumber (format_int ProtocolVersion)); ("type", JString kind)])%list in
  let raw := Marshal (JObject frame) in
  _ ← reject (MaxFrameBytes <? len raw + 1) (Sentinel ErrFrameTooLarge);
  Ok (raw +:+ bytes [10]%nat).

(** ** The environment *)

Definition override_entry (values : gmap string string) (entry : string) : result (gmap string string) :=
  match cut "=" entry with
  | None => Err (Errorf "invalid action environment override")
  | Some (key, value) =>
      _ ← reject (String.eqb key "" || any_byte (Ascii.eqb zero) value) (Errorf "invalid action environment override");
      _ ← reject (negb (bool_decide (key ∈ allowedEnvironmentOverrides)))
            (Errorf ("action environment override " +:+ quoted key +:+ " is not allowed"));
      Ok (<[key := value]> values)
  end.
Fixpoint apply_overrides (values : gmap string string) (overrides : list string) : result (gmap string string) :=
  match overrides with
  | [] => Ok values
  | entry :: rest => values' ← override_entry values entry; apply_overrides values' rest
  end.
Definition inherited (lookup_env : string → option string) : gmap string string :=
  foldl (λ m key, match lookup_env key with Some v => <[key := v]> m | None => m end) ∅ inheritedEnvironmentKeys.

(** The bindings in the order of their keys. *)
Definition key_order (a b : string * string) : Prop := String.leb a.1 b.1 = true.
#[global] Instance key_order_dec : RelDecision key_order.
Proof. intros a b. apply bool_eq_dec. Defined.
Definition childEnvironment (lookup_env : string → option string) (overrides : list string) : result (list string) :=
  values ← apply_overrides (inherited lookup_env) overrides;
  Ok ((λ kv, kv.1 +:+ "=" +:+ kv.2) <$> merge_sort key_order (map_to_list values)).

(** ** Diagnostics *)

Record drain := MkDrain { dr_bytes : Z; dr_lines : Z; dr_suppressed : bool; dr_oversized : bool }.

(** One scanned line of standard error: the line passed to the callback, if any. *)
Definition drain_line (line0 : string) (d : drain) : drain * option string :=
  let bytes := dr_bytes d + len line0 + 1 in
  let lines := dr_lines d + 1 in
  if (maxStderrTotalBytes <? bytes) || (maxStderrLines <? lines) then
    (MkDrain bytes lines true (dr_oversized d), if dr_suppressed d then None else Some stderrSuppressedLine)
  else
    let line := trim_space line0 in
    if maxStderrLineBytes <? len line then
      (MkDrain bytes lines (dr_suppressed d) true, if dr_oversized d then None else Some stderrOversizedLine)
    else (MkDrain bytes lines (dr_suppressed d) (dr_oversized d), if String.eqb line "" then None else Some line).
Fixpoint drain_lines (lines : list string) (d : drain) : drain * list string :=
  match lines with
  | [] => (d, [])
  | line :: rest =>
      let '(d', out) := drain_line line d in
      let '(d'', outs) := drain_lines rest d' in
      (d'', match out with Some l => l :: outs | None => outs end)
  end.
(** [drainStderr] over the lines the scanner yields; [failed] when it then stops on an
    oversized token or a read error. *)
Definition drainStderr (lines : list string) (failed : bool) : list string :=
  let '(d, outs) := drain_lines lines (MkDrain 0 0 false false) in
  if failed && negb (dr_suppressed d)
  then (outs ++ ["action stderr line exceeded the safety limit; remaining diagnostics suppressed"%string])%list
  else outs.

Example decode_examples :
  decodeFrame (bytes [123; 34; 118; 34; 58; 50; 46; 48; 44; 34; 116; 121; 112; 101; 34; 58; 34; 104; 34; 125]%nat)
    = Ok (MkFrame 2 "h" [("v", JNumber "2.0"); ("type", JString "h")])
  ∧ float_is_two "2e0" = true ∧ float_is_two "20e-1" = true ∧ float_is_two "3" = false ∧ float_is_two "-2" = false
  ∧ float_overflows "1e309" = true ∧ float_overflows "1.7e308" = false.
Proof. repeat split; vm_compute; reflexivity. Qed.
