(* ===== verification/ActionSession.v ===== *)
(** * The life of an action process (src/internal/actionproc: process.go, process_unix.go)

    A session runs one process in a group of its own, with a goroutine that reads its
    frames, one that drains its diagnostics, one that waits for it, and the kill timer of a
    cancellation.  They and the process interleave freely: the session is a step relation,
    and each rule is what one of them does between two waits on a channel or a pipe. *)

From S2P Require Import Prelude GoStrings Json ActionProc.
From Stdlib Require Import Ascii String.

Open Scope Z_scope.

(** ** State *)

(** What the scanner finds on standard output: a line, or more bytes than a frame may have. *)
Inductive token := Line (raw : string) | TooLong.
Record Result := MkResult { ExitCode : Z; ResultErr : option error }.
(** [readFrames]: scanning, holding a frame the channel has no room for, or finished. *)
Inductive reader := Scanning | Delivering (frame : Frame) | ReadDone (err : option error).
(** [wait]: for the readers; the process was reaped; its group was killed; its input was
    closed; done. *)
Inductive waiter :=
  | WaitingOutput | Reaped (code : Z) (err : option error) | Swept (code : Z) (err : option error)
  | Unplugged (code : Z) (err : option error) | WaitDone.
(** [Cancel]: not called, the grace period runs, over. *)
Inductive cancellation := NotCancelled | Grace | GraceOver.

Record session := MkSession {
  ss_output : list token;         (* written and not yet scanned *)
  ss_stdout : bool; ss_stderr : bool;   (* some process holds the pipe open *)
  ss_exit : option Z;             (* the exit code of the process *)
  ss_reader : reader;
  ss_events : list Frame;         (* in the channel *)
  ss_drained : bool;
  ss_waiter : waiter;
  ss_killed : bool;
  ss_ended : bool;
  ss_cancel : cancellation;
  ss_result : option Result;      (* sent on [done] *)
  ss_stdin : list string; ss_stdin_open : bool;
  (* history; the last counts the signals that kill the group *)
  ss_written : list token; ss_received : list Frame; ss_signals : nat }.

Definition eventCapacity : nat := 128.
(** [Start], once the process runs. *)
Definition started : session :=
  MkSession [] true true None Scanning [] false WaitingOutput false false NotCancelled None [] true [] [] 0.

Definition set_output o s : session :=
  MkSession o (ss_stdout s) (ss_stderr s) (ss_exit s) (ss_reader s) (ss_events s) (ss_drained s)
      (ss_waiter s) (ss_killed s) (ss_ended s) (ss_cancel s) (ss_result s) (ss_stdin s)
      (ss_stdin_open s) (ss_written s) (ss_received s) (ss_signals s).
Definition set_reader r s : session :=
  MkSession (ss_output s) (ss_stdout s) (ss_stderr s) (ss_exit s) r (ss_events s) (ss_drained s)
      (ss_waiter s) (ss_killed s) (ss_ended s) (ss_cancel s) (ss_result s) (ss_stdin s)
      (ss_stdin_open s) (ss_written s) (ss_received s) (ss_signals s).
Definition set_events e s : session :=
  MkSession (ss_output s) (ss_stdout s) (ss_stderr s) (ss_exit s) (ss_reader s) e (ss_drained s)
      (ss_waiter s) (ss_killed s) (ss_ended s) (ss_cancel s) (ss_result s) (ss_stdin s)
      (ss_stdin_open s) (ss_written s) (ss_received s) (ss_signals s).
Definition set_waiter w s : session :=
  MkSession (ss_output s) (ss_stdout s) (ss_stderr s) (ss_exit s) (ss_reader s) (ss_events s)
      (ss_drained s) w (ss_killed s) (ss_ended s) (ss_cancel s) (ss_result s) (ss_stdin s)
      (ss_stdin_open s) (ss_written s) (ss_received s) (ss_signals s).
Definition set_cancel c s : session :=
  MkSession (ss_output s) (ss_stdout s) (ss_stderr s) (ss_exit s) (ss_reader s) (ss_events s)
      (ss_drained s) (ss_waiter s) (ss_killed s) (ss_ended s) c (ss_result s) (ss_stdin s)
      (ss_stdin_open s) (ss_written s) (ss_received s) (ss_signals s).
Definition write_stdin line s : session :=
  MkSession (ss_output s) (ss_stdout s) (ss_stderr s) (ss_exit s) (ss_reader s) (ss_events s)
      (ss_drained s) (ss_waiter s) (ss_killed s) (ss_ended s) (ss_cancel s) (ss_result s)
      (app (ss_stdin s) [line]) (ss_stdin_open s) (ss_written s) (ss_received s) (ss_signals s).
Definition close_stdin s : session :=
  MkSession (ss_output s) (ss_stdout s) (ss_stderr s) (ss_exit s) (ss_reader s) (ss_events s)
      (ss_drained s) (ss_waiter s) (ss_killed s) (ss_ended s) (ss_cancel s) (ss_result s)
      (ss_stdin s) false (ss_written s) (ss_received s) (ss_signals s).
Definition child_write t s : session :=
  MkSession (app (ss_output s) [t]) (ss_stdout s) (ss_stderr s) (ss_exit s) (ss_reader s)
      (ss_events s) (ss_drained s) (ss_waiter s) (ss_killed s) (ss_ended s) (ss_cancel s)
      (ss_result s) (ss_stdin s) (ss_stdin_open s) (app (ss_written s) [t]) (ss_received s)
      (ss_signals s).
Definition child_exit code s : session :=
  MkSession (ss_output s) (ss_stdout s) (ss_stderr s) (Some code) (ss_reader s) (ss_events s)
      (ss_drained s) (ss_waiter s) (ss_killed s) (ss_ended s) (ss_cancel s) (ss_result s)
      (ss_stdin s) (ss_stdin_open s) (ss_written s) (ss_received s) (ss_signals s).
Definition stdout_close s : session :=
  MkSession (ss_output s) false (ss_stderr s) (ss_exit s) (ss_reader s) (ss_events s)
      (ss_drained s) (ss_waiter s) (ss_killed s) (ss_ended s) (ss_cancel s) (ss_result s)
      (ss_stdin s) (ss_stdin_open s) (ss_written s) (ss_received s) (ss_signals s).
Definition stderr_close s : session :=
  MkSession (ss_output s) (ss_stdout s) false (ss_exit s) (ss_reader s) (ss_events s)
      (ss_drained s) (ss_waiter s) (ss_killed s) (ss_ended s) (ss_cancel s) (ss_result s)
      (ss_stdin s) (ss_stdin_open s) (ss_written s) (ss_received s) (ss_signals s).
Definition drain_done s : session :=
  MkSession (ss_output s) (ss_stdout s) (ss_stderr s) (ss_exit s) (ss_reader s) (ss_events s) true
      (ss_waiter s) (ss_killed s) (ss_ended s) (ss_cancel s) (ss_result s) (ss_stdin s)
      (ss_stdin_open s) (ss_written s) (ss_received s) (ss_signals s).
Definition receive f rest s : session :=
  MkSession (ss_output s) (ss_stdout s) (ss_stderr s) (ss_exit s) (ss_reader s) rest
      (ss_drained s) (ss_waiter s) (ss_killed s) (ss_ended s) (ss_cancel s) (ss_result s)
      (ss_stdin s) (ss_stdin_open s) (ss_written s) (app (ss_received s) [f]) (ss_signals s).
(** [killProcessGroup]; what the signal does to the group is the kernel's. *)
Definition killProcessGroup s : session :=
  MkSession (ss_output s) (ss_stdout s) (ss_stderr s) (ss_exit s) (ss_reader s) (ss_events s)
      (ss_drained s) (ss_waiter s) (ss_killed s) (ss_ended s) (ss_cancel s) (ss_result s)
      (ss_stdin s) (ss_stdin_open s) (ss_written s) (ss_received s) (S (ss_signals s)).
Definition mark_killed s : session :=
  MkSession (ss_output s) (ss_stdout s) (ss_stderr s) (ss_exit s) (ss_reader s) (ss_events s)
      (ss_drained s) (ss_waiter s) true (ss_ended s) (ss_cancel s) (ss_result s) (ss_stdin s)
      (ss_stdin_open s) (ss_written s) (ss_received s) (ss_signals s).
(** [forceKill]: once, and not after the end. *)
Definition forceKill s : session := if ss_ended s || ss_killed s then s else mark_killed (killProcessGroup s).
(** The end of [wait]: the channel [ended] is closed and the result sent. *)
Definition close_session result s : session :=
  MkSession (ss_output s) (ss_stdout s) (ss_stderr s) (ss_exit s) (ss_reader s) (ss_events s)
      (ss_drained s) WaitDone (ss_killed s) true (ss_cancel s) (Some result) (ss_stdin s)
      (ss_stdin_open s) (ss_written s) (ss_received s) (ss_signals s).

(** ** Steps *)

(** The error of [cmd.Wait]: an exit code other than zero, of which a signal is -1. *)
Definition process_error (code : Z) : option error :=
  if code =? 0 then None else Some (Errorf ("exit status " +:+ format_int code)).
Definition result_error (protocol process : option error) : option error :=
  match protocol with Some e => Some e | None => process end.
(** [Send] up to the write. *)
Definition prepare_send (kind : string) (payload : list (string * json)) (s : session) : result string :=
  _ ← reject (blank kind) (Errorf "action frame type is required");
  _ ← reject (ss_ended s) (Sentinel ErrProcessAlreadyEnded);
  encodeFrame kind payload.
(** [Cancel]: the kill timer starts on the first call; the message to the process is sent
    beside it, by a [Send] of its own. *)
Definition Cancel (s : session) : session :=
  match ss_cancel s with NotCancelled => set_cancel Grace s | _ => s end.

Inductive actor := Child | ReaderGo | DrainGo | WaitGo | TimerGo | Caller.
Inductive step : actor → session → session → Prop :=
  (* the process and what it started *)
  | child_writes s t : ss_stdout s = true → step Child s (child_write t s)
  | child_exits s code : ss_exit s = None → step Child s (child_exit code s)
  | stdout_closes s : step Child s (stdout_close s)
  | stderr_closes s : step Child s (stderr_close s)
  (* [readFrames] *)
  | frame_scanned s raw rest f :
      ss_reader s = Scanning → ss_output s = Line raw :: rest → decodeFrame raw = Ok f →
      step ReaderGo s (set_reader (Delivering f) (set_output rest s))
  | frame_refused s raw rest e :
      ss_reader s = Scanning → ss_output s = Line raw :: rest → decodeFrame raw = Err e →
      step ReaderGo s (set_reader (ReadDone (Some e)) (forceKill (set_output rest s)))
  | frame_too_long s rest :
      ss_reader s = Scanning → ss_output s = TooLong :: rest →
      step ReaderGo s (set_reader (ReadDone (Some (Sentinel ErrFrameTooLarge))) (forceKill (set_output rest s)))
  | read_fails s e :
      ss_reader s = Scanning → step ReaderGo s (set_reader (ReadDone (Some (Wrap "read action protocol" e))) s)
  | read_ends s :
      ss_reader s = Scanning → ss_output s = [] → ss_stdout s = false → step ReaderGo s (set_reader (ReadDone None) s)
  | frame_delivered s f :
      ss_reader s = Delivering f → (List.length (ss_events s) < eventCapacity)%nat →
      step ReaderGo s (set_reader Scanning (set_events (app (ss_events s) [f]) s))
  | frame_dropped s f :
      ss_reader s = Delivering f → ss_killed s = true → step ReaderGo s (set_reader (ReadDone None) s)
  (* [drainStderr] *)
  | diagnostics_end s : ss_stderr s = false → ss_drained s = false → step DrainGo s (drain_done s)
  | diagnostics_fail s : ss_drained s = false → step DrainGo s (drain_done s)
  (* [wait] *)
  | process_reaped s err code :
      ss_waiter s = WaitingOutput → ss_reader s = ReadDone err → ss_drained s = true → ss_exit s = Some code →
      step WaitGo s (set_waiter (Reaped code err) s)
  | group_swept s err code :
      ss_waiter s = Reaped code err → step WaitGo s (set_waiter (Swept code err) (killProcessGroup s))
  | stdin_closed s err code :
      ss_waiter s = Swept code err → step WaitGo s (set_waiter (Unplugged code err) (close_stdin s))
  | session_closed s err code :
      ss_waiter s = Unplugged code err →
      step WaitGo s (close_session (MkResult code (result_error err (process_error code))) s)
  (* the timer of [Cancel] *)
  | grace_ends s : ss_cancel s = Grace → step TimerGo s (set_cancel GraceOver (forceKill s))
  (* callers *)
  | frame_received s f rest : ss_events s = f :: rest → step Caller s (receive f rest s)
  | frame_sent s kind payload line :
      prepare_send kind payload s = Ok line → ss_stdin_open s = true → step Caller s (write_stdin line s)
  | cancelled s : step Caller s (Cancel s).

Definition any_step (s s' : session) : Prop := ∃ a, step a s s'.
Definition reachable_session (s : session) : Prop := rtc any_step started s.
(** Steps of the session's own goroutines: no caller takes part, and no process. *)
Definition own_step (s s' : session) : Prop := ∃ a, a ≠ Caller ∧ a ≠ Child ∧ step a s s'.

(** ** Invariant *)

Definition in_hand (r : reader) : list Frame := match r with Delivering f => [f] | _ => [] end.
Definition decodes (t : token) (f : Frame) : Prop := ∃ raw, t = Line raw ∧ decodeFrame raw = Ok f.
(** [consumed] is what was scanned and decoded, [left] the rest of what the process wrote. *)
Record frames_inv (s : session) (consumed : list token) (fs : list Frame) (left : list token) : Prop := {
  fi_written : ss_written s = app consumed left;
  fi_decoded : Forall2 decodes consumed fs;
  fi_prefix : app (ss_received s) (app (ss_events s) (in_hand (ss_reader s))) `prefix_of` fs;
  fi_reading : (∀ e, ss_reader s ≠ ReadDone e) →
    left = ss_output s ∧ app (ss_received s) (app (ss_events s) (in_hand (ss_reader s))) = fs;
  fi_all : ss_reader s = ReadDone None → ss_killed s = false →
    left = [] ∧ app (ss_received s) (ss_events s) = fs ∧ ss_stdout s = false
}.
(** How far [wait] is with a process that was reaped. *)
Definition reaped_as (w : waiter) : option (Z * option error) :=
  match w with Reaped code err | Swept code err | Unplugged code err => Some (code, err) | _ => None end.
Definition swept (w : waiter) : bool := match w with Swept _ _ | Unplugged _ _ | WaitDone => true | _ => false end.
Definition unplugged (w : waiter) : bool := match w with Unplugged _ _ | WaitDone => true | _ => false end.
Record session_inv (s : session) : Prop := {
  si_frames : ∃ consumed fs left, frames_inv s consumed fs left;
  si_reaped : ∀ code err, reaped_as (ss_waiter s) = Some (code, err) → ss_reader s = ReadDone err ∧ ss_exit s = Some code;
  si_result : ∀ r, ss_result s = Some r → ss_waiter s = WaitDone ∧ ∃ err, ss_reader s = ReadDone err
    ∧ ss_exit s = Some (ExitCode r) ∧ ResultErr r = result_error err (process_error (ExitCode r));
  si_ended : ss_ended s = is_some (ss_result s);
  si_done : ss_waiter s = WaitDone → ss_ended s = true;
  si_signals : ss_signals s = ((if ss_killed s then 1 else 0) + (if swept (ss_waiter s) then 1 else 0))%nat;
  si_stdin : ss_stdin_open s = negb (unplugged (ss_waiter s));
  si_grace : ss_cancel s = GraceOver → ss_killed s = true ∨ ss_ended s = true
}.

Lemma started_session_inv : session_inv started.
Proof. split; try done. exists [], [], []. by split. Qed.

Lemma frames_same s s' consumed fs left :
  ss_written s' = ss_written s → ss_received s' = ss_received s → ss_events s' = ss_events s → ss_reader s' = ss_reader s →
  ss_output s' = ss_output s → (ss_killed s' = false → ss_killed s = false) → (ss_stdout s = false → ss_stdout s' = false) →
  frames_inv s consumed fs left → frames_inv s' consumed fs left.
Proof.
  intros Hw Hr He Hrd Ho Hk Hop [F1 F2 F3 F4 F5]. split; rewrite ?Hw, ?Hr, ?He, ?Hrd, ?Ho; try done.
  intros H1 H2. destruct F5 as (? & ? & ?); auto.
Qed.
(** What [forceKill] changes: the mark and the number of signals. *)
Record killed_of (s s' : session) : Prop := {
  kf_written : ss_written s' = ss_written s; kf_received : ss_received s' = ss_received s; kf_events : ss_events s' = ss_events s;
  kf_reader : ss_reader s' = ss_reader s; kf_output : ss_output s' = ss_output s; kf_stdout : ss_stdout s' = ss_stdout s;
  kf_stderr : ss_stderr s' = ss_stderr s; kf_waiter : ss_waiter s' = ss_waiter s; kf_exit : ss_exit s' = ss_exit s;
  kf_result : ss_result s' = ss_result s; kf_ended : ss_ended s' = ss_ended s; kf_drained : ss_drained s' = ss_drained s;
  kf_cancel : ss_cancel s' = ss_cancel s; kf_stdin : ss_stdin_open s' = ss_stdin_open s;
  kf_killed : ss_killed s' = true ∨ ss_ended s = true; kf_before : ss_killed s' = false → ss_killed s = false;
  kf_signals : ∀ n, ss_signals s = ((if ss_killed s then 1 else 0) + n)%nat → ss_signals s' = ((if ss_killed s' then 1 else 0) + n)%nat
}.
Lemma forceKill_fields s : killed_of s (forceKill s).
Proof.
  unfold forceKill. destruct (ss_ended s) eqn:He, (ss_killed s) eqn:Hk; split; cbn; rewrite ?Hk; auto; try done; intros n ->; lia.
Qed.

(** *** The frames *)

Definition some_frames (s : session) : Prop := ∃ consumed fs left, frames_inv s consumed fs left.

Lemma some_frames_same s s' :
  ss_written s' = ss_written s → ss_received s' = ss_received s → ss_events s' = ss_events s → ss_reader s' = ss_reader s →
  ss_output s' = ss_output s → (ss_killed s' = false → ss_killed s = false) → (ss_stdout s = false → ss_stdout s' = false) →
  some_frames s → some_frames s'.
Proof. intros H1 H2 H3 H4 H5 H6 H7 (consumed & fs & left & F). exists consumed, fs, left. by eapply frames_same. Qed.
(** The reader stops early. *)
Lemma reader_stops s s' err :
  ss_written s' = ss_written s → ss_received s' = ss_received s → ss_events s' = ss_events s → ss_reader s' = ReadDone err →
  (err = None → ss_killed s' = true) → some_frames s → some_frames s'.
Proof.
  intros Hw Hr He Hrd Herr (consumed & fs & left & [F1 F2 F3 F4 F5]). exists consumed, fs, left.
  split; rewrite ?Hw, ?Hr, ?He, ?Hrd; try done.
  - cbn [in_hand]. rewrite app_nil_r. etrans; [|exact F3]. apply prefix_app. by apply prefix_app_r.
  - intros Hno. by destruct (Hno err).
  - intros [= ->] Hk. by rewrite Herr in Hk.
Qed.
Lemma child_write_frames s t : ss_stdout s = true → some_frames s → some_frames (child_write t s).
Proof.
  intros Hopen (consumed & fs & left & [F1 F2 F3 F4 F5]). exists consumed, fs, (app left [t]). split; cbn; try done.
  - by rewrite F1, app_assoc.
  - intros Hno. by destruct F4 as [-> F4].
  - intros Hrd Hk. destruct F5 as (_ & _ & Hclosed); [done|done|congruence].
Qed.
Lemma frames_step a s s' : step a s s' → some_frames s → some_frames s'.
Proof.
  intros Hstep HF. destruct Hstep.
  - by apply child_write_frames.
  - by apply (some_frames_same s).
  - by apply (some_frames_same s).
  - by apply (some_frames_same s).
  - destruct HF as (consumed & fs & left & [F1 F2 F3 F4 F5]). rewrite H in F3, F4, F5. destruct F4 as [-> F4]; [done|].
    exists (app consumed [Line raw]), (app fs [f]), rest. cbn [in_hand] in F4. rewrite app_nil_r in F4. split; cbn; try done.
    + by rewrite F1, H0, <- app_assoc.
    + apply Forall2_app; [done|]. constructor; [by exists raw|constructor].
    + by rewrite <- F4, app_assoc.
    + intros _. split; [done|]. by rewrite <- F4, app_assoc.
  - destruct (forceKill_fields (set_output rest s)). by apply (reader_stops s _ (Some e)).
  - destruct (forceKill_fields (set_output rest s)). by apply (reader_stops s _ (Some (Sentinel ErrFrameTooLarge))).
  - by apply (reader_stops s _ (Some (Wrap "read action protocol" e))).
  - destruct HF as (consumed & fs & left & [F1 F2 F3 F4 F5]). rewrite H in F3, F4. destruct F4 as [-> F4]; [done|].
    exists consumed, fs, []. cbn [in_hand] in F4. rewrite app_nil_r in F4. split; cbn; rewrite ?app_nil_r; try done.
    + by rewrite F1, H0, app_nil_r.
    + by rewrite <- F4.
  - destruct HF as (consumed & fs & left & [F1 F2 F3 F4 F5]). rewrite H in F3, F4. destruct F4 as [-> F4]; [done|].
    exists consumed, fs, (ss_output s). split; cbn; rewrite ?app_nil_r; try done.
  - by apply (reader_stops s _ None).
  - by apply (some_frames_same s).
  - by apply (some_frames_same s).
  - by apply (some_frames_same s).
  - by apply (some_frames_same s).
  - by apply (some_frames_same s).
  - by apply (some_frames_same s).
  - destruct (forceKill_fields s).
    apply (some_frames_same s); cbn; try done. congruence.
  - destruct HF as (consumed & fs & left & [F1 F2 F3 F4 F5]). exists consumed, fs, left. rewrite H in F3, F4, F5.
    split; cbn; rewrite <- ?app_assoc; try done.
  - by apply (some_frames_same s).
  - apply (some_frames_same s); unfold Cancel; by destruct (ss_cancel s).
Qed.

(** *** The rest *)

Lemma reader_is s e : ss_reader s = ReadDone e → ∀ r, ss_reader s = r → r = ReadDone e.
Proof. congruence. Qed.
Lemma stop_with_kill_inv s rest e :
  ss_reader s = Scanning → some_frames (set_reader (ReadDone e) (forceKill (set_output rest s))) →
  session_inv s → session_inv (set_reader (ReadDone e) (forceKill (set_output rest s))).
Proof.
  intros Hrd HF [_ Hreap Hres Hend Hdone Hsig Hin Hgrace].
  destruct (forceKill_fields (set_output rest s)) as [_ _ _ Fr _ _ _ Fw Fx Fres Fe _ Fc Fi Fk _ Fn]. cbn in *.
  split; cbn; rewrite ?Fw, ?Fx, ?Fres, ?Fe, ?Fc, ?Fi; auto.
  - intros c err Hw. destruct (Hreap c err Hw). congruence.
  - intros r Hr. destruct (Hres r Hr) as (_ & err & Hx & _). congruence.
Qed.
Lemma session_step_inv a s s' : step a s s' → session_inv s → session_inv s'.
Proof.
  intros Hstep Hs. pose proof (frames_step a s s' Hstep (si_frames s Hs)) as Hframes.
  pose proof Hs as [_ Hreap Hres Hend Hdone Hsig Hin Hgrace].
  assert (Hno_reap : ∀ c err, (∀ e, ss_reader s ≠ ReadDone e) → reaped_as (ss_waiter s) = Some (c, err) → False)
    by (intros c err Hrd Hw; destruct (Hreap c err Hw); by eapply Hrd).
  assert (Hno_result : ∀ r, (∀ e, ss_reader s ≠ ReadDone e) → ss_result s = Some r → False)
    by (intros r Hrd Hr; destruct (Hres r Hr) as (_ & err & ? & _); by eapply Hrd).
  assert (Hlater : ∀ r, ss_waiter s ≠ WaitDone → ss_result s = Some r → False)
    by (intros r Hw Hr; destruct (Hres r Hr) as (? & _); done).
  destruct Hstep as [| | | |? ? ? ? Hr|? ? ? ? Hr|? ? Hr|? ? Hr|? Hr|? ? Hr|? ? Hr| | |? ? ? Hw|? ? ? Hw|? ? ? Hw|? ? ? Hw| | | |];
    try (split; cbn; done);
    try (assert (Hrd : ∀ e, ss_reader s ≠ ReadDone e) by (intros e'; congruence); split; cbn; try done;
         [intros c err Hw; by destruct (Hno_reap c err)|intros r Hr'; by destruct (Hno_result r)]).
  - (* child_exits *) split; cbn; try done.
    + intros c err Hw. destruct (Hreap c err Hw). congruence.
    + intros r Hr. destruct (Hres r Hr) as (_ & err & _ & Hx & _). congruence.
  - (* frame_refused *) by apply stop_with_kill_inv.
  - (* frame_too_long *) by apply stop_with_kill_inv.
  - (* process_reaped *) rewrite Hw in Hsig, Hin. split; cbn; try done.
    + by intros c e [= <- <-].
    + intros r Hr. destruct (Hlater r); congruence.
  - (* group_swept *) rewrite Hw in Hreap, Hsig, Hin. split; cbn; try done.
    + intros r Hr. destruct (Hlater r); congruence.
    + rewrite Hsig. cbn. lia.
  - (* stdin_closed *) rewrite Hw in Hreap, Hsig. split; cbn; try done.
    intros r Hr. destruct (Hlater r); congruence.
  - (* session_closed *) rewrite Hw in Hreap, Hsig, Hin. destruct (Hreap _ _ eq_refl) as [Hrd Hx]. split; cbn; try done.
    + intros r [= <-]. split; [done|]. by exists err.
    + by right.
  - (* grace_ends *)
    destruct (forceKill_fields s) as [_ _ _ Fr _ _ _ Fw Fx Fres Fe _ Fc Fi Fk _ Fn].
    split; cbn; rewrite ?Fw, ?Fx, ?Fres, ?Fe, ?Fr, ?Fi; try done; first [by apply Fn|intros _; by destruct Fk; [left|right]].
  - (* cancelled *) unfold Cancel in *. destruct (ss_cancel s) eqn:Hc; split; cbn; try done; by rewrite ?Hc.
Qed.
Lemma reachable_inv_session s : reachable_session s → session_inv s.
Proof.
  intros Hr. unfold reachable_session in Hr. assert (H0 := started_session_inv). revert H0. induction Hr as [|s1 s2 s3 [a Hstep] _ IH]; [done|].
  intros Hs. by apply IH, (session_step_inv a s1).
Qed.

(** ** Frames *)

(** C31: whatever the interleaving, the frames a session has delivered and those in its
    channel are, in order, the first frames of the lines the process wrote; and when the
    session reports no error without having been killed they are all of them, and every
    line was a frame. *)
Theorem frames_arrive_in_order s :
  reachable_session s → ∃ consumed fs left,
    ss_written s = app consumed left ∧ Forall2 decodes consumed fs
    ∧ app (ss_received s) (ss_events s) `prefix_of` fs
    ∧ ∀ r, ss_result s = Some r → ResultErr r = None → ss_killed s = false → left = [] ∧ app (ss_received s) (ss_events s) = fs.
Proof.
  intros Hr. pose proof (reachable_inv_session s Hr) as [(consumed & fs & left & [F1 F2 F3 F4 F5]) _ Hres _ _ _ _ _].
  exists consumed, fs, left. split; [done|]. split; [done|]. split.
  - etrans; [|exact F3]. apply prefix_app. by apply prefix_app_r.
  - intros r Hr' Herr Hk. destruct (Hres r Hr') as (_ & err & Hrd & _ & He). rewrite Herr in He.
    destruct err as [e|]; [done|]. by destruct F5 as (? & ? & _).
Qed.

(** ** The end of a session *)

Definition reader_left (r : reader) : nat := match r with Delivering _ => 2 | Scanning => 1 | ReadDone _ => 0 end.
Definition waiter_left (w : waiter) : nat := match w with
  | WaitingOutput => 4 | Reaped _ _ => 3 | Swept _ _ => 2 | Unplugged _ _ => 1 | WaitDone => 0 end.
(** How many steps of its own a session can still take. *)
Definition steps_left (s : session) : nat :=
  3 * List.length (ss_output s) + reader_left (ss_reader s) + (if ss_drained s then 0 else 1) + waiter_left (ss_waiter s)
  + match ss_cancel s with Grace => 1 | _ => 0 end.
Lemma own_step_decreases s s' : own_step s s' → (steps_left s' < steps_left s)%nat.
Proof.
  intros (a & Hcaller & Hchild & Hstep). unfold steps_left. destruct Hstep; try done; cbn;
    repeat match goal with
    | H : ss_reader _ = _ |- _ => rewrite H
    | H : ss_output _ = _ |- _ => rewrite H
    | H : ss_drained _ = _ |- _ => rewrite H
    | H : ss_waiter _ = _ |- _ => rewrite H
    | H : ss_cancel _ = _ |- _ => rewrite H
    end; cbn; try lia.
  1,2: destruct (forceKill_fields (set_output rest s)) as [_ _ _ _ -> _ _ -> _ _ _ -> -> _ _ _ _]; cbn; lia.
  destruct (forceKill_fields s) as [_ _ _ -> -> _ _ -> _ _ _ -> _ _ _ _ _]. lia.
Qed.
Lemma own_steps_bounded n s s' : nsteps own_step n s s' → (n + steps_left s' ≤ steps_left s)%nat.
Proof. induction 1 as [|n s1 s2 s3 Hstep _ IH]; [lia|]. apply own_step_decreases in Hstep. lia. Qed.

(** What the kernel leaves of a killed group. *)
Definition group_gone (s : session) : Prop := is_some (ss_exit s) = true ∧ ss_stdout s = false ∧ ss_stderr s = false.
Lemma own_step_keeps s s' : own_step s s' →
  (group_gone s → group_gone s') ∧ (ss_killed s = true ∨ ss_ended s = true → ss_killed s' = true ∨ ss_ended s' = true)
  ∧ any_step s s'.
Proof.
  intros (a & Hcaller & Hchild & Hstep). split; [|split; [|by exists a]].
  - unfold group_gone. destruct Hstep; try done; cbn.
    1,2: destruct (forceKill_fields (set_output rest s)) as [_ _ _ _ _ Fo Fs _ Fx _ _ _ _ _ _ _ _]; cbn in *; by rewrite Fx, Fo, Fs.
    destruct (forceKill_fields s) as [_ _ _ _ _ Fo Fs _ Fx _ _ _ _ _ _ _ _]. by rewrite Fx, Fo, Fs.
  - destruct Hstep; try done; cbn; auto; intros Hke.
    1,2: destruct (forceKill_fields (set_output rest s)) as [_ _ _ _ _ _ _ _ _ _ Fe _ _ _ Fk _ _]; rewrite Fe; tauto.
    destruct (forceKill_fields s) as [_ _ _ _ _ _ _ _ _ _ Fe _ _ _ Fk _ _]. rewrite Fe. tauto.
Qed.
(** A killed session whose group is gone can always go on until it has ended. *)
Lemma killed_session_goes_on s :
  session_inv s → group_gone s → ss_killed s = true ∨ ss_ended s = true → ss_ended s = false → ∃ s', own_step s s'.
Proof.
  intros Hs (Hexit & Hout & Herr) Hkilled Hend. destruct Hkilled as [Hkilled|]; [|congruence].
  destruct (ss_drained s) eqn:Hdrained.
  2: { eexists. exists DrainGo. split; [done|]. split; [done|]. by apply diagnostics_end. }
  destruct (ss_reader s) as [|f|err] eqn:Hrd.
  - destruct (ss_output s) as [|[raw|] rest] eqn:Htokens.
    + eexists. exists ReaderGo. split; [done|]. split; [done|]. by apply read_ends.
    + destruct (decodeFrame raw) as [f|e] eqn:Hdec; eexists; exists ReaderGo; split; try done; split; try done;
        [by eapply frame_scanned|by eapply frame_refused].
    + eexists. exists ReaderGo. split; [done|]. split; [done|]. by eapply frame_too_long.
  - eexists. exists ReaderGo. split; [done|]. split; [done|]. by eapply frame_dropped.
  - destruct (ss_waiter s) as [|code e|code e|code e|] eqn:Hw.
    + destruct (ss_exit s) as [code|] eqn:Hx; [|done]. eexists. exists WaitGo. split; [done|]. split; [done|]. by eapply process_reaped.
    + eexists. exists WaitGo. split; [done|]. split; [done|]. by eapply group_swept.
    + eexists. exists WaitGo. split; [done|]. split; [done|]. by eapply stdin_closed.
    + eexists. exists WaitGo. split; [done|]. split; [done|]. by eapply session_closed.
    + by rewrite (si_done s Hs Hw) in Hend.
Qed.

(** C32: once the grace period of a cancellation is over and the kernel has taken the
    killed group, the session ends by its own goroutines in a bounded number of steps,
    whether or not anybody still receives frames, however full the channel is and whatever
    the process left in its pipes.  It ends with one result, its input closed, and its group
    killed once more after the process was reaped; before that it was killed at most once. *)
Theorem cancelled_sessions_end s :
  reachable_session s → ss_cancel s = GraceOver → group_gone s →
  ∀ n s', nsteps own_step n s s' → (n ≤ steps_left s)%nat ∧ (ss_signals s' ≤ if swept (ss_waiter s') then 2 else 1)%nat
    ∧ ((¬ ∃ s'', own_step s' s'') → ss_ended s' = true ∧ (∃ r, ss_result s' = Some r) ∧ ss_stdin_open s' = false
        ∧ swept (ss_waiter s') = true ∧ ss_signals s' = if ss_killed s' then 2%nat else 1%nat).
Proof.
  intros Hreach Hgrace Hgone n s' Hsteps.
  assert (Hs' : session_inv s' ∧ group_gone s' ∧ (ss_killed s' = true ∨ ss_ended s' = true)).
  { pose proof (reachable_inv_session s Hreach) as Hs. pose proof (si_grace s Hs Hgrace) as Hk. clear Hreach Hgrace.
    induction Hsteps as [|n s1 s2 s3 Hstep _ IH]; [done|]. destruct (own_step_keeps _ _ Hstep) as (Hg & Hk' & [a Ha]).
    assert (session_inv s2) by (by apply (session_step_inv a s1)). apply IH; auto. }
  destruct Hs' as (Hs' & Hgone' & Hk'). split; [apply own_steps_bounded in Hsteps; lia|]. split.
  { rewrite (si_signals s' Hs'). destruct (ss_killed s'), (swept _); lia. }
  intros Hstuck. destruct (ss_ended s') eqn:He.
  - rewrite (si_ended s' Hs') in He. destruct (ss_result s') as [r|] eqn:Hr; [|done].
    destruct (si_result s' Hs' r Hr) as [Hw _]. rewrite (si_stdin s' Hs'), (si_signals s' Hs'), Hw. cbn.
    split_and!; [done|by exists r|done..|]. by destruct (ss_killed s').
  - destruct Hk' as [Hk'|]; [|done]. destruct Hstuck. apply killed_session_goes_on; auto.
Qed.

(** ** Witnesses *)

Definition hello : string := bytes [123; 34; 118; 34; 58; 50; 44; 34; 116; 121; 112; 101; 34; 58; 34; 104; 34; 125]%nat.
Definition hello_frame : Frame := MkFrame 2 "h" [("v", JNumber "2"); ("type", JString "h")].
(** The process wrote a frame and ended after a cancellation; the reader still holds it. *)
Definition written_session : session := set_reader (Delivering hello_frame) (set_output [] (child_write (Line hello) started)).
Definition gone_session : session := stderr_close (stdout_close (child_exit (-1) (set_cancel GraceOver (forceKill (Cancel written_session))))).
Lemma hello_decodes : decodeFrame hello = Ok hello_frame.
Proof. vm_compute. reflexivity. Qed.
Lemma gone_reachable : reachable_session gone_session.
Proof.
  unfold reachable_session. eapply rtc_l; [exists Child; by apply (child_writes started (Line hello))|].
  eapply rtc_l; [exists ReaderGo; by eapply (frame_scanned (child_write (Line hello) started) hello [] hello_frame), hello_decodes|].
  eapply rtc_l; [exists Caller; by apply (cancelled written_session)|].
  eapply rtc_l; [exists TimerGo; by apply (grace_ends (Cancel written_session))|].
  eapply rtc_l; [exists Child; by apply (child_exits (set_cancel GraceOver (forceKill (Cancel written_session))) (-1))|].
  eapply rtc_l; [exists Child; by apply stdout_closes|]. apply rtc_once. exists Child. by apply stderr_closes.
Qed.
Lemma frames_arrive_in_order_witness : ∃ fs, app (ss_received gone_session) (ss_events gone_session) `prefix_of` fs.
Proof. destruct (frames_arrive_in_order gone_session gone_reachable) as (consumed & fs & left & _ & _ & Hp & _). exists fs. exact Hp. Defined.
(** Its goroutines end: nobody takes the frame, the process is reaped and its group swept. *)
Definition reaped_session : session := set_waiter (Reaped (-1) None) (set_reader (ReadDone None) (drain_done gone_session)).
Definition swept_session : session := set_waiter (Swept (-1) None) (killProcessGroup reaped_session).
Definition unplugged_session : session := set_waiter (Unplugged (-1) None) (close_stdin swept_session).
Definition closed_session : session := close_session (MkResult (-1) (process_error (-1))) unplugged_session.
Lemma gone_session_closes : nsteps own_step 6 gone_session closed_session.
Proof.
  eapply nsteps_l; [exists DrainGo; split_and!; [done|done|by apply diagnostics_end]|].
  eapply nsteps_l; [exists ReaderGo; split_and!; [done|done|by apply (frame_dropped (drain_done gone_session) hello_frame)]|].
  eapply nsteps_l;
    [exists WaitGo; split_and!; [done|done|by apply (process_reaped (set_reader (ReadDone None) (drain_done gone_session)) None (-1))]|].
  eapply nsteps_l; [exists WaitGo; split_and!; [done|done|by apply (group_swept reaped_session None (-1))]|].
  eapply nsteps_l; [exists WaitGo; split_and!; [done|done|by apply (stdin_closed swept_session None (-1))]|].
  apply nsteps_once. exists WaitGo. split_and!; [done|done|by apply (session_closed unplugged_session None (-1))].
Qed.
Lemma closed_session_stuck : ¬ ∃ s', own_step closed_session s'.
Proof. intros [s' Hstep%own_step_decreases]. change (steps_left closed_session) with 0%nat in Hstep. lia. Qed.
Lemma cancelled_sessions_end_witness :
  (6 ≤ 7)%nat ∧ ss_ended closed_session = true ∧ (∃ r, ss_result closed_session = Some r) ∧ ss_signals closed_session = 2%nat.
Proof.
  destruct (cancelled_sessions_end gone_session gone_reachable eq_refl (conj eq_refl (conj eq_refl eq_refl)) 6 closed_session gone_session_closes)
    as (Hn & _ & Hended).
  destruct (Hended closed_session_stuck) as (He & Hr & _ & _ & Hs). split; [exact Hn|]. split; [exact He|]. split; [exact Hr|exact Hs].
Defined.
