(* ===== verification/Coordinator.v ===== *)
(** * The coordinator of one run (src/internal/control/coordinator.go)

    [Run] is a loop over the events of its channels.  The loop is a step function on
    the state of the run and the live hub; an event is what a [select] may receive, or
    a step of a goroutine the run started, or a section of the hub run by another
    goroutine.  What the process, the provider and the hooks answer during a step is
    its environment.  Everything the run does to the outside is recorded in order. *)

From S2P Require Import Prelude GoStrings GoTime Json Origin Domain Otp Hub ActionProc.
From Stdlib Require Import Ascii String.

Open Scope Z_scope.

(** ** Text *)

Definition stringValue (payload : list (string * json)) (key : string) : string :=
  match field key payload with Some (JString s) => trim_space s | _ => "" end.
Definition correlation (payload : list (string * json)) (key : string) : result string :=
  let value := stringValue payload key in
  if String.eqb value "" || (128 <? len value) then Err (Errorf ("action frame requires a bounded " +:+ key)) else Ok value.

Definition token_byte (c : ascii) : bool := is_lower c || is_digit c || Ascii.eqb c "_" || Ascii.eqb c "-".
Fixpoint keep_bytes (p : ascii → bool) (s : string) : string :=
  match s with
  | EmptyString => EmptyString
  | String c s' => if p c then String c (keep_bytes p s') else keep_bytes p s'
  end.
(** The kept runes are ASCII, and no byte of another rune is. *)
Definition safeToken (value : string) : string :=
  let result := keep_bytes token_byte (to_lower (trim_space value)) in
  if String.eqb result "" then "status" else take_bytes 48 result.

(** [strings.ReplaceAll(s, old, new)] for a non-empty [old]. *)
Fixpoint replace_all (old new : string) (skip : nat) (s : string) : string :=
  match s with
  | EmptyString => EmptyString
  | String c s' =>
      match skip with
      | S k => replace_all old new k s'
      | O => if has_prefix s old then new +:+ replace_all old new (String.length old - 1) s'
             else String c (replace_all old new 0 s')
      end
  end.
(** [digitRun.ReplaceAllStringFunc]: complete runs of four to eight digits. *)
Fixpoint redact_runs (fuel : nat) (s : string) : string :=
  match fuel, s with
  | S fuel, String c s' =>
      let '(digits, rest) := span_digits s in
      let n := String.length digits in
      if (n =? 0)%nat then String c (redact_runs fuel s')
      else (if (4 <=? n)%nat && (n <=? 8)%nat then "[redacted-code]" else digits) +:+ redact_runs fuel rest
  | _, _ => EmptyString
  end.
(** [strings.Map]: white-space controls become spaces, other controls go, an invalid
    byte becomes the replacement character. *)
Fixpoint drop_controls (fuel : nat) (s : string) : string :=
  match fuel, s with
  | S fuel, String c s' =>
      match rune_width s with
      | Some 1%nat =>
          if in_range 9 10 c || in_range 13 13 c then String (byte 32) (drop_controls fuel s')
          else if is_ctl c then drop_controls fuel s' else String c (drop_controls fuel s')
      | Some w => take_bytes w s +:+ drop_controls fuel (drop_bytes w s)
      | None => replacement_char +:+ drop_controls fuel s'
      end
  | _, _ => EmptyString
  end.
Definition sanitizeMessage (message0 phone : string) : string :=
  let message := trim_space message0 in
  let message := if String.eqb phone "" then message else replace_all phone "[redacted]" 0 message in
  let message := redact_runs (String.length message) message in
  let message := drop_controls (String.length message) message in
  if 1000 <? len message then take_bytes 1000 message +:+ "..." else message.

Definition terminalStatus (value : string) : result JobStatus :=
  if String.eqb value "succeeded" then Ok JobSucceeded
  else if String.eqb value "failed" then Ok JobFailed
  else if String.eqb value "cancelled" then Ok JobCancelled
  else if String.eqb value "outcome_unknown" then Ok JobOutcomeUnknown
  else Err (Errorf ("unsupported terminal action status " +:+ quoted value)).

(** ** The run *)

(** [RunHooks]: an absent hook is [false]; [Event] and [Diagnostic] only observe. *)
Record RunInput := MkRunInput {
  RI_HasProcess : bool;
  RI_HasProvider : bool;
  RI_HasHub : bool;
  RI_ActionProviderID : string;
  RI_JobID : Z;
  RI_Command : JobCommand;
  RI_Mode : RunMode;
  RI_StartConfig : list (string * json);
  RI_Phone : string;
  RI_OTPFilter : Filter;
  RI_OTPTimeout : Duration;
  RI_CancelGrace : Duration;
  RI_HookAwaitingApproval : bool;
  RI_HookApprovalResolved : bool;
  RI_HookConfirmationStarting : bool
}.

Record RunResult := MkRunResult { RR_Status : JobStatus; RR_Message : string; RR_ExitCode : Z }.
Record ProcessResult := MkProcessResult { PR_ExitCode : Z; PR_Err : option error }.

Inductive asyncResult :=
  | AsyncOTP (correlation : string) (r : result Message)
  | AsyncApproval (correlation : string) (r : result string).

(** A goroutine the run started. *)
Inductive wait :=
  | WaitOTP (challengeID : string)                      (* in WaitForCode *)
  | WaitApprovalStart (approvalID : string)             (* before WaitDecision looks its waiter up *)
  | WaitApproval (approvalID : string) (p : nat)        (* blocked on the waiter's channel *)
  | WaitApprovalTaken (approvalID : string) (d : string). (* received, entry not yet removed *)

(** What the run does to the outside; the code a provider returned and the decision a
    waiter received are recorded as well. *)
Inductive effect :=
  | ESend (kind : string) (payload : list (string * json)) (err : option error)
  | ECancelProcess (grace : Duration)
  | EHookEvent (kind message : string)
  | EDiagnostic (operation : string) (err : error)
  | EArm (challengeID : string) (ok : bool)
  | ETrigger (challengeID : string)
  | ECancelChallenge (challengeID : string)
  | EProviderCode (challengeID code : string)
  | EHubDecision (approvalID decision : string)
  | EHookAwaitingApproval (approvalID : string) (pass : PassType) (err : option error)
  | EHookApprovalResolved (decision : ApprovalDecision) (err : option error)
  | EHookConfirmationStarting (err : option error).

(** The answers of one step. *)
Record Env := MkEnv {
  env_now : Time;
  env_send : string → list (string * json) → option error;
  env_arm : result Armed;
  env_awaiting : option error;
  env_resolved : option error;
  env_confirming : option error
}.

Record runState := MkRun {
  r_hub : Hub;
  r_ready : bool;
  (* armed challenges, with whether a wait was started (the cancel function is set) *)
  r_challenges : gmap string (Armed * bool);
  r_confirmationStarted : bool;
  r_confirmationCompleted : bool;
  r_confirmationID : string;
  r_terminal : option RunResult;
  r_processResult : option ProcessResult;
  r_eventStream : bool;
  r_doneStream : bool;
  r_ctxDone : bool;       (* the loop still listens to the context *)
  r_ctxErr : bool;        (* ctx.Err() is not nil *)
  r_waits : list wait;
  r_async : list asyncResult;
  r_trace : list effect
}.

Definition with_hub (h : Hub) (r : runState) : runState :=
  MkRun h (r_ready r) (r_challenges r) (r_confirmationStarted r) (r_confirmationCompleted r) (r_confirmationID r)
    (r_terminal r) (r_processResult r) (r_eventStream r) (r_doneStream r) (r_ctxDone r) (r_ctxErr r) (r_waits r)
    (r_async r) (r_trace r).
Definition with_ready (r : runState) : runState :=
  MkRun (r_hub r) true (r_challenges r) (r_confirmationStarted r) (r_confirmationCompleted r) (r_confirmationID r)
    (r_terminal r) (r_processResult r) (r_eventStream r) (r_doneStream r) (r_ctxDone r) (r_ctxErr r) (r_waits r)
    (r_async r) (r_trace r).
Definition with_challenges (f : gmap string (Armed * bool) → gmap string (Armed * bool)) (r : runState) : runState :=
  MkRun (r_hub r) (r_ready r) (f (r_challenges r)) (r_confirmationStarted r) (r_confirmationCompleted r)
    (r_confirmationID r) (r_terminal r) (r_processResult r) (r_eventStream r) (r_doneStream r) (r_ctxDone r)
    (r_ctxErr r) (r_waits r) (r_async r) (r_trace r).
Definition with_started (id : string) (r : runState) : runState :=
  MkRun (r_hub r) (r_ready r) (r_challenges r) true (r_confirmationCompleted r) id
    (r_terminal r) (r_processResult r) (r_eventStream r) (r_doneStream r) (r_ctxDone r) (r_ctxErr r) (r_waits r)
    (r_async r) (r_trace r).
Definition with_completed (r : runState) : runState :=
  MkRun (r_hub r) (r_ready r) (r_challenges r) (r_confirmationStarted r) true (r_confirmationID r)
    (r_terminal r) (r_processResult r) (r_eventStream r) (r_doneStream r) (r_ctxDone r) (r_ctxErr r) (r_waits r)
    (r_async r) (r_trace r).
Definition with_terminal (t : RunResult) (r : runState) : runState :=
  MkRun (r_hub r) (r_ready r) (r_challenges r) (r_confirmationStarted r) (r_confirmationCompleted r) (r_confirmationID r)
    (Some t) (r_processResult r) (r_eventStream r) (r_doneStream r) (r_ctxDone r) (r_ctxErr r) (r_waits r)
    (r_async r) (r_trace r).
Definition with_process (p : ProcessResult) (r : runState) : runState :=
  MkRun (r_hub r) (r_ready r) (r_challenges r) (r_confirmationStarted r) (r_confirmationCompleted r) (r_confirmationID r)
    (r_terminal r) (Some p) (r_eventStream r) false (r_ctxDone r) (r_ctxErr r) (r_waits r)
    (r_async r) (r_trace r).
Definition with_streams (events done ctx err : bool) (r : runState) : runState :=
  MkRun (r_hub r) (r_ready r) (r_challenges r) (r_confirmationStarted r) (r_confirmationCompleted r) (r_confirmationID r)
    (r_terminal r) (r_processResult r) events done ctx err (r_waits r) (r_async r) (r_trace r).
Definition with_waits (f : list wait → list wait) (r : runState) : runState :=
  MkRun (r_hub r) (r_ready r) (r_challenges r) (r_confirmationStarted r) (r_confirmationCompleted r) (r_confirmationID r)
    (r_terminal r) (r_processResult r) (r_eventStream r) (r_doneStream r) (r_ctxDone r) (r_ctxErr r) (f (r_waits r))
    (r_async r) (r_trace r).
Definition with_async (f : list asyncResult → list asyncResult) (r : runState) : runState :=
  MkRun (r_hub r) (r_ready r) (r_challenges r) (r_confirmationStarted r) (r_confirmationCompleted r) (r_confirmationID r)
    (r_terminal r) (r_processResult r) (r_eventStream r) (r_doneStream r) (r_ctxDone r) (r_ctxErr r) (r_waits r)
    (f (r_async r)) (r_trace r).
Definition with_effect (e : effect) (r : runState) : runState :=
  MkRun (r_hub r) (r_ready r) (r_challenges r) (r_confirmationStarted r) (r_confirmationCompleted r) (r_confirmationID r)
    (r_terminal r) (r_processResult r) (r_eventStream r) (r_doneStream r) (r_ctxDone r) (r_ctxErr r) (r_waits r)
    (r_async r) (r_trace r ++ [e]).

Section run.
Context (input : RunInput).

Definition jobKey : string := format_int (RI_JobID input).

Definition emit (e : effect) : ST runState unit := modify (with_effect e).
Definition on_hub (f : Hub → Hub) : ST runState unit := modify (λ r, with_hub (f (r_hub r)) r).
(** [process.Send]: the error it returned, if any. *)
Definition send (env : Env) (kind : string) (payload : list (string * json)) : ST runState (option error) :=
  _ ← emit (ESend kind payload (env_send env kind payload));
  mret (env_send env kind payload).
(** [if err := process.Send(...); err != nil { return err }] *)
Definition send_or_fail (env : Env) (kind : string) (payload : list (string * json)) : ST runState unit :=
  err ← send env kind payload;
  match err with Some e => fail e | None => mret tt end.
Definition publish (event : LiveEvent) : ST runState unit := on_hub (Publish jobKey event).

(** A send on the waiter's channel never blocks (HubProperties). *)
Definition cancel_job_in_hub (h : Hub) : Hub := default h (CancelJob jobKey h).

Definition cancelChallenges : ST runState unit := λ r,
  (foldl (λ r e, with_effect e r) r
     ((λ kv : string * (Armed * bool), ECancelChallenge kv.1) <$> filter (λ kv, kv.2.2 = true) (map_to_list (r_challenges r))),
   Ok tt).

Definition unknown_outcome : string :=
  "The action ended after final confirmation may have started; booking outcome is unknown.".
Definition finishRun (r : runState) (exitCode : Z) : RunResult :=
  match r_terminal r with
  | Some t =>
      if r_confirmationStarted r && bool_decide (RR_Status t = JobFailed)
      then MkRunResult JobOutcomeUnknown unknown_outcome exitCode
      else MkRunResult (RR_Status t) (RR_Message t) exitCode
  | None =>
      if r_confirmationStarted r then
        MkRunResult JobOutcomeUnknown
          "The action process ended after final confirmation may have started; booking outcome is unknown." exitCode
      else if r_ctxErr r then
        MkRunResult JobInterrupted "The action was interrupted before completion." exitCode
      else MkRunResult JobFailed "The action process ended without a terminal result." exitCode
  end.

(** ** Frames of the action *)

Definition handle_otp_prepare (env : Env) (payload : list (string * json)) : ST runState unit :=
  challengeID ← lift (correlation payload "challenge_id");
  exists_ ← gets (λ r, bool_decide (is_Some (r_challenges r !! challengeID)));
  _ ← st_reject exists_ (Errorf "duplicate OTP challenge identifier");
  match env_arm env with
  | Err e =>
      _ ← emit (EArm challengeID false);
      _ ← emit (EDiagnostic "otp.arm" e);
      _ ← send env "otp.error" [("challenge_id", JString challengeID)];
      emit (EHookEvent "otp.arm_failed" "OTP provider could not be armed.")
  | Ok armed =>
      _ ← emit (EArm challengeID true);
      _ ← modify (with_challenges (<[challengeID := (armed, false)]>));
      _ ← emit (EHookEvent "otp.armed" "OTP inbox cursor was captured before the login action.");
      send_or_fail env "otp.ready" [("challenge_id", JString challengeID)]
  end.
Definition handle_otp_triggered (payload : list (string * json)) : ST runState unit :=
  challengeID ← lift (correlation payload "challenge_id");
  challenge ← gets (λ r, r_challenges r !! challengeID);
  match challenge with
  | Some (armed, false) =>
      _ ← modify (with_challenges (<[challengeID := (armed, true)]>));
      _ ← emit (ETrigger challengeID);
      modify (with_waits (λ w, w ++ [WaitOTP challengeID])%list)
  | _ => fail (Errorf "OTP was triggered without a unique armed challenge")
  end.
Definition handle_otp_ended (kind : string) (payload : list (string * json)) : ST runState unit :=
  challengeID ← lift (correlation payload "challenge_id");
  _ ← on_hub (ClearOTP jobKey);
  challenge ← gets (λ r, r_challenges r !! challengeID);
  _ ← match challenge with Some (_, true) => emit (ECancelChallenge challengeID) | _ => mret tt end;
  _ ← modify (with_challenges (delete challengeID));
  emit (EHookEvent kind "OTP challenge ended and transient code state was cleared.").

Definition supported_pass (p : PassType) : bool :=
  match p with PassAllDay | PassAfternoon | PassMorning => true | _ => false end.
Definition handle_approval_request (env : Env) (payload : list (string * json)) : ST runState unit :=
  _ ← st_reject (negb (bool_decide (RI_Command input = CommandBook)) || negb (bool_decide (RI_Mode input = RunModeManual)))
        (Errorf "approval requests require a manual booking");
  approvalID ← lift (correlation payload "approval_id");
  let pass := PassType_of (match field "pass_key" payload with Some (JString s) => s | _ => "" end) in
  _ ← st_reject (negb (supported_pass pass)) (Errorf "approval request must identify a supported pass");
  begun ← gets (λ r, BeginDecision jobKey (r_hub r));
  _ ← on_hub (λ _, begun.1);
  _ ← lift begun.2;
  _ ← (if RI_HookAwaitingApproval input then
         _ ← emit (EHookAwaitingApproval approvalID pass (env_awaiting env));
         match env_awaiting env with Some e => fail e | None => mret tt end
       else mret tt);
  _ ← emit (EHookEvent "approval.requested" "The browser is waiting immediately before final confirmation.");
  _ ← publish (MkLive "approval" (JObject [("active", JBool true)]));
  modify (with_waits (λ w, w ++ [WaitApprovalStart approvalID])%list).

Definition handle_confirmation_starting (env : Env) (payload : list (string * json)) : ST runState unit :=
  startedID ← lift (correlation payload "confirmation_id");
  already ← gets r_confirmationStarted;
  _ ← st_reject already (Errorf "final confirmation was already armed");
  _ ← (if RI_HookConfirmationStarting input then
         _ ← emit (EHookConfirmationStarting (env_confirming env));
         match env_confirming env with
         | Some e => _ ← send env "confirmation.error" [("confirmation_id", JString startedID)]; fail e
         | None => mret tt
         end
       else mret tt);
  _ ← modify (with_started startedID);
  _ ← emit (EHookEvent "confirmation.starting"
        "Final confirmation is starting; a crash from this point may leave an unknown outcome.");
  send_or_fail env "confirmation.ready" [("confirmation_id", JString startedID)].
Definition handle_confirmation_completed (payload : list (string * json)) : ST runState unit :=
  started ← gets r_confirmationStarted;
  _ ← st_reject (negb started) (Errorf "final confirmation completed without a durable start marker");
  completedID ← lift (correlation payload "confirmation_id");
  confirmationID ← gets r_confirmationID;
  _ ← st_reject (negb (String.eqb completedID confirmationID))
        (Errorf "final confirmation completion identifier did not match its durable start marker");
  _ ← modify with_completed;
  emit (EHookEvent "confirmation.completed" "Yodel reported that final confirmation completed.").

Definition handleFrame (env : Env) (frame : Frame) : ST runState unit :=
  let payload := FPayload frame in
  let kind := FType frame in
  if String.eqb kind "run.status" then
    let phase := safeToken (stringValue payload "phase") in
    let message := sanitizeMessage (stringValue payload "message") (RI_Phone input) in
    _ ← emit (EHookEvent ("run." +:+ phase) message);
    publish (MkLive "status" (JObject [("phase", JString phase); ("message", JString message)]))
  else if bool_decide (kind ∈ ["heartbeat"; "booking.poll"; "release.ready"]) then publish (MkLive kind (JObject []))
  else if String.eqb kind "credentials.request" then
    requestID ← lift (correlation payload "request_id");
    send_or_fail env "credentials.provide" [("request_id", JString requestID); ("phone", JString (RI_Phone input))]
  else if String.eqb kind "otp.prepare" then handle_otp_prepare env payload
  else if String.eqb kind "otp.triggered" then handle_otp_triggered payload
  else if bool_decide (kind ∈ ["otp.submitted"; "otp.not_required"; "otp.failed"]) then handle_otp_ended kind payload
  else if String.eqb kind "approval.request" then handle_approval_request env payload
  else if bool_decide (kind ∈ ["approval.approved"; "approval.cancelled"; "approval.expired"]) then
    _ ← publish (live_inactive "approval");
    emit (EHookEvent kind "Manual approval state changed.")
  else if String.eqb kind "confirmation.starting" then handle_confirmation_starting env payload
  else if String.eqb kind "confirmation.completed" then handle_confirmation_completed payload
  else if String.eqb kind "run.complete" then
    status ← lift (terminalStatus (stringValue payload "status"));
    modify (with_terminal (MkRunResult status (sanitizeMessage (stringValue payload "message") (RI_Phone input)) 0))
  else fail (Errorf ("unsupported action event " +:+ quoted kind)).

(** ** The loop *)

Inductive event :=
  (* channels the select listens to *)
  | EvCtxDone
  | EvFrame (frame : Frame)
  | EvFramesClosed
  | EvAsync
  | EvProcessDone (result : ProcessResult)
  | EvDoneClosed
  (* the context, and the goroutines of the run *)
  | EvCancelContext
  | EvOTPWaitEnds (i : nat) (r : result Message) (delivered : bool)
  | EvApprovalLookup (i : nat)
  | EvApprovalTake (i : nat)
  | EvApprovalReturn (i : nat) (delivered : bool)
  | EvApprovalContext (i : nat) (delivered : bool)
  (* other goroutines on the hub *)
  | EvHub (op : hub_op).

(** What can happen: a nil channel is never ready, and a goroutine may only give its
    result up when the context is done. *)
Definition enabled (r : runState) (ev : event) : bool :=
  match ev with
  | EvCtxDone => r_ctxDone r && r_ctxErr r
  | EvFrame _ | EvFramesClosed => r_eventStream r
  | EvAsync => negb (bool_decide (r_async r = []))
  | EvProcessDone _ | EvDoneClosed => r_doneStream r
  | EvCancelContext | EvHub _ => true
  | EvOTPWaitEnds i _ delivered =>
      match r_waits r !! i with Some (WaitOTP _) => delivered || r_ctxErr r | _ => false end
  | EvApprovalLookup i => match r_waits r !! i with Some (WaitApprovalStart _) => true | _ => false end
  | EvApprovalTake i =>
      match r_waits r !! i with
      | Some (WaitApproval _ p) => bool_decide (is_Some (WaitDecision_take p (r_hub r))) | _ => false end
  | EvApprovalReturn i delivered =>
      match r_waits r !! i with Some (WaitApprovalTaken _ _) => delivered || r_ctxErr r | _ => false end
  | EvApprovalContext i delivered =>
      match r_waits r !! i with Some (WaitApproval _ _) => r_ctxErr r | _ => false end
  end.

Definition deliver (delivered : bool) (a : asyncResult) : ST runState unit :=
  if delivered then modify (with_async (λ l, l ++ [a])%list) else mret tt.
Definition end_wait (i : nat) : ST runState unit := modify (with_waits (delete i)).

(** The frame that opens the conversation, and the start message. *)
Definition negotiate (env : Env) (frame : Frame) : ST runState unit :=
  let ok := String.eqb (FType frame) "worker.ready"
            && String.eqb (stringValue (FPayload frame) "action") (RI_ActionProviderID input)
            && match field "protocol" (FPayload frame) with Some (JNumber t) => float_is_two t | _ => false end in
  if negb ok then
    _ ← emit (ECancelProcess (RI_CancelGrace input));
    fail (Errorf ("action worker did not negotiate the " +:+ RI_ActionProviderID input +:+ " v2 protocol"))
  else
    _ ← modify with_ready;
    err ← send env "run.start"
            [("run_id", JString jobKey); ("command", JString (JobCommand_string (RI_Command input)));
             ("mode", JString (RunMode_string (RI_Mode input))); ("config", JObject (RI_StartConfig input))];
    match err with
    | Some e => _ ← emit (ECancelProcess (RI_CancelGrace input)); fail e
    | None => mret tt
    end.

Definition on_otp_result (env : Env) (id : string) (r : result Message) : ST runState unit :=
  active ← gets (λ s, bool_decide (is_Some (r_challenges s !! id)));
  if negb active then mret tt
  else
    match r with
    | Err e =>
        _ ← emit (EDiagnostic "otp.wait" e);
        let expired := errors_is e ContextDeadlineExceeded in
        let kind := if expired then "otp.expired" else "otp.error" in
        _ ← send env kind [("challenge_id", JString id)];
        emit (EHookEvent kind (if expired then "No fresh OTP arrived before the challenge expired."
                               else "OTP provider failed while waiting for a fresh code."))
    | Ok message =>
        _ ← on_hub (SetOTP jobKey (MCode message) (Add (env_now env) (RI_OTPTimeout input)));
        err ← send env "otp.provide" [("challenge_id", JString id); ("code", JString (MCode message))];
        match err with
        | Some e => _ ← on_hub (ClearOTP jobKey); fail e
        | None => emit (EHookEvent "otp.received" "A fresh OTP was delivered to the browser action.")
        end
    end.

Definition decision_of (s : string) : ApprovalDecision :=
  if String.eqb s "approve" then DecisionApprove else if String.eqb s "cancel" then DecisionCancel else DecisionOther s.
Definition on_approval_result (env : Env) (id : string) (r : result string) : ST runState unit :=
  match (match r with Ok d => Some (decision_of d) | Err _ => None end) with
  | Some decision =>
      if negb (ApprovalDecision_Valid decision) then
        _ ← send env "approval.cancel" [("approval_id", JString id)]; mret tt
      else
        _ ← (if RI_HookApprovalResolved input then
               _ ← emit (EHookApprovalResolved decision (env_resolved env));
               match env_resolved env with Some e => fail e | None => mret tt end
             else mret tt);
        send_or_fail env (if bool_decide (decision = DecisionApprove) then "approval.approve" else "approval.cancel")
          [("approval_id", JString id)]
  | None => _ ← send env "approval.cancel" [("approval_id", JString id)]; mret tt
  end.

(** One iteration: [None] goes on, [Some result] is [return result, nil]. *)
Definition step (env : Env) (ev : event) : ST runState (option RunResult) :=
  match ev with
  | EvCtxDone =>
      _ ← on_hub cancel_job_in_hub;
      _ ← emit (ECancelProcess (RI_CancelGrace input));
      _ ← modify (λ r, with_streams (r_eventStream r) (r_doneStream r) false (r_ctxErr r) r);
      mret None
  | EvFrame frame =>
      ready ← gets r_ready;
      if negb ready then _ ← negotiate env frame; mret None
      else λ r,
        match handleFrame env frame r with
        | (r', Ok _) => (r', Ok None)
        | (r', Err e) => (with_effect (ECancelProcess (RI_CancelGrace input)) r', Err e)
        end
  | EvFramesClosed =>
      _ ← modify (λ r, with_streams false (r_doneStream r) (r_ctxDone r) (r_ctxErr r) r);
      gets (λ r, match r_processResult r with Some p => Some (finishRun r (PR_ExitCode p)) | None => None end)
  | EvAsync =>
      first ← gets (λ r, head (r_async r));
      _ ← modify (with_async tail);
      _ ← match first with
          | Some (AsyncOTP id r) => on_otp_result env id r
          | Some (AsyncApproval id r) => on_approval_result env id r
          | None => mret tt
          end;
      mret None
  | EvProcessDone p =>
      _ ← modify (with_process p);
      _ ← match PR_Err p with Some e => emit (EDiagnostic "process.exit" e) | None => mret tt end;
      _ ← cancelChallenges;
      _ ← on_hub (ClearOTP jobKey);
      gets (λ r, if r_eventStream r then None else Some (finishRun r (PR_ExitCode p)))
  | EvDoneClosed =>
      _ ← modify (λ r, with_streams (r_eventStream r) false (r_ctxDone r) (r_ctxErr r) r); mret None
  | EvCancelContext =>
      _ ← modify (λ r, with_streams (r_eventStream r) (r_doneStream r) (r_ctxDone r) true r); mret None
  | EvOTPWaitEnds i res delivered =>
      w ← gets (λ r, r_waits r !! i);
      match w with
      | Some (WaitOTP id) =>
          _ ← end_wait i;
          _ ← match res with Ok m => emit (EProviderCode id (MCode m)) | Err _ => mret tt end;
          _ ← deliver delivered (AsyncOTP id res);
          mret None
      | _ => mret None
      end
  | EvApprovalLookup i =>
      w ← gets (λ r, r_waits r !! i);
      match w with
      | Some (WaitApprovalStart id) =>
          found ← gets (λ r, WaitDecision_begin jobKey (r_hub r));
          _ ← match found with
              | Ok p => modify (with_waits (<[i := WaitApproval id p]>))
              | Err e => _ ← end_wait i; deliver true (AsyncApproval id (Err e))
              end;
          mret None
      | _ => mret None
      end
  | EvApprovalTake i =>
      w ← gets (λ r, r_waits r !! i);
      match w with
      | Some (WaitApproval id p) =>
          taken ← gets (λ r, WaitDecision_take p (r_hub r));
          _ ← match taken with
              | Some (h, d) =>
                  _ ← on_hub (λ _, h);
                  _ ← emit (EHubDecision id d);
                  modify (with_waits (<[i := WaitApprovalTaken id d]>))
              | None => mret tt
              end;
          mret None
      | _ => mret None
      end
  | EvApprovalReturn i delivered =>
      w ← gets (λ r, r_waits r !! i);
      match w with
      | Some (WaitApprovalTaken id d) =>
          _ ← on_hub (WaitDecision_done jobKey);
          _ ← end_wait i;
          _ ← deliver delivered (AsyncApproval id (Ok d));
          mret None
      | _ => mret None
      end
  | EvApprovalContext i delivered =>
      w ← gets (λ r, r_waits r !! i);
      match w with
      | Some (WaitApproval id _) =>
          _ ← on_hub (WaitDecision_done jobKey);
          _ ← end_wait i;
          _ ← deliver delivered (AsyncApproval id (Err (Sentinel ContextCanceled)));
          mret None
      | _ => mret None
      end
  | EvHub op => _ ← on_hub (hub_exec op); mret None
  end.

(** The iterations up to the return, if they get there; what cannot happen is skipped. *)
Fixpoint loop (evs : list (Env * event)) (r : runState) : runState * option (result RunResult) :=
  match evs with
  | [] => (r, None)
  | (env, ev) :: rest =>
      if enabled r ev then
        match step env ev r with
        | (r', Ok None) => loop rest r'
        | (r', Ok (Some result)) => (r', Some (Ok result))
        | (r', Err e) => (r', Some (Err e))
        end
      else loop rest r
  end.

(** The deferred functions: a verified completion overrides any other end, the pending
    challenges are cancelled and the live code is removed. *)
Definition verified_completion : string :=
  "Yodel confirmed the reservation; browser cleanup ended before a final result.".
Definition returned (r : runState) (outcome : result RunResult) : result RunResult :=
  match outcome with
  | Ok result =>
      if r_confirmationCompleted r && negb (bool_decide (RR_Status result = JobSucceeded))
      then Ok (MkRunResult JobSucceeded verified_completion (RR_ExitCode result)) else Ok result
  | Err e => if r_confirmationCompleted r then Ok (MkRunResult JobSucceeded verified_completion 0) else Err e
  end.
Definition deferred (r : runState) : runState := with_hub (ClearOTP jobKey (r_hub r)) (cancelChallenges r).1.
End run.

Definition initial (h : Hub) (ctxErr : bool) : runState :=
  MkRun h false ∅ false false "" None None true true true ctxErr [] [] [].
(** The input with its defaults filled in. *)
Definition with_defaults (i : RunInput) : RunInput :=
  MkRunInput (RI_HasProcess i) (RI_HasProvider i) (RI_HasHub i)
    (if String.eqb (RI_ActionProviderID i) "" then ProviderYodel else RI_ActionProviderID i)
    (RI_JobID i) (RI_Command i) (RI_Mode i) (RI_StartConfig i) (RI_Phone i) (RI_OTPFilter i)
    (if RI_OTPTimeout i <=? 0 then 2 * Minute else RI_OTPTimeout i)
    (if RI_CancelGrace i <=? 0 then 20 * Second else RI_CancelGrace i)
    (RI_HookAwaitingApproval i) (RI_HookApprovalResolved i) (RI_HookConfirmationStarting i).

(** [Run]: [factory] is the error of starting the process.  The result is missing while
    the loop still waits. *)
Definition Run (input : RunInput) (factory : option error) (h : Hub) (ctxErr : bool) (evs : list (Env * event))
    : runState * option (result RunResult) :=
  let r0 := initial h ctxErr in
  if negb (RI_HasProcess input) || negb (RI_HasProvider input) || negb (RI_HasHub input)
  then (r0, Some (Err (Errorf "action process, OTP provider, and live hub are required")))
  else
    match factory with
    | Some e => (r0, Some (Err e))
    | None =>
        let i := with_defaults input in
        match loop i evs r0 with
        | (r, None) => (r, None)
        | (r, Some outcome) => (deferred i r, Some (returned r outcome))
        end
    end.
