(* ===== verification/CoordinatorInvariants.v ===== *)
(** * The conversation of a run: its specification and its invariant

    [conversation] is the specification of the effects of a run as a set of traces: which
    effect may follow which.  [run_inv] ties the state of the loop to its trace, and every
    step of the loop preserves it, so every run is a conversation. *)

From S2P Require Import Prelude GoStrings GoTime Json Origin Domain Otp Hub HubProperties ActionProc Coordinator.
From Stdlib Require Import Ascii String.

Open Scope Z_scope.

Definition is_send (e : effect) : bool := match e with ESend _ _ _ => true | _ => false end.
Definition says (kind : string) (e : effect) : bool := match e with ESend k _ _ => String.eqb k kind | _ => false end.
(** Messages with a rule of their own. *)
Definition guarded_kind (kind : string) : bool :=
  bool_decide (kind ∈ ["run.start"; "confirmation.ready"; "approval.approve"; "otp.provide"]).

Lemma send_or_fail_state env kind payload r :
  (send_or_fail env kind payload r).1 = with_effect (ESend kind payload (env_send env kind payload)) r.
Proof. unfold send_or_fail. rewrite ST_bind_unfold. simpl. by destruct (env_send env kind payload). Qed.

#[local] Arguments send_or_fail : simpl never.

Section conversation.
Context (i : RunInput).

(** ** The specification *)

Definition manual_booking : Prop := RI_Command i = CommandBook ∧ RI_Mode i = RunModeManual.
Definition may_send (tr : list effect) (kind : string) (payload : list (string * json)) : Prop :=
  (kind = "run.start" ↔ existsb is_send tr = false)
  ∧ (kind = "confirmation.ready" →
       existsb (says kind) tr = false
       ∧ (RI_HookConfirmationStarting i = true → EHookConfirmationStarting None ∈ tr))
  ∧ (kind = "approval.approve" →
       ∃ id, payload = [("approval_id", JString id)] ∧ EHubDecision id "approve" ∈ tr
             ∧ (RI_HookApprovalResolved i = true → EHookApprovalResolved DecisionApprove None ∈ tr))
  ∧ (kind = "otp.provide" →
       ∃ id code, payload = [("challenge_id", JString id); ("code", JString code)] ∧ EProviderCode id code ∈ tr).
Definition asked (tr : list effect) (id : string) : Prop :=
  manual_booking ∧ (RI_HookAwaitingApproval i = true → ∃ pass, EHookAwaitingApproval id pass None ∈ tr).
Definition allowed (tr : list effect) (e : effect) : Prop :=
  match e with
  | ESend kind payload _ => may_send tr kind payload
  | ETrigger id => EArm id true ∈ tr
  | EProviderCode id _ => ETrigger id ∈ tr
  | EHubDecision id _ => asked tr id
  | EHookConfirmationStarting _ => EHookConfirmationStarting None ∉ tr
  | _ => True
  end.

Inductive conversation : list effect → Prop :=
  | conversation_nil : conversation []
  | conversation_snoc tr e : conversation tr → allowed tr e → conversation (tr ++ [e]).

Lemma conversation_at tr1 e tr2 : conversation (tr1 ++ e :: tr2) → allowed tr1 e.
Proof.
  induction tr2 as [|e2 tr2 IH] using rev_ind; intros Hc.
  - inversion Hc as [Hn|tr e' Hc' Ha Heq]; [by destruct tr1|].
    by apply app_inj_tail in Heq as [-> ->].
  - rewrite app_comm_cons, app_assoc in Hc.
    inversion Hc as [Hn|tr e' Hc' Ha Heq]; [by destruct tr1|].
    apply app_inj_tail in Heq as [-> ->]. by apply IH.
Qed.
Lemma conversation_in tr e : conversation tr → e ∈ tr → ∃ tr1 tr2, tr = (tr1 ++ e :: tr2)%list ∧ allowed tr1 e.
Proof.
  intros Hc (tr1 & tr2 & ->)%list_elem_of_split. exists tr1, tr2. split; [done|]. by eapply conversation_at.
Qed.

(** ** The invariant *)

Definition wait_ok (tr : list effect) (w : wait) : Prop :=
  match w with
  | WaitOTP id => ETrigger id ∈ tr
  | WaitApprovalStart id | WaitApproval id _ => asked tr id
  | WaitApprovalTaken id d => EHubDecision id d ∈ tr
  end.
Definition async_ok (tr : list effect) (a : asyncResult) : Prop :=
  match a with
  | AsyncOTP id (Ok m) => EProviderCode id (MCode m) ∈ tr
  | AsyncApproval id (Ok d) => EHubDecision id d ∈ tr
  | _ => True
  end.
Record run_inv (r : runState) : Prop := MkRunInv {
  ri_conversation : conversation (r_trace r);
  ri_ready : r_ready r = existsb is_send (r_trace r);
  ri_idle : r_ready r = false → r_waits r = [] ∧ r_async r = [];
  ri_armed : ∀ id v, r_challenges r !! id = Some v → EArm id true ∈ r_trace r;
  ri_waits : ∀ w, w ∈ r_waits r → wait_ok (r_trace r) w;
  ri_async : ∀ a, a ∈ r_async r → async_ok (r_trace r) a;
  ri_unstarted : r_confirmationStarted r = false →
    EHookConfirmationStarting None ∉ r_trace r ∧ existsb (says "confirmation.ready") (r_trace r) = false
}.
Definition ready_inv (r : runState) : Prop := run_inv r ∧ r_ready r = true.

Lemma asked_app tr e id : asked tr id → asked (tr ++ [e]) id.
Proof. intros [? Ha]. split; [done|]. intros [pass Hp]%Ha. exists pass. apply elem_of_app. by left. Qed.
Lemma wait_ok_app tr e w : wait_ok tr w → wait_ok (tr ++ [e]) w.
Proof. destruct w; simpl; try apply asked_app; intros; apply elem_of_app; by left. Qed.
Lemma async_ok_app tr e a : async_ok tr a → async_ok (tr ++ [e]) a.
Proof. destruct a as [id [m|x]|id [d|x]]; simpl; try done; intros; apply elem_of_app; by left. Qed.

(** Effects that have no rule: [neutral]. *)
Definition neutral (e : effect) : bool :=
  match e with
  | ESend kind _ _ => negb (guarded_kind kind)
  | ETrigger _ | EProviderCode _ _ | EHubDecision _ _ | EHookConfirmationStarting _ => false
  | _ => true
  end.
Definition unremarkable (e : effect) : bool :=
  negb (is_send e) && match e with EHookConfirmationStarting None => false | _ => true end.

Lemma run_inv_send e r : is_send e = true → (r_confirmationStarted r = true ∨ says "confirmation.ready" e = false) → r_ready r = true →
  run_inv r → allowed (r_trace r) e → run_inv (with_effect e r).
Proof.
  intros Hs Hc Hrd [? Hr ? Harm ? ? Hu] ?. split; simpl; try done.
  - by apply conversation_snoc.
  - rewrite existsb_app, <- Hr, Hrd. done.
  - intros id v Hv. apply elem_of_app. left. by eapply Harm.
  - intros. apply wait_ok_app; auto.
  - intros. apply async_ok_app; auto.
  - intros Hst. destruct Hc as [Hc|Hc]; [by rewrite Hc in Hst|].
    destruct (Hu Hst) as [Hu1 Hu2]. rewrite existsb_app, Hu2. cbn. rewrite Hc. split; [|done].
    rewrite elem_of_app, list_elem_of_singleton. intros [?|<-]; done.
Qed.
Lemma run_inv_effect e r : unremarkable e = true → run_inv r → allowed (r_trace r) e → run_inv (with_effect e r).
Proof.
  intros [He1 He2]%andb_true_iff [? Hr ? Harm ? ? Hu] ?. apply negb_true_iff in He1. split; simpl; try done.
  - by apply conversation_snoc.
  - rewrite existsb_app, Hr. simpl. by rewrite He1, !orb_false_r.
  - intros id v Hv. apply elem_of_app. left. by eapply Harm.
  - intros. apply wait_ok_app; auto.
  - intros. apply async_ok_app; auto.
  - intros Hst. destruct (Hu Hst) as [Hu1 Hu2]. rewrite existsb_app, Hu2. split.
    + rewrite elem_of_app, list_elem_of_singleton. by intros [?|<-].
    + by destruct e.
Qed.
Lemma may_send_other tr kind payload :
  guarded_kind kind = false → existsb is_send tr = true → may_send tr kind payload.
Proof.
  unfold guarded_kind. rewrite bool_decide_eq_false. intros Hk Ht. unfold may_send. rewrite Ht.
  split; [split; [|done]|split_and!]; intros ->; destruct Hk; set_solver.
Qed.
Lemma neutral_inv e r : neutral e = true → ready_inv r → ready_inv (with_effect e r).
Proof.
  intros He [Hr Hrd]. split; [|done]. destruct (is_send e) eqn:Hs.
  - destruct e; try done. simpl in He. apply negb_true_iff in He. apply run_inv_send; try done; simpl.
    + right. destruct (String.eqb_spec kind "confirmation.ready"); [by subst|done].
    + apply may_send_other; [done|]. by rewrite <- (ri_ready _ Hr).
  - apply run_inv_effect; [|done|]; destruct e; simpl in *; done.
Qed.

(** ** Updates of the state *)

Lemma with_hub_inv h r : ready_inv r → ready_inv (with_hub h r).
Proof. intros [[] ?]. by split. Qed.
Lemma put_challenge_inv id v r : EArm id true ∈ r_trace r → ready_inv r → ready_inv (with_challenges (<[id := v]>) r).
Proof.
  intros Ha [[] ?]. split; [|done]. split; simpl; try done.
  intros id' v' [[<- _]|[_ ?]]%lookup_insert_Some; eauto.
Qed.
Lemma drop_challenge_inv id r : ready_inv r → ready_inv (with_challenges (delete id) r).
Proof.
  intros [[] ?]. split; [|done]. split; simpl; try done. intros id' v' [_ ?]%lookup_delete_Some; eauto.
Qed.
Lemma with_waits_inv f r : (∀ w, w ∈ f (r_waits r) → w ∈ r_waits r ∨ wait_ok (r_trace r) w) →
  ready_inv r → ready_inv (with_waits f r).
Proof.
  intros Hf [[] ?]. split; [|done]. split; simpl; try done; [intros; congruence|].
  intros w [?|?]%Hf; auto.
Qed.
Lemma with_async_inv f r : (∀ a, a ∈ f (r_async r) → a ∈ r_async r ∨ async_ok (r_trace r) a) →
  ready_inv r → ready_inv (with_async f r).
Proof.
  intros Hf [[] ?]. split; [|done]. split; simpl; try done; [intros; congruence|].
  intros a [?|?]%Hf; auto.
Qed.

Lemma effects_inv (I : runState → Prop) es r :
  (∀ e r, neutral e = true → I r → I (with_effect e r)) → forallb neutral es = true →
  I r → I (foldl (λ r e, with_effect e r) r es).
Proof.
  intros HI. revert r. induction es as [|e es IH]; intros r; [done|]. simpl.
  intros [? ?]%andb_true_iff ?. apply IH; auto.
Qed.

(** ** Handlers *)

Lemma emit_inv e : neutral e = true → preserves ready_inv (emit e).
Proof. intros ?. apply preserves_modify. intros r ?. by apply neutral_inv. Qed.
Lemma on_hub_inv f : preserves ready_inv (on_hub f).
Proof. apply preserves_modify. intros r ?. by apply with_hub_inv. Qed.
Lemma publish_inv ev : preserves ready_inv (publish i ev).
Proof. apply on_hub_inv. Qed.
Lemma send_inv env kind payload : guarded_kind kind = false → preserves ready_inv (send env kind payload).
Proof.
  intros Hk. apply preserves_bind; [|intros; apply preserves_ret]. apply emit_inv. simpl. by rewrite Hk.
Qed.
Lemma send_or_fail_inv env kind payload : guarded_kind kind = false → preserves ready_inv (send_or_fail env kind payload).
Proof.
  intros. apply preserves_bind; [by apply send_inv|]. intros [e|]; [apply preserves_fail|apply preserves_ret].
Qed.
End conversation.
#[export] Hint Extern 1 (neutral _ = true) => reflexivity : preserves.
#[export] Hint Extern 1 (guarded_kind _ = false) => reflexivity : preserves.
#[export] Hint Resolve emit_inv on_hub_inv publish_inv send_inv send_or_fail_inv with_hub_inv : preserves.

(** [walk] goes through a handler whose effects are neutral. *)
Ltac walk := repeat first
  [ apply preserves_bind; intros
  | solve [eauto with preserves]
  | match goal with |- preserves _ (match ?x with _ => _ end) => destruct x end ].

Section handlers.
Context (i : RunInput).

Lemma handle_otp_prepare_inv env payload : preserves (ready_inv i) (handle_otp_prepare env payload).
Proof.
  unfold handle_otp_prepare. apply preserves_bind; [apply preserves_lift|]. intros id.
  do 2 (apply preserves_bind; [first [apply preserves_gets|apply preserves_reject]|intros]).
  destruct (env_arm env) as [armed|e].
  - intros r Hr. rewrite ST_bind_unfold. simpl. rewrite ST_bind_unfold. simpl.
    refine ((_ : preserves (ready_inv i) _) _ _); [walk|].
    apply put_challenge_inv; [simpl; apply elem_of_app; right; by left|]. by apply neutral_inv.
  - walk.
Qed.
Lemma handle_otp_triggered_inv payload : preserves (ready_inv i) (handle_otp_triggered payload).
Proof.
  unfold handle_otp_triggered. apply preserves_bind; [apply preserves_lift|]. intros id r Hr.
  rewrite ST_bind_unfold. simpl. destruct (r_challenges r !! id) as [[armed [|]]|] eqn:Hc; try exact Hr.
  rewrite ST_bind_unfold. simpl.
  assert (EArm id true ∈ r_trace r) as Ha by (destruct Hr as [Hr _]; by eapply ri_armed).
  apply with_waits_inv.
  - intros w [?| ->%list_elem_of_singleton]%elem_of_app; [by left|]. right. simpl. apply elem_of_app. right. by left.
  - destruct (put_challenge_inv i id (armed, true) r Ha Hr) as [? ?]. split; [|done].
    by apply run_inv_effect.
Qed.
Lemma handle_otp_ended_inv kind payload : preserves (ready_inv i) (handle_otp_ended i kind payload).
Proof.
  unfold handle_otp_ended. do 3 (apply preserves_bind; [eauto with preserves|intros]).
  apply preserves_bind; [walk|]. intros _. apply preserves_bind; [|intros; walk].
  apply preserves_modify. intros. by apply drop_challenge_inv.
Qed.

Lemma handle_approval_request_inv env payload : preserves (ready_inv i) (handle_approval_request i env payload).
Proof.
  unfold handle_approval_request. intros r Hr. rewrite ST_bind_unfold. simpl.
  destruct (bool_decide_reflect (RI_Command i = CommandBook)) as [Hb|]; [|exact Hr].
  destruct (bool_decide_reflect (RI_Mode i = RunModeManual)) as [Hm|]; [|exact Hr]. simpl.
  revert r Hr. refine (_ : preserves _ _). apply preserves_bind; [apply preserves_lift|]. intros id.
  do 4 (apply preserves_bind; [eauto with preserves|intros]).
  set (tail_ := λ _ : unit, _). assert (∀ r, ready_inv i r → asked i (r_trace r) id → ready_inv i (tail_ tt r).1) as Htail.
  { intros r Hr Ha. unfold tail_. rewrite ST_bind_unfold. simpl. apply with_waits_inv.
    - intros w [?| ->%list_elem_of_singleton]%elem_of_app; [by left|]. right. simpl. by apply asked_app.
    - apply with_hub_inv. by apply neutral_inv. }
  intros r Hr. rewrite ST_bind_unfold. destruct (RI_HookAwaitingApproval i) eqn:Hh.
  - rewrite ST_bind_unfold. simpl. destruct (env_awaiting env) as [e|]; simpl.
    + by apply neutral_inv.
    + refine (Htail (with_effect (EHookAwaitingApproval _ _ _) r) _ _); [by apply neutral_inv|].
      split; [done|]. intros _. simpl. eexists.
      apply elem_of_app. right. by left.
  - refine (Htail r Hr _). split; [done|]. by rewrite Hh.
Qed.

(** The acknowledgement: the hook, the mark, the event, the message. *)
Lemma confirm_inv r err p id : ready_inv i r → r_confirmationStarted r = false →
  let r1 := if RI_HookConfirmationStarting i then with_effect (EHookConfirmationStarting None) r else r in
  ∀ event, ready_inv i (with_effect (ESend "confirmation.ready" p err)
    (with_effect (EHookEvent "confirmation.starting" event) (with_started id r1))).
Proof.
  intros [Hr Hrd] Hs r1 event. destruct (ri_unstarted _ _ Hr Hs) as [Hu1 Hu2].
  assert (run_inv i (with_started id r1)) as H1.
  { unfold r1. destruct (RI_HookConfirmationStarting i).
    - destruct Hr as [Hc Hrt ? Harm ? ? ?]. split; simpl; try done.
      + by apply conversation_snoc.
      + rewrite existsb_app, <- Hrt, Hrd. done.
      + intros ? ? ?. apply elem_of_app. left. by eapply Harm.
      + intros. apply wait_ok_app; auto.
      + intros. apply async_ok_app; auto.
    - destruct Hr. by split. }
  assert (r_ready (with_started id r1) = true) as Hrd1 by (unfold r1; by destruct (RI_HookConfirmationStarting i)).
  split; [|done]. apply run_inv_send; try done; [by left|by apply run_inv_effect|].
  simpl. assert (existsb (says "confirmation.ready") (r_trace r1) = false) as Hn.
  { unfold r1. destruct (RI_HookConfirmationStarting i); [|done]. simpl. by rewrite existsb_app, Hu2. }
  split_and!.
  - rewrite existsb_app. pose proof (ri_ready _ _ H1) as Hrt. simpl in Hrt. simpl in Hrd1. rewrite <- Hrt, Hrd1. done.
  - intros _. rewrite existsb_app, Hn. split; [done|]. intros Hh. unfold r1. rewrite Hh. simpl.
    apply elem_of_app. left. apply elem_of_app. right. by left.
  - done.
  - done.
Qed.
Lemma handle_confirmation_starting_inv env payload : preserves (ready_inv i) (handle_confirmation_starting i env payload).
Proof.
  unfold handle_confirmation_starting. apply preserves_bind; [apply preserves_lift|]. intros id r Hr.
  rewrite ST_bind_unfold. simpl. rewrite ST_bind_unfold. simpl. destruct (r_confirmationStarted r) eqn:Hs; [exact Hr|].
  simpl. rewrite ST_bind_unfold.
  pose proof (confirm_inv r (env_send env "confirmation.ready" [("confirmation_id", JString id)])
    [("confirmation_id", JString id)] id Hr Hs) as Hc. simpl in Hc.
  destruct (RI_HookConfirmationStarting i) eqn:Hh.
  - rewrite ST_bind_unfold. simpl. destruct (env_confirming env) as [e|]; simpl.
    + apply neutral_inv; [done|]. destruct Hr as [Hr Hrd]. split; [|done]. apply run_inv_effect; [done|done|].
      by apply (ri_unstarted _ _ Hr Hs).
    + do 2 (rewrite ST_bind_unfold; simpl). rewrite send_or_fail_state. apply Hc.
  - simpl. do 2 (rewrite ST_bind_unfold; simpl). rewrite send_or_fail_state. apply Hc.
Qed.

Lemma with_completed_inv r : ready_inv i r → ready_inv i (with_completed r).
Proof. intros [[] ?]. by split. Qed.
Lemma with_terminal_inv t r : ready_inv i r → ready_inv i (with_terminal t r).
Proof. intros [[] ?]. by split. Qed.
Lemma handle_confirmation_completed_inv payload : preserves (ready_inv i) (handle_confirmation_completed payload).
Proof.
  unfold handle_confirmation_completed. do 5 (apply preserves_bind; [eauto with preserves|intros]).
  apply preserves_bind; [|intros; walk]. apply preserves_modify, with_completed_inv.
Qed.
Lemma handleFrame_inv env frame : preserves (ready_inv i) (handleFrame i env frame).
Proof.
  unfold handleFrame.
  repeat (apply preserves_if;
    [solve [walk | apply handle_otp_prepare_inv | apply handle_otp_triggered_inv | apply handle_otp_ended_inv
           | apply handle_approval_request_inv | apply handle_confirmation_starting_inv
           | apply handle_confirmation_completed_inv
           | apply preserves_bind; [eauto with preserves|intros; apply preserves_modify, with_terminal_inv]] |]).
  apply preserves_fail.
Qed.

(** ** Results of the goroutines *)

Lemma on_otp_result_inv env id r0 r :
  ready_inv i r → async_ok (r_trace r) (AsyncOTP id r0) → ready_inv i (on_otp_result i env id r0 r).1.
Proof.
  intros Hr Ha. unfold on_otp_result. rewrite ST_bind_unfold. simpl.
  destruct (bool_decide _); [|exact Hr]. simpl. destruct r0 as [m|e].
  - simpl in Ha. rewrite ST_bind_unfold. simpl. rewrite ST_bind_unfold. simpl.
    match goal with |- context [with_effect (ESend ?k ?p ?e) ?r'] => assert (ready_inv i (with_effect (ESend k p e) r')) as H1 end.
    { destruct (with_hub_inv i (SetOTP (jobKey i) (MCode m) (Add (env_now env) (RI_OTPTimeout i)) (r_hub r)) r Hr) as [H1 Hrd].
      split; [|done]. apply run_inv_send; try done; [by right|]. simpl. split_and!; try done.
      - pose proof (ri_ready _ _ H1) as Ht. simpl in Ht, Hrd. rewrite <- Ht, Hrd. done.
      - eauto. }
    destruct (env_send _ _ _).
    + rewrite ST_bind_unfold. simpl. by apply with_hub_inv.
    + simpl. by apply neutral_inv.
  - revert r Hr Ha. intros r Hr _. revert r Hr. refine (_ : preserves _ _).
    destruct (errors_is e ContextDeadlineExceeded); walk.
Qed.
Lemma on_approval_result_inv env id r0 r :
  ready_inv i r → async_ok (r_trace r) (AsyncApproval id r0) → ready_inv i (on_approval_result i env id r0 r).1.
Proof.
  intros Hr Ha. unfold on_approval_result. destruct r0 as [d|e].
  - destruct (negb (ApprovalDecision_Valid (decision_of d))).
    + revert r Hr Ha. intros r Hr _. revert r Hr. refine (_ : preserves _ _). walk.
    + rewrite ST_bind_unfold.
      assert (∀ r1, ready_inv i r1 → EHubDecision id d ∈ r_trace r1 →
        (RI_HookApprovalResolved i = true → EHookApprovalResolved (decision_of d) None ∈ r_trace r1) →
        ready_inv i (send_or_fail env (if bool_decide (decision_of d = DecisionApprove) then "approval.approve" else "approval.cancel")
          [("approval_id", JString id)] r1).1) as Hsend.
      { intros r1 H1 Hd Hh. destruct (bool_decide_reflect (decision_of d = DecisionApprove)) as [Hdec|]; [|by apply send_or_fail_inv].
        rewrite send_or_fail_state. destruct H1 as [H1 Hrd]. split; [|done].
        apply run_inv_send; try done; [by right|]. simpl. split_and!; try done.
        - rewrite <- (ri_ready _ _ H1), Hrd. done.
        - intros _. exists id. rewrite Hdec in Hh. split_and!; try done.
          unfold decision_of in Hdec. destruct (String.eqb_spec d "approve"); [by subst|]. by destruct (String.eqb d "cancel"). }
      simpl in Ha. destruct (RI_HookApprovalResolved i) eqn:Hh.
      * rewrite ST_bind_unfold. cbn [emit modify]. unfold emit, modify.
        assert (ready_inv i (with_effect (EHookApprovalResolved (decision_of d) (env_resolved env)) r)) as H1 by by apply neutral_inv.
        destruct (env_resolved env) as [e|]; [exact H1|]. apply Hsend; [done| |intros _]; simpl; apply elem_of_app; [by left|right; by left].
      * by apply Hsend.
  - revert r Hr Ha. intros r Hr _. revert r Hr. refine (_ : preserves _ _). walk.
Qed.
End handlers.

(** ** The loop *)

Section steps.
Context (i : RunInput).

Lemma quiet_inv e r : unremarkable e = true → neutral e = true → run_inv i r → run_inv i (with_effect e r).
Proof. intros ? He ?. apply run_inv_effect; [done..|]. by destruct e. Qed.
Lemma emit_quiet e : unremarkable e = true → neutral e = true → preserves (run_inv i) (emit e).
Proof. intros ??. apply preserves_modify. intros r ?. by apply quiet_inv. Qed.
Lemma on_hub_quiet f : preserves (run_inv i) (on_hub f).
Proof. apply preserves_modify. intros r []. by split. Qed.
Lemma streams_quiet f : (∀ r, ∃ a b c d, f r = with_streams a b c d r) → preserves (run_inv i) (modify f).
Proof. intros Hf. apply preserves_modify. intros r []. destruct (Hf r) as (a & b & c & d & ->). by split. Qed.
Lemma cancelChallenges_inv : preserves (run_inv i) cancelChallenges.
Proof.
  intros r Hr. unfold cancelChallenges. simpl. generalize (filter (λ kv : string * (Armed * bool), kv.2.2 = true) (map_to_list (r_challenges r))).
  intros l. revert r Hr. induction l as [|kv l IH]; intros r Hr; [done|]. simpl. apply IH. by apply quiet_inv.
Qed.

Lemma negotiate_inv env frame r : r_ready r = false → run_inv i r → run_inv i (negotiate i env frame r).1.
Proof.
  intros Hrd Hr. unfold negotiate. destruct (_ && _ && _); simpl.
  - rewrite ST_bind_unfold. simpl. rewrite ST_bind_unfold. simpl.
    match goal with |- context [with_effect (ESend ?k ?p ?e) ?r'] => assert (run_inv i (with_effect (ESend k p e) r')) as H1 end.
    { pose proof (ri_ready _ _ Hr) as Ht. rewrite Hrd in Ht. destruct Hr as [Hc _ Hid Harm ? ? Hu]. split; simpl; try done.
      - apply conversation_snoc; [done|]. simpl. split_and!; done.
      - by rewrite existsb_app, orb_comm.
      - intros ? ? ?. apply elem_of_app. left. by eapply Harm.
      - intros. apply wait_ok_app; auto.
      - intros. apply async_ok_app; auto.
      - intros [Hu1 Hu2]%Hu. rewrite existsb_app, Hu2. split; [|done].
        rewrite elem_of_app, list_elem_of_singleton. by intros [?|?]. }
    destruct (env_send env _ _); [rewrite ST_bind_unfold; simpl; by apply quiet_inv|done].
  - by apply quiet_inv.
Qed.

(** A goroutine or a result exists only after the negotiation. *)
Lemma busy_ready r : run_inv i r → r_waits r ≠ [] ∨ r_async r ≠ [] → ready_inv i r.
Proof.
  intros Hr Hb. split; [done|]. destruct (r_ready r) eqn:Hrd; [done|].
  destruct (ri_idle _ _ Hr Hrd) as [Hw Ha]. by destruct Hb.
Qed.
Lemma waiting_ready r k w : run_inv i r → r_waits r !! k = Some w → ready_inv i r ∧ wait_ok i (r_trace r) w.
Proof.
  intros Hr Hw. split.
  - apply busy_ready; [done|]. left. by intros Hn; rewrite Hn in Hw.
  - apply (ri_waits _ _ Hr). by eapply list_elem_of_lookup_2.
Qed.
Lemma end_wait_inv k : preserves (ready_inv i) (end_wait k).
Proof.
  apply preserves_modify. intros r. apply with_waits_inv. intros w Hw. left.
  eapply elem_of_sublist, sublist_delete. exact Hw.
Qed.
Lemma deliver_inv b a r : async_ok (r_trace r) a → ready_inv i r → ready_inv i (deliver b a r).1.
Proof.
  intros Ha Hr. destruct b; [|done]. simpl. apply with_async_inv; [|done].
  intros x [?| ->%list_elem_of_singleton]%elem_of_app; [by left|by right].
Qed.
Lemma put_wait_inv k w r : wait_ok i (r_trace r) w → ready_inv i r → ready_inv i (with_waits (<[k := w]>) r).
Proof.
  intros Hw. apply with_waits_inv. intros x (j & Hj)%list_elem_of_lookup_1.
  apply list_lookup_insert_Some in Hj as [(_ & -> & _)|[_ ?]]; [by right|left; by eapply list_elem_of_lookup_2].
Qed.

Lemma ready_run r : ready_inv i r → run_inv i r.
Proof. by intros []. Qed.

(** Giving a result up or handing it over ends the goroutine. *)
Lemma hand_over_inv k (f : Hub → Hub) b a r :
  async_ok (r_trace r) a → ready_inv i r →
  ready_inv i ((_ ← on_hub f; _ ← end_wait k; _ ← deliver b a; mret (@None RunResult)) r).1.
Proof.
  intros Ha Hr. rewrite ST_bind_unfold. simpl. rewrite ST_bind_unfold. simpl. rewrite ST_bind_unfold.
  pose proof (deliver_inv b a (with_waits (delete k) (with_hub (f (r_hub r)) r))) as Hd.
  destruct b; apply Hd; try exact Ha; apply (end_wait_inv k), with_hub_inv; done.
Qed.

(** The events that touch neither the goroutines nor the protocol. *)
Definition background (ev : event) : bool :=
  match ev with
  | EvCtxDone | EvFramesClosed | EvProcessDone _ | EvDoneClosed | EvCancelContext | EvHub _ => true
  | _ => false
  end.
Lemma step_background_inv env ev : background ev = true → preserves (run_inv i) (step i env ev).
Proof.
  intros Hb. destruct ev as [| | | |p| | | | | | | |op]; try done; cbn [step];
    repeat (apply preserves_bind; [|intros]);
    first [ apply preserves_ret | apply preserves_gets | apply on_hub_quiet | apply cancelChallenges_inv
          | by apply emit_quiet | solve [apply streams_quiet; eauto 6] | idtac ].
  - apply preserves_modify. intros r []. by split.
  - destruct (PR_Err p); [by apply emit_quiet|apply preserves_ret].
Qed.
Lemma step_frame_inv env frame r : run_inv i r → run_inv i (step i env (EvFrame frame) r).1.
Proof.
  intros Hr. cbn [step]. rewrite ST_bind_unfold. simpl. destruct (r_ready r) eqn:Hrd; simpl.
  - pose proof (handleFrame_inv i env frame r (conj Hr Hrd)) as Hf.
    destruct (handleFrame i env frame r) as [r' [u|e]]; simpl in *; [apply Hf|]. apply quiet_inv; [done..|apply Hf].
  - rewrite ST_bind_unfold. pose proof (negotiate_inv env frame r Hrd Hr) as Hn.
    destruct (negotiate i env frame r) as [r' [u|e]]; apply Hn.
Qed.
Lemma step_async_inv env r : r_async r ≠ [] → run_inv i r → run_inv i (step i env EvAsync r).1.
Proof.
  intros Hne Hr. assert (ready_inv i r) as Hrr by (apply busy_ready; auto). apply ready_run.
  cbn [step]. rewrite ST_bind_unfold. simpl. rewrite ST_bind_unfold. simpl. rewrite ST_bind_unfold.
  destruct (r_async r) as [|a l] eqn:Ha; [done|]. simpl.
  assert (async_ok (r_trace r) a) as Hok by (apply (ri_async _ _ Hr); rewrite Ha; by left).
  assert (ready_inv i (with_async tail r)) as Hr1.
  { apply with_async_inv; [|done]. rewrite Ha. intros x Hx. left. by right. }
  destruct a as [id x|id x].
  - pose proof (on_otp_result_inv i env id x _ Hr1 Hok) as H1.
    destruct (on_otp_result i env id x (with_async tail r)) as [r' [u|e]]; apply H1.
  - pose proof (on_approval_result_inv i env id x _ Hr1 Hok) as H1.
    destruct (on_approval_result i env id x (with_async tail r)) as [r' [u|e]]; apply H1.
Qed.
Lemma step_otp_wait_inv env k res b r : run_inv i r → run_inv i (step i env (EvOTPWaitEnds k res b) r).1.
Proof.
  intros Hr. cbn [step]. rewrite ST_bind_unfold. simpl. destruct (r_waits r !! k) as [[id|id|id q|id d]|] eqn:Hw; try exact Hr.
  destruct (waiting_ready _ _ _ Hr Hw) as [Hrr Hwk]. simpl in Hwk. apply ready_run.
  rewrite ST_bind_unfold. simpl. pose proof (end_wait_inv k r Hrr) as H1. simpl in H1.
  rewrite ST_bind_unfold. destruct res as [m|e]; simpl; rewrite ST_bind_unfold.
  - pose proof (deliver_inv b (AsyncOTP id (Ok m)) (with_effect (EProviderCode id (MCode m)) (with_waits (delete k) r))) as Hd.
    assert (ready_inv i (with_effect (EProviderCode id (MCode m)) (with_waits (delete k) r))) as H2.
    { destruct H1 as [H1 ?]. split; [|done]. by apply run_inv_effect. }
    destruct b; apply Hd; try done; simpl; apply elem_of_app; right; by left.
  - pose proof (deliver_inv b (AsyncOTP id (Err e)) (with_waits (delete k) r) I H1) as Hd. destruct b; apply Hd.
Qed.
Lemma step_lookup_inv env k r : run_inv i r → run_inv i (step i env (EvApprovalLookup k) r).1.
Proof.
  intros Hr. cbn [step]. rewrite ST_bind_unfold. simpl. destruct (r_waits r !! k) as [[id|id|id q|id d]|] eqn:Hw; try exact Hr.
  destruct (waiting_ready _ _ _ Hr Hw) as [Hrr Hwk]. simpl in Hwk. apply ready_run.
  rewrite ST_bind_unfold. simpl. destruct (WaitDecision_begin (jobKey i) (r_hub r)) as [q|e]; rewrite ST_bind_unfold; simpl.
  - by apply put_wait_inv.
  - apply (deliver_inv true); [done|]. by apply end_wait_inv.
Qed.
Lemma step_take_inv env k r : run_inv i r → run_inv i (step i env (EvApprovalTake k) r).1.
Proof.
  intros Hr. cbn [step]. rewrite ST_bind_unfold. simpl. destruct (r_waits r !! k) as [[id|id|id q|id d]|] eqn:Hw; try exact Hr.
  destruct (waiting_ready _ _ _ Hr Hw) as [Hrr Hwk]. simpl in Hwk. apply ready_run.
  rewrite ST_bind_unfold. simpl. destruct (WaitDecision_take q (r_hub r)) as [[h d]|]; rewrite ST_bind_unfold; simpl; [|done].
  apply put_wait_inv; [simpl; apply elem_of_app; right; by left|].
  destruct (with_hub_inv i h r Hrr) as [? ?]. split; [|done]. by apply run_inv_effect.
Qed.
Lemma step_give_up_inv env ev r :
  match ev with EvApprovalReturn _ _ | EvApprovalContext _ _ => True | _ => False end →
  run_inv i r → run_inv i (step i env ev r).1.
Proof.
  intros Hev Hr. destruct ev as [| | | | | | | | | |k b|k b|]; try done; cbn [step]; rewrite ST_bind_unfold; simpl;
    (destruct (r_waits r !! k) as [[id|id|id q|id d]|] eqn:Hw; try exact Hr;
     destruct (waiting_ready _ _ _ Hr Hw) as [Hrr Hwk]; simpl in Hwk; apply ready_run; by apply hand_over_inv).
Qed.
Lemma step_inv env ev r : enabled r ev = true → run_inv i r → run_inv i (step i env ev r).1.
Proof.
  intros Hen Hr. destruct ev as [|frame| | |p| | |k res b|k|k|k b|k b|op]; try by apply step_background_inv.
  - by apply step_frame_inv.
  - apply step_async_inv; [|done]. simpl in Hen. by apply negb_true_iff, bool_decide_eq_false in Hen.
  - by apply step_otp_wait_inv.
  - by apply step_lookup_inv.
  - by apply step_take_inv.
  - by apply step_give_up_inv.
  - by apply step_give_up_inv.
Qed.
Lemma loop_inv evs r : run_inv i r → run_inv i (loop i evs r).1.
Proof.
  revert r. induction evs as [|[env ev] evs IH]; intros r Hr; [done|]. simpl.
  destruct (enabled r ev) eqn:Hen; [|by apply IH]. pose proof (step_inv env ev r Hen Hr) as Hs.
  destruct (step i env ev r) as [r' [[res|]|e]]; simpl in *; auto.
Qed.
End steps.

Lemma initial_inv i h ctx : run_inv i (initial h ctx).
Proof.
  split; simpl; try done; try set_solver.
  - apply conversation_nil.
Qed.
(** Every run is a conversation. *)
Lemma Run_conversation input factory h ctx evs :
  conversation (with_defaults input) (r_trace (Run input factory h ctx evs).1).
Proof.
  unfold Run. destruct (_ || _ || _); [apply conversation_nil|]. destruct factory; [apply conversation_nil|].
  pose proof (loop_inv (with_defaults input) evs _ (initial_inv (with_defaults input) h ctx)) as Hl.
  destruct (loop _ _ _) as [r [outcome|]]; simpl in *; [|apply Hl].
  assert (run_inv (with_defaults input) (cancelChallenges r).1) as Hc by by apply cancelChallenges_inv.
  by destruct Hc.
Qed.

(** ** What the handlers of a run keep

    [run_kept I] is the interface of the elementary updates of the run state; a property
    that each of them keeps is kept by every handler of frames and of results, and by the
    negotiation.  The hub is changed in two ways only: by what it displays, and by the
    wait for an approval. *)

Inductive display (i : RunInput) : (Hub → Hub) → Prop :=
  | display_publish event : display i (Publish (jobKey i) event)
  | display_set code expires : display i (SetOTP (jobKey i) code expires)
  | display_clear : display i (ClearOTP (jobKey i)).

(** Effects a goroutine reports, not a handler. *)
Definition reported (e : effect) : bool :=
  match e with EProviderCode _ _ | EHubDecision _ _ => true | _ => false end.
(** The goroutines a handler starts. *)
Definition starting (w : wait) : bool := match w with WaitOTP _ | WaitApprovalStart _ => true | _ => false end.

Class run_kept (i : RunInput) (I : runState → Prop) : Prop := {
  rk_effect : ∀ e r, reported e = false → I r → I (with_effect e r);
  rk_display : ∀ f r, display i f → I r → I (with_hub (f (r_hub r)) r);
  rk_begin : ∀ r, I r → I (with_hub (BeginDecision (jobKey i) (r_hub r)).1 r);
  rk_ready : ∀ r, I r → I (with_ready r);
  rk_challenges : ∀ f r, I r → I (with_challenges f r);
  rk_started : ∀ id r, I r → I (with_started id r);
  rk_completed : ∀ r, I r → I (with_completed r);
  rk_terminal : ∀ v status m r, terminalStatus v = Ok status → I r → I (with_terminal (MkRunResult status m 0) r);
  rk_wait : ∀ w r, starting w = true → I r → I (with_waits (λ l, l ++ [w])%list r)
}.

Lemma cancelChallenges_frame (I : runState → Prop) :
  (∀ e r, reported e = false → I r → I (with_effect e r)) → preserves I cancelChallenges.
Proof.
  intros HI r Hr. unfold cancelChallenges. simpl.
  generalize (filter (λ kv : string * (Armed * bool), kv.2.2 = true) (map_to_list (r_challenges r))).
  intros l. revert r Hr. induction l as [|kv l IH]; intros r Hr; simpl; auto.
Qed.

Section kept.
Context {i : RunInput} {I : runState → Prop} `{HI : !run_kept i I}.

Lemma run_complete_keeps v message : preserves I
  (status ← lift (terminalStatus v); modify (with_terminal (MkRunResult status message 0))).
Proof using HI.
  intros r Hr. rewrite ST_bind_unfold. unfold lift. destruct (terminalStatus v) eqn:Ht; [|done]. by eapply rk_terminal.
Qed.
Lemma emit_keeps e : reported e = false → preserves I (emit e).
Proof using HI. intros He. apply preserves_modify. intros r. by apply rk_effect. Qed.
Lemma display_keeps f : display i f → preserves I (on_hub f).
Proof using HI. intros Hf. apply preserves_modify. intros r. by apply rk_display. Qed.
Lemma begin_keeps {A} (f : Hub * result unit → ST runState A) :
  (∀ o, preserves I (f o)) →
  preserves I (begun ← gets (λ r, BeginDecision (jobKey i) (r_hub r)); _ ← on_hub (λ _, begun.1); f begun).
Proof using HI.
  intros Hf r Hr. rewrite ST_bind_unfold. cbn [gets]. rewrite ST_bind_unfold. cbn [on_hub modify].
  apply Hf. by apply rk_begin.
Qed.
Lemma modify_keeps f : (∀ r, I r → I (f r)) → preserves I (modify f).
Proof using Type. apply preserves_modify. Qed.

Local Ltac keep := repeat first
  [ apply run_complete_keeps | apply begin_keeps; intros | apply preserves_bind; intros
  | apply preserves_ret | apply preserves_fail | apply preserves_gets | apply preserves_reject | apply preserves_lift
  | by apply emit_keeps | apply display_keeps; constructor
  | apply modify_keeps; intros;
      first [by apply rk_ready | by apply rk_challenges | by apply rk_started | by apply rk_completed | by apply rk_wait]
  | match goal with |- preserves _ (if ?b then _ else _) => destruct b end
  | match goal with |- preserves _ (match ?x with _ => _ end) => destruct x end ].

Lemma handleFrame_keeps env frame : preserves I (handleFrame i env frame).
Proof using HI.
  unfold handleFrame, handle_otp_prepare, handle_otp_triggered, handle_otp_ended, handle_approval_request,
    handle_confirmation_starting, handle_confirmation_completed, send_or_fail, send, publish.
  cbv zeta. repeat (apply preserves_if; [keep|]). keep.
Qed.
Lemma results_keep env a : preserves I
  (match a with
   | Some (AsyncOTP id r) => on_otp_result i env id r
   | Some (AsyncApproval id r) => on_approval_result i env id r
   | None => mret tt
   end).
Proof using HI.
  unfold on_otp_result, on_approval_result, send_or_fail, send. cbv zeta.
  destruct a as [[id r|id r]|]; keep.
Qed.
Lemma negotiate_keeps env frame : preserves I (negotiate i env frame).
Proof using HI. unfold negotiate, send. cbv zeta. keep. Qed.
Lemma cancelChallenges_keeps : preserves I cancelChallenges.
Proof using HI. apply cancelChallenges_frame, rk_effect. Qed.
End kept.
