(* ===== verification/CoordinatorProperties.v ===== *)
(** * What a run says, returns and leaves behind (src/internal/control/coordinator.go) *)

From S2P Require Import Prelude GoStrings GoTime Json Origin Domain Otp Hub ActionProc Coordinator CoordinatorInvariants.
From Stdlib Require Import Ascii String.

Open Scope Z_scope.

(** ** Returning *)

Definition final_status (s : JobStatus) : Prop :=
  s = JobSucceeded ∨ s = JobFailed ∨ s = JobCancelled ∨ s = JobOutcomeUnknown.
Definition terminal_ok (r : runState) : Prop := ∀ t, r_terminal r = Some t → final_status (RR_Status t).
(** The loop still waits for the process or for the end of its frames. *)
Definition pending (r : runState) : Prop := terminal_ok r ∧ (r_eventStream r = true ∨ r_processResult r = None).
Definition finished (r : runState) (res : RunResult) : Prop :=
  ∃ p, r_processResult r = Some p ∧ r_eventStream r = false ∧ res = finishRun r (PR_ExitCode p).

Lemma terminalStatus_final v s : terminalStatus v = Ok s → final_status s.
Proof. unfold terminalStatus, final_status. repeat case_match; intros; simplify_eq; auto. Qed.

Section pending.
Context (i : RunInput).

Lemma with_terminal_pending v status m r :
  terminalStatus v = Ok status → pending r → pending (with_terminal (MkRunResult status m 0) r).
Proof. intros Hv [_ ?]. split; [|done]. intros t [= <-]. by eapply terminalStatus_final. Qed.
#[local] Instance pending_kept : run_kept i pending.
Proof.
  split; intros; try (match goal with H : pending _ |- _ => destruct H as [H1 H2]; split; [exact H1|exact H2] end).
  by eapply with_terminal_pending.
Qed.

Definition never_returns {A} (m : ST runState (option A)) : Prop := ∀ r, match (m r).2 with Ok (Some _) => False | _ => True end.
Lemma never_returns_bind {A B} (m : ST runState A) (f : A → ST runState (option B)) :
  (∀ a, never_returns (f a)) → never_returns (m ≫= f).
Proof. intros Hf r. rewrite ST_bind_unfold. destruct (m r) as [r' [a|e]]; [apply Hf|done]. Qed.

Definition decisive (ev : event) : bool := match ev with EvFramesClosed | EvProcessDone _ => true | _ => false end.
Lemma step_never_returns env ev : decisive ev = false → never_returns (step i env ev).
Proof.
  intros Hd. destruct ev; try done; cbn [step];
    repeat (apply never_returns_bind; intros); try by intros ?.
  all: repeat case_match; repeat (apply never_returns_bind; intros); try by intros ?.
  all: try (intros r0; destruct (handleFrame i env frame r0) as [r' [u|e]]; done).
Qed.
Lemma step_pending env ev : decisive ev = false → preserves pending (step i env ev).
Proof.
  intros Hd.
  assert (∀ f, (∀ r, r_terminal (f r) = r_terminal r ∧ r_eventStream (f r) = r_eventStream r ∧ r_processResult (f r) = r_processResult r) →
    preserves pending (modify f)) as Hmod.
  { intros f Hf. apply preserves_modify. intros r [Ht Hs]. destruct (Hf r) as (Hf1 & Hf2 & Hf3).
    split; [intros t; rewrite Hf1; apply Ht|by rewrite Hf2, Hf3]. }
  destruct ev; try done; cbn [step]; unfold emit, on_hub, end_wait, deliver;
    repeat first
      [ apply preserves_ret | apply preserves_gets | apply preserves_fail
      | by apply Hmod
      | apply negotiate_keeps
      | apply results_keep
      | apply preserves_bind; intros
      | match goal with |- preserves _ (if ?b then _ else _) => destruct b end
      | match goal with |- preserves _ (match ?x with _ => _ end) => destruct x end ].
  intros r Hr. pose proof (handleFrame_keeps (I := pending) (i := i) env frame r Hr) as H1.
  destruct (handleFrame i env frame r) as [r' [u|e]]; exact H1.
Qed.

Definition after_process (p : ProcessResult) (r : runState) : runState :=
  let r1 := match PR_Err p with Some e => with_effect (EDiagnostic "process.exit" e) (with_process p r) | None => with_process p r end in
  let r2 := (cancelChallenges r1).1 in with_hub (ClearOTP (jobKey i) (r_hub r2)) r2.
Lemma step_process_done env p r :
  step i env (EvProcessDone p) r =
    (after_process p r, Ok (if r_eventStream (after_process p r) then None else Some (finishRun (after_process p r) (PR_ExitCode p)))).
Proof. cbn [step]. unfold after_process. by destruct (PR_Err p). Qed.
Lemma after_process_keeps p r : 
  r_terminal (after_process p r) = r_terminal r ∧ r_processResult (after_process p r) = Some p
  ∧ r_eventStream (after_process p r) = r_eventStream r.
Proof.
  set (I := λ s : runState, r_terminal s = r_terminal r ∧ r_processResult s = Some p ∧ r_eventStream s = r_eventStream r).
  assert (I (with_process p r)) as HI by done.
  unfold after_process. cbv zeta.
  assert (∀ s, I s → I (cancelChallenges s).1) as Hc by (intros s; by apply cancelChallenges_frame).
  destruct (PR_Err p); apply (Hc _); done.
Qed.

Lemma step_decisive env ev r r' o : decisive ev = true → pending r → step i env ev r = (r', o) →
  terminal_ok r' ∧ match o with Ok None => pending r' | Ok (Some res) => finished r' res | Err _ => True end.
Proof.
  intros Hd [Ht Hs]. destruct ev as [| | | |p| | | | | | | |]; try done.
  - cbn [step]. rewrite ST_bind_unfold. simpl. intros [= <- <-]. split; [done|]. simpl.
    destruct (r_processResult r) as [p|] eqn:Hp; [|split; [done|by right]]. exists p. done.
  - rewrite step_process_done. pose proof (after_process_keeps p r) as (H1 & H2 & H3).
    generalize dependent (after_process p r). intros s H1 H2 H3 [= <- <-].
    assert (terminal_ok s) as Ht' by (intros t; rewrite H1; apply Ht). split; [exact Ht'|].
    destruct (r_eventStream s) eqn:He; [split; [exact Ht'|by left]|by exists p].
Qed.

Lemma loop_ends evs r r' o : pending r → loop i evs r = (r', o) →
  terminal_ok r' ∧ match o with None => pending r' | Some (Ok res) => finished r' res | Some (Err _) => True end.
Proof.
  revert r. induction evs as [|[env ev] evs IH]; intros r Hp; simpl.
  - intros [= <- <-]. split; [apply Hp|done].
  - destruct (enabled r ev); [|by apply IH]. destruct (step i env ev r) as [r1 o1] eqn:Hs.
    destruct (decisive ev) eqn:Hd.
    + pose proof (step_decisive env ev r r1 o1 Hd Hp Hs) as [Ht H1].
      destruct o1 as [[res|]|e]; [by intros [= <- <-]|by apply IH|by intros [= <- <-]].
    + pose proof (step_pending env ev Hd r Hp) as H1. pose proof (step_never_returns env ev Hd r) as H2.
      rewrite Hs in H1, H2. destruct o1 as [[res|]|e]; [done|by apply IH|].
      intros [= <- <-]. split; [apply H1|done].
Qed.
End pending.

Lemma pending_initial h ctx : pending (initial h ctx).
Proof. split; [by intros ?|by left]. Qed.

(** ** The properties *)

Lemma finishRun_spec r code : terminal_ok r →
  RR_ExitCode (finishRun r code) = code
  ∧ (RR_Status (finishRun r code) = JobSucceeded ↔ ∃ t, r_terminal r = Some t ∧ RR_Status t = JobSucceeded)
  ∧ (r_confirmationStarted r = true →
       RR_Status (finishRun r code) = JobSucceeded ∨ RR_Status (finishRun r code) = JobCancelled
       ∨ RR_Status (finishRun r code) = JobOutcomeUnknown)
  ∧ (RR_Status (finishRun r code) = JobInterrupted → r_ctxErr r = true ∧ r_terminal r = None).
Proof.
  intros Hok. unfold finishRun. destruct (r_terminal r) as [t|] eqn:Ht.
  - specialize (Hok t Ht). unfold final_status in Hok.
    destruct (r_confirmationStarted r), (bool_decide_reflect (RR_Status t = JobFailed)); simpl;
      (split_and!; [done|split; [|intros (t' & [= <-] & ?)]|intros; try done|intros; try done]); try congruence; eauto;
      destruct Hok as [?|[?|[?|?]]]; auto; congruence.
  - destruct (r_confirmationStarted r), (r_ctxErr r) eqn:Hx; simpl; split_and!; try done; try (split; [done|by intros (? & ? & _)]); auto.
Qed.

Lemma cancelChallenges_challenges r : r_challenges (cancelChallenges r).1 = r_challenges r.
Proof. by apply (cancelChallenges_frame (λ s, r_challenges s = r_challenges r)). Qed.
Lemma effects_trace es r :
  r_trace (foldl (λ r e, with_effect e r) r es) = (r_trace r ++ es)%list.
Proof. revert r. induction es as [|e es IH]; intros r; simpl; [by rewrite app_nil_r|]. rewrite IH. simpl. by rewrite <- app_assoc. Qed.
Lemma cancelChallenges_trace r :
  r_trace (cancelChallenges r).1 = (r_trace r ++ ((λ kv : string * (Armed * bool), ECancelChallenge kv.1) <$>
    filter (λ kv : string * (Armed * bool), kv.2.2 = true) (map_to_list (r_challenges r))))%list.
Proof. apply effects_trace. Qed.

(** The state at the return is the loop's after the deferred functions. *)
Lemma deferred_keeps i r :
  r_terminal (deferred i r) = r_terminal r ∧ r_processResult (deferred i r) = r_processResult r
  ∧ r_eventStream (deferred i r) = r_eventStream r ∧ r_confirmationStarted (deferred i r) = r_confirmationStarted r
  ∧ r_confirmationCompleted (deferred i r) = r_confirmationCompleted r ∧ r_ctxErr (deferred i r) = r_ctxErr r.
Proof.
  set (I := λ s : runState, r_terminal s = r_terminal r ∧ r_processResult s = r_processResult r
    ∧ r_eventStream s = r_eventStream r ∧ r_confirmationStarted s = r_confirmationStarted r
    ∧ r_confirmationCompleted s = r_confirmationCompleted r ∧ r_ctxErr s = r_ctxErr r).
  apply (cancelChallenges_frame I); done.
Qed.
Lemma Run_cases input factory h ctx evs r outcome :
  Run input factory h ctx evs = (r, Some outcome) →
  (r = initial h ctx ∧ ∃ e, outcome = Err e)
  ∨ ∃ r1 o, run_inv (with_defaults input) (deferred (with_defaults input) r1) ∧ terminal_ok r1
      ∧ match o with Ok res => finished r1 res | Err _ => True end
      ∧ r = deferred (with_defaults input) r1 ∧ outcome = returned r1 o.
Proof.
  unfold Run. destruct (_ || _ || _); [intros [= <- <-]; eauto|]. destruct factory; [intros [= <- <-]; eauto|].
  pose proof (loop_inv (with_defaults input) evs _ (initial_inv (with_defaults input) h ctx)) as Hl.
  destruct (loop _ _ _) as [r1 [o|]] eqn:Hlp; [|done]. intros [= <- <-]. right. exists r1, o.
  pose proof (loop_ends _ _ _ _ _ (pending_initial h ctx) Hlp) as [Hok Hfin]. split_and!; try done.
  assert (run_inv (with_defaults input) (cancelChallenges r1).1) as Hc by by apply cancelChallenges_inv.
  by destruct Hc.
Qed.

(** C3: a refinement. The trace of every run, whatever its process, its provider, its hooks,
    the other users of the hub and the scheduling do, is a conversation: [run.start] is the
    first message and is sent once; a challenge is triggered after it was armed, and a code
    is received after the trigger; [otp.provide], [approval.approve] and
    [confirmation.ready] are sent only when the conversation allows them, the last one
    once. *)
Theorem every_run_is_a_conversation input factory h ctx evs :
  conversation (with_defaults input) (r_trace (Run input factory h ctx evs).1).
Proof. apply Run_conversation. Qed.

(** The browser may click only after the mark. Wherever a run sends [confirmation.ready],
    it had not sent it before, and the hook that marks the job durably had succeeded. *)
Theorem confirmation_acknowledged_once_after_the_mark input factory h ctx evs tr1 p err tr2 :
  r_trace (Run input factory h ctx evs).1 = (tr1 ++ ESend "confirmation.ready" p err :: tr2)%list →
  existsb (says "confirmation.ready") tr1 = false
  ∧ (RI_HookConfirmationStarting input = true → EHookConfirmationStarting None ∈ tr1).
Proof.
  intros Ht. pose proof (Run_conversation input factory h ctx evs) as Hc. rewrite Ht in Hc.
  destruct (conversation_at _ _ _ _ Hc) as (_ & Hr & _). by apply Hr.
Qed.

(** C8: no approval without a person. Wherever a run sends [approval.approve], it is the
    run of a manual booking, the message answers an approval for which the job was stored
    as awaiting, the hub gave the decision "approve" for it, and the decision was stored. *)
Theorem approval_needs_a_decision input factory h ctx evs tr1 p err tr2 :
  r_trace (Run input factory h ctx evs).1 = (tr1 ++ ESend "approval.approve" p err :: tr2)%list →
  RI_Command input = CommandBook ∧ RI_Mode input = RunModeManual
  ∧ ∃ id, p = [("approval_id", JString id)] ∧ EHubDecision id "approve" ∈ tr1
    ∧ (RI_HookAwaitingApproval input = true → ∃ pass, EHookAwaitingApproval id pass None ∈ tr1)
    ∧ (RI_HookApprovalResolved input = true → EHookApprovalResolved DecisionApprove None ∈ tr1).
Proof.
  intros Ht. pose proof (Run_conversation input factory h ctx evs) as Hc. rewrite Ht in Hc.
  destruct (conversation_at _ _ _ _ Hc) as (_ & _ & Ha & _). destruct (Ha eq_refl) as (id & -> & Hd & Hh).
  pose proof Hd as (a & b & ->)%list_elem_of_split.
  rewrite <- app_assoc in Hc. destruct (conversation_at _ _ _ _ Hc) as [[Hb Hm] Haw].
  split_and!; [done..|]. exists id. split_and!; try done.
  intros [pass Hp]%Haw. exists pass. apply elem_of_app. by left.
Qed.

(** The code the browser gets is the provider's. Wherever a run sends [otp.provide], the
    code is one the provider returned for that challenge, after the challenge was triggered,
    after the inbox was armed for it. *)
Theorem provided_codes_come_from_the_provider input factory h ctx evs tr1 p err tr2 :
  r_trace (Run input factory h ctx evs).1 = (tr1 ++ ESend "otp.provide" p err :: tr2)%list →
  ∃ id code a b c d, p = [("challenge_id", JString id); ("code", JString code)]
    ∧ tr1 = (a ++ EArm id true :: b ++ ETrigger id :: c ++ EProviderCode id code :: d)%list.
Proof.
  intros Ht. pose proof (Run_conversation input factory h ctx evs) as Hc. rewrite Ht in Hc.
  destruct (conversation_at _ _ _ _ Hc) as (_ & _ & _ & Ho). destruct (Ho eq_refl) as (id & code & -> & Hp).
  apply list_elem_of_split in Hp as (x & d & ->). rewrite <- app_assoc in Hc.
  pose proof (conversation_at _ _ _ _ Hc) as Hx. simpl in Hx. apply list_elem_of_split in Hx as (y & c & ->).
  rewrite <- app_assoc in Hc. pose proof (conversation_at _ _ _ _ Hc) as Hy. simpl in Hy.
  apply list_elem_of_split in Hy as (a & b & ->). exists id, code, a, b, c, d. split; [done|].
  by repeat (rewrite <- app_assoc; simpl).
Qed.

(** C7: what [Run] returns. Without an error: unless the completion of the confirmation was
    reported the process had exited with the returned code and its frames had ended; the run
    succeeded exactly if the completion of the
    confirmation was reported or the last terminal frame says so; once the confirmation was
    marked or acknowledged it can only be succeeded, cancelled or unresolved; and
    "interrupted" means that the context was done and no terminal frame had come. An error
    is returned only if no completion was reported. *)
Theorem run_outcome_is_conservative input factory h ctx evs r outcome :
  Run input factory h ctx evs = (r, Some outcome) →
  match outcome with
  | Err _ => r_confirmationCompleted r = false
  | Ok res =>
      (r_confirmationCompleted r = false →
         r_eventStream r = false ∧ ∃ p, r_processResult r = Some p ∧ RR_ExitCode res = PR_ExitCode p)
      ∧ (RR_Status res = JobSucceeded ↔
           r_confirmationCompleted r = true ∨ ∃ t, r_terminal r = Some t ∧ RR_Status t = JobSucceeded)
      ∧ (EHookConfirmationStarting None ∈ r_trace r ∨ existsb (says "confirmation.ready") (r_trace r) = true →
           RR_Status res = JobSucceeded ∨ RR_Status res = JobCancelled ∨ RR_Status res = JobOutcomeUnknown)
      ∧ (RR_Status res = JobInterrupted → r_ctxErr r = true ∧ r_terminal r = None)
  end.
Proof.
  intros [(-> & e & ->)|(r1 & o & Hi & Hok & Hf & -> & ->)]%Run_cases; [done|].
  destruct (deferred_keeps (with_defaults input) r1) as (Ht & Hp & He & Hs & Hc & Hx).
  pose proof (ri_unstarted _ _ Hi) as Hu. rewrite Hs in Hu. rewrite Hc, Hp, He, Ht, Hx.
  assert (EHookConfirmationStarting None ∈ r_trace (deferred (with_defaults input) r1)
    ∨ existsb (says "confirmation.ready") (r_trace (deferred (with_defaults input) r1)) = true →
    r_confirmationStarted r1 = true) as Hstart.
  { intros Hm. destruct (r_confirmationStarted r1); [done|]. destruct (Hu eq_refl) as [H1 H2]. rewrite H2 in Hm. by destruct Hm. }
  destruct o as [res|e]; simpl; destruct (r_confirmationCompleted r1) eqn:Hcc; cbn [andb]; [| | |done].
  - destruct Hf as (p & Hpr & Hev & ->). destruct (finishRun_spec r1 (PR_ExitCode p) Hok) as (Hcode & Hsu & Hst & Hint).
    destruct (bool_decide_reflect (RR_Status (finishRun r1 (PR_ExitCode p)) = JobSucceeded)); cbn [negb]; naive_solver.
  - destruct Hf as (p & Hpr & Hev & ->). destruct (finishRun_spec r1 (PR_ExitCode p) Hok) as (Hcode & Hsu & Hst & Hint).
    naive_solver.
  - split_and!; try done; auto. split; auto.
Qed.

(** Nothing stays behind. When a run that started returns, the hub shows no one-time code
    for its job, and every challenge whose code is being waited for is cancelled. *)
Theorem run_leaves_no_code_behind input h ctx evs r outcome :
  RI_HasProcess input = true → RI_HasProvider input = true → RI_HasHub input = true →
  Run input None h ctx evs = (r, Some outcome) →
  h_otps (r_hub r) !! format_int (RI_JobID input) = None
  ∧ ∀ id armed, r_challenges r !! id = Some (armed, true) → ECancelChallenge id ∈ r_trace r.
Proof.
  intros Hp Hv Hh. unfold Run. rewrite Hp, Hv, Hh. cbn [negb orb].
  destruct (loop _ _ _) as [r1 [o|]]; [|done]. intros [= <- _]. split.
  - simpl. apply lookup_delete_eq.
  - intros id armed.
    change (r_challenges (cancelChallenges r1).1 !! id = Some (armed, true) → ECancelChallenge id ∈ r_trace (cancelChallenges r1).1).
    rewrite cancelChallenges_trace, cancelChallenges_challenges. intros Hid. apply elem_of_app. right. apply list_elem_of_fmap. exists (id, (armed, true)).
    split; [done|]. apply list_elem_of_filter. split; [done|]. by apply elem_of_map_to_list.
Qed.

(** The run ends. Once the process has exited and its frames have ended the loop has
    returned: a run that still waits has neither its process's exit nor the end of the
    frames, or only one of the two. *)
Theorem run_ends_with_its_process input h ctx evs r :
  Run input None h ctx evs = (r, None) → r_eventStream r = true ∨ r_processResult r = None.
Proof.
  unfold Run. destruct (_ || _ || _); [done|].
  destruct (loop _ _ _) as [r1 [o|]] eqn:Hl; [done|]. intros [= <-].
  by destruct (loop_ends _ _ _ _ _ (pending_initial h ctx) Hl) as [_ [_ ?]].
Qed.


(** ** A manual booking from the handshake to the exit *)

Definition sample_message : Message := MkMessage "m1" "482913" "" "" "" "" 0 0.
Definition sample_env : Env :=
  MkEnv 0 (λ _ _, None) (Ok (MkArmed "bluebubbles" 0 (MkCursor 0 0 []) (MkFilter "" "" "" "" 0 false false))) None None None.
Definition frame (kind : string) (payload : list (string * json)) : Env * event :=
  (sample_env, EvFrame (MkFrame 2 kind payload)).
Definition sample_input : RunInput :=
  MkRunInput true true true "" 7 CommandBook RunModeManual [] "+16045550100" (MkFilter "" "" "" "" 0 false false) 0 0 true true true.
Definition to_code : list (Env * event) :=
  [frame "worker.ready" [("action", JString "yodel"); ("protocol", JNumber "2")];
   frame "otp.prepare" [("challenge_id", JString "c1")];
   frame "otp.triggered" [("challenge_id", JString "c1")];
   (sample_env, EvOTPWaitEnds 0 (Ok sample_message) true);
   (sample_env, EvAsync)].
Definition to_approval : list (Env * event) :=
  [frame "otp.submitted" [("challenge_id", JString "c1")];
   frame "approval.request" [("approval_id", JString "a1"); ("pass_key", JString "all_day")];
   (sample_env, EvApprovalLookup 0);
   (sample_env, EvHub (HDecide "7" "approve"));
   (sample_env, EvApprovalTake 0);
   (sample_env, EvApprovalReturn 0 true);
   (sample_env, EvAsync)].
Definition to_confirmation : list (Env * event) :=
  [frame "confirmation.starting" [("confirmation_id", JString "k1")];
   frame "otp.prepare" [("challenge_id", JString "c2")];
   frame "otp.triggered" [("challenge_id", JString "c2")]].
Definition to_exit : list (Env * event) :=
  [frame "run.complete" [("status", JString "failed"); ("message", JString "code 482913 was rejected")];
   (sample_env, EvProcessDone (MkProcessResult 1 None));
   (sample_env, EvFramesClosed)].
Definition sample_run (evs : list (Env * event)) : runState * option (result RunResult) :=
  Run sample_input None NewHub false evs.
Definition position (kind : string) (tr : list effect) : nat :=
  default 0%nat (fst <$> list_find (λ e, says kind e = true) tr).
(** The trace around the first message of a kind. *)
Definition before (kind : string) (tr : list effect) : list effect := take (position kind tr) tr.
Definition after (kind : string) (tr : list effect) : list effect := drop (S (position kind tr)) tr.

Example sample_outcome :
  (sample_run (to_code ++ to_approval ++ to_confirmation ++ to_exit)).2 = Some (Ok (MkRunResult JobOutcomeUnknown unknown_outcome 1)).
Proof. vm_compute. reflexivity. Qed.

Lemma confirmation_acknowledged_once_after_the_mark_witness :
  let tr := r_trace (sample_run (to_code ++ to_approval ++ to_confirmation)).1 in
  existsb (says "confirmation.ready") (before "confirmation.ready" tr) = false
  ∧ (true = true → EHookConfirmationStarting None ∈ before "confirmation.ready" tr).
Proof.
  intros tr. exact (confirmation_acknowledged_once_after_the_mark sample_input None NewHub false
    (to_code ++ to_approval ++ to_confirmation) (before "confirmation.ready" tr)
    [("confirmation_id", JString "k1")] None (after "confirmation.ready" tr) ltac:(vm_compute; reflexivity)).
Defined.
Lemma approval_needs_a_decision_witness :
  let tr := r_trace (sample_run (to_code ++ to_approval)).1 in
  EHubDecision "a1" "approve" ∈ before "approval.approve" tr.
Proof.
  intros tr. destruct (approval_needs_a_decision sample_input None NewHub false (to_code ++ to_approval)
    (before "approval.approve" tr) [("approval_id", JString "a1")] None (after "approval.approve" tr)
    ltac:(vm_compute; reflexivity)) as (_ & _ & id & Hid & Hd & _).
  injection Hid as <-. exact Hd.
Defined.
Lemma provided_codes_come_from_the_provider_witness :
  let tr := r_trace (sample_run to_code).1 in
  ∃ a b c d, before "otp.provide" tr = (a ++ EArm "c1" true :: b ++ ETrigger "c1" :: c ++ EProviderCode "c1" "482913" :: d)%list.
Proof.
  intros tr. destruct (provided_codes_come_from_the_provider sample_input None NewHub false to_code
    (before "otp.provide" tr) [("challenge_id", JString "c1"); ("code", JString "482913")] None (after "otp.provide" tr)
    ltac:(vm_compute; reflexivity)) as (id & code & a & b & c & d & Hp & Ht).
  injection Hp as <- <-. exists a, b, c, d. exact Ht.
Defined.
Lemma run_outcome_is_conservative_witness :
  let r := (sample_run (to_code ++ to_approval ++ to_confirmation ++ to_exit)).1 in
  JobOutcomeUnknown = JobSucceeded ↔ r_confirmationCompleted r = true ∨ ∃ t, r_terminal r = Some t ∧ RR_Status t = JobSucceeded.
Proof.
  intros r. exact (proj1 (proj2 (run_outcome_is_conservative sample_input None NewHub false
    (to_code ++ to_approval ++ to_confirmation ++ to_exit) r
    (Ok (MkRunResult JobOutcomeUnknown unknown_outcome 1)) ltac:(vm_compute; reflexivity)))).
Defined.
Lemma run_leaves_no_code_behind_witness :
  let r := (sample_run (to_code ++ to_approval ++ to_confirmation ++ to_exit)).1 in
  h_otps (r_hub r) !! "7" = None ∧ ECancelChallenge "c2" ∈ r_trace r.
Proof.
  intros r. destruct (run_leaves_no_code_behind sample_input NewHub false
    (to_code ++ to_approval ++ to_confirmation ++ to_exit) r
    (Ok (MkRunResult JobOutcomeUnknown unknown_outcome 1)) eq_refl eq_refl eq_refl ltac:(vm_compute; reflexivity)) as [H1 H2].
  split; [exact H1|]. eapply (H2 "c2"). vm_compute. reflexivity.
Defined.
Lemma run_ends_with_its_process_witness :
  let r := (sample_run to_code).1 in r_eventStream r = true ∨ r_processResult r = None.
Proof.
  intros r. exact (run_ends_with_its_process sample_input NewHub false to_code r ltac:(vm_compute; reflexivity)).
Defined.

(** A control character inside a code keeps [sanitizeMessage] from redacting it, and is
    then removed: the code stands in the message. *)
Example control_character_uncovers_a_code :
  sanitizeMessage ("code 12" +:+ bytes [1%nat] +:+ "34") "" = "code 1234" ∧ sanitizeMessage "code 1234" "" = "code [redacted-code]".
Proof. vm_compute. auto. Qed.
