(* ===== verification/BookingQueue.v ===== *)
(** * Booking times (src/internal/engine: booking_queue, lake_booking,
    execution_budget, destinations)

    When a booking is due, when it is given up, what the browser is told when it
    starts, and how long it may run. *)

From S2P Require Import Prelude GoStrings GoTime Json Origin Domain Scheduler Database JobStore.
From Stdlib Require Import Ascii String.

Open Scope Z_scope.

Section times.
Context `{TimeZoneDB}.

Definition validateImmediateBookingDate (booking : BookingRequest) (now : Time) : result unit :=
  window ← WindowFor booking;
  _ ← reject (Before now (ReleaseAt window)) (Sentinel ErrBookingNotReleased);
  reject (String.ltb (BTargetDate booking) (FormatDateOnly (WLocation window) now))
    (Sentinel ErrBookingDatePassed).

Definition immediateBookingEnqueueParams (booking : BookingRequest) (now : Time) : result EnqueueJobParams :=
  _ ← validateImmediateBookingDate booking now;
  Ok (MkEnqueue (Some (BID booking)) 0 0 false CommandBook RunModeManual true now
        (Some (Add now MaxImmediateBookingLifetime)) "").

(** The run mode of a queued command; the empty mode is the booking's own. *)
Definition queued_mode (booking : BookingRequest) (command : JobCommand) (mode : RunMode) : result RunMode :=
  match command with
  | CommandDryRun => Ok RunModeDryRun
  | CommandAuthCheck => Ok RunModeManual
  | CommandBook =>
      let mode := if bool_decide (mode = RunModeOther "") then BConfirmationMode booking else mode in
      if negb (bool_decide (mode = RunModeManual)) && negb (bool_decide (mode = RunModeAuto))
      then Err (Errorf "book run mode must be manual or auto") else Ok mode
  | CommandOther c => Err (Errorf ("invalid job command " +:+ quoted c))
  end.

Definition bookingEnqueueParams (booking : BookingRequest) (command : JobCommand) (mode : RunMode) (now : Time)
    : result EnqueueJobParams :=
  mode ← queued_mode booking command mode;
  let params due expires := MkEnqueue (Some (BID booking)) 0 0 false command mode false due expires "" in
  if negb (bool_decide (command = CommandBook)) then Ok (params now None)
  else
    window ← WindowFor booking;
    _ ← reject (negb (Before now (PollEndsAt window))) (Sentinel ErrBookingWindowEnded);
    Ok (params (if Before now (PrepAt window) then PrepAt window else now) (Some (PollEndsAt window))).

Definition without_booking (p : EnqueueJobParams) : EnqueueJobParams :=
  MkEnqueue None (EProfileID p) (EOTPSourceID p) (EDeduplicateProfileSignIn p) (ECommand p) (ERunMode p)
    (ERunImmediately p) (EDueAt p) (EExpiresAt p) (EDedupKey p).
Definition lakeBookingParams (request : BookingRequest) (now : Time) : result EnqueueJobParams :=
  window ← WindowFor request;
  params ← (if Before now (ReleaseAt window)
            then bookingEnqueueParams request CommandBook (BConfirmationMode request) now
            else immediateBookingEnqueueParams request now);
  Ok (without_booking params).

(** [clk 4] is the reading the parameters are made from, [clk 0..3] those of the store. *)
Definition QueueLakeBooking (origins : list string) (userID : Z) (request : BookingRequest) (token : list nat)
    (clk : nat → Time) : ST db Job :=
  _ ← lift (booking_ValidateForOrigins request origins);
  params ← lift (lakeBookingParams request (clk 4%nat));
  EnqueueBookingRequest userID request params token clk.

Definition SystemQueueBooking (origins : list string) (bookingID : Z) (command : JobCommand) (mode : RunMode)
    (clk : nat → Time) : ST db Job :=
  booking ← SystemGetBookingRequest bookingID;
  _ ← lift (booking_ValidateForOrigins booking origins);
  params ← lift (bookingEnqueueParams booking command mode (clk 4%nat));
  SystemEnqueueJob params clk.

(** ** Starting *)

(** [int(math.Ceil(d.Seconds()))].  The floating-point quotient is exact enough to
    round up correctly below 2^22 seconds; beyond it only its sign and its being
    above the polling limit of 900 seconds are used. *)
Definition ceil_seconds (d : Duration) : Z := - (- d / Second).

(** What the start message says about time; [release_at] is given only before it. *)
Definition bookingStartTiming (job : Job) (booking : BookingRequest) (now : Time) : result (gmap string json) :=
  _ ← ValidateImmediateRun job;
  if negb (bool_decide (JCommand job = CommandBook)) then Ok ∅
  else
    timing ←
      (if JRunImmediately job then
         _ ← validateImmediateBookingDate booking now;
         _ ← reject (Before now (JDueAt job))
               (Errorf "the immediate booking became runnable before its enqueue time");
         Ok (match JExpiresAt job with
             | Some e => <["auth_deadline_at" := JString (FormatRFC3339Nano UTC e)]> ∅
             | None => ∅ end)
       else
         window ← WindowFor booking;
         _ ← reject (Before now (PrepAt window))
               (Errorf "the booking job became runnable before its bounded preparation window");
         _ ← reject (negb (Before now (PollEndsAt window)))
               (Errorf "the booking release window ended before the action could start");
         Ok (<["auth_deadline_at" := JString (FormatRFC3339 (WLocation window) (AuthDeadlineAt window))]>
               (if Before now (ReleaseAt window)
                then <["release_at" := JString (FormatRFC3339 (WLocation window) (ReleaseAt window))]> ∅
                else ∅)));
    match JExpiresAt job with
    | None => Ok timing
    | Some e =>
        let remaining := ceil_seconds (Sub e now) in
        _ ← reject (remaining <? 1) (Errorf "the booking window expired before the action could start");
        Ok (if remaining <? BPollDeadlineSeconds booking
            then <["poll_deadline_seconds" := JNumber (format_int remaining)]> timing else timing)
    end.

(** ** Execution budgets *)

Definition interactiveExecutionBudget : Duration := 15 * Minute.
Definition checkoutExecutionGrace : Duration := 15 * Minute.
Definition executionInputBudget : Duration := 15 * Second.

Definition jobExecutionDeadline (job : Job) (booking : BookingRequest) (started : Time)
    (interactive checkout : Duration) : result Time :=
  _ ← ValidateImmediateRun job;
  _ ← reject ((interactive <=? 0) || (checkout <=? 0)) (Errorf "job execution budgets must be positive");
  if JRunImmediately job then of_option (Errorf "") (JExpiresAt job)
  else if bool_decide (JCommand job = CommandBook) then
    window ← WindowFor booking;
    Ok (Add (PollEndsAt window) checkout)
  else Ok (Add started interactive).

(** ** Destinations *)

Definition executionDestination (lakeID : string) : result Lake :=
  lake ← Resolve lakeID;
  _ ← reject (negb (String.eqb (ProviderID lake) ProviderYodel))
        (Errorf ("selected lake provider " +:+ quoted (ProviderID lake) +:+ " is incompatible with the Yodel profile"));
  Ok lake.
Definition executionProvider (providerID : string) : result unit :=
  reject (negb (String.eqb providerID ProviderYodel)) (Errorf ("unsupported sign-in provider " +:+ quoted providerID)).
Definition validateProfileBookingProvider (profile : Profile) (booking : BookingRequest) : result unit :=
  lake ← executionDestination (EffectiveLakeID booking);
  reject (negb (String.eqb (EffectiveProviderID profile) (ProviderID lake)))
    (Errorf "booking provider must match the selected sign-in provider").
End times.
