(* ===== verification/BookingProperties.v ===== *)
(** * When bookings run

    The times of a queued booking, of its start and of its end, against the release
    window of its request. *)

From S2P Require Import Prelude GoStrings GoTime Json Secrets Redaction Auth Origin Domain Scheduler Database.
From S2P Require Import JobStore Samples JobInvariants EventStore JobOperations JobHistory JobLemmas ResourceStore.
From S2P Require Import ProfileStore SettingsStore AccountStore AccountInvariants ResourceInvariants.
From S2P Require Import SystemInvariants System SystemHistory SystemSamples JobProperties BookingQueue.
From Stdlib Require Import Ascii String.

Open Scope Z_scope.

Section times.
Context `{TimeZoneDB}.

Lemma booking_Validate_mode r :
  booking_Validate r = Ok tt → BConfirmationMode r = RunModeManual ∨ BConfirmationMode r = RunModeAuto.
Proof.
  intros Hv. apply problems_error_Ok in Hv. unfold booking_problems in Hv.
  repeat (apply app_nil in Hv as [? Hv]). apply problem_nil in Hv. unfold RunMode_Valid in Hv. bool_to_prop.
  destruct (BConfirmationMode r); naive_solver.
Qed.

Lemma WindowFor_Validate r w : WindowFor r = Ok w → booking_Validate r = Ok tt.
Proof. unfold WindowFor. intros ([] & Hv & _)%result_bind_Ok. done. Qed.

(** The parameters of a lake booking, branch by branch. *)
Definition lake_params (r : BookingRequest) (w : Window) (now : Time) : result EnqueueJobParams :=
  if now <? ReleaseAt w then
    Ok (MkEnqueue None 0 0 false CommandBook (BConfirmationMode r) false (Z.max now (PrepAt w)) (Some (PollEndsAt w)) "")
  else if String.ltb (BTargetDate r) (FormatDateOnly (WLocation w) now) then Err (Sentinel ErrBookingDatePassed)
  else Ok (MkEnqueue None 0 0 false CommandBook RunModeManual true now (Some (now + MaxImmediateBookingLifetime)) "").

Lemma lakeBookingParams_eq r w now :
  WindowFor r = Ok w → lakeBookingParams r now = lake_params r w now.
Proof.
  intros Hw. pose proof (WindowFor_Validate r w Hw) as Hv.
  destruct (WindowFor_valid r Hv) as (w' & Hw' & _ & _ & _ & Hord & Hrel & _).
  rewrite Hw in Hw'. injection Hw' as <-.
  unfold lakeBookingParams, lake_params. rewrite Hw. unfold mbind at 1, result_bind at 1. cbv beta iota. unfold Before.
  destruct (Z.ltb_spec now (ReleaseAt w)) as [Hlt|Hge].
  - unfold bookingEnqueueParams. cbn [queued_mode].
    assert (Hm : queued_mode r CommandBook (BConfirmationMode r) = Ok (BConfirmationMode r)).
    { destruct (booking_Validate_mode r Hv) as [Hm|Hm]; rewrite Hm; reflexivity. }
    cbn [queued_mode] in Hm. rewrite Hm. rewrite Hw. cbn. unfold Before.
    destruct (Z.ltb_spec now (PollEndsAt w)); [|lia]. cbn.
    destruct (Z.ltb_spec now (PrepAt w)); [rewrite Z.max_r by lia|rewrite Z.max_l by lia]; reflexivity.
  - unfold immediateBookingEnqueueParams, validateImmediateBookingDate. rewrite Hw. cbn. unfold Before.
    destruct (Z.ltb_spec now (ReleaseAt w)); [lia|]. cbn.
    destruct (String.ltb _ _); reflexivity.
Qed.

(** The store's admission accepts the parameters the engine computes. *)
Lemma lake_params_admitted r w now p bid clk :
  WindowFor r = Ok w → zero_time < now → now <= clk 1%nat < now + MaxImmediateBookingLifetime →
  lake_params r w now = Ok p → admit_params clk (with_booking_request bid p) = Ok (with_booking_request bid p).
Proof.
  intros Hw Hz Hclk Hp. pose proof (WindowFor_Validate r w Hw) as Hv.
  destruct (WindowFor_valid r Hv) as (w' & Hw' & _ & _ & _ & Hord & Hrel & _).
  rewrite Hw in Hw'. injection Hw' as <-. unfold lake_params in Hp.
  assert (Hnz : ∀ t, zero_time < t → IsZero t = false) by (intros t Ht; apply Z.eqb_neq; intros ->; lia).
  destruct (Z.ltb_spec now (ReleaseAt w)) as [Hlt|Hge].
  - injection Hp as <-. unfold admit_params, with_booking_request. cbn.
    assert (Hm : BConfirmationMode r = RunModeManual ∨ BConfirmationMode r = RunModeAuto) by (by apply booking_Validate_mode).
    rewrite (Hnz (Z.max now (PrepAt w))) by lia. unfold After.
    destruct (Z.ltb_spec (Z.max now (PrepAt w)) (PollEndsAt w)); [|lia].
    destruct Hm as [->| ->]; reflexivity.
  - destruct (String.ltb _ _); [done|]. injection Hp as <-. unfold admit_params, with_booking_request. cbn.
    rewrite (Hnz now) by lia. unfold immediate_run_ok. rewrite (Hnz now) by lia. unfold After, Sub.
    unfold MaxImmediateBookingLifetime, Minute, Second in *.
    destruct (Z.ltb_spec now (now + 15 * (60 * 1000000000))); [|lia]. cbn.
    replace (now + 15 * (60 * 1000000000) - now) with (15 * (60 * 1000000000)) by lia.
    destruct (Z.ltb_spec (clk 1%nat) (now + 15 * (60 * 1000000000))); [|lia].
    destruct (Z.ltb_spec (clk 1%nat) now); [lia|]. cbn.
    rewrite Z.max_r, Z.min_r by (unfold min_int64, max_int64; lia). reflexivity.
Qed.

(** The store never refuses the times the engine computes.  Whatever lake booking
    the engine derives parameters for, the admission checks that read no table accept
    exactly these parameters, as long as the store's clock is within the lifetime of an
    immediate booking. *)
Theorem lake_booking_times_are_admitted r now p bid clk :
  lakeBookingParams r now = Ok p → zero_time < now → now <= clk 1%nat < now + MaxImmediateBookingLifetime →
  admit_params clk (with_booking_request bid p) = Ok (with_booking_request bid p).
Proof.
  intros Hp Hz Hclk. pose proof Hp as Hw. unfold lakeBookingParams in Hw.
  apply result_bind_Ok in Hw as (w & Hw & _). rewrite (lakeBookingParams_eq r w now Hw) in Hp.
  by eapply lake_params_admitted.
Qed.

Lemma admit_params_book clk p q :
  admit_params clk p = Ok q → ECommand p = CommandBook → IsZero (EDueAt p) = false → q = p.
Proof.
  unfold admit_params. intros Hq Hc Hz. rewrite Hz in Hq. inv_ok. rewrite Hc in *.
  match goal with H : (if _ then Err _ else Ok _) = Ok ?m |- _ =>
    destruct (_ && _) in H; [done|injection H as <-] end.
  by destruct p.
Qed.

Lemma EnqueueBookingRequest_inner uid r p token clk s s' j :
  EnqueueBookingRequest uid r p token clk s = (s', Ok j) →
  ∃ s1 bid, enqueueJobTx uid (with_booking_request bid p) clk s1 = (s', Ok j).
Proof.
  unfold EnqueueBookingRequest. intros Hrun.
  do 4 (apply ST_bind_Ok in Hrun as (? & ? & _ & Hrun)). cbv zeta in Hrun.
  apply (proj1 (atomically_Ok _ _ _ _)) in Hrun. apply ST_bind_Ok in Hrun as (s1 & bid & _ & Hrun). eauto.
Qed.

(** When a booked visit runs.  A lake booking that was queued passed validation
    against the approved origins.  Asked for before the release, it is due when its
    preparation starts (or now, if that is past), runs in the mode the request asks
    for and is given up when polling ends.  Asked for after the release, it runs at
    once under manual approval, is given up fifteen minutes later, and its date has
    not passed in the lake's time zone. *)
Theorem queued_booking_times origins uid r token clk s s' j :
  QueueLakeBooking origins uid r token clk s = (s', Ok j) → zero_time < clk 4%nat →
  booking_ValidateForOrigins r origins = Ok tt ∧
  ∃ w, WindowFor r = Ok w ∧ JCommand j = CommandBook ∧
    if clk 4%nat <? ReleaseAt w then
      JRunImmediately j = false ∧ JRunMode j = BConfirmationMode r ∧
      JDueAt j = Z.max (clk 4%nat) (PrepAt w) ∧ JExpiresAt j = Some (PollEndsAt w)
    else
      JRunImmediately j = true ∧ JRunMode j = RunModeManual ∧
      JDueAt j = clk 4%nat ∧ JExpiresAt j = Some (clk 4%nat + MaxImmediateBookingLifetime) ∧
      String.ltb (BTargetDate r) (FormatDateOnly (WLocation w) (clk 4%nat)) = false.
Proof.
  unfold QueueLakeBooking. intros Hrun Hz.
  apply ST_bind_Ok in Hrun as (s1 & [] & [-> Hv]%lift_Ok & Hrun). split; [done|].
  apply ST_bind_Ok in Hrun as (s1 & p & [-> Hp]%lift_Ok & Hrun).
  pose proof Hp as Hw. unfold lakeBookingParams in Hw. apply result_bind_Ok in Hw as (w & Hw & _).
  rewrite (lakeBookingParams_eq r w _ Hw) in Hp. exists w. split; [done|].
  apply EnqueueBookingRequest_inner in Hrun as (s1 & bid & Hrun).
  apply enqueueJobTx_Ok in Hrun as (q & pid & owner & psource & sid & Hadm & _ & _ & Hrest). cbv zeta in Hrest.
  destruct Hrest as (_ & _ & _ & _ & -> & _). unfold lake_params in Hp.
  destruct (Z.ltb_spec (clk 4%nat) (ReleaseAt w)).
  - injection Hp as <-. apply admit_params_book in Hadm as ->; [done|done|]. apply Z.eqb_neq. simpl. lia.
  - destruct (String.ltb _ _) eqn:Hd; [done|]. injection Hp as <-.
    apply admit_params_book in Hadm as ->; [done|done|]. apply Z.eqb_neq. simpl. lia.
Qed.

(** ** Starting and ending *)

(** A lookup in a map built by cases. *)
Ltac look_up :=
  repeat match goal with |- context [match ?b with _ => _ end] => destruct b end;
  rewrite ?lookup_insert_eq, ?lookup_insert_ne by done; try done.

Lemma ceil_seconds_spec d : (ceil_seconds d - 1) * Second < d <= ceil_seconds d * Second.
Proof.
  unfold ceil_seconds. pose proof (Z.div_mod (- d) Second ltac:(done)).
  pose proof (Z.mod_pos_bound (- d) Second ltac:(done)). unfold Second in *. lia.
Qed.

Lemma ValidateImmediateRun_Ok j :
  ValidateImmediateRun j = Ok tt → JRunImmediately j = true →
  ∃ e, JExpiresAt j = Some e ∧ JCommand j = CommandBook ∧ JDueAt j < e <= JDueAt j + MaxImmediateBookingLifetime.
Proof.
  unfold ValidateImmediateRun, immediate_run_ok. intros Hv Hi. rewrite Hi in Hv. cbn in Hv.
  destruct (_ || _) eqn:Hc in Hv; [done|]. destruct (JExpiresAt j) as [e|]; [|done].
  destruct (_ || _) eqn:Ht in Hv; [done|]. exists e. unfold After, Sub in Ht. bool_to_prop.
  unfold MaxImmediateBookingLifetime, Minute, Second, min_int64, max_int64 in *. split_and!; try done; lia.
Qed.

(** C34: a booking browser starts only inside its window.  If the start is allowed at an
    instant, the request is valid; an immediate booking is released, not before it was
    queued and on or before its date, any other is between its preparation and the end
    of polling and is told the release instant exactly when that is still to come; and
    the job has not expired, with polling cut down so that less than one second of it
    lies past the expiry. *)
Theorem booking_starts_inside_its_window job r now timing :
  bookingStartTiming job r now = Ok timing → JCommand job = CommandBook →
  ∃ w, WindowFor r = Ok w ∧
    (if JRunImmediately job then
       ReleaseAt w <= now ∧ JDueAt job <= now ∧ timing !! "release_at" = None ∧
       String.ltb (BTargetDate r) (FormatDateOnly (WLocation w) now) = false
     else PrepAt w <= now < PollEndsAt w ∧
       timing !! "release_at" =
         (if now <? ReleaseAt w then Some (JString (FormatRFC3339 (WLocation w) (ReleaseAt w))) else None)) ∧
    ∀ e, JExpiresAt job = Some e →
      let remaining := ceil_seconds (Sub e now) in
      now < e ∧ (Z.min (BPollDeadlineSeconds r) remaining - 1) * Second < e - now ∧
      timing !! "poll_deadline_seconds" =
        if remaining <? BPollDeadlineSeconds r then Some (JNumber (format_int remaining)) else None.
Proof.
  unfold bookingStartTiming. intros Hok Hc. rewrite bool_decide_true in Hok by done. cbn [negb] in Hok.
  apply result_bind_Ok in Hok as ([] & Hi & Hok). apply result_bind_Ok in Hok as (base & Hbase & Hok).
  assert (Hlast : base !! "poll_deadline_seconds" = None ∧
    timing !! "release_at" = base !! "release_at" ∧
    ∀ e, JExpiresAt job = Some e →
      let remaining := ceil_seconds (Sub e now) in
      now < e ∧ (Z.min (BPollDeadlineSeconds r) remaining - 1) * Second < e - now ∧
      timing !! "poll_deadline_seconds" =
        if remaining <? BPollDeadlineSeconds r then Some (JNumber (format_int remaining)) else None).
  { assert (Hnone : base !! "poll_deadline_seconds" = None).
    { destruct (JRunImmediately job); inv_ok; [by look_up|]. by look_up. }
    split; [done|]. destruct (JExpiresAt job) as [e|]; [|by inv_ok].
    apply result_bind_Ok in Hok as ([] & Hrem%reject_Ok%Z.ltb_ge & [= <-]).
    split; [by look_up|]. intros ? [= <-]. cbv zeta.
    pose proof (ceil_seconds_spec (Sub e now)). unfold Sub, min_int64, max_int64, Second in *.
    split_and!; [lia|lia|]. rewrite <- Hnone. by look_up. }
  destruct Hlast as (_ & -> & Hexp).
  destruct (JRunImmediately job).
  - apply result_bind_Ok in Hbase as ([] & Hdate & Hbase). unfold validateImmediateBookingDate in Hdate.
    inv_ok. unfold Before in *. bool_to_prop. match goal with H : WindowFor r = Ok ?w |- _ => exists w end.
    split_and!; try done. by look_up.
  - inv_ok. unfold Before in *. bool_to_prop. match goal with H : WindowFor r = Ok ?w |- _ => exists w end.
    split_and!; try done. by look_up.
Qed.

(** Every run ends.  A job that may start gets a deadline strictly after its start
    and at most 210 minutes later: its expiry if it is immediate, fifteen minutes after
    the end of polling if it books, fifteen minutes after the start otherwise. *)
Theorem execution_is_bounded job r now timing d :
  bookingStartTiming job r now = Ok timing →
  jobExecutionDeadline job r now interactiveExecutionBudget checkoutExecutionGrace = Ok d →
  now < d <= now + 210 * Minute.
Proof.
  intros Hstart Hd. unfold bookingStartTiming in Hstart. apply result_bind_Ok in Hstart as ([] & Hi & Hstart).
  unfold jobExecutionDeadline in Hd. rewrite Hi in Hd. cbn in Hd.
  destruct (JRunImmediately job) eqn:Himm.
  - apply ValidateImmediateRun_Ok in Hi as (e & He & Hc & Hlife); [|done]. rewrite He in Hd. injection Hd as <-.
    rewrite bool_decide_true in Hstart by done. cbn in Hstart.
    apply result_bind_Ok in Hstart as (base & Hbase & Hstart). rewrite He in Hstart.
    apply result_bind_Ok in Hstart as ([] & Hrem%reject_Ok%Z.ltb_ge & _).
    inv_ok. unfold Before in *. bool_to_prop. pose proof (ceil_seconds_spec (Sub e now)).
    unfold Sub, MaxImmediateBookingLifetime, min_int64, max_int64, Minute, Second in *. lia.
  - case_bool_decide as Hc.
    + rewrite ?bool_decide_true in Hstart by done. cbn in Hstart.
      apply result_bind_Ok in Hstart as (base & Hbase & _).
      destruct (WindowFor r) as [w|] eqn:Hw; [|done].
      pose proof (WindowFor_valid r (WindowFor_Validate r w Hw)) as (w' & Hw' & _ & _ & _ & _ & _ & Hlen).
      rewrite Hw in Hw'. injection Hw' as <-. inv_ok. unfold Before in *. bool_to_prop.
      unfold Add, checkoutExecutionGrace, Minute, Second in *. lia.
    + inv_ok. unfold Add, interactiveExecutionBudget, Minute, Second. lia.
Qed.
End times.

(** ** Witnesses *)

(** An hour before the release, and an hour after it. *)
Definition before_release : nat → Time := λ _, t0 - 20 * Minute.
Definition after_release : nat → Time := λ _, t0 + 2 * Hour.

Lemma lake_booking_times_are_admitted_witness :
  is_ok (lakeBookingParams (sample_request "2026-01-10") (t0 + 2 * Hour)) = true ∧
  ∀ p, lakeBookingParams (sample_request "2026-01-10") (t0 + 2 * Hour) = Ok p →
    admit_params after_release (with_booking_request 1 p) = Ok (with_booking_request 1 p).
Proof.
  split; [vm_compute; reflexivity|]. intros p Hp.
  apply (lake_booking_times_are_admitted (sample_request "2026-01-10") (t0 + 2 * Hour) p 1 after_release Hp).
  - reflexivity.
  - split; [discriminate|reflexivity].
Defined.

Lemma queued_booking_times_witness :
  ∃ j, (QueueLakeBooking ["https://yodelportal.com"] 1 (sample_request "2026-01-10") [1; 2; 3; 4]%nat before_release setup_db).2 = Ok j ∧
    JRunImmediately j = false ∧ JDueAt j = t0 + 30 * Minute.
Proof.
  assert (Hok : is_ok (QueueLakeBooking ["https://yodelportal.com"] 1 (sample_request "2026-01-10")
    [1; 2; 3; 4]%nat before_release setup_db).2 = true) by (vm_compute; reflexivity).
  destruct (QueueLakeBooking _ _ _ _ _ _) as [s' [j|e]] eqn:Hq; [|discriminate Hok]. exists j. split; [reflexivity|].
  destruct (queued_booking_times _ _ _ _ _ _ _ _ Hq ltac:(reflexivity)) as (_ & w & Hw & _ & Ht).
  destruct (WindowFor (sample_request "2026-01-10")) as [w'|] eqn:Hw'; [|discriminate Hw].
  injection Hw as ->.
  assert (Hr : match WindowFor (sample_request "2026-01-10") with
               | Ok w => (ReleaseAt w =? t0 + Hour) && (PrepAt w =? t0 + 30 * Minute) | Err _ => false end = true)
    by (vm_compute; reflexivity).
  rewrite Hw' in Hr. apply andb_true_iff in Hr as [Hr Hp]. apply Z.eqb_eq in Hr, Hp. rewrite Hr, Hp in Ht.
  destruct Ht as (Hi & _ & Hd & _). split; [exact Hi|]. exact Hd.
Defined.

(** The queued booking, as it is stored, started five minutes before the release. *)
Definition queued_booking_db : db :=
  (QueueLakeBooking ["https://yodelportal.com"] 1 (sample_request "2026-01-10") [1; 2; 3; 4]%nat before_release setup_db).1.
Definition started_at : Time := t0 + 55 * Minute.

Lemma booking_starts_inside_its_window_witness :
  ∃ j timing, jobs queued_booking_db !! 1 = Some j ∧
    bookingStartTiming j (sample_request "2026-01-10") started_at = Ok timing ∧ is_some (timing !! "release_at") = true.
Proof.
  at_job queued_booking_db 1 (λ j : Job, bool_decide (JCommand j = CommandBook) && negb (JRunImmediately j)
    && is_ok (bookingStartTiming j (sample_request "2026-01-10") started_at)
    && match WindowFor (sample_request "2026-01-10") with Ok w => started_at <? ReleaseAt w | Err _ => false end) j Hj Hp.
  apply andb_true_iff in Hp as [Hp Hlt]. apply andb_true_iff in Hp as [Hp Hok]. apply andb_true_iff in Hp as [Hc Hi].
  apply bool_decide_eq_true_1 in Hc. apply negb_true_iff in Hi.
  destruct (bookingStartTiming j _ started_at) as [timing|e] eqn:Hs; [|discriminate Hok].
  exists j, timing. split; [exact Hj|]. split; [exact Hs|].
  destruct (booking_starts_inside_its_window j _ started_at timing Hs Hc) as (w & Hw & Hin & _).
  rewrite Hi in Hin. rewrite Hw in Hlt. rewrite Hlt in Hin. destruct Hin as [_ ->]. reflexivity.
Defined.

Lemma execution_is_bounded_witness :
  ∃ j d, jobs queued_booking_db !! 1 = Some j ∧
    jobExecutionDeadline j (sample_request "2026-01-10") started_at interactiveExecutionBudget checkoutExecutionGrace = Ok d ∧
    d <= started_at + 210 * Minute.
Proof.
  at_job queued_booking_db 1 (λ j : Job, is_ok (bookingStartTiming j (sample_request "2026-01-10") started_at)
    && is_ok (jobExecutionDeadline j (sample_request "2026-01-10") started_at interactiveExecutionBudget checkoutExecutionGrace)) j Hj Hp.
  apply andb_true_iff in Hp as [Hs Hd].
  destruct (bookingStartTiming j _ started_at) as [timing|e] eqn:Hst; [|discriminate Hs].
  destruct (jobExecutionDeadline j _ _ _ _) as [d|e] eqn:Hdl; [|discriminate Hd].
  exists j, d. split; [exact Hj|]. split; [exact Hdl|].
  apply (execution_is_bounded j (sample_request "2026-01-10") started_at timing d Hst Hdl).
Defined.
