(* ===== verification/Netip.v ===== *)
(** * IP addresses and prefixes ([net/netip])

    Addresses as numbers, their text, and the tests and prefixes the egress policy uses.
    A zone is kept; an IPv4-mapped IPv6 address is an IPv6 address until unmapped. *)

From S2P Require Import Prelude GoStrings GoUrl.
From Stdlib Require Import Ascii String.

Open Scope Z_scope.

(** [Addr{}] is the invalid one. *)
Inductive Addr :=
  | AddrInvalid
  | Addr4 (v : Z)
  | Addr6 (v : Z) (zone : string).
#[export] Instance Addr_eq_dec : EqDecision Addr.
Proof. solve_decision. Defined.

Definition Zone (ip : Addr) : string := match ip with Addr6 _ z => z | _ => "" end.
Definition IsValid (ip : Addr) : bool := match ip with AddrInvalid => false | _ => true end.
Definition Is4 (ip : Addr) : bool := match ip with Addr4 _ => true | _ => false end.
Definition Is6 (ip : Addr) : bool := match ip with Addr6 _ _ => true | _ => false end.
Definition Is4In6 (ip : Addr) : bool :=
  match ip with Addr6 v _ => Z.shiftr v 32 =? 65535 | _ => false end.
Definition Unmap (ip : Addr) : Addr :=
  match ip with Addr6 v _ => if Is4In6 ip then Addr4 (Z.land v (Z.ones 32)) else ip | _ => ip end.

(** ** Text *)

Definition hex_number (s : string) : Z :=
  foldl (λ acc c, acc * 16 + Z.of_nat (hex_value c)) 0 (list_ascii_of_string s).
Definition groups_value (groups : list Z) : Z := foldl (λ acc g, acc * 65536 + g) 0 groups.
Definition ipv4_value (s : string) : option Z :=
  if is_ipv4 s then Some (foldl (λ acc f, acc * 256 + default 0 (parse_digits f)) 0 (split_byte "." s)) else None.

(** The 16-bit groups of a colon-separated list; an IPv4 address at its end is two. *)
Fixpoint ipv6_values (allow4 : bool) (fields : list string) : option (list Z) :=
  match fields with
  | [] => Some []
  | f :: fs =>
      if is_hex_field f then rest ← ipv6_values allow4 fs; Some (hex_number f :: rest)
      else
        match fs with
        | [] => if allow4 then v ← ipv4_value f; Some [Z.shiftr v 16; Z.land v (Z.ones 16)] else None
        | _ => None
        end
  end.
Definition ipv6_part (allow4 : bool) (s : string) : option (list Z) :=
  if String.eqb s "" then Some [] else ipv6_values allow4 (split_byte ":" s).
Definition ipv6_value (s : string) : option Z :=
  match cut "::" s with
  | None => g ← ipv6_part true s; if (List.length g =? 8)%nat then Some (groups_value g) else None
  | Some (l, r) =>
      a ← ipv6_part false l; b ← ipv6_part true r;
      if (List.length a + List.length b <? 8)%nat
      then Some (groups_value (a ++ replicate (8 - List.length a - List.length b) 0 ++ b)%list) else None
  end.

(** The first of the bytes [.], [:], [%] decides what is parsed. *)
Fixpoint first_of (chars s : string) : option ascii :=
  match s with
  | EmptyString => None
  | String c s' => if one_of chars c then Some c else first_of chars s'
  end.
Definition ParseAddr (s : string) : option Addr :=
  match first_of ".:%" s with
  | Some c =>
      if Ascii.eqb c "." then Addr4 <$> ipv4_value s
      else if Ascii.eqb c ":" then
        match cut "%" s with
        | None => v ← ipv6_value s; Some (Addr6 v "")
        | Some (a, zone) => if String.eqb zone "" then None else v ← ipv6_value a; Some (Addr6 v zone)
        end
      else None
  | None => None
  end.

Definition ipv4_text (v : Z) : string :=
  join "." ((λ shift, format_nat (Z.land (Z.shiftr v shift) 255)) <$> [24; 16; 8; 0]).
Fixpoint hex_text (fuel : nat) (v : Z) (acc : string) : string :=
  match fuel with
  | O => acc
  | S fuel =>
      let d := Z.to_nat (v mod 16) in
      let acc' := String (byte (if (d <? 10)%nat then 48 + d else 87 + d)%nat) acc in
      if v <? 16 then acc' else hex_text fuel (v / 16) acc'
  end.
Definition groups_of (v : Z) : list Z :=
  (λ shift, Z.land (Z.shiftr v shift) 65535) <$> [112; 96; 80; 64; 48; 32; 16; 0].
(** The longest run of at least two zero groups, the first of equals. *)
Fixpoint zero_run (groups : list Z) : nat :=
  match groups with g :: gs => if g =? 0 then S (zero_run gs) else 0%nat | [] => 0%nat end.
Fixpoint longest_zeros (i : nat) (groups : list Z) (best : nat * nat) : nat * nat :=
  match groups with
  | [] => best
  | _ :: gs =>
      let l := zero_run groups in
      longest_zeros (S i) gs (if (2 <=? l)%nat && (best.2 <? l)%nat then (i, l) else best)
  end.
Definition ipv6_text (v : Z) : string :=
  let groups := groups_of v in
  let '(start, len) := longest_zeros 0 groups (0%nat, 0%nat) in
  let text gs := join ":" ((λ g, hex_text 4 g "") <$> gs) in
  if (len =? 0)%nat then text groups
  else text (take start groups) +:+ "::" +:+ text (drop (start + len) groups).
Definition Addr_String (ip : Addr) : string :=
  match ip with
  | AddrInvalid => "invalid IP"
  | Addr4 v => ipv4_text v
  | Addr6 v zone =>
      (if Is4In6 ip then "::ffff:" +:+ ipv4_text (Z.land v (Z.ones 32)) else ipv6_text v)
      +:+ (if String.eqb zone "" then "" else "%" +:+ zone)
  end.

(** ** Classes *)

Definition byte0 (bits v : Z) : Z := Z.shiftr v (bits - 8).
Definition IsLoopback (ip : Addr) : bool :=
  match Unmap ip with Addr4 v => byte0 32 v =? 127 | Addr6 v _ => v =? 1 | AddrInvalid => false end.
Definition IsPrivate (ip : Addr) : bool :=
  match Unmap ip with
  | Addr4 v =>
      (byte0 32 v =? 10)
      || ((byte0 32 v =? 172) && (Z.land (Z.land (Z.shiftr v 16) 255) 240 =? 16))
      || ((byte0 32 v =? 192) && (Z.land (Z.shiftr v 16) 255 =? 168))
  | Addr6 v _ => Z.land (byte0 128 v) 254 =? 252
  | AddrInvalid => false
  end.
Definition IsMulticast (ip : Addr) : bool :=
  match Unmap ip with
  | Addr4 v => Z.land (byte0 32 v) 240 =? 224
  | Addr6 v _ => byte0 128 v =? 255
  | AddrInvalid => false
  end.
Definition IsLinkLocalUnicast (ip : Addr) : bool :=
  match Unmap ip with
  | Addr4 v => (byte0 32 v =? 169) && (Z.land (Z.shiftr v 16) 255 =? 254)
  | Addr6 v _ => Z.land (Z.shiftr v 112) 65472 =? 65152
  | AddrInvalid => false
  end.
Definition IsGlobalUnicast (ip : Addr) : bool :=
  match Unmap ip with
  | AddrInvalid => false
  | Addr4 v => negb (v =? 0) && negb (v =? Z.ones 32)
  | Addr6 v zone => negb ((v =? 0) && String.eqb zone "")
  end && negb (IsLoopback ip) && negb (IsMulticast ip) && negb (IsLinkLocalUnicast ip).

(** ** Prefixes *)

Record Prefix := MkPrefix { PrefixAddr : Addr; PrefixBits : Z }.
#[export] Instance Prefix_eq_dec : EqDecision Prefix.
Proof. solve_decision. Defined.

Definition width (ip : Addr) : Z := match ip with Addr4 _ => 32 | Addr6 _ _ => 128 | AddrInvalid => 0 end.
Definition ParsePrefix (s : string) : option Prefix :=
  '(a, b) ← cut_last "/" s;
  ip ← ParseAddr a;
  if negb (String.eqb (Zone ip) "") then None
  else if (1 <? String.length b)%nat && has_prefix b "0" then None
  else
    bits ← parse_digits b;
    if bits <=? width ip then Some (MkPrefix ip bits) else None.
Definition Masked (p : Prefix) : Prefix :=
  let clear v w := Z.shiftl (Z.shiftr v (w - PrefixBits p)) (w - PrefixBits p) in
  match PrefixAddr p with
  | Addr4 v => MkPrefix (Addr4 (clear v 32)) (PrefixBits p)
  | Addr6 v _ => MkPrefix (Addr6 (clear v 128) "") (PrefixBits p)
  | AddrInvalid => p
  end.
(** The high bits agree; an address with a zone is in no prefix. *)
Definition Contains (p : Prefix) (ip : Addr) : bool :=
  match PrefixAddr p, ip with
  | Addr4 v, Addr4 w => Z.shiftr (Z.lxor v w) (32 - PrefixBits p) =? 0
  | Addr6 v _, Addr6 w zone => String.eqb zone "" && (Z.shiftr (Z.lxor v w) (128 - PrefixBits p) =? 0)
  | _, _ => false
  end.

Example parse_addresses :
  ParseAddr "127.0.0.1" = Some (Addr4 2130706433)
  ∧ ParseAddr "::ffff:127.0.0.1" = Some (Addr6 281472812449793 "")
  ∧ ParseAddr "fe80::1%lo0" = Some (Addr6 338288524927261089654018896841347694593 "lo0")
  ∧ ParseAddr "1.2.3" = None ∧ ParseAddr "::1::" = None ∧ ParseAddr "01.2.3.4" = None.
Proof. vm_compute. repeat split. Qed.
Example address_texts :
  Addr_String <$> ParseAddr "2001:DB8:0:0:1:0:0:1" = Some "2001:db8::1:0:0:1"
  ∧ Addr_String <$> ParseAddr "::" = Some "::" ∧ Addr_String <$> ParseAddr "1::" = Some "1::"
  ∧ Addr_String <$> ParseAddr "::ffff:10.0.0.1" = Some "::ffff:10.0.0.1"
  ∧ Addr_String ∘ Unmap <$> ParseAddr "::ffff:8.8.8.8" = Some "8.8.8.8".
Proof. vm_compute. repeat split. Qed.
