(* ===== verification/Egress.v ===== *)
(** * The egress policy (src/internal/egress/policy.go)

    Which servers provider requests with credentials may reach: the operator's rules
    become endpoints with network pins, every request is compared with its endpoint and
    every socket of a client is checked after the name was resolved.  The resolver and
    the dialler are parameters. *)

From S2P Require Import Prelude GoStrings GoTime GoUrl Origin Netip.
From Stdlib Require Import Ascii String.

Open Scope Z_scope.

Record Rule := MkRule { RuleOrigin : string; Networks : list string }.
Record endpoint := MkEndpoint {
  ep_origin : string; ep_scheme : string; ep_host : string; ep_port : string; ep_pins : list Prefix }.
Notation Policy := (gmap string endpoint) (only parsing).

(** ** Address classes *)

Definition localAddress (ip : Addr) : bool := IsPrivate ip || IsLoopback ip.
(** [netip.MustParsePrefix] of a constant. *)
Definition must_prefix (s : string) : Prefix := default (MkPrefix AddrInvalid 0) (ParsePrefix s).
Definition excluded : list Prefix := must_prefix <$>
  ["0.0.0.0/8"; "100.64.0.0/10"; "192.0.0.0/24"; "192.0.2.0/24"; "192.88.99.0/24"; "198.18.0.0/15";
   "198.51.100.0/24"; "203.0.113.0/24"; "240.0.0.0/4"; "2001::/23"; "2001:db8::/32"; "2002::/16"; "3fff::/20"].
Definition globalIPv6 : Prefix := must_prefix "2000::/3".
Definition publicAddress (ip : Addr) : bool :=
  if negb (IsGlobalUnicast ip) || localAddress ip || IsLinkLocalUnicast ip || (Is6 ip && negb (Contains globalIPv6 ip))
  then false
  else negb (existsb (λ block, Contains block ip) excluded).
Definition permittedAddress (ip : Addr) : bool := IsValid ip && (localAddress ip || publicAddress ip).

Definition allows (e : endpoint) (ip0 : Addr) : bool :=
  if negb (String.eqb (Zone ip0) "") then false
  else
    let ip := Unmap ip0 in
    if negb (permittedAddress ip) then false
    else
      match ep_pins e with
      | [] => String.eqb (ep_scheme e) "https" && publicAddress ip
      | pins =>
          if String.eqb (ep_scheme e) "http" && negb (localAddress ip) then false
          else existsb (λ pin, Contains pin ip) pins
      end.

(** ** Origins *)

Definition denied : error := Sentinel ErrDenied.
Definition label_byte (c : ascii) : bool := in_range 97 122 c || is_digit c || Ascii.eqb c "-".
Definition valid_label (label : string) : bool :=
  negb ((String.length label =? 0)%nat || (63 <? String.length label)%nat || has_prefix label "-" || has_suffix label "-")
  && all_bytes label_byte label.
Definition valid_dns_name (host : string) : bool :=
  negb ((String.length host =? 0)%nat || (253 <? String.length host)%nat)
  && forallb valid_label (split_byte "." host).
(** The host as the policy compares it. *)
Definition canonical_host (hostname : string) : result string :=
  let host := to_lower (trim_suffix hostname ".") in
  match ParseAddr host with
  | Some ip => if String.eqb (Zone ip) "" then Ok (Addr_String (Unmap ip)) else Err denied
  | None => if valid_dns_name host then Ok host else Err denied
  end.
(** [raw] holds no fragment: a raw fragment is not empty only if the fragment is not. *)
Definition CanonicalOrigin (raw : string) : result string :=
  if (2048 <? String.length raw)%nat then Err denied
  else
    match url_Parse (trim_space raw) with
    | None => Err denied
    | Some u =>
        if not_empty (Opaque u) || has_user u || ForceQuery u || not_empty (RawQuery u) || not_empty (Fragment u)
           || not_empty (RawPath u) || (not_empty (Path u) && negb (String.eqb (Path u) "/"))
           || has_suffix (UHost u) ":"
        then Err denied
        else
          host ← canonical_host (Hostname u);
          let authority :=
            if not_empty (Port u) then JoinHostPort host (Port u)
            else if contains host ":" then "[" +:+ host +:+ "]" else host in
          Canonical (Scheme u +:+ "://" +:+ authority)
    end.

(** ** The policy *)

Definition pin_of (scheme raw : string) : result Prefix :=
  match ParsePrefix raw with
  | None => Err (Errorf "invalid provider network pin")
  | Some prefix =>
      if Is4In6 (PrefixAddr prefix) || negb (String.eqb (Zone (PrefixAddr prefix)) "")
      then Err (Errorf "invalid provider network pin")
      else if PrefixBits prefix <? (if Is4 (PrefixAddr prefix) then 24 else 64)
      then Err (Errorf "provider network pins must be IPv4 /24 or IPv6 /64 or narrower")
      else
        let prefix := Masked prefix in
        if negb (permittedAddress (PrefixAddr prefix)) || (String.eqb scheme "http" && negb (localAddress (PrefixAddr prefix)))
        then Err (Errorf "HTTP provider pins must identify private or loopback addresses; special-use addresses are prohibited")
        else Ok prefix
  end.
Fixpoint pins_of (scheme : string) (networks : list string) : result (list Prefix) :=
  match networks with
  | [] => Ok []
  | raw :: rest => pin ← pin_of scheme raw; pins ← pins_of scheme rest; Ok (pin :: pins)
  end.
Definition zero_url : URL := MkURL "" "" None "" "" "" false "" "".
Definition endpoint_of (canonical : string) (pins : list Prefix) : endpoint :=
  let u := default zero_url (url_Parse canonical) in
  MkEndpoint canonical (Scheme u) (Hostname u)
    (if not_empty (Port u) then Port u else if String.eqb (Scheme u) "https" then "443" else "80") pins.
Definition add_rule (p : Policy) (rule : Rule) : result Policy :=
  match CanonicalOrigin (RuleOrigin rule) with
  | Err _ => Err denied
  | Ok canonical =>
      _ ← reject (is_some (p !! canonical)) (Errorf "duplicate provider policy origin");
      let scheme := ep_scheme (endpoint_of canonical []) in
      _ ← reject (16 <? List.length (Networks rule))%nat (Errorf "provider origin allows at most 16 network pins");
      pins ← pins_of scheme (Networks rule);
      let e := endpoint_of canonical pins in
      _ ← reject (String.eqb scheme "http" && (List.length pins =? 0)%nat)
            (Errorf "HTTP providers require explicit private network pins");
      _ ← reject (match ParseAddr (ep_host e) with Some literal => negb (allows e literal) | None => false end) denied;
      Ok (<[canonical := e]> p)
  end.
Fixpoint add_rules (p : Policy) (rules : list Rule) : result Policy :=
  match rules with [] => Ok p | rule :: rest => p' ← add_rule p rule; add_rules p' rest end.
Definition NewPolicy (rules : list Rule) : result Policy :=
  _ ← reject (16 <? List.length rules)%nat (Errorf "provider policy allows at most 16 origins");
  add_rules ∅ rules.

(** [p] is [None] for a nil policy. *)
Definition selected (p : option Policy) (raw : string) : result endpoint :=
  match CanonicalOrigin raw, p with
  | Ok canonical, Some p => of_option denied (p !! canonical)
  | _, _ => Err denied
  end.
Definition NewClient (p : option Policy) (raw : string) (timeout : Duration) : result endpoint :=
  e ← selected p raw;
  _ ← reject ((timeout <=? 0) || (Minute <? timeout)) (Errorf "invalid provider request timeout");
  Ok e.

(** ** Sockets and requests *)

(** [net.SplitHostPort] *)
Definition SplitHostPort (hostport : string) : option (string * string) :=
  '(before, port) ← cut_last ":" hostport;
  if has_prefix hostport "[" then
    '(inside, rest) ← cut "]" hostport;
    let host := cut_after "[" inside in
    if negb (String.eqb rest (":" +:+ port)) || contains host "[" || contains rest "[" || contains rest "]" then None
    else Some (host, port)
  else if contains before ":" || contains hostport "[" || contains hostport "]" then None
  else Some (before, port).

(** The addresses are tried in turn; [attempt i] is the outcome of the [i]-th and
    [ctxErr i] the error of the context after it.  The result has the texts that were
    dialled, in order. *)
Fixpoint dial_each (attempt : nat → string → result string) (ctxErr : nat → option error) (port : string)
    (index : nat) (addresses : list Addr) : list string * result string :=
  match addresses with
  | [] => ([], Err (Errorf "provider connection failed"))
  | ip :: rest =>
      let target := JoinHostPort (Addr_String (Unmap ip)) port in
      match attempt index target with
      | Ok connection => ([target], Ok connection)
      | Err _ =>
          match ctxErr index with
          | Some e => ([target], Err e)
          | None =>
              let '(dialled, r) := dial_each attempt ctxErr port (S index) rest in (target :: dialled, r)
          end
      end
  end.
Definition dial (e : endpoint) (network address : string) (lookup : string → result (list Addr))
    (attempt : nat → string → result string) (ctxErr : nat → option error) : list string * result string :=
  match SplitHostPort address with
  | None => ([], Err denied)
  | Some (host, port) =>
      if negb (String.eqb host (ep_host e)) || negb (String.eqb port (ep_port e)) || negb (String.eqb network "tcp")
      then ([], Err denied)
      else
        match (match ParseAddr host with Some literal => Ok [literal] | None => lookup host end) with
        | Err _ => ([], Err denied)
        | Ok addresses =>
            if (List.length addresses =? 0)%nat || (64 <? List.length addresses)%nat then ([], Err denied)
            else if negb (forallb (allows e) addresses) then ([], Err denied)
            else dial_each attempt ctxErr port 0 addresses
        end
  end.

(** What [RoundTrip] reads of a request; the result is the scheme and authority sent on. *)
Record Request := MkRequest {
  RQ_HasURL : bool; RQ_Scheme : string; RQ_URLHost : string; RQ_Opaque : string; RQ_User : bool; RQ_Fragment : string; RQ_Host : string }.
Definition RoundTrip (e : endpoint) (r : Request) : result (string * string) :=
  if negb (RQ_HasURL r) || not_empty (RQ_Opaque r) || RQ_User r || not_empty (RQ_Fragment r) then Err denied
  else
    match CanonicalOrigin (RQ_Scheme r +:+ "://" +:+ RQ_URLHost r) with
    | Err _ => Err denied
    | Ok canonical =>
        if negb (String.eqb canonical (ep_origin e)) then Err denied
        else if not_empty (RQ_Host r)
             && negb (match CanonicalOrigin (RQ_Scheme r +:+ "://" +:+ RQ_Host r) with Ok o => String.eqb o canonical | Err _ => false end)
        then Err denied
        else let u := default zero_url (url_Parse canonical) in Ok (Scheme u, UHost u)
    end.
