(* ===== verification/EgressProperties.v ===== *)
(** * What the egress policy guarantees

    The classes of addresses against a reference by ranges, and where the sockets of a
    client may go. *)

From S2P Require Import Prelude GoStrings GoTime GoUrl Origin Netip Egress.
From Stdlib Require Import Ascii String.

Open Scope Z_scope.

(** ** Bits and ranges *)

Lemma land_cells (mask cell x : Z) :
  forallb (λ n, Z.land (Z.of_nat n) mask =? Z.of_nat n / cell * cell) (seq 0 256) = true →
  0 <= x < 256 → Z.land x mask = x / cell * cell.
Proof.
  intros Hall Hx. rewrite forallb_forall in Hall. specialize (Hall (Z.to_nat x)).
  rewrite Z2Nat.id in Hall by lia. apply Z.eqb_eq, Hall, in_seq. lia.
Qed.
Lemma same_high_bits v w k : 0 <= k → (Z.shiftr (Z.lxor v w) k =? 0) = (v / 2 ^ k =? w / 2 ^ k).
Proof.
  intros Hk. rewrite Z.shiftr_lxor, !Z.shiftr_div_pow2 by done. apply eq_bool_prop_intro.
  rewrite !Is_true_true, !Z.eqb_eq. apply Z.lxor_eq_0_iff.
Qed.
Lemma in_block v w k : 0 <= k → (v / 2 ^ k =? w / 2 ^ k) = ((v / 2 ^ k * 2 ^ k <=? w) && (w <? v / 2 ^ k * 2 ^ k + 2 ^ k)).
Proof.
  intros Hk. apply eq_bool_prop_intro. rewrite !Is_true_true, andb_true_iff, Z.eqb_eq, Z.leb_le, Z.ltb_lt.
  assert (0 < 2 ^ k) by (apply Z.pow_pos_nonneg; lia). split.
  - intros ->. pose proof (Z.div_mod w (2 ^ k)). pose proof (Z.mod_pos_bound w (2 ^ k)). lia.
  - intros [??]. apply (Z.div_unique w (2 ^ k) (v / 2 ^ k) (w - v / 2 ^ k * 2 ^ k)); lia.
Qed.
Lemma contains4 v b w : b <= 32 → Contains (MkPrefix (Addr4 v) b) (Addr4 w) = (v / 2 ^ (32 - b) =? w / 2 ^ (32 - b)).
Proof. intros Hb. apply same_high_bits. lia. Qed.
Lemma contains6 v z b w : b <= 128 → Contains (MkPrefix (Addr6 v z) b) (Addr6 w "") = (v / 2 ^ (128 - b) =? w / 2 ^ (128 - b)).
Proof. intros Hb. simpl. apply same_high_bits. lia. Qed.

(** ** The reference: ranges of IANA's special-purpose registries *)

Definition special4 : list (Z * Z) :=
  let a x y z w := ((x * 256 + y) * 256 + z) * 256 + w in
  [(a 0 0 0 0, a 0 255 255 255); (a 10 0 0 0, a 10 255 255 255); (a 100 64 0 0, a 100 127 255 255);
   (a 127 0 0 0, a 127 255 255 255); (a 169 254 0 0, a 169 254 255 255); (a 172 16 0 0, a 172 31 255 255);
   (a 192 0 0 0, a 192 0 0 255); (a 192 0 2 0, a 192 0 2 255); (a 192 88 99 0, a 192 88 99 255);
   (a 192 168 0 0, a 192 168 255 255); (a 198 18 0 0, a 198 19 255 255); (a 198 51 100 0, a 198 51 100 255);
   (a 203 0 113 0, a 203 0 113 255); (a 224 0 0 0, a 255 255 255 255)].
(** 2001::/23, 2001:db8::/32, 2002::/16 and 3fff::/20 by their first 32 bits. *)
Definition special6 : list (Z * Z) :=
  let a x := x * 2 ^ 96 in
  [(a 536936448, a 536936960 - 1); (a 536939960, a 536939961 - 1); (a 537001984, a 537067520 - 1); (a 1073676288, a 1073680384 - 1)].
Definition in_ranges (ranges : list (Z * Z)) (v : Z) : bool := existsb (λ r, (r.1 <=? v) && (v <=? r.2)) ranges.
(** The global addresses: IPv4 outside the special ranges, IPv6 inside 2000::/3 and
    outside them. *)
Definition globally_reachable (ip : Addr) : bool :=
  match ip with
  | AddrInvalid => false
  | Addr4 v => negb (in_ranges special4 v)
  | Addr6 v _ => (2 ^ 125 <=? v) && (v <? 2 ^ 126) && negb (in_ranges special6 v)
  end.
Definition addr_ok (ip : Addr) : Prop :=
  match ip with AddrInvalid => True | Addr4 v => 0 <= v < 2 ^ 32 | Addr6 v z => 0 <= v < 2 ^ 128 ∧ z = "" end.
Definition private_or_loopback (ip : Addr) : bool :=
  match ip with
  | AddrInvalid => false
  | Addr4 v => in_ranges [(167772160, 184549375); (2130706432, 2147483647); (2886729728, 2887778303); (3232235520, 3232301055)] v
  | Addr6 v _ => (v =? 1) || ((252 * 2 ^ 120 <=? v) && (v <? 254 * 2 ^ 120))
  end.

(** ** The classes of the code are those ranges *)

Lemma byte0_4 v : byte0 32 v = v / 2 ^ 24.
Proof. apply Z.shiftr_div_pow2. lia. Qed.
Lemma byte1_4 v : Z.land (Z.shiftr v 16) 255 = v / 2 ^ 16 mod 256.
Proof. rewrite Z.shiftr_div_pow2 by lia. apply (Z.land_ones _ 8). lia. Qed.
Lemma byte0_range v : 0 <= v < 2 ^ 32 → 0 <= v / 2 ^ 24 < 256.
Proof. intros Hv. split; [apply Z.div_pos; lia|apply Z.div_lt_upper_bound; lia]. Qed.

Ltac spread v :=
  pose proof (Z.div_mod v (2 ^ 24)); pose proof (Z.mod_pos_bound v (2 ^ 24));
  pose proof (Z.div_mod v (2 ^ 16)); pose proof (Z.mod_pos_bound v (2 ^ 16));
  pose proof (Z.div_mod (v / 2 ^ 16) 256); pose proof (Z.mod_pos_bound (v / 2 ^ 16) 256);
  assert (v / 2 ^ 16 / 256 = v / 2 ^ 24) by (rewrite Z.div_div by lia; reflexivity).

Lemma private4 v : 0 <= v < 2 ^ 32 →
  IsPrivate (Addr4 v) = in_ranges [(167772160, 184549375); (2886729728, 2887778303); (3232235520, 3232301055)] v.
Proof.
  intros Hv. unfold IsPrivate. cbn [Unmap]. rewrite byte0_4, byte1_4.
  rewrite (land_cells 240 16) by (try apply Z.mod_pos_bound; try lia; vm_compute; reflexivity).
  unfold in_ranges. cbn [existsb fst snd]. spread v.
  pose proof (Z.div_mod (v / 2 ^ 16 mod 256) 16). pose proof (Z.mod_pos_bound (v / 2 ^ 16 mod 256) 16). lia.
Qed.
Lemma loopback4 v : 0 <= v < 2 ^ 32 → IsLoopback (Addr4 v) = (2130706432 <=? v) && (v <=? 2147483647).
Proof. intros Hv. unfold IsLoopback. cbn [Unmap]. rewrite byte0_4. spread v. lia. Qed.
Lemma multicast4 v : 0 <= v < 2 ^ 32 → IsMulticast (Addr4 v) = (3758096384 <=? v) && (v <=? 4026531839).
Proof.
  intros Hv. unfold IsMulticast. cbn [Unmap]. rewrite byte0_4.
  rewrite (land_cells 240 16) by (try apply byte0_range; try lia; vm_compute; reflexivity).
  spread v. pose proof (Z.div_mod (v / 2 ^ 24) 16). pose proof (Z.mod_pos_bound (v / 2 ^ 24) 16). lia.
Qed.
Lemma linklocal4 v : 0 <= v < 2 ^ 32 → IsLinkLocalUnicast (Addr4 v) = (2851995648 <=? v) && (v <=? 2852061183).
Proof. intros Hv. unfold IsLinkLocalUnicast. cbn [Unmap]. rewrite byte0_4, byte1_4. spread v. lia. Qed.

(** The addresses of a prefix are a range. *)
Definition range_of (p : Prefix) : Z * Z :=
  let k := width (PrefixAddr p) - PrefixBits p in
  let base := match PrefixAddr p with Addr4 v => v | Addr6 v _ => v | AddrInvalid => 0 end / 2 ^ k * 2 ^ k in
  (base, base + 2 ^ k - 1).
Lemma contains_range p ip : PrefixBits p <= width (PrefixAddr p) → Zone ip = "" →
  Contains p ip = match PrefixAddr p, ip with
    | Addr4 _, Addr4 w | Addr6 _ _, Addr6 w _ => ((range_of p).1 <=? w) && (w <=? (range_of p).2)
    | _, _ => false
    end.
Proof.
  destruct p as [[|v|v z] b], ip as [|w|w z']; unfold Contains, range_of;
    cbn [PrefixAddr PrefixBits width fst snd Zone]; intros Hb Hz; try done.
  - rewrite same_high_bits, in_block by lia. lia.
  - rewrite Hz. cbn [String.eqb andb]. rewrite same_high_bits, in_block by lia. lia.
Qed.
Definition blocks (v4 : bool) (ps : list Prefix) : list (Z * Z) :=
  range_of <$> filter (λ p, Is4 (PrefixAddr p) = v4) ps.
Definition well_formed (p : Prefix) : bool := IsValid (PrefixAddr p) && (PrefixBits p <=? width (PrefixAddr p)).
Lemma contained_in ps ip : forallb well_formed ps = true → Zone ip = "" →
  existsb (λ p, Contains p ip) ps =
  match ip with AddrInvalid => false | Addr4 v => in_ranges (blocks true ps) v | Addr6 v _ => in_ranges (blocks false ps) v end.
Proof.
  intros Hps Hz. induction ps as [|p ps IH]; [by destruct ip|]. cbn [forallb existsb] in *.
  apply andb_true_iff in Hps as [Hp Hps]. unfold well_formed in Hp. apply andb_true_iff in Hp as [Hv Hb%Z.leb_le].
  rewrite IH, (contains_range p ip) by done. unfold blocks. rewrite !filter_cons.
  destruct p as [[|v|v z] b]; [done| |]; destruct ip as [|w|w z']; simpl; try done.
Qed.
Lemma excluded_blocks : forallb well_formed excluded = true
  ∧ blocks true excluded = [(0, 16777215); (1681915904, 1686110207); (3221225472, 3221225727); (3221225984, 3221226239);
      (3227017984, 3227018239); (3323068416, 3323199487); (3325256704, 3325256959); (3405803776, 3405804031); (4026531840, 4294967295)]
  ∧ blocks false excluded = [(42540488161975842760550356425300246528, 42540528726795050063891204319802818559);
      (42540766411282592856903984951653826560, 42540766490510755371168322545197776895);
      (42545680458834377588178886921629466624, 42550872755692912415807417417958686719);
      (85065399433376081038215121361612832768, 85065723951929739464941904517633409023)].
Proof. vm_compute. repeat split. Qed.

Lemma public4 v : 0 <= v < 2 ^ 32 → publicAddress (Addr4 v) = negb (in_ranges special4 v).
Proof.
  intros Hv. unfold publicAddress, localAddress, IsGlobalUnicast. cbn [Unmap Is6 andb].
  destruct excluded_blocks as (Hwf & H4 & _).
  rewrite private4, loopback4, multicast4, linklocal4, contained_in, H4 by done.
  unfold in_ranges, special4. cbn [existsb fst snd]. change (Z.ones 32) with 4294967295.
  match goal with |- (if ?b then _ else _) = _ => destruct b eqn:Hb end; lia.
Qed.

(** An IPv6 address whose first three bits are 001 is of none of the other classes. *)
Lemma global6 v : 0 <= v < 2 ^ 128 → Contains globalIPv6 (Addr6 v "") = (2 ^ 125 <=? v) && (v <? 2 ^ 126).
Proof.
  intros Hv. rewrite contains_range by (try done; vm_compute; done).
  change (range_of globalIPv6) with (2 ^ 125, 2 ^ 126 - 1). change (PrefixAddr globalIPv6) with (Addr6 (2 ^ 125) "").
  cbn [fst snd]. lia.
Qed.
Lemma unmapped6 v z : 0 <= v < 2 ^ 128 → 2 ^ 48 <= v → Unmap (Addr6 v z) = Addr6 v z.
Proof.
  intros Hv Hlow. unfold Unmap, Is4In6. rewrite Z.shiftr_div_pow2 by lia.
  destruct (Z.eqb_spec (v / 2 ^ 32) 65535) as [He|]; [|done].
  pose proof (Z.div_mod v (2 ^ 32)). pose proof (Z.mod_pos_bound v (2 ^ 32)). lia.
Qed.
Lemma byte0_6 v : byte0 128 v = v / 2 ^ 120.
Proof. apply Z.shiftr_div_pow2. lia. Qed.
Lemma byte0_6_range v : 0 <= v < 2 ^ 128 → 0 <= v / 2 ^ 120 < 256.
Proof. intros Hv. split; [apply Z.div_pos; lia|apply Z.div_lt_upper_bound; lia]. Qed.
Lemma classes6 v : 2 ^ 125 <= v < 2 ^ 126 →
  IsPrivate (Addr6 v "") = false ∧ IsLoopback (Addr6 v "") = false ∧ IsMulticast (Addr6 v "") = false
  ∧ IsLinkLocalUnicast (Addr6 v "") = false ∧ IsGlobalUnicast (Addr6 v "") = true.
Proof.
  intros Hv. assert (Unmap (Addr6 v "") = Addr6 v "") as Hu by (apply unmapped6; lia).
  pose proof (Z.div_mod v (2 ^ 120)). pose proof (Z.mod_pos_bound v (2 ^ 120)). 
  assert (IsPrivate (Addr6 v "") = false) as Hp.
  { unfold IsPrivate. rewrite Hu, byte0_6. rewrite (land_cells 254 2) by (try apply byte0_6_range; try lia; vm_compute; reflexivity).
    pose proof (Z.div_mod (v / 2 ^ 120) 2). pose proof (Z.mod_pos_bound (v / 2 ^ 120) 2). lia. }
  assert (IsLoopback (Addr6 v "") = false) as Hl by (unfold IsLoopback; rewrite Hu; lia).
  assert (IsMulticast (Addr6 v "") = false) as Hm by (unfold IsMulticast; rewrite Hu, byte0_6; lia).
  assert (IsLinkLocalUnicast (Addr6 v "") = false) as Hk.
  { unfold IsLinkLocalUnicast. rewrite Hu. apply Z.eqb_neq. intros Heq.
    assert (Z.testbit (Z.land (Z.shiftr v 112) 65472) 15 = true) as Hb by (by rewrite Heq).
    rewrite Z.land_spec, Z.shiftr_spec in Hb by lia. apply andb_true_iff in Hb as [Hb _].
    rewrite (Z.bits_above_log2 v) in Hb; [done|lia|]. apply Z.log2_lt_pow2; lia. }
  split_and!; try done. unfold IsGlobalUnicast. rewrite Hu, Hl, Hm, Hk. lia.
Qed.
Lemma public6 v : 0 <= v < 2 ^ 128 → publicAddress (Addr6 v "") = globally_reachable (Addr6 v "").
Proof.
  intros Hv. unfold publicAddress, globally_reachable, localAddress. rewrite global6 by done. cbn [Is6 andb].
  destruct ((2 ^ 125 <=? v) && (v <? 2 ^ 126)) eqn:Hg; [|by rewrite !orb_true_r].
  assert (2 ^ 125 <= v < 2 ^ 126) as Hr by lia. destruct (classes6 v Hr) as (-> & -> & _ & -> & ->). cbn [negb orb andb].
  destruct excluded_blocks as (Hwf & _ & H6). by rewrite contained_in, H6.
Qed.
Lemma local_spec ip : addr_ok ip → Unmap ip = ip → localAddress ip = private_or_loopback ip.
Proof.
  destruct ip as [|v|v z]; intros Hok Hu; [done| |].
  - unfold localAddress. rewrite private4, loopback4 by done. unfold private_or_loopback, in_ranges. cbn [existsb fst snd]. lia.
  - destruct Hok as [Hv ->]. unfold localAddress, IsPrivate, IsLoopback. rewrite Hu, byte0_6.
    rewrite (land_cells 254 2) by (try apply byte0_6_range; try lia; vm_compute; reflexivity).
    unfold private_or_loopback. pose proof (Z.div_mod v (2 ^ 120)). pose proof (Z.mod_pos_bound v (2 ^ 120)).
    pose proof (Z.div_mod (v / 2 ^ 120) 2). pose proof (Z.mod_pos_bound (v / 2 ^ 120) 2). lia.
Qed.
Lemma unmap_ok ip : addr_ok ip → addr_ok (Unmap ip) ∧ Unmap (Unmap ip) = Unmap ip.
Proof.
  destruct ip as [|v|v z]; [done..|]. intros [Hv ->]. unfold Unmap. destruct (Is4In6 (Addr6 v "")) eqn:H4.
  - split; [|done]. simpl. rewrite Z.land_ones by lia. apply Z.mod_pos_bound. lia.
  - by rewrite H4.
Qed.

(** An equivalence. The bit tests by which the policy classifies addresses are the
    ranges of the special-purpose registries: an address is public exactly if it is IPv4
    outside the fourteen special ranges, or IPv6 inside 2000::/3 and outside the documented
    exclusions; and local exactly if it is in a private or loopback range. *)
Theorem addresses_are_classified_by_range ip :
  addr_ok ip → Unmap ip = ip →
  publicAddress ip = globally_reachable ip ∧ localAddress ip = private_or_loopback ip
  ∧ ¬ (publicAddress ip = true ∧ localAddress ip = true).
Proof.
  intros Hok Hu. rewrite local_spec by done. destruct ip as [|v|v z].
  - split_and!; try done. by intros [? ?].
  - rewrite public4 by done. split_and!; try done. unfold private_or_loopback, in_ranges, special4.
    cbn [existsb fst snd]. lia.
  - destruct Hok as [Hv ->]. rewrite public6 by done. split_and!; try done. simpl. lia.
Qed.

(** ** Where sockets go *)

Lemma masked_contains p ip : PrefixBits p <= width (PrefixAddr p) → Contains (Masked p) ip = Contains p ip.
Proof.
  destruct p as [[|v|v z] b], ip as [|w|w z']; unfold Masked, Contains; cbn [PrefixAddr PrefixBits width]; intros Hb; try done.
  all: rewrite !Z.shiftr_lxor, Z.shiftr_shiftl_l, Z.sub_diag, Z.shiftl_0_r by lia; done.
Qed.
Lemma ParsePrefix_bits raw p : ParsePrefix raw = Some p → PrefixBits p <= width (PrefixAddr p).
Proof.
  unfold ParsePrefix. intros ([a b] & _ & (ip & _ & Hp)%bind_Some)%bind_Some. destruct (negb _); [done|].
  destruct (_ && _); [done|]. apply bind_Some in Hp as (bits & _ & Hp).
  destruct (Z.leb_spec bits (width ip)); [|done]. by injection Hp as <-.
Qed.

(** The rule admits the (unmapped) address for the scheme. *)
Definition may_connect (rule : Rule) (scheme : string) (ip : Addr) : Prop :=
  match Networks rule with
  | [] => scheme = "https" ∧ publicAddress ip = true
  | networks =>
      permittedAddress ip = true ∧ (scheme = "http" → localAddress ip = true)
      ∧ ∃ raw pin, raw ∈ networks ∧ ParsePrefix raw = Some pin ∧ Contains pin ip = true
          ∧ (if Is4 (PrefixAddr pin) then 24 else 64) <= PrefixBits pin
  end.

Lemma pins_of_Ok scheme networks pins : pins_of scheme networks = Ok pins →
  Forall2 (λ raw pin, ∃ parsed, ParsePrefix raw = Some parsed ∧ pin = Masked parsed
    ∧ (if Is4 (PrefixAddr parsed) then 24 else 64) <= PrefixBits parsed) networks pins.
Proof.
  revert pins. induction networks as [|raw networks IH]; intros pins; simpl; [intros [= <-]; constructor|].
  intros (pin & Hpin & (rest & Hrest & [= <-])%result_bind_Ok)%result_bind_Ok. constructor; [|by apply IH].
  unfold pin_of in Hpin. destruct (ParsePrefix raw) as [parsed|]; [|done]. exists parsed.
  destruct (_ || _); [done|]. destruct (Z.ltb_spec (PrefixBits parsed) (if Is4 (PrefixAddr parsed) then 24 else 64)); [done|].
  cbv zeta in Hpin. destruct (_ || _); [done|]. injection Hpin as <-. done.
Qed.
Lemma allows_connects rule e ip :
  pins_of (ep_scheme e) (Networks rule) = Ok (ep_pins e) → allows e ip = true → may_connect rule (ep_scheme e) (Unmap ip).
Proof.
  intros Hpins%pins_of_Ok. unfold allows, may_connect. destruct (negb (String.eqb (Zone ip) "")); [done|].
  destruct (permittedAddress (Unmap ip)) eqn:Hperm; [|done]. cbn [negb].
  destruct Hpins as [|raw pin networks pins Hpin Hrest].
  - intros [Hs Hp]%andb_true_iff. by apply String.eqb_eq in Hs.
  - destruct (String.eqb (ep_scheme e) "http" && negb (localAddress (Unmap ip))) eqn:Hh; [done|]. intros Hex.
    split_and!; [done| |].
    + intros Hs. rewrite Hs in Hh. simpl in Hh. by apply negb_false_iff in Hh.
    + apply existsb_exists in Hex as (p & Hp%list_elem_of_In & Hc).
      assert (Forall2 (λ raw pin, ∃ parsed, ParsePrefix raw = Some parsed ∧ pin = Masked parsed
        ∧ (if Is4 (PrefixAddr parsed) then 24 else 64) <= PrefixBits parsed) (raw :: networks) (pin :: pins)) as Hall by (by constructor).
      apply list_elem_of_lookup_1 in Hp as (i & Hi). destruct (Forall2_lookup_r _ _ _ _ _ Hall Hi) as (raw' & Hraw & parsed & Hparse & -> & Hb).
      exists raw', parsed. split_and!; [by eapply list_elem_of_lookup_2|done| |done].
      rewrite masked_contains in Hc; [done|by eapply ParsePrefix_bits].
Qed.

(** Every endpoint of a policy comes from one of its rules. *)
Definition from_rules (rules : list Rule) (canonical : string) (e : endpoint) : Prop :=
  ∃ rule, rule ∈ rules ∧ CanonicalOrigin (RuleOrigin rule) = Ok canonical
    ∧ pins_of (ep_scheme e) (Networks rule) = Ok (ep_pins e) ∧ (ep_scheme e = "http" → ep_pins e ≠ []).
Lemma add_rule_from p rule p' (rules : list Rule) :
  add_rule p rule = Ok p' → rule ∈ rules →
  (∀ c e, p !! c = Some e → from_rules rules c e) → ∀ c e, p' !! c = Some e → from_rules rules c e.
Proof.
  unfold add_rule. intros Hadd Hin Hp. destruct (CanonicalOrigin (RuleOrigin rule)) as [canonical|] eqn:Hc; [|done].
  inv_ok. intros c e [[<- <-]|[_ Hce]]%lookup_insert_Some; [|by apply Hp].
  exists rule. split_and!; try done. simpl. intros Hs Hn.
  match goal with H : _ && _ = false |- _ => rename H into Hpins end.
  cbn [endpoint_of ep_scheme] in Hpins. rewrite Hs in Hpins. subst. done.
Qed.
Lemma NewPolicy_from rules p : NewPolicy rules = Ok p → ∀ c e, p !! c = Some e → from_rules rules c e.
Proof.
  unfold NewPolicy. intros ([] & _ & Hadd)%result_bind_Ok.
  assert (∀ rs q q', (∀ r, r ∈ rs → r ∈ rules) → add_rules q rs = Ok q' →
    (∀ c e, q !! c = Some e → from_rules rules c e) → ∀ c e, q' !! c = Some e → from_rules rules c e) as Hgen.
  { induction rs as [|r rs IH]; intros q q' Hin; simpl; [by intros [= <-]|].
    intros (q1 & Hq1 & Hq')%result_bind_Ok Hq. apply (IH q1 q'); [intros; apply Hin; by right|done|].
    apply (add_rule_from q r q1); [done|apply Hin; by left|done]. }
  apply (Hgen rules ∅ p); [done|done|]. intros c e He. by rewrite lookup_empty in He.
Qed.

Lemma dial_each_targets attempt ctxErr port i addresses :
  (dial_each attempt ctxErr port i addresses).1 =
    take (List.length (dial_each attempt ctxErr port i addresses).1)
      ((λ ip, JoinHostPort (Addr_String (Unmap ip)) port) <$> addresses)
  ∧ (is_ok (dial_each attempt ctxErr port i addresses).2 = true → (dial_each attempt ctxErr port i addresses).1 ≠ []).
Proof.
  revert i. induction addresses as [|ip rest IH]; intros i; [done|]. cbn [dial_each]. cbv zeta.
  destruct (attempt i _) as [c|x]; [done|]. destruct (ctxErr i); [done|].
  destruct (IH (S i)) as [Hd Ho]. destruct (dial_each attempt ctxErr port (S i) rest) as [dialled r]. simpl in *.
  split; [by f_equal|done].
Qed.

(** C28: the sockets of a client stay inside the operator's policy. Whatever the resolver
    answers and the dialler does, a client the policy gave for a destination opens sockets
    only if every resolved address is admitted by the one rule whose origin is the
    destination's: inside a narrow pin of the rule, and private or loopback for plain HTTP,
    or, for a rule without pins, public over HTTPS. The sockets go to those very addresses,
    in the order of the answer, on the port of the origin; a connection needs a socket. *)
Theorem sockets_stay_in_the_policy rules p raw timeout e network address lookup attempt ctxErr :
  NewPolicy rules = Ok p → NewClient (Some p) raw timeout = Ok e →
  let out := dial e network address lookup attempt ctxErr in
  ∃ rule, rule ∈ rules ∧ CanonicalOrigin (RuleOrigin rule) = CanonicalOrigin raw
    ∧ (out.1 ≠ [] → ∃ addresses,
        SplitHostPort address = Some (ep_host e, ep_port e)
        ∧ match ParseAddr (ep_host e) with Some literal => addresses = [literal] | None => lookup (ep_host e) = Ok addresses end
        ∧ Forall (λ ip, may_connect rule (ep_scheme e) (Unmap ip)) addresses
        ∧ out.1 = take (List.length out.1) ((λ ip, JoinHostPort (Addr_String (Unmap ip)) (ep_port e)) <$> addresses))
    ∧ (is_ok out.2 = true → out.1 ≠ []).
Proof.
  intros Hp Hclient out. unfold NewClient, selected in Hclient. inv_ok.
  destruct (CanonicalOrigin raw) as [canonical|] eqn:Hraw; [|done]. inv_ok.
  match goal with H : p !! canonical = Some e |- _ => destruct (NewPolicy_from rules p Hp canonical e H) as (rule & Hin & Hc & Hpins & _) end.
  exists rule. split; [done|]. split; [done|]. subst out. unfold dial.
  destruct (SplitHostPort address) as [[host port]|]; [|done].
  destruct (String.eqb_spec host (ep_host e)) as [->|]; [|done].
  destruct (String.eqb_spec port (ep_port e)) as [->|]; [|done]. cbn [negb orb].
  destruct (negb (String.eqb network "tcp")); [done|].
  destruct (match ParseAddr (ep_host e) with Some literal => Ok [literal] | None => lookup (ep_host e) end) as [addresses|x] eqn:Ha; [|done].
  destruct ((List.length addresses =? 0)%nat || _); [done|].
  destruct (forallb (allows e) addresses) eqn:Hall; cbn [negb]; [|done].
  destruct (dial_each_targets attempt ctxErr (ep_port e) 0 addresses) as [Hd Ho].
  split; [|done]. intros _. exists addresses. split_and!; [done| | |done].
  - destruct (ParseAddr (ep_host e)); [congruence|done].
  - apply Forall_forall. intros ip Hip. apply allows_connects; [done|].
    rewrite forallb_forall in Hall. by apply Hall, list_elem_of_In.
Qed.

(** ** Witnesses *)

Lemma addresses_are_classified_by_range_witness :
  publicAddress (Addr4 134744072) = globally_reachable (Addr4 134744072).
Proof. exact (proj1 (addresses_are_classified_by_range (Addr4 134744072) ltac:(simpl; lia) eq_refl)). Defined.

Definition sample_rules : list Rule :=
  [MkRule "https://api.twilio.com" []; MkRule "http://Messages.LAN.:8080/" ["192.168.1.0/24"]].
Definition sample_lookup (host : string) : result (list Addr) :=
  if String.eqb host "messages.lan" then Ok [Addr4 3232235786] else Err (Errorf "no such host").
#[local] Instance result_eq_dec `{EqDecision A} : EqDecision (result A).
Proof. solve_decision. Defined.
Definition sample_dials : bool :=
  match NewPolicy sample_rules with
  | Ok p =>
      match NewClient (Some p) "http://messages.lan:8080" Second with
      | Ok e =>
          bool_decide (dial e "tcp" "messages.lan:8080" sample_lookup (λ _ target, Ok target) (λ _, None)
                       = (["192.168.1.10:8080"], Ok "192.168.1.10:8080"))
          && bool_decide (ep_scheme e = "http") && bool_decide (ParseAddr (ep_host e) = None)
          && bool_decide (sample_lookup (ep_host e) = Ok [Addr4 3232235786]) && true
      | Err _ => false
      end
  | Err _ => false
  end.
Lemma sockets_stay_in_the_policy_witness :
  ∃ p e rule, NewPolicy sample_rules = Ok p ∧ NewClient (Some p) "http://messages.lan:8080" Second = Ok e
    ∧ dial e "tcp" "messages.lan:8080" sample_lookup (λ _ target, Ok target) (λ _, None) = (["192.168.1.10:8080"], Ok "192.168.1.10:8080")
    ∧ rule ∈ sample_rules ∧ may_connect rule "http" (Addr4 3232235786).
Proof.
  assert (Hall : sample_dials = true) by (vm_compute; reflexivity). unfold sample_dials in Hall.
  destruct (NewPolicy sample_rules) as [p|] eqn:Hp; [|discriminate Hall].
  destruct (NewClient (Some p) "http://messages.lan:8080" Second) as [e|] eqn:He; [|discriminate Hall].
  apply andb_true_iff in Hall as [[[[Hd%bool_decide_eq_true Hs%bool_decide_eq_true]%andb_true_iff Hl%bool_decide_eq_true]%andb_true_iff
    Hr%bool_decide_eq_true]%andb_true_iff _].
  destruct (sockets_stay_in_the_policy sample_rules p _ _ e "tcp" "messages.lan:8080" sample_lookup (λ _ target, Ok target) (λ _, None) Hp He)
    as (rule & Hin & _ & Hsock & _).
  exists p, e, rule. rewrite Hd, Hs, Hl, Hr in Hsock. cbn [fst] in Hsock.
  destruct (Hsock ltac:(discriminate)) as (addresses & _ & Heq & Hall & _). injection Heq as <-.
  apply Forall_inv in Hall. split; [reflexivity|]. split; [exact He|]. split; [exact Hd|]. split; [exact Hin|exact Hall].
Defined.
