(* ===== verification/HttpGuard.v ===== *)
(** * Guarded HTTP (src/internal/otp/internal/httpguard/httpguard.go)

    The exchange of the two inbox adapters: one response, read through a hard cap, whose
    failures say nothing of the request.  What the server and the transport answer is a
    parameter. *)

From S2P Require Import Prelude GoStrings.
From Stdlib Require Import Ascii String.

Open Scope Z_scope.

Record HttpRequest := MkHttpRequest {
  HR_Method : string; HR_Path : string; HR_Query : gmap string (list string);
  HR_BasicAuth : option (string * string); HR_Headers : list (string * string); HR_Body : string }.
(** [HS_Body]: the bytes that arrive before the end or [HS_ReadError]; an unknown content
    length is -1. *)
Record HttpResponse := MkHttpResponse {
  HS_Status : Z; HS_ContentLength : Z; HS_Body : string; HS_ReadError : bool }.

Definition absoluteMaxResponseBytes : Z := 4194304.
Definition guard_error (provider op : string) (status : Z) (reason : string) : error :=
  Errorf (provider +:+ " " +:+ op +:+ ": " +:+ reason
          +:+ (if status =? 0 then "" else " (status " +:+ format_int status +:+ ")")).

(** [answer]: what the client returns; [ctxErr]: the error of the context then. *)
Definition guard_Do (provider op : string) (maxBytes : Z) (answer : result HttpResponse) (ctxErr : option error) : result string :=
  let guard status reason := Err (guard_error provider op status reason) in
  if (maxBytes <=? 0) || (absoluteMaxResponseBytes <? maxBytes) then guard 0 "invalid response limit"
  else
    match answer with
    | Err _ => match ctxErr with Some e => Err e | None => guard 0 "request failed" end
    | Ok response =>
        if (HS_Status response <? 200) || (300 <=? HS_Status response) then guard (HS_Status response) "unexpected HTTP response"
        else if maxBytes <? HS_ContentLength response then guard 0 "response exceeded size limit"
        else
          let body := take_bytes (Z.to_nat (maxBytes + 1)) (HS_Body response) in
          if HS_ReadError response && (len body <=? maxBytes) then guard 0 "could not read response"
          else if maxBytes <? len body then guard 0 "response exceeded size limit"
          else Ok body
    end.
