(* ===== verification/BlueBubbles.v ===== *)
(** * The BlueBubbles inbox (src/internal/otp/bluebubbles/bluebubbles.go)

    A query-only adapter: health, the snapshot of the newest row before a code is
    requested, and the paged polls for messages after it.  The network is a parameter:
    [net poll page request] is the answer to a request of a poll, with the error of the
    context at that moment; [tick poll] is the error with which the wait after a poll
    ends, if the context ended. *)

From S2P Require Import Prelude GoStrings GoTime Json GoUrl Origin Egress HttpGuard Redaction Database Otp.
From Stdlib Require Import Ascii String.

Open Scope Z_scope.

Module BlueBubbles.

Definition Kind : string := "bluebubbles".
Definition maxPageLimit : Z := 50.
Definition maxPages : Z := 5.

Record Config := MkConfig {
  BaseURL : string; Password : string; ChatGUID : string; Sender : string; Service : string;
  PollInterval : Duration; RequestTimeout : Duration; MaxResponseBytes : Z; PageLimit : Z; MaxPages : Z;
  Freshness : Duration }.
Definition zero_config : Config := MkConfig "" "" "" "" "" 0 0 0 0 0 0.
Definition decode_config (fields : list (string * json)) : option Config :=
  a ← assigned string_onto "base_url" "" fields; b ← assigned string_onto "password" "" fields;
  c ← assigned string_onto "chat_guid" "" fields; d ← assigned string_onto "sender" "" fields;
  e ← assigned string_onto "service" "" fields; f ← assigned int64_onto "poll_interval" 0 fields;
  g ← assigned int64_onto "request_timeout" 0 fields; h ← assigned int64_onto "max_response_bytes" 0 fields;
  i ← assigned int64_onto "page_limit" 0 fields; j ← assigned int64_onto "max_pages" 0 fields;
  k ← assigned int64_onto "freshness" 0 fields;
  Some (MkConfig a b c d e f g h i j k).

Definition or_default (v default_ : Z) : Z := if v =? 0 then default_ else v.
Definition configWithDefaults (c : Config) : Config :=
  MkConfig (BaseURL c) (Password c) (ChatGUID c) (Sender c) (Service c)
    (or_default (PollInterval c) Second) (or_default (RequestTimeout c) (10 * Second))
    (or_default (MaxResponseBytes c) 1048576) (or_default (PageLimit c) 20) (or_default (MaxPages c) 3)
    (or_default (Freshness c) (5 * Minute)).
Definition outside (low v high : Z) : bool := (v <? low) || (high <? v).
Definition config_checks (c : Config) : result unit :=
  checks [
    reject (blank (Password c)) (Errorf "bluebubbles password is required");
    reject (outside 1 (PageLimit c) maxPageLimit) (Errorf "bluebubbles page limit must be between 1 and 50");
    reject (outside 1 (MaxPages c) maxPages) (Errorf "bluebubbles max pages must be between 1 and 5");
    reject (outside 1 (MaxResponseBytes c) 4194304) (Errorf "bluebubbles response limit must be between 1 byte and 4 MiB");
    reject (outside 1 (PollInterval c) Minute) (Errorf "bluebubbles poll interval must be between 1 nanosecond and 1 minute");
    reject (outside 1 (RequestTimeout c) Minute) (Errorf "bluebubbles request timeout must be between 1 nanosecond and 1 minute");
    reject (outside 1 (Freshness c) Hour) (Errorf "bluebubbles freshness must be between 1 nanosecond and 1 hour")].

Record Provider := MkProvider { config : Config; base : string; client : endpoint }.
Definition New (c0 : Config) (policy : option (gmap string endpoint)) : result Provider :=
  let c := configWithDefaults c0 in
  match CanonicalOrigin (BaseURL c) with
  | Err _ => Err (Errorf "bluebubbles base URL must be an HTTP(S) server root")
  | Ok base =>
      _ ← config_checks c;
      client ← NewClient policy base (RequestTimeout c);
      Ok (MkProvider c base client)
  end.

(** ** Exchanges *)

Definition safeShapeError (op : string) : error := guard_error Kind op 0 "malformed API response".
Definition validEnvelopeStatus (status : Z) : bool := (200 <=? status) && (status <? 300).

Record wireHandle := MkHandle { WH_Address : string; WH_Service : string }.
Record wireMessage := MkWire {
  OriginalROWID : Z; GUID : string; Text : string; Handle : option wireHandle; Chats : list string;
  DateCreated : Z; IsFromMe : bool }.
Record queryMetadata := MkMetadata { QM_Offset : Z; QM_Limit : Z; QM_Total : Z; QM_Count : Z }.
Record envelope := MkEnvelope { En_Status : Z; En_Data : option json; En_Metadata : option queryMetadata }.

Definition decode_handle (old : wireHandle) (fields : list (string * json)) : option wireHandle :=
  a ← assigned string_onto "address" (WH_Address old) fields; s ← assigned string_onto "service" (WH_Service old) fields;
  Some (MkHandle a s).
(** A pointer field: null clears it, an object is decoded onto what it points to. *)
Definition pointer_onto {A} (zero : A) (decode : A → list (string * json) → option A) (old : option A) (v : json) : option (option A) :=
  match v with
  | JNull => Some None
  | JObject fields => new ← decode (default zero old) fields; Some (Some new)
  | _ => None
  end.
Definition chat_guid (v : json) : option string :=
  struct_onto (λ old fields, assigned string_onto "guid" old fields) "" v.
Definition zero_message : wireMessage := MkWire 0 "" "" None [] 0 false.
Definition decode_message (_ : wireMessage) (fields : list (string * json)) : option wireMessage :=
  r ← assigned int64_onto "originalROWID" 0 fields; g ← assigned string_onto "guid" "" fields;
  t ← assigned string_onto "text" "" fields;
  h ← assigned (pointer_onto (MkHandle "" "") decode_handle) "handle" None fields;
  c ← assigned (list_onto chat_guid) "chats" None fields;
  d ← assigned int64_onto "dateCreated" 0 fields; m ← assigned bool_onto "isFromMe" false fields;
  Some (MkWire r g t h (default [] c) d m).
Definition decode_metadata (old : queryMetadata) (fields : list (string * json)) : option queryMetadata :=
  o ← assigned int64_onto "offset" (QM_Offset old) fields; l ← assigned int64_onto "limit" (QM_Limit old) fields;
  t ← assigned int64_onto "total" (QM_Total old) fields; c ← assigned int64_onto "count" (QM_Count old) fields;
  Some (MkMetadata o l t c).
(** [json.RawMessage]: the member as it is. *)
Definition decode_envelope (old : envelope) (fields : list (string * json)) : option envelope :=
  s ← assigned int64_onto "status" (En_Status old) fields;
  d ← assigned (λ _ v, Some (Some v)) "data" (En_Data old) fields;
  m ← assigned (pointer_onto (MkMetadata 0 0 0 0) decode_metadata) "metadata" (En_Metadata old) fields;
  Some (MkEnvelope s d m).
Definition read_envelope (body : string) : option envelope :=
  v ← Unmarshal body; struct_onto decode_envelope (MkEnvelope 0 None None) v.

Record queryRequest := MkQuery { Q_ChatGUID : string; Q_Offset : Z; Q_Limit : Z; Q_Sort : string; Q_After : option Z }.
Record queryResponse := MkQueryResponse { Messages : list wireMessage; Total : Z }.
Definition query_payload (q : queryRequest) : string :=
  encode (JObject (
    (if String.eqb (Q_ChatGUID q) "" then [] else [("chatGuid", JString (Q_ChatGUID q))])
    ++ [("with", JArray [JString "chat"]); ("offset", JNumber (format_int (Q_Offset q)));
        ("limit", JNumber (format_int (Q_Limit q))); ("sort", JString (Q_Sort q))]
    ++ match Q_After q with
       | None => []
       | Some row =>
           [("where", JArray [JObject [("statement", JString "message.ROWID > :minRowID");
                                       ("args", JObject [("minRowID", JNumber (format_int row))])]])]
       end)%list).

(** The answer to a request, with the error of the context when it came. *)
Definition network := HttpRequest → result HttpResponse * option error.
Section exchange.
Context (p : Provider) (net : network).

Definition do (method path payload op : string) : result string :=
  let content := if String.eqb method "POST" then [("Content-Type", "application/json")] else [] in
  let request := MkHttpRequest method path {[ "password" := [Password (config p)] ]} None
                   (("Accept", "application/json") :: content) payload in
  guard_Do Kind op (MaxResponseBytes (config p)) (net request).1 (net request).2.

Definition Health : result unit :=
  body ← do "GET" "/api/v1/ping" "" "health";
  match read_envelope body with
  | Some (MkEnvelope status (Some data) _) =>
      if negb (validEnvelopeStatus status) then Err (guard_error Kind "health" 0 "API reported failure")
      else
        match string_onto "" data with
        | Some pong => reject (negb (equal_fold pong "pong")) (safeShapeError "health")
        | None => Err (safeShapeError "health")
        end
  | _ => Err (safeShapeError "health")
  end.

Definition consistent (request : queryRequest) (metadata : queryMetadata) (messages : list wireMessage) : bool :=
  let n := Z.of_nat (List.length messages) in
  (n <=? Q_Limit request) && (QM_Count metadata =? n) && (QM_Limit metadata =? Q_Limit request)
  && (QM_Offset metadata =? Q_Offset request) && (n <=? QM_Total metadata).
Definition identified (m : wireMessage) : bool := (1 <=? OriginalROWID m) && negb (blank (GUID m)).
(** [data]: an array of messages; null is refused. *)
Definition read_messages (data : json) : option (list wireMessage) :=
  match data with JNull => None | v => items ← list_onto (struct_onto decode_message zero_message) None v; items end.
Definition query (request : queryRequest) : result queryResponse :=
  body ← do "POST" "/api/v1/message/query" (query_payload request) "query";
  match read_envelope body with
  | Some (MkEnvelope status (Some data) (Some metadata)) =>
      if negb (validEnvelopeStatus status) then Err (guard_error Kind "query" 0 "API reported failure")
      else
        match read_messages data with
        | None => Err (safeShapeError "query")
        | Some messages =>
            if negb (consistent request metadata messages) || negb (forallb identified messages)
            then Err (safeShapeError "query")
            else Ok (MkQueryResponse messages (QM_Total metadata))
        end
  | _ => Err (safeShapeError "query")
  end.
End exchange.

(** ** Arming and polling *)

Definition effectiveFilter (p : Provider) (f : Filter) : result Filter :=
  if FPairing f then Ok (MkFilter "" "" (FRecipient f) "" (FFreshAfter f) true true)
  else
    let or_config (own configured : string) := if String.eqb own "" then configured else own in
    let chat := or_config (FChatGUID f) (ChatGUID (config p)) in
    let sender := or_config (FSender f) (Sender (config p)) in
    let service := or_config (FService f) (Service (config p)) in
    if blank chat || blank sender || blank service
    then Err (Errorf "bluebubbles must be paired to an exact chat, sender, and service")
    else Ok (MkFilter chat sender (FRecipient f) service (FFreshAfter f) false (FRequireYodel f)).

Definition max_row (cursor : Z) (messages : list wireMessage) : Z :=
  foldl (λ c m, if c <? OriginalROWID m then OriginalROWID m else c) cursor messages.
Definition with_fresh_after (t : Time) (f : Filter) : Filter :=
  MkFilter (FChatGUID f) (FSender f) (FRecipient f) (FService f) t (FPairing f) (FRequireYodel f).
Definition Arm (p : Provider) (net : network) (now : Time) (filter0 : Filter) : result Armed :=
  filter ← effectiveFilter p filter0;
  let filter := if IsZero (FFreshAfter filter) then with_fresh_after (Add now (- Freshness (config p))) filter else filter in
  response ← query p net (MkQuery (FChatGUID filter) 0 1 "DESC" None);
  Ok (MkArmed Kind now (MkCursor (max_row 0 (Messages response)) zero_time []) filter).

Definition normalize (message : wireMessage) (expectedChat : string) : RawMessage :=
  let chatGUID :=
    if negb (String.eqb expectedChat "") then
      (if existsb (String.eqb expectedChat) (Chats message) then expectedChat else "")
    else match Chats message with [chat] => chat | _ => "" end in
  MkRaw (GUID message) (Text message) (default "" (WH_Address <$> Handle message)) "" chatGUID
    (default "" (WH_Service <$> Handle message)) (DateCreated message * Millisecond) (OriginalROWID message)
    (negb (IsFromMe message)).

(** The pages of a poll, from [page] on; [ask page request] is the [query] of that page. *)
Definition after_cursor (cursor : Z) (messages : list wireMessage) : list wireMessage :=
  List.filter (λ m, cursor <? OriginalROWID m) messages.
Fixpoint fetch_pages (p : Provider) (ask : nat → queryRequest → result queryResponse) (cursor : Z) (filter : Filter)
    (pages page : nat) (all : list RawMessage) (maxCursor : Z) : result (list RawMessage * Z) :=
  match pages with
  | O => Err (Sentinel ErrPollWindowExceeded)
  | S pages =>
      let offset := Z.of_nat page * PageLimit (config p) in
      response ← ask page (MkQuery (FChatGUID filter) offset (PageLimit (config p)) "ASC" (Some cursor));
      if PageLimit (config p) * MaxPages (config p) <? Total response then Err (Sentinel ErrPollWindowExceeded)
      else
        let fresh := after_cursor cursor (Messages response) in
        let all := (all ++ ((λ m, normalize m (FChatGUID filter)) <$> fresh))%list in
        let maxCursor := max_row maxCursor fresh in
        if Total response <=? offset + Z.of_nat (List.length (Messages response)) then Ok (all, maxCursor)
        else if (List.length (Messages response) =? 0)%nat then Err (safeShapeError "query")
        else fetch_pages p ask cursor filter pages (S page) all maxCursor
  end.
Definition fetchAfter (p : Provider) (ask : nat → queryRequest → result queryResponse) (cursor : Z) (filter : Filter)
    : result (list RawMessage * Z) :=
  fetch_pages p ask cursor filter (Z.to_nat (MaxPages (config p))) 0 [] cursor.

Section wait.
Context `{UnicodeFold} (p : Provider) (net : nat → nat → network) (tick : nat → option error).

(** The polls from [poll] on; [None]: more polls are to come. *)
Fixpoint poll_from (polls poll : nat) (cursor : Z) (filter : Filter) (seen : Deduper) : option (result (list Message)) :=
  match polls with
  | O => None
  | S polls =>
      match fetchAfter p (λ page, query p (net poll page)) cursor filter with
      | Err e => Some (Err e)
      | Ok (raw, nextCursor) =>
          let '(candidates, seen') := Select raw filter (Some seen) in
          match candidates with
          | _ :: _ => Some (Ok candidates)
          | [] =>
              match tick poll with
              | Some e => Some (Err e)
              | None => poll_from polls (S poll) (Z.max cursor nextCursor) filter (default seen seen')
              end
          end
      end
  end.
Definition wait (polls : nat) (armed : Armed) : option (result (list Message)) :=
  if negb (String.eqb (AProvider armed) Kind) then Some (Err (Errorf "bluebubbles received an arm from another provider"))
  else
    match effectiveFilter p (AFilter armed) with
    | Err e => Some (Err e)
    | Ok filter =>
        let seen := NewDeduper (PageLimit (config p) * MaxPages (config p) * 2) (CuIDs (ACursor armed)) in
        poll_from polls 0 (CuPosition (ACursor armed)) filter seen
    end.
Definition WaitForCode (polls : nat) (armed : Armed) : option (result Message) :=
  (λ r, candidates ← r; of_option (Errorf "index out of range") (head candidates)) <$> wait polls armed.
Definition WaitForPairingCandidates (polls : nat) (armed : Armed) : option (result (list Message)) :=
  if negb (FPairing (AFilter armed)) then Some (Err (Errorf "bluebubbles pairing candidates require a pairing arm"))
  else wait polls armed.
End wait.
End BlueBubbles.
