(* ===== verification/Twilio.v ===== *)
(** * The Twilio inbox (src/internal/otp/twilio/twilio.go)

    An inbound-only adapter over the Messages resource: the snapshot of recent messages
    before a code is requested, and polls that follow the pages, newest first, back to the
    snapshot or the freshness limit.  The network and the local zone names are parameters,
    as for the BlueBubbles adapter. *)

From S2P Require Import Prelude GoStrings GoTime Json GoUrl Origin Egress HttpGuard Redaction Database Otp.
From Stdlib Require Import Ascii String.

Open Scope Z_scope.

Module Twilio.

Definition Kind : string := "twilio".
Definition defaultBaseURL : string := "https://api.twilio.com".
Definition maxPageLimit : Z := 50.
Definition maxPages : Z := 5.

Record Config := MkConfig {
  AccountSID : string; AuthToken : string; ToNumber : string; Sender : string; BaseURL : string;
  PollInterval : Duration; RequestTimeout : Duration; MaxResponseBytes : Z; PageLimit : Z; MaxPages : Z;
  Freshness : Duration }.
Definition decode_config (fields : list (string * json)) : option Config :=
  a ← assigned string_onto "account_sid" "" fields; b ← assigned string_onto "auth_token" "" fields;
  c ← assigned string_onto "to_number" "" fields; d ← assigned string_onto "sender" "" fields;
  e ← assigned string_onto "base_url" "" fields; f ← assigned int64_onto "poll_interval" 0 fields;
  g ← assigned int64_onto "request_timeout" 0 fields; h ← assigned int64_onto "max_response_bytes" 0 fields;
  i ← assigned int64_onto "page_limit" 0 fields; j ← assigned int64_onto "max_pages" 0 fields;
  k ← assigned int64_onto "freshness" 0 fields;
  Some (MkConfig a b c d e f g h i j k).
Definition or_default (v default_ : Z) : Z := if v =? 0 then default_ else v.
Definition configWithDefaults (c : Config) : Config :=
  MkConfig (AccountSID c) (AuthToken c) (ToNumber c) (Sender c)
    (if String.eqb (BaseURL c) "" then defaultBaseURL else BaseURL c)
    (or_default (PollInterval c) (2 * Second)) (or_default (RequestTimeout c) (10 * Second))
    (or_default (MaxResponseBytes c) 1048576) (or_default (PageLimit c) 20) (or_default (MaxPages c) 3)
    (or_default (Freshness c) (5 * Minute)).
Definition validateBaseURL (value : string) : result URL :=
  match url_Parse (trim_space value) with
  | Some u =>
      _ ← reject (String.eqb (Scheme u) "" || String.eqb (UHost u) "") (Errorf "twilio base URL must be an absolute HTTP(S) URL");
      _ ← reject (negb (String.eqb (Scheme u) "http") && negb (String.eqb (Scheme u) "https"))
            (Errorf "twilio base URL must use HTTP or HTTPS");
      _ ← reject (has_user u || not_empty (RawQuery u) || not_empty (Fragment u)
                  || (not_empty (Path u) && negb (String.eqb (Path u) "/")))
            (Errorf "twilio base URL must not contain credentials, a path, query, or fragment");
      Ok u
  | None => Err (Errorf "twilio base URL must be an absolute HTTP(S) URL")
  end.
Definition outside (low v high : Z) : bool := (v <? low) || (high <? v).
Definition config_checks (c : Config) : result unit :=
  checks [
    reject (blank (AccountSID c) || contains (AccountSID c) "/")
      (Errorf "twilio account SID is required and must not contain a slash");
    reject (blank (AuthToken c)) (Errorf "twilio auth token is required");
    reject (blank (ToNumber c)) (Errorf "twilio receiving number is required");
    reject (outside 1 (PageLimit c) maxPageLimit) (Errorf "twilio page limit must be between 1 and 50");
    reject (outside 1 (MaxPages c) maxPages) (Errorf "twilio max pages must be between 1 and 5");
    reject (outside 1 (MaxResponseBytes c) 4194304) (Errorf "twilio response limit must be between 1 byte and 4 MiB");
    reject (outside 1 (PollInterval c) Minute) (Errorf "twilio poll interval must be between 1 nanosecond and 1 minute");
    reject (outside 1 (RequestTimeout c) Minute) (Errorf "twilio request timeout must be between 1 nanosecond and 1 minute");
    reject (outside 1 (Freshness c) Hour) (Errorf "twilio freshness must be between 1 nanosecond and 1 hour")].

(** [url.PathEscape] *)
Definition segment_byte (c : ascii) : bool := is_alnum c || one_of "-_.~$&+:=@" c.
Fixpoint PathEscape (s : string) : string :=
  match s with
  | EmptyString => EmptyString
  | String c s' =>
      if segment_byte c then String c (PathEscape s')
      else String "%" (String (hex_digit (nat_of_ascii c / 16)) (String (hex_digit (nat_of_ascii c mod 16)) (PathEscape s')))
  end.
Record Provider := MkProvider { config : Config; base : URL; client : endpoint; messagesPath : string; accountPath : string }.
Definition newForPolicy (c0 : Config) (policy : option (gmap string endpoint)) : result Provider :=
  let c := configWithDefaults c0 in
  base ← validateBaseURL (BaseURL c);
  _ ← config_checks c;
  let account := "/2010-04-01/Accounts/" +:+ PathEscape (AccountSID c) in
  client ← NewClient policy (Scheme base +:+ "://" +:+ UHost base) (RequestTimeout c);
  Ok (MkProvider c base client (account +:+ "/Messages.json") (account +:+ ".json")).
Definition with_base (url : string) (c : Config) : Config :=
  MkConfig (AccountSID c) (AuthToken c) (ToNumber c) (Sender c) url (PollInterval c) (RequestTimeout c)
    (MaxResponseBytes c) (PageLimit c) (MaxPages c) (Freshness c).
Definition New (c : Config) : result Provider :=
  _ ← reject (not_empty (BaseURL c)
              && negb (match CanonicalOrigin (BaseURL c) with Ok o => String.eqb o defaultBaseURL | Err _ => false end))
        (Errorf "twilio must use its fixed HTTPS API endpoint");
  policy ← NewPolicy [MkRule defaultBaseURL []];
  newForPolicy (with_base defaultBaseURL c) (Some policy).

(** ** Exchanges *)

Definition safeShapeError (op : string) : error := guard_error Kind op 0 "malformed API response".
Record wireMessage := MkWire {
  SID : string; Body : string; From : string; To : string; Direction : string; DateSent : string; DateCreated : string }.
Definition decode_message (old : wireMessage) (fields : list (string * json)) : option wireMessage :=
  a ← assigned string_onto "sid" (SID old) fields; b ← assigned string_onto "body" (Body old) fields;
  c ← assigned string_onto "from" (From old) fields; d ← assigned string_onto "to" (To old) fields;
  e ← assigned string_onto "direction" (Direction old) fields; f ← assigned string_onto "date_sent" (DateSent old) fields;
  g ← assigned string_onto "date_created" (DateCreated old) fields;
  Some (MkWire a b c d e f g).
Definition zero_message : wireMessage := MkWire "" "" "" "" "" "" "".
(** An absent or null list is [nil]. *)
Definition decode_list (body : string) : option (option (list wireMessage) * string) :=
  v ← Unmarshal body;
  match v with
  | JNull => Some (None, "")
  | JObject fields =>
      m ← assigned (list_onto (struct_onto decode_message zero_message)) "messages" None fields;
      n ← assigned string_onto "next_page_uri" "" fields;
      Some (m, n)
  | _ => None
  end.

Definition network := HttpRequest → result HttpResponse * option error.
(** The path and query of a target; its origin is that of the provider. *)
Record target := MkTarget { T_Path : string; T_Query : gmap string (list string) }.

(** [url.QueryUnescape] and [url.ParseQuery]: malformed pairs are dropped. *)
Fixpoint query_unescape (s : string) : option string :=
  match s with
  | EmptyString => Some EmptyString
  | String c s1 =>
      if Ascii.eqb c "%" then
        match s1 with
        | String a (String b s2) =>
            if is_hex a && is_hex b then r ← query_unescape s2; Some (String (byte (16 * hex_value a + hex_value b)) r) else None
        | _ => None
        end
      else r ← query_unescape s1; Some (String (if Ascii.eqb c "+" then " "%char else c) r)
  end.
Definition add_pair (m : gmap string (list string)) (pair : string) : gmap string (list string) :=
  if String.eqb pair "" || contains pair ";" then m
  else
    match query_unescape (cut_before "=" pair), query_unescape (cut_after "=" pair) with
    | Some k, Some v => <[k := (default [] (m !! k) ++ [v])%list]> m
    | _, _ => m
    end.
Definition ParseQuery (q : string) : gmap string (list string) := foldl add_pair ∅ (split_byte "&" q).

Section exchange.
Context (p : Provider) (local_name : string → Z → option Z).

Definition get (net : network) (t : target) (op : string) : result string :=
  let request := MkHttpRequest "GET" (T_Path t) (T_Query t) (Some (AccountSID (config p), AuthToken (config p)))
                   [("Accept", "application/json")] "" in
  guard_Do Kind op (MaxResponseBytes (config p)) (net request).1 (net request).2.
Definition Health (net : network) : result unit :=
  body ← get net (MkTarget (accountPath p) ∅) "health";
  match (v ← Unmarshal body; struct_onto (λ old fields, assigned string_onto "sid" old fields) "" v) with
  | Some sid => reject (negb (String.eqb sid (AccountSID (config p)))) (safeShapeError "health")
  | None => Err (safeShapeError "health")
  end.
Definition listPage (net : network) (t : target) : result (list wireMessage * string) :=
  body ← get net t "query";
  match decode_list body with
  | Some (Some messages, next) =>
      if PageLimit (config p) <? Z.of_nat (List.length messages) then Err (safeShapeError "query") else Ok (messages, next)
  | _ => Err (safeShapeError "query")
  end.
Definition own_query (q : gmap string (list string)) : gmap string (list string) :=
  <["PageSize" := [format_int (PageLimit (config p))]]> (<["To" := [ToNumber (config p)]]> q).
Definition firstPageURL : target := MkTarget (messagesPath p) (own_query ∅).
Definition allowed_key (key : string) : bool := bool_decide (key ∈ ["To"; "PageSize"; "Page"; "PageToken"]).
Definition nextPageURL (value : string) : result target :=
  match url_Parse value with
  | None => Err (safeShapeError "query")
  | Some next =>
      if not_empty (Scheme next) || not_empty (UHost next) || has_user next || not_empty (Fragment next)
         || negb (String.eqb (Path next) (messagesPath p))
      then Err (safeShapeError "query")
      else
        let query := ParseQuery (RawQuery next) in
        if negb (forallb (λ kv, allowed_key kv.1) (map_to_list query)) then Err (safeShapeError "query")
        else Ok (MkTarget (messagesPath p) (own_query query))
  end.

Definition receivedAt (m : wireMessage) : option Time :=
  let value := if String.eqb (DateSent m) "" then DateCreated m else DateSent m in
  match parse_rfc1123z value with
  | Some t => Some t
  | None => match parse_rfc1123 local_name value with Some t => Some t | None => parse_rfc3339 value end
  end.
(** The instant of an identified message. *)
Definition instant (m : wireMessage) : option Time := t ← receivedAt m; if blank (SID m) then None else Some t.
Definition instants (op : string) (messages : list wireMessage) : result (list (wireMessage * Time)) :=
  of_option (safeShapeError op) (mapM (λ m, t ← instant m; Some (m, t)) messages).

(** The pages from [page] on. *)
Fixpoint list_from (net : nat → network) (oldestNeeded : Time) (pages page : nat) (t : target) (all : list wireMessage)
    : result (list wireMessage) :=
  match pages with
  | O => Err (Sentinel ErrPollWindowExceeded)
  | S more =>
      '(messages, next) ← listPage (net page) t;
      let all := (all ++ messages)%list in
      timed ← instants "query" messages;
      let coveredCursor := negb (IsZero oldestNeeded) && existsb (λ mt, Before mt.2 oldestNeeded) timed in
      if (coveredCursor : bool) then Ok all
      else if String.eqb next "" then Ok all
      else if (more =? 0)%nat then Err (Sentinel ErrPollWindowExceeded)
      else t' ← nextPageURL next; list_from net oldestNeeded more (S page) t' all
  end.
Definition listMessages (net : nat → network) (oldestNeeded : Time) : result (list wireMessage) :=
  list_from net oldestNeeded (Z.to_nat (MaxPages (config p))) 0 firstPageURL [].

(** ** Arming and polling *)

Definition effectiveFilter (f : Filter) : Filter :=
  MkFilter (FChatGUID f) (if String.eqb (FSender f) "" then Sender (config p) else FSender f)
    (if String.eqb (FRecipient f) "" then ToNumber (config p) else FRecipient f)
    (FService f) (FFreshAfter f) (FPairing f) (FRequireYodel f).
Definition latest (start : Time) (ts : list Time) : Time := foldl (λ newest t, if After t newest then t else newest) start ts.
Definition Arm (net : network) (now : Time) (filter0 : Filter) : result Armed :=
  _ ← reject (FPairing filter0) (Errorf "twilio does not use supervised inbox pairing");
  let f := effectiveFilter filter0 in
  let fresh := if IsZero (FFreshAfter f) then Add now (- Freshness (config p)) else FFreshAfter f in
  let filter := MkFilter (FChatGUID f) (FSender f) (FRecipient f) (FService f) fresh (FPairing f) (FRequireYodel f) in
  '(messages, _) ← listPage net firstPageURL;
  timed ← instants "arm" messages;
  Ok (MkArmed Kind now (MkCursor 0 (latest zero_time timed.*2) ((λ mt, SID mt.1) <$> timed)) filter).

Definition raw_of `{UnicodeFold} (mt : wireMessage * Time) : RawMessage :=
  MkRaw (SID mt.1) (Body mt.1) (From mt.1) (To mt.1) "" "sms" mt.2 0 (EqualFold (Direction mt.1) "inbound").
(** [!cursorTime.IsZero() && receivedAt.Before(cursorTime)] messages are passed over. *)
Definition recent (cursorTime : Time) (timed : list (wireMessage * Time)) : list (wireMessage * Time) :=
  List.filter (λ mt, negb (negb (IsZero cursorTime) && Before mt.2 cursorTime)) timed.

Context `{UnicodeFold} (net : nat → nat → network) (tick : nat → option error).
Fixpoint poll_from (polls poll : nat) (cursorTime : Time) (filter : Filter) (seen : Deduper) : option (result Message) :=
  match polls with
  | O => None
  | S polls =>
      let oldestNeeded := if After cursorTime (FFreshAfter filter) then cursorTime else FFreshAfter filter in
      match wire ← listMessages (net poll) oldestNeeded; instants "query" wire with
      | Err e => Some (Err e)
      | Ok timed =>
          let kept := recent cursorTime timed in
          let '(candidates, seen') := Select (raw_of <$> kept) filter (Some seen) in
          match candidates with
          | m :: _ => Some (Ok m)
          | [] =>
              match tick poll with
              | Some e => Some (Err e)
              | None => poll_from polls (S poll) (latest cursorTime kept.*2) filter (default seen seen')
              end
          end
      end
  end.
Definition WaitForCode (polls : nat) (armed : Armed) : option (result Message) :=
  if negb (String.eqb (AProvider armed) Kind) then Some (Err (Errorf "twilio received an arm from another provider"))
  else if FPairing (AFilter armed) then Some (Err (Errorf "twilio does not use supervised inbox pairing"))
  else
    let seen := NewDeduper (PageLimit (config p) * MaxPages (config p) * 2) (CuIDs (ACursor armed)) in
    poll_from polls 0 (CuTimestamp (ACursor armed)) (effectiveFilter (AFilter armed)) seen.
End exchange.
End Twilio.
