(* ===== verification/ProviderProperties.v ===== *)
(** * What the adapters of the code providers guarantee

    A code comes from a message after the snapshot of the arm, and a poll reads every
    message of its window or none; following the pages of Twilio back either reaches the
    snapshot or fails. *)

From S2P Require Import Prelude GoStrings GoTime Json GoUrl Origin Netip Egress HttpGuard Redaction Auth Domain Scheduler Secrets.
From S2P Require Import Database JobStore JobInvariants Otp OtpProperties BlueBubbles Twilio.
From Stdlib Require Import Ascii String.

Open Scope Z_scope.

Import BlueBubbles.

Lemma max_row_spec c messages : c <= max_row c messages ∧ Forall (λ m, OriginalROWID m <= max_row c messages) messages.
Proof.
  revert c. induction messages as [|m messages IH]; intros c; [by split; [done|constructor]|].
  change (max_row c (m :: messages)) with (max_row (if c <? OriginalROWID m then OriginalROWID m else c) messages).
  destruct (IH (if c <? OriginalROWID m then OriginalROWID m else c)) as [H1 H2].
  destruct (Z.ltb_spec c (OriginalROWID m)); (split; [lia|constructor; [lia|done]]).
Qed.
Lemma max_row_app c l1 l2 : max_row c (l1 ++ l2)%list = max_row (max_row c l1) l2.
Proof. apply foldl_app. Qed.
Lemma after_cursor_all c messages : Forall (λ m, c < OriginalROWID m) messages → after_cursor c messages = messages.
Proof. induction 1 as [|m l Hm _ IH]; [done|]. simpl. by rewrite (proj2 (Z.ltb_lt _ _) Hm), IH. Qed.

(** ** Where a message comes from *)

Section origin.
Context `{UnicodeFold} (p : Provider) (net : nat → nat → network) (tick : nat → option error) (filter : Filter).

(** The raw message was listed by a page of a poll, with a row after the cursor. *)
Definition listed (cursor : Z) (polls : nat) (raw : RawMessage) : Prop :=
  ∃ poll page request response w, (poll < polls)%nat ∧ query p (net poll page) request = Ok response
    ∧ w ∈ Messages response ∧ cursor < OriginalROWID w ∧ raw = normalize w (FChatGUID filter).

Lemma fetch_pages_listed poll polls cursor pages page all maxCursor raw next :
  (poll < polls)%nat → Forall (listed cursor polls) all →
  fetch_pages p (λ page, query p (net poll page)) cursor filter pages page all maxCursor = Ok (raw, next) →
  Forall (listed cursor polls) raw.
Proof using All.
  intros Hpoll. revert page all maxCursor. induction pages as [|pages IH]; intros page all maxCursor Hall; [done|].
  cbn [fetch_pages]. cbv zeta. intros (response & Hq & Hrest)%result_bind_Ok.
  destruct (_ <? Total response); [done|].
  assert (Forall (listed cursor polls)
    (all ++ ((λ m, normalize m (FChatGUID filter)) <$> after_cursor cursor (Messages response)))%list) as Hall'.
  { apply Forall_app. split; [done|]. apply Forall_fmap, Forall_forall. intros w [Hw Hc]%list_elem_of_In%filter_In.
    exists poll, page, (MkQuery (FChatGUID filter) (Z.of_nat page * PageLimit (config p)) (PageLimit (config p)) "ASC" (Some cursor)), response, w.
    split_and!; try done; [by apply list_elem_of_In|by apply Z.ltb_lt]. }
  destruct (_ <=? _); [by injection Hrest as <- _|]. destruct (_ =? 0)%nat; [done|]. by apply IH in Hrest.
Qed.
Lemma listed_mono c c' polls raw : c <= c' → listed c' polls raw → listed c polls raw.
Proof using All. intros Hc (a & b & q & r & w & H1 & H2 & H3 & H4 & H5). exists a, b, q, r, w. split_and!; try done. lia. Qed.

(** What the polls return was listed, matches the filter and was not seen before. *)
Lemma poll_from_listed polls poll cursor seen candidates all :
  (poll + polls <= all)%nat → poll_from p net tick polls poll cursor filter seen = Some (Ok candidates) →
  candidates ≠ [] ∧ Forall (λ m, ∃ raw, listed cursor all raw ∧ Match raw filter = Some m) candidates.
Proof using All.
  revert poll cursor seen. induction polls as [|polls IH]; intros poll cursor seen Hle; [done|]. cbn [poll_from].
  destruct (fetchAfter p _ cursor filter) as [[raw next]|e] eqn:Hf; [|done].
  assert (Forall (listed cursor all) raw) as Hraw.
  { eapply fetch_pages_listed; [|by apply Forall_nil_2|exact Hf]. lia. }
  destruct (Select raw filter (Some seen)) as [found seen'] eqn:Hs. destruct found as [|m found].
  - destruct (tick poll); [done|]. intros Hrest. apply IH in Hrest as [Hne Hall]; [|lia]. split; [done|].
    eapply Forall_impl; [exact Hall|]. intros m (r & Hr & Hm). exists r. split; [|done]. eapply listed_mono; [|done]. lia.
  - intros [= <-]. split; [done|]. apply Forall_forall. intros m' Hm'.
    unfold Select in Hs. destruct (select_fresh raw filter (Some seen)) as [result seen2] eqn:Hr. injection Hs as Hsort _.
    rewrite <- Hsort in Hm'. apply elem_of_sort_by in Hm'.
    destruct (select_fresh_sound raw filter (Some seen) result seen2 Hr m' Hm') as (r & Hin & Hm).
    exists r. split; [|done]. rewrite Forall_forall in Hraw. by apply Hraw.
Qed.
End origin.

(** *** What an arm asks of a message of the server, read without the code *)

(** The paired chat, sender and service: those of the request, else those of the source. *)
Definition paired (own configured : string) : string := if String.eqb own "" then configured else own.
Definition fresh_since (p : Provider) (now : Time) (f : Filter) : Time :=
  if IsZero (FFreshAfter f) then now - Freshness (config p) else FFreshAfter f.
Record code_of `{UnicodeFold} (p : Provider) (now : Time) (f : Filter) (w : wireMessage) (m : Message) : Prop := {
  co_inbound : IsFromMe w = false;
  co_fresh : IsZero (fresh_since p now f) = false → fresh_since p now f <= DateCreated w * Millisecond;
  (* an ordinary arm: the paired chat, sender and service *)
  co_paired : FPairing f = false →
    paired (FChatGUID f) (ChatGUID (config p)) ∈ Chats w
    ∧ ∃ h, Handle w = Some h ∧ same_address (WH_Address h) (paired (FSender f) (Sender (config p)))
        ∧ EqualFold (trim_space (WH_Service h)) (trim_space (paired (FService f) (Service (config p)))) = true;
  (* an arm that pairs: any single chat and sender that are named *)
  co_pairing : FPairing f = true → ∃ chat h, Chats w = [chat] ∧ Handle w = Some h
    ∧ trim_space chat ≠ "" ∧ trim_space (WH_Address h) ≠ "" ∧ trim_space (WH_Service h) ≠ "";
  co_site : FPairing f = true ∨ FRequireYodel f = true → names_site (Text w);
  co_code : extracted (Text w) (MCode m);
  co_message : MID m = GUID w ∧ MSender m = default "" (WH_Address <$> Handle w) ∧ MService m = default "" (WH_Service <$> Handle w)
    ∧ MReceivedAt m = DateCreated w * Millisecond ∧ MCursor m = OriginalROWID w
}.

(** The filter an arm keeps, and that a wait finds it unchanged. *)
Lemma effectiveFilter_is p f f1 : effectiveFilter p f = Ok f1 →
  f1 = (if FPairing f then MkFilter "" "" (FRecipient f) "" (FFreshAfter f) true true
        else MkFilter (paired (FChatGUID f) (ChatGUID (config p))) (paired (FSender f) (Sender (config p))) (FRecipient f)
               (paired (FService f) (Service (config p))) (FFreshAfter f) false (FRequireYodel f))
  ∧ (FPairing f = false → blank (FChatGUID f1) = false ∧ blank (FSender f1) = false ∧ blank (FService f1) = false).
Proof.
  unfold effectiveFilter, paired. destruct (FPairing f); [by intros [= <-]|]. cbv zeta.
  destruct (_ || _) eqn:Hb; [done|]. intros [= <-]. rewrite !orb_false_iff in Hb. split; [done|]. intros _. cbn. tauto.
Qed.
Lemma blank_not_empty s : blank s = false → s ≠ "".
Proof. by intros Hb ->. Qed.
Lemma effectiveFilter_again p f f1 t : effectiveFilter p f = Ok f1 →
  effectiveFilter p f1 = Ok f1 ∧ effectiveFilter p (with_fresh_after t f1) = Ok (with_fresh_after t f1).
Proof.
  intros Hf. apply effectiveFilter_is in Hf as [Hf1 Hb]. destruct (FPairing f) eqn:Hp; [by subst f1|].
  destruct (Hb eq_refl) as (H1 & H2 & H3). assert (FPairing f1 = false) as Hp1 by by subst f1.
  unfold effectiveFilter. cbn [with_fresh_after FPairing FChatGUID FSender FService FRecipient FFreshAfter FRequireYodel]. rewrite Hp1.
  cbv zeta. rewrite !(proj2 (String.eqb_neq _ "")) by (by apply blank_not_empty). rewrite H1, H2, H3. cbn [orb].
  subst f1. done.
Qed.
Lemma same_address_named `{UnicodeFold} address sender : blank sender = false → same_address address sender → address ≠ "".
Proof.
  intros Hb%String.eqb_neq [[_ Hr]|(Hl & _)] ->; [by apply Hb|by apply Hl].
Qed.
Lemma normalized_code `{UnicodeFold} p now f f1 w m :
  effectiveFilter p f = Ok f1 →
  let f2 := if IsZero (FFreshAfter f1) then with_fresh_after (Add now (- Freshness (config p))) f1 else f1 in
  Match (normalize w (FChatGUID f2)) f2 = Some m → code_of p now f w m.
Proof.
  intros Hf f2 (code & [Hin _ Hpair Hsite Hfresh Hchat Hsender _ Hservice Hcode] & ->)%Match_answers.
  apply effectiveFilter_is in Hf as [Hf1 Hb].
  assert (Hsame : FPairing f2 = FPairing f1 ∧ FChatGUID f2 = FChatGUID f1 ∧ FSender f2 = FSender f1 ∧ FService f2 = FService f1
    ∧ FRequireYodel f2 = FRequireYodel f1) by (unfold f2; by destruct (IsZero _)).
  destruct Hsame as (Ep & Ec & Es & Ev & Ey). rewrite Ep, Ec, Es, Ev, Ey in *. cbn [normalize RInbound RBody RSender RService RChatGUID RReceivedAt] in *.
  assert (Hsince : FFreshAfter f2 = fresh_since p now f).
  { unfold f2, fresh_since, Add. assert (FFreshAfter f1 = FFreshAfter f) as He by (subst f1; by destruct (FPairing f)).
    rewrite He. by destruct (IsZero (FFreshAfter f)). }
  split; cbn [MCode MID MSender MService MReceivedAt MCursor].
  - by apply negb_true_iff in Hin.
  - rewrite <- Hsince. intros Hz. by apply Hfresh.
  - intros Hp. rewrite Hp in Hf1. destruct (Hb Hp) as (B1 & B2 & B3). subst f1. cbn in *.
    specialize (Hchat (blank_not_empty _ B1)). specialize (Hsender (blank_not_empty _ B2)). specialize (Hservice (blank_not_empty _ B3)).
    rewrite (proj2 (String.eqb_neq _ "")) in Hchat by (by apply blank_not_empty). cbn in Hchat. split.
    + destruct (existsb _ (Chats w)) eqn:He; [|by rewrite <- Hchat in B1].
      apply existsb_exists in He as (x & Hx & ->%String.eqb_eq). by apply list_elem_of_In.
    + destruct (Handle w) as [h|]; [by exists h|]. by destruct (same_address_named _ _ B2 Hsender).
  - intros Hp. rewrite Hp in Hf1. subst f1. cbn in *. destruct (Hpair eq_refl) as (P1 & P2 & P3).
    destruct (Chats w) as [|chat [|? ?]]; try done. destruct (Handle w) as [h|]; [|done]. by exists chat, h.
  - intros Hor. apply Hsite. subst f1. destruct (FPairing f); [by left|]. destruct Hor as [?|Hor]; [done|]. by right.
  - done.
  - by split_and!.
Qed.

(** C29: a code is newer than the arm. Every candidate a wait returns is the code of a
    message that the server listed in one of its polls with a row after the newest row of the
    snapshot taken before the code was requested (so it was not in the inbox then), was
    received, not sent, no earlier than the arm allows, and, as the arm asks, is in the paired
    chat from the paired sender and service or, when it pairs, in a single chat from a named
    sender and names the site; whatever the server and the network answer. A wait never ends
    with no candidate. *)
Theorem codes_are_newer_than_the_arm `{UnicodeFold} p before net tick now filter0 armed polls candidates :
  Arm p before now filter0 = Ok armed →
  wait p net tick polls armed = Some (Ok candidates) →
  candidates ≠ [] ∧
  ∃ snapshot,
    query p before (MkQuery (if FPairing filter0 then "" else paired (FChatGUID filter0) (ChatGUID (config p))) 0 1 "DESC" None) = Ok snapshot
    ∧ Forall (λ m, ∃ poll page request response w,
        (poll < polls)%nat ∧ query p (net poll page) request = Ok response ∧ w ∈ Messages response
        ∧ Forall (λ old, OriginalROWID old < OriginalROWID w) (Messages snapshot)
        ∧ code_of p now filter0 w m) candidates.
Proof.
  unfold Arm. intros (filter1 & Hf1 & Harm)%result_bind_Ok.
  set (filter2 := if IsZero (FFreshAfter filter1) then with_fresh_after (Add now (- Freshness (config p))) filter1 else filter1) in *.
  cbv zeta in Harm. apply result_bind_Ok in Harm as (snapshot & Hsnap & [= <-]).
  unfold wait. cbn [AProvider AFilter ACursor CuPosition CuIDs]. change (String.eqb Kind Kind) with true. cbn [negb].
  assert (effectiveFilter p filter2 = Ok filter2) as ->.
  { destruct (effectiveFilter_again p filter0 filter1 (Add now (- Freshness (config p))) Hf1). unfold filter2. by destruct (IsZero _). }
  intros Hw. apply (poll_from_listed p net tick filter2 polls 0 _ _ _ polls) in Hw as [Hne Hall]; [|lia].
  split; [done|]. exists snapshot. split.
  { rewrite <- Hsnap. do 2 f_equal. destruct (effectiveFilter_is p filter0 filter1 Hf1) as [-> _]. unfold filter2.
    destruct (IsZero _); by destruct (FPairing filter0). }
  eapply Forall_impl; [exact Hall|].
  intros m (raw & (poll & page & request & response & w & Hlt & Hq & Hw & Hrow & ->) & Hm).
  exists poll, page, request, response, w. split_and!; try done.
  - destruct (max_row_spec 0 (Messages snapshot)) as [_ Hmax]. eapply Forall_impl; [exact Hmax|]. simpl. intros old Hold. lia.
  - by apply (normalized_code p now filter0 filter1).
Qed.

(** ** A poll against a server that answers from a fixed inbox *)

Section server.
Context (p : Provider) (chat : string) (cursor : Z) (inbox : list wireMessage)
  (ask : nat → queryRequest → result queryResponse).
Notation limit := (PageLimit (config p)).
Notation pages := (MaxPages (config p)).
(** A page is what stands at its offset in the messages after the cursor. *)
Definition serves : Prop := ∀ page,
  ask page (MkQuery chat (Z.of_nat page * limit) limit "ASC" (Some cursor)) =
  Ok (MkQueryResponse (take (Z.to_nat limit) (drop (page * Z.to_nat limit) inbox)) (Z.of_nat (List.length inbox))).

Lemma fetch_pages_serves filter left page :
  serves → FChatGUID filter = chat → 1 <= limit → Forall (λ m, cursor < OriginalROWID m) inbox →
  Z.of_nat (List.length inbox) <= limit * pages → Z.of_nat (page + left) = pages → (0 < left)%nat →
  (page = 0 ∨ page * Z.to_nat limit < List.length inbox)%nat →
  fetch_pages p ask cursor filter left page
    ((λ m, normalize m chat) <$> take (page * Z.to_nat limit) inbox) (max_row cursor (take (page * Z.to_nat limit) inbox)) =
  Ok ((λ m, normalize m chat) <$> inbox, max_row cursor inbox).
Proof using All.
  intros Hs Hchat Hl Hrows Hfits. revert page. induction left as [|left IH]; intros page Hsum Hleft Hpage; [lia|].
  cbn [fetch_pages]. rewrite Hchat, Hs. cbn [mbind result_bind Total Messages].
  rewrite (proj2 (Z.ltb_ge _ _) Hfits).
  set (n := Z.to_nat limit) in *. set (got := take n (drop (page * n) inbox)).
  assert (List.length got = (n `min` (List.length inbox - page * n))%nat) as Hgot
    by (unfold got; by rewrite length_take, length_drop).
  assert (Forall (λ m, cursor < OriginalROWID m) got) as Hnew by (by apply Forall_take, Forall_drop).
  rewrite (after_cursor_all cursor got Hnew), <- fmap_app.
  assert (take (page * n) inbox ++ got = take (S page * n) inbox)%list as Hjoin.
  { unfold got. rewrite take_take_drop. f_equal. lia. }
  rewrite <- max_row_app, Hjoin.
  destruct (Z.leb_spec (Z.of_nat (List.length inbox)) (Z.of_nat page * limit + Z.of_nat (List.length got))) as [Hend|Hmore].
  - rewrite take_ge; [done|]. unfold n in *. nia.
  - assert (List.length got = n) as Hfull by (unfold n in *; nia).
    assert (S page * n < List.length inbox)%nat as Hnext by (unfold n in *; nia).
    rewrite (proj2 (Nat.eqb_neq _ _)) by (unfold n in *; lia).
    apply IH; [lia| |by right]. destruct left; [|lia]. exfalso. unfold n in *. nia.
Qed.
End server.

(** C30: a poll reads its whole window or fails. Against a server that serves the messages
    after the cursor page by page, a poll returns every one of them once and in their order,
    with the newest row as its next cursor, if they fit the configured pages; otherwise it
    fails with the window error and never returns a part. *)
Theorem polls_read_the_whole_window p chat cursor inbox ask filter :
  serves p chat cursor inbox ask → FChatGUID filter = chat →
  1 <= PageLimit (config p) → 1 <= MaxPages (config p) → Forall (λ m, cursor < OriginalROWID m) inbox →
  fetchAfter p ask cursor filter =
    if Z.of_nat (List.length inbox) <=? PageLimit (config p) * MaxPages (config p)
    then Ok ((λ m, normalize m chat) <$> inbox, max_row cursor inbox)
    else Err (Sentinel ErrPollWindowExceeded).
Proof.
  intros Hs Hchat Hl Hp Hrows. unfold fetchAfter.
  destruct (Z.leb_spec (Z.of_nat (List.length inbox)) (PageLimit (config p) * MaxPages (config p))) as [Hfits|Hover].
  - apply (fetch_pages_serves p chat cursor inbox ask filter (Z.to_nat (MaxPages (config p))) 0); try done; try lia.
  - destruct (Z.to_nat (MaxPages (config p))) as [|left] eqn:Hn; [lia|]. cbn [fetch_pages].
    rewrite Hchat, Hs. cbn [mbind result_bind Total]. by rewrite (proj2 (Z.ltb_lt _ _) Hover).
Qed.

(** ** Witnesses: a paired source and a server with one message per row *)

#[local] Instance folding : UnicodeFold := { EqualFold := equal_fold; EqualFold_ascii := λ _ _ _ _, eq_refl }.
Definition sample_provider : Provider :=
  MkProvider (configWithDefaults (MkConfig "https://bb.example" "secret" "chat-1" "+16045550100" "iMessage" 0 0 0 0 0 0))
    "https://bb.example" (endpoint_of "https://bb.example" []).
Definition wire_json (row : Z) (text : string) : json :=
  JObject [("originalROWID", JNumber (format_int row)); ("guid", JString ("g-" +:+ format_int row)); ("text", JString text);
           ("handle", JObject [("address", JString "+1 604 555 0100"); ("service", JString "iMessage")]);
           ("chats", JArray [JObject [("guid", JString "chat-1")]]); ("dateCreated", JNumber "1000"); ("isFromMe", JBool false)].
Definition answer (offset limit : Z) (messages : list json) : network := λ _,
  let n := format_int (Z.of_nat (List.length messages)) in
  (Ok (MkHttpResponse 200 (-1) (encode (JObject
     [("status", JNumber "200"); ("data", JArray messages);
      ("metadata", JObject [("offset", JNumber (format_int offset)); ("limit", JNumber (format_int limit));
                            ("total", JNumber n); ("count", JNumber n)])])) false), None).
Definition sample_poll (poll page : nat) : network :=
  answer 0 20 (if (poll =? 0)%nat then [] else [wire_json 11 "Your Yodel code is 482913"]).
Definition any_filter : Filter := MkFilter "" "" "" "" 0 false true.
Definition armed_at (r : result Armed) : Armed :=
  match r with Ok a => a | Err _ => MkArmed "" 0 (MkCursor 0 0 []) any_filter end.
Definition found (r : option (result (list Message))) : list Message := match r with Some (Ok l) => l | _ => [] end.
Definition sample_arm : result Armed := Arm sample_provider (answer 0 1 [wire_json 10 "old"]) 2000 any_filter.
Definition sample_wait : option (result (list Message)) := wait sample_provider sample_poll (λ _, None) 2 (armed_at sample_arm).

Lemma codes_are_newer_than_the_arm_witness :
  MCode <$> found sample_wait = ["482913"] ∧ found sample_wait ≠ []
  ∧ Forall (λ m, ∃ w, IsFromMe w = false ∧ "chat-1" ∈ Chats w ∧ extracted (Text w) (MCode m)) (found sample_wait).
Proof.
  split; [vm_compute; reflexivity|].
  destruct (codes_are_newer_than_the_arm sample_provider (answer 0 1 [wire_json 10 "old"]) sample_poll (λ _, None) 2000
    any_filter (armed_at sample_arm) 2 (found sample_wait) ltac:(vm_compute; reflexivity) ltac:(vm_compute; reflexivity))
    as (Hne & snapshot & _ & Hall).
  split; [exact Hne|]. refine (Forall_impl _ _ _ Hall _). intros m (poll & page & request & response & w & _ & _ & _ & _ & Hcode).
  exists w. split; [exact (co_inbound _ _ _ _ _ Hcode)|]. split; [|exact (co_code _ _ _ _ _ Hcode)].
  exact (proj1 (co_paired _ _ _ _ _ Hcode eq_refl)).
Defined.

Definition three_rows : list wireMessage :=
  (λ row, MkWire row "g" "t" None [] 0 false) <$> [5; 6; 9].
Definition small_pages : Provider :=
  MkProvider (MkConfig "" "" "" "" "" 1 1 1 2 2 1) "" (endpoint_of "" []).
Definition serve (page : nat) (request : queryRequest) : result queryResponse :=
  Ok (MkQueryResponse (take 2 (drop (page * 2) three_rows)) 3).
Lemma polls_read_the_whole_window_witness :
  fetchAfter small_pages serve 4 (with_fresh_after 0 (MkFilter "c" "" "" "" 0 false false)) =
    Ok ((λ m, normalize m "c") <$> three_rows, 9).
Proof.
  refine (polls_read_the_whole_window small_pages "c" 4 three_rows serve
    (with_fresh_after 0 (MkFilter "c" "" "" "" 0 false false)) (λ _, eq_refl) eq_refl _ _ _); simpl;
    [lia|lia|repeat constructor; simpl; lia].
Defined.

(** * Polling the Twilio inbox *)

Import Twilio.

Section server.
Context (p : Provider) (local_name : string → Z → option Z) (net : nat → network).
Context (inbox : list (wireMessage * Time)) (url : nat → target) (next : nat → string).
Notation limit := (Z.to_nat (PageLimit (config p))).
Notation listed_to i := (take (i * limit) inbox).

(** The server lists the inbox, newest first, page by page: a page names the next one
    exactly if there are more messages. *)
Record serves_inbox : Prop := MkServes {
  sv_first : url 0%nat = firstPageURL p;
  sv_page : ∀ i, listPage p (net i) (url i) = Ok ((take limit (drop (i * limit) inbox)).*1, next i);
  sv_next : ∀ i, if (List.length inbox <=? S i * limit)%nat then next i = "" else
    next i ≠ "" ∧ nextPageURL p (next i) = Ok (url (S i));
  sv_instants : Forall (λ mt, instant local_name mt.1 = Some mt.2) inbox;
  sv_newest_first : StronglySorted (λ a b, b.2 <= a.2) inbox
}.

Lemma instants_of op l : Forall (λ mt, instant local_name mt.1 = Some mt.2) l → instants local_name op l.*1 = Ok l.
Proof using Type.
  intros Hl. unfold instants. enough (mapM (λ m, t ← instant local_name m; Some (m, t)) l.*1 = Some l) as -> by done.
  induction Hl as [|[m t] l Hm _ IH]; [done|]. cbn [fmap list_fmap fst snd mapM] in *. rewrite Hm. cbn [mbind option_bind].
  by rewrite IH.
Qed.
Lemma sorted_beyond (n : nat) a b : StronglySorted (λ a b : wireMessage * Time, b.2 <= a.2) inbox →
  a ∈ take n inbox → b ∈ drop n inbox → b.2 <= a.2.
Proof using Type.
  intros Hs Ha Hb. rewrite <- (take_drop n inbox) in Hs.
  apply StronglySorted_app in Hs as (Hcross & _). by apply Hcross.
Qed.

Lemma list_from_serves oldest pages i :
  serves_inbox → (i = 0 ∨ i * limit < List.length inbox)%nat →
  match list_from p local_name net oldest pages i (url i) (listed_to i).*1 with
  | Ok all => ∀ mt, mt ∈ inbox → IsZero oldest = true ∨ oldest <= mt.2 → mt.1 ∈ all
  | Err e => e = Sentinel ErrPollWindowExceeded ∧ (pages = 0 ∨ (i + pages) * limit < List.length inbox)%nat
  end.
Proof using Type.
  intros Hs. revert i. induction pages as [|more IH]; intros i Hi; [by split; [|left]|].
  cbn [list_from]. rewrite (sv_page Hs). cbn [mbind result_bind].
  rewrite instants_of by (apply Forall_take, Forall_drop, (sv_instants Hs)). cbn [mbind result_bind].
  set (got := take limit (drop (i * limit) inbox)).
  assert ((listed_to i).*1 ++ got.*1 = (listed_to (S i)).*1)%list as ->.
  { rewrite <- fmap_app. f_equal. unfold got. rewrite take_take_drop. f_equal. lia. }
  pose proof (sv_next Hs i) as Hnext.
  destruct (negb (IsZero oldest) && existsb (λ mt, Before mt.2 oldest) got) eqn:Hcov.
  - apply andb_true_iff in Hcov as [Hz%negb_true_iff ([m0 t0] & Hm0 & Hold)%existsb_exists].
    apply list_elem_of_In in Hm0. intros mt Hin [Hzero|Hmt]; [congruence|].
    apply list_elem_of_fmap. exists mt. split; [done|].
    rewrite <- (take_drop (S i * limit) inbox) in Hin. apply elem_of_app in Hin as [Hin|Hin]; [done|].
    exfalso. assert ((m0, t0) ∈ take (S i * limit) inbox) as Hfront.
    { replace (S i * limit)%nat with (i * limit + limit)%nat by lia. rewrite <- take_take_drop. apply elem_of_app. by right. }
    pose proof (sorted_beyond _ _ _ (sv_newest_first Hs) Hfront Hin) as Hle. simpl in Hle.
    unfold Before in Hold. apply Z.ltb_lt in Hold. simpl in Hold. lia.
  - destruct (Nat.leb_spec (List.length inbox) (S i * limit)) as [Hlast|Hmore].
    + rewrite Hnext. change (String.eqb "" "") with true. cbn [negb]. intros mt Hin _. rewrite take_ge by lia. by apply list_elem_of_fmap_2.
    + destruct Hnext as [Hne Hurl]. destruct (String.eqb_spec (next i) "") as [|_]; [done|].
      destruct more as [|more].
      * split; [done|]. right. lia.
      * cbn [Nat.eqb]. rewrite Hurl. cbn [mbind result_bind]. specialize (IH (S i) ltac:(right; lia)).
        destruct (list_from p local_name net oldest (S more) (S i) (url (S i)) (listed_to (S i)).*1); [done|].
        destruct IH as [He [?|Hlen]]; [done|]. split; [done|]. right. lia.
Qed.
End server.

(** A poll reaches back to what it needs or fails. Against a server that lists the inbox
    newest first with a link to every further page, a poll that succeeds has read every
    message received since the instant it needs (all of them without such an instant), and
    a poll that fails does so with the window error, because the inbox is longer than the
    configured pages: it never works on a part of the window. *)
Theorem polls_reach_back_to_the_cursor p local_name net inbox url next oldest :
  serves_inbox p local_name net inbox url next → 1 <= MaxPages (config p) →
  match listMessages p local_name net oldest with
  | Ok all => ∀ mt, mt ∈ inbox → IsZero oldest = true ∨ oldest <= mt.2 → mt.1 ∈ all
  | Err e => e = Sentinel ErrPollWindowExceeded
      ∧ MaxPages (config p) * Z.max 0 (PageLimit (config p)) < Z.of_nat (List.length inbox)
  end.
Proof.
  intros Hs Hp. unfold listMessages. rewrite <- (sv_first _ _ _ _ _ _ Hs).
  pose proof (list_from_serves p local_name net inbox url next oldest (Z.to_nat (MaxPages (config p))) 0 Hs ltac:(by left)) as H.
  change (take (0 * Z.to_nat (PageLimit (config p))) inbox) with (@nil (wireMessage * Time)) in H. cbn [fmap list_fmap] in H.
  destruct (list_from _ _ _ _ _ _ _ _) as [all|e]; [done|]. destruct H as [He [?|Hlen]]; [lia|]. split; [done|]. nia.
Qed.

(** ** Witness: two messages on two pages *)

Definition sample_twilio : Provider :=
  let path := "/2010-04-01/Accounts/AC1" in
  MkProvider (MkConfig "AC1" "token" "+16045550199" "" defaultBaseURL 1 1 4096 1 2 1) zero_url (endpoint_of defaultBaseURL [])
    (path +:+ "/Messages.json") (path +:+ ".json").
Definition sms (id sent : string) : wireMessage := MkWire id "code 4821" "+1604" "+16045550199" "inbound" sent "".
Definition sample_inbox : list (wireMessage * Time) :=
  [(sms "SM2" "Thu, 01 Jan 1970 00:00:20 +0000", 20 * Second); (sms "SM1" "Thu, 01 Jan 1970 00:00:10 +0000", 10 * Second)].
Definition sms_json (m : wireMessage) : json :=
  JObject [("sid", JString (SID m)); ("body", JString (Body m)); ("from", JString (From m)); ("to", JString (To m));
           ("direction", JString (Direction m)); ("date_sent", JString (DateSent m))].
Definition sample_next (i : nat) : string :=
  match i with 0%nat => "/2010-04-01/Accounts/AC1/Messages.json?Page=1&PageToken=t" | _ => "" end.
Definition sample_net (i : nat) : network := λ _,
  let messages := (sms_json ∘ fst) <$> match i with 0%nat => take 1 sample_inbox | 1%nat => drop 1 sample_inbox | _ => [] end in
  (Ok (MkHttpResponse 200 (-1)
     (encode (JObject [("messages", JArray messages); ("next_page_uri", JString (sample_next i))])) false), None).
Definition sample_url (i : nat) : target :=
  match i with
  | 1%nat => match nextPageURL sample_twilio (sample_next 0) with Ok t => t | Err _ => firstPageURL sample_twilio end
  | _ => firstPageURL sample_twilio
  end.
Lemma sample_serves : serves_inbox sample_twilio (λ _ _, None) sample_net sample_inbox sample_url sample_next.
Proof.
  split.
  - reflexivity.
  - intros [|[|i]]; [vm_compute; reflexivity..|]. rewrite drop_ge by (simpl; lia). reflexivity.
  - intros [|i]; [|done]. split; [done|]. vm_compute. reflexivity.
  - repeat constructor.
  - repeat constructor. simpl. unfold Second. lia.
Qed.
Lemma polls_reach_back_to_the_cursor_witness :
  match listMessages sample_twilio (λ _ _, None) sample_net (15 * Second) with
  | Ok all => sms "SM2" "Thu, 01 Jan 1970 00:00:20 +0000" ∈ all
  | Err _ => False
  end.
Proof.
  pose proof (polls_reach_back_to_the_cursor sample_twilio (λ _ _, None) sample_net sample_inbox sample_url sample_next (15 * Second)
    sample_serves ltac:(simpl; lia)) as H.
  destruct (listMessages sample_twilio (λ _ _, None) sample_net (15 * Second)) as [all|e] eqn:Hl.
  - refine (H (sms "SM2" "Thu, 01 Jan 1970 00:00:20 +0000", 20 * Second) _ _); [left|right; simpl; unfold Second; lia].
  - vm_compute in Hl. discriminate Hl.
Defined.
