(* ===== verification/Worker.v ===== *)
(** * The job worker (src/internal/engine: engine.go, storage_budget.go)

    One run of a job: the inputs that are loaded and checked, the message that starts
    the browser, how the end of the run becomes the end of the job, and the operations
    by which an owner cancels a job or decides on it.  The engine's memory is the table
    of running jobs: for each the cause its context was cancelled with, if any. *)

From S2P Require Import Prelude GoStrings GoTime Json Secrets Redaction Auth Origin Domain Scheduler Database.
From S2P Require Import JobStore EventStore ResourceStore ProfileStore Otp Hub BookingQueue ActionProc Coordinator.
From Stdlib Require Import Ascii String.
From Stdlib Require Import SpecFloat.

Open Scope Z_scope.

(** ** The limits of an execution *)

Definition executionBudgetMessage : string := "The job exceeded its execution time limit.".
Definition profileLimitMessage : string :=
  "Browser profile storage exceeded its limit. Ask the operator to review its storage before retrying.".
Definition profileInspectionMessage : string :=
  "Browser profile storage could not be inspected safely. Ask the operator to review it before retrying.".
(** An absent cause is [nil]. *)
Definition is_cause (cause : option error) (target : sentinel) : bool :=
  match cause with Some e => errors_is e target | None => false end.
Definition executionLimitMessage (cause : option error) : string :=
  if is_cause cause ErrExecutionBudget then executionBudgetMessage
  else if is_cause cause ErrProfileLimit then profileLimitMessage
  else if is_cause cause ErrProfileInspection then profileInspectionMessage
  else "".

(** The deferred function of [executeWithBudgets]; [cause] is that of its context. *)
Definition limited (cause : option error) (outcome : result RunResult) : result RunResult :=
  let message := executionLimitMessage cause in
  match outcome, cause with
  | _, None => outcome
  | Err e, Some c => if String.eqb message "" then Err e else Err (Join e c)
  | Ok r, Some _ =>
      if String.eqb message "" || bool_decide (RR_Status r = JobSucceeded) || bool_decide (RR_Status r = JobOutcomeUnknown)
      then Ok r else Ok (MkRunResult JobFailed message (RR_ExitCode r))
  end.

(** ** From the end of a run to the end of its job *)

Record Ending := MkEnding { E_Status : JobStatus; E_Message : string; E_ExitCode : option Z }.

(** [current, _ := e.store.SystemGetJob(...)]: a missing row reads as the zero job. *)
Definition confirmation_marked (current : result Job) : bool :=
  match current with Ok j => is_some (JConfirmationStartedAt j) | Err _ => false end.
Definition shutdown_message : string := "Interrupted by control-plane shutdown.".
Definition operator_message : string := "Cancelled by the operator.".
Definition artifact_message : string := "Job diagnostics exceeded the per-job storage limit.".

(** [stopping]: the engine's context is done; [cause]: that of the job's context. *)
Definition ending_of_error (current : result Job) (stopping : bool) (cause : option error) (runErr : error) : Ending :=
  if confirmation_marked current then MkEnding JobOutcomeUnknown unknown_outcome None
  else if stopping then MkEnding JobInterrupted shutdown_message None
  else if is_cause cause ErrUserCancelled then MkEnding JobCancelled operator_message None
  else if is_cause cause ErrArtifactLimit then MkEnding JobFailed artifact_message None
  else
    let limit := executionLimitMessage (Some runErr) in
    MkEnding JobFailed (if String.eqb limit "" then "The control plane could not run the isolated action." else limit) None.

Definition ending_of_result (current : result Job) (stopping : bool) (cause : option error) (result : RunResult) : Ending :=
  let marked := confirmation_marked current in
  let '(status, message) :=
    if marked && negb (bool_decide (RR_Status result = JobSucceeded)) then (JobOutcomeUnknown, unknown_outcome)
    else (RR_Status result, RR_Message result) in
  let '(status, message) :=
    if stopping && negb marked then (JobInterrupted, shutdown_message)
    else if is_cause cause ErrUserCancelled && negb marked then (JobCancelled, operator_message)
    else if is_cause cause ErrArtifactLimit && negb marked then (JobFailed, artifact_message)
    else (status, message) in
  MkEnding status message (Some (RR_ExitCode result)).

Definition ending (current : result Job) (stopping : bool) (cause : option error) (outcome : result RunResult) : Ending :=
  match outcome with
  | Err e => ending_of_error current stopping cause e
  | Ok r => ending_of_result current stopping cause r
  end.

(** ** The engine *)

Record engineState := MkEngine { e_db : db; e_hub : Hub; e_active : gmap Z (option error) }.
Definition with_db (s : db) (e : engineState) : engineState := MkEngine s (e_hub e) (e_active e).
Definition with_engine_hub (h : Hub) (e : engineState) : engineState := MkEngine (e_db e) h (e_active e).
Definition with_active (f : gmap Z (option error) → gmap Z (option error)) (e : engineState) : engineState :=
  MkEngine (e_db e) (e_hub e) (f (e_active e)).

(** A store call: its effect stays, its error is a value. *)
Definition call {A} (m : ST db A) : ST engineState (result A) := λ e,
  let '(s, r) := m (e_db e) in (with_db s e, Ok r).
Definition call_or_fail {A} (m : ST db A) : ST engineState A := λ e,
  let '(s, r) := m (e_db e) in (with_db s e, r).
Definition job_key (jobID : Z) : string := format_int jobID.
Definition cancel_hub_job (jobID : Z) : ST engineState unit :=
  modify (λ e, with_engine_hub (default (e_hub e) (Hub.CancelJob (job_key jobID) (e_hub e))) e).
(** [cancel(cause)]: the first cause of a context stays. *)
Definition cancel_context (cause : error) (jobID : Z) : ST engineState unit :=
  modify (with_active (alter (λ c : option error, match c with Some e => Some e | None => Some cause end) jobID)).

Section engine.
Context `{AEAD}.

Definition event_of (jobID : Z) (kind message : string) : JobEventInput := MkEventInput jobID "info" kind message JNull.
(** [event]: a failure is only logged. *)
Definition event (jobID : Z) (kind message : string) (now : Time) : ST engineState unit :=
  _ ← call (SystemAppendJobEvent (event_of jobID kind message) now); mret tt.

Definition finish_expected (status : JobStatus) : list JobStatus :=
  if bool_decide (status = JobSucceeded) then [JobRunning] else [JobRunning; JobAwaitingApproval].
Definition complete_event (job : Job) : LiveEvent :=
  MkLive "complete" (JObject [("status", JString (JobStatus_string (JStatus job))); ("message", JString (JMessage job))]).
Definition finish (jobID : Z) (ending : Ending) (now : Time) : ST engineState unit :=
  current ← call (SystemGetJob jobID);
  match current with
  | Err _ => mret tt
  | Ok j =>
      if Terminal (JStatus j) then mret tt
      else
        finished ← call (SystemTransitionJob sanitizeText jobID (finish_expected (E_Status ending)) (E_Status ending)
                           (MkTransition (E_Message ending) (E_ExitCode ending) false) now);
        match finished with
        | Err _ => mret tt
        | Ok job =>
            _ ← event jobID ("job." +:+ JobStatus_string (JStatus job)) (JMessage job) now;
            modify (λ e, with_engine_hub (Publish (job_key jobID) (complete_event job) (e_hub e)) e)
        end
  end.

(** [runClaimed]: before and after the execution. *)
Definition runClaimed_begin (jobID : Z) : ST engineState unit := modify (with_active (<[jobID := None]>)).
Definition runClaimed_end (jobID : Z) (stopping : bool) (outcome : result RunResult) (now : Time) : ST engineState unit :=
  current ← call (SystemGetJob jobID);
  cause ← gets (λ e, default None (e_active e !! jobID));
  _ ← finish jobID (ending current stopping cause outcome) now;
  modify (with_active (delete jobID)).

(** A tick of [monitorCancellation]. *)
Definition monitorCancellation (jobID : Z) : ST engineState unit :=
  requested ← call (SystemJobCancellationRequested jobID);
  match requested with
  | Ok true => _ ← cancel_hub_job jobID; cancel_context (Sentinel ErrUserCancelled) jobID
  | _ => mret tt
  end.

Definition CancelJob (userID jobID : Z) (now : Time) : ST engineState unit :=
  job ← call_or_fail (GetJob userID jobID);
  _ ← call_or_fail (RequestJobCancellation userID jobID now);
  if bool_decide (JStatus job = JobQueued) then mret tt
  else
    active ← gets (λ e, bool_decide (is_Some (e_active e !! jobID)));
    if negb active then mret tt
    else _ ← cancel_hub_job jobID; cancel_context (Sentinel ErrUserCancelled) jobID.

(** [hub.Decide] never blocks (HubProperties). *)
Definition hub_decide (jobID : Z) (decision : ApprovalDecision) : ST engineState unit := λ e,
  match Hub.Decide (job_key jobID) (ApprovalDecision_string decision) (e_hub e) with
  | Some (h, r) => (with_engine_hub h e, r)
  | None => (e, Ok tt)
  end.
Definition ignoring (p : error → bool) (m : ST engineState unit) : ST engineState unit := λ e,
  match m e with
  | (e', Err x) => (e', if p x then Ok tt else Err x)
  | out => out
  end.
Definition Decide (userID jobID : Z) (decision : ApprovalDecision) (now : Time) : ST engineState unit :=
  _ ← call_or_fail (RecordJobDecision userID jobID decision now);
  ignoring (λ x, errors_is x ErrDecisionAlreadySet || errors_is x ErrDecisionNotPending) (hub_decide jobID decision).

(** ** The inputs of an execution *)

Record Inputs := MkInputs {
  I_Profile : Profile; I_Source : OTPSource; I_Booking : option BookingRequest; I_Deadline : Time; I_Phone : string }.

Section inputs.
Context `{TimeZoneDB} (origins : list string).

(** [var booking model.BookingRequest] *)
Definition zero_booking : BookingRequest :=
  MkBooking 0 0 "" (BookingKindOther "") "" 0 "" false false "" "" "" None 0 0 0 (S754_zero false) (S754_zero false)
    (RunModeOther "") "" "" "" None false false false zero_time zero_time.
(** The parts of [executeWithBudgets] before the provider is built.  [clk 0] is the start
    of the execution, [clk 1] the reading the first check of the window uses. *)
Definition load_booking (job : Job) : ST db (option BookingRequest) :=
  match JBookingRequestID job with
  | Some id => booking ← SystemGetBookingRequest id; mret (Some booking)
  | None =>
      _ ← st_reject (negb (bool_decide (JCommand job = CommandAuthCheck)))
            (Errorf "dry-run and book jobs require a booking request");
      mret None
  end.
Definition check_booking (job : Job) (booking : BookingRequest) (now : Time) : result unit :=
  if bool_decide (JCommand job = CommandAuthCheck) then Ok tt
  else
    _ ← booking_ValidateForOrigins booking origins;
    _ ← bookingStartTiming job booking now;
    Ok tt.
Definition load_inputs (job : Job) (interactive checkout : Duration) (clk : nat → Time) : ST db Inputs :=
  _ ← lift (ValidateImmediateRun job);
  profile ← SystemGetProfile (JProfileID job);
  _ ← lift (profile_ValidateForOrigins profile origins);
  source ← SystemGetOTPSource (JOTPSourceID job);
  booking ← load_booking job;
  let b := default zero_booking booking in
  _ ← lift (check_booking job b (clk 1%nat));
  _ ← lift (executionProvider (EffectiveProviderID profile));
  _ ← lift (if is_some (JBookingRequestID job) then validateProfileBookingProvider profile b else Ok tt);
  deadline ← lift (jobExecutionDeadline job b (clk 0%nat) interactive checkout);
  phone ← SystemGetProfileCredentials (PID profile);
  mret (MkInputs profile source booking deadline phone).

(** ** The start message *)

(** A float64 as [encoding/json] writes it between 10^-6 and 10^21: the decimal with the fewest
    places that reads back as the float (half a unit in the last place away, a quarter
    below a power of two; the limits belong to the float if its mantissa is even). *)
Definition reads_back (m e c : Z) (places : nat) : bool :=
  let a := 2 ^ Z.max 0 (- e) in
  let b := 2 ^ Z.max 0 e * 10 ^ Z.of_nat places in
  let lo := (4 * m - (if m =? 2 ^ 52 then 1 else 2)) * b in
  let hi := (4 * m + 2) * b in
  if Z.even m then (lo <=? 4 * c * a) && (4 * c * a <=? hi) else (lo <? 4 * c * a) && (4 * c * a <? hi).
Fixpoint pad_zeros (n : nat) (s : string) : string :=
  match n with O => s | S k => if (String.length s <? n)%nat then "0" +:+ pad_zeros k s else s end.
Definition decimal_text (c : Z) (places : nat) : string :=
  let d := 10 ^ Z.of_nat places in
  format_nat (c / d) +:+ (if (places =? 0)%nat then "" else "." +:+ pad_zeros places (format_nat (c mod d))).
Fixpoint shortest (fuel places : nat) (m e : Z) : string :=
  let a := 2 ^ Z.max 0 (- e) in
  let c := (2 * m * 2 ^ Z.max 0 e * 10 ^ Z.of_nat places + a) / (2 * a) in
  match fuel with
  | O => decimal_text c places
  | S fuel => if reads_back m e c places then decimal_text c places else shortest fuel (S places) m e
  end.
Definition json_float (f : float64) : json :=
  match f with
  | S754_finite negative m e => JNumber ((if negative then "-" else "") +:+ shortest 25 0 (Z.pos m) e)
  | S754_zero negative => JNumber (if negative then "-0" else "0")
  | _ => JNull (* [json.Marshal] refuses these; a valid booking has none *)
  end.
Example float_texts :
  json_float f64_1_4 = JNumber "1.4" ∧ json_float f64_3_6 = JNumber "3.6" ∧ json_float f64_0_05 = JNumber "0.05"
  ∧ json_float f64_60 = JNumber "60".
Proof. vm_compute. auto. Qed.

Definition nullable (value : string) : json := if blank value then JNull else JString value.
Definition passStrings (values : list PassType) : json := JArray ((λ p, JString (PassType_string p)) <$> values).
Definition pairing_prefix (sourceID : Z) : string := "pairing:" +:+ format_int sourceID +:+ ":".
Definition is_pairing (job : Job) (source : OTPSource) : bool := has_prefix (JDedupKey job) (pairing_prefix (OSID source)).
Definition supervisable (job : Job) (source : OTPSource) (provider_pairs : bool) : result unit :=
  reject (is_pairing job source && (negb provider_pairs || negb (bool_decide (OSProvider source = OTPProviderBlueBubbles))))
    (Errorf "only BlueBubbles supports supervised pairing").

Definition profile_config (profile : Profile) (profileDir artifactDir : string) : list (string * json) :=
  [("provider_id", JString (EffectiveProviderID profile)); ("profile_dir", JString profileDir);
   ("login_probe_url", JString (PLoginProbeURL profile)); ("allowed_yodel_origins", JArray (JString <$> origins));
   ("headless", JBool (PHeadless profile)); ("browser_channel", nullable (to_lower (trim_space (PBrowserChannel profile))));
   ("default_timeout_ms", JNumber (format_int (PDefaultTimeoutMS profile))); ("artifacts_dir", JString artifactDir)].
Definition booking_config (booking : BookingRequest) : list (string * json) :=
  [("lake_id", JString (EffectiveLakeID booking)); ("vehicle_keyword", JString (BVehicleKeyword booking));
   ("target_date", JString (BTargetDate booking)); ("timezone", JString (BTimezone booking));
   ("all_day_pass_url", nullable (BAllDayPassURL booking)); ("half_day_pass_url", nullable (BHalfDayPassURL booking));
   ("pass_order", passStrings (PassOrder booking));
   ("poll_deadline_seconds", JNumber (format_int (BPollDeadlineSeconds booking)));
   ("poll_min_seconds", json_float (BPollMinSeconds booking));
   ("poll_max_seconds", json_float (BPollMaxSeconds booking))].
(** The times replace what the booking put under the same key. *)
Definition startConfig (job : Job) (inputs : Inputs) (profileDir artifactDir : string) (now : Time)
    : result (list (string * json)) :=
  let base := profile_config (I_Profile inputs) profileDir artifactDir in
  if bool_decide (JCommand job = CommandAuthCheck) then Ok base
  else
    let b := default zero_booking (I_Booking inputs) in
    timing ← bookingStartTiming job b now;
    Ok (base ++ filter (λ kv, timing !! kv.1 = None) (booking_config b) ++ map_to_list timing)%list.

Definition otp_filter (job : Job) (source : OTPSource) : Filter :=
  if bool_decide (OSProvider source = OTPProviderBlueBubbles) then
    if is_pairing job source then MkFilter "" "" "" "" zero_time true true
    else MkFilter (OSPairingChatGUID source) (OSPairingSender source) "" (OSPairingService source) zero_time false true
  else MkFilter "" "" "" "" zero_time false true.
Definition cancel_grace (profile : Profile) : Duration :=
  Z.max (20 * Second) (PDefaultTimeoutMS profile * Millisecond + 5 * Second).
Definition run_input (job : Job) (inputs : Inputs) (config : list (string * json)) : RunInput :=
  MkRunInput true true true (EffectiveProviderID (I_Profile inputs)) (JID job) (JCommand job) (JRunMode job) config
    (I_Phone inputs) (otp_filter job (I_Source inputs))
    (if bool_decide (JCommand job = CommandAuthCheck) then 120 * Second
     else BPollDeadlineSeconds (default zero_booking (I_Booking inputs)) * Second)
    (cancel_grace (I_Profile inputs)) true true true.

(** A supervised pairing that selected no message did not pair. *)
Definition supervised_result (pairing selected : bool) (outcome : result RunResult) : result RunResult :=
  match outcome with
  | Ok r =>
      if bool_decide (RR_Status r = JobSucceeded) && pairing && negb selected
      then Ok (MkRunResult JobFailed "Yodel was already signed in, so no new verification message was selected. Sign out of Yodel in this profile's browser session, then retry pairing." (RR_ExitCode r))
      else Ok r
  | Err e => Err e
  end.

(** What is outside the store answers in turn: building the provider (and whether it
    can pair), its health, the storage of the browser profile, its directory, its
    inspection, and the directory of the artifacts. *)
Record Surroundings := MkSurroundings {
  s_provider : OTPSource → result bool;
  s_health : result unit;
  s_cleanup : result unit;
  s_profile_dir : Profile → result string;
  s_inspect : result unit;
  s_artifact_dir : result string
}.
(** [executeWithBudgets] up to [control.Run]. *)
Definition prepare (job : Job) (interactive checkout : Duration) (env : Surroundings) (clk : nat → Time) : ST db RunInput :=
  inputs ← load_inputs job interactive checkout clk;
  pairs ← lift (s_provider env (I_Source inputs));
  _ ← lift (supervisable job (I_Source inputs) pairs);
  _ ← lift (match s_health env with Err e => Err (Wrap "selected OTP provider is unavailable" e) | ok => ok end);
  _ ← lift (s_cleanup env);
  profileDir ← lift (s_profile_dir env (I_Profile inputs));
  _ ← lift (s_inspect env);
  artifactDir ← lift (s_artifact_dir env);
  config ← lift (startConfig job inputs profileDir artifactDir (clk 2%nat));
  mret (run_input job inputs config).
End inputs.
End engine.
