(* ===== verification/WorkerProperties.v ===== *)
(** * How a run settles its job (src/internal/engine/engine.go)

    The end of a run, whatever it is, against the row of the job. *)

From S2P Require Import Prelude GoStrings GoTime Json Secrets Redaction Auth Origin Domain Scheduler Database.
From S2P Require Import JobStore Samples JobInvariants EventStore JobOperations JobHistory JobLemmas ResourceStore.
From S2P Require Import ProfileStore SettingsStore AccountStore AccountInvariants ResourceInvariants.
From S2P Require Import SystemInvariants System SystemHistory SystemSamples JobProperties Otp Hub BookingQueue ActionProc.
From S2P Require Import Coordinator Worker.
From Stdlib Require Import Ascii String.

Open Scope Z_scope.

Lemma is_active_cases st : is_active st = true → st = JobRunning ∨ st = JobAwaitingApproval.
Proof. unfold is_active. rewrite bool_decide_eq_true. set_solver. Qed.

(** ** The transition of an active job never fails but for the two checks *)

Lemma SystemTransitionJob_ends s id j expected to upd now :
  db_inv s → jobs s !! id = Some j → is_active (JStatus j) = true → Terminal to = true →
  forallb (λ from, JobStatus_Valid from && CanTransition from to) expected = true → JStatus j ∈ expected →
  (to = JobOutcomeUnknown → is_some (JConfirmationStartedAt j) || JT_ConfirmationStarted upd = true) →
  ∃ s' j', SystemTransitionJob sanitizeText id expected to upd now s = (s', Ok j').
Proof.
  intros Hs Hj Ha Ht Hexp Hin Hunk. unfold SystemTransitionJob.
  assert (JobStatus_Valid to = true) as Hv by by destruct to.
  assert (is_nil expected = false) as Hne by by destruct expected; [set_solver|].
  unfold st_reject, lift. rewrite ST_bind_unfold, Hne, Hv. cbn [orb negb reject].
  rewrite ST_bind_unfold, Hexp. cbn [negb reject].
  rewrite ST_bind_unfold. unfold SystemGetJob at 1. rewrite ST_bind_unfold. cbn [gets]. rewrite Hj. cbn [scan_job of_option lift].
  rewrite ST_bind_unfold.
  assert (bool_decide (to = JobOutcomeUnknown) && negb (is_some (JConfirmationStartedAt j)) && negb (JT_ConfirmationStarted upd) = false) as ->.
  { destruct (bool_decide_reflect (to = JobOutcomeUnknown)) as [Hu|]; [|done]. specialize (Hunk Hu).
    destruct (is_some _); [done|]. simpl in *. by rewrite Hunk. }
  cbn [reject]. rewrite ST_bind_unfold. cbn [gets]. rewrite ST_bind_unfold. unfold map_err.
  set (active := user_active (JUserID j) s). set (message := truncate _ _).
  destruct (update_job_ends id (transition_where expected to active) (transition_row to upd message now active) true s Hs)
    as (s1 & o & Hupd).
  { intros x Hx Hw. rewrite Hj in Hx. injection Hx as <-. split.
    - apply transition_step; try done; [by apply (inv_checks _ Hs id)|by apply is_active_pending|by intros ->].
    - pose proof (transition_row_spec to upd message now active j) as [_ Hsp]. rewrite Ht in Hsp.
      destruct Hsp as [Hsp _]. rewrite Hsp. repeat case_match; try done; by destruct to. }
  rewrite Hupd. apply update_job_Ok in Hupd; [|intros; apply transition_row_spec|done]. destruct o as [x|].
  - destruct Hupd as (? & _ & _ & _ & Hx). unfold SystemGetJob. rewrite ST_bind_unfold. cbn [gets]. rewrite Hx.
    by eexists _, _.
  - destruct Hupd as [_ Hno]. specialize (Hno j Hj). unfold transition_where in Hno.
    rewrite bool_decide_true in Hno by done. destruct to; done.
Qed.

(** The two checks. *)
Lemma SystemTransitionJob_unknown_refused s id j expected now message exit :
  jobs s !! id = Some j → is_some (JConfirmationStartedAt j) = false →
  ∃ e, SystemTransitionJob sanitizeText id expected JobOutcomeUnknown (MkTransition message exit false) now s = (s, Err e).
Proof.
  intros Hj Hc. unfold SystemTransitionJob, st_reject, lift. rewrite ST_bind_unfold.
  destruct (_ || _); cbn [reject]; [by eexists|]. rewrite ST_bind_unfold. destruct (negb _); cbn [reject]; [by eexists|].
  rewrite ST_bind_unfold. unfold SystemGetJob at 1. rewrite ST_bind_unfold. cbn [gets]. rewrite Hj. cbn [scan_job of_option lift].
  rewrite ST_bind_unfold, Hc, bool_decide_true by done. cbn. by eexists.
Qed.
Lemma SystemTransitionJob_state_refused s id j expected to now upd :
  jobs s !! id = Some j → JStatus j ∉ expected →
  ∃ e, SystemTransitionJob sanitizeText id expected to upd now s = (s, Err e).
Proof.
  intros Hj Hin. unfold SystemTransitionJob, st_reject, lift. rewrite ST_bind_unfold.
  destruct (_ || _); cbn [reject]; [by eexists|]. rewrite ST_bind_unfold. destruct (negb _); cbn [reject]; [by eexists|].
  rewrite ST_bind_unfold. unfold SystemGetJob at 1. rewrite ST_bind_unfold. cbn [gets]. rewrite Hj. cbn [scan_job of_option lift].
  rewrite ST_bind_unfold. destruct (_ && _ && _); cbn [reject]; [by eexists|]. rewrite ST_bind_unfold. cbn [gets].
  rewrite ST_bind_unfold. unfold map_err, update_job. rewrite ST_bind_unfold. cbn [gets]. rewrite Hj.
  assert (transition_where expected to (user_active (JUserID j) s) j = false) as ->.
  { unfold transition_where. by rewrite bool_decide_false. }
  by eexists.
Qed.

(** ** Events leave the jobs alone *)

Lemma trim_events_jobs id s : jobs (trim_events id s) = jobs s.
Proof. done. Qed.
Section settle.
Context `{AEAD}.

Lemma SystemAppendJobEvent_jobs js input now : preserves (λ s, jobs s = js) (SystemAppendJobEvent input now).
Proof.
  unfold SystemAppendJobEvent. cbv zeta. repeat (apply preserves_bind; [first [apply preserves_gets|apply preserves_reject|apply preserves_lift]|intros]).
  apply preserves_bind.
  - intros s Hs. unfold insert_event. by destruct (jobs s !! EI_JobID input).
  - intros [k|]; [|apply preserves_fail]. apply preserves_bind; [|intros; apply preserves_ret].
    intros s Hs. exact Hs.
Qed.

(** The row a transition writes. *)
Lemma transition_written s s' san id expected to upd now j' :
  db_inv s → SystemTransitionJob san id expected to upd now s = (s', Ok j') →
  ∃ j, jobs s !! id = Some j ∧ jobs s' !! id = Some j'
    ∧ j' = transition_row to upd (truncate (san (JT_Message upd)) 1000) now (user_active (JUserID j) s) j.
Proof.
  intros Hs Hrun. unfold SystemTransitionJob, SystemGetJob in Hrun. inv_ok.
  match goal with H : scan_job (jobs s !! id) = Ok _ |- _ => apply of_option_Ok in H; rename H into Hcur end.
  match goal with H : map_err _ _ _ = (_, Ok ?o) |- _ => apply map_err_inv_Ok in H;
    apply update_job_Ok in H; [rename H into Hupd|intros; apply transition_row_spec|done] end.
  match type of Hupd with match ?o with _ => _ end => destruct o as [new|]; [|inv_ok] end. inv_ok.
  match goal with H : scan_job _ = Ok _ |- _ => apply of_option_Ok in H end.
  match goal with H : jobs s !! id = Some ?x |- _ => exists x end. by simplify_eq.
Qed.
(** What [finish] leaves of an active job: its end, or the row as it was when the
    transition is refused. *)
Lemma finish_jobs e id j en now :
  db_inv (e_db e) → jobs (e_db e) !! id = Some j → is_active (JStatus j) = true → Terminal (E_Status en) = true →
  jobs (e_db (finish id en now e).1) !! id = Some (
    if (bool_decide (E_Status en = JobSucceeded) && bool_decide (JStatus j = JobAwaitingApproval))
       || (bool_decide (E_Status en = JobOutcomeUnknown) && negb (is_some (JConfirmationStartedAt j)))
    then j
    else transition_row (E_Status en) (MkTransition (E_Message en) (E_ExitCode en) false)
           (truncate (sanitizeText (E_Message en)) 1000) now (user_active (JUserID j) (e_db e)) j).
Proof.
  intros Hs Hj Ha Ht. unfold finish. rewrite ST_bind_unfold. unfold call at 1, SystemGetJob. rewrite ST_bind_unfold.
  cbn [gets]. rewrite Hj. cbn [scan_job of_option lift].
  assert (Terminal (JStatus j) = false) as Hnt by by destruct (is_active_cases _ Ha) as [-> | ->].
  rewrite Hnt. rewrite ST_bind_unfold. unfold call at 1. cbn [e_db with_db].
  set (tr := SystemTransitionJob _ _ _ _ _ _).
  assert (finish_expected (E_Status en) = [JobRunning] ∧ E_Status en = JobSucceeded
    ∨ finish_expected (E_Status en) = [JobRunning; JobAwaitingApproval] ∧ E_Status en ≠ JobSucceeded) as Hexp.
  { unfold finish_expected. case_bool_decide; auto. }
  destruct (_ || _) eqn:Hstuck.
  - assert (∃ x, tr (e_db e) = (e_db e, Err x)) as (x & ->); [|done].
    apply orb_true_iff in Hstuck as [Hst|Hst]; apply andb_true_iff in Hst as [Hst1 Hst2]; apply bool_decide_eq_true in Hst1.
    + apply bool_decide_eq_true in Hst2. destruct Hexp as [[Hexp _]|[_ Hn]]; [|done]. unfold tr. rewrite Hexp.
      eapply SystemTransitionJob_state_refused; [done|]. rewrite Hst2. set_solver.
    + apply negb_true_iff in Hst2. unfold tr. rewrite Hst1. by eapply SystemTransitionJob_unknown_refused.
  - apply orb_false_iff in Hstuck as [H1 H2].
    destruct (SystemTransitionJob_ends (e_db e) id j (finish_expected (E_Status en)) (E_Status en)
      (MkTransition (E_Message en) (E_ExitCode en) false) now) as (s1 & j1 & Htr); try done.
    + destruct Hexp as [[-> ->]|[-> Hn]]; [done|]. by destruct (E_Status en).
    + destruct (is_active_cases _ Ha) as [Hst|Hst]; destruct Hexp as [[-> Hx]|[-> Hn]]; rewrite Hst; try set_solver.
      by rewrite Hx, Hst, !bool_decide_true in H1.
    + intros Hu. rewrite Hu, bool_decide_true in H2 by done. apply andb_false_iff in H2 as [?|H2]; [done|].
      apply negb_false_iff in H2. by rewrite H2.
    + fold tr in Htr. rewrite Htr. unfold tr in Htr. apply transition_written in Htr as (x & Hx & Hj1 & Hrow); [|done].
      rewrite Hj in Hx. injection Hx as <-. cbn [JT_Message] in Hrow. rewrite <- Hrow.
      pose proof (SystemAppendJobEvent_jobs (jobs s1) (event_of id ("job." +:+ JobStatus_string (JStatus j1)) (JMessage j1)) now s1 eq_refl) as Hev.
      rewrite ST_bind_unfold. unfold event. rewrite ST_bind_unfold. unfold call. cbn [e_db with_db].
      destruct (SystemAppendJobEvent _ now s1) as [s2 o]. cbn. simpl in Hev. by rewrite Hev.
Qed.

(** A routine that cannot fail and leaves the table of running jobs alone. *)
Definition quiet (m : ST engineState unit) : Prop := ∀ e, (m e).2 = Ok tt ∧ e_active (m e).1 = e_active e.
Lemma quiet_call {A} (m : ST db A) f : (∀ a, quiet (f a)) → quiet (call m ≫= f).
Proof.
  intros Hf e. rewrite ST_bind_unfold. unfold call. destruct (m (e_db e)) as [s r]. apply (Hf r (with_db s e)).
Qed.
Lemma quiet_bind m (f : unit → ST engineState unit) : quiet m → (∀ a, quiet (f a)) → quiet (m ≫= f).
Proof.
  intros Hm Hf e. rewrite ST_bind_unfold. destruct (Hm e) as [Hok <-].
  destruct (m e) as [e1 o]. simpl in *. subst o. apply Hf.
Qed.
Lemma finish_quiet id en now : quiet (finish id en now).
Proof.
  apply quiet_call. intros [j|x]; [|done]. destruct (Terminal (JStatus j)); [done|].
  apply quiet_call. intros [j1|x]; [|done]. apply quiet_bind; [by apply quiet_call|done].
Qed.

(** ** The end of a claimed job *)

(** What a run leaves its job in, read without the code: status, message and exit code, or
    nothing where no end is stored.  [revoked]: the owner asked to cancel, or the account is
    disabled. *)
Record settlement := MkSettlement { st_status : JobStatus; st_message : string; st_exit : option Z }.
Definition report (outcome : result RunResult) : settlement :=
  match outcome with
  | Ok r => MkSettlement (RR_Status r) (RR_Message r) (Some (RR_ExitCode r))
  | Err e =>
      MkSettlement JobFailed
        (match executionLimitMessage (Some e) with
         | "" => "The control plane could not run the isolated action." | limit => limit end) None
  end.
Definition stored_text (message : string) : string := truncate (sanitizeText message) 1000.
Definition settled (j : Job) (revoked stopping : bool) (cause : option error) (outcome : result RunResult) : option settlement :=
  let reported := report outcome in
  let awaiting := bool_decide (JStatus j = JobAwaitingApproval) in
  if is_some (JConfirmationStartedAt j) then
    if bool_decide (st_status reported = JobSucceeded)
    then (if awaiting then None else Some (MkSettlement JobSucceeded (stored_text (st_message reported)) (st_exit reported)))
    else Some (MkSettlement JobOutcomeUnknown unknown_message None)
  else
    let asked :=
      if stopping then MkSettlement JobInterrupted "Interrupted by control-plane shutdown." (st_exit reported)
      else if is_cause cause ErrUserCancelled then MkSettlement JobCancelled "Cancelled by the operator." (st_exit reported)
      else if is_cause cause ErrArtifactLimit
      then MkSettlement JobFailed "Job diagnostics exceeded the per-job storage limit." (st_exit reported)
      else reported in
    if bool_decide (st_status asked = JobOutcomeUnknown) || (bool_decide (st_status asked = JobSucceeded) && awaiting) then None
    else if revoked then Some (MkSettlement JobCancelled revoked_message None)
    else Some (MkSettlement (st_status asked) (stored_text (st_message asked)) (st_exit asked)).
(** The row of a job with its end in it, or as it was. *)
Definition ended_as (j : Job) (now : Time) (s : option settlement) (j' : Job) : Prop :=
  match s with
  | None => j' = j
  | Some e => JStatus j' = st_status e ∧ JMessage j' = st_message e ∧ JExitCode j' = st_exit e
      ∧ JFinishedAt j' = Some now ∧ JWorkerOwner j' = ""
  end.

(** The end the engine asks for. *)
Lemma ending_is j stopping cause outcome :
  ending (Ok j) stopping cause outcome =
    let reported := report outcome in
    let '(MkSettlement status message exit) :=
      if is_some (JConfirmationStartedAt j) then
        if bool_decide (st_status reported = JobSucceeded) then reported else MkSettlement JobOutcomeUnknown unknown_outcome (st_exit reported)
      else if stopping then MkSettlement JobInterrupted shutdown_message (st_exit reported)
      else if is_cause cause ErrUserCancelled then MkSettlement JobCancelled operator_message (st_exit reported)
      else if is_cause cause ErrArtifactLimit then MkSettlement JobFailed artifact_message (st_exit reported) else reported in
    MkEnding status message exit.
Proof.
  destruct outcome as [r|x]; simpl.
  - unfold ending_of_result, confirmation_marked.
    destruct (is_some (JConfirmationStartedAt j)), stopping, (is_cause cause ErrUserCancelled), (is_cause cause ErrArtifactLimit); simpl;
      repeat case_bool_decide; simpl; congruence.
  - unfold ending_of_error, confirmation_marked.
    destruct (is_some (JConfirmationStartedAt j)), stopping, (is_cause cause ErrUserCancelled), (is_cause cause ErrArtifactLimit); simpl; try done.
    by destruct (executionLimitMessage (Some x)).
Qed.
(** The row a terminal transition writes, by what becomes of it. *)
Lemma terminal_row to message exit text now active j :
  Terminal to = true →
  let j' := transition_row to (MkTransition message exit false) text now active j in
  let marked := is_some (JConfirmationStartedAt j) in
  let stopped := negb marked && (JCancelRequested j || negb active) in
  ended_as j now (Some (
    if marked && negb (bool_decide (to = JobSucceeded)) then MkSettlement JobOutcomeUnknown unknown_message None
    else if stopped then MkSettlement JobCancelled revoked_message None else MkSettlement to text exit)) j'.
Proof.
  intros Ht. cbv zeta. unfold transition_row, resolve. rewrite Ht. cbn [JT_ConfirmationStarted].
  destruct (is_some (JConfirmationStartedAt j)), (bool_decide (to = JobSucceeded)), (bool_decide (to = JobRunning)),
    (JCancelRequested j || negb active); cbn; done.
Qed.

#[local] Opaque truncate sanitizeText.

(** C15: every claimed job is settled. When the execution of an active job ends, with
    whatever result or error, the engine forgets its context and the row holds the status,
    the message, the exit code and the instant of the end, and no worker any more: once the
    confirmation was marked, succeeded or unresolved; before it interrupted at a shutdown,
    cancelled when the owner asked or the account is disabled, failed over a storage limit or
    on an error, else what the run reports, its message without secrets and cut to size. Two
    reports are not stored and leave the row as it was: a success while the job awaits
    approval, and an unknown outcome of a confirmation that never began. *)
Theorem claimed_job_is_settled e id j stopping cause outcome now :
  db_inv (e_db e) → jobs (e_db e) !! id = Some j → is_active (JStatus j) = true → e_active e !! id = Some cause →
  (∀ r, outcome = Ok r → Terminal (RR_Status r) = true) →
  let e' := (runClaimed_end id stopping outcome now e).1 in
  e_active e' !! id = None
  ∧ ∃ j', jobs (e_db e') !! id = Some j'
      ∧ ended_as j now (settled j (JCancelRequested j || negb (user_active (JUserID j) (e_db e))) stopping cause outcome) j'.
Proof.
  intros Hs Hj Ha Hc Hr. unfold runClaimed_end. rewrite ST_bind_unfold. unfold call, SystemGetJob. rewrite ST_bind_unfold.
  cbn [gets]. rewrite Hj. cbn [scan_job of_option lift]. rewrite ST_bind_unfold. cbn [gets with_db e_active]. rewrite Hc. cbn [default].
  set (en := ending _ _ _ _). rewrite ST_bind_unfold.
  replace (MkEngine (e_db e) (e_hub e) (e_active e)) with e by by destruct e. change (with_db (e_db e) e) with (MkEngine (e_db e) (e_hub e) (e_active e)).
  replace (MkEngine (e_db e) (e_hub e) (e_active e)) with e by by destruct e.
  destruct (finish_quiet id en now e) as [Hok Hact].
  assert (Hen : en = ending (Ok j) stopping cause outcome) by done. rewrite ending_is in Hen.
  assert (Hterm : Terminal (st_status (report outcome)) = true) by (destruct outcome as [r|x]; [by apply (Hr r)|done]).
  assert (Hend : Terminal (E_Status en) = true).
  { rewrite Hen. clear -Hterm. destruct (report outcome) as [status message exit]. cbn in *.
    destruct (is_some _), (bool_decide (status = JobSucceeded)), stopping, (is_cause cause ErrUserCancelled), (is_cause cause ErrArtifactLimit); done. }
  pose proof (finish_jobs e id j en now Hs Hj Ha Hend) as Hj'. clearbody en.
  destruct (finish id en now e) as [e1 o]. simpl in *. subst o. split; [apply lookup_delete_eq|].
  eexists. split; [exact Hj'|]. clear Hj'. unfold settled.
  destruct (report outcome) as [status message exit]. cbn [st_status st_message st_exit] in *.
  set (active := user_active _ _). clearbody active. unfold stored_text.
  destruct (is_some (JConfirmationStartedAt j)) eqn:Hmark.
  - destruct (bool_decide_reflect (status = JobSucceeded)) as [->|Hne]; subst en; cbn.
    + destruct (bool_decide (JStatus j = JobAwaitingApproval)); [done|]. cbn.
      pose proof (terminal_row JobSucceeded message exit (truncate (sanitizeText message) 1000) now active j eq_refl) as Hrow.
      rewrite Hmark in Hrow. exact Hrow.
    + pose proof (terminal_row JobOutcomeUnknown unknown_outcome exit (truncate (sanitizeText unknown_outcome) 1000) now active j eq_refl) as Hrow.
      rewrite Hmark in Hrow. exact Hrow.
  - assert (Hplain : ∀ a m x, Terminal a = true →
      ended_as j now (if bool_decide (a = JobOutcomeUnknown) || (bool_decide (a = JobSucceeded) && bool_decide (JStatus j = JobAwaitingApproval))
                      then None else if JCancelRequested j || negb active then Some (MkSettlement JobCancelled revoked_message None)
                      else Some (MkSettlement a (truncate (sanitizeText m) 1000) x))
        (if (bool_decide (a = JobSucceeded) && bool_decide (JStatus j = JobAwaitingApproval)) || (bool_decide (a = JobOutcomeUnknown) && true)
         then j else transition_row a (MkTransition m x false) (truncate (sanitizeText m) 1000) now active j)).
    { intros a m x Hterm'. rewrite andb_true_r, orb_comm. destruct (_ || _); [done|].
      pose proof (terminal_row a m x (truncate (sanitizeText m) 1000) now active j Hterm') as Hrow. rewrite Hmark in Hrow. cbn in Hrow.
      by destruct (_ || _). }
    subst en. destruct stopping; [by apply Hplain|]. destruct (is_cause cause ErrUserCancelled); [by apply Hplain|].
    destruct (is_cause cause ErrArtifactLimit); by apply Hplain.
Qed.
End settle.

(** ** Concrete ends *)

Definition engine_at (s : db) : engineState := MkEngine s NewHub {[ 1 := None ]}.

Lemma claimed_job_is_settled_witness :
  ∃ j', jobs (e_db (runClaimed_end 1 false (Err (Errorf "lost")) t0 (engine_at confirmed_db)).1) !! 1 = Some j'
    ∧ JStatus j' = JobOutcomeUnknown ∧ JMessage j' = unknown_message ∧ JFinishedAt j' = Some t0.
Proof.
  at_job confirmed_db 1 (λ j : Job, is_active (JStatus j) && is_some (JConfirmationStartedAt j)) j Hj Hp.
  apply andb_true_iff in Hp as [Ha Hc].
  destruct (claimed_job_is_settled (engine_at confirmed_db) 1 j false None (Err (Errorf "lost")) t0
    (run_db_inv confirmed_ops) Hj Ha eq_refl ltac:(discriminate)) as (_ & j' & Hj' & Hst).
  exists j'. split; [exact Hj'|]. unfold settled in Hst. rewrite Hc in Hst. destruct Hst as (Hs & Hm & _ & Hf & _).
  split; [exact Hs|]. split; [exact Hm|exact Hf].
Defined.

(** An unknown outcome of a confirmation that never began is not stored: the job is left
    running, and its sign-in and phone busy, until the next restart. *)
Example unconfirmed_unknown_outcome_leaves_the_job_running :
  let e' := (runClaimed_end 1 false (Ok (MkRunResult JobOutcomeUnknown "unknown" 1)) t0 (engine_at claimed_db)).1 in
  JStatus <$> jobs (e_db e') !! 1 = Some JobRunning ∧ e_active e' !! 1 = None.
Proof. vm_compute. auto. Qed.
