(* ===== verification/Pairing.v ===== *)
(** * Providers and supervised pairing (src/internal/engine/providers.go)

    Which sign-in a pairing uses, how a pairing and a sign-in are queued, how a stored source
    becomes a provider, and the supervised provider: it shows every candidate of a poll on
    the hub, waits for the owner's choice and binds the source to the chosen message.  The
    wait is a thread whose steps interleave with everything else. *)

From S2P Require Import Prelude GoStrings GoTime Json Secrets Redaction Auth Origin Domain Scheduler Database.
From S2P Require Import JobStore EventStore ResourceStore ProfileStore SettingsStore AccountStore.
From S2P Require Import JobInvariants JobOperations JobHistory AccountInvariants ResourceInvariants SystemInvariants.
From S2P Require Import System Otp Hub BookingQueue ActionProc Coordinator Egress Json BlueBubbles Twilio Worker.
From Stdlib Require Import Ascii String.

Open Scope Z_scope.

(** ** The prerequisites of a pairing *)

Record PairingSetup := MkSetup { SetupProfileID : Z; SetupProfileName : string }.
Definition no_setup : PairingSetup := MkSetup 0 "".

(** The optional last argument of the Go function is a list here. *)
Definition choice (selected : list Z) : option Z :=
  match selected with id :: _ => if 0 <? id then Some id else None | [] => None end.
Definition yodel_profiles (profiles : list Profile) : list Profile :=
  filter (λ p, EffectiveProviderID p = ProviderYodel) profiles.
Definition pairing_profile (sourceID : Z) (selected : list Z) (profiles : list Profile) : result Profile :=
  match choice selected with
  | Some id =>
      match filter (λ p, PID p = id) profiles with p :: _ => Ok p | [] => Err (Sentinel ErrNotFound) end
  | None =>
      match filter (λ p, POTPSourceID p = sourceID) (yodel_profiles profiles),
            filter (λ p, PEnabled p = true) (yodel_profiles profiles) with
      | [p], _ => Ok p
      | _ :: _ :: _, _ => Err (Sentinel ErrPairingProfileAmbiguous)
      | [], [p] => Ok p
      | [], _ :: _ :: _ => Err (Sentinel ErrPairingProfileAmbiguous)
      | [], [] => Err (Sentinel ErrPairingProfileRequired)
      end
  end.

Section pairing.
Context (origins : list string).

(** The setup is meaningful with an error too: it names the sign-in to correct. *)
Definition check_profile (profile : Profile) : PairingSetup * result unit :=
  (MkSetup (PID profile) (PName profile),
   if negb (PEnabled profile) then Err (Sentinel ErrPairingProfileDisabled)
   else match profile_ValidateForOrigins profile origins with
        | Err _ => Err (Wrap "" (Sentinel ErrPairingProfileInvalid))
        | ok => ok
        end).
Definition CheckPairingSetup (userID sourceID : Z) (selected : list Z) (s : db) : PairingSetup * result unit :=
  match (GetOTPSource userID sourceID s).2 with
  | Err e => (no_setup, Err e)
  | Ok source =>
      if negb (bool_decide (OSProvider source = OTPProviderBlueBubbles))
      then (no_setup, Err (Errorf "only BlueBubbles sources require supervised pairing"))
      else
        match (ListProfiles userID s).2 with
        | Err e => (no_setup, Err e)
        | Ok profiles =>
            match pairing_profile sourceID selected profiles with
            | Err e => (no_setup, Err e)
            | Ok profile => check_profile profile
            end
        end
  end.

(** ** Queueing *)

Definition pending_pairing (sourceID : Z) (j : Job) : bool :=
  (JOTPSourceID j =? sourceID) && has_prefix (JDedupKey j) (pairing_prefix sourceID) && negb (Terminal (JStatus j)).
Definition sign_in_params (profileID sourceID : Z) (deduplicate : bool) (due : Time) (key : string) : EnqueueJobParams :=
  MkEnqueue None profileID sourceID deduplicate CommandAuthCheck RunModeManual false due None key.
(** [clk 4] and [clk 5] are the readings the parameters are made from. *)
Definition queuePairing (userID sourceID : Z) (deduplicate : bool) (selected : list Z) (clk : nat → Time) : ST db Job :=
  check ← gets (CheckPairingSetup userID sourceID selected);
  _ ← lift check.2;
  listed ← ListJobs userID 500;
  _ ← st_reject (existsb (pending_pairing sourceID) listed) (Sentinel ErrConflict);
  EnqueueJob userID (sign_in_params (SetupProfileID check.1) sourceID deduplicate (clk 4%nat)
    (pairing_prefix sourceID +:+ format_int (clk 5%nat))) clk.
Definition QueuePairing (userID sourceID : Z) (selected : list Z) (clk : nat → Time) : ST db Job :=
  queuePairing userID sourceID false selected clk.

(** The account's default source, else the one of the sign-in. *)
Definition sign_in_source (userID : Z) (profile : Profile) (s : db) : result OTPSource :=
  let found :=
    match (GetDefaultOTPSource userID s).2 with
    | Err e => if errors_is e ErrNotFound && (0 <? POTPSourceID profile)
               then (GetOTPSource userID (POTPSourceID profile) s).2 else Err e
    | ok => ok
    end in
  match found with
  | Err e => if errors_is e ErrNotFound then Err (Errorf "choose a default OTP source before signing in") else Err e
  | ok => ok
  end.
Definition QueueProfileSignIn (userID profileID : Z) (clk : nat → Time) : ST db Job :=
  profile ← GetProfile userID profileID;
  _ ← lift (check_profile profile).2;
  found ← gets (sign_in_source userID profile);
  source ← lift found;
  match OSProvider source with
  | OTPProviderBlueBubbles => queuePairing userID (OSID source) true [PID profile] clk
  | OTPProviderTwilio =>
      EnqueueJob userID (sign_in_params (PID profile) (OSID source) true (clk 4%nat) "") clk
  | _ => fail (Errorf "unsupported OTP provider")
  end.
End pairing.

(** ** Building a provider *)

Inductive provider :=
  | BlueBubblesProvider (p : BlueBubbles.Provider)
  | TwilioProvider (p : Twilio.Provider).

Definition with_pairing (source : OTPSource) (c : BlueBubbles.Config) : BlueBubbles.Config :=
  BlueBubbles.MkConfig (BlueBubbles.BaseURL c) (BlueBubbles.Password c)
    (OSPairingChatGUID source) (OSPairingSender source) (OSPairingService source)
    (BlueBubbles.PollInterval c) (BlueBubbles.RequestTimeout c) (BlueBubbles.MaxResponseBytes c)
    (BlueBubbles.PageLimit c) (BlueBubbles.MaxPages c) (BlueBubbles.Freshness c).
Definition twilio_zero : Twilio.Config := Twilio.MkConfig "" "" "" "" "" 0 0 0 0 0 0.
Definition decode_onto {A} (zero : A) (decode : list (string * json) → option A) (v : json) : result A :=
  of_option (Errorf "decode provider configuration") (struct_onto (λ _, decode) zero v).
Definition ProviderForSource `{AEAD} (source : OTPSource) (policy : option (gmap string endpoint)) : ST db provider :=
  match OSProvider source with
  | OTPProviderBlueBubbles =>
      stored ← SystemGetOTPSourceConfig (OSID source);
      config ← lift (decode_onto BlueBubbles.zero_config BlueBubbles.decode_config stored);
      built ← lift (BlueBubbles.New (with_pairing source config) policy);
      mret (BlueBubblesProvider built)
  | OTPProviderTwilio =>
      stored ← SystemGetOTPSourceConfig (OSID source);
      config ← lift (decode_onto twilio_zero Twilio.decode_config stored);
      built ← lift (Twilio.New config);
      mret (TwilioProvider built)
  | _ => fail (Errorf ("unsupported OTP provider " +:+ quoted (OTPProvider_string (OSProvider source))))
  end.

(** ** Choosing *)

Definition hub_choose (jobID : Z) (messageID : string) : ST engineState unit := λ e,
  match Hub.ChoosePairing (job_key jobID) messageID (e_hub e) with
  | Some (h, r) => (with_engine_hub h e, r)
  | None => (e, Ok tt)
  end.
Definition ChoosePairing (userID jobID : Z) (messageID : string) : ST engineState unit :=
  _ ← call_or_fail (GetJob userID jobID);
  hub_choose jobID messageID.

(** ** The supervised provider *)

Definition supervised_filter (filter : Filter) : Filter :=
  MkFilter "" "" (FRecipient filter) "" (FFreshAfter filter) true true.

(** [WaitForCode] as a thread: where it stands between two of its steps.  [Leaving]
    and [Cleared] are the two halves of a [ClearPairing], of [WaitPairing] first and then of the
    deferred call. *)
Inductive phase :=
  | Asking
  | Offering (candidates : list Message)
  | Publishing (candidates : list Message)
  | Beginning
  | Choosing (waiter : nat)
  | Leaving (chosen : result Message)
  | Left (chosen : result Message)
  | Persisting (chosen : Message)
  | Closing (answer : result Message)
  | Closed (answer : result Message)
  | Done (answer : result Message).

Record supervision := MkSupervision { sv_db : db; sv_hub : Hub; sv_phase : phase; sv_selected : bool }.
Definition with_sv_hub (h : Hub) (v : supervision) : supervision := MkSupervision (sv_db v) h (sv_phase v) (sv_selected v).
Definition with_phase (p : phase) (v : supervision) : supervision := MkSupervision (sv_db v) (sv_hub v) p (sv_selected v).

Inductive sstep :=
  | SAnswer (candidates : result (list Message))
  | SThread (now : Time)
  | SCancelled (e : error)
  | SChoose (userID jobID : Z) (messageID : string)
  | SStore (o : op)
  | SHub (o : hub_op).

Section supervised.
Context `{AEAD} `{Hashes} `{TimeZoneDB} (job source : Z).
Notation key := (job_key job).

(** One step of the thread that does not wait for anything outside. *)
Definition thread_step (now : Time) (v : supervision) : supervision :=
  match sv_phase v with
  | Offering candidates =>
      if bool_decide (candidates_of candidates = ∅) then with_phase (Done (Err (Sentinel ErrPairingNotPending))) v
      else
        match Hub_set_pairing key (candidates_of candidates) (sv_hub v) with
        | (h, Err e) => with_phase (Done (Err e)) (with_sv_hub h v)
        | (h, Ok _) => with_phase (Publishing candidates) (with_sv_hub h v)
        end
  | Publishing candidates =>
      with_phase Beginning (with_sv_hub (Publish key
        (MkLive "pairing" (pairingPublicData (MkPairingWaiter None (candidates_of candidates) false))) (sv_hub v)) v)
  | Beginning =>
      match WaitPairing_begin key (sv_hub v) with
      | Ok p => with_phase (Choosing p) v
      | Err e => with_phase (Closing (Err e)) v
      end
  | Choosing p =>
      match WaitPairing_take p (sv_hub v) with
      | Some (h, m) => with_phase (Leaving (Ok m)) (with_sv_hub h v)
      | None => v
      end
  | Leaving r => with_phase (Left r) (with_sv_hub (Hub_clear_pairing key (sv_hub v)) v)
  | Left r =>
      with_phase (match r with Ok m => Persisting m | Err e => Closing (Err e) end)
        (with_sv_hub (Publish key (live_inactive "pairing") (sv_hub v)) v)
  | Persisting m =>
      match SystemPersistOTPSourcePairing job source (MChatGUID m) (MSender m) (MService m) now (sv_db v) with
      | (s, Err e) => MkSupervision s (sv_hub v) (Closing (Err e)) (sv_selected v)
      | (s, Ok _) => MkSupervision s (sv_hub v) (Closing (Ok m)) true
      end
  | Closing r => with_phase (Closed r) (with_sv_hub (Hub_clear_pairing key (sv_hub v)) v)
  | Closed r => with_phase (Done r) (with_sv_hub (Publish key (live_inactive "pairing") (sv_hub v)) v)
  | Asking | Done _ => v
  end.
(** Sections of other goroutines: only the run of the job offers candidates under its
    key, and only [Engine.ChoosePairing] chooses. *)
Definition foreign (o : hub_op) : bool :=
  match o with
  | HSetPairing k _ => negb (String.eqb k key)
  | HChoosePairing _ _ | HWaitPairingTake _ => false
  | _ => true
  end.
Definition sstep_exec (st : sstep) (v : supervision) : supervision :=
  match st with
  | SAnswer r =>
      match sv_phase v, r with
      | Asking, Ok candidates => with_phase (Offering candidates) v
      | Asking, Err e => with_phase (Done (Err e)) v
      | _, _ => v
      end
  | SThread now => thread_step now v
  | SCancelled e => match sv_phase v with Choosing _ => with_phase (Leaving (Err e)) v | _ => v end
  | SChoose userID jobID messageID =>
      let e := (ChoosePairing userID jobID messageID (MkEngine (sv_db v) (sv_hub v) ∅)).1 in
      MkSupervision (e_db e) (e_hub e) (sv_phase v) (sv_selected v)
  | SStore o => MkSupervision (exec o (sv_db v)) (sv_hub v) (sv_phase v) (sv_selected v)
  | SHub o => if foreign o then with_sv_hub (hub_exec o (sv_hub v)) v else v
  end.
Definition supervise (sts : list sstep) (v : supervision) : supervision := foldl (λ v st, sstep_exec st v) v sts.
Definition asking (s : db) (h : Hub) : supervision := MkSupervision s h Asking false.
End supervised.
