(* ===== verification/PairingProperties.v ===== *)
(** * What pairing guarantees (src/internal/engine/providers.go)

    A source has one pairing in the queue, and the code of a supervised pairing is the one
    its owner chose, released after the source was bound to it. *)

From S2P Require Import Prelude GoStrings GoTime Json Secrets Redaction Auth Origin Domain Scheduler Database.
From S2P Require Import JobStore Samples EventStore ResourceStore ProfileStore SettingsStore AccountStore.
From S2P Require Import JobInvariants JobOperations JobHistory JobLemmas AccountInvariants ResourceInvariants SystemInvariants.
From S2P Require Import System SystemHistory SystemSamples JobProperties Otp Hub HubProperties BookingQueue ActionProc Coordinator Worker Pairing.
From Stdlib Require Import Ascii String.

Open Scope Z_scope.

(** ** The queue of pairings *)

Lemma length_select {A} (p : A → bool) (m : gmap Z A) : List.length (select p m) = count_map p m.
Proof.
  unfold select, count_map, rows, sort_by. apply Permutation_length, filter_Permutation, merge_sort_Permutation.
Qed.

(** The listing of 500 jobs holds every job of the account. *)
Lemma ListJobs_all uid s s' listed k j :
  db_inv s → ListJobs uid 500 s = (s', Ok listed) →
  s' = s ∧ 0 < uid ∧ (jobs s !! k = Some j → JUserID j = uid → j ∈ listed) ∧ (j ∈ listed → ∃ k, jobs s !! k = Some j ∧ JUserID j = uid).
Proof.
  intros Hs Hl. unfold ListJobs in Hl. inv_ok.
  assert (newest_jobs (λ j, JUserID j =? uid) 500 s = rev (select (λ j, JUserID j =? uid) (jobs s)).*2) as ->.
  { unfold newest_jobs. apply take_ge. change (list_limit 500 500 100) with 500%nat.
    rewrite length_rev, length_fmap, length_select.
    pose proof (inv_retained _ Hs uid) as Hr. unfold retained_count, count_jobs, MaxRetainedJobsPerUser in Hr. lia. }
  split; [done|]. split; [lia|]. split.
  - intros Hk Hu. apply list_elem_of_In, in_rev. rewrite rev_involutive. apply list_elem_of_In, elem_of_select_rows.
    exists k. split; [done|]. by apply Z.eqb_eq.
  - intros Hin. apply list_elem_of_In, in_rev, list_elem_of_In, elem_of_select_rows in Hin as (k' & ? & ?%Z.eqb_eq). eauto.
Qed.

Lemma GetOTPSource_Ok uid sid s s' o :
  GetOTPSource uid sid s = (s', Ok o) →
  s' = s ∧ 0 < uid ∧ ∃ row, sources s !! sid = Some row ∧ sr_source row = o ∧ OSUserID o = uid.
Proof.
  unfold GetOTPSource, owned_source. intros H. inv_ok. split; [done|]. split; [lia|].
  match goal with H : sr_source <$> _ = Some _ |- _ => apply fmap_Some in H as (row & Hrow & ->) end.
  apply bind_Some in Hrow as (r & Hr & Hif). destruct (Z.eqb_spec (OSUserID (sr_source r)) uid); [|done].
  injection Hif as ->. eauto.
Qed.

Lemma pairing_key_kept sid now : trim_space (pairing_prefix sid +:+ format_int now) = pairing_prefix sid +:+ format_int now.
Proof.
  apply trim_space_plain. unfold pairing_prefix. rewrite !all_bytes_app, !format_int_plain. reflexivity.
Qed.

Lemma job_source_owner s k j row :
  db_inv s → jobs s !! k = Some j → sources s !! JOTPSourceID j = Some row → JUserID j = OSUserID (sr_source row).
Proof.
  intros Hs Hk Hr. pose proof (inv_fk _ Hs k j Hk) as Hfk. unfold job_foreign_keys in Hfk. rewrite Hr in Hfk.
  bool_to_prop. lia.
Qed.

(** What a refused queueing leaves. *)
Lemma queuePairing_refused origins uid sid dedup selected clk s s' e :
  queuePairing origins uid sid dedup selected clk s = (s', Err e) → s' = s.
Proof.
  unfold queuePairing. intros Hrun.
  do 4 (apply refused_reading in Hrun as [|(? & _ & Hrun)]; [done| |intros I; unfold ListJobs; reading]).
  unfold EnqueueJob in Hrun. apply refused_reading in Hrun as [|(? & _ & Hrun)]; [done| |intros I; reading].
  by apply atomically_Err in Hrun.
Qed.

(** A queued sign-in check joins the jobs that retention leaves. *)
Lemma sign_in_queued uid pid sid dedup due key clk s s' j :
  0 < uid → 0 < sid → enqueueJobTx uid (sign_in_params pid sid dedup due key) clk s = (s', Ok j) →
  JStatus j = JobQueued ∧ JUserID j = uid ∧ JCommand j = CommandAuthCheck ∧ JProfileID j = pid ∧ JOTPSourceID j = sid
  ∧ JDedupKey j = trim_space key
  ∧ (∃ row, profiles s !! pid = Some row ∧ PUserID (pr_profile row) = uid ∧ PEnabled (pr_profile row) = true)
  ∧ ∃ kept, kept ⊆ jobs s ∧ jobs s' = <[JID j := j]> kept.
Proof.
  intros Huid Hsid Hrun.
  apply enqueueJobTx_Ok in Hrun as (q & pid' & owner & psource & src & Hadm & Hres & Hsrc & Hrest). cbv zeta in Hrest.
  assert (ECommand q = CommandAuthCheck ∧ EBookingRequestID q = None ∧ EProfileID q = pid ∧ EOTPSourceID q = sid ∧ EDedupKey q = key)
    as (Hcmd & Hnob & Hqp & Hqs & Hkey) by (unfold admit_params in Hadm; inv_ok; done).
  unfold resolve_profile in Hres. rewrite Hnob in Hres. cbn [mbind result_bind fst snd] in Hres.
  apply result_bind_Ok in Hres as (u & _ & Hres). rewrite Hqp, (proj2 (Z.ltb_lt 0 uid) Huid) in Hres. cbn [negb orb] in Hres.
  destruct (profiles s !! pid) as [row|] eqn:Hrow; [|done].
  destruct (PEnabled (pr_profile row)) eqn:Hen; [|done]. destruct (Z.eqb_spec (PUserID (pr_profile row)) uid) as [Ho|]; [|done].
  cbn in Hres. injection Hres as <- <- _. unfold resolve_source in Hsrc. rewrite Hqs in Hsrc.
  rewrite (proj2 (Z.eqb_neq sid 0)) in Hsrc by lia. cbn [negb] in Hsrc.
  destruct (sources s !! sid); [|done]. destruct (_ =? _) in Hsrc; [|done]. injection Hsrc as <-.
  destruct Hrest as (_ & _ & _ & Hins & Hj & _). set (s1 := delete_jobs _ s) in *.
  apply insert_job_Ok in Hins as (_ & _ & _ & _ & s2 & -> & Hreserve & _). subst j. unfold new_job in *. simpl.
  split_and!; try done; [by rewrite Hkey|by eauto|]. exists (jobs s1). split; [apply delete_jobs_shrinks|].
  by apply reserve_booking_Ok in Hreserve as [[-> _]|(slot & _ & _ & _ & ->)].
Qed.

(** A source has at most one pairing in the queue.  A queued pairing is a sign-in check of
    the account's enabled sign-in with its own BlueBubbles source, and afterwards the only
    pairing of that source that has not ended; while another has not ended a new one is
    refused as a conflict; and a refusal changes nothing. *)
Theorem pairing_is_queued_once origins uid sid dedup selected clk s :
  db_inv s → 0 < sid →
  match queuePairing origins uid sid dedup selected clk s with
  | (s', Err e) => s' = s ∧
      ((CheckPairingSetup origins uid sid selected s).2 = Ok tt →
       (∃ k other, jobs s !! k = Some other ∧ pending_pairing sid other = true) → e = Sentinel ErrConflict)
  | (s', Ok j) =>
      JStatus j = JobQueued ∧ JUserID j = uid ∧ JCommand j = CommandAuthCheck ∧ jobs s' !! JID j = Some j
      ∧ (∃ row, profiles s !! JProfileID j = Some row ∧ PUserID (pr_profile row) = uid ∧ PEnabled (pr_profile row) = true)
      ∧ (∃ row, sources s !! sid = Some row ∧ OSUserID (sr_source row) = uid ∧ OSProvider (sr_source row) = OTPProviderBlueBubbles)
      ∧ pending_pairing sid j = true
      ∧ ∀ k other, jobs s' !! k = Some other → pending_pairing sid other = true → other = j
  end.
Proof.
  intros Hs Hsid. destruct (queuePairing _ _ _ _ _ _ _) as [s' [j|e]] eqn:Hrun.
  2:{ split; [by eapply queuePairing_refused|]. intros Hc (k & other & Hk & Hp).
      unfold queuePairing in Hrun. rewrite ST_bind_unfold in Hrun. cbn [gets] in Hrun.
      rewrite ST_bind_unfold in Hrun. unfold lift in Hrun at 1. rewrite Hc in Hrun.
      rewrite ST_bind_unfold in Hrun. unfold CheckPairingSetup in Hc.
      destruct (GetOTPSource uid sid s) as [s1 [o|?]] eqn:Hg; [|done].
      apply GetOTPSource_Ok in Hg as (_ & Huid & row & Hrow & Ho & Hown).
      destruct (ListJobs uid 500 s) as [s2 [listed|e2]] eqn:Hl.
      - apply (ListJobs_all uid s s2 listed k other Hs) in Hl as (-> & _ & Hin & _).
        assert (existsb (pending_pairing sid) listed = true) as Hex.
        { apply existsb_exists. exists other. split; [|done]. apply list_elem_of_In, Hin; [done|].
          unfold pending_pairing in Hp. bool_to_prop. assert (JOTPSourceID other = sid) as Hos by lia.
          rewrite (job_source_owner s k other row Hs Hk); [congruence|by rewrite Hos]. }
        rewrite ST_bind_unfold in Hrun. unfold st_reject, lift, reject in Hrun. rewrite Hex in Hrun. congruence.
      - unfold ListJobs in Hl. rewrite ST_bind_unfold in Hl. unfold st_reject, lift, reject, gets in Hl.
        rewrite (proj2 (Z.leb_gt uid 0)) in Hl by lia. done. }
  unfold queuePairing in Hrun.
  apply ST_bind_Ok in Hrun as (s1 & check & [-> ->]%gets_Ok & Hrun).
  apply ST_bind_Ok in Hrun as (s1 & u & [-> Hc]%lift_Ok & Hrun).
  apply ST_bind_Ok in Hrun as (s1 & listed & Hl & Hrun).
  apply ST_bind_Ok in Hrun as (s2 & u1 & [-> Hnone]%st_reject_Ok & Hrun).
  destruct (ListJobs_all uid s s1 listed 0 j Hs Hl) as (-> & Huid & _).
  unfold EnqueueJob in Hrun. apply ST_bind_Ok in Hrun as (s2 & u2 & [-> _]%st_reject_Ok & Hrun).
  unfold enqueueJob in Hrun. apply (proj1 (atomically_Ok _ _ _ _)) in Hrun.
  unfold CheckPairingSetup in Hc. destruct (GetOTPSource uid sid s) as [s3 [o|?]] eqn:Hg; [|done].
  apply GetOTPSource_Ok in Hg as (_ & _ & row & Hrow & Ho & Hown). cbn [snd] in Hc.
  destruct (bool_decide (OSProvider o = OTPProviderBlueBubbles)) eqn:Hblue; [|done].
  apply bool_decide_eq_true in Hblue. subst o.
  apply sign_in_queued in Hrun as (Hst & Hu & Hcmd & Hp & Hsrc & Hkey & Hprof & kept & Hkept & Hjobs); [|done..].
  assert (pending_pairing sid j = true) as Hpend.
  { unfold pending_pairing. rewrite Hsrc, Hkey, pairing_key_kept, has_prefix_app, Hst, Z.eqb_refl. done. }
  split_and!; try done; [by rewrite Hjobs, lookup_insert_eq|by rewrite Hp|by exists row|].
  intros k other Hk Hother. rewrite Hjobs in Hk. apply lookup_insert_Some in Hk as [[_ <-]|[_ Hk]]; [done|].
  apply (lookup_weaken _ (jobs s)) in Hk; [|done]. exfalso. assert (JOTPSourceID other = sid) as Hos.
  { unfold pending_pairing in Hother. bool_to_prop. lia. }
  assert (other ∈ listed) as Hin.
  { apply (ListJobs_all uid s s listed k other Hs Hl); [done|].
    rewrite (job_source_owner s k other row Hs Hk); [congruence|by rewrite Hos]. }
  assert (existsb (pending_pairing sid) listed = true) as Hex
    by (apply existsb_exists; exists other; split; [by apply list_elem_of_In|done]).
  congruence.
Qed.

(** ** What other goroutines do to a waiter *)

(** From [h] to [h']: the pairing table may gain new waiters of other jobs only, and
    the waiters there were stay as they were. *)
Record others (key : string) (h h' : Hub) : Prop := {
  ot_next : (h_next h <= h_next h')%nat;
  ot_table : ∀ k p, h_pairings h' !! k = Some p → h_pairings h !! k = Some p ∨ (h_next h <= p)%nat ∧ k ≠ key;
  ot_waiters : ∀ p, (p < h_next h)%nat → h_pairing_waiters h' !! p = h_pairing_waiters h !! p
}.
#[export] Instance others_refl key : Reflexive (others key).
Proof. intros h. split; [done|by left|done]. Qed.
Lemma others_same key h h' :
  h_next h' = h_next h → h_pairings h' = h_pairings h → h_pairing_waiters h' = h_pairing_waiters h → others key h h'.
Proof. intros Hn Ht Hw. split; [lia|intros k p; rewrite Ht; by left|intros p _; by rewrite Hw]. Qed.
Lemma others_cleared key job h : others key h (Hub_clear_pairing job h).
Proof. split; [done| |done]. intros k p Hp. simpl in Hp. apply lookup_delete_Some in Hp as [_ Hp]. by left. Qed.
Lemma others_publish key job ev h : others key h (Publish job ev h).
Proof. by apply others_same. Qed.

Lemma foreign_others job o h : foreign job o = true → others (job_key job) h (hub_exec o h).
Proof.
  destruct o; intros Hf; try done; simpl.
  - unfold Subscribe. cbv zeta. destruct (activeOTPLocked jobID now _) as [h2 otp] eqn:Ha.
    assert (h_next h2 = S (h_next h) ∧ h_pairings h2 = h_pairings h ∧ h_pairing_waiters h2 = h_pairing_waiters h) as (Hn & Ht & Hw).
    { unfold activeOTPLocked in Ha. destruct (h_otps _ !! _); [destruct (_ && _)|]; by injection Ha as <- _. }
    split; simpl; [lia|intros k p; rewrite Ht; by left|intros p _; by rewrite Hw].
  - unfold Unsubscribe. destruct (h_subscribers h !! jobID); [|by apply others_same]. cbv zeta.
    case_bool_decide; apply others_same; by (try case_bool_decide).
  - by apply others_same.
  - by apply others_same.
  - by apply others_same.
  - unfold expireOTP. destruct (h_otps h !! jobID); [|by apply others_same]. destruct (otp_is _ _ _); [|by apply others_same]. by apply others_same.
  - unfold OTP, activeOTPLocked. destruct (h_otps h !! jobID); [|by apply others_same]. destruct (_ && _); [|by apply others_same]. by apply others_same.
  - by apply others_same.
  - unfold BeginDecision. destruct (h_decisions h !! jobID); [by apply others_same|]. simpl. split; simpl; [lia|by left|done].
  - unfold Hub.Decide. destruct (h_decisions h !! jobID) as [p|]; [|by apply others_same].
    destruct (h_decision_waiters h !! p) as [w|]; [|by apply others_same]. destruct (dw_decided w); [by apply others_same|].
    destruct (send_decision p decision h) as [h'|] eqn:Hs; [|by apply others_same]. apply send_decision_spec in Hs as (? & _ & ->). by apply others_same.
  - unfold WaitDecision_take. destruct (h_decision_waiters h !! p) as [w|]; [|by apply others_same]. simpl.
    destruct (dw_ch w); [|by apply others_same]. by apply others_same.
  - by apply others_same.
  - unfold foreign in Hf. apply negb_true_iff, String.eqb_neq in Hf. unfold Hub_set_pairing.
    destruct (h_pairings h !! jobID); [by apply others_same|]. split; simpl; [lia| |intros p Hp; by rewrite lookup_insert_ne by lia].
    intros k p [[<- <-]|[_ Hk]]%lookup_insert_Some; [right; by split|by left].
  - apply others_cleared.
  - unfold Hub_cancel_decision. destruct (h_decisions h !! jobID) as [p|]; [|by apply others_same].
    destruct (h_decision_waiters h !! p) as [w|]; [|by apply others_same]. destruct (dw_decided w); [by apply others_same|].
    destruct (send_decision p "cancel" h) as [h'|] eqn:Hs; [|by apply others_same]. apply send_decision_spec in Hs as (? & _ & ->). by apply others_same.
Qed.

(** ** The invariant of a supervised wait *)

Lemma candidates_of_spec cs id m : candidates_of cs !! id = Some m → m ∈ cs ∧ MID m = id.
Proof.
  unfold candidates_of. assert (∀ acc : gmap string Message, foldl (λ m c, if String.eqb (MID c) "" then m else <[MID c := c]> m) acc cs !! id = Some m →
    acc !! id = Some m ∨ m ∈ cs ∧ MID m = id) as Hall.
  { induction cs as [|c cs IH]; intros acc; simpl; [by left|]. intros [Hacc|[Hin Hid]]%IH; [|right; split; [by right|done]].
    destruct (String.eqb (MID c) ""); [by left|]. apply lookup_insert_Some in Hacc as [[<- <-]|[_ ?]]; [|by left].
    right. split; [by left|done]. }
  intros [Hn|?]%Hall; [by rewrite lookup_empty in Hn|done].
Qed.

Section supervised.
Context `{AEAD} `{Hashes} `{TimeZoneDB} (job source : Z) (v0 : supervision).
Notation key := (job_key job).
Notation at_step sts i := (supervise job source (take i sts) v0).

(** An owner of the job chose this message in a step of the run. *)
Definition chosen (sts : list sstep) (m : Message) : Prop :=
  ∃ i userID jobID, sts !! i = Some (SChoose userID jobID (MID m)) ∧ job_key jobID = key
    ∧ is_ok (GetJob userID jobID (sv_db (at_step sts i))).2 = true.
Definition listed (sts : list sstep) (m : Message) : Prop :=
  ∃ cs, SAnswer (Ok cs) ∈ sts ∧ m ∈ cs.
(** A step of the run bound the source to this message. *)
Definition bound (sts : list sstep) (m : Message) : Prop :=
  ∃ i now s, sts !! i = Some (SThread now) ∧ sv_phase (at_step sts i) = Persisting m
    ∧ SystemPersistOTPSourcePairing job source (MChatGUID m) (MSender m) (MService m) now (sv_db (at_step sts i)) = (s, Ok tt).

Lemma chosen_mono sts more m : chosen sts m → chosen (sts ++ more) m.
Proof.
  intros (i & u & j & Hi & Hk & Hg). pose proof (lookup_lt_Some _ _ _ Hi). exists i, u, j.
  rewrite lookup_app_l, take_app_le by lia. done.
Qed.
Lemma offered_mono sts more m : listed sts m → listed (sts ++ more) m.
Proof. intros (cs & Hin & Hm). exists cs. split; [|done]. apply elem_of_app. by left. Qed.
Lemma bound_mono sts more m : bound sts m → bound (sts ++ more) m.
Proof.
  intros (i & now & s & Hi & Hp & Hs). pose proof (lookup_lt_Some _ _ _ Hi). exists i, now, s.
  rewrite lookup_app_l, take_app_le by lia. done.
Qed.

(** The waiter the thread made. *)
Definition waiting (sts : list sstep) (h : Hub) (cs : list Message) (p : nat) : Prop :=
  (p < h_next h)%nat ∧ SAnswer (Ok cs) ∈ sts
  ∧ (∀ k, h_pairings h !! k = Some p → k = key)
  ∧ ∃ w, h_pairing_waiters h !! p = Some w ∧ pw_candidates w = candidates_of cs
      ∧ ∀ m, pw_ch w = Some m → chosen sts m ∧ listed sts m.
Definition offered (sts : list sstep) (h : Hub) (p : nat) : Prop :=
  (∃ cs, waiting sts h cs p) ∧ ∀ q, h_pairings h !! key = Some q → q = p.
Definition good (sts : list sstep) (r : result Message) : Prop :=
  match r with Ok m => chosen sts m ∧ listed sts m | Err _ => True end.
Definition settled (sts : list sstep) (r : result Message) (selected : bool) : Prop :=
  selected = is_ok r ∧ match r with Ok m => chosen sts m ∧ listed sts m ∧ bound sts m | Err _ => True end.
Definition phase_ok (sts : list sstep) (h : Hub) (ph : phase) (selected : bool) : Prop :=
  match ph with
  | Asking => selected = false
  | Offering cs => selected = false ∧ SAnswer (Ok cs) ∈ sts
  | Publishing _ | Beginning => selected = false ∧ ∃ p, offered sts h p
  | Choosing p => selected = false ∧ ∃ cs, waiting sts h cs p
  | Leaving r | Left r => selected = false ∧ good sts r
  | Persisting m => selected = false ∧ good sts (Ok m)
  | Closing r | Closed r | Done r => settled sts r selected
  end.
Definition wait_inv (sts : list sstep) (v : supervision) : Prop :=
  hub_inv (sv_hub v) ∧ phase_ok sts (sv_hub v) (sv_phase v) (sv_selected v).

Lemma good_mono sts more r : good sts r → good (sts ++ more) r.
Proof. destruct r; [|done]. intros [? ?]. split; [by apply chosen_mono|by apply offered_mono]. Qed.
Lemma settled_mono sts more r b : settled sts r b → settled (sts ++ more) r b.
Proof.
  intros [? Hr]. split; [done|]. destruct r; [|done]. destruct Hr as (? & ? & ?).
  split_and!; [by apply chosen_mono|by apply offered_mono|by apply bound_mono].
Qed.
Lemma waiting_others sts more h h' cs p : waiting sts h cs p → others key h h' → waiting (sts ++ more) h' cs p.
Proof.
  intros (Hp & Hcs & Ht & w & Hw & Hc & Hch) Ho. pose proof (ot_next _ _ _ Ho). split_and!; [lia| | |].
  - apply elem_of_app. by left.
  - intros k [Hk|[Hge _]]%(ot_table _ _ _ Ho); [by apply Ht|lia].
  - exists w. rewrite (ot_waiters _ _ _ Ho) by done. split_and!; [done..|]. intros m [? ?]%Hch.
    split; [by apply chosen_mono|by apply offered_mono].
Qed.
Lemma phase_others sts more h h' ph b : phase_ok sts h ph b → others key h h' → phase_ok (sts ++ more) h' ph b.
Proof.
  intros Hph Ho. destruct ph; simpl in *; try (by apply settled_mono); try done.
  - destruct Hph. split; [done|]. apply elem_of_app. by left.
  - destruct Hph as [? (p & (cs & Hw) & Hq)]. split; [done|]. exists p. split; [exists cs; by eapply waiting_others|].
    intros q [Hk|[_ ?]]%(ot_table _ _ _ Ho); [by apply Hq|done].
  - destruct Hph as [? (p & (cs & Hw) & Hq)]. split; [done|]. exists p. split; [exists cs; by eapply waiting_others|].
    intros q [Hk|[_ ?]]%(ot_table _ _ _ Ho); [by apply Hq|done].
  - destruct Hph as [? (cs & Hw)]. split; [done|]. exists cs. by eapply waiting_others.
  - destruct Hph. split; [done|by apply good_mono].
  - destruct Hph. split; [done|by apply good_mono].
  - destruct Hph as [? Hg]. split; [done|by apply (good_mono sts more (Ok _))].
Qed.

Lemma phase_more sts more h ph b : phase_ok sts h ph b → phase_ok (sts ++ more) h ph b.
Proof. intros Hp. by eapply phase_others. Qed.

(** *** The thread *)

Lemma offer_step sts cs now v :
  v = supervise job source sts v0 → sv_phase v = Offering cs → wait_inv sts v →
  wait_inv (sts ++ [SThread now]) (thread_step job source now v).
Proof.
  intros _ Hph [Hh Hok]. unfold thread_step, wait_inv. rewrite Hph in *. destruct Hok as [Hsel Hcs].
  case_bool_decide; [by split|].
  pose proof (hub_exec_inv (HSetPairing key (candidates_of cs)) _ Hh) as Hh'. simpl in Hh'.
  unfold Hub_set_pairing in *. destruct (h_pairings (sv_hub v) !! key) eqn:Hk; [by split|]. simpl in *.
  split; [done|]. split; [done|]. exists (h_next (sv_hub v)). split.
  - exists cs. split_and!; [simpl; lia|apply elem_of_app; by left| |].
    + intros k Hp. simpl in Hp. apply lookup_insert_Some in Hp as [[<- _]|[_ Hp]]; [done|].
      apply (hi_pairing_table _ Hh) in Hp as [w Hw]. apply (hi_pairing_heap _ Hh) in Hw. lia.
    + eexists. simpl. rewrite lookup_insert_eq. by split_and!.
  - intros q Hq. simpl in Hq. rewrite lookup_insert_eq in Hq. congruence.
Qed.
Lemma choosing_step sts p now v :
  v = supervise job source sts v0 → sv_phase v = Choosing p → wait_inv sts v →
  wait_inv (sts ++ [SThread now]) (thread_step job source now v).
Proof.
  intros _ Hph [Hh Hok]. unfold thread_step, wait_inv. rewrite Hph in *.
  destruct Hok as [Hsel (cs & Hw)]. pose proof (hub_exec_inv (HWaitPairingTake p) _ Hh) as Hh'. simpl in Hh'.
  destruct (WaitPairing_take p (sv_hub v)) as [[h m]|] eqn:Ht.
  - split; [done|]. simpl. split; [done|]. apply (good_mono _ [SThread now] (Ok m)). unfold WaitPairing_take in Ht.
    destruct Hw as (_ & _ & _ & w & Hp & _ & Hch). rewrite Hp in Ht. simpl in Ht. destruct (pw_ch w) as [m'|] eqn:Hc; [|done].
    simpl in Ht. injection Ht as _ ->. by apply Hch.
  - split; [done|]. rewrite Hph. split; [done|]. exists cs. by eapply waiting_others.
Qed.
Lemma persist_step sts m now v :
  v = supervise job source sts v0 → sv_phase v = Persisting m → wait_inv sts v →
  wait_inv (sts ++ [SThread now]) (thread_step job source now v).
Proof.
  intros Hv Hph [Hh Hok]. unfold thread_step, wait_inv. rewrite Hph in *. destruct Hok as [Hsel Hg].
  destruct (SystemPersistOTPSourcePairing _ _ _ _ _ _ _) as [s [[]|e]] eqn:Hs; (split; [done|]); simpl; split; try done.
  apply (good_mono _ [SThread now] (Ok m)) in Hg as [Hc Hl]. split_and!; [done..|].
  exists (List.length sts), now, s. rewrite take_app_length, <- Hv. split_and!; [|done|done].
  by rewrite lookup_app_r, Nat.sub_diag.
Qed.
Lemma thread_inv sts now v :
  v = supervise job source sts v0 → wait_inv sts v → wait_inv (sts ++ [SThread now]) (thread_step job source now v).
Proof.
  intros Hv Hinv. destruct (sv_phase v) as [|cs|cs| |p|r|r|m|r|r|r] eqn:Hph;
    [|by eapply offer_step| | |by eapply choosing_step| | |by eapply persist_step| | |];
    destruct Hinv as [Hh Hok]; unfold thread_step, wait_inv; rewrite Hph in *; simpl.
  - rewrite Hph. by split.
  - split; [by apply Publish_inv|]. apply (phase_others sts _ (sv_hub v) _ Beginning _ Hok), others_publish.
  - destruct Hok as [Hsel (p & Hw & Hq)]. unfold WaitPairing_begin. destruct (h_pairings (sv_hub v) !! key) as [q|] eqn:Hk; simpl.
    + rewrite (Hq q eq_refl). split; [done|]. split; [done|]. destruct Hw as [cs Hw]. exists cs. by eapply waiting_others.
    + by split.
  - split; [by apply (hub_exec_inv (HClearPairing key))|]. destruct Hok. split; [done|by apply good_mono].
  - split; [by apply Publish_inv|]. destruct Hok as [Hsel Hg]. apply (good_mono _ [SThread now]) in Hg. by destruct r.
  - split; [by apply (hub_exec_inv (HClearPairing key))|]. by apply settled_mono.
  - split; [by apply Publish_inv|]. by apply settled_mono.
  - rewrite Hph. split; [done|]. by apply settled_mono.
Qed.

(** *** A choice *)

Lemma choose_inv sts userID jobID id v :
  v = supervise job source sts v0 → wait_inv sts v →
  wait_inv (sts ++ [SChoose userID jobID id]) (sstep_exec job source (SChoose userID jobID id) v).
Proof.
  intros Hv [Hh Hok]. unfold wait_inv. simpl. unfold ChoosePairing, call_or_fail.
  rewrite ST_bind_unfold. cbn [e_db]. destruct (GetJob userID jobID (sv_db v)) as [s [j|e]] eqn:Hg; simpl.
  2: { split; [done|]. by apply phase_more. }
  unfold hub_choose, with_engine_hub. simpl. pose proof (hub_exec_inv (HChoosePairing (job_key jobID) id) _ Hh) as Hh'. simpl in Hh'.
  destruct (Hub.ChoosePairing (job_key jobID) id (sv_hub v)) as [[h r]|] eqn:Hc; simpl; [|split; [done|by apply phase_more]].
  split; [done|]. unfold Hub.ChoosePairing in Hc.
  destruct (h_pairings (sv_hub v) !! job_key jobID) as [p|] eqn:Hp; [|injection Hc as <- _; by apply phase_more].
  destruct (h_pairing_waiters (sv_hub v) !! p) as [w|] eqn:Hw; [|done].
  destruct (pw_selected w); [injection Hc as <- _; by apply phase_more|].
  destruct (pw_candidates w !! id) as [m|] eqn:Hm; [|injection Hc as <- _; by apply phase_more].
  destruct (pw_ch w); [done|]. injection Hc as <- _.
  set (h := set_pairing_waiters _ _). set (st := SChoose userID jobID id).
  assert (∀ cs q, waiting sts (sv_hub v) cs q → waiting (sts ++ [st]) h cs q) as Hkeep.
  { intros cs q (Hq & Hcs & Ht & x & Hx & Hxc & Hch). split_and!; [done|apply elem_of_app; by left|done|].
    destruct (decide (q = p)) as [->|Hne].
    - rewrite Hw in Hx. injection Hx as <-. eexists. unfold h. simpl. rewrite lookup_insert_eq. split_and!; [done|done|].
      simpl. intros m' [= <-]. rewrite Hxc in Hm. apply candidates_of_spec in Hm as [Hin <-]. split.
      + exists (List.length sts), userID, jobID. rewrite take_app_length, <- Hv, Hg. split_and!; [|by apply Ht|done].
        by rewrite lookup_app_r, Nat.sub_diag.
      + exists cs. split; [apply elem_of_app; by left|done].
    - exists x. unfold h. simpl. rewrite lookup_insert_ne by done. split_and!; [done..|]. intros m' [? ?]%Hch.
      split; [by apply chosen_mono|by apply offered_mono]. }
  assert (∀ q, offered sts (sv_hub v) q → offered (sts ++ [st]) h q) as Hoff.
  { intros q [(cs & Hwt) Hq]. split; [exists cs; by apply Hkeep|done]. }
  destruct (sv_phase v); simpl in *; try (by apply settled_mono); try done.
  - destruct Hok. split; [done|]. apply elem_of_app. by left.
  - destruct Hok as [? (q & Hq)]. split; [done|]. exists q. by apply Hoff.
  - destruct Hok as [? (q & Hq)]. split; [done|]. exists q. by apply Hoff.
  - destruct Hok as [? (cs & Hq)]. split; [done|]. exists cs. by apply Hkeep.
  - destruct Hok. split; [done|by apply good_mono].
  - destruct Hok. split; [done|by apply good_mono].
  - destruct Hok as [? Hgd]. split; [done|by apply (good_mono sts [st] (Ok _))].
Qed.

Lemma sstep_inv sts st :
  wait_inv sts (supervise job source sts v0) → wait_inv (sts ++ [st]) (supervise job source (sts ++ [st]) v0).
Proof.
  unfold supervise at 2. rewrite foldl_app. simpl. fold (supervise job source sts v0).
  remember (supervise job source sts v0) as v eqn:Hv. intros Hinv. destruct st; [|by apply thread_inv| |by apply choose_inv| |];
    destruct Hinv as [Hh Hok]; unfold wait_inv; simpl.
  - assert (wait_inv (sts ++ [SAnswer candidates]) v) as Hsame by (split; [done|by apply phase_more]).
    destruct (sv_phase v) eqn:Hph; destruct candidates as [cs|e]; try exact Hsame; simpl in *; split; try done.
    split; [done|]. apply elem_of_app. right. by left.
  - assert (wait_inv (sts ++ [SCancelled e]) v) as Hsame by (split; [done|by apply phase_more]).
    destruct (sv_phase v) eqn:Hph; try exact Hsame. split; [done|]. by destruct Hok.
  - split; [done|]. by apply phase_more.
  - destruct (foreign job o) eqn:Hf; simpl.
    + split; [by apply hub_exec_inv|]. eapply phase_others; [done|by apply foreign_others].
    + split; [done|by apply phase_more].
Qed.
Lemma supervise_inv sts : wait_inv [] v0 → wait_inv sts (supervise job source sts v0).
Proof.
  intros Hstart. induction sts as [|st sts IH] using rev_ind; [done|]. by apply sstep_inv.
Qed.
End supervised.

Lemma GetJob_owner uid id s : is_ok (GetJob uid id s).2 = true → ∃ j, jobs s !! id = Some j ∧ JUserID j = uid.
Proof.
  destruct (GetJob uid id s) as [s' [j|e]] eqn:Hrun; [|done]. intros _. unfold GetJob, scan_job, owned_job in Hrun. inv_ok.
  match goal with H : (_ ≫= _) = Some j |- _ => apply bind_Some in H as (row & Hrow & Hif) end.
  destruct (Z.eqb_spec (JUserID row) uid); [|done]. injection Hif as ->. eauto.
Qed.
Lemma persist_Ok jobID sid chat sender service now s s' u :
  SystemPersistOTPSourcePairing jobID sid chat sender service now s = (s', Ok u) →
  ∃ j row, jobs s !! jobID = Some j ∧ JStatus j = JobRunning ∧ JCancelRequested j = false ∧ JOTPSourceID j = sid
    ∧ has_prefix (JDedupKey j) (pairing_prefix sid) = true
    ∧ sources s' !! sid = Some row ∧ OSPairingChatGUID (sr_source row) = trim_space chat
    ∧ OSPairingSender (sr_source row) = trim_space sender ∧ OSPairingService (sr_source row) = trim_space service.
Proof.
  unfold SystemPersistOTPSourcePairing. cbv zeta. intros Hrun.
  apply ST_bind_Ok in Hrun as (s1 & u1 & [-> _]%st_reject_Ok & Hrun).
  apply ST_bind_Ok in Hrun as (s1 & src & Hsrc & Hrun).
  assert (s1 = s) as -> by (unfold SystemGetOTPSource in Hsrc; by inv_ok).
  apply ST_bind_Ok in Hrun as (s1 & u2 & [-> _]%lift_Ok & Hrun).
  apply ST_bind_Ok in Hrun as (s1 & row & [-> ->]%gets_Ok & Hrun).
  apply ST_bind_Ok in Hrun as (s1 & running & [-> ->]%gets_Ok & Hrun).
  destruct (sources s !! sid) as [old|]; [|done]. destruct (bool_decide _); [|done]. simpl in Hrun.
  destruct (pairing_job_running jobID sid (OSUserID src) s) eqn:Hr; [|done].
  apply ST_bind_Ok in Hrun as (s1 & unique & [-> _]%gets_Ok & Hrun).
  apply ST_bind_Ok in Hrun as (s1 & u3 & [-> _]%st_reject_Ok & ->%modify_Ok).
  unfold pairing_job_running in Hr. destruct (jobs s !! jobID) as [j|]; [|done]. bool_to_prop.
  exists j. eexists. split; [done|]. split; [done|]. split; [done|]. split; [lia|]. split; [done|].
  split; [simpl; apply lookup_insert_eq|]. by split_and!.
Qed.

(** The code of a supervised pairing is the one its owner chose.  In every interleaving
    of the wait with the store, the hub and other users, a message the wait returns is one the
    provider listed; an account that owned the job chose it by its id; and before it was
    returned the source was bound to its chat, sender and service, at a moment when the
    pairing job was running with that source and not cancelled.  The run then knows that a
    message was selected, and only then. *)
Theorem supervised_code_was_chosen `{AEAD} `{Hashes} `{TimeZoneDB} job source s ops sts r :
  sv_phase (supervise job source sts (asking s (hub_run ops NewHub))) = Done r →
  let at_step i := sv_db (supervise job source (take i sts) (asking s (hub_run ops NewHub))) in
  sv_selected (supervise job source sts (asking s (hub_run ops NewHub))) = is_ok r ∧
  ∀ m, r = Ok m →
    (∃ cs, SAnswer (Ok cs) ∈ sts ∧ m ∈ cs) ∧
    (∃ i userID jobID j, sts !! i = Some (SChoose userID jobID (MID m)) ∧ job_key jobID = job_key job
      ∧ jobs (at_step i) !! jobID = Some j ∧ JUserID j = userID) ∧
    (∃ i j row, (i < List.length sts)%nat ∧ jobs (at_step i) !! job = Some j ∧ JStatus j = JobRunning
      ∧ JCancelRequested j = false ∧ JOTPSourceID j = source ∧ has_prefix (JDedupKey j) (pairing_prefix source) = true
      ∧ sources (at_step (S i)) !! source = Some row ∧ OSPairingChatGUID (sr_source row) = trim_space (MChatGUID m)
      ∧ OSPairingSender (sr_source row) = trim_space (MSender m) ∧ OSPairingService (sr_source row) = trim_space (MService m)).
Proof.
  intros Hdone. cbv zeta. set (v0 := asking s (hub_run ops NewHub)) in *.
  destruct (supervise_inv job source v0 sts) as [_ Hok].
  { split; [apply hub_run_inv, NewHub_inv|done]. }
  rewrite Hdone in Hok. destruct Hok as [Hsel Hr]. split; [done|]. intros m ->.
  destruct Hr as ((i & userID & jobID & Hi & Hk & Hg%GetJob_owner) & Hl & (n & now & s' & Hn & Hph & Hs)).
  split; [done|]. split.
  - destruct Hg as (j & Hj & Hu). by exists i, userID, jobID, j.
  - pose proof Hs as (j & row & Hj & Hst & Hcr & Hsrc & Hkey & Hrow & Hp)%persist_Ok.
    exists n, j, row. split; [by eapply lookup_lt_Some|]. split_and!; try done; try apply Hp.
    rewrite (take_S_r _ _ _ Hn). unfold supervise. rewrite foldl_app. fold (supervise job source (take n sts) v0).
    simpl. unfold thread_step. rewrite Hph, Hs. done.
Qed.

(** ** Witnesses: a BlueBubbles source that is paired *)

Definition pairing_ops : list op :=
  (setup_ops ++ [OpCreateOTPSource 1 (MkSourceInput "mac" OTPProviderBlueBubbles "https://bb.example"
     (Some (JObject [("password", JString "secret")])) true "" "" "") "0123456789ab" t0])%list.
Definition pairing_db : db := run pairing_ops empty_db.
Definition yodel_origins : list string := ["https://yodelportal.com"].
Definition paired_once : db * result Job := QueuePairing yodel_origins 1 2 [] sample_clock pairing_db.
Definition pairing_running_db : db := (SystemClaimNextDueJobAt "worker" t0 paired_once.1).1.

Lemma pairing_is_queued_once_witness :
  (∃ j, paired_once.2 = Ok j ∧ jobs paired_once.1 !! JID j = Some j ∧ pending_pairing 2 j = true)
  ∧ (QueuePairing yodel_origins 1 2 [1] sample_clock paired_once.1).2 = Err (Sentinel ErrConflict).
Proof.
  assert (is_ok paired_once.2 = true) as Hok by (vm_compute; reflexivity).
  pose proof (pairing_is_queued_once yodel_origins 1 2 false [] sample_clock pairing_db
    (proj1 (reachable_inv _ (reachable_run pairing_ops))) ltac:(lia)) as Hfirst.
  change (queuePairing yodel_origins 1 2 false [] sample_clock pairing_db) with paired_once in Hfirst.
  split; [|vm_compute; reflexivity].
  destruct paired_once as [s' [j|e]]; [|discriminate Hok]. exists j. split; [reflexivity|]. split; apply Hfirst.
Defined.

Definition pairing_message : Message :=
  MkMessage "g-11" "482913" "+16045550100" "" "chat-1" "iMessage" t0 11.
Definition pairing_steps : list sstep :=
  [SAnswer (Ok [pairing_message]); SThread t0; SThread t0; SThread t0; SChoose 1 1 "g-11"]
  ++ replicate 6 (SThread t0).
Lemma supervised_code_was_chosen_witness :
  sv_selected (supervise 1 2 pairing_steps (asking pairing_running_db (hub_run [] NewHub))) = true
  ∧ ∃ i userID jobID j, pairing_steps !! i = Some (SChoose userID jobID "g-11") ∧ JUserID j = userID.
Proof.
  assert (sv_phase (supervise 1 2 pairing_steps (asking pairing_running_db (hub_run [] NewHub))) = Done (Ok pairing_message))
    as Hdone by (vm_compute; reflexivity).
  destruct (supervised_code_was_chosen 1 2 pairing_running_db [] pairing_steps (Ok pairing_message) Hdone) as [Hsel Hall].
  split; [exact Hsel|]. destruct (Hall pairing_message eq_refl) as (_ & (i & u & k & j & Hi & _ & _ & Hu) & _).
  exists i, u, k, j. split; [exact Hi|exact Hu].
Defined.
