(* ===== verification/Execution.v ===== *)
(** * A run against the store (src/internal/engine/engine.go, [executeWithBudgets])

    The hooks of a run are store calls on its job.  An execution interleaves the steps
    of the coordinator with everything else that happens meanwhile: store calls by other
    goroutines and requests, decisions and cancellations by owners, the engine's own
    monitor, and the sections of the hub other users run (which is also where the hook
    that observes events publishes them, at any moment after).  The coordinator's
    environment is arbitrary, except that a hook answers what the store answers: a step
    whose recorded answers differ does not happen. *)

From S2P Require Import Prelude GoStrings GoTime Json Secrets Redaction Auth Origin Domain Scheduler Database.
From S2P Require Import JobStore EventStore ResourceStore ProfileStore SettingsStore AccountStore.
From S2P Require Import JobInvariants JobOperations JobHistory AccountInvariants ResourceInvariants SystemInvariants.
From S2P Require Import System Otp Hub BookingQueue ActionProc Coordinator Worker.
From Stdlib Require Import Ascii String.

Open Scope Z_scope.

Section execution.
Context `{AEAD} `{Hashes} `{TimeZoneDB}.

(** ** The hooks *)

Section hooks.
Context (job : Z).

Definition awaiting_message (pass : PassType) : string :=
  "Waiting for approval: " +:+ replace_byte "_" "-" (PassType_string pass) +:+ " pass.".
Definition AwaitingApproval (pass : PassType) (now : Time) : ST db unit :=
  _ ← SystemTransitionJob sanitizeText job [JobRunning] JobAwaitingApproval (MkTransition (awaiting_message pass) None false) now;
  mret tt.
Definition ApprovalResolved (decision : ApprovalDecision) (now : Time) : ST db unit :=
  if negb (bool_decide (decision = DecisionApprove)) then mret tt
  else
    _ ← SystemTransitionJob sanitizeText job [JobAwaitingApproval] JobRunning
          (MkTransition "Approval received; final confirmation is resuming." None false) now;
    mret tt.
Definition ConfirmationStarting (now : Time) : ST db unit := SystemMarkConfirmationStarted job now.
(** [e.event]: a failure is only logged. *)
Definition EventHook (kind message : string) (now : Time) : ST db unit := λ s,
  ((SystemAppendJobEvent (event_of job kind message) now s).1, Ok tt).

(** The store call an effect of the coordinator is, with the answer it recorded. *)
Definition hook_call (now : Time) (e : effect) : option (ST db unit * option error) :=
  match e with
  | EHookAwaitingApproval _ pass answer => Some (AwaitingApproval pass now, answer)
  | EHookApprovalResolved decision answer => Some (ApprovalResolved decision now, answer)
  | EHookConfirmationStarting answer => Some (ConfirmationStarting now, answer)
  | EHookEvent kind message => Some (EventHook kind message now, None)
  | _ => None
  end.
Definition error_of (r : result unit) : option error := match r with Ok _ => None | Err e => Some e end.
(** The calls of a step in their order; [None] if one answers otherwise than recorded. *)
Fixpoint replay (now : Time) (es : list effect) (s : db) : option db :=
  match es with
  | [] => Some s
  | e :: es =>
      match hook_call now e with
      | None => replay now es s
      | Some (call, answer) =>
          let '(s', r) := call s in if bool_decide (error_of r = answer) then replay now es s' else None
      end
  end.
End hooks.

(** ** The execution *)

Record world := MkWorld {
  w_db : db;
  w_active : gmap Z (option error);
  w_run : runState;
  w_result : option (result RunResult)
}.
Definition engine_of (w : world) : engineState := MkEngine (w_db w) (r_hub (w_run w)) (w_active w).
Definition with_engine (e : engineState) (w : world) : world :=
  MkWorld (e_db e) (e_active e) (with_hub (e_hub e) (w_run w)) (w_result w).

Inductive wstep :=
  | WRun (env : Env) (now : Time) (ev : Coordinator.event)
  | WStore (o : op)
  | WDecide (userID jobID : Z) (decision : ApprovalDecision) (now : Time)
  | WCancel (userID jobID : Z) (now : Time)
  | WMonitor (jobID : Z)
  | WHub (op : hub_op).

Definition is_hub_event (ev : Coordinator.event) : bool := match ev with EvHub _ => true | _ => false end.
(** Only [Engine.Decide] decides. *)
Definition is_decision (op : hub_op) : bool := match op with HDecide _ _ => true | _ => false end.
Definition new_effects (r r' : runState) : list effect := drop (List.length (r_trace r)) (r_trace r').

Section run.
Context (input : RunInput).

Definition finished_run (r : runState) (o : result (option RunResult)) : runState * option (result RunResult) :=
  match o with
  | Ok None => (r, None)
  | Ok (Some res) => (deferred (with_defaults input) r, Some (returned r (Ok res)))
  | Err e => (deferred (with_defaults input) r, Some (returned r (Err e)))
  end.
Definition run_step (env : Env) (now : Time) (ev : Coordinator.event) (w : world) : world :=
  if is_some (w_result w) || is_hub_event ev || negb (enabled (w_run w) ev) then w
  else
    let '(r, o) := step (with_defaults input) env ev (w_run w) in
    match replay (RI_JobID input) now (new_effects (w_run w) r) (w_db w) with
    | None => w
    | Some s => let '(r', result) := finished_run r o in MkWorld s (w_active w) r' result
    end.
Definition wexec (st : wstep) (w : world) : world :=
  match st with
  | WRun env now ev => run_step env now ev w
  | WStore o => MkWorld (exec o (w_db w)) (w_active w) (w_run w) (w_result w)
  | WDecide userID jobID decision now => with_engine (Decide userID jobID decision now (engine_of w)).1 w
  | WCancel userID jobID now => with_engine (CancelJob userID jobID now (engine_of w)).1 w
  | WMonitor jobID => with_engine (monitorCancellation jobID (engine_of w)).1 w
  | WHub op =>
      if is_decision op then w
      else MkWorld (w_db w) (w_active w) (with_hub (hub_exec op (r_hub (w_run w))) (w_run w)) (w_result w)
  end.
Definition wrun (sts : list wstep) (w : world) : world := foldl (λ w st, wexec st w) w sts.
Definition started (s : db) (h : Hub) (active : gmap Z (option error)) : world :=
  MkWorld s active (initial h false) None.
End run.
End execution.
