(* ===== verification/ExecutionProperties.v ===== *)
(** * What an execution guarantees together with the store and the hub

    The browser clicks only after the durable mark, and only after the owner's approval
    was stored, in every interleaving of the execution with the rest of the system. *)

From S2P Require Import Prelude GoStrings GoTime Json Secrets Redaction Auth Origin Domain Scheduler Database.
From S2P Require Import JobStore Samples EventStore JobLemmas ResourceStore ProfileStore SettingsStore AccountStore.
From S2P Require Import JobInvariants JobOperations JobHistory AccountInvariants ResourceInvariants SystemInvariants.
From S2P Require Import System SystemHistory SystemSamples RunProperties JobProperties Otp Hub HubProperties BookingQueue ActionProc.
From S2P Require Import Coordinator CoordinatorInvariants CoordinatorProperties Worker WorkerProperties Execution.
From Stdlib Require Import Ascii String.

Open Scope Z_scope.

(** ** The steps of the loop only add to the trace *)

Section loop_kept.
Context {i : RunInput} {I : runState → Prop} `{HI : !run_kept i I}.
Context (I_reported : ∀ e r, I r → I (with_effect e r)) (I_hub : ∀ h r, I r → I (with_hub h r))
  (I_waits : ∀ f r, I r → I (with_waits f r)) (I_async : ∀ f r, I r → I (with_async f r))
  (I_streams : ∀ a b c d r, I r → I (with_streams a b c d r)) (I_process : ∀ p r, I r → I (with_process p r)).

Lemma step_keeps env ev : preserves I (step i env ev).
Proof using All.
  destruct ev; cbn [step]; unfold on_hub, end_wait, deliver;
    repeat first
      [ apply preserves_ret | apply preserves_gets | apply preserves_fail
      | apply cancelChallenges_keeps | apply negotiate_keeps | apply results_keep
      | apply preserves_modify; intros; by auto
      | apply preserves_bind; intros
      | match goal with |- preserves _ (if ?b then _ else _) => destruct b end
      | match goal with |- preserves _ (match ?x with _ => _ end) => destruct x end ].
  intros r Hr. pose proof (handleFrame_keeps (i := i) env frame r Hr) as H1.
  destruct (handleFrame i env frame r) as [r' [u|e]]; [exact H1|]. by apply I_reported.
Qed.
End loop_kept.

Lemma step_extends i env ev r :
  r_trace (step i env ev r).1 = (r_trace r ++ new_effects r (step i env ev r).1)%list.
Proof.
  assert (∃ new, r_trace (step i env ev r).1 = (r_trace r ++ new)%list) as (new & Hn).
  { set (I := λ s : runState, ∃ new, r_trace s = (r_trace r ++ new)%list).
    assert (∀ e s, I s → I (with_effect e s)) as He.
    { intros e s [new Hs]. exists (new ++ [e])%list. simpl. by rewrite Hs, app_assoc. }
    assert (run_kept i I) as HI by (split; auto).
    apply (step_keeps (I := I)); auto. exists []. by rewrite app_nil_r. }
  unfold new_effects. by rewrite Hn, drop_app_length.
Qed.
Lemma finished_run_extends i r o : ∃ cancels, r_trace (finished_run i r o).1 = (r_trace r ++ cancels)%list
  ∧ Forall (λ e, ∃ id, e = ECancelChallenge id) cancels.
Proof.
  assert (∃ cancels, r_trace (deferred i r) = (r_trace r ++ cancels)%list ∧ Forall (λ e, ∃ id, e = ECancelChallenge id) cancels) as Hd.
  { eexists. split; [apply cancelChallenges_trace|]. apply Forall_fmap, Forall_true. intros kv. simpl. eauto. }
  destruct o as [[res|]|e]; simpl; [exact Hd| |exact Hd]. exists []. by rewrite app_nil_r.
Qed.

Section marks.
Context `{AEAD} `{Hashes} `{TimeZoneDB}.

(** ** Every change of the database is a sequence of store calls *)

Definition by_store (s s' : db) : Prop := ∃ ops, s' = run ops s.
Lemma by_store_refl s : by_store s s.
Proof. by exists []. Qed.
Lemma by_store_one o s : by_store s (exec o s).
Proof. by exists [o]. Qed.
Lemma by_store_trans s1 s2 s3 : by_store s1 s2 → by_store s2 s3 → by_store s1 s3.
Proof. intros [o1 ->] [o2 ->]. exists (o1 ++ o2)%list. unfold run. by rewrite foldl_app. Qed.
Lemma by_store_inv s s' : by_store s s' → system_inv s → system_inv s'.
Proof. intros [ops ->]. apply run_system_inv. Qed.

Lemma ret_state {A B} (m : ST db A) (b : B) s : ((_ ← m; mret b) s).1 = (m s).1.
Proof. rewrite ST_bind_unfold. by destruct (m s) as [s' [a|e]]. Qed.

Lemma hook_by_store job now e call answer s :
  hook_call job now e = Some (call, answer) → by_store s (call s).1.
Proof using All.
  destruct e; intros [= <- <-].
  - apply (by_store_one (OpSystemAppendJobEvent (event_of job kind message) now)).
  - unfold AwaitingApproval. rewrite ret_state. eapply (by_store_one (OpSystemTransitionJob _ _ _ _ _)).
  - unfold ApprovalResolved. destruct (negb _); [apply by_store_refl|]. rewrite ret_state.
    eapply (by_store_one (OpSystemTransitionJob _ _ _ _ _)).
  - apply (by_store_one (OpSystemMarkConfirmationStarted job now)).
Qed.
Lemma replay_by_store job now es s s' : replay job now es s = Some s' → by_store s s'.
Proof using All.
  revert s. induction es as [|e es IH]; intros s; simpl; [intros [= <-]; apply by_store_refl|].
  destruct (hook_call job now e) as [[call answer]|] eqn:Hc; [|apply IH].
  pose proof (hook_by_store _ _ _ _ _ s Hc) as Hb1. destruct (call s) as [s1 r].
  destruct (bool_decide _); [|done]. intros Hb2%IH. by eapply by_store_trans.
Qed.

(** ** The mark of a job *)

Definition marked (job : Z) (s : db) : Prop :=
  job < next_job s ∧ ∀ j, jobs s !! job = Some j → is_some (JConfirmationStartedAt j) = true.

Lemma marked_by_store job s s' : system_inv s → by_store s s' → marked job s → marked job s'.
Proof using All.
  intros Hs [ops ->] [Hlt Hm]. pose proof (run_evolves ops s Hs) as He. split.
  - pose proof (ev_next _ _ _ _ He). lia.
  - intros j' Hj'. destruct (jobs s !! job) as [j|] eqn:Hj.
    + destruct (ev_job _ _ _ _ He job j Hj) as [Hn|(j2 & Hj2 & Hstep)]; [congruence|].
      rewrite Hj' in Hj2. injection Hj2 as <-. specialize (Hm j eq_refl).
      destruct (JConfirmationStartedAt j) as [t|] eqn:Ht; [|done]. by rewrite (rs_confirmation _ _ Hstep t Ht).
    + apply (ev_fresh _ _ _ _ He job j' Hj') in Hj. lia.
Qed.
Lemma mark_marks job now s s' :
  system_inv s → SystemMarkConfirmationStarted job now s = (s', Ok tt) → marked job s'.
Proof using All.
  intros Hs Hm. pose proof (by_store_inv s s' ltac:(eexists [OpSystemMarkConfirmationStarted job now]; simpl; by rewrite Hm) Hs) as [Hs' _].
  destruct Hs as [Hdb _]. unfold SystemMarkConfirmationStarted in Hm. inv_ok.
  match goal with H : map_err _ _ _ = (_, Ok ?o) |- _ => apply map_err_inv_Ok in H;
    apply update_job_Ok in H; [rename H into Hupd|done|done]; rename o into r end.
  destruct r as [new|]; [|done]. destruct Hupd as (j & Hj & Hw & -> & Hnew). split.
  - by apply (inv_job_key _ Hs') in Hnew as [_ ?].
  - intros j' Hj'. rewrite Hnew in Hj'. injection Hj' as <-. simpl. by destruct (JConfirmationStartedAt j).
Qed.
Lemma replay_marks job now es s s' :
  system_inv s → replay job now es s = Some s' →
  marked job s ∨ EHookConfirmationStarting None ∈ es → marked job s'.
Proof using All.
  revert s. induction es as [|e es IH]; intros s Hs Hr Hm; simpl in Hr.
  - injection Hr as <-. by destruct Hm as [|?%not_elem_of_nil].
  - destruct (hook_call job now e) as [[call answer]|] eqn:Hc.
    + pose proof (hook_by_store _ _ _ _ _ s Hc) as Hb. destruct (call s) as [s1 r] eqn:Hcall.
      case_bool_decide as Ha; [|done]. apply IH in Hr; [done|by eapply by_store_inv|].
      destruct Hm as [Hm|[<-|Hin]%elem_of_cons]; [left; by eapply marked_by_store| |by right].
      left. simpl in Hc. injection Hc as <- <-. unfold ConfirmationStarting in Hcall. destruct r as [[]|x]; [|done].
      by eapply mark_marks.
    + apply IH in Hr; [done|done|]. destruct Hm as [|[<-|]%elem_of_cons]; auto; done.
Qed.

(** ** The decision of a job *)

Definition decided (job : Z) (d : ApprovalDecision) (s : db) : Prop :=
  job < next_job s ∧ ∀ j, jobs s !! job = Some j → ∃ r, decisions s !! job = Some r ∧ DDecision r = d.

Lemma decided_by_store job d s s' : system_inv s → by_store s s' → decided job d s → decided job d s'.
Proof using All.
  intros Hs [ops ->] [Hlt Hd]. pose proof (run_evolves ops s Hs) as He. split.
  - pose proof (ev_next _ _ _ _ He). lia.
  - intros j' Hj'. destruct (jobs s !! job) as [j|] eqn:Hj.
    + destruct (Hd j eq_refl) as (r & Hr & Hrd). exists r. split; [|done].
      destruct (run_keeps_decision ops s job r Hs Hr) as [Hn|?]; [congruence|done].
    + apply (ev_fresh _ _ _ _ He job j' Hj') in Hj. lia.
Qed.
Lemma record_decides uid id d now s :
  system_inv s → is_ok (RecordJobDecision uid id d now s).2 = true →
  ApprovalDecision_Valid d = true ∧ decided id d (RecordJobDecision uid id d now s).1.
Proof using All.
  intros Hs Hok. pose proof (exec_system_inv (OpRecordJobDecision uid id d now) s Hs) as [Hs' _]. cbn [exec] in Hs'.
  destruct (RecordJobDecision uid id d now s) as [s' [r|e]] eqn:Hr; [|done]. simpl in *.
  unfold RecordJobDecision in Hr. inv_ok.
  match goal with H : _ = (s', Ok r) |- _ => rename H into Hr end.
  destruct (GetJobDecision uid id _).2 as [r'|e] eqn:Hget in Hr; [|by destruct (negb (errors_is e ErrNotFound)) in Hr].
  case_bool_decide as Hd; [|done]. inv_ok. split; [by bool_to_prop|]. set (s' := insert_decision _ _ _ _ _) in *.
  assert (decisions s' !! id = Some r) as Hrow.
  { unfold GetJobDecision, st_reject, lift in Hget. rewrite !ST_bind_unfold in Hget. destruct (reject _ _); [|done].
    simpl in Hget. destruct (decisions s' !! id) as [r'|]; [|done]. simpl in Hget. destruct (_ =? _); naive_solver. }
  destruct (inv_decision _ Hs' id r Hrow) as (_ & j & Hj & _). apply (inv_job_key _ Hs') in Hj as [_ ?]. split; [done|]. eauto.
Qed.

(** ** The state of an execution *)

Record world_inv (input : RunInput) (w : world) : Prop := MkWorldInv {
  wi_db : system_inv (w_db w);
  wi_run : run_inv (with_defaults input) (w_run w);
  wi_mark : EHookConfirmationStarting None ∈ r_trace (w_run w) → marked (RI_JobID input) (w_db w)
}.

Lemma deferred_inv i r : run_inv i r → run_inv i (deferred i r).
Proof using Type. intros Hr. apply (cancelChallenges_inv i) in Hr. by destruct Hr. Qed.
Lemma run_step_inv input env now ev w : world_inv input w → world_inv input (run_step input env now ev w).
Proof using All.
  intros [Hdb Hrun Hmark]. unfold run_step. destruct (is_some (w_result w) || is_hub_event ev || negb (enabled (w_run w) ev)) eqn:Hg; [done|].
  apply orb_false_iff in Hg as [_ Hen]. apply negb_false_iff in Hen.
  pose proof (step_inv (with_defaults input) env ev (w_run w) Hen Hrun) as Hstep.
  pose proof (step_extends (with_defaults input) env ev (w_run w)) as Htr.
  destruct (step (with_defaults input) env ev (w_run w)) as [r o]. simpl in Hstep, Htr.
  destruct (replay _ _ _ _) as [s|] eqn:Hr; [|done].
  pose proof (finished_run_extends input r o) as (cancels & Htr2 & Hcan).
  assert (run_inv (with_defaults input) (finished_run input r o).1) as Hfin.
  { destruct o as [[res|]|e]; simpl; try apply deferred_inv; done. }
  destruct (finished_run input r o) as [r' result]. simpl in *. split; simpl; [|done|].
  - eapply by_store_inv; [by eapply replay_by_store|done].
  - rewrite Htr2, Htr. intros [[Hin|Hin]%elem_of_app|Hin]%elem_of_app.
    + eapply replay_marks; eauto.
    + eapply replay_marks; eauto.
    + rewrite Forall_forall in Hcan. by destruct (Hcan _ Hin).
Qed.

Lemma engine_inv input w e : by_store (w_db w) (e_db e) → world_inv input w → world_inv input (with_engine e w).
Proof using All.
  intros Hb [Hdb [] Hmark]. split; simpl; [by eapply by_store_inv|by split|].
  intros Hin. eapply marked_by_store; eauto.
Qed.
(** [Engine.Decide] is the store's call, and the hub's if the store accepted. *)
Lemma Decide_parts uid id d now e :
  e_db (Decide uid id d now e).1 = (RecordJobDecision uid id d now (e_db e)).1
  ∧ e_hub (Decide uid id d now e).1 =
      if is_ok (RecordJobDecision uid id d now (e_db e)).2
      then hub_exec (HDecide (job_key id) (ApprovalDecision_string d)) (e_hub e) else e_hub e.
Proof using Type.
  unfold Decide. rewrite ST_bind_unfold. unfold call_or_fail.
  destruct (RecordJobDecision uid id d now (e_db e)) as [s [x|x]]; [|done].
  unfold ignoring, hub_decide. simpl. by destruct (Hub.Decide _ _ _) as [[h [u|x']]|].
Qed.
Lemma Decide_by_store uid id d now e : by_store (e_db e) (e_db (Decide uid id d now e).1).
Proof using All. rewrite (proj1 (Decide_parts uid id d now e)). apply (by_store_one (OpRecordJobDecision uid id d now)). Qed.
Lemma CancelJob_by_store uid id now e : by_store (e_db e) (e_db (CancelJob uid id now e).1).
Proof using All.
  unfold CancelJob. rewrite ST_bind_unfold. unfold call_or_fail at 1.
  assert (GetJob uid id (e_db e) = (e_db e, (GetJob uid id (e_db e)).2)) as ->.
  { unfold GetJob, st_reject, lift. rewrite ST_bind_unfold. by destruct (reject _ _). }
  destruct (GetJob uid id (e_db e)).2 as [j|x]; [|apply by_store_refl].
  rewrite ST_bind_unfold. unfold call_or_fail. cbn [e_db with_db].
  pose proof (by_store_one (OpRequestJobCancellation uid id now) (e_db e)) as Hb. simpl in Hb.
  destruct (RequestJobCancellation uid id now (e_db e)) as [s [x|x]]; [|exact Hb]. simpl in Hb.
  destruct (bool_decide _); [exact Hb|]. rewrite ST_bind_unfold. cbn [gets]. destruct (negb _); exact Hb.
Qed.
Lemma CancelJob_hub uid id now e :
  e_hub (CancelJob uid id now e).1 = e_hub e
  ∨ e_hub (CancelJob uid id now e).1 = default (e_hub e) (Hub.CancelJob (job_key id) (e_hub e)).
Proof using Type.
  remember (CancelJob uid id now e).1 as e' eqn:He. unfold CancelJob in He. rewrite ST_bind_unfold in He.
  unfold call_or_fail at 1 in He. destruct (GetJob uid id (e_db e)) as [s [j|x]]; [|subst; by left].
  rewrite ST_bind_unfold in He. unfold call_or_fail in He. cbn [e_db with_db] in He.
  destruct (RequestJobCancellation uid id now s) as [s' [y|x]]; [|subst; by left].
  destruct (bool_decide _); [subst; by left|]. rewrite ST_bind_unfold in He. cbn [gets] in He.
  destruct (negb _); subst; [by left|by right].
Qed.
Lemma monitor_hub id e :
  e_hub (monitorCancellation id e).1 = e_hub e
  ∨ e_hub (monitorCancellation id e).1 = default (e_hub e) (Hub.CancelJob (job_key id) (e_hub e)).
Proof using Type.
  remember (monitorCancellation id e).1 as e' eqn:He. unfold monitorCancellation in He.
  rewrite ST_bind_unfold in He. unfold call in He.
  destruct (SystemJobCancellationRequested id (e_db e)) as [s [[|]|x]]; subst; [by right|by left..].
Qed.
Lemma monitor_by_store id e : by_store (e_db e) (e_db (monitorCancellation id e).1).
Proof using All.
  unfold monitorCancellation. rewrite ST_bind_unfold. unfold call.
  assert (SystemJobCancellationRequested id (e_db e) = (e_db e, (SystemJobCancellationRequested id (e_db e)).2)) as -> by done.
  destruct (SystemJobCancellationRequested id (e_db e)).2 as [[|]|x]; apply by_store_refl.
Qed.

Lemma wexec_inv input st w : world_inv input w → world_inv input (wexec input st w).
Proof using All.
  intros Hw. destruct st as [env now ev|o|uid id d now|uid id now|id|op]; simpl.
  - by apply run_step_inv.
  - destruct Hw as [Hdb Hrun Hmark]. split; simpl; [by apply exec_system_inv|done|].
    intros Hin. eapply marked_by_store; [done|apply by_store_one|auto].
  - apply engine_inv; [apply Decide_by_store|done].
  - apply engine_inv; [apply CancelJob_by_store|done].
  - apply engine_inv; [apply monitor_by_store|done].
  - destruct (is_decision op); [done|]. destruct Hw as [Hdb [] Hmark]. by split.
Qed.
Lemma wrun_inv input sts w : world_inv input w → world_inv input (wrun input sts w).
Proof using All. revert w. induction sts as [|st sts IH]; intros w Hw; [done|]. by apply IH, wexec_inv. Qed.
Lemma started_inv input s h active : reachable s → world_inv input (started s h active).
Proof using All. intros Hs%reachable_inv. split; [done|apply initial_inv|]. by intros ?%not_elem_of_nil. Qed.

(** C13: the browser clicks only after the durable mark. Whatever the interleaving with the
    rest of the system, once an execution has acknowledged a confirmation the row of its
    job, as long as it exists, carries the instant of the mark and is running, awaiting
    approval, succeeded or unresolved; and if it books, no other job holds its date. *)
Theorem click_follows_the_durable_mark input s h active sts j :
  reachable s → RI_HookConfirmationStarting input = true →
  let w := wrun input sts (started s h active) in
  existsb (says "confirmation.ready") (r_trace (w_run w)) = true → jobs (w_db w) !! RI_JobID input = Some j →
  is_some (JConfirmationStartedAt j) = true
  ∧ JStatus j ∈ [JobRunning; JobAwaitingApproval; JobSucceeded; JobOutcomeUnknown]
  ∧ (JCommand j = CommandBook → ∀ slot k, job_slot (w_db w) j = Some slot → holds_slot (w_db w) k slot → k = RI_JobID input).
Proof using All.
  intros Hs Hh w Hsaid Hj.
  assert (world_inv input w) as [Hdb Hrun Hmark] by (apply wrun_inv, started_inv, Hs).
  apply existsb_exists in Hsaid as (e & Hin%list_elem_of_In & Hsays).
  destruct e as [kind p err| | | | | | | | | | |]; try done. apply String.eqb_eq in Hsays as ->.
  destruct (conversation_in _ _ _ (ri_conversation _ _ Hrun) Hin) as (tr1 & tr2 & Htr & _ & Hready & _).
  destruct (Hready eq_refl) as [_ Hhook].
  assert (is_some (JConfirmationStartedAt j) = true) as Hc.
  { apply Hmark; [|done]. rewrite Htr. apply elem_of_app. left. by apply Hhook. }
  destruct Hdb as [Hdb _]. pose proof (inv_checks _ Hdb _ j Hj) as [Hchk Ho]. split; [done|]. split.
  - unfold outcome_ok in Ho. unfold job_checks in Hchk. rewrite Hc in Ho. bool_to_prop.
    destruct (JStatus j); try done; set_solver.
  - intros Hb slot k Hsl Hk. assert (holds_slot (w_db w) (RI_JobID input) slot) as Hme.
    { exists j. split_and!; try done. by apply may_have_booked_kept; unfold may_have_booked; rewrite Hc. }
    apply holder_reserves in Hk, Hme; [congruence|done..].
Qed.
End marks.

(** ** A manual booking against the store, decided by its owner *)

Definition booked_input : RunInput :=
  MkRunInput true true true "" 1 CommandBook RunModeManual [] "+16045550100" (MkFilter "" "" "" "" 0 false false) 0 0 true true true.
Definition run_events (evs : list (Env * Coordinator.event)) : list wstep := (λ ee, WRun ee.1 t0 ee.2) <$> evs.
Definition booking_steps : list wstep :=
  (run_events (to_code ++
     [frame "otp.submitted" [("challenge_id", JString "c1")];
      frame "approval.request" [("approval_id", JString "a1"); ("pass_key", JString "all_day")];
      (sample_env, EvApprovalLookup 0)])
   ++ [WDecide 1 1 DecisionApprove t0]
   ++ run_events
     [(sample_env, EvApprovalTake 0); (sample_env, EvApprovalReturn 0 true); (sample_env, EvAsync);
      frame "confirmation.starting" [("confirmation_id", JString "k1")]])%list.

Lemma click_follows_the_durable_mark_witness :
  let w := wrun booked_input booking_steps (started claimed_db NewHub ∅) in
  ∃ j, jobs (w_db w) !! RI_JobID booked_input = Some j ∧ JStatus j = JobRunning ∧ is_some (JConfirmationStartedAt j) = true.
Proof.
  intros w. at_job (w_db w) (RI_JobID booked_input) (λ j, bool_decide (JStatus j = JobRunning)) j Hj Hst.
  apply bool_decide_eq_true in Hst. exists j. split; [exact Hj|]. split; [exact Hst|].
  apply (click_follows_the_durable_mark booked_input claimed_db NewHub ∅ booking_steps j (reachable_run claimed_ops)
    eq_refl); [vm_compute; reflexivity|exact Hj].
Defined.
