(* ===== verification/ApprovalProperties.v ===== *)
(** * An approval that reaches the browser was stored

    The invariant that links the waiters of the hub, the goroutines of a run and the
    decisions the store accepted. *)

From S2P Require Import Prelude GoStrings GoTime Json Secrets Redaction Auth Origin Domain Scheduler Database.
From S2P Require Import JobStore Samples EventStore JobLemmas ResourceStore ProfileStore SettingsStore AccountStore.
From S2P Require Import JobInvariants JobOperations JobHistory AccountInvariants ResourceInvariants SystemInvariants.
From S2P Require Import System SystemHistory SystemSamples RunProperties JobProperties Otp Hub HubProperties BookingQueue ActionProc.
From S2P Require Import Coordinator CoordinatorInvariants CoordinatorProperties Worker WorkerProperties Execution.
From S2P Require Import ExecutionProperties.
From Stdlib Require Import Ascii String.

Open Scope Z_scope.

(** ** What a section of the hub does to the waiters for decisions *)

(** A waiter is new, or got no approval, or is the waiter of a job that was decided. *)
Definition waiters_step (h h' : Hub) (by_job : option (string * string)) : Prop :=
  (h_next h <= h_next h')%nat
  ∧ (∃ new : option string, ∀ job p, h_decisions h' !! job = Some p → h_decisions h !! job = Some p ∨ new = Some job ∧ (h_next h <= p)%nat)
  ∧ (∀ p w', h_decision_waiters h' !! p = Some w' → dw_ch w' = Some "approve" →
       (∃ w, h_decision_waiters h !! p = Some w ∧ dw_ch w = Some "approve")
       ∨ ∃ job, by_job = Some (job, "approve") ∧ h_decisions h !! job = Some p).

Lemma waiters_same h h' by_job :
  h_decisions h' = h_decisions h → h_decision_waiters h' = h_decision_waiters h → (h_next h <= h_next h')%nat →
  waiters_step h h' by_job.
Proof. intros Hd Hw Hn. split_and!; [done|exists None; rewrite Hd; auto|rewrite Hw; eauto]. Qed.

Definition decision_of_op (op : hub_op) : option (string * string) :=
  match op with HDecide job d => Some (job, d) | _ => None end.

Lemma send_step h p d h' by_job :
  send_decision p d h = Some h' → (d = "approve" → ∃ job, by_job = Some (job, "approve") ∧ h_decisions h !! job = Some p) →
  waiters_step h h' by_job.
Proof.
  intros (w & Hw & ->)%send_decision_spec Hd. split_and!; simpl; [lia|exists None; auto|].
  intros q w' [[<- <-]|[_ Hq]]%lookup_insert_Some Ha; [|eauto]. simpl in Ha. injection Ha as Ha. right. auto.
Qed.
Lemma cancel_decision_step h job h' : Hub_cancel_decision job h = Some h' → waiters_step h h' None.
Proof.
  unfold Hub_cancel_decision. destruct (h_decisions h !! job); [|intros [= <-]; by apply waiters_same].
  destruct (h_decision_waiters h !! n) as [w|]; [|done]. destruct (dw_decided w); [intros [= <-]; by apply waiters_same|].
  intros Hs. by eapply send_step.
Qed.
Lemma begin_step h job : waiters_step h (BeginDecision job h).1 None.
Proof.
  unfold BeginDecision. destruct (h_decisions h !! job); [by apply waiters_same|]. split_and!; simpl; [lia| |].
  - exists (Some job). intros j p [[<- <-]|[_ ?]]%lookup_insert_Some; auto.
  - intros p w' [[<- <-]|[_ ?]]%lookup_insert_Some; [done|eauto].
Qed.
Lemma take_step h p h' d : WaitDecision_take p h = Some (h', d) → waiters_step h h' None.
Proof.
  unfold WaitDecision_take. destruct (h_decision_waiters h !! p) as [w|] eqn:Hp; [|done]. simpl.
  destruct (dw_ch w); [|done]. intros [= <- <-]. split_and!; simpl; [lia|exists None; auto|].
  intros q w' [[<- <-]|[_ ?]]%lookup_insert_Some; [done|eauto].
Qed.
Lemma done_step h job : waiters_step h (WaitDecision_done job h) None.
Proof. split_and!; simpl; [lia|exists None|eauto]. intros j p [_ ?]%lookup_delete_Some. auto. Qed.
Lemma hub_exec_step op h : waiters_step h (hub_exec op h) (decision_of_op op).
Proof.
  destruct op; simpl; try by apply waiters_same.
  - unfold Subscribe. cbv zeta. set (h1 := bump_next _).
    assert (h_decisions (activeOTPLocked jobID now h1).1 = h_decisions h
      ∧ h_decision_waiters (activeOTPLocked jobID now h1).1 = h_decision_waiters h
      ∧ h_next (activeOTPLocked jobID now h1).1 = S (h_next h)) as (Hd & Hw & Hn).
    { unfold activeOTPLocked. destruct (h_otps h1 !! jobID); [destruct (_ && _)|]; done. }
    destruct (activeOTPLocked jobID now h1) as [h2 otp]. simpl in *. apply waiters_same; simpl; [done|done|lia].
  - unfold Unsubscribe. destruct (h_subscribers h !! jobID); [|by apply waiters_same]. cbv zeta.
    destruct (bool_decide (ch ∈ g)); by apply waiters_same.
  - unfold expireOTP. destruct (h_otps h !! jobID); [|by apply waiters_same]. destruct (otp_is _ _ _); by apply waiters_same.
  - unfold OTP, activeOTPLocked. destruct (h_otps h !! jobID); [|by apply waiters_same]. destruct (_ && _); by apply waiters_same.
  - apply begin_step.
  - unfold Hub.Decide. destruct (h_decisions h !! jobID) as [p|] eqn:Hj; [|by apply waiters_same].
    destruct (h_decision_waiters h !! p) as [w|]; [|by apply waiters_same]. destruct (dw_decided w); [by apply waiters_same|].
    destruct (send_decision p decision h) as [h'|] eqn:Hs; simpl; [|by apply waiters_same].
    eapply send_step; [done|]. intros ->. eauto.
  - destruct (WaitDecision_take p h) as [[h' d]|] eqn:Ht; [by eapply take_step|by apply waiters_same].
  - apply done_step.
  - unfold Hub_set_pairing. destruct (h_pairings h !! jobID); [by apply waiters_same|]. apply waiters_same; simpl; [done|done|lia].
  - unfold ChoosePairing. destruct (h_pairings h !! jobID) as [p|]; [|by apply waiters_same].
    destruct (h_pairing_waiters h !! p) as [w|]; [|by apply waiters_same]. destruct (pw_selected w); [by apply waiters_same|].
    destruct (pw_candidates w !! messageID); [|by apply waiters_same]. destruct (pw_ch w); by apply waiters_same.
  - unfold WaitPairing_take. destruct (h_pairing_waiters h !! p) as [w|]; [|by apply waiters_same]. simpl.
    destruct (pw_ch w); by apply waiters_same.
  - destruct (Hub_cancel_decision jobID h) as [h'|] eqn:Hc; [by eapply cancel_decision_step|by apply waiters_same].
Qed.

Lemma cancel_hub_step job h : hub_inv h →
  hub_inv (default h (Hub.CancelJob job h)) ∧ waiters_step h (default h (Hub.CancelJob job h)) None.
Proof.
  intros Hh. unfold Hub.CancelJob. set (h1 := ClearPairing _ _).
  assert (hub_inv h1 ∧ h_decisions h1 = h_decisions h ∧ h_decision_waiters h1 = h_decision_waiters h ∧ h_next h1 = h_next h)
    as (Hh1 & Hd & Hw & Hn).
  { split_and!; try done. apply Publish_inv, delete_pairing_inv, Publish_inv, set_otps_inv, Hh. }
  destruct (Hub_cancel_decision job h1) as [h'|] eqn:Hc; simpl.
  - split.
    + pose proof (hub_exec_inv (HCancelDecision job) h1 Hh1) as H2. simpl in H2. by rewrite Hc in H2.
    + destruct (cancel_decision_step _ _ _ Hc) as (H1 & H2 & H3). unfold waiters_step. by rewrite <- Hd, <- Hw, <- Hn.
  - split; [done|by apply waiters_same].
Qed.

(** ** The invariant *)

Section approvals.
Context (input : RunInput).
Notation key := (jobKey (with_defaults input)).

(** The waiters of this job: the one in the table and those its goroutines block on. *)
Definition mine (h : Hub) (ws : list wait) (p : nat) : Prop :=
  h_decisions h !! key = Some p ∨ ∃ id, WaitApproval id p ∈ ws.
Record approval_inv (approved : Prop) (r : runState) : Prop := MkApprovalInv {
  ai_hub : hub_inv (r_hub r);
  ai_heap : ∀ p, mine (r_hub r) (r_waits r) p → (p < h_next (r_hub r))%nat;
  ai_own : ∀ p job, mine (r_hub r) (r_waits r) p → h_decisions (r_hub r) !! job = Some p → job = key;
  ai_channel : ∀ p w, mine (r_hub r) (r_waits r) p → h_decision_waiters (r_hub r) !! p = Some w →
    dw_ch w = Some "approve" → approved;
  ai_trace : ∀ id, EHubDecision id "approve" ∈ r_trace r → approved
}.

(** A section of the hub, for a wait list that blocks on no new waiter. *)
Lemma hub_section_inv approved r h ws by_job :
  hub_inv h → waiters_step (r_hub r) h by_job → (by_job = Some (key, "approve") → approved) →
  (∀ id p, WaitApproval id p ∈ ws → mine (r_hub r) (r_waits r) p) →
  approval_inv approved r → approval_inv approved (with_hub h (with_waits (λ _, ws) r)).
Proof.
  intros Hh (Hn & [new Ht] & Hw) Hby Hws [Hh0 Hheap Hown Hch Htr].
  assert (∀ p, mine h ws p → mine (r_hub r) (r_waits r) p ∨ (h_next (r_hub r) <= p)%nat ∧ h_decisions h !! key = Some p) as Hmine.
  { intros p [Hp|[id Hp]]; [|by left; eapply Hws]. destruct (Ht key p Hp) as [?|[??]]; [left; by left|by right]. }
  assert (∀ job p, h_decisions (r_hub r) !! job = Some p → (p < h_next (r_hub r))%nat) as Hold.
  { intros job p Hp%(hi_decision_table _ Hh0). destruct Hp as [w Hp]. by apply (hi_decision_heap _ Hh0) in Hp as [? _]. }
  assert (∀ job p, h_decisions h !! job = Some p → (p < h_next h)%nat) as Hnew.
  { intros job p Hp%(hi_decision_table _ Hh). destruct Hp as [w Hp]. by apply (hi_decision_heap _ Hh) in Hp as [? _]. }
  split; simpl; try done.
  - intros p [Hm|[_ Hk]]%Hmine; [apply Hheap in Hm; lia|by eapply Hnew].
  - intros p job Hm Hj. apply Hmine in Hm as [Hm|[Hle Hk]].
    + destruct (Ht job p Hj) as [Hj'|[_ Hle]]; [by eapply Hown|]. apply Hheap in Hm. lia.
    + destruct (Ht job p Hj) as [Hj'%Hold|[Hj' _]]; [lia|].
      destruct (Ht key p Hk) as [Hk'%Hold|[Hk' _]]; [lia|congruence].
  - intros p w Hm Hp Ha. apply Hmine in Hm as [Hm|[Hle _]].
    + destruct (Hw p w Hp Ha) as [(w0 & Hp0 & Ha0)|(job & Hb & Hj)]; [by eapply Hch|].
      apply Hby. rewrite Hb. by rewrite (Hown p job Hm Hj).
    + destruct (Hw p w Hp Ha) as [(w0 & Hp0 & _)|(job & _ & Hj)].
      * apply (hi_decision_heap _ Hh0) in Hp0 as [? _]. lia.
      * apply Hold in Hj. lia.
Qed.

Lemma hub_only_inv approved r h by_job :
  hub_inv h → waiters_step (r_hub r) h by_job → (by_job = Some (key, "approve") → approved) →
  approval_inv approved r → approval_inv approved (with_hub h r).
Proof.
  intros Hh Hs Hby Hr. replace (with_hub h r) with (with_hub h (with_waits (λ _, r_waits r) r)) by by destruct r.
  eapply hub_section_inv; try done. intros id p Hp. right. by exists id.
Qed.
Lemma display_inv f h : display (with_defaults input) f → hub_inv h → hub_inv (f h) ∧ waiters_step h (f h) None.
Proof.
  intros Hf Hh. destruct Hf; unfold SetOTP, ClearOTP, Hub_set_otp, Hub_clear_otp;
    (split; [apply Publish_inv; try by apply set_otps_inv|by apply waiters_same]); done.
Qed.
Lemma waits_inv approved r ws : (∀ id p, WaitApproval id p ∈ ws → mine (r_hub r) (r_waits r) p) →
  approval_inv approved r → approval_inv approved (with_waits (λ _, ws) r).
Proof.
  intros Hws Hr. replace (with_waits (λ _, ws) r) with (with_hub (r_hub r) (with_waits (λ _, ws) r)) by by destruct r.
  eapply hub_section_inv; try done; [apply Hr|by apply (waiters_same _ _ None)|done].
Qed.
#[local] Instance approval_kept approved : run_kept (with_defaults input) (approval_inv approved).
Proof.
  split; try (intros; match goal with H : approval_inv _ _ |- _ => destruct H; by split end).
  - intros e r He []. split; try done. simpl. intros id [Hin|Hin%list_elem_of_singleton]%elem_of_app; [eauto|by subst].
  - intros f r Hf Hr. destruct (display_inv f (r_hub r) Hf (ai_hub _ _ Hr)). by eapply hub_only_inv.
  - intros r Hr. eapply hub_only_inv; [apply begin_decision_inv, Hr|apply begin_step|done|done].
  - intros w r Hw Hr. apply (waits_inv approved r (r_waits r ++ [w])); [|done].
    intros id p [Hin|Hin%list_elem_of_singleton]%elem_of_app; [right; by exists id|by subst].
Qed.

(** ** The steps of the run *)

Lemma plain_update_inv approved f r :
  r_hub (f r) = r_hub r → r_waits (f r) = r_waits r → r_trace (f r) = r_trace r →
  approval_inv approved r → approval_inv approved (f r).
Proof. intros Hh Hw Ht []. split; rewrite ?Hh, ?Hw, ?Ht; done. Qed.
Lemma delete_wait_inv approved k r : approval_inv approved r → approval_inv approved (with_waits (delete k) r).
Proof.
  intros Hr. apply (waits_inv approved r (delete k (r_waits r))); [|done].
  intros id p Hp. right. exists id. eapply elem_of_sublist, sublist_delete. exact Hp.
Qed.
Lemma trace_effect_inv approved e r : (∀ id, e = EHubDecision id "approve" → approved) →
  approval_inv approved r → approval_inv approved (with_effect e r).
Proof.
  intros He []. split; try done. simpl. intros id [Hin|Hin%list_elem_of_singleton]%elem_of_app; eauto.
Qed.

Lemma step_plain_approval approved env ev :
  match ev with EvFrame _ | EvAsync | EvFramesClosed | EvProcessDone _ | EvDoneClosed | EvCancelContext | EvOTPWaitEnds _ _ _ => True | _ => False end →
  preserves (approval_inv approved) (step (with_defaults input) env ev).
Proof.
  intros Hev. destruct ev; try done; cbn [step]; unfold on_hub, end_wait, deliver, emit;
    repeat first
      [ apply preserves_ret | apply preserves_gets | apply preserves_fail
      | apply cancelChallenges_keeps | apply negotiate_keeps | apply results_keep
      | apply preserves_modify; intros;
          first [ by apply plain_update_inv | by apply delete_wait_inv | by apply trace_effect_inv
                | by apply (rk_display (i := with_defaults input) (ClearOTP key)); [constructor|] ]
      | apply preserves_bind; intros
      | match goal with |- preserves _ (if ?b then _ else _) => destruct b end
      | match goal with |- preserves _ (match ?x with _ => _ end) => destruct x end ].
  intros r Hr. pose proof (handleFrame_keeps (i := with_defaults input) env frame r Hr) as H1.
  destruct (handleFrame _ env frame r) as [r' [u|e]]; [exact H1|]. by apply trace_effect_inv.
Qed.
Lemma step_ctx_approval approved env : preserves (approval_inv approved) (step (with_defaults input) env EvCtxDone).
Proof.
  intros r Hr. cbn [step].
  destruct (cancel_hub_step key (r_hub r) (ai_hub _ _ Hr)) as [Hh Hs].
  pose proof (hub_only_inv approved r _ None Hh Hs ltac:(done) Hr) as H1. apply plain_update_inv; [done..|].
  by apply trace_effect_inv.
Qed.
Lemma step_lookup_approval approved env k : preserves (approval_inv approved) (step (with_defaults input) env (EvApprovalLookup k)).
Proof.
  intros r Hr. cbn [step]. rewrite ST_bind_unfold. simpl. destruct (r_waits r !! k) as [[id|id|id q|id d]|] eqn:Hw; try exact Hr.
  rewrite ST_bind_unfold. simpl. unfold WaitDecision_begin. destruct (h_decisions (r_hub r) !! key) as [q|] eqn:Hq; rewrite ST_bind_unfold; simpl.
  - apply (waits_inv approved r (<[k := WaitApproval id q]> (r_waits r))); [|done].
    intros id' p Hp. apply list_elem_of_lookup_1 in Hp as (j & Hj).
    apply list_lookup_insert_Some in Hj as [(_ & Heq & _)|[_ Hj]].
    + injection Heq as <- <-. by left.
    + right. exists id'. by eapply list_elem_of_lookup_2.
  - apply plain_update_inv; [done..|]. by apply delete_wait_inv.
Qed.
Lemma step_take_approval approved env k : preserves (approval_inv approved) (step (with_defaults input) env (EvApprovalTake k)).
Proof.
  intros r Hr. cbn [step]. rewrite ST_bind_unfold. simpl. destruct (r_waits r !! k) as [[id|id|id q|id d]|] eqn:Hw; try exact Hr.
  rewrite ST_bind_unfold. simpl. destruct (WaitDecision_take q (r_hub r)) as [[h d]|] eqn:Ht; rewrite ST_bind_unfold; simpl; [|done].
  assert (hub_inv h) as Hh by (pose proof (hub_exec_inv (HWaitDecisionTake q) (r_hub r) (ai_hub _ _ Hr)) as Hh; simpl in Hh; by rewrite Ht in Hh).
  assert (d = "approve" → approved) as Hd.
  { intros ->. unfold WaitDecision_take in Ht. destruct (h_decision_waiters (r_hub r) !! q) as [w|] eqn:Hq; [|done].
    simpl in Ht. destruct (dw_ch w) as [d0|] eqn:Hc; [|done]. injection Ht as _ ->.
    eapply (ai_channel _ _ Hr q w); [|done|done]. right. exists id. by eapply list_elem_of_lookup_2. }
  pose proof (hub_only_inv approved r h None Hh (take_step _ _ _ _ Ht) ltac:(done) Hr) as H1.
  assert (approval_inv approved (with_effect (EHubDecision id d) (with_hub h r))) as H2.
  { apply trace_effect_inv; [|done]. intros id' [= _ ->]. by apply Hd. }
  apply (waits_inv approved _ (<[k := WaitApprovalTaken id d]> (r_waits r))) in H2; [exact H2|].
  intros id' p Hp. apply list_elem_of_lookup_1 in Hp as (j & Hj).
  apply list_lookup_insert_Some in Hj as [(_ & Heq & _)|[_ Hj]]; [done|]. right. exists id'. by eapply list_elem_of_lookup_2.
Qed.
Lemma give_up_approval approved k b a r : approval_inv approved r →
  approval_inv approved ((_ ← on_hub (WaitDecision_done key); _ ← end_wait k; _ ← deliver b a; mret (@None RunResult)) r).1.
Proof.
  intros Hr.
  assert (approval_inv approved (with_waits (delete k) (with_hub (WaitDecision_done key (r_hub r)) r))) as H1.
  { apply delete_wait_inv. eapply hub_only_inv; [apply delete_decision_inv, Hr|apply done_step|done|done]. }
  do 3 (rewrite ST_bind_unfold; simpl). destruct b; [by apply plain_update_inv|done].
Qed.
Lemma step_approval approved env ev : is_hub_event ev = false → preserves (approval_inv approved) (step (with_defaults input) env ev).
Proof.
  intros Hev. destruct ev as [|frame| | |p| | |k res b|k|k|k b|k b|op]; try done; try by apply step_plain_approval.
  - apply step_ctx_approval.
  - apply step_lookup_approval.
  - apply step_take_approval.
  - intros r Hr. cbn [step]. rewrite ST_bind_unfold. simpl. destruct (r_waits r !! k) as [[id|id|id q|id d]|]; try exact Hr.
    by apply give_up_approval.
  - intros r Hr. cbn [step]. rewrite ST_bind_unfold. simpl. destruct (r_waits r !! k) as [[id|id|id q|id d]|]; try exact Hr.
    by apply give_up_approval.
Qed.
Lemma deferred_approval approved r : approval_inv approved r → approval_inv approved (deferred (with_defaults input) r).
Proof.
  intros Hr. pose proof (cancelChallenges_keeps (i := with_defaults input) r Hr) as H1.
  assert (r_hub (cancelChallenges r).1 = r_hub r) as Hhub by (by apply (cancelChallenges_frame (λ s, r_hub s = r_hub r))).
  unfold deferred. rewrite <- Hhub. exact (rk_display (ClearOTP key) (cancelChallenges r).1 (display_clear _) H1).
Qed.

Lemma hub_step_approval (approved : Prop) r op :
  (decision_of_op op = Some (key, "approve") → approved) →
  approval_inv approved r → approval_inv approved (with_hub (hub_exec op (r_hub r)) r).
Proof. intros Hd Hr. eapply hub_only_inv; [apply hub_exec_inv, Hr|apply hub_exec_step|exact Hd|done]. Qed.
Lemma approval_mono (approved approved' : Prop) r : (approved → approved') → approval_inv approved r → approval_inv approved' r.
Proof. intros Hl []. split; eauto. Qed.
Lemma approval_initial approved h ctx : hub_inv h → h_decisions h !! key = None → approval_inv approved (initial h ctx).
Proof.
  intros Hh Hk. assert (∀ p, ¬ mine h [] p) as Hm by (intros p [Hp|[id Hp%not_elem_of_nil]]; congruence).
  split; simpl; try done; try (intros p; intros; by destruct (Hm p)). by intros id ?%not_elem_of_nil.
Qed.

(** ** The steps of the rest of the system *)

Section world.
Context `{AEAD} `{Hashes} `{TimeZoneDB}.

Notation stored w := (decided (RI_JobID input) DecisionApprove (w_db w)).
Definition world_approval (w : world) : Prop := world_inv input w ∧ approval_inv (stored w) (w_run w).
Definition int64_step (st : wstep) : Prop := match st with WDecide _ id _ _ => int64 id | _ => True end.

Lemma run_step_approval env now ev w : world_approval w → world_approval (run_step input env now ev w).
Proof using All.
  intros [Hw Ha]. split; [by apply run_step_inv|]. unfold run_step.
  destruct (is_some (w_result w) || is_hub_event ev || negb (enabled (w_run w) ev)) eqn:Hg; [done|].
  apply orb_false_iff in Hg as [Hg _]. apply orb_false_iff in Hg as [_ Hev].
  pose proof (step_approval (stored w) env ev Hev (w_run w) Ha) as Hs.
  destruct (step (with_defaults input) env ev (w_run w)) as [r o]. destruct (replay _ _ _ _) as [s|] eqn:Hr; [|done].
  apply (approval_mono _ (decided (RI_JobID input) DecisionApprove s)) in Hs.
  - destruct o as [[res|]|e]; simpl; try by apply deferred_approval. exact Hs.
  - apply decided_by_store; [apply Hw|by eapply replay_by_store].
Qed.
(** A step that changes the database through the store and the hub not at all. *)
Lemma store_approval w e : by_store (w_db w) (e_db e) → e_hub e = r_hub (w_run w) →
  approval_inv (stored w) (w_run w) → world_inv input w →
  approval_inv (stored (with_engine e w)) (w_run (with_engine e w)).
Proof using All.
  intros Hb Hh Ha Hw. apply (approval_mono (stored w)); [apply decided_by_store; [apply Hw|done]|].
  simpl. rewrite Hh. by destruct (w_run w).
Qed.
Lemma cancel_approval w e id : by_store (w_db w) (e_db e) →
  e_hub e = r_hub (w_run w) ∨ e_hub e = default (r_hub (w_run w)) (Hub.CancelJob (job_key id) (r_hub (w_run w))) →
  world_approval w → approval_inv (stored (with_engine e w)) (w_run (with_engine e w)).
Proof using All.
  intros Hb [Hh|Hh] [Hw Ha]; [by apply store_approval|].
  apply (approval_mono (stored w)); [apply decided_by_store; [apply Hw|done]|]. simpl. rewrite Hh.
  destruct (cancel_hub_step (job_key id) (r_hub (w_run w)) (ai_hub _ _ Ha)) as [Hi Hs]. by eapply hub_only_inv.
Qed.
Lemma decide_approval uid id d now w : int64 id → int64 (RI_JobID input) → world_approval w →
  world_approval (with_engine (Decide uid id d now (engine_of w)).1 w).
Proof using All.
  intros Hid Hjob [Hw Ha]. assert (by_store (w_db w) (e_db (Decide uid id d now (engine_of w)).1)) as Hb by apply Decide_by_store.
  split; [by apply engine_inv|].
  destruct (Decide_parts uid id d now (engine_of w)) as [Hdb Hhub].
  destruct (is_ok (RecordJobDecision uid id d now (e_db (engine_of w))).2) eqn:Hok; [|by apply store_approval].
  destruct (record_decides uid id d now (w_db w) (wi_db _ _ Hw) Hok) as [Hv Hd].
  simpl. rewrite Hhub. apply hub_step_approval.
  - simpl. intros [= Hk Hs]. apply format_int_inj in Hk as ->; [|done..]. rewrite Hdb.
    destruct d; done.
  - apply (approval_mono (stored w)); [apply decided_by_store; [apply Hw|done]|done].
Qed.
Lemma wexec_approval st w : int64_step st → int64 (RI_JobID input) → world_approval w → world_approval (wexec input st w).
Proof using All.
  intros Hst Hjob Hwa. pose proof Hwa as [Hw Ha]. destruct st as [env now ev|o|uid id d now|uid id now|id|op].
  - by apply run_step_approval.
  - split; [by apply wexec_inv|]. apply (approval_mono (stored w)); [|done].
    apply decided_by_store; [apply Hw|apply by_store_one].
  - by apply decide_approval.
  - split; [by apply wexec_inv|]. apply (cancel_approval w _ id); [apply CancelJob_by_store| |done]. apply CancelJob_hub.
  - split; [by apply wexec_inv|]. apply (cancel_approval w _ id); [apply monitor_by_store| |done]. apply monitor_hub.
  - split; [by apply wexec_inv|]. simpl. destruct (is_decision op) eqn:Hop; [done|]. simpl. apply hub_step_approval; [|done].
    by destruct op.
Qed.
Lemma wrun_approval sts w : Forall int64_step sts → int64 (RI_JobID input) → world_approval w → world_approval (wrun input sts w).
Proof using All.
  revert w. induction sts as [|st sts IH]; intros w Hsts Hjob Hw; [done|]. apply Forall_cons in Hsts as [Hst Hsts].
  by apply IH, wexec_approval.
Qed.
End world.
End approvals.

(** C14: an approval that reaches the browser is the owner's, and it is stored. Whatever the
    interleaving with the rest of the system, once an execution sent [approval.approve] the
    row of its job, as long as it exists, has the decision to approve, recorded for the
    account that owns the job, and no later call changes it. *)
Theorem approval_sent_was_recorded `{AEAD} `{Hashes} `{TimeZoneDB} input s h active sts j :
  reachable s → hub_inv h → h_decisions h !! format_int (RI_JobID input) = None →
  int64 (RI_JobID input) → Forall int64_step sts →
  let w := wrun input sts (started s h active) in
  existsb (says "approval.approve") (r_trace (w_run w)) = true → jobs (w_db w) !! RI_JobID input = Some j →
  ∃ d, decisions (w_db w) !! RI_JobID input = Some d ∧ DDecision d = DecisionApprove ∧ DUserID d = JUserID j
    ∧ ∀ ops, jobs (run ops (w_db w)) !! RI_JobID input = None ∨ decisions (run ops (w_db w)) !! RI_JobID input = Some d.
Proof.
  intros Hs Hh Hk Hjob Hsts w Hsaid Hj.
  assert (world_approval input w) as [Hw Ha].
  { apply wrun_approval; [done..|]. split; [by apply started_inv|]. by apply approval_initial. }
  apply existsb_exists in Hsaid as (e & Hin%list_elem_of_In & Hsays).
  destruct e as [kind p err| | | | | | | | | | |]; try done. apply String.eqb_eq in Hsays as ->.
  destruct (conversation_in _ _ _ (ri_conversation _ _ (wi_run _ _ Hw)) Hin) as (tr1 & tr2 & Htr & _ & _ & Happ & _).
  destruct (Happ eq_refl) as (id & _ & Hd & _).
  assert (decided (RI_JobID input) DecisionApprove (w_db w)) as [_ Hdec].
  { apply (ai_trace _ _ _ Ha id). rewrite Htr. apply elem_of_app. by left. }
  destruct (Hdec j Hj) as (d & Hdd & Hda).
  destruct (inv_decision _ (proj1 (wi_db _ _ Hw)) _ _ Hdd) as (_ & j' & Hj' & Hu). simplify_eq.
  exists d. split_and!; try done. intros ops. apply run_keeps_decision; [apply Hw|done].
Qed.

Lemma approval_sent_was_recorded_witness :
  let w := wrun booked_input booking_steps (started claimed_db NewHub ∅) in
  ∃ d, decisions (w_db w) !! RI_JobID booked_input = Some d ∧ DDecision d = DecisionApprove.
Proof.
  intros w. at_job (w_db w) (RI_JobID booked_input) (λ _ : Job, true) j Hj Hst.
  destruct (approval_sent_was_recorded booked_input claimed_db NewHub ∅ booking_steps j (reachable_run claimed_ops) NewHub_inv)
    as (d & Hd & Ha & _);
    [reflexivity|split; simpl; lia|repeat constructor; simpl; lia|vm_compute; reflexivity|exact Hj|].
  exists d. split; [exact Hd|exact Ha].
Defined.
