(* ===== verification/Config.v ===== *)
(** * The configuration (src/internal/config)

    [Load] reads the environment of the process once.  The environment and the working
    directory are arguments, and so is what [Lstat] finds at a path.  The last part shows
    that what it returns is within the ranges the rest of the program relies on. *)

From S2P Require Import Prelude GoStrings Json GoUrl GoPath Origin Netip Egress.
From Stdlib Require Import Ascii String.

Open Scope Z_scope.

Definition defaultListenAddress : string := ":8080".
Definition defaultMaxJobs : Z := 2.
Definition DefaultYodelOrigin : string := "https://yodelportal.com".

Record Config := MkConfig {
  AppDataDir : string; DatabasePath : string; EncryptionKeyPath : string; MasterKeyExplicit : bool;
  ProfilesDir : string; ArtifactsDir : string; ListenAddress : string; MaxConcurrentJobs : Z;
  PythonExecutable : string; PythonModule : string; BrowserExecutable : string;
  BlueBubblesURL : string; BlueBubblesPolicy : gmap string endpoint;
  YodelOrigins : list string; AllowedOrigins : list string; AllowedHosts : list string;
  HostCheckEnabled : bool; HostCheckConfigured : bool;
  PublicOrigin : string; TrustedProxies : list Prefix; SetupToken : string; LogLevel : string }.

Section load.
Context (environ : gmap string string).

Definition Env (name : string) : string :=
  match environ !! name with
  | Some value => value
  | None =>
      match cut_prefix "LAKE_PASS_" name with
      | Some suffix => default "" (environ !! ("BUNTZEN_" +:+ suffix))
      | None => ""
      end
  end.
Definition setting (name : string) : string := trim_space (Env name).
Definition or_else (value fallback : string) : string := if String.eqb value "" then fallback else value.

(** ** Single values *)

Definition boundedInt (name : string) (fallback min max : Z) : result Z :=
  let raw := setting name in
  if String.eqb raw "" then Ok fallback
  else
    let e := Errorf (name +:+ " must be an integer from " +:+ format_int min +:+ " to " +:+ format_int max) in
    match parse_int64 raw with
    | Some value => if (value <? min) || (max <? value) then Err e else Ok value
    | None => Err e
    end.
(** [strconv.ParseBool] *)
Definition ParseBool (s : string) : option bool :=
  if bool_decide (s ∈ ["1"; "t"; "T"; "TRUE"; "true"; "True"]) then Some true
  else if bool_decide (s ∈ ["0"; "f"; "F"; "FALSE"; "false"; "False"]) then Some false else None.
Definition boolValue (name : string) (fallback : bool) : result bool :=
  let raw := setting name in
  if String.eqb raw "" then Ok fallback else of_option (Errorf (name +:+ " must be true or false")) (ParseBool raw).
Definition logLevelValue (raw : string) (debug : bool) : result string :=
  if debug then Ok "debug"
  else
    let level := to_lower (trim_space raw) in
    if String.eqb level "" then Ok "info"
    else
      let level := if String.eqb level "warning" then "warn" else level in
      if bool_decide (level ∈ ["debug"; "info"; "warn"; "error"]) then Ok level
      else Err (Errorf "LAKE_PASS_LOG_LEVEL must be debug, info, warn, or error").
Definition EffectiveLogLevel (c : Config) : string :=
  match logLevelValue (LogLevel c) false with Ok level => level | Err _ => "info" end.

(** ** Lists *)

(** Each item of a comma-separated list in its canonical form, the first of equal ones. *)
Definition canonical_item (canonical : string → result string) (empty : error) (invalid : error → error)
    (acc : result (list string)) (part : string) : result (list string) :=
  values ← acc;
  let value := trim_space part in
  if String.eqb value "" then Err empty
  else
    match canonical value with
    | Err e => Err (invalid e)
    | Ok c => Ok (if bool_decide (c ∈ values) then values else values ++ [c])%list
    end.
Definition canonical_list (canonical : string → result string) (empty : error) (invalid : error → error) (raw : string)
    : result (list string) :=
  foldl (canonical_item canonical empty invalid) (Ok []) (split_byte "," raw).
Definition parseOriginList (name raw : string) : result (list string) :=
  canonical_list Canonical (Errorf (name +:+ " must be a comma-separated list of origins"))
    (Wrap (name +:+ " contains an invalid origin")) raw.
Definition originList (name : string) : result (list string) :=
  let raw := setting name in if String.eqb raw "" then Ok [] else parseOriginList name raw.
Definition yodelOriginList (name : string) : result (list string) :=
  let raw := setting name in
  if String.eqb raw "" then Ok [DefaultYodelOrigin]
  else
    values ← parseOriginList name raw;
    _ ← reject (negb (forallb (λ v, has_prefix v "https://") values)) (Errorf (name +:+ " may contain only HTTPS origins"));
    Ok values.
Definition hostList (name : string) : result (list string) :=
  let raw := setting name in
  if String.eqb raw "" then Ok []
  else canonical_list Host (Errorf (name +:+ " must be a comma-separated list of hosts"))
         (Wrap (name +:+ " contains an invalid host")) raw.

(** The hosts of the allowed origins are allowed too. *)
Definition add_host (acc : result (list string)) (allowedOrigin : string) : result (list string) :=
  hosts ← acc;
  host ← Host (UHost (default zero_url (url_Parse allowedOrigin)));
  Ok (if bool_decide (host ∈ hosts) then hosts else hosts ++ [host])%list.

(** ** The provider policy *)

(** Decoding refuses members a rule does not have. *)
Definition decode_rule (old : Rule) (fields : list (string * json)) : option Rule :=
  if forallb (λ kv, key_is "origin" kv.1 || key_is "networks" kv.1) fields then
    origin ← assigned string_onto "origin" (RuleOrigin old) fields;
    networks ← assigned (list_onto (string_onto "")) "networks" (Some (Networks old)) fields;
    Some (MkRule origin (default [] networks))
  else None.
Definition decode_rules (raw : string) : option (list Rule * string) :=
  '(v, rest) ← parse_value (S (2 * String.length raw)) raw;
  rules ← list_onto (struct_onto decode_rule (MkRule "" [])) None v;
  Some (default [] rules, rest).
Definition providerPolicy (raw : string) : result (gmap string endpoint) :=
  if (16384 <? String.length raw)%nat then Err (Errorf "provider policy exceeds 16 KiB")
  else if blank raw then NewPolicy []
  else
    match decode_rules raw with
    | None => Err (Errorf "expected a JSON array of origin and optional networks")
    | Some (rules, rest) =>
        if String.eqb (skip_json_space rest) "" then NewPolicy rules
        else Err (Errorf "unexpected data after provider policy")
    end.

(** ** The database file *)

Section files.
(** [os.Lstat]: whether a file is regular. *)
Context (lstat : string → result bool).

Definition databaseExists (path : string) : result bool :=
  match lstat path with
  | Err e => if errors_is e ErrNotExist then Ok false else Err (Wrap "inspect database" e)
  | Ok regular => if regular then Ok true else Err (Errorf "database path must be a regular file")
  end.
Definition databasePath (directory : string) : result string :=
  let current := Join [directory; "lake-pass-bot.db"] in
  let legacy := Join [directory; "buntzen.db"] in
  currentExists ← databaseExists current;
  legacyExists ← databaseExists legacy;
  if currentExists && legacyExists
  then Err (Errorf "both lake-pass-bot.db and the legacy database exist; choose the intended appdata directory before starting")
  else Ok (if legacyExists : bool then legacy else current).

(** ** The HTTP boundary *)

Definition proxies_of (raw : string) : result (list Prefix) :=
  foldl (λ acc value,
    proxies ← acc;
    match ParsePrefix (trim_space value) with
    | None => Err (Errorf "LAKE_PASS_TRUSTED_PROXIES must contain connector IP CIDRs")
    | Some p => Ok (proxies ++ [Masked p])%list
    end) (Ok []) (split_byte "," raw).
(** The zero address and the multicast block. *)
Definition IsUnspecified (ip : Addr) : bool :=
  match ip with Addr4 v => v =? 0 | Addr6 v z => (v =? 0) && String.eqb z "" | AddrInvalid => false end.
Definition prefix_valid (p : Prefix) : bool := (0 <=? PrefixBits p) && IsValid (PrefixAddr p).
Definition specific_proxy (p : Prefix) : bool :=
  let minimum := if Is4 (PrefixAddr p) then 24 else 64 in
  negb (negb (prefix_valid p) || Is4In6 (PrefixAddr p) || (PrefixBits p <? minimum)
        || IsUnspecified (PrefixAddr p) || IsMulticast (PrefixAddr p)).
Definition ValidateHTTPBoundary (publicOrigin : string) (trustedProxies : list Prefix) : result unit :=
  if String.eqb publicOrigin "" then
    reject (negb (List.length trustedProxies =? 0)%nat) (Errorf "trusted proxies require LAKE_PASS_PUBLIC_ORIGIN")
  else
    let e := Errorf "public origin must be a canonical HTTPS origin without a path" in
    match Canonical publicOrigin with
    | Err _ => Err e
    | Ok canonical =>
        _ ← reject (negb (String.eqb canonical publicOrigin) || negb (has_prefix canonical "https://")) e;
        _ ← reject ((List.length trustedProxies =? 0) || (16 <? List.length trustedProxies))%nat
              (Errorf "public mode requires 1 to 16 trusted connector IP CIDRs");
        reject (negb (forallb specific_proxy trustedProxies))
          (Errorf "trusted connector CIDRs must be specific IPv4 /24-or-narrower or IPv6 /64-or-narrower networks")
    end.
Definition loadHTTPBoundary : result (string * list Prefix) :=
  let raw := setting "LAKE_PASS_PUBLIC_ORIGIN" in
  publicOrigin ← (if String.eqb raw "" then Ok ""
                  else match Canonical raw with
                       | Ok canonical => Ok canonical
                       | Err _ => Err (Errorf "LAKE_PASS_PUBLIC_ORIGIN must be an exact HTTPS origin without a path")
                       end);
  let proxies := setting "LAKE_PASS_TRUSTED_PROXIES" in
  trusted ← (if String.eqb proxies "" then Ok [] else proxies_of proxies);
  _ ← ValidateHTTPBoundary publicOrigin trusted;
  Ok (publicOrigin, trusted).

(** ** Loading *)

Definition absolute_file (path : string) : bool :=
  IsAbs path && (String.length path <=? 2048)%nat && negb (contains path (bytes [0%nat])).
Definition Load (working : string) : result Config :=
  let abs := Abs working (or_else (setting "APPDATA_DIR") "./appdata") in
  let listen := or_else (setting "LAKE_PASS_LISTEN") defaultListenAddress in
  maxJobs ← boundedInt "MAX_CONCURRENT_JOBS" defaultMaxJobs 1 8;
  debug ← boolValue "LAKE_PASS_DEBUG" false;
  logLevel ← logLevelValue (Env "LAKE_PASS_LOG_LEVEL") debug;
  let python := or_else (setting "LAKE_PASS_PYTHON") "python3" in
  let module := or_else (setting "LAKE_PASS_ACTIONS_MODULE") "lake_pass_actions" in
  let module := if String.eqb module "buntzen_actions" then "lake_pass_actions" else module in
  let browser := setting "LAKE_PASS_BROWSER_EXECUTABLE" in
  _ ← reject (negb (String.eqb browser "") && negb (absolute_file browser))
        (Errorf "LAKE_PASS_BROWSER_EXECUTABLE must be an absolute path of at most 2048 bytes");
  let blueBubblesURL := or_else (setting "BLUEBUBBLES_URL") "http://127.0.0.1:1234" in
  policy ← (match providerPolicy (Env "LAKE_PASS_BLUEBUBBLES_ENDPOINTS") with
            | Err e => Err (Wrap "LAKE_PASS_BLUEBUBBLES_ENDPOINTS" e) | ok => ok end);
  allowedOrigins ← originList "LAKE_PASS_ALLOWED_ORIGINS";
  yodelOrigins ← yodelOriginList "LAKE_PASS_YODEL_ORIGINS";
  listedHosts ← hostList "LAKE_PASS_ALLOWED_HOSTS";
  hostCheckEnabled ← boolValue "LAKE_PASS_HOST_CHECK_ENABLED" false;
  allowedHosts ← foldl add_host (Ok listedHosts) allowedOrigins;
  let keyPath := setting "LAKE_PASS_MASTER_KEY_FILE" in
  let keyExplicit := negb (String.eqb keyPath "") in
  _ ← reject (keyExplicit && negb (absolute_file keyPath))
        (Errorf "LAKE_PASS_MASTER_KEY_FILE must be an absolute path of at most 2048 bytes");
  let keyPath := if keyExplicit then keyPath else Join [abs; "master.key"] in
  database ← databasePath abs;
  '(publicOrigin, trusted) ← loadHTTPBoundary;
  Ok (MkConfig abs database keyPath keyExplicit (Join [abs; "profiles"]) (Join [abs; "artifacts"]) listen maxJobs
        python module browser blueBubblesURL policy yodelOrigins allowedOrigins allowedHosts hostCheckEnabled
        (negb (String.eqb (setting "LAKE_PASS_HOST_CHECK_ENABLED") "")) publicOrigin trusted
        (setting "LAKE_PASS_SETUP_TOKEN") logLevel).
End files.
End load.

(** * What a loaded configuration is *)

(** ** Single values *)

Lemma boundedInt_range environ name fallback min max v :
  boundedInt environ name fallback min max = Ok v → min <= fallback <= max → min <= v <= max.
Proof.
  unfold boundedInt. destruct (String.eqb _ _); [by intros [= <-]|]. destruct (parse_int64 _) as [w|]; [|done].
  destruct (_ || _) eqn:Hw; [done|]. intros [= <-]. lia.
Qed.
Definition log_levels : list string := ["debug"; "info"; "warn"; "error"].
Lemma logLevelValue_known raw debug level : logLevelValue raw debug = Ok level → level ∈ log_levels.
Proof.
  unfold logLevelValue, log_levels. destruct debug; [intros [= <-]; set_solver|]. destruct (String.eqb _ _); [intros [= <-]; set_solver|].
  case_bool_decide; [by intros [= <-]|done].
Qed.

(** ** Lists *)

Definition listed_form (canonical : string → result string) (l : list string) : Prop :=
  NoDup l ∧ ∀ c, c ∈ l → ∃ raw, canonical raw = Ok c.
Lemma listed_add canonical acc raw c :
  listed_form canonical acc → canonical raw = Ok c →
  let next := if bool_decide (c ∈ acc) then acc else (acc ++ [c])%list in
  listed_form canonical next ∧ acc ⊆ next ∧ c ∈ next.
Proof.
  intros [Hnd Hcan] Hc. cbv zeta. case_bool_decide as Hin; [split_and!; [done| |done]; set_solver|]. split_and!; [|set_solver..].
  split; [|intros x [Hx|Hx]%elem_of_app; [by apply Hcan|]].
  - apply NoDup_app. split_and!; [done|set_solver|apply NoDup_singleton].
  - apply list_elem_of_singleton in Hx as ->. by exists raw.
Qed.
(** A fold over results stops at its first error. *)
Lemma foldl_Err {A B} (f : result A → B → result A) parts e a :
  (∀ e x, f (Err e) x = Err e) → foldl f (Err e) parts ≠ Ok a.
Proof. intros Hf. induction parts as [|x parts IH]; simpl; [done|]. by rewrite Hf. Qed.
Lemma canonical_items canonical empty invalid parts acc l :
  listed_form canonical acc → foldl (canonical_item canonical empty invalid) (Ok acc) parts = Ok l →
  listed_form canonical l ∧ acc ⊆ l ∧ (parts ≠ [] → l ≠ []).
Proof.
  revert acc. induction parts as [|part parts IH]; intros acc Hacc; cbn [foldl]; [by intros [= <-]|].
  destruct (canonical_item canonical empty invalid (Ok acc) part) as [next|e] eqn:Hstep; [|intros Hl; by apply foldl_Err in Hl].
  unfold canonical_item in Hstep. apply result_bind_Ok in Hstep as (? & [= <-] & Hstep). cbv zeta in Hstep. destruct (String.eqb _ _); [done|].
  destruct (canonical _) as [c|] eqn:Hc; [|done]. injection Hstep as <-.
  destruct (listed_add canonical acc _ c Hacc Hc) as (Hnext & Hsub & Hin). intros Hl. apply IH in Hl as (Hl & Hmore & _); [|done].
  split_and!; [done|by etrans|]. intros _ ->. apply Hmore in Hin. by apply elem_of_nil in Hin.
Qed.
Lemma canonical_list_listed canonical empty invalid raw l :
  canonical_list canonical empty invalid raw = Ok l → listed_form canonical l ∧ l ≠ [].
Proof.
  intros Hl. apply canonical_items in Hl as (Hl & _ & Hne); [|split; [by apply NoDup_nil_2|by intros ? ?%elem_of_nil]].
  split; [done|]. apply Hne. destruct raw as [|c raw]; [done|]. cbn [split_byte].
  destruct (Ascii.eqb _ _); [done|]. by destruct (split_byte "," raw).
Qed.

Definition secure (o : string) : Prop := has_prefix o "https://" = true.
Lemma yodelOriginList_secure environ l :
  yodelOriginList environ "LAKE_PASS_YODEL_ORIGINS" = Ok l → l ≠ [] ∧ listed_form Canonical l ∧ Forall secure l.
Proof.
  unfold yodelOriginList. destruct (String.eqb _ _).
  - intros [= <-]. split_and!; [done|split; [apply NoDup_singleton|]|by repeat constructor].
    intros c ->%list_elem_of_singleton. exists DefaultYodelOrigin. by vm_compute.
  - intros (vs & Hvs & Hl)%result_bind_Ok. apply canonical_list_listed in Hvs as [Hform Hne].
    apply result_bind_Ok in Hl as (u & Hr & [= <-]). apply reject_Ok, negb_false_iff in Hr. split_and!; [done..|].
    apply Forall_forall. intros o Ho. rewrite forallb_forall in Hr. by apply Hr, list_elem_of_In.
Qed.

(** The hosts of the allowed origins, after the listed ones. *)
Definition origin_host (o : string) : result string := Host (UHost (default zero_url (url_Parse o))).
Lemma add_hosts origins hosts l :
  listed_form Host hosts → foldl add_host (Ok hosts) origins = Ok l →
  listed_form Host l ∧ hosts ⊆ l ∧ ∀ o, o ∈ origins → ∃ h, origin_host o = Ok h ∧ h ∈ l.
Proof.
  revert hosts. induction origins as [|o origins IH]; intros hosts Hhosts; cbn [foldl].
  { intros [= <-]. split_and!; [done..|by intros ? ?%elem_of_nil]. }
  destruct (add_host (Ok hosts) o) as [next|e] eqn:Hstep; [|intros Hl; by apply foldl_Err in Hl].
  unfold add_host in Hstep. apply result_bind_Ok in Hstep as (? & [= <-] & Hstep). apply result_bind_Ok in Hstep as (h & Hh & [= <-]).
  destruct (listed_add Host hosts _ h Hhosts Hh) as (Hnext & Hsub & Hin). intros Hl. apply IH in Hl as (Hl & Hmore & Hall); [|done].
  split_and!; [done|by etrans|]. intros o' [->|Ho]%elem_of_cons; [|by apply Hall]. exists h. split; [done|]. by apply Hmore.
Qed.

(** ** The configuration *)

Lemma listed_nil canonical : listed_form canonical [].
Proof. split; [by apply NoDup_nil_2|by intros ? ?%elem_of_nil]. Qed.

(** What the rest of the program relies on. *)
Record well_configured (c : Config) : Prop := {
  wc_jobs : 1 <= MaxConcurrentJobs c <= 8;
  wc_level : LogLevel c ∈ log_levels ∧ EffectiveLogLevel c = LogLevel c;
  wc_yodel : YodelOrigins c ≠ [] ∧ listed_form Canonical (YodelOrigins c) ∧ Forall secure (YodelOrigins c);
  wc_origins : listed_form Canonical (AllowedOrigins c);
  wc_hosts : listed_form Host (AllowedHosts c);
  wc_origin_hosts : ∀ o, o ∈ AllowedOrigins c → ∃ h, origin_host o = Ok h ∧ h ∈ AllowedHosts c;
  wc_boundary : ValidateHTTPBoundary (PublicOrigin c) (TrustedProxies c) = Ok tt;
  wc_local : PublicOrigin c = "" → TrustedProxies c = [];
  wc_public : PublicOrigin c ≠ "" → secure (PublicOrigin c) ∧ Canonical (PublicOrigin c) = Ok (PublicOrigin c)
    ∧ (1 <= List.length (TrustedProxies c) <= 16)%nat ∧ Forall (λ p, specific_proxy p = true) (TrustedProxies c);
  wc_key : MasterKeyExplicit c = true → absolute_file (EncryptionKeyPath c) = true;
  wc_browser : BrowserExecutable c ≠ "" → absolute_file (BrowserExecutable c) = true;
  wc_module : PythonModule c ≠ "buntzen_actions"
}.

Lemma log_level_kept level : level ∈ log_levels → logLevelValue level false = Ok level.
Proof. unfold log_levels. intros H. repeat (apply elem_of_cons in H as [->|H]; [by vm_compute|]). by apply elem_of_nil in H. Qed.
Lemma effective_known c : LogLevel c ∈ log_levels → EffectiveLogLevel c = LogLevel c.
Proof. intros H. unfold EffectiveLogLevel. by rewrite log_level_kept. Qed.
Lemma boundary_public origin proxies : ValidateHTTPBoundary origin proxies = Ok tt → origin ≠ "" →
  secure origin ∧ Canonical origin = Ok origin ∧ (1 <= List.length proxies <= 16)%nat ∧ Forall (λ p, specific_proxy p = true) proxies.
Proof.
  unfold ValidateHTTPBoundary. intros Hv Hne. rewrite (proj2 (String.eqb_neq _ _) Hne) in Hv. cbv zeta in Hv.
  destruct (Canonical origin) as [canonical|e] eqn:Hc; [|done]. inv_ok. bool_to_prop.
  match goal with H : String.eqb _ _ = true |- _ => apply String.eqb_eq in H; subst canonical end.
  split_and!; [done..| | |]; [destruct proxies; simpl in *; [done|lia]|by apply Nat.ltb_ge|].
  apply Forall_forall. intros p Hp. match goal with H : forallb _ _ = true |- _ => rewrite forallb_forall in H; by apply H, list_elem_of_In end.
Qed.

Lemma originList_listed environ name l : originList environ name = Ok l → listed_form Canonical l.
Proof.
  unfold originList. cbv zeta. destruct (String.eqb _ _); [intros [= <-]; apply listed_nil|]. intros Hl.
  by apply canonical_list_listed in Hl as [? _].
Qed.
Lemma hostList_listed environ name l : hostList environ name = Ok l → listed_form Host l.
Proof.
  unfold hostList. cbv zeta. destruct (String.eqb _ _); [intros [= <-]; apply listed_nil|]. intros Hl.
  by apply canonical_list_listed in Hl as [? _].
Qed.
Lemma loadHTTPBoundary_valid environ origin proxies :
  loadHTTPBoundary environ = Ok (origin, proxies) → ValidateHTTPBoundary origin proxies = Ok tt.
Proof. unfold loadHTTPBoundary. cbv zeta. intros Hl. inv_ok. by repeat match goal with u : () |- _ => destruct u end. Qed.
Lemma boundary_local proxies : ValidateHTTPBoundary "" proxies = Ok tt → proxies = [].
Proof. unfold ValidateHTTPBoundary. cbn. intros Hv. inv_ok. by destruct proxies. Qed.
Lemma explicit_path raw : negb (String.eqb raw "") && negb (absolute_file raw) = false → raw ≠ "" → absolute_file raw = true.
Proof. intros H Hne. rewrite (proj2 (String.eqb_neq _ _) Hne) in H. by apply negb_false_iff in H. Qed.

(** C40: a configuration that was loaded is well formed.  Whatever the environment and the
    files hold: the job limit is between 1 and 8 and the log level is one of the four; there
    is at least one Yodel origin and all of them are secure; the origin and host lists hold
    canonical forms without duplicates and every allowed origin's own host is allowed; the
    HTTP boundary is either local with no trusted proxy or a canonical HTTPS origin with one
    to sixteen narrow proxy networks; and explicit key and browser paths are absolute. *)
Theorem loaded_configuration_is_well_formed environ lstat working c :
  Load environ lstat working = Ok c → well_configured c.
Proof.
  intros Hload. unfold Load in Hload. cbv zeta in Hload.
  apply result_bind_Ok in Hload as (maxJobs & Hjobs & Hload). apply result_bind_Ok in Hload as (debug & _ & Hload).
  apply result_bind_Ok in Hload as (level & Hlevel & Hload). apply result_bind_Ok in Hload as (? & Hbrowser & Hload).
  apply result_bind_Ok in Hload as (policy & _ & Hload). apply result_bind_Ok in Hload as (origins & Horigins & Hload).
  apply result_bind_Ok in Hload as (yodel & Hyodel & Hload). apply result_bind_Ok in Hload as (listed & Hlisted & Hload).
  apply result_bind_Ok in Hload as (check & _ & Hload). apply result_bind_Ok in Hload as (hosts & Hhosts & Hload).
  apply result_bind_Ok in Hload as (? & Hkey & Hload). apply result_bind_Ok in Hload as (database & _ & Hload).
  apply result_bind_Ok in Hload as ([origin proxies] & Hboundary & [= <-]).
  apply boundedInt_range in Hjobs; [|by vm_compute]. apply logLevelValue_known in Hlevel.
  apply originList_listed in Horigins. apply hostList_listed in Hlisted. apply add_hosts in Hhosts as (Hhosts & _ & Hall); [|done].
  apply loadHTTPBoundary_valid in Hboundary. apply reject_Ok in Hbrowser, Hkey.
  constructor; [cbn|split; [|apply effective_known]|cbn..]; [done|done|done|by apply yodelOriginList_secure in Hyodel|done|done|done|done| |by apply boundary_public| |by apply explicit_path|].
  - intros ->. by apply boundary_local.
  - intros Hset. rewrite Hset. apply negb_true_iff, String.eqb_neq in Hset. by apply explicit_path.
  - by destruct (String.eqb_spec (or_else (setting environ "LAKE_PASS_ACTIONS_MODULE") "lake_pass_actions") "buntzen_actions").
Qed.

(** A public deployment behind one connector. *)
Definition sample_environ : gmap string string :=
  list_to_map [("MAX_CONCURRENT_JOBS", " 4 "); ("LAKE_PASS_LOG_LEVEL", "Warning"); ("BUNTZEN_ALLOWED_ORIGINS", "https://Pass.example:443,https://pass.example");
    ("LAKE_PASS_PUBLIC_ORIGIN", "https://pass.example"); ("LAKE_PASS_TRUSTED_PROXIES", "10.0.0.0/24")].
Lemma loaded_configuration_is_well_formed_witness : ∃ c,
  Load sample_environ (λ _, Err (Sentinel ErrNotExist)) "/srv" = Ok c ∧ well_configured c
  ∧ MaxConcurrentJobs c = 4 ∧ LogLevel c = "warn" ∧ AllowedHosts c = ["pass.example"] ∧ DatabasePath c = "/srv/appdata/lake-pass-bot.db".
Proof.
  destruct (Load sample_environ (λ _, Err (Sentinel ErrNotExist)) "/srv") as [c|e] eqn:Hload; [|by vm_compute in Hload].
  exists c. split; [done|]. split; [exact (loaded_configuration_is_well_formed _ _ _ _ Hload)|].
  vm_compute in Hload. injection Hload as <-. by vm_compute.
Defined.
