(* ===== verification/ControlPlane.v ===== *)
(** * Control planes on one directory (src/cmd/lake-pass-bot; Start, Stop and worker of
    src/internal/engine/engine.go)

    Several processes may be started on one directory of data: a server, commands that
    queue one job, and anything that dies on the way.  A lock decides which of them recovers
    the jobs a predecessor left and runs the workers; the others only queue and wait.  The
    processes, their workers and everybody who calls the store take atomic steps in any
    order. *)

From S2P Require Import Prelude GoStrings GoTime GoUrl Json Secrets Redaction Auth Origin Domain Scheduler Database.
From S2P Require Import JobStore Samples JobInvariants EventStore JobOperations JobHistory JobLemmas ResourceStore ProfileStore.
From S2P Require Import SettingsStore AccountStore AccountInvariants ResourceInvariants SystemInvariants System SystemHistory.
From S2P Require Import SystemSamples ActionProc BookingQueue Egress Config.
From Stdlib Require Import Ascii String.

Open Scope Z_scope.

(** ** Numbers on the command line: [strconv.ParseInt(s, 0, 64)] *)

Definition literal_base (s : string) : Z * string :=
  match s with
  | String "0" rest =>
      match rest with
      | String x (String _ _ as digits) =>
          let x := lower_byte x in
          if Ascii.eqb x "b" then (2, digits) else if Ascii.eqb x "o" then (8, digits)
          else if Ascii.eqb x "x" then (16, digits) else (8, rest)
      | _ => (8, rest)
      end
  | _ => (10, s)
  end.
Definition literal_digit (c : ascii) : option Z :=
  let c := lower_byte c in
  if is_digit c then Some (digit_value c)
  else if in_range 97 122 c then Some (digit_value c - 39) else None.
Fixpoint literal_digits (base : Z) (s : string) (acc : Z) : option Z :=
  match s with
  | EmptyString => Some acc
  | String c rest =>
      if Ascii.eqb c "_" then literal_digits base rest acc
      else d ← literal_digit c; if base <=? d then None else literal_digits base rest (acc * base + d)
  end.
(** [underscoreOK]: an underscore stands between digits, or between a prefix and a digit. *)
Fixpoint underscores_ok (hex : bool) (prev : ascii) (s : string) : bool :=
  match s with
  | EmptyString => negb (Ascii.eqb prev "_")
  | String c rest =>
      if is_digit c || (hex && in_range 97 102 (lower_byte c)) then underscores_ok hex "0" rest
      else if Ascii.eqb c "_" then Ascii.eqb prev "0" && underscores_ok hex "_" rest
      else negb (Ascii.eqb prev "_") && underscores_ok hex "!" rest
  end.
Definition underscoreOK (s : string) : bool :=
  match s with
  | String "0" (String x rest) =>
      let x' := lower_byte x in
      if one_of "box" x' then underscores_ok (Ascii.eqb x' "x") "0" rest else underscores_ok false "^" s
  | _ => underscores_ok false "^" s
  end.
Definition parse_literal (s : string) : option Z :=
  let '(negative, text) := match s with
    | String c rest => if Ascii.eqb c "-" then (true, rest) else if Ascii.eqb c "+" then (false, rest) else (false, s)
    | EmptyString => (false, s)
    end in
  if String.eqb text "" then None
  else
    let '(base, digits) := literal_base text in
    v ← literal_digits base digits 0;
    if negb (underscoreOK text) then None
    else if negative then (if v <=? 2 ^ 63 then Some (- v) else None) else (if v <? 2 ^ 63 then Some v else None).

(** ** Commands (main.go, jobs.go) *)

Record jobCommand := MkJobCommand { jc_command : JobCommand; jc_booking : Z; jc_mode : RunMode }.

(** [flag.FlagSet.Parse] with the flags [booking] and [mode]. *)
Definition known_flag (name : string) : result unit :=
  if String.eqb name "booking" || String.eqb name "mode" then Ok tt
  else if String.eqb name "help" || String.eqb name "h" then Err (Errorf "flag: help requested")
  else Err (Errorf ("flag provided but not defined: -" +:+ name)).
Definition set_flag (name value : string) (flags : Z * string) : result (Z * string) :=
  if String.eqb name "booking" then
    id ← of_option (Errorf ("invalid value " +:+ quoted value +:+ " for flag -booking")) (parse_literal value);
    Ok (id, flags.2)
  else Ok (flags.1, value).
Fixpoint parse_flags (args : list string) (flags : Z * string) : result ((Z * string) * list string) :=
  match args with
  | [] => Ok (flags, [])
  | s :: rest =>
      if (len s <? 2) || negb (has_prefix s "-") then Ok (flags, args)
      else if String.eqb s "--" then Ok (flags, rest)
      else
        let name := drop_bytes (if has_prefix s "--" then 2 else 1) s in
        if has_prefix name "-" || has_prefix name "=" then Err (Errorf ("bad flag syntax: " +:+ s))
        else
          match cut "=" name with
          | Some (name, value) => _ ← known_flag name; flags ← set_flag name value flags; parse_flags rest flags
          | None =>
              _ ← known_flag name;
              match rest with
              | [] => Err (Errorf ("flag needs an argument: -" +:+ name))
              | value :: rest => flags ← set_flag name value flags; parse_flags rest flags
              end
          end
  end.

Definition parseJobCommand (commandName : string) (args : list string) : result jobCommand :=
  '(flags, positional) ← parse_flags args (0, "");
  _ ← reject (negb (is_nil positional)) (Errorf (commandName +:+ " does not accept positional arguments"));
  _ ← reject (flags.1 <=? 0) (Errorf (commandName +:+ " requires --booking ID"));
  let command := JobCommand_of commandName in
  let requested := trim_space flags.2 in
  mode ← (if bool_decide (command = CommandDryRun) then
            _ ← reject (negb (String.eqb requested "")) (Errorf "--mode is only valid for book");
            Ok RunModeDryRun
          else if bool_decide (command = CommandBook) && negb (String.eqb requested "") then
            let mode := RunMode_of requested in
            _ ← reject (negb (bool_decide (mode = RunModeManual)) && negb (bool_decide (mode = RunModeAuto)))
                  (Errorf "book --mode must be manual or auto");
            Ok mode
          else
            _ ← reject (negb (bool_decide (command = CommandBook)) && negb (String.eqb requested ""))
                  (Errorf "--mode is only valid for book");
            Ok (RunModeOther ""));
  Ok (MkJobCommand command flags.1 mode).

Inductive invocation := Version | Serve | Doctor | MigrateOnly | AdminReset | OneShot (command : jobCommand).
Definition usageError : error :=
  Errorf "usage: lake-pass-bot {serve|doctor|version|migrate|auth-check|dry-run|book|admin-password reset}; auth-check, dry-run, and book require --booking ID".
(** What [run] decides before it opens anything. *)
Definition parse_args (args : list string) : result invocation :=
  match args with
  | [] => Err usageError
  | name :: rest =>
      let alone inv := _ ← reject (negb (is_nil rest)) (Errorf ("usage: lake-pass-bot " +:+ name)); Ok inv in
      if String.eqb name "version" then alone Version
      else if String.eqb name "serve" then alone Serve
      else if String.eqb name "doctor" then alone Doctor
      else if String.eqb name "migrate" then alone MigrateOnly
      else if String.eqb name "admin-password" then
        match rest with
        | [what] => if String.eqb what "reset" then Ok AdminReset else Err (Errorf "usage: lake-pass-bot admin-password reset")
        | _ => Err (Errorf "usage: lake-pass-bot admin-password reset")
        end
      else if bool_decide (name ∈ ["auth-check"; "dry-run"; "book"]) then
        command ← parseJobCommand name rest; Ok (OneShot command)
      else Err usageError
  end.

Example command_line_examples :
  parse_args ["book"; "--booking"; "7"] = Ok (OneShot (MkJobCommand CommandBook 7 (RunModeOther "")))
  ∧ parse_args ["book"; "-booking=0x1_0"; "-mode"; " auto "] = Ok (OneShot (MkJobCommand CommandBook 16 RunModeAuto))
  ∧ parse_args ["dry-run"; "-booking"; "3"] = Ok (OneShot (MkJobCommand CommandDryRun 3 RunModeDryRun))
  ∧ is_ok (parse_args ["dry-run"; "-booking"; "3"; "-mode"; "auto"]) = false
  ∧ is_ok (parse_args ["book"; "-booking"; "1__0"]) = false ∧ is_ok (parse_args ["book"; "-booking"; "08"]) = false
  ∧ is_ok (parse_args ["serve"; "now"]) = false ∧ parse_args ["admin-password"; "reset"] = Ok AdminReset.
Proof. repeat split; vm_compute; reflexivity. Qed.

(** ** The health of a server, and the doctor (jobs.go, doctor.go) *)

(** The address a command asks whether the owner of the directory serves. *)
Definition health_target (listenAddress : string) : option string :=
  '(host, port) ← SplitHostPort listenAddress;
  let host := if bool_decide (host ∈ [""; "0.0.0.0"; "::"]) then "127.0.0.1" else host in
  Some ("http://" +:+ JoinHostPort host port +:+ "/healthz").
Definition servingControlPlaneHealthy (listenAddress : string) (get : string → option Z) : bool :=
  match health_target listenAddress ≫= get with Some status => status =? 200 | None => false end.

(** What the doctor finds: whether the worker started, and its first frame, the end of its
    frames ([Some None]) or no answer in time. *)
Definition worker_ready (frame : Frame) : bool :=
  String.eqb (FType frame) "worker.ready"
  && match field "action" (FPayload frame) with Some (JString action) => String.eqb action "yodel" | _ => false end
  && match field "protocol" (FPayload frame) with Some (JNumber t) => float_is_two t | _ => false end.
Definition doctorPython (started : bool) (first : option (option Frame)) : bool * string :=
  if negb started then (false, "Python action worker could not start")
  else match first with
       | None => (false, "Python action worker readiness timed out")
       | Some None => (false, "Python action worker did not negotiate protocol v2")
       | Some (Some frame) =>
           if worker_ready frame then (true, "") else (false, "Python action worker did not negotiate protocol v2")
       end.
Definition runDoctor (schema : result Z) (python : bool * string) (providers : result (list (option error))) : result unit :=
  _ ← schema;
  reports ← providers;
  reject (negb (String.eqb python.2 "" && forallb (λ r, negb (is_some r)) reports)) (Errorf "doctor checks failed").

(** ** Waiting for a job (engine.go) *)

(** What the polls read, an error of the store or of the caller's context among it; [None]
    is a wait that goes on. *)
Fixpoint SystemWait (reads : list (result Job)) : option (result Job) :=
  match reads with
  | [] => None
  | Err e :: _ => Some (Err e)
  | Ok job :: rest => if Terminal (JStatus job) then Some (Ok job) else SystemWait rest
  end.
(** How a command that queues a job ends; when it is interrupted it also requests the
    cancellation of the job. *)
Definition one_shot_result (interrupted : bool) (waited : result Job) : result unit :=
  match waited with
  | Err e => Err (if interrupted then Errorf "interrupted; durable job cancellation was requested" else e)
  | Ok finished =>
      if bool_decide (JStatus finished = JobSucceeded) then Ok tt
      else Err (Errorf ("job " +:+ format_int (JID finished) +:+ " did not succeed: " +:+ JMessage finished))
  end.

(** ** Processes *)

Inductive worker := Idle | Busy (id : Z) | Left.
(** [Opened]: the database is open and the lock not tried.  [Owner] and [Recovered] hold the
    lock, before and after the recovery; [Working] and [Stopping] run workers; a [Guest] is
    a command that found the lock taken by a server that answers. *)
Inductive stage := Opened | Owner | Recovered | Working | Stopping | Guest | Ended.
Record process := MkProcess {
  pr_invocation : invocation; pr_config : Config; pr_workerOwner : string;
  pr_stage : stage; pr_workers : list worker }.
Record shared := MkShared { sh_db : db; sh_lock : option nat; sh_processes : gmap nat process }.

Definition owning (s : stage) : bool := match s with Owner | Recovered | Working | Stopping => true | _ => false end.
Definition has_engine (s : stage) : bool := match s with Working | Stopping => true | _ => false end.
Definition at_stage (s : stage) (pr : process) : process :=
  MkProcess (pr_invocation pr) (pr_config pr) (pr_workerOwner pr) s (pr_workers pr).
Definition with_workers (ws : list worker) (pr : process) : process :=
  MkProcess (pr_invocation pr) (pr_config pr) (pr_workerOwner pr) (pr_stage pr) ws.
(** The name a worker claims jobs under. *)
Definition worker_name (pr : process) (i : nat) : string :=
  trim_space (pr_workerOwner pr +:+ "-" +:+ format_int (Z.of_nat i)).
(** [Engine.Start] *)
Definition start_workers (pr : process) : process :=
  with_workers (replicate (Z.to_nat (MaxConcurrentJobs (pr_config pr))) Idle) (at_stage Working pr).
Definition put (p : nat) (pr : process) (w : shared) : shared :=
  MkShared (sh_db w) (sh_lock w) (<[p := pr]> (sh_processes w)).
Definition with_shared_db (s : db) (w : shared) : shared := MkShared s (sh_lock w) (sh_processes w).
(** The end of a process releases a lock it holds; its workers go with it. *)
Definition end_process (p : nat) (pr : process) (w : shared) : shared :=
  MkShared (sh_db w) (if bool_decide (sh_lock w = Some p) then None else sh_lock w)
    (<[p := with_workers [] (at_stage Ended pr)]> (sh_processes w)).

Section planes.
Context `{AEAD} `{Hashes} `{TimeZoneDB}.

(** [NewServer] *)
Definition NewServer (cfg : Config) : ST db unit :=
  _ ← lift (ValidateHTTPBoundary (PublicOrigin cfg) (TrustedProxies cfg));
  hasUsers ← HasUsers;
  _ ← st_reject (negb hasUsers && negb (String.eqb (PublicOrigin cfg) ""))
        (Errorf "complete administrator setup on private HTTP before enabling public HTTPS mode");
  if negb hasUsers && negb (String.eqb (SetupToken cfg) "") then lift (ValidateSetupToken (SetupToken cfg)) else mret tt.
(** The mode an owning command runs a booking in: approvals need a server. *)
Definition owner_mode (c : jobCommand) : ST db RunMode :=
  if bool_decide (jc_command c = CommandBook) && negb (bool_decide (jc_mode c = RunModeAuto)) then
    booking ← SystemGetBookingRequest (jc_booking c);
    let mode := if bool_decide (jc_mode c = RunModeOther "") then BConfirmationMode booking else jc_mode c in
    _ ← st_reject (bool_decide (mode = RunModeManual))
          (Errorf "manual book requires the running web control plane for approval; start serve or use --mode auto");
    mret mode
  else mret (jc_mode c).
(** What an owner does before the recovery, and after it before the workers start. *)
Definition before_recovery (inv : invocation) : ST db unit :=
  match inv with
  | OneShot c => _ ← owner_mode c; mret tt
  | _ => _ ← HasUsers; mret tt
  end.
Definition before_workers (pr : process) : ST db unit :=
  match pr_invocation pr with Serve => NewServer (pr_config pr) | _ => mret tt end.
Definition competes (inv : invocation) : bool := match inv with Serve | OneShot _ => true | _ => false end.

(** The calls only the workers make of a job they claimed, and everything else. *)
Definition own_call (id : Z) (o : op) : bool :=
  match o with
  | OpSystemTransitionJob id' _ _ _ _ | OpSystemMarkConfirmationStarted id' _ => id' =? id
  | _ => false
  end.
Definition outside_call (o : op) : bool :=
  match o with
  | OpSystemClaimNextDueJobAt _ _ | OpSystemTransitionJob _ _ _ _ _ | OpSystemMarkConfirmationStarted _ _
  | OpSystemRecoverInterruptedJobs _ => false
  | _ => true
  end.

Inductive label := Comes (p : nat) | Main (p : nat) | Works (p i : nat) | Calls (p : nat) | Dies (p : nat).
Notation process_at w p pr := (sh_processes w !! p = Some pr).
Inductive step : label → shared → shared → Prop :=
  | comes w p pr :
      sh_processes w !! p = None → pr_stage pr = Opened → pr_workers pr = [] → step (Comes p) w (put p pr w)
  (* [runServe], [runJobCommand] *)
  | takes_lock w p pr :
      process_at w p pr → pr_stage pr = Opened → competes (pr_invocation pr) = true → sh_lock w = None →
      step (Main p) w (MkShared (sh_db w) (Some p) (<[p := at_stage Owner pr]> (sh_processes w)))
  | finds_server w p pr c get :
      process_at w p pr → pr_stage pr = Opened → pr_invocation pr = OneShot c → sh_lock w ≠ None →
      servingControlPlaneHealthy (ListenAddress (pr_config pr)) get = true →
      step (Main p) w (put p (at_stage Guest pr) w)
  | recovers w p pr now s n :
      process_at w p pr → pr_stage pr = Owner → is_ok (before_recovery (pr_invocation pr) (sh_db w)).2 = true →
      SystemRecoverInterruptedJobs now (sh_db w) = (s, Ok n) →
      step (Main p) w (with_shared_db s (put p (at_stage Recovered pr) w))
  | starts_workers w p pr :
      process_at w p pr → pr_stage pr = Recovered → is_ok (before_workers pr (sh_db w)).2 = true →
      step (Main p) w (put p (start_workers pr) w)
  | stops w p pr :
      process_at w p pr → pr_stage pr = Working → step (Main p) w (put p (at_stage Stopping pr) w)
  (* the deferred calls: the workers are waited for before the lock is released *)
  | ends w p pr :
      process_at w p pr → (has_engine (pr_stage pr) = true → pr_stage pr = Stopping ∧ Forall (eq Left) (pr_workers pr)) →
      step (Main p) w (end_process p pr w)
  (* [Engine.worker] *)
  | claims w p pr i now s job :
      process_at w p pr → has_engine (pr_stage pr) = true → pr_workers pr !! i = Some Idle →
      SystemClaimNextDueJobAt (pr_workerOwner pr +:+ "-" +:+ format_int (Z.of_nat i)) now (sh_db w) = (s, Ok job) →
      step (Works p i) w (with_shared_db s (put p (with_workers (<[i := Busy (JID job)]> (pr_workers pr)) pr) w))
  | waits w p pr i now s e :
      process_at w p pr → has_engine (pr_stage pr) = true → pr_workers pr !! i = Some Idle →
      SystemClaimNextDueJobAt (pr_workerOwner pr +:+ "-" +:+ format_int (Z.of_nat i)) now (sh_db w) = (s, Err e) →
      step (Works p i) w (with_shared_db s w)
  | acts w p pr i id o :
      process_at w p pr → pr_workers pr !! i = Some (Busy id) → own_call id o = true →
      step (Works p i) w (with_shared_db (exec o (sh_db w)) w)
  | settles w p pr i id :
      process_at w p pr → pr_workers pr !! i = Some (Busy id) →
      step (Works p i) w (put p (with_workers (<[i := Idle]> (pr_workers pr)) pr) w)
  | leaves w p pr i :
      process_at w p pr → pr_stage pr = Stopping → pr_workers pr !! i = Some Idle →
      step (Works p i) w (put p (with_workers (<[i := Left]> (pr_workers pr)) pr) w)
  (* handlers, which may outlast the lock, maintenance, queueing and waiting, and commands that
     only read or reset: any other call *)
  | calls w p pr o :
      process_at w p pr → outside_call o = true →
      step (Calls p) w (with_shared_db (exec o (sh_db w)) w)
  | dies w p pr : process_at w p pr → step (Dies p) w (end_process p pr w).

(** A directory as anybody may have left it. *)
Definition left_behind (w : shared) : Prop := reachable (sh_db w) ∧ sh_lock w = None ∧ sh_processes w = ∅.
Inductive runs : shared → Prop :=
  | runs_start w : left_behind w → runs w
  | runs_step l w w' : runs w → step l w w' → runs w'.

(** Worker [i] of [p] has a job; its row says so. *)
Definition busy (w : shared) (p i : nat) (id : Z) : Prop :=
  ∃ pr, process_at w p pr ∧ pr_workers pr !! i = Some (Busy id).
Definition claim_of (j : Job) : option string := if is_active (JStatus j) then Some (JWorkerOwner j) else None.
Definition claimed (s : db) (id : Z) : option string := jobs s !! id ≫= claim_of.
Definition working (w : shared) (p i : nat) (id : Z) : Prop :=
  ∃ pr, process_at w p pr ∧ pr_workers pr !! i = Some (Busy id) ∧ claimed (sh_db w) id = Some (worker_name pr i).
End planes.

(** ** What a call leaves of the jobs others work on *)

(** The invariant of the tables, and a job that is claimed under a name. *)
Definition kept (id : Z) (name : string) (s : db) : Prop := db_inv s ∧ claimed s id = Some name.
Lemma claimed_Some s id name :
  claimed s id = Some name ↔ ∃ j, jobs s !! id = Some j ∧ is_active (JStatus j) = true ∧ JWorkerOwner j = name.
Proof.
  unfold claimed, claim_of. destruct (jobs s !! id) as [j|]; simpl; [|by split; [|intros (? & ? & _)]].
  destruct (is_active (JStatus j)) eqn:Ha; split.
  - intros [= <-]. by exists j.
  - by intros (? & [= <-] & _ & <-).
  - done.
  - intros (? & [= <-] & ? & _). congruence.
Qed.
Lemma claimed_same s s' id : jobs s' = jobs s → claimed s' id = claimed s id.
Proof. unfold claimed. by intros ->. Qed.
Lemma delete_jobs_claimed ids s id name :
  (∀ k j, k ∈ ids → jobs s !! k = Some j → is_active (JStatus j) = false) →
  claimed s id = Some name → claimed (delete_jobs ids s) id = Some name.
Proof.
  intros Hover Hc. unfold claimed in *. rewrite delete_jobs_jobs. case_bool_decide as Hin; [|done].
  destruct (jobs s !! id) as [j|] eqn:Hj; [|done]. specialize (Hover id j Hin Hj). simpl in Hc. unfold claim_of in Hc. by rewrite Hover in Hc.
Qed.
Lemma retained_inactive st : is_retained_status st = true → is_active st = false.
Proof. by destruct st. Qed.

Lemma put_job_claimed st new s id name :
  claimed s id = Some name → (JID new = id → claim_of new = Some name) → claimed (put_job st new s).1 id = Some name.
Proof.
  intros Hc Hnew. unfold put_job in *. destruct (negb _); [done|]. cbn [fst].
  assert (Hc1 : claimed (set_jobs (<[JID new := new]>) s) id = Some name).
  { unfold claimed. simpl. destruct (decide (JID new = id)) as [<-|Hne]; [rewrite lookup_insert_eq; by apply Hnew|by rewrite lookup_insert_ne]. }
  destruct st; [|done]. unfold after_status_update. set (s1 := set_jobs _ s) in *.
  assert (Hc2 : claimed (if is_retained_status (JStatus new) then delete_jobs (history_excess new s1) s1 else s1) id = Some name).
  { destruct (is_retained_status _); [|done]. apply delete_jobs_claimed; [|done]. intros k j Hk Hj.
    by eapply retained_inactive, history_excess_retained. }
  by destruct (_ && _).
Qed.
Lemma update_job_claimed k where_ set_row st s id name :
  claimed s id = Some name →
  (∀ j, jobs s !! k = Some j → where_ j = true → JID (set_row j) = id → claim_of (set_row j) = Some name) →
  claimed (update_job k where_ set_row st s).1 id = Some name.
Proof.
  intros Hc Hrow. unfold update_job. rewrite ST_bind_unfold. cbn [gets]. destruct (jobs s !! k) as [j|]; [|done].
  destruct (where_ j) eqn:Hw; [|done]. rewrite ST_bind_unfold.
  pose proof (put_job_claimed st (set_row j) s id name Hc (Hrow j eq_refl Hw)) as Hput.
  by destruct (put_job st (set_row j) s) as [s' [u|e]].
Qed.
Lemma update_job_kept k where_ set_row st s id name :
  kept id name s →
  (∀ j, jobs s !! k = Some j → where_ j = true → row_step j (set_row j) ∧ (k = id → claim_of (set_row j) = Some name)) →
  kept id name (update_job k where_ set_row st s).1.
Proof.
  intros [Hs Hc] Hrow. split; [apply (update_job_stable_at (I := db_inv)); [done|]; intros; by apply Hrow|].
  apply update_job_claimed; [done|]. intros j Hj Hw Hid. destruct (Hrow j Hj Hw) as [Hstep Hclaim]. apply Hclaim.
  rewrite <- Hid, (rs_id _ _ Hstep). symmetry. by apply (inv_job_key _ Hs).
Qed.

(** An update that leaves active rows active and with their worker. *)
Definition spares (where_ : Job → bool) (set_row : Job → Job) : Prop :=
  ∀ j, where_ j = true → is_active (JStatus j) = true → claim_of (set_row j) = claim_of j.
Lemma spared_update_kept k where_ set_row st id name :
  legal_update where_ set_row → spares where_ set_row → preserves (kept id name) (update_job k where_ set_row st).
Proof.
  intros Hleg Hsp s Hs. apply update_job_kept; [done|]. intros j Hj Hw. destruct Hs as [Hs Hc]. split.
  - apply Hleg; [by apply (inv_checks _ Hs k)|done].
  - intros ->. unfold claimed in Hc. rewrite Hj in Hc. simpl in Hc. rewrite Hsp; [done|done|].
    unfold claim_of in Hc. by destruct (is_active (JStatus j)).
Qed.
Lemma spared_updates_kept where_ set_row st id name :
  legal_update where_ set_row → spares where_ set_row → preserves (kept id name) (update_jobs where_ set_row st).
Proof.
  intros Hleg Hsp. apply update_jobs_keeps; [by intros s [? _]|done|]. intros k s Hs Hw.
  apply update_job_kept; [done|]. intros j Hj _. destruct Hs as [Hs Hc]. split.
  - apply Hleg; [by apply (inv_checks _ Hs k)|by apply Hw].
  - intros ->. unfold claimed in Hc. rewrite Hj in Hc. simpl in Hc. rewrite Hsp; [done|by apply Hw|].
    unfold claim_of in Hc. by destruct (is_active (JStatus j)).
Qed.
Lemma expire_spares now : spares (stale now) (expire_row now).
Proof. intros j Hw Ha. unfold stale in Hw. bool_to_prop. match goal with H : JStatus j = _ |- _ => by rewrite H in Ha end. Qed.
Lemma cancel_spares p message now : spares p (cancel_row message now).
Proof.
  intros j _ Ha. unfold claim_of, cancel_row. cbv zeta. destruct (bool_decide (JStatus j = JobQueued)) eqn:Hq; [|done].
  bool_to_prop. match goal with H : JStatus j = _ |- _ => by rewrite H in Ha end.
Qed.

Section kept.
Context (id : Z) (name : string).
Notation kept := (kept id name).

(** Calls that do not write the job table. *)
Lemma untouched_kept {A} (m : ST db A) : preserves db_inv m → (∀ s0, preserves (job_frame s0) m) → preserves kept m.
Proof using Type.
  intros Hdb Hm s [Hs Hc]. split; [by apply Hdb|]. destruct (Hm s s) as [Hj _]; [done|].
  by rewrite (claimed_same s).
Qed.
Lemma same_jobs_kept f : (∀ s, db_inv s → db_inv (f s)) → (∀ s, jobs (f s) = jobs s) → preserves kept (modify f).
Proof using Type. intros Hf Hj. apply preserves_modify. intros s [Hs Hc]. split; [auto|]. by rewrite (claimed_same s). Qed.

Lemma expire_kept now : preserves kept (SystemExpireStaleJobs now).
Proof using Type. apply map_err_system, spared_updates_kept; [apply expire_legal|apply expire_spares]. Qed.
Lemma cancel_kept uid k now : preserves kept (requestJobCancellation uid k now).
Proof using Type.
  apply preserves_bind; [|intros [j|]; auto with preserves].
  apply map_err_system, spared_update_kept; [apply cancel_legal|apply cancel_spares].
Qed.
Lemma prune_kept uid now : preserves kept (pruneJobHistory uid now).
Proof using Type.
  intros s [Hs Hc]. split; [by apply pruneJobHistory_stable|]. unfold pruneJobHistory. cbn.
  apply delete_jobs_claimed; [|done]. intros k j Hk Hj. by eapply retained_inactive, pruned_ids_retained.
Qed.
Lemma insert_kept row s : kept s → fresh_row (next_job s) (row (next_job s)) →
  pending_count (JUserID (row (next_job s))) s < MaxPendingJobsPerUser → kept (insert_job row s).1.
Proof using Type.
  intros [Hs Hc] Hfresh Hp. split; [by apply insert_job_inv|].
  destruct (insert_job row s) as [s' [k|e]] eqn:Hins; [|apply atomically_Err in Hins as ->; done].
  apply insert_job_Ok in Hins as (-> & _ & _ & _ & s1 & -> & Hres & _). cbn [fst].
  assert (Hj : jobs s' = <[next_job s := row (next_job s)]> (jobs s)).
  { by apply reserve_booking_Ok in Hres as [[-> _]|(slot & _ & _ & _ & ->)]. }
  unfold claimed. rewrite Hj, lookup_insert_ne; [done|]. intros Heq.
  apply claimed_Some in Hc as (j & Hjob & _). apply (inv_job_key _ Hs) in Hjob as [_ ?]. lia.
Qed.
End kept.

#[local] Instance kept_calm id name : job_calm (kept id name).
Proof.
  split.
  - by intros s [].
  - intros s ids [Hs Hc] Hids. split; [by apply js_prune|]. apply delete_jobs_claimed; [|done]. intros k j Hk Hj.
    by eapply retained_inactive, Hids.
  - intros s row. apply insert_kept.
  - intros s row [Hs Hc] Hid. split; [by apply insert_booking_inv|done].
  - intros s uid k d now [Hs Hc]. split; [by apply insert_decision_inv|]. rewrite <- Hc. apply claimed_same.
    unfold insert_decision. destruct (jobs s !! k); [|done]. by destruct (_ && _).
  - intros s row k [Hs Hc] Hrow. split; [by apply insert_event_inv|]. rewrite <- Hc. apply claimed_same.
    unfold insert_event. by destruct (jobs s !! k).
Qed.

Lemma writes_no_job {A} f (m : ST db A) s s' r :
  (∀ x, jobs (m x).1 = jobs x) → map_err f m s = (s', r) → jobs s' = jobs s.
Proof. intros Hm. unfold map_err. specialize (Hm s). by destruct (m s) as [s1 [a|e]]; intros [= <- _]. Qed.
Lemma delete_profiles_jobs gone s : jobs (delete_profiles gone s).1 = jobs s.
Proof. unfold delete_profiles. cbv zeta. by destruct (existsb _ _). Qed.
Ltac still_jobs := first
  [ apply delete_profiles_jobs
  | unfold delete_bookings_of; cbv beta zeta; by case_match
  | unfold delete_sources; by case_match
  | unfold delete_user; by repeat case_match ].
Lemma DeleteMember_kept uid username s id name :
  claimed s id = Some name → claimed (DeleteMember uid username s).1 id = Some name.
Proof.
  intros Hc. set (P := λ s' : db, claimed s' id = Some name). change (P (DeleteMember uid username s).1). unfold DeleteMember.
  apply bind_inv_at; [done|]. intros s0 [] [-> _]%st_reject_Ok _. apply atomically_inv_at; [done|]. intros s' [] Hrun.
  unfold getUser in Hrun. inv_ok.
  repeat match goal with H : map_err _ _ _ = _ |- _ => apply writes_no_job in H; [|intros; by still_jobs] end.
  unfold P. rewrite (claimed_same (delete_jobs (select (λ j, JUserID j =? uid) (jobs s)).*1 s)).
  - apply delete_jobs_claimed; [|done]. intros k j Hk Hj. apply elem_of_select_keys in Hk as (j' & Hj' & Hu). simplify_eq.
    match goal with H : exists_row _ _ = false |- _ => apply exists_row_false in H; specialize (H k _ Hj'); cbn in H; rewrite Hu in H; simpl in H end.
    destruct (is_active _) eqn:Ha; [|done]. apply is_active_pending in Ha. congruence.
  - repeat match goal with H : jobs _ = jobs _ |- _ => cbn in H; rewrite H; clear H end.
    apply map_eq. intros k. by rewrite !delete_jobs_jobs.
Qed.

Section exec.
Context `{AEAD} `{Hashes} `{TimeZoneDB}.

(** No call from outside takes a job from its worker. *)
Lemma exec_claimed o s id name :
  system_inv s → outside_call o = true → claimed s id = Some name → claimed (exec o s) id = Some name.
Proof.
  intros Hs Ho Hc. assert (Hk : kept id name s) by (split; [apply Hs|done]).
  destruct (writes_jobs o) eqn:Hw; [|by destruct (exec_untouched o s Hw) as [Hj _]; rewrite (claimed_same s)].
  destruct o; try discriminate Ho; try discriminate Hw; cbn [exec].
  all: try (match goal with |- claimed ?x.1 _ = _ => match x with ?m _ => assert (Hp : preserves (kept id name) m); [|exact (proj2 (Hp s Hk))] end end;
    first [ apply enqueueJob_stable | apply EnqueueBookingRequest_stable | apply cancel_kept | apply expire_kept
    | apply RecordJobDecision_stable | apply SystemAppendJobEvent_stable
    | apply SystemPruneTerminalJobs_stable; [apply _|]; intros s1 [Hs1 Hc1]; split; [apply drop_detached_inv; [|done];
        intros [slot [k|]]; unfold expired_guard; simpl; done|done]
    | apply preserves_bind; [auto with preserves|intros _]; first [apply enqueueJob_stable | apply cancel_kept]]).
  - unfold DeleteProfile. set (P := λ s', claimed s' id = Some name).
    apply (bind_inv_at P); [done|]. intros s1 [] [-> _]%st_reject_Ok _.
    apply (bind_inv_at P); [done|]. intros s1 row [-> _]%gets_Ok _. apply (bind_inv_at P); [done|]. intros s1 chosen [-> _]%gets_Ok _.
    destruct row; [|done]. destruct chosen; [done|]. pose proof (delete_profiles_jobs [id0] s) as Hj. unfold map_err.
    destruct (delete_profiles [id0] s) as [s' [u|e]]; unfold P; cbn [fst] in *; by rewrite (claimed_same s).
  - apply UpdateUser_keeps; [done|done| |].
    + intros s1 _ (Hj & _). by rewrite (claimed_same s).
    + intros s1 [Hdb1 _] Hc1. apply (spared_updates_kept _ _ true id name); [apply disable_legal|apply cancel_spares|by split].
  - by apply DeleteMember_kept.
Qed.
End exec.

(** Calls on one job leave the claims of the others. *)
Lemma own_call_claimed `{AEAD} `{Hashes} `{TimeZoneDB} o k s id name :
  db_inv s → own_call k o = true → k ≠ id → claimed s id = Some name → claimed (exec o s) id = Some name.
Proof.
  intros Hs Ho Hne Hc. set (P := λ s', claimed s' id = Some name).
  assert (Hup : ∀ where_ set_row st f, (∀ j, JID (set_row j) = JID j) → P (map_err f (update_job k where_ set_row st) s).1).
  { intros where_ set_row st f Hid. assert (Hj : P (update_job k where_ set_row st s).1).
    - apply update_job_claimed; [done|]. intros j Hj _ Heq. rewrite Hid in Heq. apply (inv_job_key _ Hs) in Hj as [? _]. congruence.
    - unfold map_err. by destruct (update_job k where_ set_row st s) as [? [?|?]]. }
  destruct o; try discriminate Ho; cbn [own_call] in Ho; apply Z.eqb_eq in Ho as ->; cbn [exec].
  - unfold SystemTransitionJob. do 2 (apply (bind_inv_at P); [done|]; intros s1 [] [-> _]%st_reject_Ok _).
    apply (bind_inv_at P); [unfold SystemGetJob; by apply (bind_inv_at P)|]. intros s1 current Hcur _. unfold SystemGetJob in Hcur. inv_ok.
    apply (bind_inv_at P); [done|]. intros s1 [] [-> _]%st_reject_Ok _.
    apply (bind_inv_at P); [done|]. intros s1 active [-> _]%gets_Ok _.
    apply (bind_inv_at P); [apply Hup|intros s1 [j|] _ Hp; [by apply SystemGetJob_stable|done]].
    intros j. unfold transition_row. cbv zeta. by repeat case_match.
  - unfold SystemMarkConfirmationStarted. apply (bind_inv_at P); [done|]. intros s1 owner [-> _]%gets_Ok _.
    apply (bind_inv_at P); [by apply Hup|]. intros s1 o _ Hp. by apply (preserves_reject P).
Qed.

(** A claim takes a queued job, of the state the expiry leaves. *)
Lemma claim_Ok worker now s s' job :
  db_inv s → SystemClaimNextDueJobAt worker now s = (s', Ok job) →
  (∃ c, jobs (SystemExpireStaleJobs now s).1 !! JID job = Some c ∧ JStatus c = JobQueued)
  ∧ jobs s' !! JID job = Some job ∧ JStatus job = JobRunning ∧ JWorkerOwner job = trim_space worker.
Proof.
  intros Hs Hrun. unfold SystemClaimNextDueJobAt in Hrun. cbv zeta in Hrun. inv_ok.
  match goal with H : SystemExpireStaleJobs now s = (?s1, _) |- _ => rename s1 into se, H into Hexp end.
  assert (Hse : db_inv se) by (pose proof (SystemExpireStaleJobs_stable (I := db_inv) now s Hs) as He; by rewrite Hexp in He).
  rewrite Hexp. cbn [fst]. destruct (next_candidate now se) as [c|]; inv_ok.
  match goal with H : map_err _ _ _ = _ |- _ => apply map_err_Ok in H; apply update_job_Ok in H; [|done|done] end.
  match goal with Hsc : scan_job ?o = _ |- _ => destruct o as [j'|]; [cbn in Hsc; injection Hsc as <-|done] end.
  match goal with Hex : ∃ j, _ |- _ => destruct Hex as (j & Hj & Hw & -> & Hj') end. bool_to_prop.
  assert (Hid : JID j = JID c) by (by apply (inv_job_key _ Hse) in Hj as [? _]).
  change (JID (claim_row (trim_space worker) now j)) with (JID j). rewrite Hid. split_and!; [by exists j|done..].
Qed.

Section invariant.
Context `{AEAD} `{Hashes} `{TimeZoneDB}.

Lemma claim_kept worker now id name : preserves (kept id name) (SystemClaimNextDueJobAt worker now).
Proof.
  apply preserves_bind; [auto with preserves|intros _]. apply preserves_bind; [apply expire_kept|intros _].
  apply preserves_bind; [auto with preserves|]. intros [c|]; [|auto with preserves].
  apply preserves_bind; [|auto with preserves]. apply map_err_system, spared_update_kept; [apply claim_legal|].
  intros j Hw Ha. bool_to_prop. match goal with H : JStatus j = _ |- _ => by rewrite H in Ha end.
Qed.

Notation process_at w p pr := (sh_processes w !! p = Some pr).
(** A job a worker took: its number was given, and it is not queued again. *)
Definition taken (s : db) (id : Z) : Prop := id < next_job s ∧ ∀ j, jobs s !! id = Some j → JStatus j ≠ JobQueued.
Lemma exec_taken o s id : system_inv s → taken s id → taken (exec o s) id.
Proof.
  intros Hs [Hlt Hq]. pose proof (exec_evolves o s Hs) as He. split; [pose proof (ev_next _ _ _ _ He); lia|].
  intros j' Hj'. destruct (jobs s !! id) as [j|] eqn:Hj; [|pose proof (ev_fresh _ _ _ _ He id j' Hj' Hj); lia].
  destruct (ev_job _ _ _ _ He id j Hj) as [Hn|(j2 & Hj2 & Hstep)]; [congruence|]. simplify_eq.
  destruct (rs_status _ _ Hstep) as [->|(_ & _ & ?)]; [by apply Hq|done].
Qed.

Record shared_inv (w : shared) : Prop := {
  sv_db : system_inv (sh_db w);
  sv_lock : ∀ p pr, process_at w p pr → owning (pr_stage pr) = true → sh_lock w = Some p;
  sv_idle : ∀ p pr, process_at w p pr → has_engine (pr_stage pr) = false → pr_workers pr = [];
  sv_count : ∀ p pr, process_at w p pr → (List.length (pr_workers pr) ≤ Z.to_nat (MaxConcurrentJobs (pr_config pr)))%nat;
  sv_taken : ∀ p i id, busy w p i id → taken (sh_db w) id;
  sv_once : ∀ p i q k id, busy w p i id → busy w q k id → p = q ∧ i = k
}.
Lemma engine_owns s : has_engine s = true → owning s = true.
Proof. by destruct s. Qed.
Lemma busy_engine w p i id pr : shared_inv w → process_at w p pr → pr_workers pr !! i = Some (Busy id) → has_engine (pr_stage pr) = true.
Proof. intros Hw Hp Hi. destruct (has_engine _) eqn:He; [done|]. by rewrite (sv_idle _ Hw p pr Hp He) in Hi. Qed.

(** The workers of the others stay; those of [p] are the ones given, which have no job the
    old ones had not. *)
Lemma put_inv w p pr s lock :
  shared_inv w → system_inv s → (∀ id, taken (sh_db w) id → taken s id) →
  (owning (pr_stage pr) = true → lock = Some p) →
  (∀ q prq, q ≠ p → process_at w q prq → owning (pr_stage prq) = true → lock = Some q) →
  (has_engine (pr_stage pr) = false → pr_workers pr = []) →
  (List.length (pr_workers pr) ≤ Z.to_nat (MaxConcurrentJobs (pr_config pr)))%nat →
  (∀ i id, pr_workers pr !! i = Some (Busy id) → busy w p i id) →
  shared_inv (MkShared s lock (<[p := pr]> (sh_processes w))).
Proof.
  intros Hw Hs Hk Hl Hlo Hi Hc Hb.
  assert (Hbusy : ∀ q i id, busy (MkShared s lock (<[p := pr]> (sh_processes w))) q i id → busy w q i id).
  { intros q i id (prq & Hq & Hqi). cbn in Hq. apply lookup_insert_Some in Hq as [[<- <-]|[Hne Hq]]; [by apply Hb|by exists prq]. }
  split; cbn [sh_db sh_lock sh_processes]; try done.
  - intros q prq Hq. apply lookup_insert_Some in Hq as [[<- <-]|[Hne Hq]]; [done|]. by apply (Hlo q).
  - intros q prq Hq. apply lookup_insert_Some in Hq as [[<- <-]|[Hne Hq]]; [done|]. by apply (sv_idle _ Hw q).
  - intros q prq Hq. apply lookup_insert_Some in Hq as [[<- <-]|[Hne Hq]]; [done|]. by apply (sv_count _ Hw q).
  - intros q i id Hq. apply Hk. by eapply (sv_taken _ Hw), Hbusy.
  - intros q i q' i' id Hq Hq'. eapply (sv_once _ Hw); by apply Hbusy.
Qed.
Lemma keep_lock w p q prq : shared_inv w → q ≠ p → process_at w q prq → owning (pr_stage prq) = true → sh_lock w = Some q.
Proof. intros Hw _. by apply (sv_lock _ Hw). Qed.
Lemma db_inv_shared w s : shared_inv w → system_inv s → (∀ id, taken (sh_db w) id → taken s id) → shared_inv (with_shared_db s w).
Proof. intros [] Hs Hk. split; cbn; try done. intros p i id Hb. apply Hk. by eapply sv_taken0. Qed.
Lemma end_inv w p pr : shared_inv w → process_at w p pr → shared_inv (end_process p pr w).
Proof.
  intros Hw Hp. apply put_inv; try done; try apply Hw; try (cbn; lia).
  intros q prq Hne Hq Ho. pose proof (sv_lock _ Hw q prq Hq Ho) as ->. rewrite bool_decide_false; [done|congruence].
Qed.
End invariant.

Section theorems.
Context `{HA : AEAD} `{HH : Hashes} `{HT : TimeZoneDB}.
Notation process_at w p pr := (sh_processes w !! p = Some pr).

Lemma left_behind_inv w : left_behind w → shared_inv w.
Proof.
  intros (Hr & _ & Hp). pose proof (reachable_inv _ Hr) as Hs.
  split; [done|intros p pr; by rewrite Hp..| |].
  - intros p i id (pr & Hpr & _). by rewrite Hp in Hpr.
  - intros p i q k id (pr & Hpr & _). by rewrite Hp in Hpr.
Qed.
(** A step that changes the stage of a process only. *)
Lemma plane_stage_inv w p pr st lock :
  shared_inv w → process_at w p pr →
  (owning st = true → lock = Some p) → (∀ q prq, q ≠ p → process_at w q prq → owning (pr_stage prq) = true → lock = Some q) →
  (has_engine st = false → pr_workers pr = []) →
  shared_inv (MkShared (sh_db w) lock (<[p := at_stage st pr]> (sh_processes w))).
Proof.
  intros Hw Hp Hl Hlo Hi. apply put_inv; try done; [by apply Hw|by apply (sv_count _ Hw p pr)|].
  intros i id Hb. by exists pr.
Qed.
Lemma workers_inv w p pr ws :
  shared_inv w → process_at w p pr → has_engine (pr_stage pr) = true → List.length ws = List.length (pr_workers pr) →
  (∀ i id, ws !! i = Some (Busy id) → busy w p i id) → shared_inv (put p (with_workers ws pr) w).
Proof.
  intros Hw Hp He Hlen Hb. apply put_inv; try done; try by apply Hw.
  - intros Ho. by apply (sv_lock _ Hw p pr).
  - intros q prq _. by apply (sv_lock _ Hw).
  - cbn. congruence.
  - cbn. rewrite Hlen. by apply (sv_count _ Hw p pr).
Qed.
Lemma recover_system w now s n :
  shared_inv w → SystemRecoverInterruptedJobs now (sh_db w) = (s, Ok n) →
  system_inv s ∧ ∀ id, taken (sh_db w) id → taken s id.
Proof using HA HH HT.
  intros Hw Hrun. assert (Heq : s = exec (OpSystemRecoverInterruptedJobs now) (sh_db w)) by (cbn; by rewrite Hrun).
  rewrite Heq. split; [by apply exec_system_inv, Hw|]. intros id. apply exec_taken, Hw.
Qed.
Lemma claim_system w worker now s r :
  shared_inv w → SystemClaimNextDueJobAt worker now (sh_db w) = (s, r) →
  system_inv s ∧ ∀ id, taken (sh_db w) id → taken s id.
Proof using HA HH HT.
  intros Hw Hrun. assert (Heq : s = exec (OpSystemClaimNextDueJobAt worker now) (sh_db w)) by (cbn; by rewrite Hrun).
  rewrite Heq. split; [by apply exec_system_inv, Hw|]. intros id. apply exec_taken, Hw.
Qed.

(** A claim gives a worker a job that no other has. *)
Lemma claim_inv w p pr i now s job :
  shared_inv w → process_at w p pr → has_engine (pr_stage pr) = true → pr_workers pr !! i = Some Idle →
  SystemClaimNextDueJobAt (pr_workerOwner pr +:+ "-" +:+ format_int (Z.of_nat i)) now (sh_db w) = (s, Ok job) →
  shared_inv (with_shared_db s (put p (with_workers (<[i := Busy (JID job)]> (pr_workers pr)) pr) w)).
Proof using HA HH HT.
  intros Hw Hp He Hi Hrun. destruct (claim_system w _ now s _ Hw Hrun) as [Hs Hk].
  pose proof (sv_db _ Hw) as Hsys. destruct (claim_Ok _ _ _ _ _ (proj1 Hsys) Hrun) as ((c & Hc & Hq) & Hjob & Hst & _).
  assert (Hnew : ∀ q k, busy w q k (JID job) → False).
  { intros q k Hb. apply (sv_taken _ Hw), (exec_taken (OpSystemExpireStaleJobs now)) in Hb; [|done]. by apply (proj2 Hb c Hc). }
  assert (Hbusy : ∀ q k id, busy (with_shared_db s (put p (with_workers (<[i := Busy (JID job)]> (pr_workers pr)) pr) w)) q k id →
    busy w q k id ∨ q = p ∧ k = i ∧ id = JID job).
  { intros q k id (prq & Hq1 & Hk1). cbn in Hq1. apply lookup_insert_Some in Hq1 as [[<- <-]|[Hne Hq1]]; [|left; by exists prq].
    cbn in Hk1. apply list_lookup_insert_Some in Hk1 as [(<- & [= <-] & _)|[Hne Hk1]]; [by right|left; by exists pr]. }
  split; cbn [sh_db sh_lock sh_processes with_shared_db put].
  - done.
  - intros q prq Hq1 Ho. apply lookup_insert_Some in Hq1 as [[<- <-]|[Hne Hq1]]; [by apply (sv_lock _ Hw p pr)|by apply (sv_lock _ Hw q prq)].
  - intros q prq Hq1 Ho. apply lookup_insert_Some in Hq1 as [[<- <-]|[Hne Hq1]]; [cbn in Ho; congruence|by apply (sv_idle _ Hw q prq)].
  - intros q prq Hq1. apply lookup_insert_Some in Hq1 as [[<- <-]|[Hne Hq1]]; [|by apply (sv_count _ Hw q prq)].
    cbn. rewrite length_insert. by apply (sv_count _ Hw p pr).
  - intros q k id [Hb|(-> & -> & ->)]%Hbusy; [by eapply Hk, (sv_taken _ Hw)|].
    split; [by apply (inv_job_key _ (proj1 Hs)) in Hjob as [_ ?]|]. intros j Hj. congruence.
  - intros q1 k1 q2 k2 id [Hb1|(-> & -> & ->)]%Hbusy [Hb2|(-> & -> & ?)]%Hbusy; subst; try done.
    + by apply (sv_once _ Hw _ _ _ _ id).
    + by destruct (Hnew q1 k1).
    + by destruct (Hnew q2 k2).
Qed.

Lemma plane_step_inv l w w' : shared_inv w → step l w w' → shared_inv w'.
Proof.
  intros Hw Hstep. destruct Hstep as [w p pr Hnone Hst Hnil|w p pr Hp Hst _ Hfree|w p pr c get Hp Hst|w p pr now s n Hp Hst _ Hrun
    |w p pr Hp Hst|w p pr Hp Hst|w p pr Hp|w p pr i now s job Hp He Hi Hrun|w p pr i now s e Hp He Hi Hrun|w p pr i id o Hp Hi
    |w p pr i id Hp Hi|w p pr i Hp Hst Hi|w p pr o Hp|w p pr Hp].
  - apply put_inv; try done; try by apply Hw.
    + by rewrite Hst.
    + intros q prq _. by apply (sv_lock _ Hw).
    + rewrite Hnil. cbn. lia.
    + by rewrite Hnil.
  - apply plane_stage_inv; try done.
    + intros q prq Hne Hq Ho. pose proof (sv_lock _ Hw q prq Hq Ho). congruence.
    + intros _. apply (sv_idle _ Hw p pr); [done|by rewrite Hst].
  - apply plane_stage_inv; try done; [by intros q prq Hne; apply (sv_lock _ Hw)|]. intros _. apply (sv_idle _ Hw p pr); [done|by rewrite Hst].
  - destruct (recover_system w now s n Hw Hrun) as [Hs Hk]. apply (put_inv w p (at_stage Recovered pr) s (sh_lock w)); try done.
    + intros _. apply (sv_lock _ Hw p pr); [done|by rewrite Hst].
    + intros q prq _. by apply (sv_lock _ Hw).
    + intros _. apply (sv_idle _ Hw p pr); [done|by rewrite Hst].
    + by apply (sv_count _ Hw p pr).
    + intros i id Hb. by exists pr.
  - apply put_inv; try done; try by apply Hw.
    + intros _. apply (sv_lock _ Hw p pr); [done|by rewrite Hst].
    + intros q prq _. by apply (sv_lock _ Hw).
    + cbn. by rewrite length_replicate.
    + intros i id Hb. cbn in Hb. by apply lookup_replicate in Hb as [? _].
  - apply plane_stage_inv; try done; [|by intros q prq Hne; apply (sv_lock _ Hw)]. intros _. apply (sv_lock _ Hw p pr); [done|by rewrite Hst].
  - by apply end_inv.
  - by eapply claim_inv.
  - destruct (claim_system w _ now s _ Hw Hrun) as [Hs Hk]. by apply db_inv_shared.
  - apply db_inv_shared; [done|by apply exec_system_inv, Hw|]. intros k. apply exec_taken, Hw.
  - apply workers_inv; try done; [by eapply busy_engine|by rewrite length_insert|].
    intros k id' Hb. apply list_lookup_insert_Some in Hb as [(_ & [=] & _)|[_ Hb]]. by exists pr.
  - apply workers_inv; try done; [by rewrite Hst|by rewrite length_insert|].
    intros k id' Hb. apply list_lookup_insert_Some in Hb as [(_ & [=] & _)|[_ Hb]]. by exists pr.
  - apply db_inv_shared; [done|by apply exec_system_inv, Hw|]. intros k. apply exec_taken, Hw.
  - by apply end_inv.
Qed.
Lemma runs_inv w : runs w → shared_inv w.
Proof. induction 1; [by apply left_behind_inv|by eapply plane_step_inv]. Qed.

Definition is_busy (k : worker) : bool := match k with Busy _ => true | _ => false end.

(** C24: in every run of processes on one directory, whichever of them die and whatever
    calls the store meanwhile: all workers that have a job belong to the process that holds
    the lock, no two of them have the same job, and they are at most as many as the
    configuration of that process allows. *)
Theorem one_control_plane_works w : runs w →
  (∀ p i id, busy w p i id → sh_lock w = Some p)
  ∧ (∀ p i q k id, busy w p i id → busy w q k id → p = q ∧ i = k)
  ∧ (∀ p pr, process_at w p pr →
       (List.length (filter (λ k, is_busy k = true) (pr_workers pr)) ≤ Z.to_nat (MaxConcurrentJobs (pr_config pr)))%nat).
Proof.
  intros Hw%runs_inv. split; [|split].
  - intros p i id (pr & Hp & Hi). apply (sv_lock _ Hw p pr Hp), engine_owns. by eapply busy_engine.
  - intros p i q k id. by apply (sv_once _ Hw).
  - intros p pr Hp. etrans; [apply length_filter|by apply (sv_count _ Hw p pr)].
Qed.

(** C4: a job whose row names the worker that has it stays so, whatever step anybody else
    takes: no other process recovers, claims or ends it, however it was started, and no call
    of the store from outside does; only the worker itself and the death of its process
    touch it. *)
Theorem running_jobs_are_left_alone l w w' p i id :
  runs w → step l w w' → working w p i id → l ≠ Works p i → l ≠ Dies p → working w' p i id.
Proof using HA HH HT.
  intros Hw%runs_inv Hstep Hwork Hl Hd. pose proof (sv_db _ Hw) as Hsys. destruct Hwork as (pr & Hpr & Hi & Hc).
  pose proof (busy_engine w p i id pr Hw Hpr Hi) as He. pose proof (sv_lock _ Hw p pr Hpr (engine_owns _ He)) as Hlock.
  assert (Hsame : ∀ s lock q prq, claimed s id = Some (worker_name pr i) → (q = p → pr_workers prq !! i = Some (Busy id) ∧ worker_name prq i = worker_name pr i) →
    working (MkShared s lock (<[q := prq]> (sh_processes w))) p i id).
  { intros s lock q prq Hs Hq. unfold working. cbn. destruct (decide (q = p)) as [->|Hne].
    - destruct (Hq eq_refl) as [Hb Hn]. exists prq. rewrite lookup_insert_eq, Hn. done.
    - exists pr. by rewrite lookup_insert_ne. }
  assert (Hdb : ∀ s, claimed s id = Some (worker_name pr i) → working (with_shared_db s w) p i id) by (intros s Hs; by exists pr).
  assert (Hstage : ∀ q prq, process_at w q prq → has_engine (pr_stage prq) = false → q ≠ p) by (intros q prq Hq Hn ->; congruence).
  destruct Hstep as [w q prq Hnone Hst Hnil|w q prq Hq Hst _ Hfree|w q prq c get Hq Hst|w q prq now s n Hq Hst _ Hrun
    |w q prq Hq Hst|w q prq Hq Hst|w q prq Hq Hleft|w q prq k now s job Hq Hqe Hk Hrun|w q prq k now s e Hq Hqe Hk Hrun|w q prq k id' o Hq Hk Ho
    |w q prq k id' Hq Hk|w q prq k Hq Hst Hk|w q prq o Hq Ho|w q prq Hq].
  - apply Hsame; [done|]. intros ->. congruence.
  - apply Hsame; [done|]. intros ->. congruence.
  - apply Hsame; [done|]. intros ->. exfalso. eapply Hstage; [exact Hq|by rewrite Hst|done].
  - assert (q = p) as ->; [|exfalso; eapply Hstage; [exact Hq|by rewrite Hst|done]].
    assert (sh_lock w = Some q) by (apply (sv_lock _ Hw q prq Hq); by rewrite Hst). congruence.
  - apply Hsame; [done|]. intros ->. exfalso. eapply Hstage; [exact Hq|by rewrite Hst|done].
  - apply Hsame; [done|]. intros ->. by simplify_eq.
  - apply Hsame; [done|]. intros ->. simplify_eq. destruct (Hleft He) as [_ Hall]. rewrite Forall_forall in Hall.
    apply list_elem_of_lookup_2, Hall in Hi. done.
  - pose proof (claim_kept (pr_workerOwner prq +:+ "-" +:+ format_int (Z.of_nat k)) now id _ _ (conj (proj1 Hsys) Hc)) as [_ Hkept]. rewrite Hrun in Hkept. apply Hsame; [exact Hkept|].
    intros ->. simplify_eq. cbn. rewrite list_lookup_insert_ne; [done|]. congruence.
  - pose proof (claim_kept (pr_workerOwner prq +:+ "-" +:+ format_int (Z.of_nat k)) now id _ _ (conj (proj1 Hsys) Hc)) as [_ Hkept]. rewrite Hrun in Hkept. by apply Hdb.
  - apply Hdb. eapply own_call_claimed; [apply Hsys|exact Ho| |done]. intros ->.
    destruct (sv_once _ Hw q k p i id) as [-> ->]; [by exists prq|by exists pr|done].
  - apply Hsame; [done|]. intros ->. simplify_eq. cbn. rewrite list_lookup_insert_ne; [done|]. congruence.
  - apply Hsame; [done|]. intros ->. simplify_eq. cbn. rewrite list_lookup_insert_ne; [done|]. congruence.
  - by apply Hdb, exec_claimed.
  - apply Hsame; [done|]. by intros ->.
Qed.
End theorems.

(** ** A server that runs a job *)

Definition sample_config : Config :=
  MkConfig "/srv" "/srv/app.db" "/srv/key" false "/srv/profiles" "/srv/artifacts" ":8080" 2 "python3" "actions" "" "" ∅
    ["https://yodelportal.com"] [] [] false false "" [] "" "info".
Definition sample_process (inv : invocation) : process := MkProcess inv sample_config "host-1" Opened [].
Lemma ok_pair {S A} (x : S * result A) : is_ok x.2 = true → ∃ a, x = (x.1, Ok a).
Proof. destruct x as [s [a|e]]; [by exists a|done]. Qed.
Definition recovered_db : db := (SystemRecoverInterruptedJobs t0 booked_db).1.
Definition claimed_db : db := (SystemClaimNextDueJobAt "host-1-0" t0 recovered_db).1.

Lemma sample_run : ∃ w pr, runs w ∧ sh_db w = claimed_db ∧ sh_processes w !! 0%nat = Some pr ∧ pr_stage pr = Working
  ∧ working w 0 0 1.
Proof.
  set (w0 := MkShared booked_db None ∅).
  assert (H0 : runs w0) by (apply runs_start; split; [apply reachable_run|done]).
  destruct (ok_pair (SystemRecoverInterruptedJobs t0 booked_db)) as [n Hrec]; [vm_compute; reflexivity|].
  destruct (ok_pair (SystemClaimNextDueJobAt "host-1-0" t0 recovered_db)) as [job Hclaim]; [vm_compute; reflexivity|].
  set (s := sample_process Serve).
  assert (Hready : is_ok (before_workers (at_stage Recovered s) recovered_db).2 = true) by (vm_compute; reflexivity).
  eapply runs_step in H0; [|apply (comes w0 0 s); reflexivity].
  eapply runs_step in H0; [|apply (takes_lock _ 0 s); [apply lookup_insert_eq|reflexivity..]].
  eapply runs_step in H0; [|apply (recovers _ 0 (at_stage Owner s) t0 recovered_db n); [apply lookup_insert_eq|reflexivity|reflexivity|exact Hrec]].
  eapply runs_step in H0; [|apply (starts_workers _ 0 (at_stage Recovered s)); [apply lookup_insert_eq|reflexivity|exact Hready]].
  eapply runs_step in H0;
    [|apply (claims _ 0 (start_workers (at_stage Recovered s)) 0 t0 claimed_db job); [apply lookup_insert_eq|reflexivity|reflexivity|exact Hclaim]].
  assert (Hid : match (SystemClaimNextDueJobAt "host-1-0" t0 recovered_db).2 with Ok j => JID j =? 1 | Err _ => false end = true) by (vm_compute; reflexivity).
  rewrite Hclaim in Hid. apply Z.eqb_eq in Hid.
  assert (Hc : claimed claimed_db 1 = Some "host-1-0") by (vm_compute; reflexivity).
  do 2 eexists. split; [exact H0|]. split; [reflexivity|]. split; [apply lookup_insert_eq|]. split; [reflexivity|].
  eexists. split; [apply lookup_insert_eq|]. split; [by rewrite <- Hid|exact Hc].
Qed.

Lemma one_control_plane_works_witness : ∃ w, busy w 0 0 1 ∧ sh_lock w = Some 0%nat.
Proof.
  destruct sample_run as (w & pr & Hrun & _ & _ & _ & (pr' & Hp & Hi & _)). exists w.
  assert (Hb : busy w 0 0 1) by (by exists pr'). split; [exact Hb|]. exact (proj1 (one_control_plane_works w Hrun) _ _ _ Hb).
Defined.
Lemma running_jobs_are_left_alone_witness : ∃ w, working (with_shared_db (exec (OpSystemRequestJobCancellation 1 t0) claimed_db) w) 0 0 1.
Proof.
  destruct sample_run as (w & pr & Hrun & Hdb & Hp & _ & Hwork). exists w.
  refine (running_jobs_are_left_alone (Calls 0) w _ 0 0 1 Hrun _ Hwork _ _); [|discriminate|discriminate].
  rewrite <- Hdb. apply (calls w 0 pr (OpSystemRequestJobCancellation 1 t0)); [exact Hp|reflexivity].
Defined.
