(* ===== verification/Storage.v ===== *)
(** * Storage on disk (src/internal/engine: storage.go, storage_budget.go)

    The budgeted walk over a directory tree, the cleanup of directories whose owner is
    gone, and the directory of a browser profile with its ownership marker.  The file
    system is a record of its calls: each may change the state of the system and answer
    anything, since other processes write the same trees meanwhile. *)

From S2P Require Import Prelude GoStrings GoTime GoPath Domain Database JobStore ResourceStore ProfileStore AccountStore.
From S2P Require Import Worker.
From Stdlib Require Import Ascii String.

Open Scope Z_scope.

(** ** The file system *)

(** What [Fstatat] tells of an entry it does not follow. *)
Inductive entry_kind := RegularFile (size : Z) | Directory | OtherKind.
Record filesystem := MkFS {
  fs_state : Type;
  fs_file : Type;
  fs_ctx : fs_state → fs_state * option error;
  fs_openat : option fs_file → string → fs_state → fs_state * result fs_file;
  fs_readdirnames : nat → fs_file → fs_state → fs_state * (list string * option error);
  fs_fstatat : fs_file → string → fs_state → fs_state * result entry_kind
}.
(** [Readdirnames] of a positive count returns a name or an error. *)
Definition reads_on (fs : filesystem) : Prop := ∀ n f s, (0 < n)%nat →
  (fs_readdirnames fs n f s).2.1 ≠ [] ∨ (fs_readdirnames fs n f s).2.2 ≠ None.

(** ** The budget *)

Definition maxProfileBytes : Z := 536870912.
Definition maxProfileEntries : Z := 20000.
Definition maxStorageDepth : Z := 64.
Definition storageReadBatch : nat := 128.
Definition maxJobArtifactBytes : Z := 67108864.
Definition maxJobArtifactFiles : Z := 64.
Definition errFootprintLimit : error := Sentinel ErrFootprintLimit.
Record storageBudget := MkBudget { maxBytes : Z; maxEntries : Z }.

Section walk.
Context (fs : filesystem) (budget : storageBudget).

Record walk := MkWalk { wk_state : fs_state fs; totalBytes : Z; totalEntries : Z }.
Definition with_fs (s : fs_state fs) (w : walk) : walk := MkWalk s (totalBytes w) (totalEntries w).
Definition one_more (w : walk) : walk := MkWalk (wk_state w) (totalBytes w) (totalEntries w + 1).
Definition more_bytes (size : Z) (w : walk) : walk := MkWalk (wk_state w) (totalBytes w + size) (totalEntries w).

(** An entry that disappeared or changed its type since it was listed is passed over. *)
Definition vanished (e : error) : bool :=
  errors_is e ErrNotExist || errors_is e NotDirectory || errors_is e TooManyLinks.

(** The names of a batch, and what follows it; [descend] visits a directory, [again]
    reads the next batch of this one. *)
Section batch.
Context (directory : fs_file fs) (depth : Z) (readErr : option error).
Context (descend : fs_file fs → walk → option (walk * result unit)) (again : walk → option (walk * result unit)).
Fixpoint visit_names (names : list string) (w : walk) : option (walk * result unit) :=
  match names with
  | [] =>
      match readErr with
      | Some e => Some (w, if errors_is e IoEOF then Ok tt else Err e)
      | None => again w
      end
  | name :: rest =>
      let '(s, stopped) := fs_ctx fs (wk_state w) in
      let w := with_fs s w in
      match stopped with
      | Some e => Some (w, Err e)
      | None =>
          let w := one_more w in
          if maxEntries budget <? totalEntries w then Some (w, Err errFootprintLimit)
          else
            let '(s, metadata) := fs_fstatat fs directory name (wk_state w) in
            let w := with_fs s w in
            match metadata with
            | Err e => if errors_is e ErrNotExist then visit_names rest w else Some (w, Err e)
            | Ok (RegularFile size) =>
                if (size <? 0) || (maxBytes budget - totalBytes w <? size) then Some (w, Err errFootprintLimit)
                else visit_names rest (more_bytes size w)
            | Ok Directory =>
                let '(s, child) := fs_openat fs (Some directory) name (wk_state w) in
                let w := with_fs s w in
                match child with
                | Err e => if vanished e then visit_names rest w else Some (w, Err e)
                | Ok child =>
                    if maxStorageDepth <? depth + 1 then Some (w, Err errFootprintLimit)
                    else
                      match descend child w with
                      | Some (w, Ok _) => visit_names rest w
                      | out => out
                      end
                end
            | Ok OtherKind => visit_names rest w
            end
      end
  end.
End batch.

(** Reading a directory to its end; every batch uses one unit of fuel. *)
Fixpoint visit (fuel : nat) (directory : fs_file fs) (depth : Z) (w : walk) : option (walk * result unit) :=
  match fuel with
  | O => None
  | S fuel =>
      let '(s, stopped) := fs_ctx fs (wk_state w) in
      let w := with_fs s w in
      match stopped with
      | Some e => Some (w, Err e)
      | None =>
          let '(s, (names, readErr)) := fs_readdirnames fs storageReadBatch directory (wk_state w) in
          visit_names directory depth readErr (λ child w, visit fuel child (depth + 1) w) (visit fuel directory depth)
            names (with_fs s w)
      end
  end.
(** The root is at depth zero, inside the limit. *)
Definition checkStorageBudget (fuel : nat) (path : string) (s : fs_state fs) : option (walk * result unit) :=
  let '(s, stopped) := fs_ctx fs s in
  let w := MkWalk s 0 0 in
  match stopped with
  | Some e => Some (w, Err e)
  | None =>
      if (maxBytes budget <? 0) || (maxEntries budget <? 0) then Some (w, Err errFootprintLimit)
      else
        let '(s, root) := fs_openat fs None path (wk_state w) in
        let w := with_fs s w in
        match root with
        | Err e => Some (w, Err e)
        | Ok root => visit fuel root 0 w
        end
  end.
End walk.

(** Enough fuel for every walk (StorageProperties). *)
Definition walk_fuel (budget : storageBudget) : nat := Z.to_nat (maxEntries budget) + 2.
Definition walk_result (fs : filesystem) (budget : storageBudget) (path : string) (s : fs_state fs) : result unit :=
  match checkStorageBudget fs budget (walk_fuel budget) path s with Some (_, r) => r | None => Ok tt end.

Definition inspectProfileStorage (fs : filesystem) (path : string) (s : fs_state fs) : result unit :=
  match walk_result fs (MkBudget maxProfileBytes maxProfileEntries) path s with
  | Ok _ => Ok tt
  | Err e => if errors_is e ErrFootprintLimit then Err (Sentinel ErrProfileLimit)
             else Err (Wrap "" (Sentinel ErrProfileInspection))
  end.
Definition artifactLimitExceeded (fs : filesystem) (path : string) (s : fs_state fs) : result bool :=
  match walk_result fs (MkBudget maxJobArtifactBytes maxJobArtifactFiles) path s with
  | Ok _ => Ok false
  | Err e => if errors_is e ErrNotExist then Ok false else if errors_is e ErrFootprintLimit then Ok true else Err e
  end.

(** A tick of the monitors of a running job: the cause its context is cancelled with.
    The profile monitor stops quietly if its own context ended. *)
Definition monitorProfileStorage (inspected : result unit) (ended : bool) : option error :=
  if ended then None
  else match inspected with
       | Ok _ => None
       | Err e => Some (Sentinel (if errors_is e ErrProfileLimit then ErrProfileLimit else ErrProfileInspection))
       end.
Definition monitorArtifacts (exceeded : result bool) : option error :=
  match exceeded with Ok false => None | _ => Some (Sentinel ErrArtifactLimit) end.

(** ** Children of a directory *)

Definition safeChild (working parent name0 : string) : result string :=
  let name := trim_space name0 in
  if String.eqb name "" || String.eqb name "." || String.eqb name ".." || negb (String.eqb (Base name) name)
     || contains_any name "/\"
  then Err (Errorf "child path must be one directory name")
  else Ok (Abs working (Join [parent; name])).

(** After a run: artifacts over their limit are removed. *)
Definition enforceArtifactLimit (working artifactsDir : string) (exceeded : string → result bool) (removeAll : string → result unit)
    (jobID : Z) : result unit :=
  artifactDir ← safeChild working artifactsDir ("job-" +:+ format_int jobID);
  over ← exceeded artifactDir;
  if negb over then Ok tt
  else match removeAll artifactDir with Ok _ => Ok tt | Err e => Err (Wrap "remove oversized job artifacts" e) end.

(** ** Cleaning up *)

(** An entry of [ReadDir], and what removing a path answers. *)
Record entry := MkEntry { en_name : string; en_dir : bool }.

(** The number after a prefix, if that is how it is written. *)
Definition numbered (prefix name : string) : option Z :=
  digits ← cut_prefix prefix name;
  id ← parse_int64 digits;
  if (id <=? 0) || negb (String.eqb name (prefix +:+ format_int id)) then None else Some id.

(** [ReadDir] of the parent: a directory that does not exist has nothing to clean. *)
Definition listing (what : string) (read : result (list entry)) : result (list entry) :=
  match read with
  | Ok entries => Ok entries
  | Err e => if errors_is e ErrNotExist then Ok [] else Err (Wrap what e)
  end.

Section cleanup.
Context (working parent : string) (removeAll : string → result unit).

(** The paths it was asked to remove are collected in their order. *)
Definition remove (what path : string) (removed : list string) : list string * result unit :=
  ((removed ++ [path])%list,
   match removeAll path with
   | Ok _ => Ok tt
   | Err e => Err (Wrap what e)
   end).

(** [job n id] is what the store answers about a job when the [n]th entry is visited. *)
Definition cleanup_artifact (answer : Z → result Job) (e : entry) (removed : list string) : list string * result unit :=
  if negb (en_dir e) then (removed, Ok tt)
  else
    match numbered "job-" (en_name e) with
    | None => (removed, Ok tt)
    | Some jobID =>
        match safeChild working parent (en_name e) with
        | Err x => (removed, Err x)
        | Ok path =>
            match answer jobID with
            | Ok job => if Terminal (JStatus job) then remove "remove completed job artifacts" path removed else (removed, Ok tt)
            | Err x => if errors_is x ErrNotFound then remove "remove expired job artifacts" path removed
                       else (removed, Err (Wrap "check retained artifact job" x))
            end
        end
    end.
Fixpoint each_entry (visit : nat → entry → list string → list string * result unit) (n : nat) (entries : list entry)
    (removed : list string) : list string * result unit :=
  match entries with
  | [] => (removed, Ok tt)
  | e :: rest =>
      match visit n e removed with
      | (removed, Ok _) => each_entry visit (S n) rest removed
      | out => out
      end
  end.
Definition cleanupArtifacts (job : nat → Z → result Job) (read : result (list entry)) : list string * result unit :=
  match listing "read artifact directory" read with
  | Err e => ([], Err e)
  | Ok entries => each_entry (λ n, cleanup_artifact (job n)) 0 entries []
  end.

(** *** Browser profiles *)

Definition managedProfileID (name : string) : option Z := numbered "profile-" name.
Definition newline : string := bytes [10%nat].
Definition managedProfileMarkerValue (userID profileID : Z) : string :=
  "buntzen-profile-v1:" +:+ format_int userID +:+ ":" +:+ format_int profileID +:+ newline.
(** The numbers [Sscanf] finds.  It accepts more than this, but the text is compared with
    what the numbers are written as, which this reads back. *)
Definition scan_marker (raw : string) : option (Z * Z) :=
  rest ← cut_prefix "buntzen-profile-v1:" raw;
  '(user, rest) ← cut ":" rest;
  '(profile, rest) ← cut newline rest;
  u ← parse_int64 user; p ← parse_int64 profile;
  if String.eqb rest "" then Some (u, p) else None.
Definition parse_marker (raw : string) : result (Z * Z) :=
  let malformed := Errorf "browser profile marker is malformed" in
  if (128 <? String.length raw)%nat then Err malformed
  else
    match scan_marker raw with
    | Some (u, p) =>
        if (u <=? 0) || (p <=? 0) || negb (String.eqb raw (managedProfileMarkerValue u p)) then Err malformed else Ok (u, p)
    | None => Err malformed
    end.
(** What is at the path of a marker: the error of opening it, or its kind, the size its
    metadata gives and the bytes that are read. *)
Record marker_file := MkMarker { mk_regular : bool; mk_size : Z; mk_content : result string }.
Definition readManagedProfileMarker (file : result marker_file) : result (Z * Z) :=
  match file with
  | Err e => Err (Wrap "inspect browser profile marker" e)
  | Ok m =>
      if negb (mk_regular m) then Err (Errorf "browser profile marker must be a regular file")
      else if 128 <? mk_size m then Err (Errorf "browser profile marker is malformed")
      else match mk_content m with
           | Err e => Err (Wrap "read browser profile marker" e)
           | Ok raw => parse_marker raw
           end
  end.

(** [snapshot] was listed before; [recheck] is what the store answers about a profile the
    snapshot does not have, [marker] what is at the marker's path. *)
Definition retained_profile (snapshot : list Profile) (recheck : Z → result Profile) (id : Z) : result (option Profile) :=
  match last (filter (λ p, PID p = id) snapshot) with
  | Some p => Ok (Some p)
  | None =>
      match recheck id with
      | Ok p => Ok (Some p)
      | Err e => if errors_is e ErrNotFound then Ok None else Err (Wrap "recheck browser profile ownership" e)
      end
  end.
Definition cleanup_profile (snapshot : list Profile) (recheck : Z → result Profile) (marker : string → result marker_file)
    (e : entry) (removed : list string) : list string * result unit :=
  if negb (en_dir e) then (removed, Ok tt)
  else
    match managedProfileID (en_name e) with
    | None => (removed, Ok tt)
    | Some profileID =>
        match safeChild working parent (en_name e) with
        | Err _ => (removed, Ok tt)
        | Ok path =>
            match readManagedProfileMarker (marker path) with
            | Err _ => (removed, Ok tt)
            | Ok (markerUser, markerProfile) =>
                if negb (markerProfile =? profileID) then (removed, Ok tt)
                else
                  match retained_profile snapshot recheck profileID with
                  | Err x => (removed, Err x)
                  | Ok (Some profile) =>
                      if negb (PUserID profile =? markerUser)
                      then (removed, Err (Errorf "a browser profile has a mismatched ownership marker")) else (removed, Ok tt)
                  | Ok None => remove "remove orphaned browser profile" path removed
                  end
            end
        end
    end.
Definition cleanupProfileEntries (snapshot : list Profile) (recheck : nat → Z → result Profile)
    (marker : nat → string → result marker_file) (read : result (list entry)) : list string * result unit :=
  match listing "read browser profile directory" read with
  | Err e => ([], Err e)
  | Ok entries => each_entry (λ n, cleanup_profile snapshot (recheck n) (marker n)) 0 entries []
  end.
End cleanup.

(** ** The directory of a browser profile *)

Definition managedProfileMarker : string := ".buntzen-managed".
Section ensure.
(** The calls it makes, on the state of the file system; [lstat] tells a real directory
    from anything else. *)
Context {S F H : Type} (lstat : string → ST S bool) (mkdirAll : string → ST S unit)
  (open_marker : string → ST S marker_file)
  (open_directory : string → ST S F) (readdirnames : nat → F → ST S (list string * option error))
  (create : string → ST S H) (write_string : H → string → ST S unit) (close : H → ST S unit).

Definition wrapped {A} (what : string) (r : result A) : result A := match r with Err e => Err (Wrap what e) | ok => ok end.

(** The directory, made if there is nothing at its path. *)
Definition real_directory (path : string) : ST S bool :=
  found ← attempt (lstat path);
  found ← (match found with
           | Err e => if errors_is e ErrNotExist
                      then _ ← map_err (Wrap "create browser profile") (mkdirAll path); attempt (lstat path)
                      else mret found
           | found => mret found
           end);
  lift (wrapped "inspect browser profile" found).
(** Nothing is in it yet. *)
Definition unmarked_names (path : string) : ST S (list string) :=
  directory ← map_err (Wrap "open unmarked browser profile") (open_directory path);
  '(names, err) ← readdirnames 1 directory;
  match err with
  | Some e => if errors_is e IoEOF then mret names else fail (Wrap "inspect unmarked browser profile" e)
  | None => mret names
  end.
Definition write_marker (path value : string) : ST S unit :=
  file ← map_err (Wrap "create browser profile marker") (create (Join [path; managedProfileMarker]));
  written ← attempt (write_string file value);
  closed ← attempt (close file);
  _ ← lift (wrapped "write browser profile marker" written);
  lift (wrapped "close browser profile marker" closed).
Definition ensureManagedProfileDirectory (working parent : string) (profile : Profile) : ST S string :=
  _ ← st_reject ((PID profile <=? 0) || (PUserID profile <=? 0)) (Errorf "browser profile identity is invalid");
  path ← lift (safeChild working parent ("profile-" +:+ format_int (PID profile)));
  real ← real_directory path;
  _ ← st_reject (negb real) (Errorf "browser profile path must be a real directory");
  opened ← attempt (open_marker path);
  match readManagedProfileMarker opened with
  | Ok (markerUser, markerProfile) =>
      _ ← st_reject (negb (markerUser =? PUserID profile) || negb (markerProfile =? PID profile))
            (Errorf "browser profile directory belongs to a different profile");
      mret path
  | Err e =>
      _ ← st_reject (negb (errors_is e ErrNotExist)) e;
      names ← unmarked_names path;
      _ ← st_reject (negb (List.length names =? 0)%nat) (Errorf "refusing to adopt an unmarked browser profile directory");
      _ ← write_marker path (managedProfileMarkerValue (PUserID profile) (PID profile));
      mret path
  end.
End ensure.

(** ** Maintenance *)

(** The directories a cleanup looks at, and what removing answers. *)
Record disk := MkDisk {
  dk_artifacts : result (list entry);
  dk_profiles : result (list entry);
  dk_marker : string → result marker_file;
  dk_remove : string → result unit
}.
Section maintain.
Context (working artifactsDir profilesDir : string) (d : disk).
Definition cleanup_jobs : ST db unit := λ s,
  (s, (cleanupArtifacts working artifactsDir (dk_remove d) (λ _ id, (SystemGetJob id s).2) (dk_artifacts d)).2).
Definition cleanupProfiles : ST db unit := λ s,
  match (SystemListProfiles s).2 with
  | Err e => (s, Err (Wrap "list retained browser profiles" e))
  | Ok snapshot =>
      (s, (cleanupProfileEntries working profilesDir (dk_remove d) snapshot (λ _ id, (SystemGetProfile id s).2)
             (λ _, dk_marker d) (dk_profiles d)).2)
  end.
Definition ReconcileStorage : ST db unit := _ ← cleanup_jobs; cleanupProfiles.
Definition maintain (clk : nat → Time) : ST db Z :=
  purged ← PurgeExpiredSessions (clk 0%nat);
  _ ← SystemPruneTerminalJobs (clk 1%nat);
  _ ← ReconcileStorage;
  mret purged.
End maintain.
