(* ===== verification/StorageProperties.v ===== *)
(** * What the storage code guarantees (src/internal/engine: storage.go, storage_budget.go)

    The walk ends whatever the file system answers, agrees with the footprint of a tree
    nobody writes, and cleaning up removes only directories whose owner is gone. *)

From S2P Require Import Prelude GoStrings GoTime GoPath Domain Database JobStore ResourceStore ProfileStore AccountStore Worker Storage.
From Stdlib Require Import Ascii String.

Open Scope Z_scope.

(** ** The walk ends *)

(** The fields of a walk after its updates. *)
Ltac walk_fields := cbv zeta; unfold with_fs, one_more, more_bytes; cbn [wk_state totalBytes totalEntries].

Section ends.
Context (fs : filesystem) (budget : storageBudget).
Notation maxE := (maxEntries budget).
Notation maxB := (maxBytes budget).
Notation walk := (walk fs).

Definition within (w : walk) : Prop := totalEntries fs w <= maxE ∧ 0 <= totalBytes fs w <= maxB.
Definition ends (from : Z) (out : option (walk * result unit)) : Prop := ∃ w r,
  out = Some (w, r) ∧ from <= totalEntries fs w <= maxE + 1 ∧ 0 <= totalBytes fs w <= maxB
  ∧ (r = Ok tt → totalEntries fs w <= maxE).

Lemma ends_here w r : within w → ends (totalEntries fs w) (Some (w, r)).
Proof. intros [? ?]. exists w, r. split_and!; try done; lia. Qed.
Lemma ends_over w e : totalEntries fs w <= maxE + 1 → 0 <= totalBytes fs w <= maxB → ends (totalEntries fs w) (Some (w, Err e)).
Proof. intros ? ?. exists w, (Err e). split_and!; try done; lia. Qed.
Lemma ends_from a b out : a <= b → ends b out → ends a out.
Proof. intros Hab (w & r & ? & ? & ? & ?). exists w, r. split_and!; try done; lia. Qed.

(** The names of a batch, when visiting children and reading on end after any name. *)
Lemma visit_names_ends directory depth readErr descend again names from w :
  (∀ child w, within w → from < totalEntries fs w → ends (totalEntries fs w) (descend child w)) →
  (readErr = None → ∀ w, within w → from < totalEntries fs w → ends (totalEntries fs w) (again w)) →
  within w → from <= totalEntries fs w → (names = [] → readErr ≠ None ∨ from < totalEntries fs w) →
  ends (totalEntries fs w) (visit_names fs budget directory depth readErr descend again names w).
Proof.
  intros Hdescend Hagain. revert w. induction names as [|name names IH]; intros w Hw Hfrom Hnil; cbn [visit_names].
  - destruct readErr; [by apply ends_here|]. apply Hagain; [done..|]. by destruct (Hnil eq_refl).
  - destruct w as [s b n]. destruct Hw as [Hn Hb]. simpl in Hn, Hb, Hfrom. walk_fields.
    destruct (fs_ctx fs s) as [s1 [e|]]; [by apply (ends_here (MkWalk fs s1 b n))|].
    destruct (Z.ltb_spec maxE (n + 1)) as [Hover|Hfits].
    { eapply ends_from; [|apply ends_over]; simpl; lia. }
    assert (∀ s b, 0 <= b <= maxB → ends n (visit_names fs budget directory depth readErr descend again names (MkWalk fs s b (n + 1))))
      as Hrest.
    { intros s' b' Hb'. apply (ends_from _ (n + 1)); [lia|]. apply (IH (MkWalk fs s' b' (n + 1))); simpl; [by split|lia|].
      intros _. right. lia. }
    assert (∀ s e, ends n (Some (MkWalk fs s b (n + 1), Err e))) as Hstop.
    { intros s' e. eapply ends_from; [|apply ends_over]; simpl; lia. }
    destruct (fs_fstatat fs directory name s1) as [s2 [[size| |]|e]]; walk_fields.
    + destruct (_ || _) eqn:Hsize; [apply Hstop|]. apply Hrest. lia.
    + destruct (fs_openat fs (Some directory) name s2) as [s3 [child|e]]; walk_fields.
      * destruct (maxStorageDepth <? depth + 1); [apply Hstop|].
        destruct (Hdescend child (MkWalk fs s3 b (n + 1))) as ([s4 b4 n4] & r & -> & Hlo & Hb4 & Hok); simpl in *; [by split|lia|].
        destruct r as [[]|e]; [|exists (MkWalk fs s4 b4 n4), (Err e); simpl; split_and!; try done; lia].
        specialize (Hok eq_refl). apply (ends_from _ n4); [lia|]. apply (IH (MkWalk fs s4 b4 n4)); simpl; [by split|lia|].
        intros _. right. lia.
      * destruct (vanished e); [by apply Hrest|apply Hstop].
    + by apply Hrest.
    + destruct (errors_is e ErrNotExist); [by apply Hrest|apply Hstop].
Qed.

Lemma visit_ends fuel directory depth w :
  reads_on fs → within w → maxE - totalEntries fs w + 2 <= Z.of_nat fuel →
  ends (totalEntries fs w) (visit fs budget fuel directory depth w).
Proof.
  intros Hreads. revert directory depth w. induction fuel as [|fuel IH]; intros directory depth [s b n] [Hn Hb] Hfuel; simpl in *; [lia|].
  destruct (fs_ctx fs s) as [s1 [e|]]; [by apply (ends_here (MkWalk fs s1 b n))|]. walk_fields.
  destruct (fs_readdirnames fs storageReadBatch directory s1) as [s2 [names readErr]] eqn:Hrd.
  apply (visit_names_ends _ _ _ _ _ _ n (MkWalk fs s2 b n)).
  - intros child w Hw Hlt. apply IH; [done|lia].
  - intros _ w Hw Hlt. apply IH; [done|lia].
  - by split.
  - simpl. lia.
  - intros ->. left. intros ->. destruct (Hreads storageReadBatch directory s1) as [H|H]; [unfold storageReadBatch; lia|..];
      by rewrite Hrd in H.
Qed.
End ends.

(** The walk ends, whatever other processes do to the tree.  Against any file system whose
    directory reads return a name or an error, the budgeted walk ends after visiting at most
    one entry more than its budget; the fuel of the model is enough; and when it accepts a
    tree the entries it saw and the bytes it counted were within the budget. *)
Theorem storage_walk_ends fs budget path s :
  reads_on fs →
  ∃ w r, checkStorageBudget fs budget (walk_fuel budget) path s = Some (w, r)
    ∧ totalEntries fs w <= Z.max 0 (maxEntries budget) + 1
    ∧ (r = Ok tt → totalEntries fs w <= maxEntries budget ∧ 0 <= totalBytes fs w <= maxBytes budget).
Proof.
  intros Hreads. unfold checkStorageBudget. destruct (fs_ctx fs s) as [s1 [e|]]; [by eexists _, _; repeat split; simpl; try done; lia|].
  destruct (_ || _) eqn:Hneg; [by eexists _, _; repeat split; simpl; try done; lia|]. walk_fields.
  destruct (fs_openat fs None path s1) as [s2 [root|e]]; walk_fields;
    [|by eexists _, _; repeat split; simpl; try done; lia].
  destruct (visit_ends fs budget (walk_fuel budget) root 0 (MkWalk fs s2 0 0)) as (w & r & Hv & Hlo & Hb & Hok);
    [done|split; simpl; lia|unfold walk_fuel; simpl; lia|].
  exists w, r. split; [done|]. simpl in Hlo. split; [lia|]. intros Hr. split; [by apply Hok|done].
Qed.

(** ** A tree nobody writes *)

Inductive node := File (size : Z) | Dir (children : list (string * node)) | Special.
Section node_ind.
Context (P : node → Prop) (HF : ∀ size, P (File size)) (HD : ∀ cs, Forall (λ c, P c.2) cs → P (Dir cs)) (HS : P Special).
Fixpoint node_tree_ind (n : node) : P n :=
  match n with
  | File size => HF size
  | Dir cs => HD cs ((fix go (cs : list (string * node)) : Forall (λ c, P c.2) cs :=
      match cs with
      | [] => List.Forall_nil _
      | c :: rest => List.Forall_cons _ c rest (node_tree_ind c.2) (go rest)
      end) cs)
  | Special => HS
  end.
End node_ind.

(** The footprint of a tree: its entries, the bytes of its files, its levels of directories. *)
Fixpoint entries (n : node) : Z :=
  match n with Dir cs => fold_right (λ c acc, 1 + entries c.2 + acc) 0 cs | _ => 0 end.
Fixpoint bytes_of (n : node) : Z :=
  match n with File size => size | Dir cs => fold_right (λ c acc, bytes_of c.2 + acc) 0 cs | Special => 0 end.
Fixpoint levels (n : node) : Z :=
  match n with Dir cs => 1 + fold_right (λ c acc, Z.max (levels c.2) acc) 0 cs | _ => 0 end.
Inductive well_formed : node → Prop :=
  | wf_file size : 0 <= size → well_formed (File size)
  | wf_dir cs : NoDup cs.*1 → Forall (λ c, well_formed c.2) cs → well_formed (Dir cs)
  | wf_special : well_formed Special.

(** The file system that serves a tree: every open directory has its children and those
    it has not read yet. *)
Notation listed := (list (string * node)).
Definition child_named (name : string) (cs : listed) : option node :=
  match filter (λ c, c.1 = name) cs with c :: _ => Some c.2 | [] => None end.
Definition tree_open (f : option nat) (root : node) (name : string) (s : list (listed * listed))
    : list (listed * listed) * result nat :=
  let target := match f with None => Some root | Some g => cs ← s !! g; child_named name cs.1 end in
  match target with
  | Some (Dir cs) => ((s ++ [(cs, cs)])%list, Ok (List.length s))
  | Some _ => (s, Err (Sentinel NotDirectory))
  | None => (s, Err (Sentinel ErrNotExist))
  end.
Definition tree_read (n : nat) (f : nat) (s : list (listed * listed)) : list (listed * listed) * (list string * option error) :=
  match s !! f with
  | Some (all, x :: unread) =>
      (<[f := (all, drop n (x :: unread))]> s, ((take n (x :: unread)).*1, None))
  | _ => (s, ([], Some (Sentinel IoEOF)))
  end.
Definition tree_stat (f : nat) (name : string) (s : list (listed * listed)) : list (listed * listed) * result entry_kind :=
  (s, match s !! f ≫= λ cs, child_named name cs.1 with
      | Some (File size) => Ok (RegularFile size)
      | Some (Dir _) => Ok Directory
      | Some Special => Ok OtherKind
      | None => Err (Sentinel ErrNotExist)
      end).
Definition tree_fs (root : node) : filesystem :=
  MkFS (list (listed * listed)) nat (λ s, (s, None)) (λ f name s, tree_open f root name s) tree_read tree_stat.

Lemma tree_reads root : reads_on (tree_fs root).
Proof.
  intros n f s Hn. cbn in f, s |- *. unfold tree_read. destruct (s !! f) as [[all [|x unread]]|]; try (by right).
  left. by destruct n; [lia|].
Qed.
Lemma child_named_elem name n cs : NoDup cs.*1 → (name, n) ∈ cs → child_named name cs = Some n.
Proof.
  unfold child_named. induction cs as [|[x y] cs IH]; [by intros _ ?%elem_of_nil|]. simpl.
  intros [Hx Hnd]%NoDup_cons Hin. destruct (decide (x = name)) as [->|Hne].
  - rewrite filter_cons_True by done. apply elem_of_cons in Hin as [[= <-]|Hin]; [done|].
    exfalso. apply Hx. by apply (list_elem_of_fmap_2 fst) in Hin.
  - rewrite filter_cons_False by done. apply elem_of_cons in Hin as [[= <- _]|Hin]; [done|]. by apply IH.
Qed.

(** ** The walk of such a tree as a scan *)

Section scan.
Context (budget : storageBudget).
Notation maxE := (maxEntries budget).
Notation maxB := (maxBytes budget).

(** Entries and bytes counted so far; [None] is a tree over its budget. *)
Section children.
Context (below : node → Z → Z → option (Z * Z)).
Fixpoint scan_children (cs : listed) (e b : Z) : option (Z * Z) :=
  match cs with
  | [] => Some (e, b)
  | (_, c) :: rest =>
      if maxE <? e + 1 then None
      else
        match c with
        | File size => if (size <? 0) || (maxB - b <? size) then None else scan_children rest (e + 1) (b + size)
        | Dir _ => match below c (e + 1) b with Some (e, b) => scan_children rest e b | None => None end
        | Special => scan_children rest (e + 1) b
        end
  end.
End children.
Fixpoint scan (depth : Z) (n : node) (e b : Z) : option (Z * Z) :=
  match n with
  | Dir cs => if maxStorageDepth <? depth then None else scan_children (λ c e b, scan (depth + 1) c e b) cs e b
  | _ => Some (e, b)
  end.

Definition fits (depth e b : Z) (more_entries more_bytes more_levels : Z) : bool :=
  (e + more_entries <=? maxE) && (b + more_bytes <=? maxB) && (depth + more_levels - 1 <=? maxStorageDepth).
Definition measured (n : node) : Prop := 0 <= entries n ∧ 0 <= bytes_of n ∧ 0 <= levels n.
Lemma dir_measured cs : Forall (λ c, measured c.2) cs → measured (Dir cs) ∧ 1 <= levels (Dir cs).
Proof. unfold measured. induction 1 as [|c cs Hc _ IH]; simpl in *; lia. Qed.
Lemma footprint_nonneg n : well_formed n → measured n.
Proof.
  induction n as [size|cs IH|] using node_tree_ind; intros Hwf; inversion Hwf as [|? _ Hcs|]; subst; [split_and!; simpl; lia| |done].
  apply dir_measured. rewrite Forall_forall in IH, Hcs. apply Forall_forall. auto.
Qed.
(** The scan accepts exactly the trees whose footprint fits. *)
Lemma scan_children_fits depth cs e b :
  Forall (λ c, well_formed c.2) cs → depth <= maxStorageDepth → e <= maxE → 0 <= b <= maxB →
  Forall (λ c, ∀ e b, e <= maxE → 0 <= b <= maxB → ∀ kids, c.2 = Dir kids →
    scan (depth + 1) c.2 e b =
      if fits (depth + 1) e b (entries c.2) (bytes_of c.2) (levels c.2) then Some (e + entries c.2, b + bytes_of c.2) else None) cs →
  scan_children (λ c e b, scan (depth + 1) c e b) cs e b =
    if fits depth e b (entries (Dir cs)) (bytes_of (Dir cs)) (levels (Dir cs))
    then Some (e + entries (Dir cs), b + bytes_of (Dir cs)) else None.
Proof.
  intros Hwf Hd. revert e b. induction cs as [|[name c] cs IH]; intros e b He Hb Hall.
  - simpl. unfold fits. simpl. rewrite (proj2 (Z.leb_le _ _)), (proj2 (Z.leb_le _ _)), (proj2 (Z.leb_le _ _)) by lia.
    simpl. do 2 f_equal; lia.
  - apply Forall_cons in Hwf as [Hc Hwf]. apply Forall_cons in Hall as [Hbelow Hall]. simpl in Hc, Hbelow.
    specialize (IH Hwf). pose proof (footprint_nonneg c Hc) as Hcn.
    assert (measured (Dir cs) ∧ 1 <= levels (Dir cs)) as Htail.
    { apply dir_measured. eapply Forall_impl; [exact Hwf|]. intros x. apply footprint_nonneg. }
    unfold measured in Hcn, Htail. cbn [scan_children].
    assert (∀ e' b', e < e' <= maxE → 0 <= b' <= maxB → e' = e + 1 + entries c → b' = b + bytes_of c → depth + levels c <= maxStorageDepth →
      scan_children (λ c e b, scan (depth + 1) c e b) cs e' b' =
        if fits depth e b (entries (Dir ((name, c) :: cs))) (bytes_of (Dir ((name, c) :: cs))) (levels (Dir ((name, c) :: cs)))
        then Some (e + entries (Dir ((name, c) :: cs)), b + bytes_of (Dir ((name, c) :: cs))) else None) as Hgo.
    { intros e' b' He' Hb' -> -> Hlev. rewrite IH by (try done; lia). unfold fits. cbn [entries bytes_of levels fold_right snd] in *.
      match goal with |- (if ?a then _ else _) = (if ?b then _ else _) => replace b with a by lia; destruct a end; [|done].
      do 2 f_equal; lia. }
    assert (∀ bad : maxE < e + 1 + entries c ∨ maxB < b + bytes_of c ∨ maxStorageDepth < depth + levels c,
      fits depth e b (entries (Dir ((name, c) :: cs))) (bytes_of (Dir ((name, c) :: cs))) (levels (Dir ((name, c) :: cs))) = false) as Hbad.
    { intros bad. unfold fits. cbn [entries bytes_of levels fold_right snd] in *. lia. }
    destruct (Z.ltb_spec maxE (e + 1)) as [Hover|Hfits]; [rewrite Hbad by lia; done|].
    destruct c as [size|kids|].
    + simpl in Hcn. destruct (_ || _) eqn:Hsize; [rewrite Hbad by (simpl; lia); done|]. apply Hgo; simpl; lia.
    + rewrite (Hbelow (e + 1) b ltac:(lia) Hb kids eq_refl). unfold fits at 1.
      destruct (_ && _ && _) eqn:Hf; [|rewrite Hbad by lia; done]. apply Hgo; lia.
    + apply Hgo; simpl in *; lia.
Qed.
Lemma scan_fits n depth e b : well_formed n → e <= maxE → 0 <= b <= maxB → ∀ kids, n = Dir kids →
  scan depth n e b = if fits depth e b (entries n) (bytes_of n) (levels n) then Some (e + entries n, b + bytes_of n) else None.
Proof.
  revert depth e b. induction n as [size|cs IH|] using node_tree_ind; intros depth e b Hwf He Hb kids Hn; [done| |done].
  inversion Hwf as [|? _ Hcs|]; subst. cbn [scan].
  destruct (Z.ltb_spec maxStorageDepth depth) as [Hdeep|Hd].
  - assert (fits depth e b (entries (Dir cs)) (bytes_of (Dir cs)) (levels (Dir cs)) = false) as ->; [|done].
    pose proof (dir_measured cs) as [[? ?] ?]; [|unfold fits; lia].
    eapply Forall_impl; [exact Hcs|]. intros x. apply footprint_nonneg.
  - apply scan_children_fits; try done. apply Forall_forall. intros c Hc e' b' He' Hb' kids' Hk.
    rewrite Forall_forall in IH, Hcs. by apply (IH c Hc (depth + 1) e' b' (Hcs c Hc) He' Hb' kids').
Qed.
End scan.

(** ** The walk computes the scan *)

Section served.
Context (root : node) (budget : storageBudget).
Notation fs := (tree_fs root).
Notation maxE := (maxEntries budget).
Notation maxB := (maxBytes budget).
Notation opened := (list (listed * listed)).

(** The open directories other than [f] are as they were. *)
Definition others_kept (f : nat) (s s' : opened) : Prop :=
  (List.length s <= List.length s')%nat ∧ ∀ g, (g < List.length s)%nat → g ≠ f → s' !! g = s !! g.
Lemma others_trans f s1 s2 s3 : others_kept f s1 s2 → others_kept f s2 s3 → others_kept f s1 s3.
Proof. intros [Hl1 H1] [Hl2 H2]. split; [lia|]. intros g Hg Hne. rewrite H2 by (lia || done). by apply H1. Qed.
Lemma others_child f s cs s' : (f < List.length s)%nat → others_kept (List.length s) (s ++ [(cs, cs)]) s' →
  others_kept f s s' ∧ s' !! f = s !! f.
Proof.
  intros Hf [Hl H]. rewrite length_app in Hl. simpl in Hl. assert (∀ g, (g < List.length s)%nat → s' !! g = s !! g) as Hg.
  { intros g Hg. rewrite H; [by rewrite lookup_app_l|rewrite length_app; simpl; lia|lia]. }
  split; [split; [lia|intros; by apply Hg]|by apply Hg].
Qed.

(** How a walk that visited [f] stands to the scan of what [f] had not read. *)
Definition agrees (f : nat) (s : opened) (out : option (Z * Z)) (w : walk fs) (r : result unit) : Prop :=
  match out with
  | Some (e, b) => r = Ok tt ∧ totalEntries fs w = e ∧ totalBytes fs w = b ∧ others_kept f s (wk_state fs w)
  | None => r = Err errFootprintLimit
  end.
Lemma agrees_from f s s' out w r : others_kept f s s' → agrees f s' out w r → agrees f s out w r.
Proof. intros Hk. destruct out as [[e b]|]; [|done]. intros (? & ? & ? & ?). split_and!; try done. by eapply others_trans. Qed.

Notation below depth := (λ c e b, scan budget (depth + 1) c e b).
Definition visits_agree (visit : nat → Z → walk fs → option (walk fs * result unit)) : Prop :=
  ∀ (f : nat) depth (s : opened) b e all read unread w r, well_formed (Dir all) → s !! f = Some (all, unread) → all = (read ++ unread)%list →
    visit f depth (MkWalk fs s b e) = Some (w, r) → agrees f s (scan_children budget (below depth) unread e b) w r.

Lemma visit_names_agree visit (f : nat) depth all read now later (s : opened) b e w r :
  visits_agree visit → well_formed (Dir all) → s !! f = Some (all, later) → all = (read ++ now ++ later)%list →
  visit_names fs budget f depth None (λ child w, visit child (depth + 1) w) (visit f depth) now.*1 (MkWalk fs s b e) = Some (w, r) →
  agrees f s (scan_children budget (below depth) (now ++ later) e b) w r.
Proof.
  intros Hvisit Hwf. revert read s b e. induction now as [|[name c] now IH]; intros read s b e Hf Hall Hrun.
  { cbn in Hrun. by eapply (Hvisit f depth s b e all read). }
  cbn [fmap list_fmap fst visit_names] in Hrun. revert Hrun. walk_fields. cbn [fs_ctx tree_fs].
  cbn [app scan_children]. destruct (maxE <? e + 1); [by intros [= <- <-]|].
  assert (child_named name all = Some c) as Hchild.
  { inversion Hwf. apply child_named_elem; [done|]. rewrite Hall. set_solver. }
  assert (s !! f ≫= (λ cs, child_named name cs.1) = Some c) as Hstat by (by rewrite Hf).
  assert (∀ (s' : opened) b' e', others_kept f s s' → s' !! f = s !! f →
    visit_names fs budget f depth None (λ child w, visit child (depth + 1) w) (visit f depth) now.*1 (MkWalk fs s' b' e') = Some (w, r) →
    agrees f s (scan_children budget (below depth) (now ++ later) e' b') w r) as Hrest.
  { intros s' b' e' Hk Hs' Hrun. eapply agrees_from; [done|]. apply (IH (read ++ [(name, c)])%list); [exact (eq_trans Hs' Hf)| |done].
    by rewrite Hall, <- app_assoc. }
  assert (others_kept f s s) as Hrefl by (by split).
  cbn [fs_fstatat tree_fs]. unfold tree_stat. rewrite Hstat. destruct c as [size|kids|].
  - destruct (_ || _); [by intros [= <- <-]|]. intros Hrun. by apply (Hrest s).
  - cbn [fs_openat tree_fs]. unfold tree_open. cbv zeta. rewrite Hstat. cbn [scan].
    destruct (maxStorageDepth <? depth + 1); [by intros [= <- <-]|].
    assert (f < List.length s)%nat as Hlt by (eapply lookup_lt_Some; exact Hf).
    destruct (visit _ _ _) as [[[s4 b4 e4] r4]|] eqn:Hv; [|done].
    apply (Hvisit (List.length s) (depth + 1) (s ++ [(kids, kids)])%list b (e + 1) kids [] kids) in Hv;
      [| |by rewrite lookup_app_r, Nat.sub_diag by lia|done].
    2: { inversion Hwf as [|? _ Hcs|]; subst. rewrite Forall_forall in Hcs. apply (Hcs (name, Dir kids)).
         set_solver. }
    unfold agrees in Hv at 1. destruct (scan_children _ _ kids _ _) as [[e' b']|].
    + destruct Hv as (-> & <- & <- & Hk). apply (others_child f) in Hk as [Hk Hs4]; [|done]. intros Hrun. by apply (Hrest s4).
    + subst r4. by intros [= <- <-].
  - intros Hrun. by apply (Hrest s).
Qed.

Lemma visit_agrees fuel : visits_agree (visit fs budget fuel).
Proof.
  induction fuel as [|fuel IH]; intros f depth s b e all read unread w r Hwf Hf Hall; [done|].
  cbn [visit]. walk_fields. cbn [fs_ctx fs_readdirnames tree_fs]. unfold tree_read. rewrite Hf.
  destruct unread as [|x unread]; [by intros [= <- <-]|]. intros Hrun.
  rewrite <- (take_drop storageReadBatch (x :: unread)) at 1. eapply agrees_from; cycle 1.
  - eapply (visit_names_agree _ f depth all read); [exact IH|done| | |exact Hrun].
    + apply list_lookup_insert_eq. by eapply lookup_lt_Some.
    + by rewrite take_drop.
  - split; [by rewrite length_insert|]. intros g _ Hne. by apply list_lookup_insert_ne.
Qed.
End served.

(** The tree's own footprint is within a budget. *)
Definition footprint_fits (budget : storageBudget) (n : node) : bool :=
  (entries n <=? maxEntries budget) && (bytes_of n <=? maxBytes budget) && (levels n - 1 <=? maxStorageDepth).

(** C37: on a directory tree that nobody writes meanwhile the walk computes the footprint.
    Whatever the shape of the tree and wherever the batches of 128 names split its
    directories, the budgeted walk accepts the tree exactly when its entries and the bytes of
    its files are within the budget and no directory is deeper than 64 levels, reports the
    footprint error otherwise, and when it accepts it has counted every entry and byte. *)
Theorem storage_walk_measures_the_tree budget cs path :
  well_formed (Dir cs) → 0 <= maxEntries budget → 0 <= maxBytes budget →
  ∃ w, checkStorageBudget (tree_fs (Dir cs)) budget (walk_fuel budget) path [] =
      Some (w, if footprint_fits budget (Dir cs) then Ok tt else Err errFootprintLimit)
    ∧ (footprint_fits budget (Dir cs) = true →
       totalEntries (tree_fs (Dir cs)) w = entries (Dir cs) ∧ totalBytes (tree_fs (Dir cs)) w = bytes_of (Dir cs)).
Proof.
  intros Hwf He Hb. unfold checkStorageBudget. cbn [fs_ctx fs_openat tree_fs]. walk_fields.
  rewrite (proj2 (Z.ltb_ge _ _) Hb), (proj2 (Z.ltb_ge _ _) He). cbn [orb tree_open app List.length].
  destruct (visit_ends (tree_fs (Dir cs)) budget (walk_fuel budget) 0%nat 0 (MkWalk (tree_fs (Dir cs)) [(cs, cs)] 0 0)) as (w & r & Hv & _);
    [apply tree_reads|split; simpl; lia|unfold walk_fuel; simpl; lia|].
  exists w. pose proof (visit_agrees (Dir cs) budget (walk_fuel budget) 0%nat 0 [(cs, cs)] 0 0 cs [] cs w r Hwf eq_refl eq_refl Hv) as Hag.
  pose proof (scan_fits budget (Dir cs) 0 0 0 Hwf He ltac:(lia) cs eq_refl) as Hscan.
  cbn [scan] in Hscan. rewrite (proj2 (Z.ltb_ge maxStorageDepth 0)) in Hscan by (unfold maxStorageDepth; lia). rewrite Hscan in Hag.
  replace (fits budget 0 0 0 (entries (Dir cs)) (bytes_of (Dir cs)) (levels (Dir cs))) with (footprint_fits budget (Dir cs)) in Hag
    by (unfold fits, footprint_fits; lia).
  rewrite Hv. destruct (footprint_fits budget (Dir cs)); [|by simpl in Hag; subst r].
  destruct Hag as (-> & -> & -> & _). done.
Qed.

(** A profile directory with a subdirectory: four entries, 150 bytes. *)
Definition sample_tree : listed :=
  [("Default"%string, Dir [("Cookies"%string, File 100); ("lock"%string, Special)]); ("prefs.json"%string, File 50)].
Lemma sample_tree_wf : well_formed (Dir sample_tree).
Proof. repeat first [constructor | lia | set_solver]. Qed.
Lemma storage_walk_ends_witness :
  reads_on (tree_fs (Dir sample_tree)) ∧ ∃ w r,
    checkStorageBudget (tree_fs (Dir sample_tree)) (MkBudget 200 3) (walk_fuel (MkBudget 200 3)) "" [] = Some (w, r)
    ∧ totalEntries (tree_fs (Dir sample_tree)) w <= 4 ∧ r = Err errFootprintLimit.
Proof.
  split; [apply tree_reads|].
  destruct (storage_walk_ends (tree_fs (Dir sample_tree)) (MkBudget 200 3) "" [] (tree_reads _)) as (w & r & Hw & Hn & _).
  exists w, r. split; [exact Hw|]. split; [exact Hn|]. vm_compute in Hw. by injection Hw as <- <-.
Defined.
Lemma storage_walk_measures_the_tree_witness :
  footprint_fits (MkBudget 150 4) (Dir sample_tree) = true ∧ footprint_fits (MkBudget 149 4) (Dir sample_tree) = false ∧
  ∃ w, checkStorageBudget (tree_fs (Dir sample_tree)) (MkBudget 150 4) (walk_fuel (MkBudget 150 4)) "" [] = Some (w, Ok tt).
Proof.
  split; [by vm_compute|]. split; [by vm_compute|].
  destruct (storage_walk_measures_the_tree (MkBudget 150 4) sample_tree "" sample_tree_wf) as (w & Hw & _); [done..|].
  exists w. exact Hw.
Defined.

(** ** What cleaning up removes

    The names and markers of the directories the program manages, and that cleaning up
    removes exactly the managed directories whose owner is gone. *)

(** ** Names *)

Lemma format_digits_bytes p fuel v acc :
  all_bytes p "0123456789" = true → all_bytes p acc = true → all_bytes p (format_digits fuel v acc) = true.
Proof.
  intros Hp. cbn [all_bytes] in Hp. repeat (apply andb_true_iff in Hp as [? Hp]). revert v acc.
  induction fuel as [|fuel IH]; intros v acc Hacc; [done|]. cbn [format_digits].
  assert (all_bytes p (String (byte (48 + Z.to_nat (v mod 10))) acc) = true) as Hnew.
  { cbn [all_bytes]. rewrite Hacc, andb_true_r. pose proof (Z.mod_pos_bound v 10 ltac:(lia)).
    assert (v mod 10 = 0 ∨ v mod 10 = 1 ∨ v mod 10 = 2 ∨ v mod 10 = 3 ∨ v mod 10 = 4 ∨ v mod 10 = 5 ∨ v mod 10 = 6
      ∨ v mod 10 = 7 ∨ v mod 10 = 8 ∨ v mod 10 = 9) as Hc by lia. destruct_or! Hc; by rewrite Hc. }
  destruct (v <? 10); [done|]. by apply IH.
Qed.
Lemma format_positive_bytes p v : 0 < v → all_bytes p "0123456789" = true → all_bytes p (format_int v) = true.
Proof.
  intros Hv Hp. unfold format_int. rewrite (proj2 (Z.ltb_ge _ _)) by lia. by apply format_digits_bytes.
Qed.

(** A managed name: a prefix and a positive number. *)
Definition safe_byte (b : ascii) : bool := plain_byte b && negb (Ascii.eqb b "/") && negb (Ascii.eqb b "\").
Lemma all_bytes_impl (p q : ascii → bool) s : (∀ c, p c = true → q c = true) → all_bytes p s = true → all_bytes q s = true.
Proof. intros H. induction s as [|c s IH]; [done|]. simpl. intros [Hc Hs]%andb_true_iff. by rewrite (H c Hc), IH. Qed.
Lemma safeChild_managed working parent prefix id :
  IsAbs parent = true → Clean parent = parent → parent ≠ "/" →
  prefix = "job-" ∨ prefix = "profile-" → 0 < id →
  safeChild working parent (prefix +:+ format_int id) = Ok (parent +:+ "/" +:+ prefix +:+ format_int id).
Proof.
  intros Habs Hclean Hroot Hprefix Hid. set (name := prefix +:+ format_int id).
  assert (all_bytes safe_byte name = true) as Hsafe.
  { unfold name. rewrite all_bytes_app, format_positive_bytes by done. by destruct Hprefix as [-> | ->]. }
  assert (component name) as Hcomp.
  { split_and!; [by destruct Hprefix as [-> | ->]..|]. eapply all_bytes_impl; [|exact Hsafe].
    intros c Hc. unfold safe_byte in Hc. by destruct (Ascii.eqb c "/"); [rewrite andb_false_r in Hc|]. }
  unfold safeChild. rewrite (trim_space_plain name); cbv zeta.
  2: { eapply all_bytes_impl; [|exact Hsafe]. intros c Hc. unfold safe_byte in Hc. by destruct (plain_byte c). }
  rewrite (Base_component name Hcomp), String.eqb_refl, (Abs_child _ _ _ Habs Hclean Hroot Hcomp).
  destruct Hcomp as (Hne & Hdot & Hdots & _).
  rewrite (proj2 (String.eqb_neq _ _) Hne), (proj2 (String.eqb_neq _ _) Hdot), (proj2 (String.eqb_neq _ _) Hdots).
  assert (contains_any name "/\" = false) as ->; [|done].
  unfold contains_any, any_byte. apply negb_false_iff. eapply all_bytes_impl; [|exact Hsafe].
  intros c Hc. unfold safe_byte in Hc. cbn. destruct (Ascii.eqb c "/"); [by rewrite andb_false_r in Hc|].
  destruct (Ascii.eqb c "\"); [by rewrite andb_false_r in Hc|]. done.
Qed.
Lemma digits_nonneg s acc v : 0 <= acc → digits_onto acc s = Some v → 0 <= v.
Proof.
  revert acc. induction s as [|c s IH]; intros acc Hacc; simpl; [by intros [= <-]|].
  destruct (is_digit c) eqn:Hc; [|done]. apply IH. unfold digit_value. unfold is_digit, in_range in Hc.
  apply andb_true_iff in Hc as [Hc%Nat.leb_le _]. lia.
Qed.
Lemma parse_int64_range s v : parse_int64 s = Some v → int64 v.
Proof.
  assert (∀ d v, parse_digits d = Some v → 0 <= v) as Hnn.
  { intros [|c d] w; [done|]. by apply digits_nonneg. }
  unfold parse_int64, int64. destruct s as [|c s]; [done|]. cbv zeta beta.
  assert (∀ (neg : bool) d, (w ← parse_digits d; if neg then (if w <=? 2 ^ 63 then Some (- w) else None)
    else (if w <? 2 ^ 63 then Some w else None)) = Some v → - 2 ^ 63 <= v < 2 ^ 63) as Hgo; [|repeat case_match; [apply (Hgo true)|apply (Hgo false)..]].
  intros neg d. destruct (parse_digits d) as [w|] eqn:Hw; [|done]. apply Hnn in Hw. cbn [mbind option_bind].
  destruct neg; case_match; intros [= <-]; lia.
Qed.
Lemma numbered_iff prefix name id : numbered prefix name = Some id ↔ 0 < id ∧ int64 id ∧ name = prefix +:+ format_int id.
Proof.
  unfold numbered. split.
  - destruct (cut_prefix prefix name) as [digits|] eqn:Hcut; [|done]. cbn [mbind option_bind].
    destruct (parse_int64 digits) as [v|] eqn:Hv; [|done]. cbn [mbind option_bind].
    destruct (_ || _) eqn:Hbad; [done|]. intros [= <-]. apply orb_false_iff in Hbad as [Hpos Hname].
    apply Z.leb_gt in Hpos. apply negb_false_iff, String.eqb_eq in Hname. split_and!; [done| |done].
    by eapply parse_int64_range.
  - intros (Hpos & H64 & ->). rewrite (proj2 (cut_prefix_Some prefix _ (format_int id)) eq_refl). cbn [mbind option_bind].
    rewrite parse_format_int by done. cbn [mbind option_bind]. rewrite String.eqb_refl.
    by rewrite (proj2 (Z.leb_gt _ _)) by done.
Qed.

(** ** What is removed *)

Lemma retained_none snapshot recheck id :
  retained_profile snapshot recheck id = Ok None ↔
  id ∉ (PID <$> snapshot) ∧ ∃ x, recheck id = Err x ∧ errors_is x ErrNotFound = true.
Proof.
  unfold retained_profile. destruct (last (filter (λ p, PID p = id) snapshot)) as [p|] eqn:Hlast.
  - split; [done|]. intros [Hnot _]. exfalso. apply Hnot. apply last_Some in Hlast as [l Hl].
    assert (p ∈ filter (λ p, PID p = id) snapshot) as [Hid Hin]%list_elem_of_filter by (rewrite Hl; set_solver).
    apply list_elem_of_fmap. by exists p.
  - apply last_None in Hlast.
    assert (id ∉ (PID <$> snapshot)) as Hnot.
    { intros (p & -> & Hp)%list_elem_of_fmap. assert (p ∈ filter (λ q, PID q = PID p) snapshot) as Hin by (by apply list_elem_of_filter).
      rewrite Hlast in Hin. by apply elem_of_nil in Hin. }
    destruct (recheck id) as [p|x]; [by split; [|intros [_ (? & ? & _)]]|]. destruct (errors_is x ErrNotFound) eqn:Hx.
    + split; [|done]. intros _. split; [done|]. by exists x.
    + split; [done|]. intros [_ (y & [= <-] & Hy)]. congruence.
Qed.

(** The removals of a pass over a listing, when those of one entry are known. *)
Lemma each_entry_removals (visit : nat → entry → list string → list string * result unit) (wanted : nat → entry → string → Prop) n es removed0 :
  (∀ n e removed, ∃ new, (visit n e removed).1 = (removed ++ new)%list ∧ Forall (wanted n e) new
     ∧ ((visit n e removed).2 = Ok tt → ∀ path, wanted n e path → path ∈ new)) →
  ∃ new, (each_entry visit n es removed0).1 = (removed0 ++ new)%list
    ∧ (∀ path, path ∈ new → ∃ k e, es !! k = Some e ∧ wanted (n + k)%nat e path)
    ∧ ((each_entry visit n es removed0).2 = Ok tt → ∀ k e path, es !! k = Some e → wanted (n + k)%nat e path → path ∈ new).
Proof.
  intros Hvisit. revert n removed0. induction es as [|e es IH]; intros n removed0; simpl.
  - exists []. rewrite app_nil_r. split_and!; [done|by intros ? ?%elem_of_nil|done].
  - destruct (Hvisit n e removed0) as (new & Hnew & Hsound & Hcomplete). rewrite Forall_forall in Hsound.
    destruct (visit n e removed0) as [removed1 [[]|x]]; simpl in *; subst removed1.
    + destruct (IH (S n) (removed0 ++ new)%list) as (later & Hlater & Hs & Hc). exists (new ++ later)%list.
      split_and!; [by rewrite Hlater, app_assoc| |].
      * intros path [Hin|Hin]%elem_of_app; [exists 0%nat, e; rewrite Nat.add_0_r; auto|].
        destruct (Hs path Hin) as (k & e' & Hk & Hw). exists (S k), e'. by rewrite Nat.add_succ_r.
      * intros Hok k e' path Hk Hw. apply elem_of_app. destruct k as [|k].
        -- left. injection Hk as <-. rewrite Nat.add_0_r in Hw. by apply Hcomplete.
        -- right. apply (Hc Hok k e'); [done|]. by rewrite Nat.add_succ_r in Hw.
    + exists new. split_and!; [done| |done]. intros path Hin. exists 0%nat, e. rewrite Nat.add_0_r. auto.
Qed.

Section cleanup.
Context (working parent : string) (removeAll : string → result unit).
Hypothesis Habs : IsAbs parent = true.
Hypothesis Hclean : Clean parent = parent.
Hypothesis Hroot : parent ≠ "/".

(** A managed directory of the listing. *)
Definition managed (prefix : string) (e : entry) (id : Z) (path : string) : Prop :=
  en_dir e = true ∧ 0 < id ∧ int64 id ∧ en_name e = prefix +:+ format_int id ∧ path = parent +:+ "/" +:+ en_name e.

(** A profile directory whose own marker names it, of a profile that was neither in the
    snapshot nor in the store afterwards. *)
Definition orphaned (snapshot : list Profile) (recheck : nat → Z → result Profile) (marker : nat → string → result marker_file)
    (n : nat) (e : entry) (path : string) : Prop := ∃ id user,
  managed "profile-" e id path ∧ readManagedProfileMarker (marker n path) = Ok (user, id)
  ∧ id ∉ (PID <$> snapshot) ∧ ∃ x, recheck n id = Err x ∧ errors_is x ErrNotFound = true.

Lemma cleanup_profile_removals snapshot recheck marker n e removed :
  ∃ new, (cleanup_profile working parent removeAll snapshot (recheck n) (marker n) e removed).1 = (removed ++ new)%list
    ∧ Forall (orphaned snapshot recheck marker n e) new
    ∧ ((cleanup_profile working parent removeAll snapshot (recheck n) (marker n) e removed).2 = Ok tt →
       ∀ path, orphaned snapshot recheck marker n e path → path ∈ new).
Proof using Habs Hclean Hroot.
  assert (∀ r : result unit, (∀ path, ¬ orphaned snapshot recheck marker n e path) →
    ∃ new, (removed, r).1 = (removed ++ new)%list ∧ Forall (orphaned snapshot recheck marker n e) new
      ∧ ((removed, r).2 = Ok tt → ∀ path, orphaned snapshot recheck marker n e path → path ∈ new)) as Hnone.
  { intros r Hno. exists []. rewrite app_nil_r. split_and!; [done..|]. intros _ path Hp. by destruct (Hno path). }
  unfold cleanup_profile. destruct (en_dir e) eqn:Hdir; cbn [negb];
    [|apply Hnone; intros path (? & ? & (? & _) & _); congruence].
  unfold managedProfileID. destruct (numbered "profile-" (en_name e)) as [id|] eqn:Hnum.
  2: { apply Hnone. intros path (id & ? & (_ & ? & ? & Hname & _) & _).
       rewrite (proj2 (numbered_iff "profile-" (en_name e) id)) in Hnum; [done|done]. }
  apply numbered_iff in Hnum as (Hpos & H64 & Hname). rewrite Hname.
  rewrite (safeChild_managed working parent "profile-" id Habs Hclean Hroot) by (try done; by right).
  set (target := parent +:+ "/" +:+ "profile-" +:+ format_int id).
  assert (∀ id' path, managed "profile-" e id' path → id' = id ∧ path = target) as Huniq.
  { intros id' path (_ & Hpos' & H64' & Hname' & ->). rewrite Hname in Hname' |- *. split; [|done].
    apply (f_equal (cut_prefix "profile-")) in Hname'. rewrite !(proj2 (cut_prefix_Some _ _ _) eq_refl) in Hname'.
    injection Hname' as Heq. by apply format_int_inj. }
  assert (managed "profile-" e id target) as Hmine by (unfold managed; rewrite Hname; by split_and!).
  destruct (readManagedProfileMarker (marker n target)) as [[user marked]|x] eqn:Hmark.
  2: { apply Hnone. intros path (id' & user & Hm & Hmark' & _). apply Huniq in Hm as [-> ->]. congruence. }
  destruct (Z.eqb_spec marked id) as [->|Hne]; cbn [negb].
  2: { apply Hnone. intros path (id' & user' & Hm & Hmark' & _). apply Huniq in Hm as [-> ->]. congruence. }
  destruct (retained_profile snapshot (recheck n) id) as [[p|]|x] eqn:Hret.
  - destruct (negb _); apply Hnone; intros path (id' & user' & Hm & _ & Hgone); apply Huniq in Hm as [-> ->];
      apply retained_none in Hgone; congruence.
  - apply retained_none in Hret. exists [target]. unfold remove. split_and!; [done| |].
    + apply List.Forall_cons; [|done]. by exists id, user.
    + intros _ path (id' & user' & Hm & _). apply Huniq in Hm as [-> ->]. set_solver.
  - apply Hnone. intros path (id' & user' & Hm & _ & Hgone). apply Huniq in Hm as [-> ->].
    apply retained_none in Hgone. congruence.
Qed.

(** A job's artifact directory, of a job that ended or no longer exists. *)
Definition expired_artifacts (job : nat → Z → result Job) (n : nat) (e : entry) (path : string) : Prop := ∃ id,
  managed "job-" e id path ∧
  match job n id with Ok j => Terminal (JStatus j) = true | Err x => errors_is x ErrNotFound = true end.
Lemma cleanup_artifact_removals job n e removed :
  ∃ new, (cleanup_artifact working parent removeAll (job n) e removed).1 = (removed ++ new)%list
    ∧ Forall (expired_artifacts job n e) new
    ∧ ((cleanup_artifact working parent removeAll (job n) e removed).2 = Ok tt →
       ∀ path, expired_artifacts job n e path → path ∈ new).
Proof using Habs Hclean Hroot.
  assert (∀ r : result unit, (∀ path, ¬ expired_artifacts job n e path) →
    ∃ new, (removed, r).1 = (removed ++ new)%list ∧ Forall (expired_artifacts job n e) new
      ∧ ((removed, r).2 = Ok tt → ∀ path, expired_artifacts job n e path → path ∈ new)) as Hnone.
  { intros r Hno. exists []. rewrite app_nil_r. split_and!; [done..|]. intros _ path Hp. by destruct (Hno path). }
  unfold cleanup_artifact. destruct (en_dir e) eqn:Hdir; cbn [negb]; [|apply Hnone; intros path (? & (? & _) & _); congruence].
  destruct (numbered "job-" (en_name e)) as [id|] eqn:Hnum.
  2: { apply Hnone. intros path (id & (_ & ? & ? & Hname & _) & _).
       rewrite (proj2 (numbered_iff "job-" (en_name e) id)) in Hnum; [done|done]. }
  apply numbered_iff in Hnum as (Hpos & H64 & Hname). rewrite Hname.
  rewrite (safeChild_managed working parent "job-" id Habs Hclean Hroot) by (try done; by left).
  set (target := parent +:+ "/" +:+ "job-" +:+ format_int id).
  assert (∀ id' path, managed "job-" e id' path → id' = id ∧ path = target) as Huniq.
  { intros id' path (_ & Hpos' & H64' & Hname' & ->). rewrite Hname in Hname' |- *. split; [|done].
    apply (f_equal (cut_prefix "job-")) in Hname'. rewrite !(proj2 (cut_prefix_Some _ _ _) eq_refl) in Hname'.
    injection Hname' as Heq. by apply format_int_inj. }
  assert (managed "job-" e id target) as Hmine by (unfold managed; rewrite Hname; by split_and!).
  assert (∀ what, match job n id with Ok j => Terminal (JStatus j) = true | Err x => errors_is x ErrNotFound = true end →
    ∃ new, (remove removeAll what target removed).1 = (removed ++ new)%list ∧ Forall (expired_artifacts job n e) new
      ∧ ((remove removeAll what target removed).2 = Ok tt → ∀ path, expired_artifacts job n e path → path ∈ new)) as Hremove.
  { intros what Hgone. exists [target]. split_and!; [done|apply List.Forall_cons; [by exists id|done]|].
    intros _ path (id' & Hm & _). apply Huniq in Hm as [-> ->]. set_solver. }
  assert (∀ path, expired_artifacts job n e path →
    match job n id with Ok j => Terminal (JStatus j) = true | Err x => errors_is x ErrNotFound = true end) as Hgone.
  { intros path (id' & Hm & Hgone). by apply Huniq in Hm as [-> ->]. }
  destruct (job n id) as [j|x].
  - destruct (Terminal (JStatus j)) eqn:Hterm; [by apply Hremove|]. apply Hnone. intros path Hp. by apply Hgone in Hp.
  - destruct (errors_is x ErrNotFound) eqn:Hnf; [by apply Hremove|]. apply Hnone. intros path Hp. by apply Hgone in Hp.
Qed.
End cleanup.

(** C38: cleaning up removes exactly what has no owner any more.  Whatever the store, the
    markers and the removals answer while a listing is worked off: every profile directory
    that is removed is a child [profile-<id>] of the profile directory whose own marker names
    that profile, and neither the snapshot nor the later look into the store has the profile;
    every artifact directory that is removed is a child [job-<id>] of a job that has ended or
    does not exist; and a pass that reports success removed all of them. *)
Theorem cleanup_removes_exactly_orphans working parent removeAll snapshot recheck marker job entries :
  IsAbs parent = true → Clean parent = parent → parent ≠ "/" →
  let profiles := cleanupProfileEntries working parent removeAll snapshot recheck marker (Ok entries) in
  let artifacts := cleanupArtifacts working parent removeAll job (Ok entries) in
  (∀ path, path ∈ profiles.1 → ∃ n e, entries !! n = Some e ∧ orphaned parent snapshot recheck marker n e path) ∧
  (profiles.2 = Ok tt → ∀ n e path, entries !! n = Some e → orphaned parent snapshot recheck marker n e path → path ∈ profiles.1) ∧
  (∀ path, path ∈ artifacts.1 → ∃ n e, entries !! n = Some e ∧ expired_artifacts parent job n e path) ∧
  (artifacts.2 = Ok tt → ∀ n e path, entries !! n = Some e → expired_artifacts parent job n e path → path ∈ artifacts.1).
Proof.
  intros Habs Hclean Hroot profiles artifacts. unfold profiles, artifacts, cleanupProfileEntries, cleanupArtifacts. cbn [listing].
  destruct (each_entry_removals (λ n, cleanup_profile working parent removeAll snapshot (recheck n) (marker n))
    (orphaned parent snapshot recheck marker) 0 entries []) as (new & -> & Hsound & Hcomplete).
  { intros. by apply cleanup_profile_removals. }
  destruct (each_entry_removals (λ n, cleanup_artifact working parent removeAll (job n))
    (expired_artifacts parent job) 0 entries []) as (gone & -> & Hsound' & Hcomplete').
  { intros. by apply cleanup_artifact_removals. }
  split_and!; [exact Hsound|exact Hcomplete|exact Hsound'|exact Hcomplete'].
Qed.

(** A profile directory that is a stray, one that is retained and one of somebody else. *)
Definition sample_entries : list entry :=
  [MkEntry "profile-7" true; MkEntry "profile-8" true; MkEntry "profile-09" true; MkEntry "job-3" true; MkEntry "notes" false].
Definition sample_marker (path : string) : result marker_file :=
  if String.eqb path "/data/profile-7" then Ok (MkMarker true 24 (Ok (managedProfileMarkerValue 2 7)))
  else if String.eqb path "/data/profile-8" then Ok (MkMarker true 24 (Ok (managedProfileMarkerValue 2 8)))
  else Err (Sentinel ErrNotExist).
Definition absent {A} (_ : nat) (_ : Z) : result A := Err (Sentinel ErrNotFound).
Lemma cleanup_removes_exactly_orphans_witness :
  "/data/profile-7" ∈ (cleanupProfileEntries "/" "/data" (λ _, Ok tt) [] absent (λ _, sample_marker) (Ok sample_entries)).1
  ∧ (cleanupArtifacts "/" "/data" (λ _, Ok tt) absent (Ok sample_entries)).1 = ["/data/job-3"].
Proof.
  destruct (cleanup_removes_exactly_orphans "/" "/data" (λ _, Ok tt) [] absent (λ _, sample_marker) absent sample_entries)
    as (_ & Hall & _); [done..|]. split; [|by vm_compute].
  apply (Hall eq_refl 0%nat (MkEntry "profile-7" true)); [done|]. exists 7, 2.
  split; [|split; [vm_compute; reflexivity|split; [apply not_elem_of_nil|]]].
  - repeat split; vm_compute; reflexivity || discriminate.
  - by exists (Sentinel ErrNotFound).
Defined.

(** ** The ownership marker *)

Lemma cut_at c s t : all_bytes (λ b, negb (Ascii.eqb c b)) s = true →
  cut (String c EmptyString) (s +:+ String c EmptyString +:+ t) = Some (s, t).
Proof.
  induction s as [|b s IH]; intros Hs.
  - rewrite append_nil_l, append_cons, append_nil_l. cbn [cut cut_prefix]. by rewrite Ascii.eqb_refl.
  - rewrite append_cons. cbn [all_bytes] in Hs. apply andb_true_iff in Hs as [Hb Hs]. apply negb_true_iff in Hb.
    cbn [cut cut_prefix]. by rewrite Hb, (IH Hs).
Qed.
Lemma text_length_append s t : String.length (s +:+ t) = (String.length s + String.length t)%nat.
Proof. induction s as [|c s IH]; [done|]. rewrite append_cons. simpl. by rewrite IH. Qed.
Lemma format_digits_length fuel v acc : (String.length (format_digits fuel v acc) <= fuel + String.length acc)%nat.
Proof.
  revert v acc. induction fuel as [|fuel IH]; intros v acc; simpl; [done|]. destruct (v <? 10); simpl; [lia|].
  specialize (IH (v / 10) (String (byte (48 + Z.to_nat (v mod 10))) acc)). simpl in IH. lia.
Qed.

Lemma format_positive_length v : 0 < v → (String.length (format_int v) <= 20)%nat.
Proof.
  intros Hv. unfold format_int. rewrite (proj2 (Z.ltb_ge _ _)) by lia. exact (format_digits_length 20 v "").
Qed.

(** An ownership marker names one owner and one profile.  What the program writes into a
    new profile directory reads back as the same user and profile, and conversely a marker
    that is accepted is byte for byte what the program writes for the pair it names, so two
    different pairs never share a marker. *)
Theorem profile_marker_roundtrip u p raw :
  0 < u → 0 < p → int64 u → int64 p →
  (parse_marker raw = Ok (u, p) ↔ raw = managedProfileMarkerValue u p).
Proof.
  intros Hu Hp Hu64 Hp64. split; intros Hraw.
  - unfold parse_marker in Hraw. destruct (128 <? _)%nat; [done|]. destruct (scan_marker raw) as [[u' p']|]; [|done].
    destruct (_ || _) eqn:Hbad; [done|]. injection Hraw as -> ->. apply orb_false_iff in Hbad as [_ Hbad].
    by apply negb_false_iff, String.eqb_eq in Hbad.
  - subst raw. unfold parse_marker. assert (String.length (managedProfileMarkerValue u p) <= 128)%nat as Hlen.
    { unfold managedProfileMarkerValue. rewrite !text_length_append.
      generalize (format_positive_length u Hu), (format_positive_length p Hp).
      generalize (String.length (format_int u)), (String.length (format_int p)). simpl. lia. }
    rewrite (proj2 (Nat.ltb_ge _ _) Hlen).
    assert (scan_marker (managedProfileMarkerValue u p) = Some (u, p)) as ->.
    { unfold scan_marker, managedProfileMarkerValue. rewrite (proj2 (cut_prefix_Some _ _ _) eq_refl). cbn [mbind option_bind].
      rewrite (cut_at ":") by (by apply format_positive_bytes). cbn [mbind option_bind]. change newline with (String (byte 10) EmptyString).
      pose proof (cut_at (byte 10) (format_int p) "" ltac:(by apply format_positive_bytes)) as Hcut.
      rewrite append_nil_r in Hcut. rewrite Hcut. cbn [mbind option_bind]. by rewrite !parse_format_int by done. }
    rewrite (proj2 (Z.leb_gt _ _)), (proj2 (Z.leb_gt _ _)), String.eqb_refl by done. done.
Qed.
Lemma profile_marker_roundtrip_witness : parse_marker (managedProfileMarkerValue 2 7) = Ok (2, 7).
Proof. by apply (profile_marker_roundtrip 2 7). Defined.
