(* ===== verification/Isolation.v ===== *)
(** * Calls that only read, and the rows of other accounts

    Calls that leave the database as it was, and what a call on behalf of one account leaves
    as it was: every row another account owns, in every table, and the settings of the
    installation. *)

From S2P Require Import Prelude GoStrings GoTime Json Secrets Auth Origin Domain Database JobStore ResourceStore ProfileStore SettingsStore AccountStore.
From S2P Require Import Redaction Scheduler Samples JobInvariants EventStore JobOperations JobLemmas AccountStore AccountInvariants ResourceInvariants BookingQueue Pairing.
From Stdlib Require Import Ascii String.

Open Scope Z_scope.

(** Whatever it returns, the state stays. *)
Definition reads {A} (m : ST db A) : Prop := ∀ s, (m s).1 = s.
Lemma reads_quiet {A} (m : ST db A) : (∀ s0, preserves (λ s, s = s0) m) → reads m.
Proof. intros Hm s. by apply (Hm s s). Qed.
Lemma reads_Ok {A} (m : ST db A) s s' a : reads m → m s = (s', Ok a) → s' = s.
Proof. intros Hm Ha. specialize (Hm s). by rewrite Ha in Hm. Qed.
Create HintDb reads.
Lemma reads_bind {A B} (m : ST db A) (f : A → ST db B) : reads m → (∀ a, reads (f a)) → reads (m ≫= f).
Proof.
  intros Hm Hf s. specialize (Hm s). rewrite ST_bind_unfold. destruct (m s) as [s' [b|e]]; cbn in *; subst; [apply Hf|done].
Qed.
Lemma reads_value {A} (f : db → result A) : reads (λ s, (s, f s)).
Proof. done. Qed.
Lemma reads_gets {A} (f : db → A) : reads (gets f).
Proof. done. Qed.
Lemma reads_ret {A} (a : A) : reads (mret a).
Proof. done. Qed.
Lemma reads_lift {A} (r : result A) : reads (lift r).
Proof. done. Qed.
Lemma reads_reject b e : reads (st_reject b e).
Proof. done. Qed.
Lemma reads_fail {A} e : reads (fail (A:=A) e).
Proof. done. Qed.
#[export] Hint Resolve reads_value reads_gets reads_ret reads_lift reads_reject reads_fail : reads.
Ltac keep_reading := repeat first
  [ progress intros
  | solve [auto 3 with reads]
  | apply reads_bind
  | match goal with
    | |- reads (match ?o with _ => _ end) => destruct o
    | |- reads (let '(_, _) := ?o in _) => destruct o
    end ].

Lemma GetProfile_reading uid id : reads (GetProfile uid id).
Proof. unfold GetProfile. keep_reading. Qed.
Lemma GetOTPSource_reading uid id : reads (GetOTPSource uid id).
Proof. unfold GetOTPSource. keep_reading. Qed.
Lemma GetDefaultOTPSource_reading uid : reads (GetDefaultOTPSource uid).
Proof. unfold GetDefaultOTPSource, GetOTPSource. keep_reading. Qed.
Lemma SystemGetJob_reading id : reads (SystemGetJob id).
Proof. unfold SystemGetJob. keep_reading. Qed.
Lemma SystemGetOTPSource_reading id : reads (SystemGetOTPSource id).
Proof. unfold SystemGetOTPSource. keep_reading. Qed.
Lemma getUser_reading id : reads (getUser id).
Proof. unfold getUser. keep_reading. Qed.
Lemma prepareBookingRequest_reading `{TimeZoneDB} uid r : reads (prepareBookingRequest uid r).
Proof.
  unfold prepareBookingRequest, bookingProfile, GetProfile. keep_reading.
Qed.
Lemma authenticatePassword_reading `{Hashes} name password slot : reads (authenticatePassword name password slot).
Proof.
  unfold authenticatePassword. keep_reading.
Qed.

Lemma ListProfiles_reading uid : reads (ListProfiles uid).
Proof. unfold ListProfiles. keep_reading. Qed.
Lemma ListJobs_reading uid n : reads (ListJobs uid n).
Proof. unfold ListJobs. keep_reading. Qed.
Lemma GetJob_reading uid id : reads (GetJob uid id).
Proof. unfold GetJob. keep_reading. Qed.
Lemma ListOTPSources_reading uid : reads (ListOTPSources uid).
Proof. unfold ListOTPSources. keep_reading. Qed.
Lemma ListBookingRequests_reading uid : reads (ListBookingRequests uid).
Proof. unfold ListBookingRequests. keep_reading. Qed.
Lemma GetBookingRequest_reading uid id : reads (GetBookingRequest uid id).
Proof. unfold GetBookingRequest. keep_reading. Qed.
Lemma GetAccountSettings_reading uid : reads (GetAccountSettings uid).
Proof. unfold GetAccountSettings. keep_reading. Qed.

#[export] Hint Resolve ListOTPSources_reading ListBookingRequests_reading GetBookingRequest_reading GetAccountSettings_reading
  ListProfiles_reading ListJobs_reading GetJob_reading GetProfile_reading GetOTPSource_reading GetDefaultOTPSource_reading SystemGetJob_reading
  SystemGetOTPSource_reading getUser_reading prepareBookingRequest_reading authenticatePassword_reading : reads.
Lemma ListJobEvents_reading uid id after limit : reads (ListJobEvents uid id after limit).
Proof. unfold ListJobEvents. keep_reading. Qed.
Lemma GetUser_reading id : reads (GetUser id).
Proof. unfold GetUser. keep_reading. Qed.
#[export] Hint Resolve ListJobEvents_reading GetUser_reading : reads.

(** ** What they return *)

Lemma GetOTPSource_owner uid id s s1 o : GetOTPSource uid id s = (s1, Ok o) → 0 < uid ∧ OSUserID o = uid.
Proof.
  unfold GetOTPSource. intros Hg. inv_ok. bool_to_prop. unfold owned_source in *.
  destruct (sources s !! id) as [r|]; [|done]. cbn [mbind option_bind] in *.
  destruct (Z.eqb_spec (OSUserID (sr_source r)) uid); [|done]. cbn in *. simplify_eq. by split; [lia|].
Qed.
Lemma GetJob_owned uid id s s1 j : GetJob uid id s = (s1, Ok j) → jobs s !! id = Some j ∧ JUserID j = uid.
Proof.
  unfold GetJob, owned_job, scan_job. intros Hg. inv_ok. inv_opt. split; [done|]. by apply Z.eqb_eq.
Qed.
Lemma updated_source_owner a input now o : updated_source a input now = Ok o → OSUserID o = OSUserID a.
Proof. unfold updated_source. intros Ho. repeat case_match; [done|by injection Ho as <-..]. Qed.
Lemma map_err_value {S A} f (m : ST S A) s s' a : map_err f m s = (s', Ok a) → m s = (s', Ok a).
Proof. unfold map_err. by destruct (m s) as [? [?|?]]. Qed.

(** ** The order of a query *)

Lemma select_sorted {A} (p : A → bool) (m : gmap Z A) : StronglySorted (λ a b, a.1 < b.1) (select p m).
Proof.
  assert (StronglySorted (rel_of (λ a b : Z * A, a.1 <=? b.1)) (rows m)) as Hs.
  { apply sort_by_sorted; [intros a b|intros a b c]; rewrite !Z.leb_le; lia. }
  assert (NoDup (rows m).*1) as Hnd by (unfold rows, sort_by; rewrite merge_sort_Permutation; apply NoDup_fst_map_to_list).
  unfold select. revert Hs Hnd. generalize (rows m) as l. induction l as [|[k a] l IH]; intros Hs Hnd; [constructor|].
  apply StronglySorted_inv in Hs as [Hs Hall]. simpl in Hnd. apply NoDup_cons in Hnd as [Hnin Hnd].
  rewrite filter_cons. case_decide; [|by apply IH]. constructor; [by apply IH|]. apply Forall_forall. intros [k' a'] Hin.
  apply list_elem_of_filter in Hin as [_ Hin]. rewrite Forall_forall in Hall. specialize (Hall _ Hin).
  unfold rel_of in Hall. simpl in *. apply Z.leb_le in Hall. assert (k ≠ k'); [|lia]. intros ->. apply Hnin.
  apply list_elem_of_fmap. by exists (k', a').
Qed.

(** ** A table outside the rows of one owner *)

Section kept_rows.
Context `{Countable K} {A : Type} (owner : A → Z) (uid : Z).
Implicit Types m : gmap K A.

(** The rows of other owners are the same in both. *)
Definition kept_rows m m' : Prop := ∀ k a, owner a ≠ uid → m' !! k = Some a ↔ m !! k = Some a.

#[export] Instance kept_rows_preorder : PreOrder kept_rows.
Proof.
  split; [by intros m k a|]. intros m1 m2 m3 H12 H23 k a Ha. by rewrite (H23 k a Ha), (H12 k a Ha).
Qed.
Lemma kept_rows_insert m k a :
  (∀ b, m !! k = Some b → owner b = uid) → owner a = uid → kept_rows m (<[k:=a]> m).
Proof.
  intros Hold Ha k' b Hb. destruct (decide (k = k')) as [<-|Hne]; [|by rewrite lookup_insert_ne].
  rewrite lookup_insert_eq. split; [by intros [= <-]|]. intros Hk. by destruct (Hb (Hold b Hk)).
Qed.
Lemma kept_rows_delete m k : (∀ b, m !! k = Some b → owner b = uid) → kept_rows m (delete k m).
Proof.
  intros Hold k' b Hb. rewrite lookup_delete_Some. split; [by intros [_ ?]|]. intros Hk. split; [|done].
  intros <-. by destruct (Hb (Hold b Hk)).
Qed.
Lemma kept_rows_filter (P : K * A → Prop) `{!∀ x, Decision (P x)} m :
  (∀ k a, m !! k = Some a → owner a ≠ uid → P (k, a)) → kept_rows m (filter P m).
Proof.
  intros HP k a Ha. rewrite map_lookup_filter_Some. split; [by intros [? _]|]. intros Hk. split; [done|by apply HP].
Qed.
End kept_rows.

(** ** A database outside the rows of one account *)

Record others (uid : Z) (s s' : db) : Prop := {
  ot_users : ∀ k, k ≠ uid → users s' !! k = users s !! k;
  ot_sessions : kept_rows SUserID uid (sessions s) (sessions s');
  ot_sources : kept_rows source_owner uid (sources s) (sources s');
  ot_profiles : kept_rows profile_owner uid (profiles s) (profiles s');
  ot_bookings : kept_rows BUserID uid (bookings s) (bookings s');
  ot_jobs : kept_rows JUserID uid (jobs s) (jobs s');
  ot_events : kept_rows EUserID uid (events s) (events s');
  ot_decisions : kept_rows DUserID uid (decisions s) (decisions s');
  ot_reservations : ∀ id date r, profiles s !! id = Some r → profile_owner r ≠ uid →
    reservations s' !! (id, date) = reservations s !! (id, date);
  ot_lakes : ∀ k, k.1 ≠ uid → lake_settings s' !! k = lake_settings s !! k;
  ot_account : ∀ k, k ≠ uid → account_settings s' !! k = account_settings s !! k;
  ot_prefs : ∀ k, k ≠ uid → otp_preferences s' !! k = otp_preferences s !! k;
  ot_network : network_settings s' = network_settings s
}.
#[export] Instance others_preorder uid : PreOrder (others uid).
Proof.
  split; [by intros s; split|]. intros s1 s2 s3 [] []. split; try (by etrans).
  - intros k Hk. by rewrite ot_users1, ot_users0.
  - intros id date r Hr Ho. rewrite (ot_reservations1 id date r); [by eauto|by apply ot_profiles0|done].
  - intros k Hk. by rewrite ot_lakes1, ot_lakes0.
  - intros k Hk. by rewrite ot_account1, ot_account0.
  - intros k Hk. by rewrite ot_prefs1, ot_prefs0.
Qed.

(** [home uid m]: in a well-formed state [m] leaves the rows of other accounts. *)
Definition home {A} (uid : Z) (m : ST db A) : Prop := ∀ s, system_inv s → others uid s (m s).1.

Section deletion.
Context (uid : Z).

(** Reservations of a job, outside the profiles of other accounts. *)
Lemma held_slot_home s id old pid date r :
  db_inv s → jobs s !! id = Some old → JUserID old = uid →
  profiles s !! pid = Some r → profile_owner r ≠ uid → reservations s !! (pid, date) ≠ Some (Some id).
Proof using Type.
  intros Hs Hid Hu Hr Ho Hres. destruct (inv_reservation _ Hs _ _ Hres) as (j & Hj & _ & Hslot).
  rewrite Hid in Hj. injection Hj as <-. pose proof (inv_fk _ Hs _ _ Hid) as Hfk. unfold job_foreign_keys in Hfk. bool_to_prop.
  unfold job_slot in Hslot. inv_opt. rewrite Hr in *. bool_to_prop. unfold profile_owner in Ho. congruence.
Qed.
(** The three things a deletion does to reservations. *)
Lemma reservations_others s f :
  (∀ pid date r, profiles s !! pid = Some r → profile_owner r ≠ uid →
     f (reservations s) !! (pid, date) = reservations s !! (pid, date)) → others uid s (set_reservations f s).
Proof using Type. intros Hf. by split. Qed.
Lemma release_others s id :
  (∀ pid date r, profiles s !! pid = Some r → profile_owner r ≠ uid → reservations s !! (pid, date) ≠ Some (Some id)) →
  others uid s (release_reservation id s).
Proof using Type.
  intros Hslot. apply reservations_others. intros pid date r Hr Ho. specialize (Hslot pid date r Hr Ho).
  destruct (reservations s !! (pid, date)) as [o|] eqn:Hres; [|by apply map_lookup_filter_None; left].
  apply map_lookup_filter_Some. split; [done|]. cbn. congruence.
Qed.
Lemma detach_others s id :
  (∀ pid date r, profiles s !! pid = Some r → profile_owner r ≠ uid → reservations s !! (pid, date) ≠ Some (Some id)) →
  others uid s (detach_reservation id s).
Proof using Type.
  intros Hslot. apply reservations_others. intros pid date r Hr Ho. specialize (Hslot pid date r Hr Ho).
  rewrite lookup_fmap. destruct (reservations s !! (pid, date)) as [o|]; [|done]. cbn. by rewrite bool_decide_false by congruence.
Qed.
Lemma prune_booking_others s old :
  (∀ bid b, JBookingRequestID old = Some bid → bookings s !! bid = Some b → BUserID b = uid) →
  others uid s (prune_booking_snapshot old s).
Proof using Type.
  intros Hown. unfold prune_booking_snapshot. destruct (JBookingRequestID old) as [bid|]; [|done].
  destruct (bookings s !! bid) as [b|] eqn:Hb; [|done]. destruct (_ && _); [|done].
  split; try done. apply kept_rows_delete. intros b' Hb'. by apply (Hown bid).
Qed.
Lemma delete_job_others s id :
  db_inv s → (∀ old, jobs s !! id = Some old → JUserID old = uid) → others uid s (delete_job id s).
Proof using Type.
  intros Hs Hown. unfold delete_job. destruct (jobs s !! id) as [old|] eqn:Hid; [|done]. specialize (Hown old eq_refl).
  assert (∀ pid date r, profiles s !! pid = Some r → profile_owner r ≠ uid → reservations s !! (pid, date) ≠ Some (Some id)) as Hslot
    by (intros; by eapply held_slot_home).
  cbv zeta. set (s1 := if unconfirmed_book old then release_reservation id s else s).
  assert (others uid s s1) as H1 by (subst s1; destruct (unconfirmed_book old); [by apply release_others|done]).
  assert (jobs s1 = jobs s ∧ events s1 = events s ∧ decisions s1 = decisions s ∧ bookings s1 = bookings s ∧ profiles s1 = profiles s)
    as (Hj1 & He1 & Hd1 & Hb1 & Hp1) by (subst s1; by destruct (unconfirmed_book old)).
  set (s4 := set_decisions (delete id) (set_events (filter (λ kv, EJobID kv.2 ≠ id)) (set_jobs (delete id) s1))).
  assert (others uid s1 s4) as H4.
  { split; try done; cbn.
    - apply kept_rows_delete. intros j. rewrite Hj1, Hid. by intros [= <-].
    - apply kept_rows_filter. intros k e. rewrite He1. intros Hk Hne Heq. cbn in Heq.
      destruct (inv_event _ Hs k e Hk) as (_ & j & Hj & Hu). rewrite Heq, Hid in Hj. congruence.
    - apply kept_rows_delete. intros d. rewrite Hd1. intros Hk.
      destruct (inv_decision _ Hs id d Hk) as (_ & j & Hj & Hu). rewrite Hid in Hj. congruence. }
  etrans; [exact H1|]. etrans; [exact H4|]. etrans; [apply (detach_others _ id)|apply prune_booking_others].
  - intros pid date r. cbn. rewrite Hp1. intros Hr Ho Hres. apply (Hslot pid date r Hr Ho). subst s1.
    destruct (unconfirmed_book old); [|done]. cbn in Hres. by apply map_lookup_filter_Some in Hres as [? _].
  - intros bid b Hbid. cbn. rewrite Hb1. intros Hb. pose proof (inv_fk _ Hs _ _ Hid) as Hfk.
    unfold job_foreign_keys in Hfk. bool_to_prop. rewrite Hbid, Hb in *. bool_to_prop. congruence.
Qed.
Lemma delete_jobs_others ids s :
  db_inv s → (∀ id old, id ∈ ids → jobs s !! id = Some old → JUserID old = uid) → others uid s (delete_jobs ids s).
Proof using Type.
  revert s. induction ids as [|id ids IH]; intros s Hs Hown; [done|]. cbn.
  etrans; [apply delete_job_others; [done|]; intros old; apply Hown; left|].
  apply IH; [exact (shrinks_inv _ _ (delete_job_shrinks id s) Hs)|]. intros k old Hk. rewrite delete_job_jobs.
  rewrite lookup_delete_Some. intros [_ Ho]. eapply Hown; [by right|done].
Qed.
Lemma pruneJobHistory_others now s : 0 < uid → db_inv s → others uid s (pruneJobHistory uid now s).1.
Proof using Type.
  intros Hu Hs. unfold pruneJobHistory. rewrite ST_bind_unfold. cbn [gets]. rewrite ST_bind_unfold. cbn [modify].
  apply delete_jobs_others; [done|]. intros id old Hid Hold. unfold pruned_ids in Hid.
  destruct (Z.eqb_spec uid 0); [lia|]. unfold history_tail in Hid. rewrite <- fmap_drop in Hid.
  apply list_elem_of_fmap in Hid as ([k j] & -> & Hin).
  assert ((k, j) ∈ sort_by newest_first (select (λ j, prunable now j && (JUserID j =? uid)) (jobs s))) as Hin'.
  { rewrite <- (take_drop MaxTerminalJobHistoryPerUser). apply elem_of_app. by right. }
  apply elem_of_sort_by, elem_of_select in Hin' as [Hk Hp]. simpl in Hold. simplify_eq. by bool_to_prop.
Qed.

(** ** Updating and inserting jobs *)

Lemma history_excess_owner new s id j :
  id ∈ history_excess new s → jobs s !! id = Some j → JUserID j = JUserID new.
Proof using Type.
  unfold history_excess. cbv zeta. rewrite <- fmap_drop. intros ([k j'] & -> & Hin)%list_elem_of_fmap Hj.
  match type of Hin with _ ∈ drop ?n ?l => assert ((k, j') ∈ l) as Hin'
    by (rewrite <- (take_drop n); apply elem_of_app; by right) end.
  apply elem_of_sort_by, elem_of_select in Hin' as [Hk Hp]. simpl in Hj. simplify_eq. by bool_to_prop.
Qed.
Lemma put_job_others st old new s :
  db_inv s → jobs s !! JID old = Some old → row_step old new → unique_ok new s = true →
  JUserID old = uid → others uid s (put_job st new s).1.
Proof using Type.
  intros Hs Hold Hstep Huniq Hu. unfold put_job. rewrite Huniq. cbn [negb fst].
  set (s1 := set_jobs (<[JID new := new]>) s).
  assert (db_inv s1) as Hs1 by (eapply put_row_inv; eauto).
  assert (JUserID new = uid) as Hnew by (rewrite (rs_user _ _ Hstep); done).
  assert (others uid s s1) as H1.
  { split; try done. apply kept_rows_insert; [|done]. intros b. rewrite (rs_id _ _ Hstep), Hold. by intros [= <-]. }
  destruct st; [|done]. etrans; [exact H1|]. unfold after_status_update.
  set (s2 := if is_retained_status (JStatus new) then delete_jobs (history_excess new s1) s1 else s1).
  assert (others uid s1 s2 ∧ db_inv s2 ∧ jobs s2 !! JID new = Some new) as (H2 & Hs2 & Hnew2).
  { subst s2. destruct (is_retained_status _); [|by split_and!; [|done|apply lookup_insert_eq]]. split_and!.
    - apply delete_jobs_others; [done|]. intros id j Hid Hj. rewrite <- Hnew. by eapply history_excess_owner.
    - exact (shrinks_inv _ _ (delete_jobs_shrinks _ s1) Hs1).
    - rewrite delete_jobs_jobs, bool_decide_false by apply history_excess_not_new. apply lookup_insert_eq. }
  etrans; [exact H2|]. destruct (_ && _); [|done]. apply release_others.
  intros pid date r Hr Ho. by eapply held_slot_home.
Qed.
End deletion.

Section operations.
Context (uid : Z) (Huid : 0 < uid).

Lemma fresh_job_id s : db_inv s → jobs s !! next_job s = None.
Proof using Type.
  intros Hs. destruct (jobs s !! next_job s) as [j|] eqn:Hj; [|done].
  destruct (inv_job_key _ Hs _ _ Hj). lia.
Qed.
Lemma insert_job_others row s :
  db_inv s → JUserID (row (next_job s)) = uid → others uid s (insert_job row s).1.
Proof using Type.
  clear Huid. intros Hs Hu. destruct (insert_job row s) as [s' [id|e]] eqn:Hins.
  2: { unfold insert_job in Hins. by apply atomically_Err in Hins as ->. }
  apply insert_job_Ok in Hins as (-> & _ & _ & _ & s1 & -> & Hres & Hfk). cbn [fst].
  etrans; [|apply reserve_booking_Ok in Hres as [[-> _]|(slot & _ & Hslot & _ & ->)]; [reflexivity|]].
  - split; try done. apply kept_rows_insert; [|done]. intros b. by rewrite fresh_job_id.
  - apply reservations_others. intros pid date r Hr Ho. rewrite lookup_insert_ne; [done|]. intros ->.
    unfold job_slot in Hslot. inv_opt. unfold job_foreign_keys in Hfk. bool_to_prop. cbn in *.
    rewrite Hr in *. bool_to_prop. unfold profile_owner in Ho. congruence.
Qed.
Lemma resolve_profile_owner p s pid user src :
  resolve_profile uid p s = Ok (pid, user, src) → user = uid.
Proof using Huid.
  unfold resolve_profile. intros Hr. inv_ok. destruct (profiles s !! _) as [row|]; [|done].
  assert (0 <? uid = true) as Hpos by (apply Z.ltb_lt; lia). rewrite Hpos in *. cbn [negb orb] in *.
  destruct (_ && _) eqn:Hb; [|done]. inv_ok. by bool_to_prop.
Qed.
Lemma enqueueJobTx_others p clk s : db_inv s → others uid s (enqueueJobTx uid p clk s).1.
Proof using Huid.
  intros Hs. unfold enqueueJobTx.
  apply (bind_inv_at (others uid s)); [done|]. intros s1 p' [-> Hp]%lift_Ok _.
  apply (bind_inv_at (others uid s)); [done|]. intros s1 r [-> Hr]%gets_Ok _.
  apply (bind_inv_at (others uid s)); [done|]. intros s1 [[pid user] src] [-> Ho]%lift_Ok _.
  rewrite Hr in Ho. apply resolve_profile_owner in Ho as ->. cbn [fst snd].
  apply (bind_inv_at (others uid s)); [done|]. intros s1 [] [-> _]%st_reject_Ok _.
  apply (bind_inv_at (others uid s)); [done|]. intros s1 pending [-> _]%gets_Ok _.
  apply (bind_inv_at (others uid s)); [done|]. intros s1 [] [-> _]%st_reject_Ok _.
  apply (bind_inv_at (others uid s)); [done|]. intros s1 found [-> _]%gets_Ok _.
  apply (bind_inv_at (others uid s)); [done|]. intros s1 sourceID [-> _]%lift_Ok _. cbv zeta.
  apply (bind_inv_at (others uid s)); [by apply pruneJobHistory_others|]. intros s1 n Hprune H1.
  pose proof (pruneJobHistory_stable uid (clk 2%nat) s Hs) as Hs1. rewrite Hprune in Hs1. cbn [fst] in Hs1.
  apply (bind_inv_at (others uid s)); [done|]. intros s2 admitted [-> _]%gets_Ok _.
  destruct admitted; [|repeat (apply (bind_inv_at (others uid s)); [done|intros ? ? [-> _]%gets_Ok _ || intros ? ? [-> _]%st_reject_Ok _]); done].
  apply (bind_inv_at (others uid s)).
  - unfold map_err. match goal with |- context [insert_job ?row s1] =>
      assert (others uid s (insert_job row s1).1) as Hins by (etrans; [exact H1|by apply insert_job_others]);
      by destruct (insert_job row s1) as [? [?|?]] end.
  - intros s2 id _ H2. exact H2.
Qed.
End operations.

(** ** The calls on behalf of an account *)

Section calls.
Context (uid : Z).
Notation at_home s := (bind_inv_at (others uid s)).
Lemma reads_others {A} s (m : ST db A) : reads m → others uid s (m s).1.
Proof using Type. intros Hm. by rewrite Hm. Qed.
Lemma reads_first_others {A B} s (m : ST db A) (f : A → ST db B) :
  reads m → (∀ a, m s = (s, Ok a) → others uid s (f a s).1) → others uid s ((m ≫= f) s).1.
Proof using Type.
  intros Hm Hf. apply (at_home s); [by apply reads_others|]. intros s1 a Ha _.
  pose proof (reads_Ok _ _ _ _ Hm Ha) as ->. by apply Hf.
Qed.
(** [reading_first s]: passes the steps of a call that only read. *)
Ltac reading_first s :=
  repeat lazymatch goal with
  | |- others _ _ ((lift _ ≫= _) _).1 => apply (at_home s); [reflexivity|intros ? ? [-> ?]%lift_Ok _]
  | |- others _ _ ((gets _ ≫= _) _).1 => apply (at_home s); [reflexivity|intros ? ? [-> ?]%gets_Ok _]
  | |- others _ _ ((st_reject _ _ ≫= _) _).1 => apply (at_home s); [reflexivity|intros ? ? [-> ?]%st_reject_Ok _]
  | |- others _ _ ((_ ≫= _) _).1 => eapply reads_first_others; [solve [auto with reads]|intros ? ?]
  end.
Lemma map_err_others {A} f s0 s (m : ST db A) : others uid s0 (m s).1 → others uid s0 (map_err f m s).1.
Proof using Type. unfold map_err. by destruct (m s) as [s' [a|e]]. Qed.

Lemma EnqueueJob_home p clk : home uid (EnqueueJob uid p clk).
Proof using Type.
  intros s [Hs _]. unfold EnqueueJob, enqueueJob. reading_first s.
  apply atomically_inv_at; [reflexivity|]. intros s' j Hrun.
  bool_to_prop. pose proof (enqueueJobTx_others uid ltac:(lia) p clk s Hs) as Ho. by rewrite Hrun in Ho.
Qed.
Lemma insertBookingRequest_others r now s : db_inv s → others uid s (insertBookingRequest uid r now s).1.
Proof using Type.
  intros Hs. unfold insertBookingRequest. apply map_err_others. apply atomically_inv_at; [reflexivity|].
  intros s' id Hrun. inv_ok. split; try done. cbn. apply kept_rows_insert; [|done]. intros b Hb.
  destruct (inv_booking_key _ Hs _ _ Hb). lia.
Qed.
Lemma EnqueueBookingRequest_home `{TimeZoneDB} r p token clk : home uid (EnqueueBookingRequest uid r p token clk).
Proof using Type.
  intros s [Hs _]. unfold EnqueueBookingRequest. reading_first s.
  apply atomically_inv_at; [reflexivity|]. intros s' j Hrun. apply ST_bind_Ok in Hrun as (s1 & id & Hins & Hq).
  match type of Hins with insertBookingRequest _ ?x ?now _ = _ =>
    pose proof (insertBookingRequest_others x now s Hs) as Ho1; pose proof (insertBookingRequest_stable uid x now s Hs) as Hs1 end.
  rewrite Hins in Ho1, Hs1. cbn [fst] in Ho1, Hs1.
  bool_to_prop. pose proof (enqueueJobTx_others uid ltac:(lia) (with_booking_request id p) clk s1 Hs1) as Ho2. rewrite Hq in Ho2. cbn [fst] in Ho2. by etrans.
Qed.
Lemma RequestJobCancellation_home id now : home uid (RequestJobCancellation uid id now).
Proof using Type.
  intros s [Hs _]. unfold RequestJobCancellation, requestJobCancellation. reading_first s.
  apply (at_home s); [|by intros s1 [j|] _ ?].
  apply map_err_others. unfold update_job. reading_first s. subst.
  destruct (jobs s !! id) as [j|] eqn:Hj; [|done]. destruct (_ && _) eqn:Hw; [|done].
  apply (at_home s); [|done].
  assert (JUserID j = uid) as Hown.
  { apply andb_true_iff in Hw as [Hw _]. unfold owner_matches in Hw. rewrite (proj2 (Z.ltb_lt 0 uid) ltac:(bool_to_prop; lia)) in Hw. by apply Z.eqb_eq. }
  destruct (inv_job_key _ Hs id j Hj) as [Hid _]. set (new := cancel_row "Cancelled before execution." now j).
  destruct (unique_ok new s) eqn:Hu; [|unfold put_job; by rewrite Hu].
  apply (put_job_others uid true j new); [done|by rewrite Hid| |done|done].
  by apply (cancel_legal _ _ uid); [apply (inv_checks _ Hs id)|].
Qed.
Lemma RecordJobDecision_home id d now : home uid (RecordJobDecision uid id d now).
Proof using Type.
  intros s [Hs _]. unfold RecordJobDecision. reading_first s.
  apply (at_home s).
  - cbn. unfold insert_decision. destruct (jobs s !! id) as [j|] eqn:Hj; [|done]. destruct (_ && _) eqn:Hb; [|done].
    bool_to_prop. split; try done. cbn. apply kept_rows_insert; [|done]. intros d' Hd'. by rewrite Hd' in *.
  - intros s1 [] _ H1. apply (at_home s); [exact H1|]. intros s2 rec [-> _]%gets_Ok _.
    destruct rec as [x|e]; [by case_match|]. case_match; [done|].
    apply (at_home s); [exact H1|]. intros s2 o [-> _]%gets_Ok _. done.
Qed.

(** A written row and the calls that read it back. *)
Lemma written_others {A B} s (m : ST db A) (f : A → ST db B) :
  others uid s (m s).1 → (∀ a, reads (f a)) → others uid s ((m ≫= f) s).1.
Proof using Type.
  intros Hm Hf. apply (at_home s); [done|]. intros s1 a _ Ho. by rewrite Hf.
Qed.
Lemma insert_source_others row s :
  account_inv s → (∀ id, source_owner (row id) = uid) → others uid s (insert_source uid row s).1.
Proof using Type.
  intros Hs Hrow. unfold insert_source. apply atomically_inv_at; [reflexivity|]. intros s' id Hrun. inv_ok.
  split; try done; cbn.
  - apply kept_rows_insert; [|apply Hrow]. intros b Hb. destruct (oi_key _ _ _ _ (ai_sources _ _ Hs) _ _ Hb) as (_ & ? & _). lia.
  - intros k Hk. destruct (otp_preferences s !! uid); [done|]. by rewrite lookup_insert_ne.
Qed.
Lemma owned_source_home s id r : owned_source uid id s = Some r → sources s !! id = Some r ∧ source_owner r = uid.
Proof using Type.
  unfold owned_source. intros Hr. inv_opt. split; [done|]. by apply Z.eqb_eq.
Qed.
Lemma update_source_row_others id b o c s :
  OSUserID o = uid → others uid s (update_source_row uid id b o c s).1.
Proof using Type.
  intros Ho. unfold update_source_row. reading_first s. revert Ho. subst. intros Ho.
  destruct (owned_source _ id s) as [old|] eqn:Hold; [|done]. cbv zeta. destruct (_ || _); [done|]. reading_first s.
  apply owned_source_home in Hold as [Hold Hu]. cbn. split; try done. cbn. apply kept_rows_insert; [|done].
  intros b' Hb'. congruence.
Qed.
Lemma insert_profile_others row s :
  account_inv s → (∀ id, profile_owner (row id) = uid) → others uid s (insert_profile uid row s).1.
Proof using Type.
  intros Hs Hrow. unfold insert_profile. apply atomically_inv_at; [reflexivity|]. intros s' id Hrun. inv_ok.
  split; try done; cbn. apply kept_rows_insert; [|apply Hrow].
  intros b Hb. destruct (pi_key _ _ _ _ (ai_profiles _ _ Hs) _ _ Hb) as (_ & ? & _). lia.
Qed.
Lemma update_profile_row_others id p c s :
  PUserID p = uid → others uid s (update_profile_row uid id p c s).1.
Proof using Type.
  intros Hp. unfold update_profile_row. reading_first s. revert Hp. subst. intros Hp.
  destruct (owned_profile _ id s) as [old|] eqn:Hold; [|done]. destruct (profile_in_use id s); [done|]. cbv zeta. reading_first s.
  unfold owned_profile in Hold. inv_opt. bool_to_prop. cbn. split; try done. cbn. apply kept_rows_insert; [|done].
  intros b' Hb'. unfold profile_owner. congruence.
Qed.

Lemma CreateOTPSource_home `{AEAD} input nonce now : home uid (CreateOTPSource uid input nonce now).
Proof using Type.
  intros s [_ Hs]. unfold CreateOTPSource. reading_first s. apply written_others; [|auto with reads].
  apply map_err_others. by apply insert_source_others.
Qed.
Lemma UpdateOTPSource_home `{AEAD} id input nonce now : home uid (UpdateOTPSource uid id input nonce now).
Proof using Type.
  intros s _. unfold UpdateOTPSource. reading_first s. apply written_others.
  - apply map_err_others, update_source_row_others.
    match goal with Hg : GetOTPSource _ _ _ = _, Ho : updated_source _ _ _ = Ok _ |- _ =>
      apply GetOTPSource_owner in Hg as [_ Howner]; apply updated_source_owner in Ho; congruence end.
  - intros changed. apply reads_quiet. unfold GetOTPSource. intros p0. auto 20 with preserves.
Qed.
Lemma SetDefaultOTPSource_home id : home uid (SetDefaultOTPSource uid id).
Proof using Type.
  intros s _. unfold SetDefaultOTPSource. reading_first s. case_match; [|done].
  cbn. split; try done. cbn. intros k Hk. by rewrite lookup_insert_ne.
Qed.
Lemma CreateProfile_home `{AEAD} input nonce now : home uid (CreateProfile uid input nonce now).
Proof using Type.
  intros s [_ Hs]. unfold CreateProfile. reading_first s.
  apply reads_first_others; [destruct (_ =? _); apply reads_quiet; intros p0; [|auto with preserves]|].
  { apply preserves_bind; [|auto with preserves]. unfold GetDefaultOTPSource, GetOTPSource. auto 20 with preserves. }
  intros input' _. reading_first s. apply written_others; [|auto with reads].
  apply map_err_others. by apply insert_profile_others.
Qed.
Lemma UpdateProfile_home `{AEAD} id input nonce now : home uid (UpdateProfile uid id input nonce now).
Proof using Type.
  intros s _. unfold UpdateProfile. cbv zeta. reading_first s.
  apply reads_first_others; [destruct (_ && _); apply reads_quiet; intros p0; auto 10 with preserves|]. intros _ _. reading_first s.
  apply written_others; [by apply map_err_others, update_profile_row_others|].
  intros changed. apply reads_quiet. unfold GetProfile. intros p0. auto 20 with preserves.
Qed.
Lemma SaveLakeSettings_home `{TimeZoneDB} st now : home uid (SaveLakeSettings uid st now).
Proof using Type.
  intros s _. unfold SaveLakeSettings. reading_first s. cbv zeta. reading_first s.
  apply reads_first_others; [destruct (_ <? _); apply reads_quiet; intros p0; unfold GetProfile; auto 20 with preserves|].
  intros _ _. apply written_others; [|intros _; apply reads_quiet; intros p0; unfold GetLakeSettings; auto 20 with preserves].
  apply map_err_others. unfold upsert_lake_settings. reading_first s. cbn. split; try done. cbn.
  intros k Hk. rewrite lookup_insert_ne; [done|]. by intros <-.
Qed.
Lemma ResetLakeSettings_home lake : home uid (ResetLakeSettings uid lake).
Proof using Type.
  intros s _. unfold ResetLakeSettings. reading_first s. cbn. split; try done. cbn.
  intros k Hk. rewrite lookup_delete_ne; [done|]. by intros <-.
Qed.
Lemma SaveAccountSettings_home st now : home uid (SaveAccountSettings uid st now).
Proof using Type.
  intros s _. unfold SaveAccountSettings. cbv zeta. reading_first s.
  apply written_others; [|intros _; apply reads_quiet; intros p0; unfold GetAccountSettings; auto 20 with preserves].
  apply map_err_others. unfold upsert_account_settings. reading_first s. cbn. split; try done. cbn.
  intros k Hk. by rewrite lookup_insert_ne.
Qed.

Lemma update_user_others w f s : others uid s (update_user uid w f s).1.
Proof using Type.
  unfold update_user. reading_first s. subst. destruct (users s !! uid) as [old|]; [|done].
  destruct (negb (w old)); [done|]. cbv zeta. destruct (protected_update _ _); [done|]. reading_first s.
  rewrite ST_bind_unfold. cbn. split; try done. cbn. intros k Hk. by rewrite lookup_insert_ne.
Qed.
Lemma delete_sessions_others s : others uid s (delete_sessions_of uid s).
Proof using Type.
  split; try done. apply kept_rows_filter. intros k session _ Hu. exact Hu.
Qed.
Lemma ChangeUsername_home `{Hashes} password name slot now : home uid (ChangeUsername uid password name slot now).
Proof using Type.
  intros s _. unfold ChangeUsername. reading_first s. destruct (_ || _); [done|]. reading_first s.
  destruct (negb _); [done|]. reading_first s. apply map_err_others, update_user_others.
Qed.
Lemma ChangeUserPassword_home `{Hashes} old new salt slot1 slot2 now : home uid (ChangeUserPassword uid old new salt slot1 slot2 now).
Proof using Type.
  intros s _. unfold ChangeUserPassword. reading_first s. destruct (negb _); [done|]. reading_first s.
  destruct (negb _); [done|]. reading_first s. apply atomically_inv_at; [reflexivity|]. intros s' b Hrun.
  apply ST_bind_Ok in Hrun as (s1 & changed & Hup & Hrest). apply map_err_value in Hup.
  match type of Hup with update_user _ ?w ?f _ = _ => pose proof (update_user_others w f s) as Ho end.
  rewrite Hup in Ho. cbn [fst] in Ho. destruct (negb changed); inv_ok; [done|]. etrans; [exact Ho|apply delete_sessions_others].
Qed.

(** ** The calls of the engine *)

Lemma queuePairing_home origins id dedup selected clk : home uid (queuePairing origins uid id dedup selected clk).
Proof using Type.
  intros s Hs. unfold queuePairing. reading_first s. by apply EnqueueJob_home.
Qed.
Lemma QueueProfileSignIn_home origins id clk : home uid (QueueProfileSignIn origins uid id clk).
Proof using Type.
  intros s Hs. unfold QueueProfileSignIn. reading_first s. case_match; [by apply queuePairing_home|by apply EnqueueJob_home|done].
Qed.
Lemma QueueLakeBooking_home `{TimeZoneDB} origins r token clk : home uid (QueueLakeBooking origins uid r token clk).
Proof using Type. intros s Hs. unfold QueueLakeBooking. reading_first s. by apply EnqueueBookingRequest_home. Qed.
End calls.
