(* ===== verification/AtomicityProperties.v ===== *)
(** * A call that fails leaves no trace

    Every call that writes the database either takes effect or returns an error and
    leaves every table as it was, whether or not the code wraps it in a transaction: a
    statement that fails is undone, and no step after a successful statement fails.  The
    one exception is the claim, whose first statement gives up the jobs that came too late. *)

From S2P Require Import Prelude GoStrings GoTime Json Secrets Redaction Auth Origin Domain Scheduler Database.
From S2P Require Import JobStore Samples JobInvariants EventStore JobOperations JobLemmas ResourceStore ProfileStore.
From S2P Require Import SettingsStore AccountStore AccountInvariants ResourceInvariants SystemInvariants System SystemSamples JobProperties Isolation.
From Stdlib Require Import Ascii String.

Open Scope Z_scope.

(** A call without its value. *)
Definition done {A} (m : ST db A) : ST db unit := _ ← m; mret tt.

Section call.
Context `{AEAD} `{Hashes} `{TimeZoneDB}.

(** The call an operation stands for: [exec] keeps its state only. *)
Definition call (o : op) : ST db unit :=
  match o with
  | OpEnqueueJob uid p clk => done (EnqueueJob uid p clk)
  | OpSystemEnqueueJob p clk => done (SystemEnqueueJob p clk)
  | OpEnqueueBookingRequest uid r p token clk => done (EnqueueBookingRequest uid r p token clk)
  | OpSystemClaimNextDueJobAt worker now => done (SystemClaimNextDueJobAt worker now)
  | OpSystemTransitionJob id expected to upd now => done (SystemTransitionJob sanitizeText id expected to upd now)
  | OpSystemMarkConfirmationStarted id now => SystemMarkConfirmationStarted id now
  | OpRequestJobCancellation uid id now => RequestJobCancellation uid id now
  | OpSystemRequestJobCancellation id now => SystemRequestJobCancellation id now
  | OpSystemRecoverInterruptedJobs now => done (SystemRecoverInterruptedJobs now)
  | OpSystemExpireStaleJobs now => done (SystemExpireStaleJobs now)
  | OpSystemPruneTerminalJobs now => done (SystemPruneTerminalJobs now)
  | OpRecordJobDecision uid id d now => done (RecordJobDecision uid id d now)
  | OpSystemAppendJobEvent input now => done (SystemAppendJobEvent input now)
  | OpCreateOTPSource uid input nonce now => done (CreateOTPSource uid input nonce now)
  | OpUpdateOTPSource uid id input nonce now => done (UpdateOTPSource uid id input nonce now)
  | OpDeleteOTPSource uid id => DeleteOTPSource uid id
  | OpSetDefaultOTPSource uid id => SetDefaultOTPSource uid id
  | OpSystemPersistOTPSourcePairing job id chat sender service now =>
      SystemPersistOTPSourcePairing job id chat sender service now
  | OpCreateProfile uid input nonce now => done (CreateProfile uid input nonce now)
  | OpUpdateProfile uid id input nonce now => done (UpdateProfile uid id input nonce now)
  | OpDeleteProfile uid id => DeleteProfile uid id
  | OpSaveLakeSettings uid st now => done (SaveLakeSettings uid st now)
  | OpResetLakeSettings uid lake => ResetLakeSettings uid lake
  | OpSaveAccountSettings uid st now => done (SaveAccountSettings uid st now)
  | OpSystemSaveNetworkSettings st => done (SystemSaveNetworkSettings st)
  | OpSetupAdmin name password salt slot now => done (SetupAdmin name password salt slot now)
  | OpCreateMember input salt slot now => done (CreateMember input salt slot now)
  | OpChangeUsername id password name slot now => done (ChangeUsername id password name slot now)
  | OpUpdateUser id name status now => done (UpdateUser id name status now)
  | OpDeleteMember id name => DeleteMember id name
  | OpResetUserPassword id password salt must slot now => ResetUserPassword id password salt must slot now
  | OpChangeUserPassword id old new salt slot1 slot2 now => done (ChangeUserPassword id old new salt slot1 slot2 now)
  | OpResetAdministratorPassword password salt slot now => done (ResetAdministratorPassword password salt slot now)
  | OpNewSession uid lifetime raw csrf now => done (NewSession uid lifetime raw csrf now)
  | OpAuthenticateAndCreateSession name password lifetime scope raw csrf slot now =>
      done (AuthenticateAndCreateSessionInScope name password lifetime scope raw csrf slot now)
  | OpTouchSession token now => TouchSession token now
  | OpDeleteSession token => DeleteSession token
  | OpPurgeExpiredSessions now => done (PurgeExpiredSessions now)
  | OpRecordLoginAttempts keys succeeded clk => RecordLoginAttempts keys succeeded clk
  end.

Lemma done_fst {A} (m : ST db A) s : (done m s).1 = (m s).1.
Proof using Type. unfold done. rewrite ST_bind_unfold. by destruct (m s) as [s' [a|e]]. Qed.
Lemma call_exec o s : (call o s).1 = exec o s.
Proof using Type. destruct o; cbn [call exec]; first [reflexivity | apply done_fst]. Qed.
End call.

(** ** Judgement: from here on an error is back at [s0] *)

Definition back {A} (s0 : db) (out : db * result A) : Prop :=
  match out with (s', Err _) => s' = s0 | _ => True end.

Section back.

Lemma back_bind {A B} s0 s (m : ST db A) (f : A → ST db B) :
  back s0 (m s) → (∀ s1 a, m s = (s1, Ok a) → back s0 (f a s1)) → back s0 ((m ≫= f) s).
Proof.
  intros Hm Hf. rewrite ST_bind_unfold. destruct (m s) as [s1 [a|e]]; [by apply Hf|done].
Qed.
Lemma back_done {A} s0 s (m : ST db A) : back s0 (m s) → back s0 (done m s).
Proof. intros Hm. apply back_bind; [done|]. by intros. Qed.
Lemma back_map_err {A} s0 s f (m : ST db A) : back s0 (m s) → back s0 (map_err f m s).
Proof. unfold map_err. by destruct (m s) as [s1 [a|e]]. Qed.
Lemma back_ret {A} s0 s (a : A) : back s0 (mret (M:=ST db) a s).
Proof. done. Qed.
Lemma back_fail {A} s e : back s (fail (A:=A) e s).
Proof. done. Qed.
Lemma back_modify s0 s f : back s0 (modify f s).
Proof. done. Qed.
Lemma back_atomically {A} s (m : ST db A) : back s (atomically m s).
Proof. unfold atomically. by destruct (m s) as [s1 [a|e]]. Qed.
Lemma back_lift {A} s (r : result A) : back s (lift r s).
Proof. by destruct r. Qed.

(** Steps that read. *)
Lemma back_reject_bind {B} s b e (f : unit → ST db B) :
  (b = false → back s (f tt s)) → back s ((st_reject b e ≫= f) s).
Proof. intros Hf. destruct b; [done|by apply Hf]. Qed.
Lemma back_lift_bind {A B} s (r : result A) (f : A → ST db B) :
  (∀ a, r = Ok a → back s (f a s)) → back s ((lift r ≫= f) s).
Proof. intros Hf. destruct r; [by apply Hf|done]. Qed.
Lemma back_gets_bind {A B} s0 s (g : db → A) (f : A → ST db B) :
  (∀ a, a = g s → back s0 (f a s)) → back s0 ((gets g ≫= f) s).
Proof. intros Hf. by apply Hf. Qed.
Lemma back_modify_bind {B} s0 s (g : db → db) (f : unit → ST db B) : back s0 (f tt (g s)) → back s0 ((modify g ≫= f) s).
Proof. done. Qed.
(** A call that reads. *)
Lemma back_reading {A} s (m : ST db A) : reads m → back s (m s).
Proof. intros Hm. specialize (Hm s). destruct (m s) as [s1 [a|e]]; by simpl in *. Qed.
Lemma back_reads_bind {A B} s (m : ST db A) (f : A → ST db B) :
  reads m → (∀ a, m s = (s, Ok a) → back s (f a s)) → back s ((m ≫= f) s).
Proof.
  intros Hm Hf. apply back_bind; [by apply back_reading|]. intros s1 a Ha.
  pose proof (Hm s) as Hs. rewrite Ha in Hs. cbn in Hs. subst s1. by apply Hf.
Qed.
End back.

(** [roll_back] passes the steps before the first write. *)
Ltac roll_back := cbv zeta;
  repeat lazymatch goal with
  | |- back _ ((st_reject _ _ ≫= _) _) => apply back_reject_bind; intros ?
  | |- back _ ((lift _ ≫= _) _) => apply back_lift_bind; intros ? ?
  | |- back _ ((gets _ ≫= _) _) => apply back_gets_bind; intros ? ?
  | |- back _ ((modify _ ≫= _) _) => apply back_modify_bind
  | |- back _ ((atomically _ ≫= _) _) => apply back_bind; [apply back_atomically|intros ? ? ?]
  | |- back _ ((_ ≫= _) _) => apply back_reads_bind; [solve [auto with reads]|intros ? ?]
  | |- back _ (fail _ _) => apply back_fail
  | |- back _ (mret _ _) => apply back_ret
  | |- back _ (modify _ _) => apply back_modify
  | |- back _ (atomically _ _) => apply back_atomically
  | |- back _ (lift _ _) => apply back_lift
  | |- back _ (st_reject _ _ _) => apply back_lift
  | |- back _ (done _ _) => apply back_done
  | |- back _ (map_err _ _ _) => apply back_map_err
  | |- back _ ((let x := _ in _) _) => cbv zeta
  | |- back _ ((if ?b then _ else _) _) => destruct b eqn:?
  | |- back _ (match ?x with _ => _ end _) => destruct x eqn:?
  end; cbv zeta.

(** ** Single statements *)

Lemma put_job_back st new s : back s (put_job st new s).
Proof. unfold put_job. by case_match. Qed.
Lemma update_job_back id where_ set_row st s : back s (update_job id where_ set_row st s).
Proof.
  unfold update_job. roll_back; [|done..]. apply back_bind; [apply put_job_back|]. by intros.
Qed.

Lemma insert_event_back row id s : back s (insert_event row id s).
Proof. unfold insert_event. by case_match. Qed.
Lemma update_source_row_back uid id b o c s : back s (update_source_row uid id b o c s).
Proof. unfold update_source_row. roll_back. Qed.
Lemma delete_sources_back p s : back s (delete_sources p s).
Proof. unfold delete_sources. by case_match. Qed.
Lemma update_profile_row_back uid id p c s : back s (update_profile_row uid id p c s).
Proof. unfold update_profile_row. roll_back. Qed.
Lemma delete_profiles_back ids s : back s (delete_profiles ids s).
Proof. unfold delete_profiles. by case_match. Qed.
Lemma upsert_lake_settings_back row s : back s (upsert_lake_settings row s).
Proof. unfold upsert_lake_settings. roll_back. Qed.
Lemma upsert_account_settings_back row s : back s (upsert_account_settings row s).
Proof. unfold upsert_account_settings. roll_back. Qed.
Lemma insert_user_back w row s : back s (insert_user w row s).
Proof. unfold insert_user. roll_back. Qed.
Lemma update_user_back id w f s : back s (update_user id w f s).
Proof. unfold update_user. roll_back. Qed.
Lemma insert_session_back x h s : back s (insert_session x h s).
Proof. unfold insert_session. by repeat case_match. Qed.

(** ** The calls of the job tables *)

Lemma SystemGetJob_back s0 s id j : jobs s !! id = Some j → back s0 (SystemGetJob id s).
Proof. intros Hj. unfold SystemGetJob. rewrite ST_bind_unfold. unfold gets, scan_job, lift. by rewrite Hj. Qed.

Lemma SystemTransitionJob_back san id expected to upd now s :
  db_inv s → back s (SystemTransitionJob san id expected to upd now s).
Proof.
  intros Hs. unfold SystemTransitionJob. roll_back. apply back_bind; [apply back_map_err, update_job_back|].
  intros s1 o Hu%map_err_value. apply update_job_Ok in Hu; [|intros; apply transition_row_spec|done].
  destruct o as [new|]; [|destruct Hu as [-> _]; apply back_fail].
  destruct Hu as (j & _ & _ & _ & Hnew). by eapply SystemGetJob_back.
Qed.
Lemma SystemMarkConfirmationStarted_back id now s : db_inv s → back s (SystemMarkConfirmationStarted id now s).
Proof.
  intros Hs. unfold SystemMarkConfirmationStarted. roll_back. apply back_bind; [apply back_map_err, update_job_back|].
  intros s1 o Hu%map_err_value. apply update_job_Ok in Hu; [|done..].
  destruct o as [new|]; [done|]. by destruct Hu as [-> _].
Qed.
Lemma requestJobCancellation_back uid id now s : db_inv s → back s (requestJobCancellation uid id now s).
Proof.
  intros Hs. unfold requestJobCancellation. apply back_bind; [apply back_map_err, update_job_back|].
  intros s1 o Hu%map_err_value. apply update_job_Ok in Hu; [|done..].
  destruct o as [new|]; [done|]. destruct Hu as [-> _]. roll_back.
Qed.
(** The decision that was inserted is the one read back. *)
Lemma insert_decision_cases uid id d now s :
  insert_decision uid id d now s = s ∨
  GetJobDecision uid id (insert_decision uid id d now s) =
    (insert_decision uid id d now s, Ok (MkJobDecision id uid d now)) ∨ uid <= 0.
Proof.
  unfold insert_decision. destruct (jobs s !! id) as [j|]; [|by left]. destruct (_ && _) eqn:Hb; [|by left].
  bool_to_prop. right. destruct (Z.leb_spec uid 0) as [|Hu]; [by right|left]. subst uid.
  unfold GetJobDecision. rewrite ST_bind_unfold. unfold st_reject, lift. cbn [reject].
  rewrite (proj2 (Z.leb_gt _ _) Hu). cbn [reject]. rewrite ST_bind_unfold. unfold gets. cbn [decisions set_decisions].
  rewrite lookup_insert_eq. cbn [mbind option_bind DUserID]. by rewrite Z.eqb_refl.
Qed.
Lemma RecordJobDecision_back uid id d now s : back s (RecordJobDecision uid id d now s).
Proof.
  unfold RecordJobDecision. apply back_reject_bind; intros Huid. apply back_reject_bind; intros _.
  destruct (insert_decision_cases uid id d now s) as [Hsame|[Hread|Hle]].
  - apply back_modify_bind. rewrite Hsame. roll_back.
  - apply back_modify_bind. rewrite ST_bind_unfold. unfold gets. rewrite Hread. cbn [snd DDecision].
    by rewrite bool_decide_true.
  - bool_to_prop. lia.
Qed.
Lemma SystemAppendJobEvent_back `{AEAD} input now s : back s (SystemAppendJobEvent input now s).
Proof.
  unfold SystemAppendJobEvent. roll_back. apply back_bind; [apply insert_event_back|].
  intros s1 o Hi. unfold insert_event in Hi. destruct (jobs s !! _) as [j|] eqn:Hj; injection Hi as <- <-; [|apply back_fail].
  apply back_bind; [by eapply SystemGetJob_back|]. by intros.
Qed.
Lemma enqueue_booking_back `{TimeZoneDB} uid r p token clk s : back s (EnqueueBookingRequest uid r p token clk s).
Proof. unfold EnqueueBookingRequest. roll_back. Qed.

(** The claim: what its first statement wrote stays. *)
Lemma SystemClaimNextDueJobAt_back worker now s :
  back s (SystemClaimNextDueJobAt worker now s) ∨
  back (SystemExpireStaleJobs now s).1 (SystemClaimNextDueJobAt worker now s).
Proof.
  unfold SystemClaimNextDueJobAt. cbv zeta. unfold st_reject. destruct (String.eqb _ _); [by left|].
  rewrite ST_bind_unfold. cbn [lift reject]. rewrite ST_bind_unfold.
  assert (back s (SystemExpireStaleJobs now s)) as Hexp
    by (unfold SystemExpireStaleJobs; apply back_map_err; unfold update_jobs; apply back_atomically).
  destruct (SystemExpireStaleJobs now s) as [s1 [n|e]]; [right|by left]. cbn [fst]. roll_back.
  apply back_bind; [apply back_map_err, update_job_back|].
  intros s2 o Hu%map_err_value. unfold update_job in Hu. inv_ok. case_match; [|by inv_ok]. case_match; by inv_ok.
Qed.

(** ** The calls of sources and profiles *)

Lemma GetOTPSource_back s0 s uid id r :
  0 < uid → sources s !! id = Some r → OSUserID (sr_source r) = uid → back s0 (GetOTPSource uid id s).
Proof.
  intros Hu Hr Ho. unfold GetOTPSource. rewrite ST_bind_unfold. unfold st_reject, lift.
  rewrite (proj2 (Z.leb_gt _ _) Hu). cbn [reject]. rewrite ST_bind_unfold. unfold gets, owned_source.
  rewrite Hr. cbn [mbind option_bind]. by rewrite Ho, Z.eqb_refl.
Qed.
Lemma GetProfile_back s0 s uid id r :
  0 < uid → profiles s !! id = Some r → PUserID (pr_profile r) = uid → back s0 (GetProfile uid id s).
Proof.
  intros Hu Hr Ho. unfold GetProfile. rewrite ST_bind_unfold. unfold st_reject, lift.
  rewrite (proj2 (Z.leb_gt _ _) Hu). cbn [reject]. rewrite ST_bind_unfold. unfold gets.
  rewrite Hr. cbn [mbind option_bind]. by rewrite Ho, Z.eqb_refl.
Qed.

Section resources.
Context `{AEAD}.

Lemma CreateOTPSource_back uid input nonce now s : back s (CreateOTPSource uid input nonce now s).
Proof using Type.
  unfold CreateOTPSource. roll_back. bool_to_prop.
  apply back_bind; [apply back_map_err; unfold insert_source; apply back_atomically|].
  intros s1 id Hi%map_err_value. unfold insert_source in Hi. inv_ok.
  eapply GetOTPSource_back; [lia|cbn; apply lookup_insert_eq|done].
Qed.
Lemma update_source_row_Ok uid id b o c s s1 changed :
  update_source_row uid id b o c s = (s1, Ok changed) →
  if changed : bool then ∃ r, sources s1 !! id = Some r ∧ sr_source r = o else s1 = s.
Proof using Type.
  unfold update_source_row. intros Hu. inv_ok. destruct (owned_source uid id s) as [old|]; [|by inv_ok].
  destruct (_ || _); inv_ok; [done|]. eexists. split; [cbn; apply lookup_insert_eq|done].
Qed.
Lemma UpdateOTPSource_back uid id input nonce now s : back s (UpdateOTPSource uid id input nonce now s).
Proof using Type.
  unfold UpdateOTPSource. roll_back.
  match goal with Hg : GetOTPSource _ _ _ = _, Ho : updated_source _ _ _ = Ok _ |- _ =>
    apply GetOTPSource_owner in Hg as [Hu Howner]; apply updated_source_owner in Ho end.
  apply back_bind; [apply back_map_err, update_source_row_back|].
  intros s1 changed Hi%map_err_value%update_source_row_Ok. apply back_gets_bind; intros owned _.
  destruct changed; [|subst s1; apply back_fail]. destruct Hi as (r & Hr & Hro).
  refine (GetOTPSource_back s s1 uid id r Hu Hr _). congruence.
Qed.
Lemma DeleteOTPSource_back uid id s : back s (DeleteOTPSource uid id s).
Proof using Type.
  unfold DeleteOTPSource. roll_back. apply back_bind; [apply back_map_err, delete_sources_back|].
  intros s1 deleted Hd%map_err_value. unfold delete_sources in Hd. destruct (existsb _ _); [done|].
  injection Hd as <- <-. destruct (select _ _) as [|kv l]; [|done]. cbn.
  unfold set_otp_preferences, set_sources. cbn.
  rewrite !map_filter_id by (intros; apply not_elem_of_nil). by destruct s.
Qed.
Lemma CreateProfile_back uid input nonce now s : back s (CreateProfile uid input nonce now s).
Proof using Type.
  unfold CreateProfile. apply back_reject_bind; intros Hu. bool_to_prop.
  apply back_bind; [roll_back; apply back_reading; auto with reads|]. intros s1 input' Hin.
  assert (s1 = s) as -> by (destruct (PI_OTPSourceID input =? 0); [|by inv_ok]; inv_ok;
    match goal with Hg : GetDefaultOTPSource _ _ = (?x, _) |- _ => pose proof (GetDefaultOTPSource_reading uid s) as Hr; by rewrite Hg in Hr end).
  roll_back. apply back_bind; [apply back_map_err; unfold insert_profile; apply back_atomically|].
  intros s1 id Hi%map_err_value. unfold insert_profile in Hi. inv_ok.
  eapply GetProfile_back; [lia|cbn; apply lookup_insert_eq|done].
Qed.
Lemma update_profile_row_Ok uid id p c s s1 changed :
  update_profile_row uid id p c s = (s1, Ok changed) →
  if changed : bool then ∃ r, profiles s1 !! id = Some r ∧ PUserID (pr_profile r) = PUserID p else s1 = s.
Proof using Type.
  unfold update_profile_row. intros Hu. inv_ok. destruct (owned_profile uid id s) as [old|]; [|by inv_ok].
  destruct (profile_in_use id s); inv_ok; [done|]. eexists. split; [cbn; apply lookup_insert_eq|done].
Qed.
Lemma UpdateProfile_back uid id input nonce now s : back s (UpdateProfile uid id input nonce now s).
Proof using Type.
  unfold UpdateProfile. apply back_reject_bind; intros Hu. bool_to_prop. roll_back.
  apply back_bind; [roll_back|]. intros s1 u Hchk.
  assert (s1 = s) as -> by (destruct (_ && _); by inv_ok).
  roll_back. apply back_bind; [apply back_map_err, update_profile_row_back|].
  intros s1 changed Hi%map_err_value%update_profile_row_Ok. apply back_gets_bind; intros owned _.
  destruct changed; [|subst s1; apply back_fail]. destruct Hi as (r & Hr & Hro).
  by refine (GetProfile_back s s1 uid id r Hu Hr _).
Qed.
Lemma DeleteProfile_back uid id s : back s (DeleteProfile uid id s).
Proof using Type. unfold DeleteProfile. roll_back. apply delete_profiles_back. Qed.
End resources.

(** ** The calls of settings, accounts and sessions *)

Lemma Resolve_again id lake : Resolve id = Ok lake → Resolve (LakeID lake) = Ok lake.
Proof. intros [Hin _]%Resolve_Ok. by apply list_elem_of_singleton in Hin as ->. Qed.
Lemma SaveLakeSettings_back `{TimeZoneDB} uid st now s : back s (SaveLakeSettings uid st now s).
Proof.
  unfold SaveLakeSettings. apply back_reject_bind; intros Hu. apply back_lift_bind; intros lake Hlake.
  cbv zeta. roll_back. apply back_bind; [roll_back; apply back_reading; auto with reads|]. intros s1 u Hchk.
  assert (s1 = s) as ->.
  { destruct (_ <? _); inv_ok; [|done]. match goal with Hg : GetProfile ?u ?i _ = _ |- _ =>
      pose proof (GetProfile_reading u i s) as Hr; by rewrite Hg in Hr end. }
  apply back_bind; [apply back_map_err, upsert_lake_settings_back|]. intros s1 u' Hup%map_err_value.
  unfold upsert_lake_settings in Hup. inv_ok. unfold GetLakeSettings. rewrite ST_bind_unfold.
  unfold st_reject, lift. rewrite Hu. cbn [reject]. rewrite ST_bind_unfold, (Resolve_again _ _ Hlake).
  rewrite ST_bind_unfold. unfold gets. cbn [lake_settings set_lake_settings settings_row trimmed_settings LSUserID LSLakeID].
  by rewrite lookup_insert_eq.
Qed.
Lemma SaveAccountSettings_back uid st now s : back s (SaveAccountSettings uid st now s).
Proof.
  unfold SaveAccountSettings. apply back_reject_bind; intros Hu. roll_back.
  apply back_bind; [apply back_map_err, upsert_account_settings_back|]. intros s1 u _.
  unfold GetAccountSettings. rewrite ST_bind_unfold. unfold st_reject, lift. by rewrite Hu.
Qed.

Lemma GetUser_back s0 s id r : users s !! id = Some r → back s0 (GetUser id s).
Proof.
  intros Hr. unfold GetUser, getUser. rewrite ST_bind_unfold, ST_bind_unfold. unfold gets, lift. by rewrite Hr.
Qed.
Lemma insert_user_Ok w row s s1 o :
  insert_user w row s = (s1, Ok o) →
  match o with Some id => users s1 !! id = Some (row id) | None => s1 = s end.
Proof.
  unfold insert_user. intros Hi. inv_ok. destruct (w s); inv_ok; [|done]. cbn. apply lookup_insert_eq.
Qed.
Lemma update_user_Ok id w f s s1 changed :
  update_user id w f s = (s1, Ok changed) →
  if changed : bool then is_Some (users s1 !! id) else s1 = s.
Proof.
  unfold update_user. intros Hu. inv_ok. destruct (users s !! id) as [old|]; [|by inv_ok].
  destruct (negb (w old)); [by inv_ok|]. cbv zeta in *. destruct (protected_update _ _); inv_ok.
  cbn. rewrite lookup_insert_eq. eauto.
Qed.

Section accounts.
Context `{Hashes}.

Lemma SetupAdmin_back name password salt slot now s : back s (SetupAdmin name password salt slot now s).
Proof using Type.
  unfold SetupAdmin, HasUsers. roll_back. apply back_bind; [apply back_map_err, insert_user_back|].
  intros s1 [id|] Hi%map_err_value%insert_user_Ok; [by eapply GetUser_back|subst s1; apply back_fail].
Qed.
Lemma CreateMember_back input salt slot now s : back s (CreateMember input salt slot now s).
Proof using Type.
  unfold CreateMember. roll_back. apply back_bind; [apply back_map_err, insert_user_back|].
  intros s1 [id|] Hi%map_err_value%insert_user_Ok; [by eapply GetUser_back|subst s1; apply back_fail].
Qed.
Lemma ChangeUsername_back id password name slot now s : back s (ChangeUsername id password name slot now s).
Proof using Type. unfold ChangeUsername. roll_back. apply update_user_back. Qed.
Lemma UpdateUser_back id name status now s : back s (UpdateUser id name status now s).
Proof using Type.
  unfold UpdateUser. apply back_lift_bind; intros names _. apply back_reject_bind; intros _.
  apply back_bind; [apply back_atomically|]. intros s1 u Hbody. inv_ok.
  match goal with Hc : map_err _ (update_user _ _ _) _ = _ |- _ => apply map_err_value, update_user_Ok in Hc; rename Hc into Hnew end.
  bool_to_prop. subst. destruct Hnew as [r Hr]. destruct (bool_decide (status = UserDisabled)); inv_ok; [|by eapply GetUser_back].
  match goal with Hd : map_err _ (disable_jobs _ _) _ = _ |- _ => apply map_err_value in Hd; rename Hd into Hdis end.
  unfold disable_jobs in Hdis. set (sx := delete_sessions_of id _) in Hdis.
  match type of Hdis with update_jobs ?w ?f ?b _ = _ =>
    pose proof (update_jobs_framed w f b sx sx (reflexivity _)) as Hframe; rewrite Hdis in Hframe; cbn [fst] in Hframe end.
  eapply GetUser_back. rewrite (af_users _ _ Hframe). exact Hr.
Qed.
Lemma ResetUserPassword_back id password salt must slot now s : back s (ResetUserPassword id password salt must slot now s).
Proof using Type. unfold ResetUserPassword. roll_back. Qed.
Lemma ChangeUserPassword_back id old new salt slot1 slot2 now s :
  back s (ChangeUserPassword id old new salt slot1 slot2 now s).
Proof using Type. unfold ChangeUserPassword. roll_back. Qed.
Lemma ResetAdministratorPassword_back password salt slot now s :
  back s (ResetAdministratorPassword password salt slot now s).
Proof using Type.
  unfold ResetAdministratorPassword. apply back_lift_bind; intros hash _.
  apply back_bind; [apply back_atomically|]. intros s1 id Hbody. inv_ok.
  match goal with Hc : map_err _ (update_user _ _ _) _ = _ |- _ => apply map_err_value, update_user_Ok in Hc; rename Hc into Hnew end.
  bool_to_prop. subst. destruct Hnew as [r Hr]. eapply GetUser_back. exact Hr.
Qed.
Lemma newSessionInScope_back uid lifetime h scope raw csrf now s :
  back s (newSessionInScope uid lifetime h scope raw csrf now s).
Proof using Type.
  unfold newSessionInScope. roll_back. apply back_bind; [apply back_map_err, insert_session_back|].
  intros s1 created Hi%map_err_value. destruct created; [done|]. unfold insert_session in Hi.
  repeat case_match; simplify_eq; apply back_fail.
Qed.
Lemma Authenticate_back name password lifetime scope raw csrf slot now s :
  back s (AuthenticateAndCreateSessionInScope name password lifetime scope raw csrf slot now s).
Proof using Type.
  unfold AuthenticateAndCreateSessionInScope. roll_back. unfold issue_session.
  match goal with |- back _ (match ?m with _ => _ end) =>
    pose proof (newSessionInScope_back (UID u) lifetime (Some s0) scope raw csrf now s) as Hb; destruct m as [s1 [cr|e]] end; [done|].
  by destruct (errors_is e ErrNotFound).
Qed.
Lemma TouchSession_back token now s : back s (TouchSession token now s).
Proof using Type. unfold TouchSession. roll_back. Qed.
Lemma RecordLoginAttempts_back keys ok clk s : back s (RecordLoginAttempts keys ok clk s).
Proof using Type. unfold RecordLoginAttempts. roll_back. Qed.
End accounts.

(** C12: an error is a promise that nothing happened.  In every state a run reaches and for
    every call that writes the database, whatever its arguments, clock readings and random
    bytes: when the call returns an error every table is as it was before.  The claim of a
    job is the one exception, and it leaves exactly the expiry of the jobs that came too
    late. *)
Theorem failed_calls_leave_no_trace `{AEAD} `{Hashes} `{TimeZoneDB} o s e :
  reachable s → (call o s).2 = Err e →
  exec o s = s ∨
  ∃ worker now, o = OpSystemClaimNextDueJobAt worker now ∧ exec o s = (SystemExpireStaleJobs now s).1.
Proof.
  intros [Hdb _]%reachable_inv Herr.
  assert (∀ s0, back s0 (call o s) → exec o s = s0) as Hback.
  { intros s0 Hb. rewrite <- call_exec. destruct (call o s) as [s1 [u|e']]; [discriminate Herr|exact Hb]. }
  destruct o; cbn [call] in *;
    try (left; apply Hback; unfold EnqueueJob, SystemEnqueueJob, enqueueJob, RequestJobCancellation,
      SystemRequestJobCancellation, SystemRecoverInterruptedJobs, SystemExpireStaleJobs, update_jobs,
      SystemPruneTerminalJobs, pruneJobHistory, SetDefaultOTPSource, SystemPersistOTPSourcePairing,
      ResetLakeSettings, SystemSaveNetworkSettings, DeleteMember, NewSession, DeleteSession, PurgeExpiredSessions; roll_back;
      eauto using enqueue_booking_back, SystemTransitionJob_back, SystemMarkConfirmationStarted_back,
        requestJobCancellation_back, RecordJobDecision_back, SystemAppendJobEvent_back, CreateOTPSource_back,
        UpdateOTPSource_back, DeleteOTPSource_back, CreateProfile_back, UpdateProfile_back, DeleteProfile_back,
        SaveLakeSettings_back, SaveAccountSettings_back, SetupAdmin_back, CreateMember_back, ChangeUsername_back,
        UpdateUser_back, ResetUserPassword_back, ChangeUserPassword_back, ResetAdministratorPassword_back,
        newSessionInScope_back, Authenticate_back, TouchSession_back, RecordLoginAttempts_back; fail).
  destruct (SystemClaimNextDueJobAt_back worker now s) as [Hb|Hb]; apply back_done, Hback in Hb; [by left|right; eauto].
Qed.

(** A second booking for the date: its request was inserted, the date is taken, and the
    transaction takes the request back. *)
Lemma failed_calls_leave_no_trace_witness :
  is_ok (call (sample_enqueue_op 1 "2026-01-10") booked_db).2 = false ∧
  exec (sample_enqueue_op 1 "2026-01-10") booked_db = booked_db.
Proof.
  assert (Hok : is_ok (call (sample_enqueue_op 1 "2026-01-10") booked_db).2 = false) by (vm_compute; reflexivity).
  split; [exact Hok|].
  destruct (call (sample_enqueue_op 1 "2026-01-10") booked_db).2 as [u|e] eqn:He; [discriminate Hok|].
  destruct (failed_calls_leave_no_trace (sample_enqueue_op 1 "2026-01-10") booked_db e (reachable_run booked_ops) He)
    as [Hsame|(worker & now & Hop & _)]; [exact Hsame|discriminate Hop].
Defined.
