(* ===== verification/Views.v ===== *)
(** * What the pages show (src/internal/web: jobs, lake_connections, dashboard, bookings,
    sources, lakes, settings, profiles, quick_booking, forms, notices, response)

    The pure part of the pages: how jobs, connections, visits, cards and forms are made from
    the rows of an account. *)

From S2P Require Import Prelude GoStrings GoTime Origin Domain Database JobStore Coordinator Twilio Worker Pairing.
From Stdlib Require Import Ascii String SpecFloat.

Open Scope Z_scope.

(** ** Times *)

Definition weekday (loc : Location) (t : Time) : Z := (local_sec loc t / 86400 + 4) mod 7.
Definition short_day (w : Z) : string :=
  nth (Z.to_nat w) ["Sun"; "Mon"; "Tue"; "Wed"; "Thu"; "Fri"; "Sat"] "".
Definition short_month (m : Z) : string :=
  nth (Z.to_nat (m - 1)) ["Jan"; "Feb"; "Mar"; "Apr"; "May"; "Jun"; "Jul"; "Aug"; "Sep"; "Oct"; "Nov"; "Dec"] "".
(** [Jan 2, 2006] and [Jan 2, 2006 at 3:04 PM] *)
Definition format_day (loc : Location) (t : Time) : string :=
  let c := date_in loc t in
  short_month (c_month c) +:+ " " +:+ format_int (c_day c) +:+ ", "
  +:+ (if c_year c <? 0 then "-" +:+ pad 4 (- c_year c) else pad 4 (c_year c)).
Definition format_day_clock (loc : Location) (t : Time) : string :=
  let hour := clock_hour loc t in
  format_day loc t +:+ " at " +:+ format_int (if hour mod 12 =? 0 then 12 else hour mod 12) +:+ ":" +:+ pad 2 (clock_minute loc t) +:+ " "
  +:+ (if 12 <=? hour then "PM" else "AM").
(** [-07:00] *)
Definition format_zone (off : Z) : string :=
  let z := Z.quot off 60 in
  (if z <? 0 then "-" else "+") +:+ pad 2 (Z.abs z / 60) +:+ ":" +:+ pad 2 (Z.abs z mod 60).
(** [15:04:05 -07:00] *)
Definition format_event_time (loc : Location) (t : Time) : string :=
  pad 2 (clock_hour loc t) +:+ ":" +:+ pad 2 (clock_minute loc t) +:+ ":" +:+ pad 2 (clock_second loc t)
  +:+ " " +:+ format_zone (zone_offset loc t).
Definition formatJobTime (value : Time) (location : Location) : string :=
  let offset := zone_offset location value in
  short_day (weekday location value) +:+ ", " +:+ format_day_clock location value +:+ " UTC"
  +:+ (if offset =? 0 then "" else format_zone offset).
Definition formatOptionalJobTime (value : option Time) (location : Location) : string :=
  match value with None => "—" | Some t => formatJobTime t location end.

Example job_time_text :
  formatJobTime (1783000000 * Second) (FixedZone "PDT" (-25200)) = "Thu, Jul 2, 2026 at 6:46 AM UTC-07:00".
Proof. vm_compute. reflexivity. Qed.

(** ** Labels *)

Definition statusLabel (status : JobStatus) : string :=
  if bool_decide (status = JobQueued) then "Waiting to start" else replace_byte "_" " " (JobStatus_string status).
Definition jobCommandLabel (command : JobCommand) : string :=
  match command with
  | CommandAuthCheck => "Sign-in check"
  | CommandDryRun => "Booking rehearsal"
  | CommandBook => "Book pass"
  | CommandOther _ => "Job"
  end.
Definition jobStatusLabel (job : Job) : string :=
  if JCancelRequested job && negb (Terminal (JStatus job)) then "Cancellation requested" else statusLabel (JStatus job).
Definition jobModeLabel (job : Job) : string :=
  match JCommand job, JRunMode job with
  | CommandBook, RunModeAuto => "Automatic final confirmation"
  | CommandBook, RunModeManual => "Manual final approval"
  | _, _ => "No booking confirmation"
  end.
Definition jobDisplayMessage (job : Job) (location : Location) : string :=
  if JCancelRequested job && negb (Terminal (JStatus job)) then "Cancellation requested."
  else if bool_decide (JStatus job = JobQueued) && String.eqb (JMessage job) "" then
    "Waiting to start. Earliest start: " +:+ formatJobTime (JDueAt job) location
    +:+ ". The job may start later if another job is running or its settings need attention."
  else JMessage job.
Definition statusClass (status : JobStatus) : string :=
  match status with
  | JobSucceeded => "ok"
  | JobQueued | JobRunning => "active"
  | JobAwaitingApproval => "warn"
  | JobFailed | JobOutcomeUnknown => "error"
  | _ => ""
  end.
(** [#%06d] *)
Definition short_id (id : Z) : string := "#" +:+ (if id <? 0 then "-" +:+ pad 5 (- id) else pad 6 id).
Definition job_url (id : Z) : string := "/jobs/" +:+ format_int id.
Definition lakeName (id : string) : string :=
  match Resolve id with Ok lake => LakeName lake | Err _ => "Unsupported lake" end.
Definition passOptionLabel (pass : string) : string :=
  if String.eqb pass "all_day" then "All-day" else if String.eqb pass "afternoon" then "Afternoon"
  else if String.eqb pass "morning" then "Morning" else replace_byte "_" " " pass.
Definition passNames (values : list PassType) : list string :=
  (λ v, match v with
        | PassAllDay => "All-day" | PassMorning => "Morning" | PassAfternoon => "Afternoon"
        | PassOther s => replace_byte "_" " " s
        end) <$> values.
Definition bookingDisplayName (request : BookingRequest) : string :=
  if bool_decide (BKind request = BookingKindSnapshot)
  then lakeName (BLakeID request) +:+ " · " +:+ BTargetDate request else BName request.

(** ** Jobs *)

(** A Go map by key: the last of equal keys stays. *)
Definition by_key {A} (key : A → Z) (l : list A) : gmap Z A := foldl (λ m a, <[key a := a]> m) ∅ l.

Record jobRow := MkJobRow {
  JR_ID : Z; JR_ShortID : string; JR_ProfileName : string; JR_RequestName : string; JR_Command : string;
  JR_StatusLabel : string; JR_StatusClass : string; JR_ModeLabel : string; JR_DueLabel : string; JR_CreatedLabel : string }.
Record labelValue := MkLabel { LV_Label : string; LV_Value : string }.
Record jobView := MkJobView {
  JV_ID : Z; JV_ShortID : string; JV_ProfileName : string; JV_Command : string; JV_StatusLabel : string;
  JV_StatusClass : string; JV_CreatedLabel : string; JV_StartedLabel : string; JV_FinishedLabel : string;
  JV_ConfirmationLabel : string; JV_Mode : string; JV_DueLabel : string; JV_ExpiresLabel : string;
  JV_TimingLabel : string; JV_BookingReview : list labelValue; JV_Message : string;
  JV_AwaitingApproval : bool; JV_CanCancel : bool }.
Record eventView := MkEventView { EV_Time : string; EV_Type : string; EV_Message : string }.
Record jobData := MkJobData { JD_Job : jobView; JD_Events : list eventView; JD_LastEventID : Z }.

Section views.
Context `{TimeZoneDB}.

Definition location_or_utc (name : string) : Location :=
  match LoadLocation name with Ok location => location | Err _ => UTC end.
(** A finished job of an older kind keeps UTC: its booking may have been edited since. *)
Definition pendingJobLocation (job : Job) (booking : BookingRequest) : Location :=
  if (Terminal (JStatus job) && negb (bool_decide (BKind booking = BookingKindSnapshot)))
     || negb (bool_decide (JCommand job = CommandBook))
     || negb (bool_decide (JBookingRequestID job = Some (BID booking)))
     || negb (JProfileID job =? BProfileID booking) || negb (JUserID job =? BUserID booking)
  then UTC else location_or_utc (BTimezone booking).

Definition jobRow_of (names : gmap Z Profile) (bookings : gmap Z BookingRequest) (job : Job) : jobRow :=
  let '(location, requestName) :=
    match JBookingRequestID job with
    | None => (UTC, "")
    | Some id =>
        let booking := default zero_booking (bookings !! id) in
        (pendingJobLocation job booking,
         if (negb (Terminal (JStatus job)) || bool_decide (BKind booking = BookingKindSnapshot))
            && (BID booking =? id) && (BUserID booking =? JUserID job) && (BProfileID booking =? JProfileID job)
         then bookingDisplayName booking else "")
    end in
  MkJobRow (JID job) (short_id (JID job)) (from_option PName "" (names !! JProfileID job)) requestName
    (jobCommandLabel (JCommand job)) (jobStatusLabel job) (statusClass (JStatus job)) (jobModeLabel job)
    (formatJobTime (JDueAt job) location) (formatJobTime (JCreatedAt job) location).
(** A list that cannot be read counts as empty. *)
Definition jobRows (profiles : list Profile) (bookings : list BookingRequest) (jobs : list Job) : list jobRow :=
  jobRow_of (by_key PID profiles) (by_key BID bookings) <$> jobs.

(** The page of a job; the booking is read for a booking job only. *)
Definition booking_review (job : Job) (booking : BookingRequest) : list labelValue :=
  if negb (Terminal (JStatus job)) || bool_decide (BKind booking = BookingKindSnapshot) then
    [MkLabel "Lake" (lakeName (BLakeID booking));
     MkLabel "Target date" (BTargetDate booking +:+ " · " +:+ BTimezone booking);
     MkLabel "Vehicle keyword" (BVehicleKeyword booking);
     MkLabel "Pass preference order" (join " → " (passNames (PassOrder booking)))]
  else [].
Definition jobView_of (job : Job) (profile : Profile) (booking : option BookingRequest) : jobView :=
  let location := from_option (pendingJobLocation job) UTC booking in
  MkJobView (JID job) (short_id (JID job)) (PName profile) (jobCommandLabel (JCommand job)) (jobStatusLabel job)
    (statusClass (JStatus job)) (formatJobTime (JCreatedAt job) location)
    (formatOptionalJobTime (JStartedAt job) location) (formatOptionalJobTime (JFinishedAt job) location)
    (formatOptionalJobTime (JConfirmationStartedAt job) location) (jobModeLabel job)
    (formatJobTime (JDueAt job) location) (formatOptionalJobTime (JExpiresAt job) location)
    (if JRunImmediately job then "Book now · manual approval"
     else if bool_decide (JCommand job = CommandBook) then "Release window" else "")
    (from_option (booking_review job) [] booking) (jobDisplayMessage job location)
    (bool_decide (JStatus job = JobAwaitingApproval)) (negb (Terminal (JStatus job))).
Definition jobData_of (job : Job) (profile : Profile) (booking : option BookingRequest) (events : list JobEvent) : jobData :=
  let location := from_option (pendingJobLocation job) UTC booking in
  MkJobData (jobView_of job profile booking)
    ((λ e, MkEventView (format_event_time location (ECreatedAt e)) (EKind e) (EMessage e)) <$> events)
    (from_option EID 0 (last events)).

(** ** Upcoming visits *)

Record dashboardBooking := MkVisit { VName : string; VURL : string; VDate : string }.

(** Whether a job stands for a visit of its booking on or after today. *)
Definition visit_of (byID : gmap Z BookingRequest) (now : Time) (seen : gset Z) (job : Job) : option BookingRequest :=
  if negb (bool_decide (JCommand job = CommandBook))
     || (Terminal (JStatus job) && negb (bool_decide (JStatus job = JobSucceeded))) then None
  else
    booking ← JBookingRequestID job ≫= (λ id, byID !! id);
    if negb (BEnabled booking) || bool_decide (BID booking ∈ seen) || negb (JUserID job =? BUserID booking)
       || negb (JProfileID job =? BProfileID booking)
       || (Terminal (JStatus job) && negb (bool_decide (BKind booking = BookingKindSnapshot)))
       || String.ltb (BTargetDate booking) (FormatDateOnly (location_or_utc (BTimezone booking)) now)
    then None else Some booking.
Fixpoint collect_visits (byID : gmap Z BookingRequest) (now : Time) (jobs : list Job) (seen : gset Z) : list dashboardBooking :=
  match jobs with
  | [] => []
  | job :: rest =>
      match visit_of byID now seen job with
      | None => collect_visits byID now rest seen
      | Some booking =>
          MkVisit (lakeName (EffectiveLakeID booking)) (job_url (JID job)) (BTargetDate booking)
          :: collect_visits byID now rest ({[BID booking]} ∪ seen)
      end
  end.
(** [sort.SliceStable] by date: equal dates stay in order. *)
Fixpoint insert_visit (v : dashboardBooking) (l : list dashboardBooking) : list dashboardBooking :=
  match l with
  | [] => [v]
  | w :: rest => if String.ltb (VDate w) (VDate v) then w :: insert_visit v rest else v :: w :: rest
  end.
Definition sort_visits (l : list dashboardBooking) : list dashboardBooking := foldr insert_visit [] l.
Definition upcomingVisits (bookings : list BookingRequest) (jobs : list Job) (now : Time) : list dashboardBooking :=
  sort_visits (collect_visits (by_key BID bookings) now jobs ∅).

(** ** Connections to lakes *)

Record connectionProfile := MkConnectionProfile {
  CP_Profile : Profile; CP_Configured : bool; CP_Connected : bool; CP_Pending : bool;
  CP_Status : string; CP_StatusClass : string; CP_Description : string; CP_JobURL : string; CP_VerifiedAt : string }.
Record lakeConnection := MkConnection {
  LC_Lake : Lake; LC_Profiles : list connectionProfile;
  LC_SetupStarted : bool; LC_Configured : bool; LC_Connected : bool;
  LC_Status : string; LC_StatusClass : string; LC_Description : string;
  LC_URL : string; LC_ActionURL : string; LC_ActionLabel : string; LC_DefaultSourceName : string }.

Definition connectionJobTime (job : Job) : Time := default (JUpdatedAt job) (JFinishedAt job).
Definition pendingRank (job : Job) : Z := if bool_decide (JStatus job = JobQueued) then 0 else 1.
Definition connectionRank (p : connectionProfile) : Z :=
  if CP_Connected p then 4 else if CP_Pending p then 3 else if CP_Configured p then 2
  else if PEnabled (CP_Profile p) then 1 else 0.

(** What the jobs of a sign-in show: the last success, the last sign-in that failed, and the
    job that is under way. *)
Record evidence := MkEvidence { ev_verified : option Job; ev_failed : option Job; ev_pending : option Job }.
Definition no_evidence : evidence := MkEvidence None None None.
(** The newer of two jobs by a time that only the given predicate makes sense of. *)
Definition better (beats : Job → Job → bool) (job : Job) (best : option Job) : option Job :=
  match best with
  | None => Some job
  | Some b => if beats job b then Some job else Some b
  end.
Definition pending_beats (job b : Job) : bool :=
  (pendingRank b <? pendingRank job) || ((pendingRank job =? pendingRank b) && (JID b <? JID job)).
Definition finished_after (job b : Job) : bool :=
  After (default zero_time (JFinishedAt job)) (default zero_time (JFinishedAt b)).
Definition failed_after (job b : Job) : bool := After (connectionJobTime job) (connectionJobTime b).
Definition concerns (profile : Profile) (job : Job) : bool :=
  (JUserID job =? PUserID profile) && (JProfileID job =? PID profile) && JobCommand_Valid (JCommand job).
(** An edit of the sign-in makes what older jobs showed worthless. *)
Definition current_for (profile : Profile) (job : Job) : bool :=
  Terminal (JStatus job) && negb (Before (JCreatedAt job) (PUpdatedAt profile)).
Definition verifies (job : Job) : bool :=
  bool_decide (JStatus job = JobSucceeded) && from_option (λ t, negb (IsZero t)) false (JFinishedAt job).
Definition failed_sign_in (job : Job) : bool :=
  bool_decide (JCommand job = CommandAuthCheck) && bool_decide (JStatus job ∈ [JobFailed; JobInterrupted; JobOutcomeUnknown]).
Definition weigh (profile : Profile) (e : evidence) (job : Job) : evidence :=
  if negb (concerns profile job) then e
  else if negb (Terminal (JStatus job)) then MkEvidence (ev_verified e) (ev_failed e) (better pending_beats job (ev_pending e))
  else if Before (JCreatedAt job) (PUpdatedAt profile) then e
  else MkEvidence (if verifies job then better finished_after job (ev_verified e) else ev_verified e)
         (if failed_sign_in job then better failed_after job (ev_failed e) else ev_failed e) (ev_pending e).
Definition weigh_all (profile : Profile) (jobs : list Job) : evidence := foldl (weigh profile) no_evidence jobs.

(** The parts of a connection that the evidence sets. *)
Record connectionStatus := MkStatus {
  cs_connected : bool; cs_pending : bool; cs_status : string; cs_class : string; cs_description : string;
  cs_job : string; cs_verified : string }.
Definition saved_status : connectionStatus :=
  MkStatus false false "Sign-in needed" "muted" "Your account is saved. Sign in to verify its connection to this lake." "" "".

Section connections.
Context (origins : list string).

Definition with_verified (lake : Lake) (verified : option Job) (s : connectionStatus) : connectionStatus :=
  match verified with
  | None => s
  | Some job =>
      let at_ := default zero_time (JFinishedAt job) in
      let location := location_or_utc (LakeTimezone lake) in
      let label := format_day_clock location at_ +:+ " " +:+ tz_abbreviation location at_ in
      MkStatus true (cs_pending s) "Connection verified" "ok" ("Last checked " +:+ label +:+ ". Checked again before booking.")
        (job_url (JID job)) label
  end.
Definition fails_after (failed : Job) (verified : option Job) : bool :=
  match verified with
  | None => true
  | Some v => After (connectionJobTime failed) (default zero_time (JFinishedAt v))
  end.
Definition with_failed (failed verified : option Job) (s : connectionStatus) : connectionStatus :=
  match failed with
  | None => s
  | Some job =>
      if fails_after job verified then
        MkStatus false (cs_pending s) "Check connection" "warn"
          "The latest sign-in did not complete. Review the job before trying again." (job_url (JID job)) (cs_verified s)
      else s
  end.
Definition with_pending (pending : option Job) (s : connectionStatus) : connectionStatus :=
  match pending with
  | None => s
  | Some job =>
      let signing_in := bool_decide (JCommand job = CommandAuthCheck) in
      let queued := bool_decide (JStatus job = JobQueued) in
      MkStatus (cs_connected s) true
        (if queued then if signing_in then "Sign-in queued" else "Job queued"
         else if signing_in then "Connecting" else "Job in progress")
        "active"
        (if queued then "A job is queued for this account. Its connection will be checked when it runs."
         else if signing_in then "Follow the sign-in job to finish connecting this lake."
         else "A job is using this account. Open it to follow progress.")
        (job_url (JID job)) (cs_verified s)
  end.
Definition evidence_status (lake : Lake) (e : evidence) : connectionStatus :=
  with_pending (ev_pending e) (with_failed (ev_failed e) (ev_verified e) (with_verified lake (ev_verified e) saved_status)).

Definition unconfigured (profile : Profile) (status class description : string) : connectionProfile :=
  MkConnectionProfile profile false false false status class description "" "".
Definition profileConnection (lake : Lake) (profile : Profile) (jobs : list Job) (hasSource : bool) : connectionProfile :=
  if negb (PEnabled profile) then unconfigured profile "Disabled" "muted" "Enable this account to use it for this lake."
  else if negb (is_ok (profile_ValidateForOrigins profile origins)) then
    unconfigured profile "Needs update" "warn" "Update this account's saved details before connecting."
  else if negb hasSource then
    unconfigured profile "OTP source needed" "warn" "Choose a default OTP source, then sign in to connect this lake."
  else
    let s := evidence_status lake (weigh_all profile jobs) in
    MkConnectionProfile profile true (cs_connected s) (cs_pending s) (cs_status s) (cs_class s) (cs_description s)
      (cs_job s) (cs_verified s).

(** A sign-in without a lake belongs to the first lake only. *)
Definition signs_in_to (lake : Lake) (userID : Z) (profile : Profile) : bool :=
  (0 <? userID) && (PUserID profile =? userID) && String.eqb (profile_EffectiveLakeID profile) (LakeID lake)
  && String.eqb (EffectiveProviderID profile) (ProviderID lake).
Definition no_connection (lake : Lake) (source_name : string) : lakeConnection :=
  MkConnection lake [] false false false "Not connected" "muted"
    "Connect your booking account to get started with this lake." ("/lakes/" +:+ Twilio.PathEscape (LakeID lake))
    ("/lakes/" +:+ Twilio.PathEscape (LakeID lake) +:+ "#connection") "Connect lake" source_name.
(** One sign-in more: the status shown is that of the first with the highest rank. *)
Definition add_connection (state : lakeConnection * Z) (p : connectionProfile) : lakeConnection * Z :=
  let '(r, bestRank) := state in
  let rank := connectionRank p in
  let best := bestRank <? rank in
  (MkConnection (LC_Lake r) (LC_Profiles r ++ [p]) true (LC_Configured r || CP_Configured p)
     (LC_Connected r || CP_Connected p) (if best then CP_Status p else LC_Status r)
     (if best then CP_StatusClass p else LC_StatusClass r) (if best then CP_Description p else LC_Description r)
     (LC_URL r) (LC_ActionURL r) (LC_ActionLabel r) (LC_DefaultSourceName r),
   if best then rank else bestRank).
Definition manage_label (r : lakeConnection) : lakeConnection :=
  if LC_SetupStarted r then
    MkConnection (LC_Lake r) (LC_Profiles r) (LC_SetupStarted r) (LC_Configured r) (LC_Connected r) (LC_Status r)
      (LC_StatusClass r) (LC_Description r) (LC_URL r) (LC_ActionURL r) "Manage connection" (LC_DefaultSourceName r)
  else r.
Definition has_source (userID : Z) (source : option OTPSource) : bool :=
  from_option (λ s, (0 <? OSID s) && (OSUserID s =? userID) && is_ok (source_Validate s)) false source.
Definition buildLakeConnection (lake : Lake) (userID : Z) (profiles : list Profile) (jobs : list Job)
    (source : option OTPSource) : lakeConnection :=
  let hasSource := has_source userID source in
  let mine := filter (λ p, signs_in_to lake userID p = true) profiles in
  manage_label
    (foldl (λ state p, add_connection state (profileConnection lake p jobs hasSource))
       (no_connection lake (if hasSource then from_option OSName "" source else ""), -1) mine).1.
End connections.

(** ** Cards *)

(** The problem a page shows: a fixed text or the text made from an error. *)
Inductive problem := NoProblem | Problem (message : string) | ProblemOf (e : error).

Record cardAction := MkAction { CA_Label : string; CA_URL : string; CA_Class : string }.
Record selectOption := MkOption { SO_Value : string; SO_Label : string; SO_Selected : bool }.
(** A button with its hidden fields; with a selection, the name of its field, its label and
    its options. *)
Record postAction := MkPost {
  PA_Label : string; PA_URL : string; PA_Class : string; PA_Fields : list (string * string);
  PA_Select : option (string * string * list selectOption) }.
(** The description is a fixed text, or one around the text made from an error. *)
Record listCard := MkCard {
  C_Title : string; C_Subtitle : string; C_Status : string; C_StatusClass : string; C_URL : string;
  C_Description : problem; C_Fields : list labelValue; C_Actions : list cardAction; C_PostActions : list postAction;
  C_Default : bool }.
Definition with_post (p : postAction) (card : listCard) : listCard :=
  MkCard (C_Title card) (C_Subtitle card) (C_Status card) (C_StatusClass card) (C_URL card) (C_Description card)
    (C_Fields card) (C_Actions card) (C_PostActions card ++ [p]) (C_Default card).
Definition as_default (card : listCard) : listCard :=
  MkCard (C_Title card) (C_Subtitle card) (C_Status card) (C_StatusClass card) (C_URL card) (C_Description card)
    (C_Fields card) (C_Actions card) (C_PostActions card) true.

Definition maskStoredSender (value : string) : string :=
  if String.eqb value "" then "Not paired"
  else match cut_last "@" value with
       | Some (String first _, domain) => String first EmptyString +:+ "***@" +:+ domain
       | _ =>
           let digits := keep_bytes is_digit value in
           if (4 <? String.length digits)%nat then "***" +:+ drop_bytes (String.length digits - 4) digits else "***"
       end.
Definition paired (source : OTPSource) : bool :=
  negb (String.eqb (OSPairingChatGUID source) "") && negb (String.eqb (OSPairingSender source) "")
  && negb (String.eqb (OSPairingService source) "").
Definition sourcePairLabel (source : OTPSource) : string := if paired source then "Re-pair" else "Pair with Yodel".
Definition source_url (source : OTPSource) (suffix : string) : string := "/sources/" +:+ format_int (OSID source) +:+ suffix.
Definition connection_url : string := "/lakes/" +:+ DefaultLakeID +:+ "#connection".

(** The sign-ins a pairing can use. *)
Definition pairing_options (origins : list string) (profiles : list Profile) : list selectOption :=
  MkOption "" "Choose a Yodel sign-in" true
  :: ((λ p, MkOption (format_int (PID p)) (PName p) false) <$>
      filter (λ p, PEnabled p && String.eqb (EffectiveProviderID p) ProviderYodel
                   && is_ok (profile_ValidateForOrigins p origins) = true) profiles).
(** What to do when a pairing cannot start; other errors make the page fail. *)
Definition pairing_action (e : error) : option cardAction :=
  if errors_is e ErrPairingProfileRequired || errors_is e ErrPairingProfileAmbiguous
  then Some (MkAction "Set up lake connection" connection_url "primary")
  else if errors_is e ErrPairingProfileDisabled then Some (MkAction "Enable sign-in" connection_url "primary")
  else if errors_is e ErrPairingProfileInvalid then Some (MkAction "Review sign-in" connection_url "primary")
  else None.
Definition pair_post (source : OTPSource) (select : option (string * string * list selectOption)) : postAction :=
  MkPost (sourcePairLabel source) (source_url source "/pair") "primary" [] select.
(** [setup] and [err] are what the check of the pairing answers; [profiles] is read only
    when the choice is ambiguous. *)
Definition sourceCard (origins : list string) (source : OTPSource) (setup : PairingSetup) (err : result unit)
    (profiles : result (list Profile)) : result listCard :=
  let test := MkPost "Test connection" (source_url source "/health") "" [] None in
  let card subtitle status class description fields actions :=
    MkCard (OSName source) subtitle status class (source_url source "") description fields
      (MkAction "Edit" (source_url source "") "" :: actions) [test] false in
  match OSProvider source with
  | OTPProviderTwilio => Ok (card "Twilio" "Configured" "" NoProblem [] [])
  | OTPProviderOther p => Ok (card p "Configured" "" NoProblem [] [])
  | OTPProviderBlueBubbles =>
      let status := if paired source then "Paired" else "Needs pairing" in
      let class := if paired source then "ok" else "warn" in
      let fields := MkLabel "Paired sender" (maskStoredSender (OSPairingSender source))
                    :: (if SetupProfileID setup =? 0 then [] else [MkLabel "Yodel sign-in" (SetupProfileName setup)]) in
      let blocked e :=
        match pairing_action e with
        | None => Err e
        | Some action =>
            Ok (card "BlueBubbles" (if paired source then status else "Setup needed") class (ProblemOf e) fields [action])
        end in
      match err with
      | Ok _ => Ok (with_post (pair_post source None) (card "BlueBubbles" status class NoProblem fields []))
      | Err e =>
          if errors_is e ErrPairingProfileAmbiguous then
            match profiles with
            | Err e => Err e
            | Ok profiles =>
                let options := pairing_options origins profiles in
                if (1 <? List.length options)%nat then
                  Ok (with_post (pair_post source (Some ("profile_id", "Yodel sign-in for pairing", options)))
                        (card "BlueBubbles" status class
                           (Problem "Choose the Yodel sign-in to pair with this inbox. Your default OTP source stays unchanged.")
                           fields []))
                else blocked e
            end
          else blocked e
      end
  end.

(** The card of a sign-in, and what the page of a lake makes of it. *)
Definition profile_url (profile : Profile) (suffix : string) : string := "/profiles/" +:+ format_int (PID profile) +:+ suffix.
Definition profileCard (profile : Profile) (sourceName : string) : listCard :=
  let unset := String.eqb sourceName "" in
  MkCard (PName profile) "Yodel sign-in" (if PEnabled profile then "Enabled" else "Disabled")
    (if PEnabled profile then "ok" else "") (profile_url profile "")
    (if unset then Problem "Choose a default OTP source before signing in." else NoProblem) []
    (MkAction "Edit sign-in" (profile_url profile "") ""
     :: if unset then [MkAction "Choose OTP source" "/sources" "primary"] else [])
    (if negb unset && PEnabled profile
     then [MkPost "Sign in to Yodel" (profile_url profile "/sign-in") "primary" [] None] else []) false.
Definition lakeCard (lake : Lake) (bookingProfileID : Z) (sourceName : string) (p : connectionProfile) : listCard :=
  let profile := CP_Profile p in
  let card := profileCard profile sourceName in
  let used := PID profile =? bookingProfileID in
  MkCard (C_Title card) (C_Subtitle card) (CP_Status p) (CP_StatusClass p) (C_URL card) (Problem (CP_Description p))
    (C_Fields card ++ if used then [MkLabel "Bookings" "Used for bookings"] else [])
    (if CP_Pending p then [MkAction "View job" (CP_JobURL p) "primary"]
     else C_Actions card ++ if String.eqb (CP_JobURL p) "" then [] else [MkAction "View last check" (CP_JobURL p) ""])
    ((if CP_Pending p || negb (CP_Configured p) then [] else C_PostActions card)
     ++ if negb used && PEnabled profile
        then [MkPost "Use for bookings" ("/lakes/" +:+ Twilio.PathEscape (LakeID lake) +:+ "/connection") ""
                [("booking_profile_id", format_int (PID profile))] None]
        else []) false.
(** The page of a lake: which sign-in books there, and the cards of all. *)
Definition lake_cards (lake : Lake) (settings : LakeSettings) (connection : lakeConnection) : problem * list listCard :=
  let profiles := CP_Profile <$> LC_Profiles connection in
  let booking := ResolveLakeBookingProfile lake settings profiles in
  (match booking with Err e => if is_nil profiles then NoProblem else ProblemOf e | Ok _ => NoProblem end,
   lakeCard lake (match booking with Ok p => PID p | Err _ => 0 end) (LC_DefaultSourceName connection)
     <$> LC_Profiles connection).
Definition releaseDaysLabel (days : Z) : string :=
  if days =? 0 then "On the visit date" else if days =? 1 then "1 day before your visit"
  else format_int days +:+ " days before your visit".
Definition vehicleKeywordLabel (value : string) : string := if String.eqb value "" then "Not set" else value.
Definition lake_fields (settings : LakeSettings) : list labelValue :=
  [MkLabel "Release" (releaseDaysLabel (LSReleaseDaysBefore settings) +:+ " · " +:+ LSReleaseTime settings);
   MkLabel "Timezone" (LSTimezone settings); MkLabel "Vehicle keyword" (vehicleKeywordLabel (LSVehicleKeyword settings))].

(** ** Accounts *)

Record userRow := MkUserRow {
  UR_ID : Z; UR_Username : string; UR_Role : string; UR_Status : string; UR_StatusClass : string;
  UR_PasswordState : string; UR_CreatedLabel : string; UR_Editable : bool }.
Definition userRow_of (user : User) : userRow :=
  let active := bool_decide (UStatus user = UserActive) in
  MkUserRow (UID user) (UUsername user) (if bool_decide (URole user = RoleAdmin) then "Permanent admin" else "Member")
    (if active then "Active" else "Disabled") (if active then "ok" else "")
    (if UMustChangePassword user then "Change required" else "Current") (format_day tz_local (UCreatedAt user))
    (bool_decide (URole user = RoleMember)).
End views.

(** ** Forms *)

(** The text of a field; a number with a fraction is shown as the shortest decimal that
    reads back as the same number. *)
Inductive fieldValue := Text (s : string) | Decimal (x : float64).
Record formField := MkFormField {
  FF_Name : string; FF_Label : string; FF_Type : string; FF_Value : fieldValue; FF_Placeholder : string; FF_Help : string;
  FF_Min : string; FF_Max : string; FF_Step : string; FF_Required : bool; FF_Checked : bool; FF_Wide : bool;
  FF_Options : list selectOption }.
Record formSection := MkSection {
  FS_Title : string; FS_Help : string; FS_Class : string; FS_Provider : string; FS_Advanced : bool; FS_Fields : list formField }.
Definition field_of (name label type : string) (value : fieldValue) : formField :=
  MkFormField name label type value "" "" "" "" "" false false false [].
Definition hinted (placeholder : string) (f : formField) : formField :=
  MkFormField (FF_Name f) (FF_Label f) (FF_Type f) (FF_Value f) placeholder (FF_Help f) (FF_Min f) (FF_Max f) (FF_Step f)
    (FF_Required f) (FF_Checked f) (FF_Wide f) (FF_Options f).
Definition helped (help : string) (f : formField) : formField :=
  MkFormField (FF_Name f) (FF_Label f) (FF_Type f) (FF_Value f) (FF_Placeholder f) help (FF_Min f) (FF_Max f) (FF_Step f)
    (FF_Required f) (FF_Checked f) (FF_Wide f) (FF_Options f).
Definition within_limits (min max step : string) (f : formField) : formField :=
  MkFormField (FF_Name f) (FF_Label f) (FF_Type f) (FF_Value f) (FF_Placeholder f) (FF_Help f) min max step
    (FF_Required f) (FF_Checked f) (FF_Wide f) (FF_Options f).
Definition mandatory (b : bool) (f : formField) : formField :=
  MkFormField (FF_Name f) (FF_Label f) (FF_Type f) (FF_Value f) (FF_Placeholder f) (FF_Help f) (FF_Min f) (FF_Max f) (FF_Step f)
    b (FF_Checked f) (FF_Wide f) (FF_Options f).
Definition ticked (b : bool) (f : formField) : formField :=
  MkFormField (FF_Name f) (FF_Label f) (FF_Type f) (FF_Value f) (FF_Placeholder f) (FF_Help f) (FF_Min f) (FF_Max f) (FF_Step f)
    (FF_Required f) b (FF_Wide f) (FF_Options f).
Definition full_width (f : formField) : formField :=
  MkFormField (FF_Name f) (FF_Label f) (FF_Type f) (FF_Value f) (FF_Placeholder f) (FF_Help f) (FF_Min f) (FF_Max f) (FF_Step f)
    (FF_Required f) (FF_Checked f) true (FF_Options f).
Definition with_field_value (value : fieldValue) (f : formField) : formField :=
  MkFormField (FF_Name f) (FF_Label f) (FF_Type f) value (FF_Placeholder f) (FF_Help f) (FF_Min f) (FF_Max f) (FF_Step f)
    (FF_Required f) (FF_Checked f) (FF_Wide f) (FF_Options f).
Definition with_options (options : list selectOption) (f : formField) : formField :=
  MkFormField (FF_Name f) (FF_Label f) (FF_Type f) (FF_Value f) (FF_Placeholder f) (FF_Help f) (FF_Min f) (FF_Max f) (FF_Step f)
    (FF_Required f) (FF_Checked f) (FF_Wide f) options.
Definition select_of (name label : string) (options : list selectOption) : formField :=
  with_options options (field_of name label "select" (Text "")).
Definition number_of (name label : string) (value : fieldValue) (min max step : string) : formField :=
  within_limits min max step (mandatory true (field_of name label "number" value)).
Definition in_fields (change : formField → formField) (s : formSection) : formSection :=
  MkSection (FS_Title s) (FS_Help s) (FS_Class s) (FS_Provider s) (FS_Advanced s) (change <$> FS_Fields s).
(** A form that was posted keeps the text of its numbers. *)
Definition posted_number (posted : string → string) (f : formField) : formField :=
  if String.eqb (FF_Type f) "number" then with_field_value (Text (posted (FF_Name f))) f else f.

Definition browserChannelOptions (selected : string) : list selectOption :=
  let selected := to_lower (trim_space selected) in
  MkOption "" "Bundled Chromium" (String.eqb selected "")
  :: ((λ channel, MkOption channel channel (String.eqb channel selected)) <$> ["chrome"; "chrome-beta"; "chrome-dev"; "chrome-canary"]).
Definition secretPlaceholder (creating : bool) : string :=
  if creating then "Required when selected" else "Leave blank to keep existing".

(** The settings of an account. *)
Definition settingsSections (value : AccountSettings) : list formSection :=
  let mode := ASDefaultConfirmationMode value in
  let number n := Text (format_int n) in
  [MkSection "Booking confirmation"
     "Scheduled release jobs use this preference. Booking passes that are already available always requires your approval." "" "" false
     [select_of "default_confirmation_mode" "Final confirmation"
        [MkOption "manual" "Manual approval" (bool_decide (mode = RunModeOther "") || bool_decide (mode = RunModeManual));
         MkOption "auto" "Automatic confirmation" (bool_decide (mode = RunModeAuto))]];
   MkSection "Preparation"
     "When to prepare and finish signing in before a pass release. New requests use these defaults; existing requests keep their saved timing." "" "" false
     [number_of "prep_minutes_before" "Start preparation (minutes)" (number (ASPrepMinutesBefore value)) "0" "180" "1";
      number_of "auth_deadline_minutes_before" "Sign-in deadline (minutes)" (number (ASAuthDeadlineMinutesBefore value)) "0" "180" "1"];
   MkSection "Availability and retries"
     "How long to look for a pass and how long to wait between attempts. Retry delays stay within the minimum and maximum you choose." "" "" false
     [full_width (number_of "poll_deadline_seconds" "Availability window (seconds)" (number (ASPollDeadlineSeconds value)) "1" "900" "1");
      number_of "poll_min_seconds" "Minimum retry delay (seconds)" (Decimal (ASPollMinSeconds value)) "0.05" "60" "0.05";
      number_of "poll_max_seconds" "Maximum retry delay (seconds)" (Decimal (ASPollMaxSeconds value)) "0.05" "60" "0.05"];
   MkSection "Browser defaults" "Copied into new Yodel sign-ins. Existing sign-ins retain their browser settings." "" "" false
     [select_of "browser_channel" "Browser channel" (browserChannelOptions (ASBrowserChannel value));
      number_of "default_timeout_ms" "Action timeout (milliseconds)" (number (ASDefaultTimeoutMS value)) "1000" "120000" "1000";
      full_width (ticked (ASHeadless value) (field_of "headless" "Run without a visible browser window" "checkbox" (Text "")))]].

(** The preferences of a lake.  The choice of a pass that is not supported is shown too. *)
Definition nth_pass (settings : LakeSettings) (i : nat) : string :=
  from_option PassType_string "" (default [] (LSPreferredPasses settings) !! i).
Definition pass_labels : list string := ["First choice"; "Second choice"; "Third choice"].
Definition pass_name (i : nat) : string := "pass_priority_" +:+ format_int (Z.of_nat (i + 1)).
Definition lake_pass_field (lake : Lake) (settings : LakeSettings) (i : nat) (label : string) : formField :=
  let selected := nth_pass settings i in
  let supported := String.eqb selected "" || bool_decide (selected ∈ SupportedPasses lake) in
  select_of (pass_name i) label
    (((λ pass, MkOption pass (passOptionLabel pass) (String.eqb pass selected)) <$> SupportedPasses lake)
     ++ [MkOption "" "None" (String.eqb selected "")]
     ++ if supported then [] else [MkOption selected "Unsupported choice — select a pass" true])%list.
Definition lakeSettingsSections (lake : Lake) (value : LakeSettings) : list formSection :=
  [MkSection "Vehicle selection" "" "" "" false
     [helped "A unique name or licence plate that matches a vehicle saved in your booking account."
        (full_width (field_of "vehicle_keyword" "Vehicle keyword" "text" (Text (LSVehicleKeyword value))))];
   MkSection "Release schedule" "When passes become available for this lake. Queued visits keep their saved schedule." "" "" false
     [mandatory true (field_of "timezone" "Timezone" "text" (Text (LSTimezone value)));
      mandatory true (field_of "release_time" "Release time" "time" (Text (LSReleaseTime value)));
      helped "Use 0 when passes release on the visit date."
        (number_of "release_days_before" "Days before your visit" (Text (format_int (LSReleaseDaysBefore value))) "0" "365" "1")];
   MkSection "Pass preferences" "Default order for new requests. Choose None to skip a slot." "form-grid-pass-preferences" "" false
     (imap (lake_pass_field lake value) pass_labels);
   MkSection "Booking site URLs" "Use paths on a booking site approved by your operator." "" "" true
     [field_of "all_day_pass_url" "All-day pass URL" "url" (Text (LSAllDayPassURL value));
      field_of "half_day_pass_url" "Half-day pass URL" "url" (Text (LSHalfDayPassURL value))]].
(** A form that was posted keeps its choices too, the empty ones among them. *)
Definition posted_choice (posted : string → string) (f : formField) : formField :=
  if String.eqb (FF_Type f) "select" then
    let selected := posted (FF_Name f) in
    let options := (λ o, MkOption (SO_Value o) (SO_Label o) (String.eqb (SO_Value o) selected)) <$> FF_Options f in
    with_options (options ++ if existsb SO_Selected options then []
                             else [MkOption selected "Unsupported choice — select a pass" true])%list f
  else f.

(** The source of codes; [bbURL], [twilioTo] and [twilioSender] are what the stored
    configuration or the posted form say. *)
Definition sourceSections (creating : bool) (provider name bbURL twilioTo twilioSender : string) : list formSection :=
  [MkSection "Source details" "" "" "" false
     [mandatory true (select_of "provider" "Provider"
        [MkOption "bluebubbles" "BlueBubbles" (String.eqb provider "bluebubbles");
         MkOption "twilio" "Twilio" (String.eqb provider "twilio")]);
      helped "A name you will recognize when choosing your default inbox."
        (mandatory true (field_of "name" "Source name" "text" (Text name)))];
   MkSection "BlueBubbles"
     "Use the server that receives your Messages. Saved passwords stay hidden; leave the password blank to keep it when editing this provider."
     "" "bluebubbles" false
     [helped "Use the server root. Re-enter the password if you change this address."
        (hinted "http://bluebubbles.example:1234" (field_of "bb_base_url" "Server URL" "url" (Text bbURL)));
      hinted (secretPlaceholder creating) (field_of "bb_password" "Server password" "password" (Text ""))];
   MkSection "Twilio"
     "Only incoming messages are read. Saved credentials stay hidden; leave them blank to keep them when editing this provider. Changing providers requires new credentials."
     "" "twilio" false
     [hinted "+15550100123" (field_of "twilio_to_number" "Receiving number" "tel" (Text twilioTo));
      helped "Limit codes to this sender. Leave blank to keep the saved sender when editing."
        (field_of "twilio_sender" "Expected sender (optional)" "text" (Text twilioSender));
      hinted (secretPlaceholder creating) (field_of "twilio_account_sid" "Account SID" "password" (Text ""));
      hinted (secretPlaceholder creating) (field_of "twilio_auth_token" "Auth token" "password" (Text ""))]].
Definition profileSections (creating : bool) (name : string) (enabled : bool) : list formSection :=
  [MkSection "Account details" "" "" "" false
     [helped "Use a name you’ll recognize when choosing a booking account."
        (mandatory true (field_of "name" "Sign-in name" "text" (Text name)));
      helped (if creating
              then "Enter the 10-digit Canadian or US mobile number you use with Yodel. A leading +1 is accepted."
              else "Leave blank to keep your saved mobile number. Enter a new number only to replace it.")
        (hinted (if creating then "Enter mobile number" else secretPlaceholder false)
           (mandatory creating (field_of "yodel_phone" "Mobile phone number" "password" (Text ""))));
      helped "Allow this account to sign in and run booking jobs."
        (full_width (ticked enabled (field_of "enabled" "Enable this sign-in" "checkbox" (Text ""))))]].

(** One choice of a booking: [selected] is the saved one, or the one posted. *)
Definition booking_pass_field (lake : Lake) (selected : nat → string) (i : nat) (label : string) : formField :=
  let chosen := selected i in
  select_of (pass_name i) label
    (((λ pass, MkOption pass (passOptionLabel pass) (String.eqb chosen pass)) <$> SupportedPasses lake)
     ++ (if negb (String.eqb chosen "") && negb (bool_decide (chosen ∈ SupportedPasses lake))
         then [MkOption chosen ("Unsupported choice: " +:+ chosen) true] else [])
     ++ [MkOption "" "None" (String.eqb chosen "")])%list.

(** The form of a source or a sign-in; its problem is the one of the page. *)
Record formData := MkForm {
  FM_HiddenFields : list (string * string); FM_SubmitHelp : string; FM_SubmitDisabled : bool; FM_Eyebrow : string;
  FM_Heading : string; FM_Description : string; FM_CancelURL : string; FM_ActionURL : string; FM_SubmitLabel : string;
  FM_Sections : list formSection; FM_SourceSelection : bool }.
Definition submit_blocked (help : string) (f : formData) : formData :=
  MkForm (FM_HiddenFields f) help true (FM_Eyebrow f) (FM_Heading f) (FM_Description f) (FM_CancelURL f) (FM_ActionURL f)
    (FM_SubmitLabel f) (FM_Sections f) (FM_SourceSelection f).

(** ** What every page carries *)

Record Flash := MkFlash { FL_Kind : string; FL_Message : string; FL_ActionLabel : string; FL_ActionURL : string }.
Record BaseData := MkBase {
  BD_Title : string; BD_Authenticated : bool; BD_Username : string; BD_IsAdmin : bool; BD_CSRFToken : string;
  BD_CurrentPath : string; BD_Flash : option Flash }.
Definition with_flash (f : Flash) (b : BaseData) : BaseData :=
  MkBase (BD_Title b) (BD_Authenticated b) (BD_Username b) (BD_IsAdmin b) (BD_CSRFToken b) (BD_CurrentPath b) (Some f).
Definition message_of (code : string) (messages : list (string * string)) : option string :=
  snd <$> List.find (λ m, String.eqb m.1 code) messages.
Definition noticeFor (code : string) : option Flash :=
  if String.eqb code "otp-default-updated" then
    Some (MkFlash "success" "Default OTP source updated. Already queued jobs keep their original source." "" "")
  else if String.eqb code "lake-defaults-reset" then
    Some (MkFlash "success" "Lake defaults reset. Existing Yodel sign-ins and queued jobs keep their saved settings." "" "")
  else (λ message, MkFlash "error" message "" "") <$> message_of code
    [("preview-read-only", "This action is unavailable in the sample preview. You can test queueing from Bookings; other changes belong in your main app.");
     ("queue-full", "This account has reached its job limit. Review existing jobs before starting another.");
     ("provider-unavailable", "The OTP source connection test failed. Check its server address and credentials, and make sure the provider is running.");
     ("pairing-unavailable", "Pairing could not start. Check your account in the lake's Connection section, then try again.")].
Definition flashFor (value : string) : option Flash :=
  (λ message, MkFlash "success" message "" "") <$> message_of value
    [("created", "Saved successfully."); ("updated", "Changes saved."); ("queued", "Job queued.");
     ("healthy", "Provider authentication succeeded."); ("cancelled", "Cancellation requested.");
     ("decided", "Decision sent to the waiting browser."); ("setup", "Administrator account created.");
     ("user-created", "User account created."); ("username-changed", "Username changed. Use the new username the next time you sign in.");
     ("user-updated", "User access updated."); ("user-password", "Temporary password set and existing sessions revoked.");
     ("user-deleted", "Member account and database records were deleted; managed local files were reconciled.");
     ("user-deleted-cleanup", "Member account and database records were deleted; managed local-file cleanup will retry automatically.")].

(** ** The data of a page

    The problem of a form is shown beside its data; the fixed headings of the lists are
    left out. *)
Record bookingLakeCard := MkLakeCard { BL_Lake : Lake; BL_Ready : bool; BL_Problem : string }.
Inductive page_data :=
  | AuthData (message username : string)
  | DashboardData (jobs : list jobRow) (connections : list lakeConnection) (count : nat) (visits : list dashboardBooking)
  | JobsData (jobs : list jobRow)
  | JobPage (job : jobData)
  | LakesData (configured : bool) (connections : list (lakeConnection * list labelValue))
  | LakeData (lake : Lake) (saved : bool) (provider : string) (of_connection : bool) (sections : list formSection)
      (connection : option lakeConnection) (notice : problem) (cards : list listCard)
  | SourcesData (cards : list listCard)
  | FormData (form : formData)
  | BookingsData (lakes : list bookingLakeCard)
  | QuickBookingData (lake : Lake) (account todo : string) (visit passes : formSection) (confirmation : string)
  | SettingsData (sections : list formSection)
  | NetworkData (enabled : bool) (hosts current managed : string)
  | AccountData (username : string) (password_required : bool)
  | UserData (heading description username : string) (id : Z) (creating enabled deletable : bool)
  | UsersData (users : list userRow).
