(* ===== verification/Http.v ===== *)
(** * Requests and answers (what internal/web uses of [net/http])

    A request is its parsed parts, an answer its status, its body as far as the handlers
    decide it, the cookies it sets and when to retry.  A handler runs in a monad over the
    state of the server that an answer ends.  The admission of event streams
    (src/internal/web: streams.go) is part of that state. *)

From S2P Require Import Prelude GoStrings GoTime Domain Database.
From S2P Require Import Hub Worker Views.
From Stdlib Require Import Ascii String.

Open Scope Z_scope.

(** ** Requests *)

Notation pairs := (list (string * string)).
(** [RqPath] is the path split at its slashes, every segment unescaped; header names are
    canonical; [RqPosted] is the body of the form, unless it or the query is malformed or
    the body too large. *)
Record Request := MkRequest {
  RqMethod : string; RqPath : list string; RqHost : string; RqRemoteAddr : string; RqTLS : bool;
  RqHeader : pairs; RqCookies : pairs; RqQuery : pairs; RqPosted : option pairs }.

Definition values_of (name : string) (l : pairs) : list string := (filter (λ kv, kv.1 = name) l).*2.
Definition first_value (name : string) (l : pairs) : string := default "" (head (values_of name l)).
Definition HeaderGet (r : Request) (name : string) : string := first_value name (RqHeader r).
Definition QueryGet (r : Request) (name : string) : string := first_value name (RqQuery r).
(** [r.Form] after [ParseForm]: the posted values go before those of the query. *)
Definition Form (r : Request) : pairs := (default [] (RqPosted r) ++ RqQuery r)%list.
Definition FormGet (r : Request) (name : string) : string := first_value name (Form r).
Definition FormHas (r : Request) (name : string) : bool := negb (is_nil (values_of name (Form r))).
Definition url_path (segments : list string) : string := "/" +:+ join "/" segments.
(** [GET], [HEAD] and, for the check of tokens, [OPTIONS]. *)
Definition reading_method (m : string) : bool := bool_decide (m ∈ ["GET"; "HEAD"]).
Definition safe_method (m : string) : bool := bool_decide (m ∈ ["GET"; "HEAD"; "OPTIONS"]).

(** [strings.Trim] of a set of bytes. *)
Fixpoint drop_any (chars s : string) : string :=
  match s with
  | EmptyString => EmptyString
  | String c s' => if any_byte (Ascii.eqb c) chars then drop_any chars s' else s
  end.
Definition trim_any (chars s : string) : string := rev_string (drop_any chars (rev_string (drop_any chars s))).
(** [strings.FieldsFunc] of a set of bytes. *)
Fixpoint split_any (chars s : string) : list string :=
  match s with
  | EmptyString => [EmptyString]
  | String c s' =>
      if any_byte (Ascii.eqb c) chars then EmptyString :: split_any chars s'
      else match split_any chars s' with h :: t => String c h :: t | [] => [String c EmptyString] end
  end.
Definition fields_any (chars s : string) : list string := filter (λ f, f ≠ "") (split_any chars s).

(** [%x] of a string. *)
Definition hex_byte (c : ascii) : string :=
  let digit (n : nat) := String (byte (if (n <? 10)%nat then 48 + n else 87 + n)) EmptyString in
  digit (nat_of_ascii c / 16)%nat +:+ digit (nat_of_ascii c mod 16)%nat.
Fixpoint hex_of (s : string) : string := match s with EmptyString => EmptyString | String c s' => hex_byte c +:+ hex_of s' end.
Example hex_text : hex_of (bytes [0; 10; 171; 255]%nat) = "000aabff".
Proof. reflexivity. Qed.

(** ** Answers *)

(** The attributes that are the same for every cookie (path, [HttpOnly], strict same-site)
    are left out; a negative age deletes. *)
Record Cookie := MkCookie { CkName : string; CkValue : string; CkMaxAge : Z; CkSecure : bool }.
(** What an event stream is opened with: the account, the job, the time zone of its labels,
    the last event the client has and the session. *)
Record streamStart := MkStart { ss_user : Z; ss_job : Z; ss_location : Location; ss_after : Z; ss_token : string }.
Inductive body :=
  | PlainError (message : string)
  | Page (name : string) (common : BaseData) (shown : problem) (data : page_data)
  | Frontend
  | Redirect (target : string)
  | Navigation (target : string)
  | EventStream (start : streamStart)
  | NoBody.
Record answer := MkAnswer { AnStatus : Z; AnBody : body }.
Record Response := MkResponse { RsAnswer : answer; RsCookies : list Cookie; RsRetryAfter : string }.

Definition StatusOK : Z := 200.
Definition StatusNoContent : Z := 204.
Definition StatusSeeOther : Z := 303.
Definition StatusBadRequest : Z := 400.
Definition StatusUnauthorized : Z := 401.
Definition StatusForbidden : Z := 403.
Definition StatusNotFound : Z := 404.
Definition StatusMethodNotAllowed : Z := 405.
Definition StatusConflict : Z := 409.
Definition StatusUnprocessableEntity : Z := 422.
Definition StatusTooManyRequests : Z := 429.
Definition StatusInternalServerError : Z := 500.
Definition StatusServiceUnavailable : Z := 503.
Definition http_Error (message : string) (status : Z) : answer := MkAnswer status (PlainError message).

(** ** Event streams *)

Definition maxStreamsPerUser : Z := 8.
Definition maxStreams : Z := 128.
Record streamAdmission := MkStreams { st_total : Z; st_users : gmap Z Z }.
Definition user_streams (userID : Z) (a : streamAdmission) : Z := default 0 (st_users a !! userID).
Definition acquire (userID : Z) (a : streamAdmission) : option streamAdmission :=
  if (userID <=? 0) || (maxStreams <=? st_total a) || (maxStreamsPerUser <=? user_streams userID a) then None
  else Some (MkStreams (st_total a + 1) (<[userID := user_streams userID a + 1]> (st_users a))).
(** The release of one acquisition, which runs once. *)
Definition release (userID : Z) (a : streamAdmission) : streamAdmission :=
  let n := user_streams userID a - 1 in
  MkStreams (st_total a - 1) (if n =? 0 then delete userID (st_users a) else <[userID := n]> (st_users a)).

(** ** Handlers *)

(** The state behind the server: the engine, whether a login is running, the accounts a
    password change is running for, and the open event streams. *)
Record server := MkServer {
  sv_engine : engineState; sv_login_busy : bool; sv_account_busy : gset Z; sv_streams : streamAdmission }.
Definition sv_db (s : server) : db := e_db (sv_engine s).
Definition with_sv_engine (e : engineState) (s : server) : server := MkServer e (sv_login_busy s) (sv_account_busy s) (sv_streams s).
Definition with_login_busy (b : bool) (s : server) : server := MkServer (sv_engine s) b (sv_account_busy s) (sv_streams s).
Definition with_account_busy (f : gset Z → gset Z) (s : server) : server :=
  MkServer (sv_engine s) (sv_login_busy s) (f (sv_account_busy s)) (sv_streams s).
Definition change_streams (f : streamAdmission → streamAdmission) (s : server) : server :=
  MkServer (sv_engine s) (sv_login_busy s) (sv_account_busy s) (f (sv_streams s)).

Record exchange := MkExchange { x_server : server; x_cookies : list Cookie; x_retry : string }.
Definition with_server (s : server) (x : exchange) : exchange := MkExchange s (x_cookies x) (x_retry x).
Inductive flow (A : Type) := Go (a : A) | Stop (a : answer).
Arguments Go {A}.
Arguments Stop {A}.
Definition web (A : Type) : Type := exchange → exchange * flow A.
#[global] Instance web_ret : MRet web := λ A a x, (x, Go a).
#[global] Instance web_bind : MBind web := λ A B f m x,
  match m x with (x, Go a) => f a x | (x, Stop a) => (x, Stop a) end.

Definition stop {A} (a : answer) : web A := λ x, (x, Stop a).
Definition stop_if (b : bool) (a : answer) : web unit := if b then stop a else mret tt.
Definition engine_call {A} (m : ST engineState A) : web (result A) := λ x,
  let '(e, r) := m (sv_engine (x_server x)) in (with_server (with_sv_engine e (x_server x)) x, Go r).
(** A store call: its effect stays, its error is a value. *)
Definition store_call {A} (m : ST db A) : web (result A) := λ x,
  let '(s, r) := m (sv_db (x_server x)) in
  (with_server (with_sv_engine (with_db s (sv_engine (x_server x))) (x_server x)) x, Go r).
Definition add_cookie (k : Cookie) : web unit := λ x, (MkExchange (x_server x) (x_cookies x ++ [k])%list (x_retry x), Go tt).
Definition retry_after (seconds : string) : web unit := λ x, (MkExchange (x_server x) (x_cookies x) seconds, Go tt).
Definition change_server (f : server → server) : web unit := λ x, (with_server (f (x_server x)) x, Go tt).
Definition ask_server {A} (f : server → A) : web A := λ x, (x, Go (f (x_server x))).
(** [defer]: runs however the rest ends. *)
Definition deferring {A} (release : server → server) (m : web A) : web A := λ x,
  let '(x', out) := m x in (with_server (release (x_server x')) x', out).
(** A handler returns its answer at its end too. *)
Definition respond_with (m : web answer) (s : server) : server * Response :=
  let '(x, out) := m (MkExchange s [] "") in
  (x_server x, MkResponse (match out with Go a => a | Stop a => a end) (x_cookies x) (x_retry x)).
