(* ===== verification/Stream.v ===== *)
(** * The event stream of a job (src/internal/web: jobs.go, streams.go)

    One stream: what it writes to its client, in which order, and when it ends.  Everything
    else runs while a stream waits, so each of its reads meets a database of its own, and
    each of its writes its own answer of the transport. *)

From S2P Require Import Prelude GoStrings GoTime Json Auth Domain Database JobStore EventStore AccountStore.
From S2P Require Import Hub Worker Storage Views Http.
From Stdlib Require Import Ascii String.

Open Scope Z_scope.

Definition streamWriteTimeout : Duration := 5 * Second.
Definition pollInterval : Duration := 2 * Second.

(** ** What a stream writes *)

(** [IdLine] is a job event whose second write failed. *)
Inductive frame :=
  | JobEventFrame (e : JobEvent) | IdLine (id : Z) | StateFrame (job : Job) | CompleteFrame
  | AuthExpiredFrame | LiveFrame (e : LiveEvent) | KeepaliveFrame.

Section text.
Context (location : Location).

Definition newline : string := bytes [10%nat].
Definition writeSSE_text (event : string) (data : json) : string :=
  "event: " +:+ event +:+ newline +:+ "data: " +:+ Marshal data +:+ newline +:+ newline.
Definition id_line (id : Z) : string := "id: " +:+ format_int id +:+ newline.
Definition job_event_json (e : JobEvent) : json :=
  JObject [("id", JNumber (format_int (EID e))); ("time", JString (format_event_time location (ECreatedAt e)));
           ("type", JString (EKind e)); ("message", JString (EMessage e))].
Definition job_state_json (job : Job) : json :=
  JObject [("message", JString (jobDisplayMessage job location)); ("label", JString (jobStatusLabel job));
           ("class_name", JString (statusClass (JStatus job))); ("status", JString (JobStatus_string (JStatus job)));
           ("started", JString (formatOptionalJobTime (JStartedAt job) location));
           ("finished", JString (formatOptionalJobTime (JFinishedAt job) location));
           ("confirmation_started", JString (formatOptionalJobTime (JConfirmationStartedAt job) location));
           ("can_cancel", JBool (negb (Terminal (JStatus job))));
           ("awaiting_approval", JBool (bool_decide (JStatus job = JobAwaitingApproval)));
           ("terminal", JBool (Terminal (JStatus job)))].
Definition frame_text (f : frame) : string :=
  match f with
  | JobEventFrame e => id_line (EID e) +:+ writeSSE_text "job_event" (job_event_json e)
  | IdLine id => id_line id
  | StateFrame job => writeSSE_text "state" (job_state_json job)
  | CompleteFrame => writeSSE_text "complete" (JObject [])
  | AuthExpiredFrame => writeSSE_text "auth_expired" (JObject [])
  | LiveFrame e => writeSSE_text (LKind e) (LData e)
  | KeepaliveFrame => ": keepalive" +:+ newline +:+ newline
  end.
End text.

(** ** The state of a stream *)

(** What the accesses of a stream meet, each in its order: a database or the failure of the
    call (a cancelled request), the clock, the transport. *)
Record moments := MkMoments { m_db : nat → result db; m_now : nat → Time; m_wire : nat → result unit }.
Record eventsState := MkEvents {
  es_after : Z; es_terminalObservedAt : Time; es_out : list frame; es_reads : nat; es_clocks : nat; es_writes : nat }.
Definition stream_start (after : Z) : eventsState := MkEvents after zero_time [] 0 0 0.

Section stream.
Context `{Hashes} (env : moments) (uid id : Z) (token : string).
Notation stream := (ST eventsState).

Definition read {A} (m : ST db A) : stream A := λ st,
  (MkEvents (es_after st) (es_terminalObservedAt st) (es_out st) (S (es_reads st)) (es_clocks st) (es_writes st),
   s ← m_db env (es_reads st); (m s).2).
Definition now : stream Time := λ st,
  (MkEvents (es_after st) (es_terminalObservedAt st) (es_out st) (es_reads st) (S (es_clocks st)) (es_writes st),
   Ok (m_now env (es_clocks st))).
(** One operation of the transport; the frames are there when it succeeds. *)
Definition wire (frames : list frame) : stream unit := λ st,
  let answer := m_wire env (es_writes st) in
  (MkEvents (es_after st) (es_terminalObservedAt st)
     (es_out st ++ match answer with Ok _ => frames | Err _ => [] end)%list
     (es_reads st) (es_clocks st) (S (es_writes st)), answer).
Definition set_after (after : Z) : stream unit :=
  modify (λ st, MkEvents after (es_terminalObservedAt st) (es_out st) (es_reads st) (es_clocks st) (es_writes st)).
Definition set_observed (t : Time) : stream unit :=
  modify (λ st, MkEvents (es_after st) t (es_out st) (es_reads st) (es_clocks st) (es_writes st)).
(** A deadline is set before a batch, the batch is flushed, the deadline is cleared. *)
Definition batch (write : stream unit) : stream unit :=
  _ ← wire []; _ ← write; _ ← wire []; wire [].

(** Two writes: the id, then the event. *)
Definition write_event (e : JobEvent) : stream unit := λ st,
  match wire [] st with
  | (st1, Err x) => (st1, Err x)
  | (st1, Ok _) =>
      match m_wire env (es_writes st1) with
      | Ok _ => wire [JobEventFrame e] st1
      | Err x =>
          (MkEvents (es_after st1) (es_terminalObservedAt st1) (es_out st1 ++ [IdLine (EID e)])%list
             (es_reads st1) (es_clocks st1) (S (es_writes st1)), Err x)
      end
  end.
Fixpoint write_events (events : list JobEvent) : stream unit :=
  match events with
  | [] => mret tt
  | e :: rest => _ ← write_event e; _ ← set_after (EID e); write_events rest
  end.
Definition event_batch : nat := 100.
(** Batches until one is not full. *)
Fixpoint deliver (fuel : nat) : stream unit :=
  match fuel with
  | O => fail (Errorf "more full batches than the fuel allows")
  | S fuel =>
      after ← gets es_after;
      events ← read (ListJobEvents uid id after (Z.of_nat event_batch));
      _ ← write_events events;
      if (List.length events <? event_batch)%nat then mret tt else deliver fuel
  end.

Definition streamAuthorized : stream bool :=
  t ← now; found ← attempt (read (GetSession token t)); mret (is_ok found).
Definition expireStream : stream unit := _ ← attempt (batch (wire [AuthExpiredFrame])); mret tt.
(** A finished job ends the stream once its last event had the time to be written. *)
Definition finished_by (completed : bool) (job : Job) : stream bool :=
  if negb (Terminal (JStatus job)) then mret false
  else
    observed ← gets es_terminalObservedAt;
    _ ← (if IsZero observed then t ← now; set_observed t else mret tt);
    if completed then mret true
    else observed ← gets es_terminalObservedAt; t ← now; mret (2 * pollInterval <=? Sub t observed).
(** Whether the stream ends. *)
Definition writeSnapshot (fuel : nat) (completed : bool) : stream bool :=
  authorized ← streamAuthorized;
  if negb authorized then _ ← expireStream; mret true
  else
    found ← attempt (read (GetJob uid id));
    match found with
    | Err _ => mret true
    | Ok job =>
        finished ← finished_by completed job;
        written ← attempt (batch (
          _ ← deliver fuel;
          _ ← wire [StateFrame job];
          if finished then wire [CompleteFrame] else mret tt));
        mret (finished || negb (is_ok written))
    end.

(** ** The life of a stream *)

(** What the stream wakes up for; a closed channel carries no event. *)
Inductive wake := Gone | Live (event : option LiveEvent) | Poll | Keepalive.
Definition shown_live (e : LiveEvent) : bool := bool_decide (LKind e ∈ ["otp"; "pairing"]).
(** An authorised write of one frame; whether the stream ends. *)
Definition guarded_write (f : frame) : stream bool :=
  authorized ← streamAuthorized;
  if negb authorized then _ ← expireStream; mret true
  else written ← attempt (batch (wire [f])); mret (negb (is_ok written)).
Definition serve_wake (fuel : nat) (w : wake) : stream bool :=
  match w with
  | Gone => mret true
  | Live None => mret true
  | Live (Some event) =>
      if shown_live event then guarded_write (LiveFrame event)
      else
        authorized ← streamAuthorized;
        if negb authorized then _ ← expireStream; mret true
        else writeSnapshot fuel (String.eqb (LKind event) "complete")
  | Poll => writeSnapshot fuel false
  | Keepalive => guarded_write KeepaliveFrame
  end.
Fixpoint watch (fuel : nat) (wakes : list wake) : stream bool :=
  match wakes with
  | [] => mret false
  | w :: rest => ended ← serve_wake fuel w; if (ended : bool) then mret true else watch fuel rest
  end.
(** The first snapshot, then the wakes so far; the value tells whether the stream ended. *)
Definition stream_events (fuel : nat) (wakes : list wake) : stream bool :=
  ended ← writeSnapshot fuel false;
  if (ended : bool) then mret true else watch fuel wakes.

(** The whole answer: a transport without deadlines is refused, and the end of a stream has a
    deadline of its own.  A stream whose wakes are used up is still open. *)
Inductive stream_end := StreamUnavailable | StreamEnded | StillOpen.
Definition jobEvents (fuel : nat) (wakes : list wake) : stream stream_end :=
  ready ← attempt (wire []);
  if negb (is_ok ready) then mret StreamUnavailable
  else
    ended ← stream_events fuel wakes;
    if (ended : bool) then _ ← attempt (wire []); mret StreamEnded else mret StillOpen.
End stream.

(** ** Around a stream

    The subscription of the hub begins with the stream; when it ends, the subscription and
    the place among the streams of the account are given back. *)

Definition with_hub (h : Hub.Hub) (s : server) : server :=
  let e := sv_engine s in with_sv_engine (MkEngine (e_db e) h (e_active e)) s.
Definition enter_stream (start : streamStart) (t : Time) (s : server) : server * nat :=
  let '(h, ch) := Subscribe (format_int (ss_job start)) t (e_hub (sv_engine s)) in (with_hub h s, ch).
Definition leave_stream (start : streamStart) (ch : nat) (s : server) : server :=
  change_streams (release (ss_user start))
    (with_hub (Unsubscribe (format_int (ss_job start)) ch (e_hub (sv_engine s))) s).
