(* ===== verification/StreamProperties.v ===== *)
(** * What an event stream guarantees (src/internal/web: jobs.go, streams.go)

    A client that follows a stream sees every event of its job once and in order, whatever
    runs in between; a stream ends with its session; its batches end. *)

From S2P Require Import Prelude GoStrings GoTime Json Auth Domain Database JobStore EventStore AccountStore.
From S2P Require Import JobInvariants JobOperations JobHistory JobLemmas AccountInvariants System SystemInvariants SystemHistory.
From S2P Require Import Secrets Samples SystemSamples Scheduler Origin ResourceStore ProfileStore SettingsStore AccountStore Isolation Hub Worker Storage Views Http Stream.
From Stdlib Require Import Ascii String.

Open Scope Z_scope.

(** ** The log of a job *)

Definition by_id (a b : JobEvent) : Prop := EID a < EID b.
Definition event_of (uid id : Z) (e : JobEvent) : Prop := EJobID e = id ∧ EUserID e = uid.
(** What the log of the job holds beyond an id, oldest first. *)
Definition log_after (uid id after : Z) (s : db) : list JobEvent :=
  filter (λ e, after < EID e) (select (λ e, (EJobID e =? id) && (negb (0 <? uid) || (EUserID e =? uid))) (events s)).*2.

Section log.
Context (uid id : Z) (Huid : 0 < uid) (s : db) (Hs : db_inv s).

Lemma elem_of_log after e :
  e ∈ log_after uid id after s ↔ events s !! EID e = Some e ∧ event_of uid id e ∧ after < EID e.
Proof using Hs Huid.
  unfold log_after, event_of. rewrite list_elem_of_filter, elem_of_select_rows.
  rewrite (proj2 (Z.ltb_lt 0 uid)) by done. cbn [negb orb]. split.
  - intros [Hlt (k & Hk & Hp)]. destruct (inv_event _ Hs k e Hk) as [[<- _] _]. by bool_to_prop.
  - intros (Hk & [Hj Hu] & Hlt). split; [done|]. exists (EID e). split; [done|]. apply andb_true_iff. by rewrite !Z.eqb_eq.
Qed.
Lemma log_sorted after : StronglySorted by_id (log_after uid id after s).
Proof using Hs.
  unfold log_after. set (l := select _ _).
  assert (StronglySorted (λ a b : Z * JobEvent, a.1 < b.1) l) as Hl by apply select_sorted.
  assert (∀ k e, (k, e) ∈ l → EID e = k) as Hkey.
  { intros k e Hin. apply elem_of_select in Hin as [Hin _]. by destruct (inv_event _ Hs k e Hin) as [[? _] _]. }
  clearbody l. induction l as [|[k a] l IH]; simpl; [constructor|]. apply StronglySorted_inv in Hl as [Hl Hall].
  assert (StronglySorted by_id (filter (λ e, after < EID e) l.*2)) as Hrest by (apply IH; [done|intros; apply Hkey; by right]).
  rewrite filter_cons. case_decide; [|done]. constructor; [done|]. apply Forall_forall. intros e Hin.
  apply list_elem_of_filter in Hin as [_ ([k' e'] & -> & Hin)%list_elem_of_fmap].
  rewrite Forall_forall in Hall. specialize (Hall _ Hin). unfold by_id. simpl in *.
  rewrite (Hkey k a) by left. rewrite (Hkey k' e') by (by right). done.
Qed.
Lemma listed_events after s' events : ListJobEvents uid id after (Z.of_nat event_batch) s = (s', Ok events) →
  events = take event_batch (log_after uid id after s).
Proof using Huid.
  unfold ListJobEvents. rewrite ST_bind_unfold. unfold st_reject, reject, lift. rewrite (proj2 (Z.leb_gt uid 0)) by done. cbn.
  rewrite ST_bind_unfold. destruct (GetJob uid id s) as [? [?|?]] eqn:Hg; [|done].
  assert (d = s) as -> by (pose proof (GetJob_reading uid id s) as Hr; by rewrite Hg in Hr).
  by intros [= _ <-].
Qed.
End log.

(** ** Reasoning about a stream *)

Fixpoint delivered (out : list frame) : list JobEvent :=
  match out with
  | [] => []
  | JobEventFrame e :: rest => e :: delivered rest
  | _ :: rest => delivered rest
  end.
Lemma delivered_app l1 l2 : delivered (l1 ++ l2) = (delivered l1 ++ delivered l2)%list.
Proof. induction l1 as [|f l1 IH]; [done|]. destruct f; cbn; by rewrite IH. Qed.

Section stream.
Context `{Hashes} (env : moments) (uid id : Z) (token : string).
Notation stream := (ST eventsState).

(** From a state in [P] a step goes on in [Q], or fails in [I]. *)
Definition ensures {A} (I P : eventsState → Prop) (m : stream A) (Q : A → eventsState → Prop) : Prop :=
  ∀ st, P st → match m st with (st', Ok a) => Q a st' | (st', Err _) => I st' end.

Section rules.
Context (I : eventsState → Prop).
Notation ensures := (ensures I).

Lemma ensures_ret {A} (P : eventsState → Prop) (Q : A → eventsState → Prop) a : (∀ st, P st → Q a st) → ensures P (mret a) Q.
Proof. intros HPQ st. apply HPQ. Qed.
Lemma ensures_fail {A} (P : eventsState → Prop) e (Q : A → eventsState → Prop) : (∀ st, P st → I st) → ensures P (fail e) Q.
Proof. intros HPI st. apply HPI. Qed.
Lemma ensures_bind {A B} P (m : stream A) Q (f : A → stream B) R :
  ensures P m Q → (∀ a, ensures (Q a) (f a) R) → ensures P (m ≫= f) R.
Proof.
  intros Hm Hf st Hst. rewrite ST_bind_unfold. specialize (Hm st Hst). destruct (m st) as [st1 [a|e]]; [|done].
  exact (Hf a st1 Hm).
Qed.
Lemma ensures_weaken {A} (P P' : eventsState → Prop) (m : stream A) (Q Q' : A → eventsState → Prop) :
  ensures P' m Q' → (∀ st, P st → P' st) → (∀ a st, Q' a st → Q a st) → ensures P m Q.
Proof. intros Hm HP HQ st Hst. specialize (Hm st (HP st Hst)). destruct (m st) as [st1 [a|e]]; [by apply HQ|done]. Qed.
Lemma ensures_if {A} P (b : bool) (m1 m2 : stream A) Q : ensures P m1 Q → ensures P m2 Q → ensures P (if b then m1 else m2) Q.
Proof. by destruct b. Qed.
Lemma ensures_attempt {A} P (m : stream A) (Q : result A → eventsState → Prop) :
  ensures P m (λ a, Q (Ok a)) → (∀ e st, I st → Q (Err e) st) → ensures P (attempt m) Q.
Proof. intros Hm HQ st Hst. unfold attempt. specialize (Hm st Hst). destruct (m st) as [st1 [a|e]]; [done|by apply HQ]. Qed.
Lemma ensures_preserves {A} (m : stream A) : ensures I m (λ _, I) → preserves I m.
Proof. intros Hm st Hst. specialize (Hm st Hst). by destruct (m st) as [st1 [a|e]]. Qed.
End rules.

(** ** What the rest writes *)

(** Neither an event nor the state of the job. *)
Definition quiet_frame (f : frame) : Prop := match f with JobEventFrame _ | StateFrame _ => False | _ => True end.
Record quiet_step (st st' : eventsState) : Prop := {
  qs_after : es_after st' = es_after st;
  qs_out : ∃ l, Forall quiet_frame l ∧ es_out st' = (es_out st ++ l)%list;
  qs_reads : (es_reads st ≤ es_reads st')%nat
}.
#[local] Instance quiet_step_preorder : PreOrder quiet_step.
Proof.
  split.
  - intros st. split; [done| |done]. exists []. by rewrite app_nil_r.
  - intros st1 st2 st3 [Ha12 (l & Hl & Ho12) Hr12] [Ha23 (l' & Hl' & Ho23) Hr23]. split; [congruence| |lia].
    exists (l ++ l')%list. split; [by apply Forall_app|]. by rewrite Ho23, Ho12, app_assoc.
Qed.
Notation quiet m := (∀ st0, preserves (quiet_step st0) m).

Lemma quiet_one {A} (m : stream A) : (∀ st, quiet_step st (m st).1) → quiet m.
Proof. intros Hm st0 st Hst. etrans; [exact Hst|apply Hm]. Qed.
Lemma read_quiet {A} (m : ST db A) : quiet (read env m).
Proof. apply quiet_one. intros st. split; cbn; [done| |lia]. exists []. by rewrite app_nil_r. Qed.
Lemma now_quiet : quiet (now env).
Proof. apply quiet_one. intros st. split; cbn; [done| |lia]. exists []. by rewrite app_nil_r. Qed.
Lemma set_observed_quiet t : quiet (set_observed t).
Proof. apply quiet_one. intros st. split; cbn; [done| |lia]. exists []. by rewrite app_nil_r. Qed.
Lemma wire_quiet frames : Forall quiet_frame frames → quiet (wire env frames).
Proof.
  intros Hf. apply quiet_one. intros st. split; cbn; [done| |lia]. eexists. split; [|done]. by destruct (m_wire env _).
Qed.
Lemma attempt_quiet {A} (m : stream A) : quiet m → quiet (attempt m).
Proof. intros Hm st0 st Hst. specialize (Hm st0 st Hst). unfold attempt. by destruct (m st). Qed.
Lemma batch_quiet m : quiet m → quiet (batch env m).
Proof.
  intros Hm st0. unfold batch. repeat (apply preserves_bind; [first [by apply Hm|by apply wire_quiet]|intros _]). by apply wire_quiet.
Qed.
#[local] Hint Resolve read_quiet now_quiet set_observed_quiet attempt_quiet : preserves.

Lemma streamAuthorized_quiet : quiet (streamAuthorized env token).
Proof. intros st0. unfold streamAuthorized. auto with preserves. Qed.
Lemma expireStream_quiet : quiet (expireStream env).
Proof.
  intros st0. unfold expireStream. apply preserves_bind; [|auto with preserves].
  apply attempt_quiet, batch_quiet, wire_quiet. by repeat constructor.
Qed.
Lemma finished_by_quiet completed job : quiet (finished_by env completed job).
Proof.
  intros st0. unfold finished_by. apply preserves_if; [auto with preserves|]. apply preserves_bind; [auto with preserves|].
  intros observed. apply preserves_bind; [destruct (IsZero observed); auto with preserves|]. intros _.
  destruct completed; auto 10 with preserves.
Qed.
Lemma guarded_write_quiet f : quiet_frame f → quiet (guarded_write env token f).
Proof.
  intros Hf st0. unfold guarded_write. apply preserves_bind; [apply streamAuthorized_quiet|]. intros authorized.
  apply preserves_if; apply preserves_bind; auto using expireStream_quiet with preserves.
  apply attempt_quiet, batch_quiet, wire_quiet. by repeat constructor.
Qed.

(** ** A stream over a history of the database *)

Section served.
Context (dbs : nat → db) (cursor : Z) (Huid : 0 < uid).
Context (Hdbs : ∀ i s, m_db env i = Ok s → s = dbs i) (Hinv : ∀ i, db_inv (dbs i)).
Context (Hgrows : ∀ i j, (i ≤ j)%nat → log_grows (dbs i) (dbs j)).
Notation mine := (event_of uid id).

(** A client that has seen [pre] and the cursor has seen the log of a moment up to [bound]. *)
Definition seen_until (i : nat) (bound : option Z) (pre : list frame) : Prop :=
  ∀ k e, events (dbs i) !! k = Some e → mine e → cursor < k → from_option (λ b, k < b) True bound → e ∈ delivered pre.
(** The state of the job comes after every event of a later moment than the state. *)
Definition up_to_date (job : Job) (pre : list frame) : Prop :=
  ∃ i j, (i ≤ j)%nat ∧ (GetJob uid id (dbs i)).2 = Ok job ∧ seen_until j None pre.
Definition in_turn (pre : list frame) (f : frame) : Prop :=
  match f with
  | JobEventFrame e =>
      mine e ∧ cursor < EID e ∧ ∃ i, events (dbs i) !! EID e = Some e ∧ seen_until i (Some (EID e)) pre
  | StateFrame job => up_to_date job pre
  | _ => True
  end.
Definition in_order (out : list frame) : Prop := ∀ pre f post, out = (pre ++ f :: post)%list → in_turn pre f.

Lemma in_order_snoc out f : in_order out → in_turn out f → in_order (out ++ [f])%list.
Proof using Type.
  intros Hout Hf pre g post Heq. destruct post as [|h post _] using rev_ind.
  - apply app_inj_tail in Heq as [<- <-]. done.
  - rewrite app_comm_cons, app_assoc in Heq. apply app_inj_tail in Heq as [-> _]. by apply (Hout pre g post).
Qed.
Lemma in_order_quiet out l : in_order out → Forall quiet_frame l → in_order (out ++ l)%list.
Proof using Type.
  intros Hout Hl. revert out Hout. induction Hl as [|f l Hf Hl IH]; intros out Hout; [by rewrite app_nil_r|].
  rewrite cons_middle, app_assoc. apply IH, in_order_snoc; [done|]. by destruct f.
Qed.
Lemma delivered_quiet l : Forall quiet_frame l → delivered l = [].
Proof using Type. induction 1 as [|f l Hf Hl IH]; [done|]. by destruct f. Qed.

Record served (st : eventsState) : Prop := {
  sv_sorted : StronglySorted by_id (delivered (es_out st));
  sv_last : ∀ e, e ∈ delivered (es_out st) → EID e <= es_after st;
  sv_start : cursor <= es_after st;
  sv_known : ∀ i k e, (es_reads st ≤ S i)%nat → events (dbs i) !! k = Some e → mine e → cursor < k <= es_after st →
    e ∈ delivered (es_out st);
  sv_order : in_order (es_out st)
}.
Lemma served_quiet st st' : served st → quiet_step st st' → served st'.
Proof using Type.
  intros [H1 H2 H3 H4 H5] [Ha (l & Hl & Ho) Hr].
  assert (delivered (es_out st') = delivered (es_out st)) as Hd by (by rewrite Ho, delivered_app, (delivered_quiet l Hl), app_nil_r).
  split; rewrite ?Hd, ?Ha; [done..| |].
  - intros i k e Hi. apply H4. lia.
  - rewrite Ho. by apply in_order_quiet.
Qed.
Lemma served_start : served (stream_start cursor).
Proof using Type.
  split; cbn; [constructor|by intros e Hin%elem_of_nil|lia|intros; lia|].
  intros pre f post Heq. by destruct pre.
Qed.

(** *** Events *)

Lemma write_event_step e st :
  match write_event env e st with
  | (st', Ok _) => es_after st' = es_after st ∧ es_out st' = (es_out st ++ [JobEventFrame e])%list ∧ es_reads st' = es_reads st
  | (st', Err _) => quiet_step st st'
  end.
Proof using Type.
  unfold write_event, wire. cbn. destruct (m_wire env (es_writes st)) as [[]|x]; cbn.
  - destruct (m_wire env (S (es_writes st))) as [[]|x]; cbn; rewrite app_nil_r; [done|]. split; [done| |done].
    exists [IdLine (EID e)]. by repeat constructor.
  - split; [done| |done]. exists []. by rewrite app_nil_r.
Qed.
(** The event [e] of the moment [r] is next. *)
Lemma served_event st st' r e :
  served st → es_reads st = S r → events (dbs r) !! EID e = Some e → mine e → es_after st < EID e →
  (∀ k e', events (dbs r) !! k = Some e' → mine e' → es_after st < k → EID e <= k) →
  es_after st' = EID e → es_out st' = (es_out st ++ [JobEventFrame e])%list → es_reads st' = es_reads st → served st'.
Proof using Hinv Hgrows.
  intros [H1 H2 H3 H4 H5] Hr He Hmine Hlt Hnext Ha Ho Hreads.
  assert (delivered (es_out st') = (delivered (es_out st) ++ [e])%list) as Hd by (by rewrite Ho, delivered_app).
  assert (∀ k e', events (dbs r) !! k = Some e' → mine e' → cursor < k < EID e → e' ∈ delivered (es_out st)) as Hbefore.
  { intros k e' Hk Hm [Hc Hb]. destruct (Z.le_gt_cases k (es_after st)) as [Hle|Hgt].
    - apply (H4 r k e'); [lia|done..].
    - specialize (Hnext k e' Hk Hm Hgt). lia. }
  split; rewrite ?Hd, ?Ha, ?Hreads.
  - apply StronglySorted_app. split_and!; [|done|by repeat constructor]. intros e1 e2 H1in H2in%list_elem_of_singleton.
    subst e2. specialize (H2 e1 H1in). unfold by_id. lia.
  - intros e' [Hin|Hin%list_elem_of_singleton]%elem_of_app; [specialize (H2 e' Hin); lia|subst e'; lia].
  - lia.
  - intros i k e' Hi Hk Hm [Hc Hb]. rewrite elem_of_app, list_elem_of_singleton.
    assert (events (dbs r) !! k = Some e') as Hkr.
    { destruct (Hgrows r i) as [_ Hold]; [lia|]. apply Hold; [done|]. destruct (inv_event _ (Hinv r) _ _ He) as [[_ ?] _]. lia. }
    destruct (decide (k = EID e)) as [->|Hne]; [right; congruence|]. left. apply (Hbefore k e'); [done..|lia].
  - rewrite Ho. apply in_order_snoc; [done|]. split_and!; [done|lia|]. exists r. split; [done|].
    intros k e' Hk Hm Hc Hb. by apply (Hbefore k e').
Qed.

(** The log of the moment [r] from [es_after] on is [l]. *)
Definition from_log (r : nat) (l : list JobEvent) (st : eventsState) : Prop :=
  StronglySorted by_id l ∧ ∀ e, e ∈ l ↔ events (dbs r) !! EID e = Some e ∧ mine e ∧ es_after st < EID e.
Lemma from_log_tail r e l st st' : from_log r (e :: l) st → es_after st' = EID e → from_log r l st'.
Proof using Type.
  intros [[Hall Hs]%StronglySorted_cons Hl] Ha. rewrite Forall_forall in Hall. split; [done|]. intros e'. rewrite Ha. split.
  - intros Hin. destruct (proj1 (Hl e') ltac:(by right)) as (? & ? & ?). split_and!; [done..|]. by apply Hall.
  - intros (Hk & Hm & Hlt). destruct (proj1 (Hl e) ltac:(by left)) as (_ & _ & Hlow).
    assert (e' ∈ e :: l) as [->|Hin]%elem_of_cons by (apply Hl; split_and!; [done..|lia]); [lia|done].
Qed.
Lemma write_events_ensures r todo rest : ensures served
  (λ st, served st ∧ es_reads st = S r ∧ from_log r (todo ++ rest)%list st) (write_events env todo)
  (λ _ st, served st ∧ es_reads st = S r ∧ from_log r rest st).
Proof using Hinv Hgrows.
  induction todo as [|e todo IH]; intros st (Hst & Hr & Hl); [done|]. cbn [write_events].
  rewrite ST_bind_unfold. pose proof (write_event_step e st) as Hstep.
  destruct (write_event env e st) as [st1 [[]|x]]; [|by eapply served_quiet]. destruct Hstep as (Ha & Ho & Hr1).
  rewrite ST_bind_unfold. cbn [set_after modify]. set (st2 := MkEvents (EID e) _ _ _ _ _).
  destruct (proj1 (proj2 Hl e) ltac:(by left)) as (He & Hm & Hlt).
  apply (IH st2). split_and!; [|by cbn; rewrite Hr1|by eapply from_log_tail].
  eapply (served_event st st2 r e); try done.
  intros k e' Hk Hm' Hgt. destruct (inv_event _ (Hinv r) k e' Hk) as [[<- _] _].
  assert (e' ∈ (e :: todo) ++ rest)%list as [->|Hin]%elem_of_cons by (by apply Hl); [lia|].
  destruct Hl as [[Hall _]%StronglySorted_cons _]. rewrite Forall_forall in Hall. specialize (Hall e' Hin). unfold by_id in Hall. lia.
Qed.

(** *** Batches *)

(** The job was read at an earlier moment. *)
Definition job_read (job : Job) (st : eventsState) : Prop :=
  served st ∧ ∃ i, (i < es_reads st)%nat ∧ (GetJob uid id (dbs i)).2 = Ok job.
Definition complete (job : Job) (st : eventsState) : Prop := served st ∧ up_to_date job (es_out st).
Lemma job_read_quiet job st st' : job_read job st → quiet_step st st' → job_read job st'.
Proof using Type.
  intros [Hst (i & Hi & Hj)] Hq. split; [by eapply served_quiet|]. exists i. split; [|done]. pose proof (qs_reads _ _ Hq). lia.
Qed.

Lemma deliver_ensures fuel job : ensures served (job_read job) (deliver env uid id fuel) (λ _, complete job).
Proof using Huid Hdbs Hinv Hgrows.
  induction fuel as [|fuel IH]; intros st [Hst (i & Hi & Hj)]; [done|]. cbn [deliver]. rewrite ST_bind_unfold. cbn [gets].
  rewrite ST_bind_unfold. unfold read at 1. cbv beta iota zeta. set (r := es_reads st).
  set (st1 := MkEvents (es_after st) _ _ (S r) _ _).
  assert (served st1) as Hst1.
  { eapply served_quiet; [exact Hst|]. split; [done| |cbn; lia]. exists []. by rewrite app_nil_r. }
  destruct (m_db env r) as [s|x] eqn:Hs; [|done]. apply Hdbs in Hs as ->.
  change (mbind ?f (Ok ?s)) with (f s). cbv beta.
  destruct (ListJobEvents uid id (es_after st) (Z.of_nat event_batch) (dbs r)) as [s' [evs|x]] eqn:Hlist; [|done]. cbn [snd].
  apply listed_events in Hlist as ->; [|done]. set (log := log_after uid id (es_after st) (dbs r)).
  rewrite ST_bind_unfold.
  assert (from_log r (take event_batch log ++ drop event_batch log)%list st1) as Hlog.
  { rewrite take_drop. split; [by apply log_sorted|]. intros e. unfold log. by rewrite elem_of_log. }
  pose proof (write_events_ensures r _ _ st1 (conj Hst1 (conj eq_refl Hlog))) as Hw.
  destruct (write_events env (take event_batch log) st1) as [st2 [[]|x]]; [|done]. destruct Hw as (Hst2 & Hr2 & Hrest).
  destruct (Nat.ltb_spec (List.length (take event_batch log)) event_batch) as [Hshort|Hfull].
  - split; [done|]. exists i, r. split_and!; [lia|done|]. intros k e Hk Hm Hc _.
    destruct (Z.le_gt_cases k (es_after st2)) as [Hle|Hgt]; [apply (sv_known _ Hst2 r k); [lia|done..]|].
    rewrite length_take in Hshort. rewrite drop_ge in Hrest by lia. destruct Hrest as [_ Hnone].
    destruct (inv_event _ (Hinv r) k e Hk) as [[<- _] _]. exfalso.
    apply (not_elem_of_nil e), Hnone. by split_and!.
  - apply (IH st2). split; [done|]. exists i. split; [lia|done].
Qed.

(** *** Snapshots *)

Lemma quiet_ensures {A} (P : eventsState → Prop) (m : stream A) : quiet m →
  (∀ st st', P st → quiet_step st st' → P st') → (∀ st, P st → served st) → ensures served P m (λ _, P).
Proof using Type.
  intros Hm Hstable HP st Hst. assert (P (m st).1) as Hst' by (eapply Hstable; [exact Hst|by apply Hm]).
  destruct (m st) as [st' [a|x]]; [done|by apply HP].
Qed.
Lemma quiet_served {A} (m : stream A) : quiet m → ensures served served m (λ _, served).
Proof using Type. intros Hm. by apply quiet_ensures; [|exact served_quiet|]. Qed.
Lemma read_job_ensures : ensures served served (attempt (read env (GetJob uid id)))
  (λ r, match r with Ok job => job_read job | Err _ => served end).
Proof using Hdbs.
  intros st Hst. unfold attempt, read. set (st' := MkEvents _ _ _ _ _ _).
  assert (served st') as Hst'.
  { eapply served_quiet; [exact Hst|]. split; [done| |cbn; lia]. exists []. by rewrite app_nil_r. }
  destruct (m_db env (es_reads st)) as [s|x] eqn:Hs; [|done]. apply Hdbs in Hs as ->.
  change (mbind ?f (Ok ?s)) with (f s). cbv beta. destruct (GetJob uid id (dbs (es_reads st))).2 as [job|x] eqn:Hj; [|done].
  split; [done|]. exists (es_reads st). split; [cbn; lia|done].
Qed.
Lemma state_ensures job : ensures served (complete job) (wire env [StateFrame job]) (λ _, served).
Proof using Type.
  intros st [Hst Hup]. unfold wire. destruct (m_wire env (es_writes st)) as [[]|x].
  - destruct Hst as [H1 H2 H3 H4 H5]. split; cbn; rewrite ?delivered_app; cbn; rewrite ?app_nil_r; [done..|]. by apply in_order_snoc.
  - eapply served_quiet; [exact Hst|]. split; [done| |done]. by exists [].
Qed.
Lemma batch_ensures job finished fuel : ensures served (job_read job)
  (batch env (_ ← deliver env uid id fuel; _ ← wire env [StateFrame job];
    if (finished : bool) then wire env [CompleteFrame] else mret tt)) (λ _, served).
Proof using Huid Hdbs Hinv Hgrows.
  assert (∀ st, job_read job st → served st) as Hserved by (by intros st []).
  unfold batch. eapply ensures_bind; [apply quiet_ensures; [by apply wire_quiet|apply job_read_quiet|done]|]. intros [].
  apply ensures_bind with (Q := λ _, served);
    [|intros []; eapply ensures_bind; [by apply quiet_served, wire_quiet|intros []; by apply quiet_served, wire_quiet]].
  eapply ensures_bind; [apply deliver_ensures|]. intros []. eapply ensures_bind; [apply state_ensures|]. intros [].
  apply ensures_if; [apply quiet_served, wire_quiet; by repeat constructor|by apply ensures_ret].
Qed.

Lemma writeSnapshot_ensures fuel completed : ensures served served (writeSnapshot env uid id token fuel completed) (λ _, served).
Proof using Huid Hdbs Hinv Hgrows.
  unfold writeSnapshot. eapply ensures_bind; [apply quiet_served, streamAuthorized_quiet|]. intros authorized.
  apply ensures_if.
  { eapply ensures_bind; [apply quiet_served, expireStream_quiet|]. intros []. by apply ensures_ret. }
  eapply ensures_bind; [apply read_job_ensures|]. intros [job|x]; [|by apply ensures_ret].
  eapply ensures_bind; [apply quiet_ensures; [apply finished_by_quiet|apply job_read_quiet|by intros st []]|]. intros finished.
  apply ensures_bind with (Q := λ _, served); [|intros written; by apply ensures_ret].
  apply ensures_attempt; [apply batch_ensures|done].
Qed.
Lemma serve_wake_ensures fuel w : ensures served served (serve_wake env uid id token fuel w) (λ _, served).
Proof using Huid Hdbs Hinv Hgrows.
  destruct w as [|[event|]| |]; cbn [serve_wake]; try by apply ensures_ret.
  - apply ensures_if; [by apply quiet_served, guarded_write_quiet|].
    eapply ensures_bind; [apply quiet_served, streamAuthorized_quiet|]. intros authorized.
    apply ensures_if; [|apply writeSnapshot_ensures].
    eapply ensures_bind; [apply quiet_served, expireStream_quiet|]. intros []. by apply ensures_ret.
  - apply writeSnapshot_ensures.
  - by apply quiet_served, guarded_write_quiet.
Qed.
Lemma watch_ensures fuel wakes : ensures served served (watch env uid id token fuel wakes) (λ _, served).
Proof using Huid Hdbs Hinv Hgrows.
  induction wakes as [|w wakes IH]; cbn [watch]; [by apply ensures_ret|].
  eapply ensures_bind; [apply serve_wake_ensures|]. intros ended. apply ensures_if; [by apply ensures_ret|done].
Qed.
Lemma stream_ensures fuel wakes : ensures served served (stream_events env uid id token fuel wakes) (λ _, served).
Proof using Huid Hdbs Hinv Hgrows.
  unfold stream_events. eapply ensures_bind; [apply writeSnapshot_ensures|]. intros ended.
  apply ensures_if; [by apply ensures_ret|apply watch_ensures].
Qed.
Lemma jobEvents_served fuel wakes : served (jobEvents env uid id token fuel wakes (stream_start cursor)).1.
Proof using Huid Hdbs Hinv Hgrows.
  apply ensures_preserves; [|apply served_start]. unfold jobEvents.
  eapply ensures_bind; [by apply quiet_served, attempt_quiet, wire_quiet|]. intros ready. apply ensures_if; [by apply ensures_ret|].
  eapply ensures_bind; [apply stream_ensures|]. intros ended. apply ensures_if; [|by apply ensures_ret].
  eapply ensures_bind; [by apply quiet_served, attempt_quiet, wire_quiet|]. intros written. by apply ensures_ret.
Qed.
End served.

Create HintDb quiet_stream.

(** ** Batches end *)

Section fuel.
Context (bound : Z) (Hbound : 0 <= bound) (Huid : 0 < uid).
Context (Hdb : ∀ i s, m_db env i = Ok s → db_inv s ∧ next_event s <= bound).

Definition nonneg (st : eventsState) : Prop := 0 <= es_after st.
Lemma nonneg_quiet {A} (m : stream A) : quiet m → preserves nonneg m.
Proof using Type. intros Hm st Hst. unfold nonneg. by rewrite (qs_after _ _ (Hm st st (reflexivity st))). Qed.
Lemma write_events_last evs st st' : write_events env evs st = (st', Ok tt) → es_after st' = from_option EID (es_after st) (last evs).
Proof using Type.
  revert st. induction evs as [|e evs IH]; intros st; cbn [write_events]; [by intros [= <-]|]. rewrite ST_bind_unfold.
  pose proof (write_event_step e st) as Hstep. destruct (write_event env e st) as [st1 [[]|x]]; [|done].
  rewrite ST_bind_unfold. cbn [set_after modify]. intros ->%IH. rewrite last_cons. cbn. by destruct (last evs).
Qed.
Lemma write_events_nonneg evs : Forall (λ e, 0 <= EID e) evs → preserves nonneg (write_events env evs).
Proof using Type.
  induction 1 as [|e evs He _ IH]; cbn [write_events]; [auto with preserves|]. intros st Hst. rewrite ST_bind_unfold.
  pose proof (write_event_step e st) as Hstep. destruct (write_event env e st) as [st1 [[]|x]].
  - rewrite ST_bind_unfold. cbn [set_after modify]. by apply IH.
  - unfold nonneg. cbn. by rewrite (qs_after _ _ Hstep).
Qed.

(** What a batch reads: ids beyond the cursor, in order, below the bound. *)
Lemma read_batch st st' evs : read env (ListJobEvents uid id (es_after st) (Z.of_nat event_batch)) st = (st', Ok evs) →
  es_after st' = es_after st ∧ StronglySorted by_id evs ∧ Forall (λ e, es_after st < EID e < bound) evs.
Proof using Hdb Huid.
  unfold read. intros [= <- Hl]. split; [done|]. destruct (m_db env (es_reads st)) as [s|x] eqn:Hs; [|done].
  apply Hdb in Hs as [Hinv Hnext]. change (mbind ?f (Ok ?s)) with (f s) in Hl. cbv beta in Hl.
  destruct (ListJobEvents uid id (es_after st) (Z.of_nat event_batch) s) as [s' r] eqn:Hlist. cbn [snd] in Hl. subst r.
  apply listed_events in Hlist as ->; [|done]. split.
  - pose proof (log_sorted uid id s Hinv (es_after st)) as Hsort. rewrite <- (take_drop event_batch) in Hsort.
    by apply StronglySorted_app in Hsort as (_ & Hsort & _).
  - apply Forall_forall. intros e Hin.
    assert (e ∈ log_after uid id (es_after st) s) as Hlog by (eapply elem_of_sublist; [exact Hin|apply sublist_take]).
    apply elem_of_log in Hlog as (Hk & _ & Hlt); [|done..].
    destruct (inv_event _ Hinv _ _ Hk) as [[_ ?] _]. lia.
Qed.
Lemma sorted_last (l : list JobEvent) low e : StronglySorted by_id l → Forall (λ e, low < EID e) l → last l = Some e →
  low + Z.of_nat (List.length l) <= EID e.
Proof using Type.
  revert low. induction l as [|a l IH]; intros low Hs Hl Hlast; [done|].
  apply StronglySorted_cons in Hs as [Hall Hs]. apply Forall_cons in Hl as [Ha Hl]. destruct l as [|b l].
  - injection Hlast as ->. cbn. lia.
  - specialize (IH (low + 1)). cbn [List.length] in *. rewrite last_cons_cons in Hlast.
    assert (Forall (λ e, low + 1 < EID e) (b :: l)) as Hl'; [|specialize (IH Hs Hl' Hlast); lia].
    eapply Forall_impl; [exact Hall|]. unfold by_id. intros. lia.
Qed.

Definition agree {A} (m m' : stream A) : Prop := ∀ st, nonneg st → m st = m' st.
Lemma agree_refl {A} (m : stream A) : agree m m.
Proof using Type. done. Qed.
Lemma agree_bind {A B} (m m' : stream A) (f f' : A → stream B) :
  agree m m' → preserves nonneg m → (∀ a, agree (f a) (f' a)) → agree (m ≫= f) (m' ≫= f').
Proof using Type.
  intros Hm Hn Hf st Hst. rewrite !ST_bind_unfold, <- (Hm st Hst). specialize (Hn st Hst). destruct (m st) as [st1 [a|x]]; [|done].
  by apply Hf.
Qed.
Lemma agree_attempt {A} (m m' : stream A) : agree m m' → agree (attempt m) (attempt m').
Proof using Type. intros Hm st Hst. unfold attempt. by rewrite (Hm st Hst). Qed.

Lemma deliver_agree fuel fuel' st : nonneg st → bound - es_after st < 100 * Z.of_nat fuel → bound - es_after st < 100 * Z.of_nat fuel' →
  (0 < fuel)%nat → (0 < fuel')%nat → deliver env uid id fuel st = deliver env uid id fuel' st.
Proof using Hdb Huid.
  revert fuel' st. induction fuel as [|fuel IH]; intros fuel' st Hst Hf Hf' Hpos Hpos'; [lia|].
  destruct fuel' as [|fuel']; [lia|]. cbn [deliver]. rewrite !(ST_bind_unfold (gets _)). cbn [gets].
  rewrite !(ST_bind_unfold (read _ _)). destruct (read env _ st) as [st1 [evs|x]] eqn:Hr; [|done].
  apply read_batch in Hr as (Ha & Hsort & Hall). rewrite !(ST_bind_unfold (write_events _ _)).
  assert (nonneg (write_events env evs st1).1) as Hn.
  { apply write_events_nonneg; [|unfold nonneg; by rewrite Ha]. eapply Forall_impl; [exact Hall|]. unfold nonneg in Hst. intros e ?. cbn in *. lia. }
  destruct (write_events env evs st1) as [st2 [[]|x]] eqn:Hw; [|done]. apply write_events_last in Hw.
  destruct (Nat.ltb_spec (List.length evs) event_batch) as [|Hfull]; [done|]. unfold event_batch in Hfull.
  destruct (last evs) as [e|] eqn:Hlast; [|apply last_None in Hlast as ->; cbn in Hfull; lia]. cbn in Hw.
  assert (es_after st + Z.of_nat (List.length evs) <= EID e) as Hrise.
  { apply sorted_last; [done| |done]. eapply Forall_impl; [exact Hall|]. cbn. intros. lia. }
  assert (EID e < bound) as Hlow by (rewrite Forall_forall in Hall; apply Hall, last_Some_elem_of; exact Hlast).
  apply IH; [exact Hn|lia..].
Qed.

Lemma deliver_nonneg fuel : preserves nonneg (deliver env uid id fuel).
Proof using Hdb Huid.
  induction fuel as [|fuel IH]; [exact (preserves_fail _ _)|]. intros st Hst. cbn [deliver].
  rewrite (ST_bind_unfold (gets _)). cbn [gets]. rewrite (ST_bind_unfold (read _ _)).
  pose proof (nonneg_quiet _ (read_quiet (ListJobEvents uid id (es_after st) (Z.of_nat event_batch))) st Hst) as Hn.
  destruct (read env _ st) as [st1 [evs|x]] eqn:Hr; [|done]. apply read_batch in Hr as (Ha & _ & Hall).
  assert (preserves nonneg (_ ← write_events env evs; if (List.length evs <? event_batch)%nat then mret tt else deliver env uid id fuel)) as Hrest.
  { apply preserves_bind; [apply write_events_nonneg|intros []; by apply preserves_if; [auto with preserves|]].
    eapply Forall_impl; [exact Hall|]. unfold nonneg in Hst. intros e ?. cbn in *. lia. }
  by apply Hrest.
Qed.

Lemma batch_nonneg m : preserves nonneg m → preserves nonneg (batch env m).
Proof using Type.
  intros Hm. unfold batch. repeat (apply preserves_bind; [first [by apply nonneg_quiet, wire_quiet|exact Hm]|intros []]).
  by apply nonneg_quiet, wire_quiet.
Qed.
Lemma attempt_nonneg {A} (m : stream A) : preserves nonneg m → preserves nonneg (attempt m).
Proof using Type. intros Hm st Hst. specialize (Hm st Hst). unfold attempt. by destruct (m st). Qed.
Lemma snapshot_nonneg fuel job finished : preserves nonneg (_ ← deliver env uid id fuel; _ ← wire env [StateFrame job];
  if (finished : bool) then wire env [CompleteFrame] else mret tt).
Proof using Hdb Huid.
  apply preserves_bind; [apply deliver_nonneg|]. intros []. apply preserves_bind; [by intros st Hst|]. intros [].
  apply preserves_if; [apply nonneg_quiet, wire_quiet; by repeat constructor|auto with preserves].
Qed.
#[local] Hint Resolve streamAuthorized_quiet expireStream_quiet finished_by_quiet read_quiet attempt_quiet guarded_write_quiet : quiet_stream.
#[local] Hint Extern 1 (quiet_frame _) => exact I : quiet_stream.
Ltac still_nonneg := solve [apply nonneg_quiet; auto with quiet_stream].
Lemma writeSnapshot_nonneg fuel completed : preserves nonneg (writeSnapshot env uid id token fuel completed).
Proof using Hdb Huid.
  unfold writeSnapshot. apply preserves_bind; [still_nonneg|]. intros [|]; cbn [negb].
  - apply preserves_bind; [still_nonneg|]. intros [job|x]; [|auto with preserves].
    apply preserves_bind; [still_nonneg|]. intros finished. apply preserves_bind; [|auto with preserves].
    apply attempt_nonneg, batch_nonneg, snapshot_nonneg.
  - apply preserves_bind; [still_nonneg|auto with preserves].
Qed.
Lemma serve_wake_nonneg fuel w : preserves nonneg (serve_wake env uid id token fuel w).
Proof using Hdb Huid.
  destruct w as [|[event|]| |]; cbn [serve_wake]; try exact (preserves_ret _ _); [|apply writeSnapshot_nonneg|still_nonneg].
  apply preserves_if; [still_nonneg|]. apply preserves_bind; [still_nonneg|]. intros authorized.
  apply preserves_if; [|apply writeSnapshot_nonneg]. apply preserves_bind; [still_nonneg|auto with preserves].
Qed.

Lemma watch_nonneg fuel wakes : preserves nonneg (watch env uid id token fuel wakes).
Proof using Hdb Huid.
  induction wakes as [|w wakes IH]; cbn [watch]; [auto with preserves|].
  apply preserves_bind; [apply serve_wake_nonneg|]. intros ended. apply preserves_if; [auto with preserves|done].
Qed.
Lemma stream_nonneg fuel wakes : preserves nonneg (stream_events env uid id token fuel wakes).
Proof using Hdb Huid.
  unfold stream_events. apply preserves_bind; [apply writeSnapshot_nonneg|]. intros ended.
  apply preserves_if; [auto with preserves|apply watch_nonneg].
Qed.

Section two.
Context (fuel fuel' : nat) (Hfuel : bound < 100 * Z.of_nat fuel) (Hfuel' : bound < 100 * Z.of_nat fuel').

Lemma deliver_two : agree (deliver env uid id fuel) (deliver env uid id fuel').
Proof using Hdb Huid Hbound Hfuel Hfuel'. intros st Hst. unfold nonneg in Hst. apply deliver_agree; [done|lia..]. Qed.
Lemma batch_two m m' : agree m m' → preserves nonneg m → agree (batch env m) (batch env m').
Proof using Type.
  intros Hm Hn. unfold batch. apply agree_bind; [apply agree_refl|by apply nonneg_quiet, wire_quiet|]. intros [].
  apply agree_bind; [done..|]. intros []. apply agree_refl.
Qed.
Lemma writeSnapshot_two completed :
  agree (writeSnapshot env uid id token fuel completed) (writeSnapshot env uid id token fuel' completed).
Proof using Hdb Huid Hbound Hfuel Hfuel'.
  unfold writeSnapshot. apply agree_bind; [apply agree_refl|still_nonneg|]. intros [|]; cbn [negb]; [|apply agree_refl].
  apply agree_bind; [apply agree_refl|still_nonneg|]. intros [job|x]; [|apply agree_refl].
  apply agree_bind; [apply agree_refl|still_nonneg|]. intros finished.
  apply agree_bind; [|apply attempt_nonneg, batch_nonneg, snapshot_nonneg|intros written; apply agree_refl].
  apply agree_attempt, batch_two; [|apply snapshot_nonneg].
  apply agree_bind; [apply deliver_two|apply deliver_nonneg|intros []; apply agree_refl].
Qed.
Lemma serve_wake_two w : agree (serve_wake env uid id token fuel w) (serve_wake env uid id token fuel' w).
Proof using Hdb Huid Hbound Hfuel Hfuel'.
  destruct w as [|[event|]| |]; cbn [serve_wake]; try apply agree_refl; [|apply writeSnapshot_two].
  destruct (shown_live event); [apply agree_refl|]. apply agree_bind; [apply agree_refl|still_nonneg|].
  intros [|]; cbn [negb]; [apply writeSnapshot_two|apply agree_refl].
Qed.
Lemma watch_two wakes : agree (watch env uid id token fuel wakes) (watch env uid id token fuel' wakes).
Proof using Hdb Huid Hbound Hfuel Hfuel'.
  induction wakes as [|w wakes IH]; cbn [watch]; [apply agree_refl|].
  apply agree_bind; [apply serve_wake_two|apply serve_wake_nonneg|]. intros [|]; [apply agree_refl|done].
Qed.
Lemma stream_two wakes : agree (stream_events env uid id token fuel wakes) (stream_events env uid id token fuel' wakes).
Proof using Hdb Huid Hbound Hfuel Hfuel'.
  unfold stream_events. apply agree_bind; [apply writeSnapshot_two|apply writeSnapshot_nonneg|].
  intros [|]; [apply agree_refl|apply watch_two].
Qed.
Lemma jobEvents_two wakes : agree (jobEvents env uid id token fuel wakes) (jobEvents env uid id token fuel' wakes).
Proof using Hdb Huid Hbound Hfuel Hfuel'.
  unfold jobEvents. apply agree_bind; [apply agree_refl|by apply nonneg_quiet, attempt_quiet, wire_quiet|]. intros [[]|x]; [|apply agree_refl].
  cbn [is_ok negb]. apply agree_bind; [apply stream_two|apply stream_nonneg|]. intros ended. apply agree_refl.
Qed.
End two.
End fuel.

(** ** The end of a session *)

Section expired.
(** From the read [n] on, the session is not found. *)
Context (n : nat) (Hgone : ∀ i t, (n ≤ i)%nat → is_ok (s ← m_db env i; (GetSession token t s).2) = false).

Lemma streamAuthorized_gone st : (n ≤ es_reads st)%nat → ∃ st', streamAuthorized env token st = (st', Ok false) ∧ es_out st' = es_out st.
Proof using Hgone.
  intros Hn. unfold streamAuthorized. rewrite ST_bind_unfold. unfold now. rewrite ST_bind_unfold. unfold attempt, read. cbn.
  specialize (Hgone (es_reads st) (m_now env (es_clocks st)) Hn).
  destruct (m_db env (es_reads st) ≫= _) as [?|x]; [done|]. by eexists.
Qed.
Lemma batch_wire_out f st :
  es_out (batch env (wire env [f]) st).1 = es_out st ∨ es_out (batch env (wire env [f]) st).1 = (es_out st ++ [f])%list.
Proof using Type.
  unfold batch, wire, mbind, ST_bind. cbv beta iota zeta. cbn [es_writes es_out].
  destruct (m_wire env (es_writes st)) as [[]|x]; cbn; [|left; by rewrite app_nil_r].
  destruct (m_wire env (S (es_writes st))) as [[]|x]; cbn; [|left; by rewrite !app_nil_r].
  destruct (m_wire env (S (S (es_writes st)))) as [[]|x]; cbn; [|right; by rewrite !app_nil_r].
  destruct (m_wire env (S (S (S (es_writes st))))) as [[]|x]; cbn; right; by rewrite !app_nil_r.
Qed.
Lemma expireStream_out st : ∃ st', expireStream env st = (st', Ok tt) ∧
  (es_out st' = es_out st ∨ es_out st' = (es_out st ++ [AuthExpiredFrame])%list).
Proof using Type.
  unfold expireStream. rewrite ST_bind_unfold. unfold attempt. pose proof (batch_wire_out AuthExpiredFrame st) as Hout.
  destruct (batch env (wire env [AuthExpiredFrame]) st) as [st' r]. by exists st'.
Qed.
(** Whatever the stream wakes up for, it ends, and writes at most that the session expired. *)
Lemma gone_wake fuel w st : (n ≤ es_reads st)%nat → ∃ st', serve_wake env uid id token fuel w st = (st', Ok true) ∧
  (es_out st' = es_out st ∨ es_out st' = (es_out st ++ [AuthExpiredFrame])%list).
Proof using Hgone.
  intros Hn.
  assert (∀ m : stream bool, ∃ st', (authorized ← streamAuthorized env token;
    if negb authorized then _ ← expireStream env; mret true else m) st = (st', Ok true) ∧
    (es_out st' = es_out st ∨ es_out st' = (es_out st ++ [AuthExpiredFrame])%list)) as Hend.
  { intros m. destruct (streamAuthorized_gone st Hn) as (st1 & Hst1 & Ho). destruct (expireStream_out st1) as (st2 & Hst2 & Ho2).
    rewrite ST_bind_unfold, Hst1. cbn [negb]. rewrite ST_bind_unfold, Hst2. exists st2. by rewrite <- Ho. }
  destruct w as [|[event|]| |]; cbn [serve_wake]; [by exists st; auto| |by exists st; auto|apply Hend|apply Hend].
  destruct (shown_live event); apply Hend.
Qed.
End expired.
End stream.

(** ** The database as the stream meets it *)

(** Between two reads of a stream the store runs any operations. *)
Record meets `{AEAD} `{Hashes} `{TimeZoneDB} (env : moments) (dbs : nat → db) : Prop := {
  me_start : system_inv (dbs 0%nat);
  me_step : ∀ i, ∃ ops, dbs (S i) = run ops (dbs i);
  me_reads : ∀ i s, m_db env i = Ok s → s = dbs i
}.
Section meets.
Context `{AEAD} `{Hashes} `{TimeZoneDB} (env : moments) (dbs : nat → db) (Hmeets : meets env dbs).

Lemma meets_inv i : system_inv (dbs i).
Proof using Hmeets.
  induction i as [|i IH]; [apply Hmeets|]. destruct (me_step _ _ Hmeets i) as [ops ->]. by apply run_system_inv.
Qed.
Lemma meets_grows i j : (i ≤ j)%nat → log_grows (dbs i) (dbs j).
Proof using Hmeets.
  induction 1 as [|j _ IH]; [done|]. etrans; [exact IH|]. destruct (me_step _ _ Hmeets j) as [ops ->].
  eapply ev_log, run_evolves, meets_inv.
Qed.
End meets.

(** C17: a client misses no event and sees none twice.  For an account's event stream of a
    job that started after the event [cursor], whatever operations the store runs between
    any two reads of the stream, whatever it wakes up for and wherever a write or a read
    fails: the events it has written have increasing ids beyond the cursor and are events of
    that job and account; every event of the job that the log held when one was written, with
    an id between the cursor and that event's, was written before it, so the id of the last
    event is a cursor to go on from; and when it writes the state of the job, everything the
    log held at a moment after that state was written before. *)
Theorem stream_shows_every_event `{AEAD} `{Hashes} `{TimeZoneDB} env dbs uid id token cursor fuel wakes :
  0 < uid → meets env dbs →
  let out := es_out (jobEvents env uid id token fuel wakes (stream_start cursor)).1 in
  StronglySorted by_id (delivered out) ∧ in_order uid id dbs cursor out.
Proof.
  intros Huid Hm. cbv zeta.
  assert (served uid id dbs cursor (jobEvents env uid id token fuel wakes (stream_start cursor)).1) as Hs; [|by split; apply Hs].
  apply jobEvents_served; [done|apply Hm|intros i; by apply (meets_inv env dbs Hm i)|intros i j; by apply (meets_grows env dbs Hm)].
Qed.

(** C18: a stream ends with its session.  Once no read finds the session any more, whatever
    the stream wakes up for ends it, and it writes nothing after that but, at most, that the
    session expired: no event, no state of a job and no code. *)
Theorem stream_ends_with_its_session `{Hashes} env uid id token fuel w rest st :
  (∀ i t, (es_reads st ≤ i)%nat → is_ok (s ← m_db env i; (GetSession token t s).2) = false) →
  let '(st', ended) := watch env uid id token fuel (w :: rest) st in
  ended = Ok true ∧ (es_out st' = es_out st ∨ es_out st' = (es_out st ++ [AuthExpiredFrame])%list).
Proof.
  intros Hgone. cbn [watch]. rewrite ST_bind_unfold.
  destruct (gone_wake env uid id token (es_reads st) Hgone fuel w st (le_n _)) as (st' & -> & Hout). by split.
Qed.

(** The batches of a stream end.  While no read finds an event numbered [bound] or more,
    a hundred events at a time exhaust the log: every fuel beyond a hundredth of the bound
    gives the same stream, so none of its batches runs out of fuel. *)
Theorem stream_batches_end `{Hashes} env uid id token cursor bound fuel fuel' wakes :
  0 < uid → 0 <= cursor → 0 <= bound → (∀ i s, m_db env i = Ok s → db_inv s ∧ next_event s <= bound) →
  bound < 100 * Z.of_nat fuel → bound < 100 * Z.of_nat fuel' →
  jobEvents env uid id token fuel wakes (stream_start cursor) = jobEvents env uid id token fuel' wakes (stream_start cursor).
Proof. intros Huid Hc Hb Hdb Hf Hf'. by apply (jobEvents_two env uid id token bound). Qed.

(** ** How many streams are open *)

(** A stream is opened for an account, or one of its streams ends. *)
Inductive stream_use := OpenFor (uid : Z) | CloseFor (uid : Z).
Fixpoint remove_one (uid : Z) (l : list Z) : option (list Z) :=
  match l with
  | [] => None
  | v :: rest => if v =? uid then Some rest else cons v <$> remove_one uid rest
  end.
(** The admission with the accounts of the open streams. *)
Definition use_stream (x : streamAdmission * list Z) (use : stream_use) : streamAdmission * list Z :=
  match use with
  | OpenFor uid => match acquire uid x.1 with Some a => (a, uid :: x.2) | None => x end
  | CloseFor uid => match remove_one uid x.2 with Some opened => (release uid x.1, opened) | None => x end
  end.
Definition no_streams : streamAdmission := MkStreams 0 ∅.
Definition open_for (uid : Z) (opened : list Z) : Z := Z.of_nat (List.length (filter (.= uid) opened)).

Section admission.
Definition admitted (x : streamAdmission * list Z) : Prop :=
  st_total x.1 = Z.of_nat (List.length x.2) ∧ (∀ uid, user_streams uid x.1 = open_for uid x.2)
  ∧ st_total x.1 <= maxStreams ∧ ∀ uid, open_for uid x.2 <= maxStreamsPerUser.

Lemma remove_one_Some uid l rest : remove_one uid l = Some rest → l ≡ₚ uid :: rest.
Proof.
  revert rest. induction l as [|v l IH]; intros rest; [done|]. cbn [remove_one].
  destruct (Z.eqb_spec v uid) as [->|]; [by intros [= ->]|]. destruct (remove_one uid l) as [l'|]; [|done]. intros [= <-].
  rewrite (IH l' eq_refl). apply perm_swap.
Qed.
Lemma open_for_cons uid v l : open_for uid (v :: l) = open_for uid l + (if bool_decide (v = uid) then 1 else 0).
Proof. unfold open_for. rewrite filter_cons. case_bool_decide; case_decide; cbn [List.length]; naive_solver lia. Qed.
Lemma use_stream_admitted x use : admitted x → admitted (use_stream x use).
Proof.
  intros (Ht & Hu & Hmax & Hper). destruct x as [a opened]. cbn [fst snd] in *. destruct use as [uid|uid]; cbn [use_stream fst snd].
  - unfold acquire. destruct (_ || _) eqn:Hfull; [done|]. apply orb_false_iff in Hfull as [Hfull Hlimit].
    apply orb_false_iff in Hfull as [_ Htotal]. rewrite Z.leb_gt in *.
    assert (∀ v, user_streams v (MkStreams (st_total a + 1) (<[uid:=user_streams uid a + 1]> (st_users a))) = open_for v (uid :: opened)) as Hv.
    { intros v. rewrite open_for_cons, <- Hu. unfold user_streams. cbn. case_bool_decide as Hne.
      - subst v. by rewrite lookup_insert_eq.
      - rewrite lookup_insert_ne by done. lia. }
    split_and!; cbn [fst snd List.length st_total]; [lia|done|lia|]. intros v. rewrite open_for_cons. specialize (Hper v).
    case_bool_decide; [subst v; rewrite <- Hu|]; lia.
  - destruct (remove_one uid opened) as [rest|] eqn:Hrem; [|done]. apply remove_one_Some in Hrem.
    assert (∀ v, open_for v opened = open_for v (uid :: rest)) as Hperm by (intros v; unfold open_for; by rewrite Hrem).
    assert (List.length opened = S (List.length rest)) as Hlen by (by rewrite Hrem).
    split_and!; cbn [fst snd release st_total]; [lia| |lia|].
    + intros v. pose proof (Hperm v) as Hv. rewrite open_for_cons, <- Hu in Hv. unfold release, user_streams in *. cbn.
      case_bool_decide as Hne; [subst v|].
      * destruct (Z.eqb_spec (default 0 (st_users a !! uid) - 1) 0); [rewrite lookup_delete_eq|rewrite lookup_insert_eq]; cbn; lia.
      * destruct (Z.eqb_spec (default 0 (st_users a !! uid) - 1) 0); [rewrite lookup_delete_ne|rewrite lookup_insert_ne]; [lia|done..|lia|done].
    + intros v. specialize (Hper v). rewrite Hperm, open_for_cons in Hper. case_bool_decide; lia.
Qed.
End admission.

(** The open streams are counted exactly and bounded.  After any sequence of openings and
    ends of streams: the totals are those of the streams that are open, there are at most 128
    of them and 8 of one account, and the next opening is refused exactly when one of these
    bounds is reached or the account is none. *)
Theorem streams_are_bounded uses uid :
  let '(a, opened) := foldl use_stream (no_streams, []) uses in
  st_total a = Z.of_nat (List.length opened) ∧ user_streams uid a = open_for uid opened
  ∧ Z.of_nat (List.length opened) <= 128 ∧ open_for uid opened <= 8
  ∧ (acquire uid a = None ↔ uid <= 0 ∨ Z.of_nat (List.length opened) = 128 ∨ open_for uid opened = 8).
Proof.
  assert (admitted (foldl use_stream (no_streams, []) uses)) as Hx.
  { assert (admitted (no_streams, [])) as H0 by by split_and!. revert H0. generalize (no_streams, @nil Z) as x.
    induction uses as [|use uses IH]; intros x Hx; [done|]. by apply IH, use_stream_admitted. }
  destruct (foldl use_stream _ uses) as [a opened]. destruct Hx as (Ht & Hu & Hmax & Hper). cbn [fst snd] in *.
  specialize (Hper uid). unfold maxStreams, maxStreamsPerUser in *. split_and!; [done|done|lia|done|].
  unfold acquire, maxStreams, maxStreamsPerUser. rewrite Hu, Ht. destruct (_ || _) eqn:Hfull.
  - split; [intros _|done]. bool_to_prop. lia.
  - split; [done|]. bool_to_prop. lia.
Qed.

(** ** A stream over a concrete run

    The job of a member has one event when the stream starts and a second one before its
    second snapshot. *)

Definition sample_event (text : string) : op := OpSystemAppendJobEvent (MkEventInput 1 "info" "progress" text (JObject [])) t0.
Definition stream_token : string := NewSessionToken (bytes (seq 0 32)) "".
Definition streamed_ops : list op :=
  (setup_ops ++ [OpNewSession 1 (10 * Minute) (bytes (seq 0 32)) (bytes (seq 32 32)) t0; sample_enqueue_op 1 "2026-01-10";
                 sample_event "first"])%list.
Definition streamed_dbs (i : nat) : db :=
  let s := run streamed_ops empty_db in if (i <? 3)%nat then s else run [sample_event "second"] s.
Definition streamed : moments := MkMoments (λ i, Ok (streamed_dbs i)) (λ _, t0) (λ _, Ok tt).
Lemma streamed_meets : meets streamed streamed_dbs.
Proof.
  split; [apply reachable_inv, reachable_run| |by intros i s [= <-]].
  intros i. unfold streamed_dbs. cbv zeta. generalize (run streamed_ops empty_db). intros s.
  destruct (Nat.ltb_spec (S i) 3), (Nat.ltb_spec i 3); [by exists []|lia|by exists [sample_event "second"]|by exists []].
Qed.
Lemma stream_shows_every_event_witness :
  let out := es_out (jobEvents streamed 1 1 stream_token 1 [Poll] (stream_start 0)).1 in
  0 < 1 ∧ (EID <$> delivered out) = [1; 2] ∧ List.length out = 4%nat ∧ meets streamed streamed_dbs
  ∧ StronglySorted by_id (delivered out) ∧ in_order 1 1 streamed_dbs 0 out.
Proof.
  cbv zeta. split; [lia|]. split; [vm_compute; reflexivity|]. split; [vm_compute; reflexivity|]. split; [exact streamed_meets|].
  exact (stream_shows_every_event streamed streamed_dbs 1 1 stream_token 0 1 [Poll] eq_refl streamed_meets).
Defined.

(** The same without the session. *)
Definition signed_out : moments := MkMoments (λ _, Ok setup_db) (λ _, t0) (λ _, Ok tt).
Lemma signed_out_session i t : is_ok (s ← m_db signed_out i; (GetSession stream_token t s).2) = false.
Proof.
  cbn [signed_out m_db]. change (mbind ?f (Ok ?s)) with (f s). cbv beta. unfold GetSession. rewrite ST_bind_unfold. cbn [gets].
  assert (sessions setup_db !! HashToken stream_token = None) as -> by (vm_compute; reflexivity). done.
Qed.
Lemma stream_ends_with_its_session_witness :
  (∀ i t, (0 ≤ i)%nat → is_ok (s ← m_db signed_out i; (GetSession stream_token t s).2) = false)
  ∧ let '(st', ended) := watch signed_out 1 1 stream_token 1 [Poll; Keepalive] (stream_start 0) in
    ended = Ok true ∧ (es_out st' = [] ∨ es_out st' = [AuthExpiredFrame]).
Proof.
  split; [intros i t _; apply signed_out_session|].
  exact (stream_ends_with_its_session signed_out 1 1 stream_token 1 Poll [Keepalive] (stream_start 0) (λ i t _, signed_out_session i t)).
Defined.
Lemma streamed_bound i s : m_db streamed i = Ok s → db_inv s ∧ next_event s <= 3.
Proof.
  intros [= <-]. split; [apply (meets_inv streamed streamed_dbs streamed_meets i)|]. unfold streamed_dbs.
  destruct (i <? 3)%nat; apply Z.leb_le; vm_compute; reflexivity.
Qed.
Lemma stream_batches_end_witness :
  0 < 1 ∧ 0 <= 0 ∧ 0 <= 3 ∧ (∀ i s, m_db streamed i = Ok s → db_inv s ∧ next_event s <= 3)
  ∧ jobEvents streamed 1 1 stream_token 1 [Poll] (stream_start 0) = jobEvents streamed 1 1 stream_token 7 [Poll] (stream_start 0).
Proof.
  split; [lia|]. split; [lia|]. split; [lia|]. split; [exact streamed_bound|].
  apply (stream_batches_end streamed 1 1 stream_token 0 3 1 7 [Poll]); [lia|lia|lia|exact streamed_bound|lia|lia].
Defined.
