(* ===== verification/Web.v ===== *)
(** * The boundary of the web server (src/internal/web: http_boundary, middleware, auth, network_settings)

    Which requests reach a handler: host, proxy and HTTPS checks, sessions and their
    cookies, cross-site protection and the administrator's area. *)

From S2P Require Import Prelude GoStrings GoTime Auth Domain Database SettingsStore AccountStore.
From S2P Require Import Origin Netip Egress Otp Config Worker Views Http.
From Stdlib Require Import Ascii String.

Open Scope Z_scope.

Definition sessionCookie : string := "lake_pass_session".
Definition csrfCookie : string := "lake_pass_csrf".
Definition loginCSRFCookie : string := "lake_pass_login_csrf".
Definition sessionLifetime : Duration := 24 * Hour.
Definition loginWindow : Duration := 15 * Minute.
Definition loginUserLimit : Z := 5.
Definition loginIPLimit : Z := 10.
Definition passwordLimit : Z := 5.

(** What a request meets besides the state: the readings of the clock, random bytes, and
    whether the password work limit has a free place. *)
Record surroundings := MkSurroundings { at_ : nat → Time; random : nat → string; slot : nat → bool }.
Definition clk (ev : surroundings) (k : nat) (i : nat) : Time := at_ ev (k + i)%nat.

Section web.
Context `{Hashes} `{UnicodeFold} (c : Config) (ev : surroundings).

(** ** The peer and the host *)

Definition socketIP (r : Request) : result Addr :=
  let e := Errorf "invalid socket peer" in
  match SplitHostPort (RqRemoteAddr r) with
  | None => Err e
  | Some (host, _) =>
      match ParseAddr host with
      | None => Err e
      | Some address => if String.eqb (Zone address) "" then Ok (Unmap address) else Err e
      end
  end.
Definition healthRequest (r : Request) : bool := reading_method (RqMethod r) && bool_decide (RqPath r = ["healthz"]).
(** [net.ParseIP] knows no zones. *)
Definition loopback_name (hostname : string) : bool :=
  match ParseAddr hostname with
  | Some ip => String.eqb (Zone ip) "" && IsLoopback (Unmap ip)
  | None => false
  end.
Definition hostAllowedBy (value : string) (allowedHosts : list string) : bool :=
  match Host value with
  | Err _ => false
  | Ok host =>
      let hostname := match SplitHostPort host with Some (parsed, _) => parsed | None => host end in
      let hostname := trim_any "[]" hostname in
      EqualFold hostname "localhost" || loopback_name hostname || existsb (String.eqb host) allowedHosts
  end.
Definition hostAllowed (value : string) : bool := hostAllowedBy value (AllowedHosts c).
Definition singleHeader (r : Request) (name : string) : string * bool :=
  match values_of name (RqHeader r) with
  | [v] => let value := trim_space v in (value, negb (String.eqb value "") && negb (contains value ","))
  | _ => ("", false)
  end.

Definition privateNetworkSettings (s : db) : result NetworkSettings :=
  let value := MkNetworkSettings (HostCheckEnabled c) (AllowedHosts c) in
  if HostCheckConfigured c then Ok value
  else match (SystemGetNetworkSettings s).2 with
       | Ok saved => Ok saved
       | Err e => if errors_is e ErrNotFound then Ok value else Err e
       end.

(** The address of the visitor, which only the public mode puts into the request. *)
Definition visitor (r : Request) (peer : Addr) : result Addr :=
  if existsb (λ prefix, Contains prefix peer) (TrustedProxies c) then
    let '(proto, ok) := singleHeader r "X-Forwarded-Proto" in
    _ ← reject (negb ok || negb (String.eqb proto "https")) (Errorf "public requests require HTTPS");
    let '(rawIP, ok) := singleHeader r "Cf-Connecting-Ip" in
    let e := Errorf "trusted proxy must supply one valid visitor IP" in
    match ParseAddr rawIP with
    | None => Err e
    | Some ip =>
        _ ← reject (negb ok || negb (String.eqb (Zone ip) "") || negb (IsGlobalUnicast ip) || IsLoopback ip) e;
        Ok (Unmap ip)
    end
  else
    _ ← reject (negb (RqTLS r)) (Errorf "public requests require HTTPS from a trusted connector");
    Ok peer.
Definition enforceHTTPBoundary (r : Request) (s : db) : result (option string) :=
  if String.eqb (PublicOrigin c) "" then
    match Host (RqHost r) with
    | Err _ => Err (Errorf "invalid Host header")
    | Ok _ =>
        if HostCheckConfigured c && negb (HostCheckEnabled c) then Ok None
        else match privateNetworkSettings s with
             | Err _ => Err (Sentinel ErrNetworkSettingsUnavailable)
             | Ok settings =>
                 if NSHostCheckEnabled settings && negb (hostAllowedBy (RqHost r) (NSAllowedHosts settings))
                 then Err (Errorf "invalid Host header") else Ok None
             end
    end
  else
    peer ← socketIP r;
    let requestOrigin := Canonical ("https://" +:+ RqHost r) in
    let configured := match requestOrigin with Ok o => String.eqb o (PublicOrigin c) | Err _ => false end in
    if healthRequest r then
      let e := Errorf "invalid health authority" in
      if configured then Ok None
      else match Host (RqHost r) with
           | Err _ => Err e
           | Ok host =>
               if existsb (String.eqb host) (AllowedHosts c) then Ok None
               else if IsLoopback peer && hostAllowed (RqHost r) then Ok None else Err e
           end
    else
      _ ← reject (negb configured) (Errorf "public requests require the configured hostname");
      ip ← visitor r peer;
      Ok (Some (Addr_String ip)).

Definition remoteIP (r : Request) (client : option string) : string :=
  match client with
  | Some address => address
  | None =>
      match SplitHostPort (RqRemoteAddr r) with
      | Some (host, _) => if String.eqb host "" then RqRemoteAddr r else host
      | None => RqRemoteAddr r
      end
  end.

(** ** Origins *)

Definition sameOrigin (r : Request) : bool :=
  match Canonical (HeaderGet r "Origin") with
  | Err _ => false
  | Ok browserOrigin =>
      existsb (λ scheme, match Canonical (scheme +:+ "://" +:+ RqHost r) with
                         | Ok requestOrigin => String.eqb browserOrigin requestOrigin
                         | Err _ => false end) ["http"; "https"]
  end.
Definition originAllowed (r : Request) : bool :=
  if blank (HeaderGet r "Origin") && EqualFold (trim_space (HeaderGet r "Sec-Fetch-Site")) "same-origin" then true
  else
    let is_one (allowed : list string) :=
      match Canonical (HeaderGet r "Origin") with
      | Ok browserOrigin => existsb (String.eqb browserOrigin) allowed
      | Err _ => false
      end in
    if negb (String.eqb (PublicOrigin c) "") then is_one [PublicOrigin c]
    else sameOrigin r || is_one (AllowedOrigins c).
Definition rejectCrossOrigin : answer := http_Error "cross-origin request rejected" StatusForbidden.

(** ** Cookies *)

Definition public_mode : bool := negb (String.eqb (PublicOrigin c) "").
Definition cookieName (name : string) : string := if public_mode then "__Host-" +:+ name else name.
Definition legacyCookieName (name : string) : string :=
  if String.eqb name sessionCookie then "buntzen_session"
  else if String.eqb name csrfCookie then "buntzen_csrf"
  else if String.eqb name loginCSRFCookie then "buntzen_login_csrf" else "".
Definition setCookie (name value : string) (lifetime : Duration) : web unit :=
  add_cookie (MkCookie (cookieName name) value (lifetime / Second) public_mode).
Definition clearCookie (name : string) : web unit :=
  _ ← add_cookie (MkCookie (cookieName name) "" (-1) public_mode);
  if String.eqb (legacyCookieName name) "" then mret tt
  else add_cookie (MkCookie (cookieName (legacyCookieName name)) "" (-1) public_mode).
Definition clearAuthCookies : web unit := _ ← clearCookie sessionCookie; clearCookie csrfCookie.
Definition request_cookie (r : Request) (name : string) : option string := head (values_of name (RqCookies r)).
Definition readCookie (r : Request) (name : string) : option string :=
  match request_cookie r (cookieName name) with
  | Some value => Some value
  | None => if String.eqb (legacyCookieName name) "" then None else request_cookie r (cookieName (legacyCookieName name))
  end.
(** A token of another mode or origin is no cookie at all. *)
Definition readSessionCookie (r : Request) : option string :=
  value ← readCookie r sessionCookie;
  if SessionTokenMatchesScope value (PublicOrigin c) then Some value else None.

(** ** Answers *)

Definition apiRedirect (r : Request) (target : string) (status : Z) : answer :=
  if negb (has_prefix target "/") || has_prefix target "//" then http_Error "invalid redirect" StatusInternalServerError
  else if String.eqb (HeaderGet r "X-Lake-Pass-Navigation") "manual" then MkAnswer StatusOK (Navigation target)
  else MkAnswer status (Redirect ("/api" +:+ target)).
Definition see_other (r : Request) (target : string) : answer := apiRedirect r target StatusSeeOther.
Definition redirectNotice (r : Request) (path code : string) : answer := see_other r (path +:+ "?notice=" +:+ code).
Definition internal : answer := http_Error "internal server error" StatusInternalServerError.
Definition not_found : answer := http_Error "404 page not found" StatusNotFound.
Definition notFoundOrInternal (e : error) : answer :=
  if errors_is e ErrNotFound then http_Error "not found" StatusNotFound else internal.
Definition authBusy {A} : web A :=
  _ ← retry_after "2"; stop (http_Error "Authentication is busy. Wait briefly and try again." StatusServiceUnavailable).
Definition formStatus (p : problem) : Z := match p with NoProblem => StatusOK | _ => StatusUnprocessableEntity end.
Definition respond (name : string) (common : BaseData) (p : problem) (data : page_data) : answer :=
  MkAnswer (formStatus p) (Page name common p data).

Definition unauthorized {A} (r : Request) (path : list string) : web A :=
  if contains (HeaderGet r "Accept") "text/event-stream" || has_suffix (url_path path) "/events"
  then stop (http_Error "authentication required" StatusUnauthorized)
  else
    hasUsers ← store_call HasUsers;
    match hasUsers with
    | Ok false => stop (see_other r "/setup")
    | _ => stop (see_other r "/login")
    end.
Definition sessionFailure {A} (r : Request) (path : list string) (e : error) : web A :=
  if errors_is e ErrNotFound then _ ← clearAuthCookies; unauthorized r path
  else _ ← retry_after "2"; stop (http_Error "Authentication is temporarily unavailable. Try again." StatusServiceUnavailable).

(** ** Sessions *)

Record requestSession := MkAuthenticated { RSSession : Session; RSUser : User; RSCSRFToken : string }.
Definition constantEqual (left right : string) : bool := String.eqb left right.

(** The checks before the handler; [path] is the one below [/api].  The clock is read for
    the session and again to touch it. *)
Definition live_request (r : Request) (path : list string) : web (string * (Session * User)) :=
  match readSessionCookie r with
  | None => unauthorized r path
  | Some token =>
      if String.eqb token "" then unauthorized r path
      else
        found ← store_call (GetSession token (at_ ev 0));
        match found with
        | Err e => sessionFailure r path e
        | Ok a => mret (token, a)
        end
  end.
Definition csrf_of (r : Request) (path : list string) (session : Session) : web string :=
  match readCookie r csrfCookie with
  | Some value => if ValidateCSRF session value then mret value else _ ← clearAuthCookies; unauthorized r path
  | None => _ ← clearAuthCookies; unauthorized r path
  end.
Definition cross_site_checks (r : Request) (session : Session) (csrf : string) : web unit :=
  if safe_method (RqMethod r) then mret tt
  else
    _ ← stop_if (negb (originAllowed r)) rejectCrossOrigin;
    stop_if (negb (is_some (RqPosted r)) || negb (constantEqual (FormGet r "csrf_token") csrf)
             || negb (ValidateCSRF session (FormGet r "csrf_token")))
      (http_Error "invalid CSRF token" StatusForbidden).
Definition authenticated (r : Request) (path : list string) (next : requestSession → web answer) : web answer :=
  '(token, (session, user)) ← live_request r path;
  csrf ← csrf_of r path session;
  _ ← cross_site_checks r session csrf;
  touched ← store_call (TouchSession token (at_ ev 1));
  match touched with
  | Err e => sessionFailure r path e
  | Ok _ =>
      _ ← stop_if (UMustChangePassword user
                   && negb (bool_decide (url_path path ∈ ["/account"; "/account/password"; "/logout"])))
            (see_other r "/account?password=required");
      next (MkAuthenticated session user csrf)
  end.
Definition adminOnly (a : requestSession) (next : web answer) : web answer :=
  _ ← stop_if (negb (bool_decide (URole (RSUser a) = RoleAdmin)) || negb (bool_decide (UStatus (RSUser a) = UserActive)))
        (http_Error "administrator access required" StatusForbidden);
  next.
Definition RSUserID (a : requestSession) : Z := UID (RSUser a).
(** What a page carries of the session and the request; the path is the one below [/api]. *)
Definition current_path (r : Request) : string := url_path (tail (RqPath r)).
Definition base (r : Request) (a : requestSession) (title : string) : BaseData :=
  let user := RSUser a in
  let flash := match noticeFor (QueryGet r "notice") with Some f => Some f | None => flashFor (QueryGet r "ok") end in
  MkBase title (0 <? UID user) (UUsername user) (bool_decide (URole user = RoleAdmin)) (RSCSRFToken a) (current_path r) flash.
End web.
