(* ===== verification/WebAuth.v ===== *)
(** * Signing in and accounts (src/internal/web: auth, accounts)

    The handlers of login, first-run setup, logout, the own account and the
    administration of members. *)

From S2P Require Import Prelude GoStrings GoTime Auth Domain Database JobStore AccountStore.
From S2P Require Import Otp Config Worker Storage Views Http Web.
From Stdlib Require Import Ascii String.

Open Scope Z_scope.

Section handlers.
Context `{Hashes} `{UnicodeFold} (c : Config) (ev : surroundings).
(** The working directory, and the disk that a deletion reconciles. *)
Context (working : string) (d : disk).

Definition loginRateKey (parts : list string) : string := hex_of (sha256_Sum (join (bytes [0%nat]) parts)).
Definition wrong_csrf {A} : web A := stop (http_Error "invalid CSRF token" StatusForbidden).
(** [loginMu]: the attempt to lock it, and the release when the handler returns. *)
Definition holding_login {A} (m : web A) : web A :=
  busy ← ask_server sv_login_busy;
  if busy : bool then authBusy
  else _ ← change_server (with_login_busy true); deferring (with_login_busy false) m.

(** The checks the public forms share. *)
Definition public_form (r : Request) : web unit :=
  _ ← stop_if (negb (originAllowed c r)) rejectCrossOrigin;
  _ ← stop_if (negb (is_some (RqPosted r))) (http_Error "invalid form" StatusBadRequest);
  match readCookie c r loginCSRFCookie with
  | Some value => if constantEqual value (FormGet r "csrf_token") then mret tt else wrong_csrf
  | None => wrong_csrf
  end.

(** ** Login *)

(** What a page carries before anybody has signed in. *)
Definition auth_base (title token : string) : BaseData := MkBase title false "" false token "" None.
Definition loginError (value : string) : problem :=
  if String.eqb value "invalid" then Problem "The username or password was not accepted."
  else if String.eqb value "limited" then Problem "Too many attempts. Wait before trying again." else NoProblem.

Definition loginPage (r : Request) (path : list string) : web answer :=
  hasUsers ← store_call HasUsers;
  match hasUsers with
  | Err _ => stop internal
  | Ok false => stop (see_other r "/setup")
  | Ok true =>
      _ ← (match readSessionCookie c r with
           | None => mret tt
           | Some token =>
               found ← store_call (GetSession token (at_ ev 0));
               match found with
               | Ok _ => stop (see_other r "/")
               | Err e => if errors_is e ErrNotFound then mret tt else sessionFailure c r path e
               end
           end);
      _ ← setCookie c loginCSRFCookie (NewToken (random ev 0)) (10 * Minute);
      let message := if String.eqb (QueryGet r "ok") "password-changed" then "Password changed. Sign in again." else "" in
      mret (MkAnswer StatusOK (Page "login" (auth_base "Sign in" (NewToken (random ev 0))) (loginError (QueryGet r "error"))
        (AuthData message "")))
  end.

Definition login_unavailable {A} : web A := stop (http_Error "login unavailable" StatusInternalServerError).
Definition rate_limit (key : string) (now : Time) (limit : Z) : web bool :=
  allowed ← store_call (LoginRateLimit key now loginWindow limit);
  match allowed with Ok (b, _) => mret b | Err _ => login_unavailable end.
(** The keys of the attempt: the address, and the address with the name. *)
Definition login_keys (r : Request) (client : option string) : string * string :=
  let ip := remoteIP r client in
  let name := match NormalizeUsername (trim_space (FormGet r "username")) with Ok n => n | Err _ => "<invalid>" end in
  (loginRateKey ["ip"; ip], loginRateKey ["ip-user"; ip; name]).
Definition login (r : Request) (client : option string) : web answer :=
  _ ← public_form r;
  holding_login (
    hasUsers ← store_call HasUsers;
    match hasUsers with
    | Err _ => stop internal
    | Ok false => _ ← clearCookie c loginCSRFCookie; stop (see_other r "/setup")
    | Ok true =>
        let '(ipKey, userKey) := login_keys r client in
        allowedIP ← rate_limit ipKey (at_ ev 0) loginIPLimit;
        allowedUser ← rate_limit userKey (at_ ev 1) loginUserLimit;
        _ ← stop_if (negb allowedIP || negb allowedUser) (see_other r "/login?error=limited");
        issued ← store_call (AuthenticateAndCreateSessionInScope (trim_space (FormGet r "username")) (FormGet r "password")
                   sessionLifetime (PublicOrigin c) (random ev 0) (random ev 1) (slot ev 0) (at_ ev 2));
        match issued with
        | Err e => if errors_is e ErrBusy then authBusy else login_unavailable
        | Ok found =>
            recorded ← store_call (RecordLoginAttempts [ipKey; userKey] (is_some found) (clk ev 3));
            match recorded, found with
            | Err _, Some (_, credentials) => _ ← store_call (DeleteSession (SC_Token credentials)); login_unavailable
            | Err _, None => login_unavailable
            | Ok _, None => stop (see_other r "/login?error=invalid")
            | Ok _, Some (_, credentials) =>
                _ ← setCookie c sessionCookie (SC_Token credentials) sessionLifetime;
                _ ← setCookie c csrfCookie (SC_CSRFToken credentials) sessionLifetime;
                _ ← clearCookie c loginCSRFCookie;
                mret (see_other r "/")
            end
        end
    end).

(** ** First-run setup *)

Definition setupPage (r : Request) : web answer :=
  hasUsers ← store_call HasUsers;
  match hasUsers with
  | Err _ => stop internal
  | Ok true => stop (see_other r "/login")
  | Ok false =>
      _ ← setCookie c loginCSRFCookie (NewToken (random ev 0)) (10 * Minute);
      mret (MkAnswer StatusOK (Page "setup" (auth_base "First-run setup" (NewToken (random ev 0))) NoProblem (AuthData "" "admin")))
  end.
Definition renderSetupError {A} (username : string) (p : problem) : web A :=
  _ ← setCookie c loginCSRFCookie (NewToken (random ev 2)) (10 * Minute);
  stop (MkAnswer StatusUnprocessableEntity (Page "setup" (auth_base "First-run setup" (NewToken (random ev 2))) p (AuthData "" username))).
Definition tokenEqual (left right : string) : bool := constantEqual (HashToken left) (HashToken right).
(** The global bucket first, then the one of the address. *)
Definition admit_setup (key : string) (limit : Z) (now : Time) : web unit :=
  allowed ← store_call (LoginRateLimit key now loginWindow limit);
  match allowed with
  | Err _ => stop internal
  | Ok (true, _) => mret tt
  | Ok (false, _) =>
      _ ← retry_after "900"; stop (http_Error "Too many setup attempts. Wait before trying again." StatusTooManyRequests)
  end.
Definition admitInvalidSetupToken (r : Request) (client : option string) : web unit :=
  let global := loginRateKey ["setup-global"] in
  let ip := loginRateKey ["setup-ip"; remoteIP r client] in
  _ ← admit_setup global 100 (at_ ev 0);
  _ ← admit_setup ip loginIPLimit (at_ ev 1);
  recorded ← store_call (RecordLoginAttempts [global; ip] false (clk ev 3));
  match recorded with Ok _ => mret tt | Err _ => stop internal end.
Definition setup (r : Request) (client : option string) : web answer :=
  _ ← public_form r;
  holding_login (
    hasUsers ← store_call HasUsers;
    match hasUsers with
    | Err _ => stop internal
    | Ok true => _ ← clearCookie c loginCSRFCookie; stop (see_other r "/login")
    | Ok false =>
        _ ← stop_if (String.eqb (SetupToken c) "")
              (http_Error "first-run setup is unavailable until the host provides a setup token" StatusServiceUnavailable);
        let username := trim_space (FormGet r "username") in
        let password := FormGet r "password" in
        _ ← (if tokenEqual (SetupToken c) (FormGet r "setup_token") then mret tt
             else _ ← admitInvalidSetupToken r client;
                  renderSetupError username (Problem "The one-time setup token was not accepted. Check the host logs and try again."));
        _ ← (if String.eqb password (FormGet r "password_confirm") then mret tt
             else renderSetupError username (Problem "The passwords do not match."));
        created ← store_call (SetupAdmin username password (random ev 3) (slot ev 0) (at_ ev 2));
        match created with
        | Err e =>
            if errors_is e ErrBusy then authBusy
            else
              again ← store_call HasUsers;
              match again with
              | Ok true => _ ← clearCookie c loginCSRFCookie; stop (see_other r "/login")
              | _ => renderSetupError username (ProblemOf e)
              end
        | Ok _ =>
            issued ← store_call (AuthenticateAndCreateSessionInScope username password sessionLifetime (PublicOrigin c)
                       (random ev 0) (random ev 1) (slot ev 1) (at_ ev 3));
            match issued with
            | Ok (Some (_, credentials)) =>
                _ ← setCookie c sessionCookie (SC_Token credentials) sessionLifetime;
                _ ← setCookie c csrfCookie (SC_CSRFToken credentials) sessionLifetime;
                _ ← clearCookie c loginCSRFCookie;
                mret (see_other r "/?ok=setup")
            | Err e =>
                if errors_is e ErrBusy then authBusy else stop (http_Error "could not create session" StatusInternalServerError)
            | Ok None => stop (http_Error "could not create session" StatusInternalServerError)
            end
        end
    end).

Definition logout (r : Request) : web answer :=
  _ ← (match readSessionCookie c r with
       | None => mret tt
       | Some token =>
           deleted ← store_call (DeleteSession token);
           match deleted with
           | Ok _ => mret tt
           | Err _ => _ ← retry_after "2"; stop (http_Error "Sign out could not be completed. Try again." StatusServiceUnavailable)
           end
       end);
  _ ← clearAuthCookies c;
  mret (see_other r "/login").

(** ** The own account *)

Definition account_page (r : Request) (a : requestSession) (status : Z) (p : problem) : answer :=
  let username := if String.eqb (RqMethod r) "POST" && String.eqb (current_path r) "/account/username"
                  then trim_space (FormGet r "username") else UUsername (RSUser a) in
  MkAnswer status (Page "account" (base r a "Account") p
    (AccountData username (UMustChangePassword (RSUser a) || String.eqb (QueryGet r "password") "required"))).
Definition renderAccount (r : Request) (a : requestSession) (p : problem) : answer := account_page r a (formStatus p) p.
Definition renderAccountStatus (r : Request) (a : requestSession) (status : Z) (message : string) : answer :=
  account_page r a status (Problem message).
Definition accountPage (r : Request) (a : requestSession) : web answer := mret (renderAccount r a NoProblem).
Definition change_key (userID : Z) : string := loginRateKey ["password-change"; format_int userID].
(** [tryAccountChange] and [beginAccountChange]: one change per account at a time, within
    its attempts. *)
Definition changing_account {A} (r : Request) (a : requestSession) (m : web A) : web A :=
  let userID := RSUserID a in
  busy ← ask_server sv_account_busy;
  if (userID <=? 0) || bool_decide (userID ∈ busy)
  then stop (renderAccountStatus r a StatusTooManyRequests
               "Another account change is already running. Wait for it to finish, then try again.")
  else
    _ ← change_server (with_account_busy (λ b, {[userID]} ∪ b));
    deferring (with_account_busy (λ b, b ∖ {[userID]})) (
      allowed ← store_call (LoginRateLimit (change_key userID) (at_ ev 2) loginWindow passwordLimit);
      match allowed with
      | Err _ => stop internal
      | Ok (false, _) =>
          stop (renderAccountStatus r a StatusTooManyRequests "Too many password attempts. Wait before trying again.")
      | Ok (true, _) => m
      end).
(** The end both changes share: a full work limit is no attempt, everything else is. *)
Definition settle_change (r : Request) (a : requestSession) (outcome : result bool) (refused : error → problem) : web unit :=
  _ ← (match outcome with Err e => if errors_is e ErrBusy then authBusy else mret tt | Ok _ => mret tt end);
  recorded ← store_call (RecordLoginAttempt (change_key (RSUserID a))
               (match outcome with Ok b => b | Err _ => false end) (clk ev 4));
  match recorded, outcome with
  | Err _, _ => stop internal
  | Ok _, Err e => stop (renderAccount r a (refused e))
  | Ok _, Ok false => stop (renderAccount r a (Problem "The current password was not accepted."))
  | Ok _, Ok true => mret tt
  end.
Definition accountPassword (r : Request) (a : requestSession) : web answer :=
  let password := FormGet r "new_password" in
  _ ← stop_if (negb (String.eqb password (FormGet r "password_confirm")))
        (renderAccount r a (Problem "The new passwords do not match."));
  changing_account r a (
    changed ← store_call (ChangeUserPassword (RSUserID a) (FormGet r "current_password") password (random ev 0)
                (slot ev 0) (slot ev 1) (at_ ev 3));
    _ ← settle_change r a changed (λ e,
          if errors_is e ErrPasswordUnchanged
          then Problem "Choose a new password that differs from the temporary or current password." else ProblemOf e);
    _ ← clearAuthCookies c;
    mret (see_other r "/login?ok=password-changed")).
Definition accountUsername (r : Request) (a : requestSession) : web answer :=
  changing_account r a (
    changed ← store_call (ChangeUsername (RSUserID a) (FormGet r "current_password") (FormGet r "username") (slot ev 0) (at_ ev 3));
    _ ← settle_change r a changed ProblemOf;
    mret (see_other r "/account?ok=username-changed")).

(** ** Members *)

Definition pathID (segment : string) : web Z :=
  match parse_int64 segment with
  | Some id => if id <=? 0 then stop (http_Error "invalid identifier" StatusBadRequest) else mret id
  | None => stop (http_Error "invalid identifier" StatusBadRequest)
  end.
Definition checked (r : Request) (name : string) : bool := bool_decide (FormGet r name ∈ ["1"; "on"; "true"]).
Definition renderUserNew (r : Request) (a : requestSession) (username : string) (p : problem) : answer :=
  respond "user" (base r a "New user") p (UserData "New user"
    "Create a regular member account. Administrator privileges cannot be assigned here." username 0 true false false).
Definition renderUserEdit (r : Request) (a : requestSession) (id : Z) (username : string) (enabled : bool) (p : problem) : answer :=
  respond "user" (base r a "Manage user") p (UserData ("Manage " +:+ username)
    "Rename, enable, disable, reset, or permanently delete this member account." username id false enabled (negb enabled)).
Definition is_active (user : User) : bool := bool_decide (UStatus user = UserActive).
Definition userNewPage (r : Request) (a : requestSession) : web answer := mret (renderUserNew r a "" NoProblem).
Definition userCreate (r : Request) (a : requestSession) : web answer :=
  let username := trim_space (FormGet r "username") in
  let password := FormGet r "password" in
  _ ← stop_if (negb (String.eqb password (FormGet r "password_confirm"))) (renderUserNew r a username (Problem "The passwords do not match."));
  created ← store_call (CreateMember (MkCreateUser username password true) (random ev 0) (slot ev 0) (at_ ev 2));
  match created with
  | Err e => if errors_is e ErrBusy then authBusy else stop (renderUserNew r a username (ProblemOf e))
  | Ok _ => mret (see_other r "/admin/users?ok=user-created")
  end.
Definition usersPage `{TimeZoneDB} (r : Request) (a : requestSession) : web answer :=
  listed ← store_call ListUsers;
  match listed with
  | Err _ => stop internal
  | Ok users => mret (respond "users" (base r a "Users") NoProblem (UsersData (userRow_of <$> users)))
  end.
(** The member an administrator manages; the permanent administrator is refused. *)
Definition managed_member (id : Z) (refusal : string) : web User :=
  found ← store_call (GetUser id);
  match found with
  | Err e => stop (notFoundOrInternal e)
  | Ok user => _ ← stop_if (bool_decide (URole user = RoleAdmin)) (http_Error refusal StatusForbidden); mret user
  end.
Definition userEditPage (r : Request) (a : requestSession) (segment : string) : web answer :=
  id ← pathID segment;
  user ← managed_member id "the permanent administrator is managed from Account";
  mret (renderUserEdit r a (UID user) (UUsername user) (is_active user) NoProblem).
Definition userUpdate (r : Request) (a : requestSession) (segment : string) : web answer :=
  id ← pathID segment;
  _ ← managed_member id "the permanent administrator cannot be modified here";
  let username := trim_space (FormGet r "username") in
  let status := if checked r "enabled" then UserActive else UserDisabled in
  updated ← store_call (UpdateUser id username status (at_ ev 2));
  match updated with
  | Err e => stop (renderUserEdit r a id username (checked r "enabled") (ProblemOf e))
  | Ok _ => mret (see_other r "/admin/users?ok=user-updated")
  end.
Definition userResetPassword (r : Request) (a : requestSession) (segment : string) : web answer :=
  id ← pathID segment;
  current ← managed_member id "the permanent administrator cannot be reset here";
  let password := FormGet r "password" in
  _ ← stop_if (negb (String.eqb password (FormGet r "password_confirm"))) (renderUserEdit r a id (UUsername current) (is_active current) (Problem "The passwords do not match."));
  reset ← store_call (ResetUserPassword id password (random ev 0) true (slot ev 0) (at_ ev 2));
  match reset with
  | Err e => if errors_is e ErrBusy then authBusy else stop (renderUserEdit r a id (UUsername current) (is_active current) (ProblemOf e))
  | Ok _ => mret (see_other r "/admin/users?ok=user-password")
  end.
Definition userDelete (r : Request) (a : requestSession) (segment : string) : web answer :=
  id ← pathID segment;
  current ← managed_member id "the permanent administrator cannot be deleted";
  deleted ← store_call (DeleteMember id (FormGet r "confirm_username"));
  match deleted with
  | Err e => stop (renderUserEdit r a id (UUsername current) (is_active current) (ProblemOf e))
  | Ok _ =>
      reconciled ← store_call (ReconcileStorage working (ArtifactsDir c) (ProfilesDir c) d);
      mret (see_other r (match reconciled with
                         | Err _ => "/admin/users?ok=user-deleted-cleanup" | Ok _ => "/admin/users?ok=user-deleted" end))
  end.
End handlers.
