(* ===== verification/WebResources.v ===== *)
(** * Settings, connections, bookings and jobs (src/internal/web: settings,
    network_settings, lakes, lake_connections, sources, profiles, quick_booking, jobs)

    The handlers a member reaches.  A page is its name, what every page carries, the problem
    it shows and its data: the fields of a form with what they hold among them. *)

From S2P Require Import Prelude GoStrings GoUrl GoTime Json Auth Secrets Origin Domain Database JobStore EventStore ResourceStore ProfileStore SettingsStore.
From S2P Require Import Otp BookingQueue Egress Json BlueBubbles Twilio Config Worker Pairing Storage Views Http Web WebAuth.
From Stdlib Require Import Ascii String SpecFloat.

Open Scope Z_scope.

Section handlers.
Context `{Hashes} `{AEAD} `{TimeZoneDB} `{UnicodeFold} (c : Config) (ev : surroundings).
(** [strconv.ParseFloat], and what the health check of a provider answers. *)
Context (ParseFloat : string → option float64) (health : provider → result unit).

(** [r.Form] of the handlers below; the account is the one of the session. *)
Notation uid a := (RSUserID a).

(** ** Account settings *)

Definition posting (r : Request) : bool := String.eqb (RqMethod r) "POST".
Definition renderSettingsPage (r : Request) (a : requestSession) (value : AccountSettings) (p : problem) : answer :=
  let sections := settingsSections value in
  respond "settings" (base r a "Settings") p
    (SettingsData (if posting r then in_fields (posted_number (FormGet r)) <$> sections else sections)).
Definition settingsPage (r : Request) (a : requestSession) : web answer :=
  found ← store_call (GetAccountSettings (uid a));
  match found with Err _ => stop internal | Ok value => mret (renderSettingsPage r a value NoProblem) end.
(** A number of the form: the value, or the text of its problem. *)
Definition whole (r : Request) (name label : string) : Z + string :=
  match parse_int64 (trim_space (FormGet r name)) with
  | Some v => inl v | None => inr (label +:+ " must be a whole number") end.
Definition decimal (r : Request) (name label : string) : float64 + string :=
  match ParseFloat (trim_space (FormGet r name)) with
  | Some v => inl v | None => inr (label +:+ " must be a number") end.
Definition complaint {A} (v : A + string) : list string := match v with inl _ => [] | inr m => [m] end.
Definition or_zero {A} (zero : A) (v : A + string) : A := match v with inl x => x | inr _ => zero end.
(** The settings of the form, and whether they can be saved. *)
Definition accountSettingsInput (r : Request) : AccountSettings * result unit :=
  let mode := RunMode_of (FormGet r "default_confirmation_mode") in
  let timeout := whole r "default_timeout_ms" "Action timeout" in
  let prep := whole r "prep_minutes_before" "Preparation time" in
  let deadline := whole r "auth_deadline_minutes_before" "Sign-in deadline" in
  let poll := whole r "poll_deadline_seconds" "Availability check window" in
  let low := decimal r "poll_min_seconds" "Minimum retry delay" in
  let high := decimal r "poll_max_seconds" "Maximum retry delay" in
  let problems := (complaint timeout ++ complaint prep ++ complaint deadline ++ complaint poll ++ complaint low ++ complaint high)%list in
  let f0 := S754_zero false in
  let value := MkAccountSettings 0 (if bool_decide (mode = RunModeOther "") then RunModeManual else mode)
    (checked r "headless") (trim_space (FormGet r "browser_channel")) (or_zero 0 timeout) (or_zero 0 prep) (or_zero 0 deadline)
    (or_zero 0 poll) (or_zero f0 low) (or_zero f0 high) zero_time in
  (value, _ ← reject (negb (is_nil problems)) (Errorf (join "; " problems)); account_Validate value).
Definition settingsUpdate (r : Request) (a : requestSession) : web answer :=
  let '(value, err) := accountSettingsInput r in
  match err with
  | Err e => stop (renderSettingsPage r a value (ProblemOf e))
  | Ok _ =>
      saved ← store_call (SaveAccountSettings (uid a) value (at_ ev 2));
      match saved with
      | Err e => stop (renderSettingsPage r a value (ProblemOf e))
      | Ok _ => mret (see_other r "/settings?ok=updated")
      end
  end.

(** ** Network settings *)

Definition networkSettingsManagedReason : string :=
  if public_mode c
  then "Public HTTPS is configured for " +:+ PublicOrigin c
       +:+ ". Hostname checks are required in this mode and are managed in the deployment."
  else if HostCheckConfigured c
  then "Hostname checks are overridden by LAKE_PASS_HOST_CHECK_ENABLED in the deployment. Remove or clear that override to manage them here."
  else "".
Definition renderNetworkSettingsPage (r : Request) (a : requestSession) (value : NetworkSettings) (p : problem) : answer :=
  let hosts := if posting r then FormGet r "allowed_hosts" else join (bytes [10%nat]) (NSAllowedHosts value) in
  respond "network_settings" (base r a "Network settings") p
    (NetworkData (NSHostCheckEnabled value) hosts (match Host (RqHost r) with Ok host => host | Err _ => "" end)
       networkSettingsManagedReason).
(** Without saved names the current one is suggested. *)
Definition suggested_hosts (r : Request) (value : NetworkSettings) : NetworkSettings :=
  if is_nil (NSAllowedHosts value) then MkNetworkSettings (NSHostCheckEnabled value) [RqHost r] else value.
Definition networkSettingsPage (r : Request) (a : requestSession) : web answer :=
  if public_mode c then
    let value := MkNetworkSettings true [from_option UHost "" (url_Parse (PublicOrigin c))] in
    mret (renderNetworkSettingsPage r a (suggested_hosts r value) NoProblem)
  else
    found ← ask_server (λ s, privateNetworkSettings c (sv_db s));
    match found with
    | Err _ => stop internal
    | Ok value => mret (renderNetworkSettingsPage r a (suggested_hosts r value) NoProblem)
    end.
Definition networkSettingsUpdate (r : Request) (a : requestSession) : web answer :=
  _ ← stop_if (negb (String.eqb networkSettingsManagedReason "")) (http_Error networkSettingsManagedReason StatusConflict);
  let value := MkNetworkSettings (checked r "host_check_enabled") (fields_any (bytes [10; 13; 44]%nat) (FormGet r "allowed_hosts")) in
  match Normalize value with
  | Err e => stop (renderNetworkSettingsPage r a value (ProblemOf e))
  | Ok normalized =>
      _ ← stop_if (NSHostCheckEnabled normalized && negb (hostAllowedBy (RqHost r) (NSAllowedHosts normalized)))
            (renderNetworkSettingsPage r a value (Problem
              "Keep the current hostname in the allowed list before enabling checks so you can still access Settings."));
      saved ← store_call (SystemSaveNetworkSettings normalized);
      match saved with Err _ => stop internal | Ok _ => mret (see_other r "/settings/network?ok=updated") end
  end.

(** ** Lakes *)

Definition approvedOrigin : string := match YodelOrigins c with o :: _ => o | [] => DefaultYodelOrigin end.
(** The vehicle the older sign-ins of a lake agree on. *)
Fixpoint legacy_vehicle (lakeID : string) (profiles : list Profile) (keyword : string) : string :=
  match profiles with
  | [] => keyword
  | p :: rest =>
      let own := trim_space (PDefaultVehicle p) in
      if negb (String.eqb (profile_EffectiveLakeID p) lakeID) || String.eqb own "" then legacy_vehicle lakeID rest keyword
      else if negb (String.eqb keyword "") && negb (String.eqb keyword own) then ""
      else legacy_vehicle lakeID rest own
  end.
Definition with_vehicle (keyword : string) (userID : Z) (s : LakeSettings) : LakeSettings :=
  MkLakeSettings userID (LSLakeID s) (LSBookingProfileID s) keyword (LSTimezone s) (LSReleaseTime s)
    (LSReleaseDaysBefore s) (LSAllDayPassURL s) (LSHalfDayPassURL s) (LSPreferredPasses s) (LSUpdatedAt s).
(** The lake, the preferences of the account, and whether they were saved. *)
Definition effectiveLakeSettings (a : requestSession) (lakeID : string) : ST db (Lake * LakeSettings * bool) := λ s,
  match Resolve lakeID with
  | Err e => (s, Err e)
  | Ok lake0 =>
      let lake := WithOrigin lake0 approvedOrigin in
      match (GetLakeSettings (uid a) (LakeID lake) s).2 with
      | Ok settings => (s, Ok (lake, settings, true))
      | Err e =>
          if negb (errors_is e ErrNotFound) then (s, Err e)
          else match (ListProfiles (uid a) s).2 with
               | Err e => (s, Err e)
               | Ok profiles => (s, Ok (lake, with_vehicle (legacy_vehicle (LakeID lake) profiles "") (uid a) (DefaultLakeSettings lake), false))
               end
      end
  end.
(** The default source, if there is one. *)
Definition default_source_read (a : requestSession) : ST db (option OTPSource) := λ s,
  match (GetDefaultOTPSource (uid a) s).2 with
  | Err e => (s, if errors_is e ErrNotFound then Ok None else Err e)
  | Ok source => (s, Ok (Some source))
  end.
Definition lakeConnections (a : requestSession) : ST db (list lakeConnection) :=
  profiles ← ListProfiles (uid a);
  jobs ← ListJobs (uid a) MaxRetainedJobsPerUser;
  source ← default_source_read a;
  mret ((λ lake, buildLakeConnection (YodelOrigins c) lake (uid a) profiles jobs source) <$> catalog_list).
(** The connections of the account with the fields of each lake. *)
Definition lake_overview (a : requestSession) (connection : lakeConnection) : ST db (lakeConnection * list labelValue) :=
  '(_, settings, _) ← effectiveLakeSettings a (LakeID (LC_Lake connection));
  mret (connection, lake_fields settings).
Fixpoint lake_overviews (a : requestSession) (connections : list lakeConnection) : ST db (list (lakeConnection * list labelValue)) :=
  match connections with
  | [] => mret []
  | connection :: rest =>
      shown ← lake_overview a connection; others ← lake_overviews a rest; mret (shown :: others)
  end.
Definition lakesPage (r : Request) (a : requestSession) : web answer :=
  read ← store_call (connections ← lakeConnections a; lake_overviews a connections);
  match read with
  | Err _ => stop internal
  | Ok overviews => mret (respond "lakes" (base r a "Lakes") NoProblem (LakesData (existsb LC_Configured overviews.*1) overviews))
  end.
Definition known_lake (id : string) : web Lake :=
  match Resolve id with Ok lake => mret lake | Err _ => stop not_found end.
Definition providerLabel (id : string) : string := if String.eqb id ProviderYodel then "Yodel" else id.
(** Preferences that could not be saved are shown as submitted; a problem without them is
    one of the connection. *)
Definition renderLakePage {A} (r : Request) (a : requestSession) (id : string) (submitted : option LakeSettings) (p : problem) : web A :=
  _ ← known_lake id;
  found ← store_call (effectiveLakeSettings a id);
  match found with
  | Err _ => stop internal
  | Ok (lake, settings, saved) =>
      let settings := default settings submitted in
      read ← store_call (lakeConnections a);
      match read with
      | Err _ => stop internal
      | Ok connections =>
          let connection := List.find (λ k, String.eqb (LakeID (LC_Lake k)) (LakeID lake)) connections in
          let '(notice, cards) := from_option (lake_cards lake settings) (NoProblem, []) connection in
          let sections := lakeSettingsSections lake settings in
          let shown := if posting r && is_some submitted
                       then in_fields (λ f, posted_choice (FormGet r) (posted_number (FormGet r) f)) <$> sections else sections in
          let of_connection := negb (is_some submitted) && match p with NoProblem => false | _ => true end in
          stop (respond "lake" (base r a (LakeName lake)) p
            (LakeData lake saved (providerLabel (ProviderID lake)) of_connection shown connection notice cards))
      end
  end.
Definition lake_target (id suffix : string) : string := "/lakes/" +:+ id +:+ suffix.
Definition pass_choices (r : Request) : list PassType :=
  PassType_of <$> filter (λ p, p ≠ "") ((λ n, FormGet r n) <$> ["pass_priority_1"; "pass_priority_2"; "pass_priority_3"]).
(** The settings of the form with the problem that keeps them from being saved. *)
Definition lakeSettingsInput (r : Request) (id : string) : LakeSettings * result unit :=
  let days := parse_int64 (trim_space (FormGet r "release_days_before")) in
  let value := MkLakeSettings 0 id 0 (trim_space (FormGet r "vehicle_keyword")) (trim_space (FormGet r "timezone"))
    (FormGet r "release_time") (default 0 days) (trim_space (FormGet r "all_day_pass_url"))
    (trim_space (FormGet r "half_day_pass_url")) (Some (pass_choices r)) zero_time in
  (value, if is_some days then settings_Validate value else Err (Errorf "Release days must be a whole number")).
Definition with_booking_profile (id : Z) (s : LakeSettings) : LakeSettings :=
  MkLakeSettings (LSUserID s) (LSLakeID s) id (LSVehicleKeyword s) (LSTimezone s) (LSReleaseTime s)
    (LSReleaseDaysBefore s) (LSAllDayPassURL s) (LSHalfDayPassURL s) (LSPreferredPasses s) (LSUpdatedAt s).
Definition lakeUpdate (r : Request) (a : requestSession) (id : string) : web answer :=
  _ ← known_lake id;
  let '(input, err) := lakeSettingsInput r id in
  found ← store_call (effectiveLakeSettings a id);
  match found with
  | Err _ => stop internal
  | Ok (_, existing, _) =>
      let settings := with_booking_profile (LSBookingProfileID existing) input in
      saved ← (match (_ ← err; settings_ValidateForOrigins settings (YodelOrigins c)) with
               | Err e => mret (Err e)
               | Ok _ => store_call (SaveLakeSettings (uid a) settings (at_ ev 2))
               end);
      match saved with
      | Err e => renderLakePage r a id (Some settings) (ProblemOf e)
      | Ok _ => mret (see_other r (lake_target id "?ok=updated#defaults"))
      end
  end.
Definition lakeConnectionUpdate (r : Request) (a : requestSession) (id : string) : web answer :=
  _ ← known_lake id;
  found ← store_call (effectiveLakeSettings a id);
  match found with
  | Err _ => stop internal
  | Ok (lake, settings, _) =>
      match parse_int64 (FormGet r "booking_profile_id") with
      | None => renderLakePage r a id None (Problem "Choose an account to use for bookings.")
      | Some profileID =>
          if profileID <=? 0 then renderLakePage r a id None (Problem "Choose an account to use for bookings.")
          else
            listed ← store_call (ListProfiles (uid a));
            match listed with
            | Err _ => stop internal
            | Ok profiles =>
                let settings := with_booking_profile profileID settings in
                match ResolveLakeBookingProfile lake settings profiles with
                | Err e => renderLakePage r a id None (ProblemOf e)
                | Ok _ =>
                    saved ← store_call (SaveLakeSettings (uid a) settings (at_ ev 2));
                    match saved with
                    | Err e => renderLakePage r a id None (ProblemOf e)
                    | Ok _ => mret (see_other r (lake_target (LakeID lake) "?ok=updated#connection"))
                    end
                end
            end
      end
  end.
Definition lakeReset (r : Request) (a : requestSession) (id : string) : web answer :=
  _ ← known_lake id;
  found ← store_call (effectiveLakeSettings a id);
  match found with
  | Err _ => stop internal
  | Ok (lake, settings, _) =>
      saved ← (if LSBookingProfileID settings =? 0 then store_call (ResetLakeSettings (uid a) id)
               else
                 saved ← store_call (SaveLakeSettings (uid a)
                   (with_booking_profile (LSBookingProfileID settings) (DefaultLakeSettings lake)) (at_ ev 2));
                 mret (match saved with Ok _ => Ok tt | Err e => Err e end));
      match saved with
      | Err _ => stop internal
      | Ok _ => mret (see_other r (lake_target id "?notice=lake-defaults-reset#defaults"))
      end
  end.

(** ** One-time-code sources *)

Definition sourceDefault (r : Request) (a : requestSession) (segment : string) : web answer :=
  id ← pathID segment;
  set ← store_call (SetDefaultOTPSource (uid a) id);
  match set with
  | Err e => stop (notFoundOrInternal e)
  | Ok _ => mret (redirectNotice r "/sources" "otp-default-updated")
  end.
Definition OTPProvider_of (s : string) : OTPProvider :=
  if String.eqb s "bluebubbles" then OTPProviderBlueBubbles
  else if String.eqb s "twilio" then OTPProviderTwilio else OTPProviderOther s.
(** [json.Marshal] of a configuration: zero numbers and most empty texts are left out. *)
Definition text_field (name value : string) : list (string * json) := [(name, JString value)].
Definition text_unless_empty (name value : string) : list (string * json) :=
  if String.eqb value "" then [] else text_field name value.
Definition number_unless_zero (name : string) (value : Z) : list (string * json) :=
  if value =? 0 then [] else [(name, JNumber (format_int value))].
Definition bluebubbles_json (v : BlueBubbles.Config) : json :=
  JObject (text_field "base_url" (BlueBubbles.BaseURL v) ++ text_field "password" (BlueBubbles.Password v)
    ++ text_unless_empty "chat_guid" (BlueBubbles.ChatGUID v) ++ text_unless_empty "sender" (BlueBubbles.Sender v)
    ++ text_unless_empty "service" (BlueBubbles.Service v) ++ number_unless_zero "poll_interval" (BlueBubbles.PollInterval v)
    ++ number_unless_zero "request_timeout" (BlueBubbles.RequestTimeout v)
    ++ number_unless_zero "max_response_bytes" (BlueBubbles.MaxResponseBytes v)
    ++ number_unless_zero "page_limit" (BlueBubbles.PageLimit v) ++ number_unless_zero "max_pages" (BlueBubbles.MaxPages v)
    ++ number_unless_zero "freshness" (BlueBubbles.Freshness v))%list.
Definition twilio_json (v : Twilio.Config) : json :=
  JObject (text_field "account_sid" (Twilio.AccountSID v) ++ text_field "auth_token" (Twilio.AuthToken v)
    ++ text_field "to_number" (Twilio.ToNumber v) ++ text_unless_empty "sender" (Twilio.Sender v)
    ++ text_unless_empty "base_url" (Twilio.BaseURL v) ++ number_unless_zero "poll_interval" (Twilio.PollInterval v)
    ++ number_unless_zero "request_timeout" (Twilio.RequestTimeout v)
    ++ number_unless_zero "max_response_bytes" (Twilio.MaxResponseBytes v)
    ++ number_unless_zero "page_limit" (Twilio.PageLimit v) ++ number_unless_zero "max_pages" (Twilio.MaxPages v)
    ++ number_unless_zero "freshness" (Twilio.Freshness v))%list.
Definition blueBubblesIdentity (value : string) : result string :=
  match CanonicalOrigin value with
  | Ok canonical => Ok canonical
  | Err _ => Err (Errorf "BlueBubbles URL must be a server root such as http://bluebubbles.example:1234")
  end.
Definition phoneIdentity (value : string) : string :=
  string_of_list_ascii (filter (λ b, is_digit b = true) (list_ascii_of_string value)).
(** [strings.ToUpper] of an account SID, which [twilio.New] has found to be ASCII. *)
Definition upper_byte (b : ascii) : ascii := if is_lower b then byte (nat_of_ascii b - 32) else b.
Definition ascii_upper (s : string) : string := string_of_list_ascii (upper_byte <$> list_ascii_of_string s).
(** The stored configuration, when the provider stays the same. *)
Definition stored_config {A} (a : requestSession) (kept : option OTPSource) (zero : A)
    (decode : list (string * json) → option A) : ST db A :=
  match kept with
  | None => mret zero
  | Some source => stored ← GetOTPSourceConfig (uid a) (OSID source); lift (decode_onto zero decode stored)
  end.
Definition bluebubbles_input (r : Request) (a : requestSession) (kept : option OTPSource) (input : OTPSourceInput) : ST db OTPSourceInput :=
  cfg ← stored_config a kept BlueBubbles.zero_config BlueBubbles.decode_config;
  let url := trim_space (FormGet r "bb_base_url") in
  let password := FormGet r "bb_password" in
  let provided := negb (String.eqb password "") in
  identity ← lift (blueBubblesIdentity (if String.eqb url "" then BlueBubbles.BaseURL cfg else url));
  _ ← st_reject (match kept with Some current => negb (String.eqb identity (OSIdentity current)) && negb provided | None => false end)
        (Errorf "re-enter the BlueBubbles password when changing its server URL");
  let cfg := BlueBubbles.MkConfig identity (if provided then password else BlueBubbles.Password cfg)
    (BlueBubbles.ChatGUID cfg) (BlueBubbles.Sender cfg) (BlueBubbles.Service cfg) (BlueBubbles.PollInterval cfg)
    (BlueBubbles.RequestTimeout cfg) (BlueBubbles.MaxResponseBytes cfg) (BlueBubbles.PageLimit cfg)
    (BlueBubbles.MaxPages cfg) (BlueBubbles.Freshness cfg) in
  _ ← lift (BlueBubbles.New cfg (Some (BlueBubblesPolicy c)));
  mret (MkSourceInput (SI_Name input) (SI_Provider input) identity (Some (bluebubbles_json cfg)) provided
    (SI_PairingChatGUID input) (SI_PairingSender input) (SI_PairingService input)).
Definition twilio_input (r : Request) (a : requestSession) (kept : option OTPSource) (input : OTPSourceInput) : ST db OTPSourceInput :=
  cfg ← stored_config a kept twilio_zero Twilio.decode_config;
  let given value old := if String.eqb value "" then old else value in
  let cfg := Twilio.MkConfig (given (trim_space (FormGet r "twilio_account_sid")) (Twilio.AccountSID cfg))
    (given (FormGet r "twilio_auth_token") (Twilio.AuthToken cfg))
    (given (trim_space (FormGet r "twilio_to_number")) (Twilio.ToNumber cfg))
    (given (trim_space (FormGet r "twilio_sender")) (Twilio.Sender cfg))
    (Twilio.BaseURL cfg) (Twilio.PollInterval cfg) (Twilio.RequestTimeout cfg) (Twilio.MaxResponseBytes cfg)
    (Twilio.PageLimit cfg) (Twilio.MaxPages cfg) (Twilio.Freshness cfg) in
  _ ← st_reject (String.eqb (Twilio.AccountSID cfg) "" || String.eqb (Twilio.ToNumber cfg) "")
        (Errorf "Twilio account SID and receiving number are required");
  _ ← lift (Twilio.New cfg);
  let identity := "twilio:" +:+ hex_of (take_bytes 12 (sha256_Sum (ascii_upper (Twilio.AccountSID cfg) +:+ ":" +:+ phoneIdentity (Twilio.ToNumber cfg)))) in
  mret (MkSourceInput (SI_Name input) (SI_Provider input) identity (Some (twilio_json cfg)) (SI_SecretProvided input)
    (SI_PairingChatGUID input) (SI_PairingSender input) (SI_PairingService input)).
Definition sourceInput (r : Request) (a : requestSession) (current : option OTPSource) : ST db OTPSourceInput :=
  let provider := OTPProvider_of (trim_space (FormGet r "provider")) in
  let kept := match current with
              | Some source => if bool_decide (provider = OSProvider source) then Some source else None
              | None => None end in
  let input := match kept with
               | Some s => MkSourceInput (FormGet r "name") provider "" None false (OSPairingChatGUID s) (OSPairingSender s) (OSPairingService s)
               | None => MkSourceInput (FormGet r "name") provider "" None false "" "" ""
               end in
  match provider with
  | OTPProviderBlueBubbles => bluebubbles_input r a kept input
  | OTPProviderTwilio => twilio_input r a kept input
  | _ => fail (Errorf "select BlueBubbles or Twilio")
  end.
(** A pending job of the account keeps its source or sign-in from being edited. *)
Definition pendingResourceJob (a : requestSession) (matches : Job → bool) : ST db (option Job) :=
  listed ← ListJobs (uid a) MaxRetainedJobsPerUser;
  mret (List.find (λ j, negb (Terminal (JStatus j)) && matches j) listed).
(** What the stored configuration shows: server, receiving number and sender; one that
    cannot be read shows nothing. *)
Definition stored_shown (a : requestSession) (source : OTPSource) : ST db (string * string * string) :=
  match OSProvider source with
  | OTPProviderBlueBubbles =>
      cfg ← attempt (stored_config a (Some source) BlueBubbles.zero_config BlueBubbles.decode_config);
      mret (match cfg with Ok v => BlueBubbles.BaseURL v | Err _ => BlueBubblesURL c end, "", "")
  | _ =>
      cfg ← attempt (stored_config a (Some source) twilio_zero Twilio.decode_config);
      mret (match cfg with
            | Ok v => (BlueBubblesURL c, Twilio.ToNumber v, Twilio.Sender v)
            | Err _ => (BlueBubblesURL c, "", "")
            end)
  end.
(** The posted text of a form, unless it is empty. *)
Definition posted_or (r : Request) (name stored : string) : string :=
  if posting r && negb (String.eqb (FormGet r name) "") then FormGet r name else stored.
Definition source_form_data (r : Request) (current : option OTPSource) (shown : string * string * string) : formData :=
  let '(bbURL, twilioTo, twilioSender) := shown in
  let provider := if posting r then FormGet r "provider"
                  else from_option (λ s, OTPProvider_string (OSProvider s)) "bluebubbles" current in
  let name := if posting r then FormGet r "name" else from_option OSName "" current in
  let creating := negb (is_some current) in
  MkForm [] "After saving, test the connection from OTP sources. BlueBubbles also needs pairing with a Yodel sign-in." false
    "OTP sources" (if creating then "New OTP source" else "Edit OTP source")
    "Connect the inbox that receives your Yodel login codes. Your sources work across all lakes." "/sources"
    (from_option (λ s, source_url s "") "/sources/new" current) (if creating then "Create source" else "Save source")
    (sourceSections creating provider name (posted_or r "bb_base_url" bbURL) (posted_or r "twilio_to_number" twilioTo)
       (posted_or r "twilio_sender" twilioSender)) true.
(** A job that is under way shows itself on the form and keeps it from being sent. *)
Definition form_page (common : BaseData) (p : problem) (f : formData) (pending : option Job) (help message : string) : answer :=
  match pending with
  | None => respond "form" common p (FormData f)
  | Some job => respond "form" (with_flash (MkFlash "info" message "View job" (job_url (JID job))) common) p (FormData (submit_blocked help f))
  end.
Definition sourceForm {A} (r : Request) (a : requestSession) (current : option OTPSource) (p : problem) : web A :=
  shown ← (match current with
           | None => mret (Ok (BlueBubblesURL c, "", ""))
           | Some source => store_call (stored_shown a source)
           end);
  pending ← (match current with
             | None => mret (Ok None)
             | Some source => store_call (pendingResourceJob a (λ j, JOTPSourceID j =? OSID source))
             end);
  match shown, pending with
  | Ok shown, Ok pending =>
      let f := source_form_data r current shown in
      stop (form_page (base r a (FM_Heading f)) p f pending "This OTP source cannot be changed while its job is pending."
              "A pending job is using this OTP source. View the job to follow progress or cancel before editing.")
  | _, _ => stop internal
  end.
(** The cards of the sources; the check of a pairing is made for BlueBubbles only. *)
Definition source_card (a : requestSession) (default_id : Z) (source : OTPSource) : ST db listCard := λ s,
  let '(setup, err) := CheckPairingSetup (YodelOrigins c) (uid a) (OSID source) [] s in
  (s, card ← sourceCard (YodelOrigins c) source setup err (ListProfiles (uid a) s).2;
      Ok (if OSID source =? default_id then as_default card
          else with_post (MkPost "Make default" (source_url source "/default") "" [] None) card)).
Fixpoint source_cards (a : requestSession) (default_id : Z) (sources : list OTPSource) : ST db (list listCard) :=
  match sources with
  | [] => mret []
  | source :: rest => card ← source_card a default_id source; others ← source_cards a default_id rest; mret (card :: others)
  end.
Definition sourcesPage (r : Request) (a : requestSession) : web answer :=
  read ← store_call (
    sources ← ListOTPSources (uid a);
    chosen ← default_source_read a;
    source_cards a (from_option OSID 0 chosen) sources);
  match read with
  | Err _ => stop internal
  | Ok cards => mret (respond "list" (base r a "OTP sources") NoProblem (SourcesData cards))
  end.
Definition sourceCreate (r : Request) (a : requestSession) : web answer :=
  created ← store_call (input ← sourceInput r a None; CreateOTPSource (uid a) input (random ev 0) (at_ ev 2));
  match created with
  | Err e => sourceForm r a None (ProblemOf e)
  | Ok _ => mret (see_other r "/sources?ok=created")
  end.
Definition owned_source_page (a : requestSession) (id : Z) : web OTPSource :=
  found ← store_call (GetOTPSource (uid a) id);
  match found with Err e => stop (notFoundOrInternal e) | Ok source => mret source end.
Definition sourceEdit (r : Request) (a : requestSession) (segment : string) : web answer :=
  id ← pathID segment;
  source ← owned_source_page a id;
  sourceForm r a (Some source) NoProblem.
Definition sourceUpdate (r : Request) (a : requestSession) (segment : string) : web answer :=
  id ← pathID segment;
  current ← owned_source_page a id;
  updated ← store_call (input ← sourceInput r a (Some current); UpdateOTPSource (uid a) id input (random ev 0) (at_ ev 2));
  match updated with
  | Err e => sourceForm r a (Some current) (ProblemOf e)
  | Ok _ => mret (see_other r "/sources?ok=updated")
  end.
Definition sourceHealth (r : Request) (a : requestSession) (segment : string) : web answer :=
  id ← pathID segment;
  source ← owned_source_page a id;
  built ← store_call (ProviderForSource source (Some (BlueBubblesPolicy c)));
  match (p ← built; health p) with
  | Err _ => stop (redirectNotice r "/sources" "provider-unavailable")
  | Ok _ => mret (see_other r "/sources?ok=healthy")
  end.
Definition job_target (job : Job) (suffix : string) : string := "/jobs/" +:+ format_int (JID job) +:+ suffix.
Definition sourcePair (r : Request) (a : requestSession) (segment : string) : web answer :=
  id ← pathID segment;
  _ ← owned_source_page a id;
  selected ← (if FormHas r "profile_id" then
                match parse_int64 (trim_space (FormGet r "profile_id")) with
                | Some p => if p <=? 0 then stop (redirectNotice r "/sources" "pairing-unavailable") else mret [p]
                | None => stop (redirectNotice r "/sources" "pairing-unavailable")
                end
              else mret []);
  queued ← store_call (QueuePairing (YodelOrigins c) (uid a) id selected (clk ev 2));
  match queued with
  | Err e =>
      if errors_is e ErrNotFound then stop (notFoundOrInternal e)
      else stop (redirectNotice r "/sources" (if errors_is e ErrResourceLimit then "queue-full" else "pairing-unavailable"))
  | Ok job => mret (see_other r (job_target job "?ok=queued"))
  end.

(** ** Sign-ins *)

(** A new sign-in names its lake in the form; an old one keeps its own. *)
Definition profileLakeContext (r : Request) (current : option Profile) : result Lake :=
  let id := match current with
            | Some p => profile_EffectiveLakeID p
            | None => if String.eqb (RqMethod r) "POST" then trim_space (FormGet r "lake_id") else trim_space (QueryGet r "lake_id")
            end in
  let provider := match current with Some p => EffectiveProviderID p | None => ProviderYodel end in
  lake ← Resolve id;
  _ ← reject (negb (String.eqb (ProviderID lake) provider)) (Errorf "this lake uses a different sign-in provider");
  Ok lake.
(** What does not come from the form: the saved sign-in, or the account's defaults. *)
Definition new_profile_base (a : requestSession) (lake : Lake) (name : string) (enabled : bool) : ST db ProfileInput := λ s,
  match (GetDefaultOTPSource (uid a) s).2 with
  | Err e => (s, Err (if errors_is e ErrNotFound then Errorf "choose a default OTP source before adding a Yodel sign-in" else e))
  | Ok source =>
      match (GetAccountSettings (uid a) s).2 with
      | Err e => (s, Err e)
      | Ok settings =>
          (s, Ok (MkProfileInput (ProviderID lake) (LakeID lake) name "" "" (OSID source) (ASHeadless settings)
             (ASBrowserChannel settings) "" (ASDefaultTimeoutMS settings) enabled None))
      end
  end.
Definition profile_base (r : Request) (a : requestSession) (lake : Lake) (current : option Profile) : ST db ProfileInput :=
  let name := trim_space (FormGet r "name") in
  let enabled := checked r "enabled" in
  match current with
  | Some p =>
      mret (MkProfileInput (EffectiveProviderID p) (PLakeID p) name (PDefaultVehicle p) (PLoginProbeURL p) (POTPSourceID p)
        (PHeadless p) (PBrowserChannel p) "" (PDefaultTimeoutMS p) enabled None)
  | None => new_profile_base a lake name enabled
  end.
Definition with_login (url : string) (credentials : option string) (i : ProfileInput) : ProfileInput :=
  MkProfileInput (PI_ProviderID i) (PI_LakeID i) (PI_Name i) (PI_DefaultVehicle i) url (PI_OTPSourceID i) (PI_Headless i)
    (PI_BrowserChannel i) (PI_BrowserExecutable i) (PI_DefaultTimeoutMS i) (PI_Enabled i) credentials.
Definition profileInput (r : Request) (a : requestSession) (current : option Profile) : ST db ProfileInput :=
  lake ← lift (profileLakeContext r current);
  _ ← st_reject (negb (blank (FormGet r "browser_executable"))) (Errorf "browser executable paths are operator-controlled");
  input ← profile_base r a lake current;
  let url := if blank (PI_LoginProbeURL input) then LoginURL (WithOrigin lake approvedOrigin) else PI_LoginProbeURL input in
  let phone := trim_space (FormGet r "yodel_phone") in
  _ ← st_reject (negb (is_some current) && String.eqb phone "") (Errorf "Yodel mobile number is required");
  let input := with_login url (if String.eqb phone "" then None else Some phone) input in
  _ ← lift (input_ValidateForOrigins input (YodelOrigins c));
  mret input.
Definition lakeConnectionURL (lake : Lake) : string := "/lakes/" +:+ Twilio.PathEscape (LakeID lake).
Definition profile_form_data (r : Request) (lake : Lake) (source : option OTPSource) (current : option Profile) : formData :=
  let creating := negb (is_some current) in
  let name := if posting r then FormGet r "name" else from_option PName "" current in
  let enabled := if posting r then checked r "enabled" else from_option PEnabled true current in
  MkForm [("lake_id", LakeID lake)]
    ("Saving keeps your account details. Return to " +:+ LakeName lake +:+ " to connect and check your sign-in status.")
    (creating && (from_option OSID 0 source =? 0)) (LakeName lake) (if creating then "Add Yodel sign-in" else "Edit Yodel sign-in")
    ("Connect to " +:+ LakeName lake +:+ " using the Yodel account you use to book passes.")
    (lakeConnectionURL lake +:+ "#connection") (from_option (λ p, profile_url p "") "/profiles/new" current) "Save sign-in"
    (profileSections creating name enabled) false.
Definition source_flash (source : option OTPSource) : Flash :=
  MkFlash "info"
    (if from_option OSID 0 source =? 0
     then "Choose a default OTP source on the OTP sources page before adding a Yodel sign-in."
     else "Default OTP source: " +:+ from_option OSName "" source +:+ ". Manage the inbox used for login codes on OTP sources.")
    "OTP sources" "/sources".
Definition profileForm {A} (r : Request) (a : requestSession) (current : option Profile) (p : problem) : web A :=
  match profileLakeContext r current with
  | Err _ => stop not_found
  | Ok lake =>
      read ← store_call (default_source_read a);
      match read with
      | Err _ => stop internal
      | Ok source =>
          pending ← (match current with
                     | None => mret (Ok None)
                     | Some profile => store_call (pendingResourceJob a (λ j, JProfileID j =? PID profile))
                     end);
          match pending with
          | Err _ => stop internal
          | Ok pending =>
              let f := profile_form_data r lake source current in
              stop (form_page (with_flash (source_flash source) (base r a (FM_Heading f))) p f pending
                      "This sign-in cannot be changed while its job is pending."
                      "A pending job is using this sign-in. View the job to follow progress or cancel before editing.")
          end
      end
  end.
Definition profileCreate (r : Request) (a : requestSession) : web answer :=
  match profileLakeContext r None with
  | Err _ => stop not_found
  | Ok lake =>
      created ← store_call (input ← profileInput r a None; CreateProfile (uid a) input (random ev 0) (at_ ev 2));
      match created with
      | Err e => profileForm r a None (ProblemOf e)
      | Ok _ => mret (see_other r (lake_target (LakeID lake) "?ok=created#connection"))
      end
  end.
Definition owned_profile_page (a : requestSession) (id : Z) : web Profile :=
  found ← store_call (GetProfile (uid a) id);
  match found with Err e => stop (notFoundOrInternal e) | Ok profile => mret profile end.
Definition profileEdit (r : Request) (a : requestSession) (segment : string) : web answer :=
  id ← pathID segment;
  profile ← owned_profile_page a id;
  profileForm r a (Some profile) NoProblem.
Definition profileUpdate (r : Request) (a : requestSession) (segment : string) : web answer :=
  id ← pathID segment;
  current ← owned_profile_page a id;
  updated ← store_call (input ← profileInput r a (Some current); UpdateProfile (uid a) id input (random ev 0) (at_ ev 2));
  match updated with
  | Err e => profileForm r a (Some current) (ProblemOf e)
  | Ok _ =>
      let lake := match profileLakeContext r (Some current) with Ok lake => LakeID lake | Err _ => "" end in
      mret (see_other r (lake_target lake "?ok=updated#connection"))
  end.
Definition profileSignIn (r : Request) (a : requestSession) (segment : string) : web answer :=
  id ← pathID segment;
  profile ← owned_profile_page a id;
  match profileLakeContext r (Some profile) with
  | Err _ => stop not_found
  | Ok lake =>
      queued ← store_call (QueueProfileSignIn (YodelOrigins c) (uid a) id (clk ev 2));
      match queued with
      | Err e =>
          if errors_is e ErrNotFound then stop not_found
          else if errors_is e ErrConflict
          then renderLakePage r a (LakeID lake) None (Problem
                 "A sign-in or booking is already using this account or its OTP source. Check Jobs before trying again.")
          else renderLakePage r a (LakeID lake) None (ProblemOf e)
      | Ok job => mret (see_other r (job_target job ""))
      end
  end.

(** ** Bookings *)

Record lakeBookingSetup := MkBookingSetup { BSLake : Lake; BSSettings : LakeSettings; BSProfile : Profile; BSAccount : AccountSettings }.
Definition no_profile : Profile := MkProfile 0 0 "" "" "" "" "" 0 false "" "" 0 false zero_time zero_time.
Definition no_account_settings : AccountSettings :=
  MkAccountSettings 0 (RunModeOther "") false "" 0 0 0 0 (S754_zero false) (S754_zero false) zero_time.
(** The setup as far as it goes, with the text of what the member has to do first. *)
Definition booking_setup (a : requestSession) (lakeID : string) : ST db (lakeBookingSetup * string) :=
  '(lake, settings, _) ← effectiveLakeSettings a lakeID;
  profiles ← ListProfiles (uid a);
  let todo profile message := mret (MkBookingSetup lake settings profile no_account_settings, message) in
  match ResolveLakeBookingProfile lake settings profiles with
  | Err e =>
      todo no_profile
        (if errors_is e ErrLakeConnectionAmbiguous then "Choose which account to use for bookings on this lake’s page."
         else if errors_is e ErrLakeConnectionRequired then "Connect your account on this lake’s page before booking."
         else "Update the booking account selected on this lake’s page.")
  | Ok profile =>
      if negb (is_ok (profile_ValidateForOrigins profile (YodelOrigins c)))
      then todo profile "Update your lake connection before booking."
      else
        source ← attempt (GetDefaultOTPSource (uid a));
        match source with
        | Err e =>
            if errors_is e ErrNotFound
            then todo profile "Choose a default OTP source, then finish connecting this lake." else fail e
        | Ok _ =>
            if blank (LSVehicleKeyword settings)
            then todo profile "Set your vehicle keyword on this lake’s page before booking."
            else if negb (is_ok (settings_ValidateForOrigins settings (YodelOrigins c)))
            then todo profile "Review the saved preferences on this lake’s page before booking."
            else account ← GetAccountSettings (uid a); mret (MkBookingSetup lake settings profile account, "")
        end
  end.
Fixpoint booking_cards (a : requestSession) (lakes : list Lake) : ST db (list bookingLakeCard) :=
  match lakes with
  | [] => mret []
  | lake :: rest =>
      '(_, todo) ← booking_setup a (LakeID lake);
      others ← booking_cards a rest;
      mret (MkLakeCard lake (String.eqb todo "") todo :: others)
  end.
Definition lakeBookingsPage (r : Request) (a : requestSession) : web answer :=
  read ← store_call (booking_cards a catalog_list);
  match read with
  | Err _ => stop internal
  | Ok cards => mret (respond "bookings" (base r a "Bookings") NoProblem (BookingsData cards))
  end.
Definition quick_booking_data (r : Request) (setup : lakeBookingSetup) (todo : string) (location : Location) (now : Time) : page_data :=
  let tomorrow := FormatDateOnly location (AddDate location now 0 0 1) in
  let visit := within_limits (FormatDateOnly location now) "" ""
    (mandatory true (field_of "target_date" "Visit date" "date" (Text (if posting r then FormGet r "target_date" else tomorrow)))) in
  let selected i := if posting r then FormGet r (pass_name i) else nth_pass (BSSettings setup) i in
  QuickBookingData (BSLake setup) (PName (BSProfile setup)) todo
    (MkSection "Your visit" "" "" "" false [visit])
    (MkSection "Pass preferences" "Try these in order. Choose None to skip a choice." "form-grid-pass-preferences" "" false
       (imap (booking_pass_field (BSLake setup) selected) pass_labels))
    (if bool_decide (ASDefaultConfirmationMode (BSAccount setup) = RunModeAuto)
     then "Future release jobs confirm automatically. Already-released passes still ask for your approval."
     else "The job will ask for your approval before confirming the pass.").
Definition renderQuickBooking {A} (r : Request) (a : requestSession) (now : Time) (p : problem) : web A :=
  let lakeID := if posting r then FormGet r "lake_id" else QueryGet r "lake_id" in
  _ ← known_lake lakeID;
  found ← store_call (booking_setup a lakeID);
  match found with
  | Err _ => stop internal
  | Ok (setup, todo) =>
      match LoadLocation (LSTimezone (BSSettings setup)) with
      | Err _ => stop internal
      | Ok location =>
          stop (respond "quick_booking" (base r a ("Book " +:+ LakeName (BSLake setup))) p
                  (quick_booking_data r setup todo location now))
      end
  end.
(** The only trip input is the date and the order of the passes. *)
Definition requested_booking (r : Request) (s : lakeBookingSetup) : BookingRequest :=
  let b := ApplyToBooking (BSAccount s) (ApplyTo (BSSettings s)
    (MkBooking 0 0 (LakeName (BSLake s)) (BookingKindOther "") "" (PID (BSProfile s)) "" true false
      (trim_space (FormGet r "target_date")) "" "" None 0 0 0 (S754_zero false) (S754_zero false)
      (ASDefaultConfirmationMode (BSAccount s)) "" "" "" None false false false zero_time zero_time)) in
  let mode := if bool_decide (BConfirmationMode b = RunModeOther "") then RunModeManual else BConfirmationMode b in
  MkBooking (BID b) (BUserID b) (BName b) (BKind b) (BLakeID b) (BProfileID b) (BVehicleKeyword b) (BEnabled b)
    (BScheduleEnabled b) (BTargetDate b) (BTimezone b) (BReleaseTime b) (BReleaseDaysBefore b) (BPrepMinutesBefore b)
    (BAuthDeadlineMinutesBefore b) (BPollDeadlineSeconds b) (BPollMinSeconds b) (BPollMaxSeconds b) mode (BLoginProbeURL b)
    (BAllDayPassURL b) (BHalfDayPassURL b) (Some (pass_choices r)) (BCheckAllDay b) (BCheckAfternoon b) (BCheckMorning b)
    (BCreatedAt b) (BUpdatedAt b).
Definition lakeBookingNew (r : Request) (a : requestSession) : web answer := renderQuickBooking r a (at_ ev 2) NoProblem.
Definition lakeBookingCreate (r : Request) (a : requestSession) : web answer :=
  let lakeID := FormGet r "lake_id" in
  _ ← known_lake lakeID;
  found ← store_call (booking_setup a lakeID);
  match found with
  | Err _ => stop internal
  | Ok (setup, todo) =>
      if negb (String.eqb todo "") then renderQuickBooking r a (at_ ev 9) (Problem todo) else
      queued ← store_call (QueueLakeBooking (YodelOrigins c) (uid a) (requested_booking r setup)
                 (nat_of_ascii <$> list_ascii_of_string (random ev 0)) (clk ev 2));
      match queued with
      | Err e =>
          renderQuickBooking r a (at_ ev 9)
            (if errors_is e ErrResourceLimit then Problem "Your job queue is full. Review Jobs before trying again."
             else if errors_is e ErrConflict
             then Problem "This account already has a booking or pending job for that date. Review Jobs before trying again."
             else if errors_is e ErrBookingDatePassed then Problem "Choose today or a future visit date."
             else ProblemOf e)
      | Ok job => mret (see_other r (job_target job "?ok=queued"))
      end
  end.

(** ** Jobs *)

Definition owned_job_page (a : requestSession) (id : Z) : web Job :=
  found ← store_call (GetJob (uid a) id);
  match found with Err e => stop (notFoundOrInternal e) | Ok job => mret job end.
(** Names that cannot be read are left out. *)
Definition job_rows (a : requestSession) (listed : list Job) : ST db (list jobRow) := λ s,
  let or_none {A} (r : result (list A)) := match r with Ok l => l | Err _ => [] end in
  (s, Ok (jobRows (or_none (ListProfiles (uid a) s).2) (or_none (ListBookingRequests (uid a) s).2) listed)).
Definition jobsPage (r : Request) (a : requestSession) : web answer :=
  read ← store_call (listed ← ListJobs (uid a) 200; job_rows a listed);
  match read with Err _ => stop internal | Ok rows => mret (respond "jobs" (base r a "Jobs") NoProblem (JobsData rows)) end.
(** The first page: who has no sign-in for any lake is sent to the lakes. *)
Definition dashboard (r : Request) (a : requestSession) : web answer :=
  read ← store_call (lakeConnections a);
  match read with
  | Err _ => stop internal
  | Ok connections =>
      _ ← stop_if (negb (existsb LC_Configured connections)) (see_other r "/lakes");
      read ← store_call (
        bookings ← ListBookingRequests (uid a);
        listed ← ListJobs (uid a) 200;
        rows ← job_rows a (take 10 listed);
        mret (rows, upcomingVisits bookings listed (at_ ev 2)));
      match read with
      | Err _ => stop internal
      | Ok (rows, visits) =>
          mret (respond "dashboard" (base r a "Home") NoProblem (DashboardData rows connections (List.length visits) (take 3 visits)))
      end
  end.
(** The booking of a job that is one. *)
Definition booking_of (job : Job) : option Z :=
  if bool_decide (JCommand job = CommandBook) then JBookingRequestID job else None.
Definition job (r : Request) (a : requestSession) (segment : string) : web answer :=
  id ← pathID segment;
  found ← owned_job_page a id;
  profile ← store_call (GetProfile (uid a) (JProfileID found));
  events ← store_call (ListJobEvents (uid a) id 0 500);
  match profile, events with
  | Ok profile, Ok events =>
      booking ← (match booking_of found with
                 | Some bid =>
                     booking ← store_call (GetBookingRequest (uid a) bid);
                     match booking with Err e => stop (notFoundOrInternal e) | Ok b => mret (Some b) end
                 | None => mret None
                 end);
      let data := jobData_of found profile booking events in
      mret (respond "job" (base r a ("Job " +:+ JV_ShortID (JD_Job data))) NoProblem (JobPage data))
  | _, _ => stop internal
  end.
(** The opening of an event stream; what follows is the stream's own. *)
Fixpoint cursor (values : list string) (after : Z) : option Z :=
  match values with
  | [] => Some after
  | value :: rest =>
      if String.eqb value "" then cursor rest after
      else match parse_int64 value with
           | Some v => if v <? 0 then None else cursor rest (Z.max after v)
           | None => None
           end
  end.
Definition jobEventsPage (r : Request) (a : requestSession) (segment : string) : web answer :=
  id ← pathID segment;
  found ← owned_job_page a id;
  location ← (match (if Terminal (JStatus found) then None else booking_of found) with
              | Some bid =>
                  booking ← store_call (GetBookingRequest (uid a) bid);
                  match booking with Err _ => stop internal | Ok b => mret (pendingJobLocation found b) end
              | None => mret UTC
              end);
  match cursor [QueryGet r "after"; HeaderGet r "Last-Event-ID"] 0 with
  | None => stop (http_Error "invalid event cursor" StatusBadRequest)
  | Some after =>
      streams ← ask_server sv_streams;
      match acquire (uid a) streams with
      | None =>
          _ ← retry_after "5";
          stop (http_Error "Too many open event streams. Close another tab and try again." StatusTooManyRequests)
      | Some streams =>
          _ ← change_server (change_streams (λ _, streams));
          match readSessionCookie c r with
          | None =>
              _ ← change_server (change_streams (release (uid a)));
              stop (http_Error "authentication required" StatusUnauthorized)
          | Some token => mret (MkAnswer StatusOK (EventStream (MkStart (uid a) id location after token)))
          end
      end
  end.
Definition jobDecision (r : Request) (a : requestSession) (segment : string) : web answer :=
  id ← pathID segment;
  _ ← owned_job_page a id;
  let decision := FormGet r "decision" in
  decided ←
    (if String.eqb decision "approve" then engine_call (Worker.Decide (uid a) id DecisionApprove (at_ ev 2))
     else if String.eqb decision "cancel" then engine_call (Worker.Decide (uid a) id DecisionCancel (at_ ev 2))
     else if String.eqb decision "cancel-job" then engine_call (Worker.CancelJob (uid a) id (at_ ev 2))
     else if String.eqb decision "pair" then engine_call (ChoosePairing (uid a) id (FormGet r "message_id"))
     else stop (http_Error "unsupported decision" StatusBadRequest));
  match decided with
  | Err _ => stop (http_Error "decision was no longer available" StatusConflict)
  | Ok _ => mret (MkAnswer StatusNoContent NoBody)
  end.
End handlers.
