(* ===== verification/WebServer.v ===== *)
(** * The web server (src/internal/web: server, middleware)

    The table of routes and the order of the layers around a handler. *)

From S2P Require Import Prelude GoStrings GoTime Json Auth Secrets Origin Domain Database JobStore ResourceStore SettingsStore AccountStore.
From S2P Require Import Otp Egress Config Worker Pairing Storage Views Http Web WebAuth WebResources.
From Stdlib Require Import Ascii String SpecFloat.

Open Scope Z_scope.

(** ** Routes *)

Inductive segment := Lit (s : string) | Wild.
Inductive access := Public | SignedIn | Administrator.
(** A handler gets the wildcards of its path, the request, the visitor's address and, unless
    the route is public, the session. *)
Record route := MkRoute {
  rt_method : string; rt_pattern : list segment; rt_access : access;
  rt_handler : string → Request → option string → requestSession → web answer }.

Section server.
Context `{Hashes} `{AEAD} `{TimeZoneDB} `{UnicodeFold} (c : Config) (ev : surroundings).
Context (ParseFloat : string → option float64) (health : provider → result unit) (working : string) (d : disk).

Definition anonymous : requestSession :=
  MkAuthenticated (MkSession "" 0 "" zero_time zero_time zero_time) (MkUser 0 "" (RoleOther "") UserDisabled false zero_time zero_time) "".

Definition routes : list route :=
  [MkRoute "GET" [Lit "login"] Public (λ _ r _ _, loginPage c ev r ["login"]);
   MkRoute "POST" [Lit "login"] Public (λ _ r client _, login c ev r client);
   MkRoute "GET" [Lit "setup"] Public (λ _ r _ _, setupPage c ev r);
   MkRoute "POST" [Lit "setup"] Public (λ _ r client _, setup c ev r client);
   MkRoute "POST" [Lit "logout"] SignedIn (λ _ r _ _, logout c r);
   MkRoute "GET" [Lit "account"] SignedIn (λ _ r _ a, accountPage r a);
   MkRoute "POST" [Lit "account"; Lit "password"] SignedIn (λ _ r _ a, accountPassword c ev r a);
   MkRoute "POST" [Lit "account"; Lit "username"] SignedIn (λ _ r _ a, accountUsername ev r a);
   MkRoute "GET" [Lit "settings"] SignedIn (λ _ r _ a, settingsPage r a);
   MkRoute "POST" [Lit "settings"] SignedIn (λ _ r _ a, settingsUpdate ev ParseFloat r a);
   MkRoute "GET" [Lit "settings"; Lit "network"] Administrator (λ _ r _ a, networkSettingsPage c r a);
   MkRoute "POST" [Lit "settings"; Lit "network"] Administrator (λ _ r _ a, networkSettingsUpdate c r a);
   MkRoute "GET" [Lit "lakes"] SignedIn (λ _ r _ a, lakesPage c r a);
   MkRoute "GET" [Lit "lakes"; Wild] SignedIn (λ id r _ a, renderLakePage c r a id None NoProblem);
   MkRoute "POST" [Lit "lakes"; Wild] SignedIn (λ id r _ a, lakeUpdate c ev r a id);
   MkRoute "POST" [Lit "lakes"; Wild; Lit "reset"] SignedIn (λ id r _ a, lakeReset c ev r a id);
   MkRoute "POST" [Lit "lakes"; Wild; Lit "connection"] SignedIn (λ id r _ a, lakeConnectionUpdate c ev r a id);
   MkRoute "GET" [Lit "admin"; Lit "users"] Administrator (λ _ r _ a, usersPage r a);
   MkRoute "GET" [Lit "admin"; Lit "users"; Lit "new"] Administrator (λ _ r _ a, userNewPage r a);
   MkRoute "POST" [Lit "admin"; Lit "users"; Lit "new"] Administrator (λ _ r _ a, userCreate ev r a);
   MkRoute "GET" [Lit "admin"; Lit "users"; Wild] Administrator (λ id r _ a, userEditPage r a id);
   MkRoute "POST" [Lit "admin"; Lit "users"; Wild] Administrator (λ id r _ a, userUpdate ev r a id);
   MkRoute "POST" [Lit "admin"; Lit "users"; Wild; Lit "password"] Administrator (λ id r _ a, userResetPassword ev r a id);
   MkRoute "POST" [Lit "admin"; Lit "users"; Wild; Lit "delete"] Administrator (λ id r _ a, userDelete c working d r a id);
   MkRoute "GET" [Lit ""] SignedIn (λ _ r _ a, dashboard c ev r a);
   MkRoute "GET" [Lit "sources"] SignedIn (λ _ r _ a, sourcesPage c r a);
   MkRoute "GET" [Lit "sources"; Lit "new"] SignedIn (λ _ r _ a, sourceForm c r a None NoProblem);
   MkRoute "POST" [Lit "sources"; Lit "new"] SignedIn (λ _ r _ a, sourceCreate c ev r a);
   MkRoute "GET" [Lit "sources"; Wild] SignedIn (λ id r _ a, sourceEdit c r a id);
   MkRoute "POST" [Lit "sources"; Wild] SignedIn (λ id r _ a, sourceUpdate c ev r a id);
   MkRoute "POST" [Lit "sources"; Wild; Lit "health"] SignedIn (λ id r _ a, sourceHealth c health r a id);
   MkRoute "POST" [Lit "sources"; Wild; Lit "pair"] SignedIn (λ id r _ a, sourcePair c ev r a id);
   MkRoute "POST" [Lit "sources"; Wild; Lit "default"] SignedIn (λ id r _ a, sourceDefault r a id);
   MkRoute "GET" [Lit "profiles"] SignedIn (λ _ r _ _, mret (see_other r "/lakes"));
   MkRoute "GET" [Lit "profiles"; Lit "new"] SignedIn (λ _ r _ a, profileForm r a None NoProblem);
   MkRoute "POST" [Lit "profiles"; Lit "new"] SignedIn (λ _ r _ a, profileCreate c ev r a);
   MkRoute "GET" [Lit "profiles"; Wild] SignedIn (λ id r _ a, profileEdit r a id);
   MkRoute "POST" [Lit "profiles"; Wild] SignedIn (λ id r _ a, profileUpdate c ev r a id);
   MkRoute "POST" [Lit "profiles"; Wild; Lit "sign-in"] SignedIn (λ id r _ a, profileSignIn c ev r a id);
   MkRoute "GET" [Lit "bookings"] SignedIn (λ _ r _ a, lakeBookingsPage c r a);
   MkRoute "GET" [Lit "bookings"; Lit "new"] SignedIn (λ _ r _ a, lakeBookingNew c ev r a);
   MkRoute "POST" [Lit "bookings"; Lit "new"] SignedIn (λ _ r _ a, lakeBookingCreate c ev r a);
   MkRoute "GET" [Lit "jobs"] SignedIn (λ _ r _ a, jobsPage r a);
   MkRoute "GET" [Lit "jobs"; Wild] SignedIn (λ id r _ a, job r a id);
   MkRoute "GET" [Lit "jobs"; Wild; Lit "events"] SignedIn (λ id r _ a, jobEventsPage c r a id);
   MkRoute "POST" [Lit "jobs"; Wild; Lit "decision"] SignedIn (λ id r _ a, jobDecision ev r a id)].

(** The wildcard of a path that matches; a wildcard is not empty. *)
Fixpoint captured (pattern : list segment) (path : list string) (wild : string) : option string :=
  match pattern, path with
  | [], [] => Some wild
  | Lit s :: pattern, p :: path => if String.eqb s p then captured pattern path wild else None
  | Wild :: pattern, p :: path => if String.eqb p "" then None else captured pattern path p
  | _, _ => None
  end.
(** A pattern with [GET] also takes [HEAD]. *)
Definition method_matches (pattern method : string) : bool :=
  String.eqb pattern method || (String.eqb pattern "GET" && String.eqb method "HEAD").
(** Where two patterns match, the table lists the more specific one first. *)
Fixpoint dispatch (table : list route) (method : string) (path : list string) : option (route * string) :=
  match table with
  | [] => None
  | rt :: rest =>
      match captured (rt_pattern rt) path "" with
      | Some wild => if method_matches (rt_method rt) method then Some (rt, wild) else dispatch rest method path
      | None => dispatch rest method path
      end
  end.
Definition other_method (path : list string) : bool :=
  existsb (λ rt, is_some (captured (rt_pattern rt) path "")) routes.

(** ** The layers *)

Definition serve_route (r : Request) (path : list string) (client : option string) (rt : route) (wild : string) : web answer :=
  match rt_access rt with
  | Public => rt_handler rt wild r client anonymous
  | SignedIn => authenticated c ev r path (rt_handler rt wild r client)
  | Administrator => authenticated c ev r path (λ a, adminOnly a (rt_handler rt wild r client a))
  end.
Definition serve_api (r : Request) (path : list string) (client : option string) : web answer :=
  match dispatch routes (RqMethod r) path with
  | Some (rt, wild) => serve_route r path client rt wild
  | None =>
      if other_method path then stop (http_Error "Method Not Allowed" StatusMethodNotAllowed)
      else stop not_found
  end.
(** [Handler]: the boundary, the health check, the API and the pages of the client. *)
Definition boundary_refusal (e : error) : answer :=
  if errors_is e ErrNetworkSettingsUnavailable
  then http_Error "network settings temporarily unavailable" StatusServiceUnavailable
  else http_Error "bad request" StatusBadRequest.
Definition outside_api (r : Request) : web answer :=
  if healthRequest r then mret (MkAnswer StatusOK NoBody) else mret (MkAnswer StatusOK Frontend).
Definition serve (r : Request) : web answer :=
  admitted ← ask_server (λ s, enforceHTTPBoundary c r (sv_db s));
  match admitted with
  | Err e => stop (boundary_refusal e)
  | Ok client =>
      match RqPath r with
      | [] => outside_api r
      | root :: path =>
          if negb (String.eqb root "api") then outside_api r
          else if is_nil path then stop (MkAnswer 301 (Redirect "/api/"))
          else serve_api r path client
      end
  end.
Definition ServeHTTP (r : Request) (s : server) : server * Response := respond_with (serve r) s.
End server.

(** ** What the browser sees of an error (browser_errors.go) *)

Record browserErrorPage := MkErrorPage { ep_title : string; ep_message : string; ep_returnURL : string; ep_returnLabel : string }.
Definition in_section (path prefix : string) : bool := String.eqb path prefix || has_prefix path (prefix +:+ "/").
Definition browserErrorReturn (path : string) : string * string :=
  if in_section path "/bookings" then ("/bookings", "Back to Bookings")
  else if in_section path "/jobs" then ("/jobs", "Back to Jobs")
  else if in_section path "/account" then ("/account", "Back to Account")
  else if in_section path "/admin/users" then ("/admin/users", "Back to Users")
  else if in_section path "/login" || in_section path "/logout" then ("/login", "Sign in")
  else if in_section path "/setup" then ("/setup", "Back to setup")
  else ("/", "Back to Setup").
Definition error_texts (status : Z) : string * string :=
  if status =? StatusBadRequest then ("The request couldn't be completed", "Return to the app and try again from the current page.")
  else if status =? StatusUnauthorized then ("Please sign in", "Sign in again to continue.")
  else if status =? StatusForbidden then
    ("That action isn't available", "Your session may need refreshing, or you may not have access. Return to the app and try again.")
  else if status =? StatusNotFound then ("Page not found", "This page is unavailable or you don't have access to it.")
  else if status =? StatusMethodNotAllowed then ("That action isn't available", "Return to the app and use the actions shown on the page.")
  else if status =? 413 then ("The submission is too large", "Return to the form and reduce the amount of information submitted.")
  else if status =? StatusTooManyRequests then ("Please wait a moment", "Too many requests were received. Wait before trying again.")
  else if (status =? 502) || (status =? StatusServiceUnavailable) || (status =? 504) then
    ("Temporarily unavailable", "The app couldn't complete this request right now. Please try again later.")
  else ("Something went wrong", "Return to the app and try again. If the problem continues, contact the administrator.").
Definition browserErrorData (path : string) (status : Z) : browserErrorPage :=
  let '(title, message) := error_texts status in
  let '(url, label) := browserErrorReturn path in
  let '(message, url, label) :=
    if (StatusInternalServerError <=? status) && (String.eqb url "/bookings" || String.eqb url "/jobs")
    then ("We could not confirm the result of this action. Check Jobs before trying again.", "/jobs", "Back to Jobs")
    else (message, url, label) in
  let '(url, label) := if status =? StatusUnauthorized then ("/login", "Sign in") else (url, label) in
  MkErrorPage title message url label.

(** The writer a handler writes to: what it passes on to the one beneath; [plain] tells
    whether the content type of the answer is plain text. *)
Inductive writerCall := HeaderCall (status : Z) (plain : bool) | WriteCall (payload : string) | FlushCall.
Record errorWriter := MkWriter { ew_status : Z; ew_plainError : bool; ew_passed : list writerCall }.
Definition pass (call : writerCall) (w : errorWriter) : errorWriter :=
  MkWriter (ew_status w) (ew_plainError w) (ew_passed w ++ [call])%list.
Definition started (w : errorWriter) : errorWriter :=
  if ew_status w =? 0 then MkWriter StatusOK (ew_plainError w) (ew_passed w) else w.
Definition WriteHeader (status : Z) (plain : bool) (w : errorWriter) : errorWriter :=
  if negb (ew_status w =? 0) then w
  else if status <? 200 then pass (HeaderCall status plain) w
  else
    let w := MkWriter status ((400 <=? status) && plain) (ew_passed w) in
    if ew_plainError w then w else pass (HeaderCall status plain) w.
Definition Write (payload : string) (w : errorWriter) : errorWriter :=
  let w := started w in if ew_plainError w then w else pass (WriteCall payload) w.
Definition FlushError (w : errorWriter) : errorWriter :=
  let w := started w in if ew_plainError w then w else pass FlushCall w.
Definition writer_call (w : errorWriter) (call : writerCall) : errorWriter :=
  match call with HeaderCall status plain => WriteHeader status plain w | WriteCall payload => Write payload w | FlushCall => FlushError w end.
Definition fresh_writer : errorWriter := MkWriter 0 false [].

(** An answer as it leaves the server: as it was given, or the page in its place; the other
    headers stay. *)
Inductive presented := AsGiven (a : answer) | ErrorPage (status : Z) (page : browserErrorPage).
Record sentAnswer := MkSent { sn_what : presented; sn_cookies : list Cookie; sn_retry : string }.
Definition apiErrors (r : Request) (rs : Response) : sentAnswer :=
  let path := url_path (RqPath r) in
  let what :=
    match AnBody (RsAnswer rs) with
    | PlainError _ =>
        if has_prefix path "/api/" && (400 <=? AnStatus (RsAnswer rs))
        then ErrorPage (AnStatus (RsAnswer rs)) (browserErrorData (default path (cut_prefix "/api" path)) (AnStatus (RsAnswer rs)))
        else AsGiven (RsAnswer rs)
    | _ => AsGiven (RsAnswer rs)
    end in
  MkSent what (RsCookies rs) (RsRetryAfter rs).
Definition Handler `{Hashes} `{AEAD} `{TimeZoneDB} `{UnicodeFold} (c : Config) (ev : surroundings)
    (ParseFloat : string → option float64) (health : provider → result unit) (working : string) (d : disk)
    (r : Request) (s : server) : server * sentAnswer :=
  let '(s', rs) := ServeHTTP c ev ParseFloat health working d r s in (s', apiErrors r rs).

(** Once an error in plain text has begun, nothing of it is passed on but what came before
    it: informational headers; and no such error is ever begun beneath. *)
Definition informational (call : writerCall) : bool := match call with HeaderCall status _ => status <? 200 | _ => false end.
Definition plain_error_header (call : writerCall) : bool :=
  match call with HeaderCall status plain => (400 <=? status) && plain | _ => false end.
Record writer_inv (w : errorWriter) : Prop := {
  wi_fresh : ew_status w = 0 → ew_plainError w = false ∧ forallb informational (ew_passed w) = true;
  wi_withheld : ew_plainError w = true → forallb informational (ew_passed w) = true;
  wi_clean : existsb plain_error_header (ew_passed w) = false
}.
Lemma forallb_snoc {A} (p : A → bool) l x : forallb p (l ++ [x])%list = forallb p l && p x.
Proof. rewrite forallb_app. simpl. by rewrite andb_true_r. Qed.
Lemma pass_inv call w :
  ew_status w ≠ 0 → ew_plainError w = false → plain_error_header call = false → writer_inv w → writer_inv (pass call w).
Proof.
  intros Hst Hp Hc [Hf Hw Hn]. split; cbn; [done|congruence|].
  rewrite existsb_app, Hn. cbn. by rewrite Hc.
Qed.
Lemma written_inv w : writer_inv w → writer_inv (started w) ∧ ew_status (started w) ≠ 0.
Proof.
  intros [Hf Hw Hn]. unfold started. destruct (Z.eqb_spec (ew_status w) 0) as [Hz|Hz]; [|done].
  split; [|done]. split; cbn; [done| |done]. intros Hp. by apply Hf.
Qed.
Lemma writer_call_inv w call : writer_inv w → writer_inv (writer_call w call).
Proof.
  intros Hw. destruct call as [status plain|payload|]; cbn [writer_call].
  - unfold WriteHeader. destruct (Z.eqb_spec (ew_status w) 0) as [Hz|Hz]; [|done]. cbn [negb].
    destruct Hw as [Hf Hwh Hn]. destruct (Hf Hz) as [Hp Hinfo]. destruct (status <? 200) eqn:Hs.
    + split; cbn.
      * intros _. by rewrite forallb_snoc, Hinfo.
      * congruence.
      * rewrite existsb_app, Hn. cbn. apply Z.ltb_lt in Hs. by rewrite (proj2 (Z.leb_gt 400 status)) by lia.
    + apply Z.ltb_ge in Hs. cbn. destruct ((400 <=? status) && plain) eqn:He.
      * split; cbn; [lia|done|done].
      * split; cbn; [lia|done|]. rewrite existsb_app, Hn. cbn. by rewrite He.
  - unfold Write. destruct (written_inv w Hw) as [Hi Hst]. destruct (ew_plainError (started w)) eqn:Hp; [done|]. by apply pass_inv.
  - unfold FlushError. destruct (written_inv w Hw) as [Hi Hst]. destruct (ew_plainError (started w)) eqn:Hp; [done|]. by apply pass_inv.
Qed.
(** The text of an error a handler writes below /api/ does not reach the browser. *)
Theorem plain_errors_are_withheld calls :
  let w := foldl writer_call fresh_writer calls in
  existsb plain_error_header (ew_passed w) = false ∧ (ew_plainError w = true → forallb informational (ew_passed w) = true).
Proof.
  cbv zeta. assert (Hw : writer_inv (foldl writer_call fresh_writer calls)); [|by split; apply Hw].
  assert (H0 : writer_inv fresh_writer) by done. revert H0. generalize fresh_writer.
  induction calls as [|call calls IH]; intros w Hw; [done|]. by apply IH, writer_call_inv.
Qed.
(** What is shown in its place depends on the path and the status alone. *)
Theorem error_pages_tell_no_diagnostic r status m1 m2 cookies retry :
  has_prefix (url_path (RqPath r)) "/api/" = true → 400 <= status →
  let sent m := apiErrors r (MkResponse (MkAnswer status (PlainError m)) cookies retry) in
  sent m1 = sent m2 ∧ ∃ page, sn_what (sent m1) = ErrorPage status page ∧ has_prefix (ep_returnURL page) "/" = true.
Proof.
  intros Hp Hs. cbv zeta. unfold apiErrors. cbn [RsAnswer AnBody AnStatus RsCookies RsRetryAfter].
  rewrite Hp, (proj2 (Z.leb_le _ _) Hs). cbn [andb]. split; [done|]. eexists. split; [done|].
  unfold browserErrorData, browserErrorReturn. destruct (error_texts status). by repeat case_match; simplify_eq.
Qed.
