(* ===== verification/WebLemmas.v ===== *)
(** * Reasoning about requests

    What the checks of the boundary, of the session and of the form let through, for every
    route of the table: which handlers change nothing, which only sessions of one account,
    and what a request carries that reaches the others. *)

From S2P Require Import Prelude GoStrings GoTime Json Auth Secrets Origin Domain Database JobStore ResourceStore ProfileStore SettingsStore AccountStore.
From S2P Require Import AccountStore Otp BookingQueue Egress Config Worker Pairing Storage JobInvariants Samples SystemSamples EventStore Isolation Views Http Web.
From S2P Require Import WebAuth WebResources WebServer AccountInvariants SystemInvariants.
From Stdlib Require Import Ascii String SpecFloat.

Open Scope Z_scope.

(** ** What sessions do not touch *)

(** The database without its sessions and login attempts. *)
Definition protected (s : db) : db :=
  MkDb (users s) ∅ ∅ (sources s) (profiles s) (bookings s) (jobs s) (events s) (decisions s) (reservations s)
    (lake_settings s) (account_settings s) (otp_preferences s) (network_settings s) (next_user s) 0
    (next_source s) (next_profile s) (next_booking s) (next_job s) (next_event s).
(** What a request can change beyond that: the tables, the hub and the running executions. *)
Definition guarded (s : server) : db * Hub.Hub * gmap Z (option error) :=
  (protected (sv_db s), e_hub (sv_engine s), e_active (sv_engine s)).
#[local] Arguments guarded : simpl never.
(** The database without its login attempts, and the rest of what a request can change. *)
Definition unattempted (s : db) : db :=
  MkDb (users s) (sessions s) ∅ (sources s) (profiles s) (bookings s) (jobs s) (events s) (decisions s) (reservations s)
    (lake_settings s) (account_settings s) (otp_preferences s) (network_settings s) (next_user s) 0
    (next_source s) (next_profile s) (next_booking s) (next_job s) (next_event s).
Definition settled (s : server) : db * Hub.Hub * gmap Z (option error) :=
  (unattempted (sv_db s), e_hub (sv_engine s), e_active (sv_engine s)).
#[local] Arguments settled : simpl never.
Lemma settled_guarded s s' : settled s' = settled s → guarded s' = guarded s ∧ sessions (sv_db s') = sessions (sv_db s).
Proof.
  unfold settled, guarded. intros Heq. pose proof (f_equal (λ g, g.1.1) Heq) as Hdb. cbn in Hdb. split.
  - rewrite (f_equal (λ g, g.1.2) Heq : e_hub _ = _), (f_equal snd Heq : e_active _ = _). f_equal. f_equal.
    unfold protected, unattempted in *. by injection Hdb as -> ? -> -> -> -> -> -> -> -> -> -> -> -> -> -> -> -> ->.
  - exact (f_equal sessions Hdb).
Qed.
Notation quiet_store m := (∀ p, preserves (λ s, unattempted s = p) m).

Lemma quiet_modify f : (∀ s, unattempted (f s) = unattempted s) → quiet_store (modify f).
Proof. intros Hf p. apply preserves_modify. intros s Hs. by rewrite Hf. Qed.
Lemma quiet_map_err {A} (f : error → error) (m : ST db A) : quiet_store m → quiet_store (map_err f m).
Proof. intros Hm p s Hs. specialize (Hm p s Hs). unfold map_err. by destruct (m s) as [s' [a|e]]. Qed.
Lemma quiet_reading {A} (f : db → result A) : quiet_store (λ s, (s, f s)).
Proof. by intros p s Hs. Qed.
Lemma reading_quiet {A} (m : ST db A) : reads m → quiet_store m.
Proof. intros Hm p s Hs. by rewrite (Hm s). Qed.
Ltac still := repeat first
  [ progress intros
  | solve [auto 2 with preserves]
  | apply quiet_reading
  | apply quiet_map_err
  | solve [apply quiet_modify; intros; reflexivity]
  | apply preserves_bind
  | apply preserves_if
  | apply preserves_atomically
  | match goal with
    | |- preserves _ (match ?o with _ => _ end) => destruct o
    | |- preserves _ (let '(_, _) := ?o in _) => destruct o
    end ].

(** Nothing changed but sessions, and those of one account at most. *)
Record own_sessions (uid : Z) (s s' : db) : Prop := {
  ow_rest : protected s' = protected s;
  ow_rows : kept_rows SUserID uid (sessions s) (sessions s')
}.
#[export] Instance own_sessions_preorder uid : PreOrder (own_sessions uid).
Proof. split; [by intros s; split|]. intros s1 s2 s3 [] []. split; [congruence|by etrans]. Qed.
(** The session of a token, if there is one, is the account's. *)
Definition holds_token `{Hashes} (uid : Z) (token : string) (s : db) : Prop :=
  ∀ session, sessions s !! HashToken token = Some session → SUserID session = uid.

Section store.
Context `{Hashes}.
Lemma TouchSession_own uid token now s :
  holds_token uid token s → own_sessions uid s (TouchSession token now s).1 ∧ holds_token uid token (TouchSession token now s).1.
Proof.
  intros Hu. unfold TouchSession. rewrite ST_bind_unfold. cbn [gets]. unfold holds_token in *.
  destruct (sessions s !! HashToken token) as [session|] eqn:Hse; cbn [mbind option_bind].
  2: { cbn. split; [by split|]. intros x Hx. congruence. }
  destruct (live_session now session s); cbn.
  2: { split; [by split|]. intros x Hx. apply Hu. congruence. }
  split; [split; [done|]|].
  - apply kept_rows_insert; [|by apply (Hu session)]. intros b Hb. apply Hu. congruence.
  - intros x. rewrite lookup_insert_eq. intros [= <-]. by apply (Hu session).
Qed.
Lemma DeleteSession_own uid token s : holds_token uid token s → own_sessions uid s (DeleteSession token s).1.
Proof. intros Hu. cbn. split; [done|]. by apply kept_rows_delete. Qed.
Lemma LoginRateLimit_quiet key now window n : quiet_store (LoginRateLimit key now window n).
Proof. unfold LoginRateLimit. still. Qed.
Lemma insert_attempts_quiet (clk : nat → Time) (l : list (nat * string)) s : unattempted (foldl (λ s p, insert_attempt p.2 (clk p.1) s) s l) = unattempted s.
Proof. revert s. induction l as [|[i k] l IH]; intros s; [done|]. simpl. by rewrite IH. Qed.
Lemma RecordLoginAttempts_quiet keys ok clk : quiet_store (RecordLoginAttempts keys ok clk).
Proof.
  unfold RecordLoginAttempts. cbv zeta. still. apply quiet_modify. intros s. apply insert_attempts_quiet.
Qed.
Lemma authenticatePassword_quiet username password slot : quiet_store (authenticatePassword username password slot).
Proof. unfold authenticatePassword. still. Qed.
(** A sign-in trims and adds sessions of the account it names only. *)
Lemma newSession_own uid lifetime hash scope raw csrf now s :
  own_sessions uid s (newSessionInScope uid lifetime hash scope raw csrf now s).1 ∧
  match (newSessionInScope uid lifetime hash scope raw csrf now s).2 with
  | Ok credentials => holds_token uid (SC_Token credentials) (newSessionInScope uid lifetime hash scope raw csrf now s).1
  | Err _ => True
  end.
Proof.
  unfold newSessionInScope. rewrite ST_bind_unfold. unfold st_reject, lift. destruct (reject _ _) as [[]|e]; [|split; [reflexivity|done]]. cbv zeta.
  rewrite ST_bind_unfold. unfold map_err, insert_session. cbn [SUserID SID].
  destruct (users s !! uid) as [r|]; [|split; [reflexivity|done]]. destruct (_ && _); [|split; [reflexivity|done]].
  destruct (sessions (trim_sessions uid s) !! _) eqn:Hnew; [split; [reflexivity|done]|].
  unfold mbind, ST_bind, mret, ST_ret, reject. cbn [negb fst snd SC_Token]. split; [split; [done|]|].
  - etrans; [apply (kept_rows_filter SUserID uid (λ kv, SUserID kv.2 ≠ uid ∨ kv.1 ∈ kept_sessions uid s)); intros k a _ Ha; by left|].
    apply kept_rows_insert; [|done]. intros b Hb. change (sessions (trim_sessions uid s) !! HashToken (NewSessionToken raw scope) = Some b) in Hb. congruence.
  - intros x Hx. cbn in Hx. rewrite lookup_insert_eq in Hx. by injection Hx as <-.
Qed.
Lemma Authenticate_own username password lifetime scope raw csrf slot now s :
  ∃ uid, own_sessions uid s (AuthenticateAndCreateSessionInScope username password lifetime scope raw csrf slot now s).1 ∧
  match (AuthenticateAndCreateSessionInScope username password lifetime scope raw csrf slot now s).2 with
  | Ok (Some (_, credentials)) =>
      holds_token uid (SC_Token credentials) (AuthenticateAndCreateSessionInScope username password lifetime scope raw csrf slot now s).1
  | _ => True
  end.
Proof.
  unfold AuthenticateAndCreateSessionInScope. rewrite ST_bind_unfold.
  pose proof (authenticatePassword_reading username password slot s) as Hr.
  destruct (authenticatePassword username password slot s) as [s1 [[[user hash]|]|e]]; cbn in Hr; subst s1; [|exists 0; split; [reflexivity|done]..].
  exists (UID user). unfold issue_session. destruct (newSession_own (UID user) lifetime (Some hash) scope raw csrf now s) as [Hown Hto].
  destruct (newSessionInScope _ _ _ _ _ _ _ s) as [s' [credentials|e]]; [done|]. by destruct (errors_is e ErrNotFound).
Qed.
End store.

Lemma attempt_reading {A} (m : ST db A) : reads m → reads (attempt m).
Proof. intros Hm s. specialize (Hm s). unfold attempt. by destruct (m s). Qed.
Lemma HasUsers_reading : reads HasUsers.
Proof. done. Qed.
Lemma ListUsers_reading : reads ListUsers.
Proof. done. Qed.
Lemma GetSession_reading `{Hashes} token now : reads (GetSession token now).
Proof. unfold GetSession. keep_reading. Qed.
#[export] Hint Resolve attempt_reading HasUsers_reading ListUsers_reading GetSession_reading : reads.

(** *** What the pages read *)

Section reading.
Context `{Hashes} `{AEAD} `{TimeZoneDB} `{UnicodeFold} (c : Config).
Lemma effective_reading a id : reads (effectiveLakeSettings c a id).
Proof. intros s. unfold effectiveLakeSettings. by repeat case_match. Qed.
Lemma default_read_reading a : reads (default_source_read a).
Proof. intros s. unfold default_source_read. by case_match. Qed.
#[local] Hint Resolve effective_reading default_read_reading : reads.
Lemma stored_config_reading {A} a kept (zero : A) decode : reads (stored_config a kept zero decode).
Proof. unfold stored_config, GetOTPSourceConfig. keep_reading. Qed.
#[local] Hint Resolve stored_config_reading : reads.
Lemma stored_shown_reading a source : reads (stored_shown c a source).
Proof. unfold stored_shown. keep_reading. Qed.
Lemma lakeConnections_reading a : reads (lakeConnections c a).
Proof. unfold lakeConnections. keep_reading. Qed.
Lemma lake_overviews_reading a l : reads (lake_overviews c a l).
Proof. induction l; simpl; unfold lake_overview; keep_reading. Qed.
Lemma pending_reading a f : reads (pendingResourceJob a f).
Proof. unfold pendingResourceJob. keep_reading. Qed.
Lemma source_card_reading a n source : reads (source_card c a n source).
Proof. intros s. unfold source_card. by destruct (CheckPairingSetup _ _ _ _ _). Qed.
#[local] Hint Resolve source_card_reading : reads.
Lemma source_cards_reading a n l : reads (source_cards c a n l).
Proof. induction l; simpl; keep_reading. Qed.
Lemma booking_setup_reading a id : reads (booking_setup c a id).
Proof. unfold booking_setup. keep_reading. Qed.
#[local] Hint Resolve booking_setup_reading : reads.
Lemma booking_cards_reading a l : reads (booking_cards c a l).
Proof. induction l; simpl; keep_reading. Qed.
Lemma job_rows_reading a l : reads (job_rows a l).
Proof. done. Qed.
End reading.
#[export] Hint Resolve stored_config_reading stored_shown_reading effective_reading default_read_reading lakeConnections_reading lake_overviews_reading pending_reading
  source_cards_reading booking_setup_reading booking_cards_reading job_rows_reading : reads.

(** ** Programs that change nothing but login attempts *)

Definition calm {A} (m : web A) : Prop :=
  ∀ x, settled (x_server (m x).1) = settled (x_server x).
Section calm.
Lemma calm_ret {A} (a : A) : calm (mret a).
Proof. done. Qed.
Lemma calm_stop {A} a : calm (stop (A:=A) a).
Proof. done. Qed.
Lemma calm_stop_if b a : calm (stop_if b a).
Proof. by destruct b. Qed.
Lemma calm_bind {A B} (m : web A) (f : A → web B) : calm m → (∀ a, calm (f a)) → calm (m ≫= f).
Proof.
  intros Hm Hf x. specialize (Hm x). unfold mbind, web_bind. destruct (m x) as [x' [a|a]]; [|done].
  simpl in Hm. by rewrite Hf.
Qed.
Lemma calm_if {A} (b : bool) (m1 m2 : web A) : calm m1 → calm m2 → calm (if b then m1 else m2).
Proof. by destruct b. Qed.
Lemma calm_call {A} (m : ST db A) : quiet_store m → calm (store_call m).
Proof.
  intros Hm x. unfold store_call. specialize (Hm (unattempted (sv_db (x_server x))) (sv_db (x_server x)) eq_refl).
  destruct (m (sv_db (x_server x))) as [s r]. simpl in *. unfold settled, sv_db. simpl. by rewrite Hm.
Qed.
Lemma calm_ask {A} (f : server → A) : calm (ask_server f).
Proof. done. Qed.
Lemma calm_change f : (∀ s, settled (f s) = settled s) → calm (change_server f).
Proof. intros Hf x. apply Hf. Qed.
Lemma calm_deferring {A} release (m : web A) : (∀ s, settled (release s) = settled s) → calm m → calm (deferring release m).
Proof. intros Hr Hm x. specialize (Hm x). unfold deferring. destruct (m x) as [x' out]. simpl in *. by rewrite Hr. Qed.
Lemma calm_cookie k : calm (add_cookie k).
Proof. done. Qed.
Lemma calm_retry t : calm (retry_after t).
Proof. done. Qed.
End calm.
Lemma calm_reading {A} (m : ST db A) : reads m → calm (store_call m).
Proof. intros Hm. by apply calm_call, reading_quiet. Qed.
Create HintDb calm.
#[export] Hint Resolve calm_ret calm_stop calm_stop_if calm_if calm_ask calm_cookie calm_retry : calm.
#[export] Hint Resolve calm_call LoginRateLimit_quiet RecordLoginAttempts_quiet : calm.
#[export] Hint Extern 1 (calm (store_call _)) => apply calm_reading; solve [keep_reading] : calm.
Ltac keep_calm := repeat first
  [ progress intros
  | solve [auto 3 with calm]
  | apply calm_bind
  | apply calm_if
  | solve [apply calm_call; still]
  | match goal with
    | |- calm (match ?o with _ => _ end) => destruct o
    | |- calm (let '(_, _) := ?o in _) => destruct o
    end ].

(** ** Programs that change sessions of one account at most *)

Lemma web_bind_unfold {A B} (m : web A) (f : A → web B) x :
  (m ≫= f) x = match m x with (x', Go a) => f a x' | (x', Stop a) => (x', Stop a) end.
Proof. done. Qed.
Definition own_session (uid : Z) (sv sv' : server) : Prop :=
  guarded sv' = guarded sv ∧ kept_rows SUserID uid (sessions (sv_db sv)) (sessions (sv_db sv')).
#[export] Instance own_session_preorder uid : PreOrder (own_session uid).
Proof. split; [by intros s; split|]. intros s1 s2 s3 [] []. split; [congruence|by etrans]. Qed.
Lemma settled_own uid sv sv' : settled sv' = settled sv → own_session uid sv sv'.
Proof. intros [Hg Hs]%settled_guarded. split; [done|]. by rewrite Hs. Qed.
Lemma own_call {A} uid (m : ST db A) x :
  own_sessions uid (sv_db (x_server x)) (m (sv_db (x_server x))).1 → own_session uid (x_server x) (x_server (store_call m x).1).
Proof.
  intros [Hp Hk]. unfold store_call. destruct (m (sv_db (x_server x))) as [s r]. cbn in *. split; [|done].
  unfold guarded, sv_db. simpl. by rewrite Hp.
Qed.

(** The sessions of the account that has the token, if it has. *)
Definition tied `{Hashes} (uid : Z) (token : string) {A} (m : web A) : Prop := ∀ x,
  holds_token uid token (sv_db (x_server x)) → own_session uid (x_server x) (x_server (m x).1).
Definition solo {A} (m : web A) : Prop := ∀ x, ∃ uid, own_session uid (x_server x) (x_server (m x).1).
Section solo.
Context `{Hashes}.
Lemma tied_calm {A} uid token (m : web A) : calm m → tied uid token m.
Proof. intros Hm x _. by apply settled_own. Qed.
Lemma tied_after {A B} uid token (m : web A) (f : A → web B) : calm m → (∀ a, tied uid token (f a)) → tied uid token (m ≫= f).
Proof.
  intros Hm Hf x Hx. specialize (Hm x). rewrite web_bind_unfold. destruct (m x) as [x' [a|a]]; cbn [fst] in *; [|by apply settled_own].
  etrans; [by apply settled_own|]. apply Hf. unfold holds_token. by rewrite (proj2 (settled_guarded _ _ Hm)).
Qed.
Lemma tied_then {A B} uid token (m : web A) (f : A → web B) : tied uid token m → (∀ a, calm (f a)) → tied uid token (m ≫= f).
Proof.
  intros Hm Hf x Hx. specialize (Hm x Hx). rewrite web_bind_unfold. destruct (m x) as [x' [a|a]]; cbn [fst] in *; [|done].
  etrans; [exact Hm|]. by apply settled_own, Hf.
Qed.
Lemma tied_delete uid token {B} (f : result unit → web B) : (∀ a, calm (f a)) → tied uid token (store_call (DeleteSession token) ≫= f).
Proof. apply tied_then. intros x Hx. by apply own_call, DeleteSession_own. Qed.
Lemma solo_calm {A} (m : web A) : calm m → solo m.
Proof. intros Hm x. exists 0. by apply settled_own. Qed.
Lemma solo_after {A B} (m : web A) (f : A → web B) : calm m → (∀ a, solo (f a)) → solo (m ≫= f).
Proof.
  intros Hm Hf x. specialize (Hm x). rewrite web_bind_unfold. destruct (m x) as [x' [a|a]]; cbn [fst] in *; [|exists 0; by apply settled_own].
  destruct (Hf a x') as [uid Ho]. exists uid. etrans; [by apply settled_own|done].
Qed.
Lemma solo_deferring {A} release (m : web A) : (∀ s, settled (release s) = settled s) → solo m → solo (deferring release m).
Proof.
  intros Hr Hm x. destruct (Hm x) as [uid Ho]. exists uid. unfold deferring. destruct (m x) as [x' out]. cbn in *.
  etrans; [exact Ho|]. by apply settled_own.
Qed.
(** After a sign-in its own session may go again. *)
Lemma solo_authenticate {B} username password lifetime scope raw csrf slot now (f : _ → web B) :
  (∀ e, calm (f (Err e))) → calm (f (Ok None)) →
  (∀ uid user credentials, tied uid (SC_Token credentials) (f (Ok (Some (user, credentials))))) →
  solo (store_call (AuthenticateAndCreateSessionInScope username password lifetime scope raw csrf slot now) ≫= f).
Proof.
  intros Herr Hnone Hsome x. rewrite web_bind_unfold.
  destruct (Authenticate_own username password lifetime scope raw csrf slot now (sv_db (x_server x))) as (uid & Hown & Hto). exists uid.
  pose proof (own_call uid _ x Hown) as Ho. unfold store_call in *. destruct (AuthenticateAndCreateSessionInScope _ _ _ _ _ _ _ _ _) as [s r].
  cbn [fst snd] in *. etrans; [exact Ho|]. destruct r as [[[user credentials]|]|e]; [|apply settled_own, Hnone|apply settled_own, Herr].
  by apply Hsome.
Qed.
End solo.

(** ** Programs that leave the database as it is *)

Definition steady {A} (m : web A) : Prop := ∀ x, sv_engine (x_server (m x).1) = sv_engine (x_server x).
Section steady.
Lemma steady_ret {A} (a : A) : steady (mret a).
Proof. done. Qed.
Lemma steady_stop {A} a : steady (stop (A:=A) a).
Proof. done. Qed.
Lemma steady_stop_if b a : steady (stop_if b a).
Proof. by destruct b. Qed.
Lemma steady_bind {A B} (m : web A) (f : A → web B) : steady m → (∀ a, steady (f a)) → steady (m ≫= f).
Proof.
  intros Hm Hf x. specialize (Hm x). unfold mbind, web_bind. destruct (m x) as [x' [a|a]]; [|done].
  simpl in Hm. by rewrite Hf.
Qed.
Lemma steady_if {A} (b : bool) (m1 m2 : web A) : steady m1 → steady m2 → steady (if b then m1 else m2).
Proof. by destruct b. Qed.
Lemma steady_call {A} (m : ST db A) : reads m → steady (store_call m).
Proof.
  intros Hm x. unfold store_call. specialize (Hm (sv_db (x_server x))). destruct (m (sv_db (x_server x))) as [s r].
  simpl in *. subst s. unfold sv_db. by destruct (sv_engine (x_server x)).
Qed.
Lemma steady_ask {A} (f : server → A) : steady (ask_server f).
Proof. done. Qed.
Lemma steady_cookie k : steady (add_cookie k).
Proof. done. Qed.
Lemma steady_retry t : steady (retry_after t).
Proof. done. Qed.
Lemma steady_Go {A} (m : web A) x x' a : steady m → m x = (x', Go a) → sv_engine (x_server x') = sv_engine (x_server x).
Proof. intros Hm Hx. specialize (Hm x). by rewrite Hx in Hm. Qed.
End steady.
Create HintDb steady.
#[export] Hint Resolve steady_ret steady_stop steady_stop_if steady_if steady_call steady_ask steady_cookie steady_retry : steady.
Ltac keep_steady := repeat first
  [ progress intros
  | solve [auto 3 with steady reads]
  | apply steady_bind
  | apply steady_if
  | match goal with
    | |- steady (match ?o with _ => _ end) => destruct o
    | |- steady (let '(_, _) := ?o in _) => destruct o
    end ].

Section layers.
Context `{Hashes} `{UnicodeFold} (c : Config) (ev : surroundings).

Lemma setCookie_calm name value lifetime : calm (setCookie c name value lifetime).
Proof. unfold setCookie. keep_calm. Qed.
Lemma clearCookie_calm name : calm (clearCookie c name).
Proof. unfold clearCookie. keep_calm. Qed.
Lemma clearAuthCookies_calm : calm (clearAuthCookies c).
Proof. unfold clearAuthCookies. apply calm_bind; intros; apply clearCookie_calm. Qed.
Lemma unauthorized_calm {A} r path : calm (unauthorized (A:=A) r path).
Proof. unfold unauthorized. keep_calm. Qed.
Lemma authBusy_calm {A} : calm (authBusy (A:=A)).
Proof. unfold authBusy. keep_calm. Qed.
Lemma sessionFailure_calm {A} r path e : calm (sessionFailure (A:=A) c r path e).
Proof.
  unfold sessionFailure. destruct (errors_is e ErrNotFound); [|keep_calm].
  apply calm_bind; [apply clearAuthCookies_calm|]. intros. apply unauthorized_calm.
Qed.
#[local] Hint Resolve setCookie_calm clearCookie_calm clearAuthCookies_calm unauthorized_calm authBusy_calm sessionFailure_calm : calm.

(** *** The session and the form *)

(** The programs that end in an answer. *)
Definition stops {A} (m : web A) : Prop := ∀ x x' a, m x ≠ (x', Go a).
Lemma stops_bind {A B} (m : web A) (f : A → web B) : (∀ a, stops (f a)) → stops (m ≫= f).
Proof. intros Hf x x' b. unfold mbind, web_bind. destruct (m x) as [x1 [a|a]]; [apply Hf|done]. Qed.
Lemma unauthorized_stops {A} r path : stops (unauthorized (A:=A) r path).
Proof.
  unfold unauthorized. destruct (_ || _); [done|]. apply stops_bind. intros [[]|e]; done.
Qed.
Lemma failure_stops {A} r path e : stops (sessionFailure (A:=A) c r path e).
Proof.
  unfold sessionFailure. destruct (errors_is e ErrNotFound); apply stops_bind; intros ?; [apply unauthorized_stops|done].
Qed.
Lemma cleared_stops {A} r path : stops (_ ← clearAuthCookies c; unauthorized (A:=A) r path).
Proof. apply stops_bind. intros ?. apply unauthorized_stops. Qed.
Lemma cross_site_passed r session csrf x x' :
  cross_site_checks c r session csrf x = (x', Go tt) → safe_method (RqMethod r) = false →
  FormGet r "csrf_token" = csrf ∧ originAllowed c r = true.
Proof.
  unfold cross_site_checks. intros Hrun Hm. rewrite Hm in Hrun. unfold mbind, web_bind, stop_if in Hrun.
  destruct (originAllowed c r); [|done]. cbn in Hrun. destruct (negb (is_some (RqPosted r)) || _ || _) eqn:Hc; [done|].
  apply orb_false_iff in Hc as [Hc _]. apply orb_false_iff in Hc as [_ Hc]. apply negb_false_iff, String.eqb_eq in Hc. done.
Qed.


(** What a request carries that reaches the handler of a signed-in account: the token of a
    live session bound to this mode and origin, the CSRF token of that session in its cookie
    and, unless it only reads, in its form and from an allowed origin. *)
Definition authorised (r : Request) (path : list string) (s : db) (session : Session) (user : User) : Prop :=
  (∃ token, readSessionCookie c r = Some token ∧ (GetSession token (at_ ev 0) s).2 = Ok (session, user)) ∧
  (∃ csrf, readCookie c r csrfCookie = Some csrf ∧ ValidateCSRF session csrf = true ∧
     (safe_method (RqMethod r) = false → FormGet r "csrf_token" = csrf ∧ originAllowed c r = true)) ∧
  (UMustChangePassword user = true → url_path path ∈ ["/account"; "/account/password"; "/logout"]).

Lemma store_call_read {A} (m : ST db A) x :
  (∃ x', store_call m x = (x', Go (m (sv_db (x_server x))).2)).
Proof. unfold store_call. destruct (m (sv_db (x_server x))) as [s r]. by eexists. Qed.

Lemma clearAuthCookies_steady : steady (clearAuthCookies c).
Proof. unfold clearAuthCookies, clearCookie. keep_steady. Qed.
Lemma unauthorized_steady {A} r path : steady (unauthorized (A:=A) r path).
Proof. unfold unauthorized. keep_steady. Qed.
#[local] Hint Resolve clearAuthCookies_steady unauthorized_steady : steady.
Lemma live_request_steady r path : steady (live_request c ev r path).
Proof. unfold live_request, sessionFailure. keep_steady. Qed.
Lemma csrf_of_steady r path session : steady (csrf_of c r path session).
Proof. unfold csrf_of. keep_steady. Qed.
Lemma cross_site_steady r session csrf : steady (cross_site_checks c r session csrf).
Proof. unfold cross_site_checks. keep_steady. Qed.

(** Every request that is not authorised changes sessions of one account at most; an
    authorised one reaches its handler after its session has been touched. *)
Lemma authenticated_cases r path next x :
  (∃ uid, own_session uid (x_server x) (x_server (authenticated c ev r path next x).1)) ∨
  ∃ session user csrf token x', authorised r path (sv_db (x_server x)) session user ∧ own_session (SUserID session) (x_server x) (x_server x')
    ∧ readSessionCookie c r = Some token ∧ holds_token (SUserID session) token (sv_db (x_server x'))
    ∧ sv_db (x_server x') = (TouchSession token (at_ ev 1) (sv_db (x_server x))).1
    ∧ authenticated c ev r path next x = next (MkAuthenticated session user csrf) x'.
Proof.
  unfold authenticated. rewrite web_bind_unfold.
  assert (calm (live_request c ev r path)) as Hlive by (unfold live_request; keep_calm). specialize (Hlive x).
  destruct (live_request c ev r path x) as [x1 [[token [session user]]|a]] eqn:Hl; [|left; exists 0; by apply settled_own]. simpl in Hlive.
  assert (readSessionCookie c r = Some token ∧ (GetSession token (at_ ev 0) (sv_db (x_server x))).2 = Ok (session, user)) as Hsession.
  { unfold live_request in Hl. destruct (readSessionCookie c r) as [t|]; [|by destruct (unauthorized_stops r path x _ _ Hl)].
    destruct (String.eqb t ""); [by destruct (unauthorized_stops r path x _ _ Hl)|].
    rewrite web_bind_unfold in Hl. destruct (store_call_read (GetSession t (at_ ev 0)) x) as [x' Hx]. rewrite Hx in Hl.
    destruct ((GetSession t (at_ ev 0) (sv_db (x_server x))).2) as [[se us]|e] eqn:Hg; [|by destruct (failure_stops r path e x' _ _ Hl)].
    by injection Hl as _ <- <- <-. }
  rewrite web_bind_unfold. assert (calm (csrf_of c r path session)) as Hcsrf by (unfold csrf_of; keep_calm). specialize (Hcsrf x1).
  destruct (csrf_of c r path session x1) as [x2 [csrf|a]] eqn:Hcs; simpl in Hcsrf; [|left; exists 0; apply settled_own; simpl; congruence].
  assert (readCookie c r csrfCookie = Some csrf ∧ ValidateCSRF session csrf = true) as Hcookie.
  { unfold csrf_of in Hcs. destruct (readCookie c r csrfCookie) as [v|]; [|by destruct (cleared_stops r path x1 _ _ Hcs)].
    destruct (ValidateCSRF session v) eqn:Hv; [by injection Hcs as _ <-|by destruct (cleared_stops r path x1 _ _ Hcs)]. }
  rewrite web_bind_unfold. assert (calm (cross_site_checks c r session csrf)) as Hcross by (unfold cross_site_checks; keep_calm).
  specialize (Hcross x2). destruct (cross_site_checks c r session csrf x2) as [x3 [[]|a]] eqn:Hx3; simpl in Hcross;
    [|left; exists 0; apply settled_own; simpl; congruence].
  assert (sv_db (x_server x3) = sv_db (x_server x)) as Hdb.
  { apply steady_Go in Hl; [|apply live_request_steady]. apply steady_Go in Hcs; [|apply csrf_of_steady].
    apply steady_Go in Hx3; [|apply cross_site_steady]. unfold sv_db. congruence. }
  assert (holds_token (SUserID session) token (sv_db (x_server x3))) as Hholds.
  { rewrite Hdb. destruct Hsession as [_ Hget]. unfold GetSession in Hget. rewrite ST_bind_unfold in Hget. cbn [gets] in Hget.
    intros se Hse. rewrite Hse in Hget. cbn [mbind option_bind] in Hget. destruct (users _ !! _); [|done]. cbn [mbind option_bind] in Hget.
    destruct (live_session _ _ _); [|done]. by injection Hget as -> _. }
  assert (own_session (SUserID session) (x_server x) (x_server x3)) as Hown3 by (apply settled_own; congruence).
  destruct (TouchSession_own (SUserID session) token (at_ ev 1) _ Hholds) as [Htouch Hstill].
  rewrite web_bind_unfold. pose proof (own_call _ _ x3 Htouch) as Hown4.
  destruct (store_call (TouchSession token (at_ ev 1)) x3) as [x4 [[[]|e]|a]] eqn:Htok; cbn [fst] in Hown4.
  2: { left. exists (SUserID session). etrans; [exact Hown3|]. etrans; [exact Hown4|]. apply settled_own, sessionFailure_calm. }
  2: { left. exists (SUserID session). etrans; [exact Hown3|exact Hown4]. }
  rewrite web_bind_unfold. unfold stop_if. destruct (UMustChangePassword user && _) eqn:Hmust.
  { left. exists (SUserID session). etrans; [exact Hown3|exact Hown4]. }
  assert (sv_db (x_server x4) = (TouchSession token (at_ ev 1) (sv_db (x_server x3))).1) as Hdb4.
  { unfold store_call in Htok. by destruct (TouchSession token (at_ ev 1) (sv_db (x_server x3))) as [s' r']; injection Htok as <- _. }
  right. exists session, user, csrf, token, x4. split_and!; [|by etrans|apply Hsession|by rewrite Hdb4|by rewrite Hdb4, Hdb|done].
  split_and!; [by exists token| |].
  - exists csrf. destruct Hcookie. split_and!; [done..|]. intros Hm. by apply (cross_site_passed r session csrf x2 x3).
  - intros Hch. rewrite Hch in Hmust. by apply negb_false_iff, bool_decide_eq_true in Hmust.
Qed.
End layers.

(** ** The public handlers *)

Section public.
Context `{Hashes} `{UnicodeFold} (c : Config) (ev : surroundings).
#[local] Hint Resolve setCookie_calm clearCookie_calm clearAuthCookies_calm unauthorized_calm authBusy_calm sessionFailure_calm : calm.

Lemma login_unavailable_calm {A} : calm (login_unavailable (A:=A)).
Proof. unfold login_unavailable. keep_calm. Qed.
Lemma holding_login_calm {A} (m : web A) : calm m → calm (holding_login m).
Proof.
  intros Hm. unfold holding_login. apply calm_bind; [keep_calm|]. intros [|]; [keep_calm|].
  apply calm_bind; [apply calm_change; done|]. intros _. by apply calm_deferring.
Qed.
Lemma public_form_calm r : calm (public_form c r).
Proof. unfold public_form, wrong_csrf. keep_calm. Qed.
#[local] Hint Resolve login_unavailable_calm public_form_calm : calm.
Lemma loginPage_calm r path : calm (loginPage c ev r path).
Proof. unfold loginPage. keep_calm. Qed.
Lemma setupPage_calm r : calm (setupPage c ev r).
Proof. unfold setupPage. keep_calm. Qed.
Lemma rate_limit_calm key now limit : calm (rate_limit key now limit).
Proof. unfold rate_limit. keep_calm. Qed.
#[local] Hint Resolve rate_limit_calm : calm.
Lemma holding_login_solo {A} (m : web A) : solo m → solo (holding_login m).
Proof.
  intros Hm. unfold holding_login. apply solo_after; [keep_calm|]. intros [|]; [apply solo_calm; keep_calm|].
  apply solo_after; [apply calm_change; done|]. intros _. by apply solo_deferring.
Qed.
Lemma login_solo r client : solo (login c ev r client).
Proof.
  unfold login. apply solo_after; [keep_calm|]. intros _. apply holding_login_solo.
  apply solo_after; [keep_calm|]. intros [[|]|e]; [|apply solo_calm; keep_calm..]. destruct (login_keys r client) as [ipKey userKey].
  do 3 (apply solo_after; [keep_calm|intros ?]). apply solo_authenticate; [intros; keep_calm..|]. intros uid user credentials.
  apply tied_after; [keep_calm|]. intros [u|e]; [apply tied_calm; keep_calm|]. apply tied_delete. intros. keep_calm.
Qed.
Lemma renderSetupError_calm {A} u p : calm (renderSetupError (A:=A) c ev u p).
Proof. unfold renderSetupError. keep_calm. Qed.
Lemma admitInvalidSetupToken_calm r client : calm (admitInvalidSetupToken ev r client).
Proof. unfold admitInvalidSetupToken, admit_setup. keep_calm. Qed.

(** What the first-run setup asks of a request. *)
Definition first_run (r : Request) (s : db) : Prop :=
  originAllowed c r = true ∧ (∀ id, users s !! id = None) ∧ SetupToken c ≠ "" ∧
  tokenEqual (SetupToken c) (FormGet r "setup_token") = true ∧
  ∃ cookie, readCookie c r loginCSRFCookie = Some cookie ∧ FormGet r "csrf_token" = cookie.
Lemma HasUsers_none s : (HasUsers s).2 = Ok false → ∀ id, users s !! id = None.
Proof.
  unfold HasUsers, gets. simpl. intros [= He] id. destruct (users s !! id) as [u|] eqn:Hu; [|done]. exfalso.
  assert (exists_row (λ _ : UserRow, true) (users s) = true); [|congruence].
  by apply exists_row_true; exists id, u.
Qed.
Lemma calm_until {A B} (m : web A) (f : A → web B) : calm m → stops m → calm (m ≫= f).
Proof.
  intros Hm Hs x. specialize (Hm x). unfold mbind, web_bind. destruct (m x) as [x' [a|a]] eqn:Hx; [by destruct (Hs x x' a)|done].
Qed.
Lemma renderSetupError_stops {A} u p : stops (renderSetupError (A:=A) c ev u p).
Proof. unfold renderSetupError. by apply stops_bind. Qed.
#[local] Hint Resolve renderSetupError_calm admitInvalidSetupToken_calm : calm.

(** Without the token of the host the setup changes nothing. *)
Lemma setup_without_token_calm r client :
  SetupToken c = "" ∨ tokenEqual (SetupToken c) (FormGet r "setup_token") = false → calm (setup c ev r client).
Proof.
  intros Hno. unfold setup. apply calm_bind; [keep_calm|]. intros _. apply holding_login_calm.
  apply calm_bind; [keep_calm|]. intros [[|]|e]; [keep_calm| |keep_calm].
  destruct (String.eqb_spec (SetupToken c) "") as [->|Hne].
  { apply calm_until; [keep_calm|]. by intros x x' a. }
  destruct Hno as [?|Hno]; [done|]. apply calm_bind; [keep_calm|]. intros _. cbv zeta. rewrite Hno.
  apply calm_until; [keep_calm|]. apply stops_bind. intros _. apply renderSetupError_stops.
Qed.
Lemma public_form_Ok r x x' :
  public_form c r x = (x', Go tt) →
  x' = x ∧ originAllowed c r = true ∧ ∃ cookie, readCookie c r loginCSRFCookie = Some cookie ∧ FormGet r "csrf_token" = cookie.
Proof.
  unfold public_form, stop_if, mbind, web_bind. destruct (originAllowed c r); [|done]. cbn.
  destruct (is_some (RqPosted r)); [|done]. cbn. destruct (readCookie c r loginCSRFCookie) as [v|]; [|done].
  destruct (constantEqual v (FormGet r "csrf_token")) eqn:He; [|done]. intros [= <-]. apply String.eqb_eq in He. by split_and!; [..|exists v].
Qed.
Lemma settled_busy b s : settled (with_login_busy b s) = settled s.
Proof. done. Qed.
Lemma setup_cases r client x :
  settled (x_server (setup c ev r client x).1) = settled (x_server x) ∨ first_run r (sv_db (x_server x)).
Proof.
  destruct (String.eqb_spec (SetupToken c) "") as [Hempty|Hne]; [left; apply setup_without_token_calm; by left|].
  destruct (tokenEqual (SetupToken c) (FormGet r "setup_token")) eqn:Ht; [|left; apply setup_without_token_calm; by right].
  destruct (HasUsers (sv_db (x_server x))).2 as [[|]|e] eqn:Hu.
  2: { unfold setup. rewrite web_bind_unfold. pose proof (public_form_calm r x) as Hcalm.
       destruct (public_form c r x) as [x1 [[]|a]] eqn:Hform; [|left; exact Hcalm].
       apply public_form_Ok in Hform as (-> & Horigin & Hcookie). right. split_and!; try done. by apply HasUsers_none. }
  all: left; unfold setup; rewrite web_bind_unfold; pose proof (public_form_calm r x) as Hcalm;
    destruct (public_form c r x) as [x1 [[]|a]] eqn:Hform; [|exact Hcalm]; apply public_form_Ok in Hform as (-> & _).
  all: unfold holding_login, ask_server; rewrite web_bind_unfold; destruct (sv_login_busy (x_server x)); [apply authBusy_calm|].
  all: unfold change_server; rewrite web_bind_unfold; unfold deferring; rewrite web_bind_unfold.
  all: pose proof (calm_reading HasUsers HasUsers_reading (with_server (with_login_busy true (x_server x)) x)) as Hq;
    destruct (store_call_read HasUsers (with_server (with_login_busy true (x_server x)) x)) as [x2 Hx2]; rewrite Hx2 in Hq |- *;
    change (sv_db (x_server (with_server (with_login_busy true (x_server x)) x))) with (sv_db (x_server x)); rewrite Hu; simpl in Hq; rewrite settled_busy in Hq.
  - rewrite web_bind_unfold. pose proof (clearCookie_calm c loginCSRFCookie x2) as Hc. destruct (clearCookie c loginCSRFCookie x2) as [x3 [[]|a]];
      simpl in *; rewrite settled_busy; congruence.
  - simpl. rewrite settled_busy. congruence.
Qed.
End public.

(** ** The pages *)

Section pages.
Context `{Hashes} `{AEAD} `{TimeZoneDB} `{UnicodeFold} (c : Config) (ev : surroundings).
Context (ParseFloat : string → option float64) (health : provider → result unit) (working : string) (d : disk).

Lemma pathID_calm s : calm (pathID s).
Proof. unfold pathID. keep_calm. Qed.
Lemma known_lake_calm id : calm (known_lake id).
Proof. unfold known_lake. keep_calm. Qed.
#[local] Hint Resolve pathID_calm known_lake_calm : calm.

Lemma settingsPage_calm r a : calm (settingsPage r a).
Proof. unfold settingsPage. keep_calm. Qed.
Lemma networkSettingsPage_calm r a : calm (networkSettingsPage c r a).
Proof. unfold networkSettingsPage. keep_calm. Qed.
Lemma renderLakePage_calm {A} r a id sub p : calm (renderLakePage (A:=A) c r a id sub p).
Proof. unfold renderLakePage. keep_calm. Qed.
Lemma userEditPage_calm r a s : calm (userEditPage r a s).
Proof. unfold userEditPage, managed_member. keep_calm. Qed.
Lemma sourceForm_calm {A} r a cur p : calm (sourceForm (A:=A) c r a cur p).
Proof. unfold sourceForm. keep_calm. Qed.
Lemma owned_source_calm a id : calm (owned_source_page a id).
Proof. unfold owned_source_page. keep_calm. Qed.
Lemma owned_profile_calm a id : calm (owned_profile_page a id).
Proof. unfold owned_profile_page. keep_calm. Qed.
Lemma owned_job_calm a id : calm (owned_job_page a id).
Proof. unfold owned_job_page. keep_calm. Qed.
#[local] Hint Resolve renderLakePage_calm sourceForm_calm owned_source_calm owned_profile_calm owned_job_calm : calm.
Lemma sourceEdit_calm r a s : calm (sourceEdit c r a s).
Proof. unfold sourceEdit. keep_calm. Qed.
Lemma profileForm_calm {A} r a cur p : calm (profileForm (A:=A) r a cur p).
Proof. unfold profileForm. keep_calm. Qed.
#[local] Hint Resolve profileForm_calm : calm.
Lemma profileEdit_calm r a s : calm (profileEdit r a s).
Proof. unfold profileEdit. keep_calm. Qed.
Lemma renderQuickBooking_calm {A} r a now p : calm (renderQuickBooking (A:=A) c r a now p).
Proof. unfold renderQuickBooking. keep_calm. Qed.
Lemma job_calm r a s : calm (job r a s).
Proof. unfold job. keep_calm. Qed.
Lemma lakesPage_calm r a : calm (lakesPage c r a).
Proof. unfold lakesPage. keep_calm. Qed.
Lemma sourcesPage_calm r a : calm (sourcesPage c r a).
Proof. unfold sourcesPage. keep_calm. Qed.
Lemma lakeBookingsPage_calm r a : calm (lakeBookingsPage c r a).
Proof. unfold lakeBookingsPage. keep_calm. Qed.
Lemma jobsPage_calm r a : calm (jobsPage r a).
Proof. unfold jobsPage. keep_calm. Qed.
Lemma dashboard_calm r a : calm (dashboard c ev r a).
Proof. unfold dashboard. keep_calm. Qed.
Lemma usersPage_calm r a : calm (usersPage r a).
Proof. unfold usersPage. keep_calm. Qed.
Lemma jobEventsPage_calm r a s : calm (jobEventsPage c r a s).
Proof. unfold jobEventsPage. keep_calm; by apply calm_change. Qed.
#[local] Hint Resolve lakesPage_calm sourcesPage_calm lakeBookingsPage_calm jobsPage_calm dashboard_calm usersPage_calm
  jobEventsPage_calm : calm.
#[local] Hint Resolve settingsPage_calm networkSettingsPage_calm userEditPage_calm sourceEdit_calm profileEdit_calm
  renderQuickBooking_calm job_calm : calm.

Notation table := (routes c ev ParseFloat health working d).
Lemma reading_routes_calm : Forall (λ rt, rt_method rt = "GET" → ∀ wild r client a, calm (rt_handler rt wild r client a)) table.
Proof.
  unfold routes. repeat (apply List.Forall_cons; [cbn; first [discriminate | intros _ wild r client a]|]); [..|by apply List.Forall_nil].
  all: first [apply loginPage_calm | apply setupPage_calm | unfold accountPage, userNewPage, lakeBookingNew; solve [keep_calm]].
Qed.
Lemma public_routes : Forall (λ rt, rt_access rt = Public →
  (∀ wild r client a, solo (rt_handler rt wild r client a)) ∨
  (rt_method rt = "POST" ∧ rt_pattern rt = [Lit "setup"] ∧ ∀ wild r client a, rt_handler rt wild r client a = setup c ev r client)) table.
Proof.
  unfold routes. repeat (apply List.Forall_cons; [cbn; first [discriminate | intros _]|]); [..|by apply List.Forall_nil].
  - left. intros. apply solo_calm, loginPage_calm.
  - left. intros. apply login_solo.
  - left. intros. apply solo_calm, setupPage_calm.
  - by right.
Qed.
Lemma route_methods : Forall (λ rt, rt_method rt = "GET" ∨ rt_method rt = "POST") table.
Proof. unfold routes. repeat (apply List.Forall_cons; [cbn; tauto|]). by apply List.Forall_nil. Qed.
Lemma dispatch_in l m path rt wild :
  dispatch l m path = Some (rt, wild) → rt ∈ l ∧ method_matches (rt_method rt) m = true ∧ captured (rt_pattern rt) path "" = Some wild.
Proof.
  induction l as [|r0 l IH]; [done|]. cbn [dispatch]. destruct (captured (rt_pattern r0) path "") as [w|] eqn:Hc.
  - destruct (method_matches (rt_method r0) m) eqn:Hm.
    + intros [= <- <-]. split_and!; [left|done..].
    + intros Hd. apply IH in Hd as (? & ? & ?). split_and!; [by right|done..].
  - intros Hd. apply IH in Hd as (? & ? & ?). split_and!; [by right|done..].
Qed.

(** The pages of the administrator. *)
Definition administration (path : list string) : Prop :=
  match path with "admin" :: _ | ["settings"; "network"] => True | _ => False end.
Lemma administration_routes : Forall (λ rt, ∀ path w,
  captured (rt_pattern rt) path "" = Some w → administration path → rt_access rt = Administrator) table.
Proof.
  unfold routes. repeat (apply List.Forall_cons; [cbn [rt_pattern rt_access]; intros path w Hc Ha; first [reflexivity | exfalso]|]);
    [..|by apply List.Forall_nil].
  all: destruct path as [|p path]; [done|]; cbn [captured] in Hc;
    match type of Hc with (if String.eqb ?s p then _ else _) = _ => destruct (String.eqb_spec s p) as [<-|]; [|done] end;
    try done; by destruct path as [|? ?].
Qed.

Lemma api_changes r path client x :
  guarded (x_server (serve_api c ev ParseFloat health working d r path client x).1) ≠ guarded (x_server x) →
  RqMethod r = "POST" ∧
  ((path = ["setup"] ∧ first_run c r (sv_db (x_server x))) ∨
   ∃ session user, authorised c ev r path (sv_db (x_server x)) session user
     ∧ (administration path → URole user = RoleAdmin ∧ UStatus user = UserActive)).
Proof.
  unfold serve_api. destruct (dispatch table (RqMethod r) path) as [[rt wild]|] eqn:Hd; [|intros Hno; exfalso; apply Hno; by case_match].
  apply dispatch_in in Hd as (Hin & Hm & Hc). intros Hchange.
  pose proof reading_routes_calm as Hread. pose proof public_routes as Hpub. pose proof route_methods as Hmeth.
  pose proof administration_routes as Hadmin. rewrite Forall_forall in Hread, Hpub, Hmeth, Hadmin.
  specialize (Hread rt Hin). specialize (Hpub rt Hin). specialize (Hmeth rt Hin). specialize (Hadmin rt Hin path wild Hc).
  assert (∀ a x', guarded (x_server x') = guarded (x_server x) →
    guarded (x_server (rt_handler rt wild r client a x').1) ≠ guarded (x_server x) → RqMethod r = "POST") as Hpost.
  { intros a x' Hx' Hne. destruct Hmeth as [Hget|Hp].
    { exfalso. apply Hne. by rewrite (proj1 (settled_guarded _ _ (Hread Hget wild r client a x'))). }
    rewrite Hp in Hm. unfold method_matches in Hm. apply orb_true_iff in Hm as [Hm|Hm]; [by apply String.eqb_eq in Hm|done]. }
  unfold serve_route in Hchange. destruct (rt_access rt) eqn:Hacc.
  - split; [by apply (Hpost anonymous x)|]. left. destruct (Hpub eq_refl) as [Hsolo|(_ & Hpat & Hsetup)].
    { by destruct (Hsolo wild r client anonymous x) as (uid & Hg & _). }
    rewrite Hsetup in Hchange. destruct (setup_cases c ev r client x) as [Hset|Hfirst]; [by destruct (settled_guarded _ _ Hset)|]. split; [|done].
    rewrite Hpat in Hc. destruct path as [|p [|q path]]; [done| |]; cbn [captured] in Hc; destruct (String.eqb_spec "setup" p) as [<-|]; done.
  - destruct (authenticated_cases c ev r path (rt_handler rt wild r client) x) as [(uid & Hg & _)|(session & user & csrf & token & x' & Hauth & [Hx' _] & _ & _ & _ & Hrun)]; [done|].
    rewrite Hrun in Hchange. split; [exact (Hpost _ x' Hx' Hchange)|]. right. exists session, user. split; [done|]. intros Ha. by specialize (Hadmin Ha).
  - destruct (authenticated_cases c ev r path (λ a, adminOnly a (rt_handler rt wild r client a)) x) as [(uid & Hg & _)|(session & user & csrf & token & x' & Hauth & [Hx' _] & _ & _ & _ & Hrun)]; [done|].
    rewrite Hrun in Hchange. unfold adminOnly in Hchange. rewrite web_bind_unfold in Hchange. cbn [RSUser] in Hchange. unfold stop_if in Hchange.
    destruct (_ || _) eqn:Hrole; [by simpl in Hchange|]. split; [exact (Hpost _ x' Hx' Hchange)|]. right. exists session, user. split; [done|]. intros _.
    apply orb_false_iff in Hrole as [Hr Hs]. apply negb_false_iff, bool_decide_eq_true in Hr. apply negb_false_iff, bool_decide_eq_true in Hs. done.
Qed.
End pages.

(** * Requests of one account and the rows of the others

    Every handler a signed-in account reaches outside the administration makes at most one
    call that writes, on behalf of its account, between reads. *)

(** What a request of one account leaves as it was: the rows of the others, and their
    running executions. *)
Record others_server (uid : Z) (sv sv' : server) : Prop := {
  os_db : others uid (sv_db sv) (sv_db sv');
  os_active : ∀ id, (∀ j, jobs (sv_db sv) !! id = Some j → JUserID j ≠ uid) →
    e_active (sv_engine sv') !! id = e_active (sv_engine sv) !! id
}.
Lemma own_others uid s s' : own_sessions uid s s' → others uid s s'.
Proof.
  unfold protected. intros [Hrest Hk]. unfold protected in Hrest. injection Hrest as Hu Ho Hp Hb Hj He Hd Hr Hl Ha Hdef Hn _ _ _ _ _ _.
  split; rewrite ?Hu, ?Ho, ?Hp, ?Hb, ?Hj, ?He, ?Hd, ?Hr, ?Hl, ?Ha, ?Hdef, ?Hn; done.
Qed.
Lemma own_session_parts uid sv sv' :
  own_session uid sv sv' → own_sessions uid (sv_db sv) (sv_db sv') ∧ e_active (sv_engine sv') = e_active (sv_engine sv).
Proof.
  intros [Hg Hk]. pose proof (f_equal (λ g, g.1.1) Hg) as Hp. pose proof (f_equal snd Hg) as Ha. unfold guarded in Hp, Ha; cbn in Hp, Ha.
  by split.
Qed.
Lemma others_after uid sv sv1 sv2 : others_server uid sv sv1 → own_session uid sv1 sv2 → others_server uid sv sv2.
Proof.
  intros [Hdb Hact] [Ho Ha]%own_session_parts. split; [etrans; [exact Hdb|by apply own_others]|]. intros id Hid. rewrite Ha. by apply Hact.
Qed.
Lemma others_before uid sv sv1 sv2 : own_session uid sv sv1 → others_server uid sv1 sv2 → others_server uid sv sv2.
Proof.
  intros [Ho Ha]%own_session_parts [Hdb Hact]. split; [etrans; [by apply own_others|exact Hdb]|].
  intros id Hid. rewrite <- Ha. apply Hact. intros j Hj. apply Hid. destruct Ho as [Hp _]. apply (f_equal jobs) in Hp. cbn in Hp. by rewrite <- Hp.
Qed.
Lemma others_server_refl uid sv : others_server uid sv sv.
Proof. by split. Qed.

Section modest.
Context (uid : Z).

Definition modest {A} (m : web A) : Prop := ∀ x,
  system_inv (sv_db (x_server x)) → others_server uid (x_server x) (x_server (m x).1).

Lemma modest_calm {A} (m : web A) : calm m → modest m.
Proof using Type. intros Hm x _. eapply others_after; [apply others_server_refl|by apply settled_own]. Qed.
Lemma modest_then {A B} (m : web A) (f : A → web B) : modest m → (∀ a, calm (f a)) → modest (m ≫= f).
Proof using Type.
  intros Hm Hf x Hx. specialize (Hm x Hx). rewrite web_bind_unfold. destruct (m x) as [x' [a|a]]; [|done].
  eapply others_after; [exact Hm|apply settled_own, Hf].
Qed.
Lemma same_engine_others sv sv1 sv2 :
  sv_engine sv1 = sv_engine sv → others_server uid sv1 sv2 → others_server uid sv sv2.
Proof using Type. unfold sv_db. intros He [Hdb Hact]. unfold sv_db in *. rewrite He in *. by split. Qed.
Lemma modest_after {A B} (m : web A) (f : A → web B) : steady m → (∀ a, modest (f a)) → modest (m ≫= f).
Proof using Type.
  intros Hm Hf x Hx. specialize (Hm x). rewrite web_bind_unfold.
  destruct (m x) as [x' [a|a]]; cbn [fst] in *; [|eapply same_engine_others; [exact Hm|apply others_server_refl]].
  eapply same_engine_others; [exact Hm|]. apply Hf. unfold sv_db in *. by rewrite Hm.
Qed.
Lemma modest_if {A} (b : bool) (m1 m2 : web A) : modest m1 → modest m2 → modest (if b then m1 else m2).
Proof using Type. by destruct b. Qed.
Lemma modest_call {A} (m : ST db A) : home uid m → modest (store_call m).
Proof using Type.
  intros Hm x Hx. unfold store_call. specialize (Hm _ Hx). destruct (m (sv_db (x_server x))) as [s r]. by split.
Qed.
Lemma modest_change {B} f (g : unit → web B) :
  (∀ s, sv_engine (f s) = sv_engine s) → (∀ u, modest (g u)) → modest (change_server f ≫= g).
Proof using Type. intros Hf Hg. apply modest_after; [|done]. intros x. apply Hf. Qed.
Lemma modest_deferring {A} release (m : web A) :
  (∀ s, settled (release s) = settled s) → modest m → modest (deferring release m).
Proof using Type.
  intros Hr Hm x Hx. specialize (Hm x Hx). unfold deferring. destruct (m x) as [x' out]. simpl in *.
  eapply others_after; [exact Hm|apply settled_own, Hr].
Qed.
End modest.

Lemma home_after {A B} uid (m : ST db A) (f : A → ST db B) : reads m → (∀ a, home uid (f a)) → home uid (m ≫= f).
Proof. intros Hm Hf s Hs. eapply reads_first_others; [done|]. intros a _. by apply Hf. Qed.

(** ** The handlers *)

Ltac keep_modest := repeat first
  [ match goal with |- ∀ _, _ => intro end
  | solve [auto 3 with modest]
  | apply modest_calm; solve [auto 3 with calm]
  | apply modest_if
  | apply modest_after; [solve [keep_steady]|]
  | apply modest_then; [|intros; solve [keep_calm]]
  | apply modest_calm; solve [keep_calm]
  | match goal with
    | |- modest _ (match ?o with _ => _ end) => destruct o
    | |- modest _ (let '(_, _) := ?o in _) => destruct o
    end ].
Create HintDb modest.
#[local] Hint Resolve modest_call SaveAccountSettings_home SaveLakeSettings_home ResetLakeSettings_home SetDefaultOTPSource_home
  CreateOTPSource_home UpdateOTPSource_home CreateProfile_home UpdateProfile_home QueueLakeBooking_home QueueProfileSignIn_home
  queuePairing_home ChangeUserPassword_home ChangeUsername_home : modest.
#[local] Hint Resolve setCookie_calm clearCookie_calm clearAuthCookies_calm unauthorized_calm authBusy_calm sessionFailure_calm
  pathID_calm known_lake_calm renderLakePage_calm sourceForm_calm owned_source_calm owned_profile_calm owned_job_calm profileForm_calm
  renderQuickBooking_calm : calm.

Section handlers.
Context `{Hashes} `{AEAD} `{TimeZoneDB} `{UnicodeFold} (c : Config) (ev : surroundings).
Context (ParseFloat : string → option float64) (health : provider → result unit).
Notation uid a := (RSUserID a).

Lemma pathID_steady s : steady (pathID s).
Proof using Type. unfold pathID. keep_steady. Qed.
Lemma known_lake_steady id : steady (known_lake id).
Proof using Type. unfold known_lake. keep_steady. Qed.
Lemma owned_source_steady a id : steady (owned_source_page a id).
Proof using Type. unfold owned_source_page. keep_steady. Qed.
Lemma owned_profile_steady a id : steady (owned_profile_page a id).
Proof using Type. unfold owned_profile_page. keep_steady. Qed.
#[local] Hint Resolve pathID_steady known_lake_steady owned_source_steady owned_profile_steady : steady.
Lemma owned_job_steady a id : steady (owned_job_page a id).
Proof using Type. unfold owned_job_page. keep_steady. Qed.
#[local] Hint Resolve owned_job_steady : steady.

Lemma settingsUpdate_modest r a : modest (uid a) (settingsUpdate ev ParseFloat r a).
Proof using Type. unfold settingsUpdate. keep_modest. Qed.
Lemma lakeUpdate_modest r a id : modest (uid a) (lakeUpdate c ev r a id).
Proof using Type. unfold lakeUpdate. keep_modest. Qed.
Lemma lakeConnectionUpdate_modest r a id : modest (uid a) (lakeConnectionUpdate c ev r a id).
Proof using Type. unfold lakeConnectionUpdate. cbv zeta. keep_modest. Qed.
Lemma lakeReset_modest r a id : modest (uid a) (lakeReset c ev r a id).
Proof using Type. unfold lakeReset. keep_modest. Qed.
Lemma sourceDefault_modest r a id : modest (uid a) (sourceDefault r a id).
Proof using Type. unfold sourceDefault. keep_modest. Qed.

(** Forms are read against the stored configuration before the call that writes. *)
Lemma sourceInput_reading r a cur : reads (sourceInput c r a cur).
Proof using Type.
  apply reads_quiet. intros p. unfold sourceInput, bluebubbles_input, twilio_input. cbv zeta.
  pose proof (@stored_config_reading) as Hst.
  case_match; auto with preserves.
  all: apply preserves_bind; [intros s <-; by apply Hst|]; intros; auto 20 with preserves.
Qed.
Lemma profileInput_reading r a cur : reads (profileInput c r a cur).
Proof using Type.
  apply reads_quiet. intros p. unfold profileInput, profile_base. cbv zeta.
  repeat first [solve [auto 2 with preserves] | apply preserves_bind; [|intros] | case_match].
  intros s <-. unfold new_profile_base. by repeat case_match.
Qed.
Lemma ProviderForSource_reading source policy : reads (ProviderForSource source policy).
Proof using Type.
  apply reads_quiet. intros p. unfold ProviderForSource, SystemGetOTPSourceConfig. case_match; auto 20 with preserves.
Qed.
#[local] Hint Resolve sourceInput_reading profileInput_reading ProviderForSource_reading : reads.
#[local] Hint Extern 2 (home _ (_ ≫= _)) => apply home_after; [solve [auto with reads]|intros] : modest.

Lemma sourceCreate_modest r a : modest (uid a) (sourceCreate c ev r a).
Proof using Type. unfold sourceCreate. keep_modest. Qed.
Lemma sourceUpdate_modest r a id : modest (uid a) (sourceUpdate c ev r a id).
Proof using Type. unfold sourceUpdate. keep_modest. Qed.
Lemma sourceHealth_modest r a id : modest (uid a) (sourceHealth c health r a id).
Proof using Type. unfold sourceHealth. keep_modest. Qed.
Lemma sourcePair_modest r a id : modest (uid a) (sourcePair c ev r a id).
Proof using Type. unfold sourcePair, QueuePairing. keep_modest. Qed.
Lemma profileCreate_modest r a : modest (uid a) (profileCreate c ev r a).
Proof using Type. unfold profileCreate. keep_modest. Qed.
Lemma profileUpdate_modest r a id : modest (uid a) (profileUpdate c ev r a id).
Proof using Type. unfold profileUpdate. keep_modest. Qed.
Lemma profileSignIn_modest r a id : modest (uid a) (profileSignIn c ev r a id).
Proof using Type. unfold profileSignIn. keep_modest. Qed.
Lemma lakeBookingCreate_modest r a : modest (uid a) (lakeBookingCreate c ev r a).
Proof using Type. unfold lakeBookingCreate. keep_modest. Qed.

(** *** The own account *)

Lemma settle_change_calm r a outcome refused : calm (settle_change ev r a outcome refused).
Proof using Type.
  unfold settle_change. apply calm_bind; [destruct outcome; keep_calm|]. intros _.
  apply calm_bind; [apply calm_call; unfold RecordLoginAttempt; apply RecordLoginAttempts_quiet|]. intros [|]; keep_calm.
Qed.
#[local] Hint Resolve settle_change_calm : calm.
Lemma changing_account_modest {A} r a (m : web A) : modest (uid a) m → modest (uid a) (changing_account ev r a m).
Proof using Type.
  intros Hm. unfold changing_account. apply modest_after; [keep_steady|]. intros busy. cbv zeta.
  apply modest_if; [apply modest_calm; keep_calm|]. apply modest_change; [done|]. intros _.
  apply modest_deferring; [done|]. apply modest_after.
  - apply steady_call, reads_quiet. intros p. unfold LoginRateLimit. auto 20 with preserves.
  - intros [[[] ?]|e]; [done|apply modest_calm; keep_calm..].
Qed.
Lemma accountPassword_modest r a : modest (uid a) (accountPassword c ev r a).
Proof using Type.
  unfold accountPassword. cbv zeta. apply modest_after; [keep_steady|]. intros _. apply changing_account_modest. keep_modest.
Qed.
Lemma accountUsername_modest r a : modest (uid a) (accountUsername ev r a).
Proof using Type. unfold accountUsername. apply changing_account_modest. keep_modest. Qed.
Lemma logout_tied u token r : readSessionCookie c r = Some token → tied u token (logout c r).
Proof using Type.
  intros Htok. unfold logout. rewrite Htok. apply tied_then; [|intros; keep_calm]. apply tied_delete. intros. keep_calm.
Qed.

(** *** Decisions about a job *)

Lemma modest_engine {A} u (m : ST engineState A) :
  (∀ e, system_inv (e_db e) → others u (e_db e) (e_db (m e).1) ∧
     ∀ id, (∀ j, jobs (e_db e) !! id = Some j → JUserID j ≠ u) → e_active (m e).1 !! id = e_active e !! id) →
  modest u (engine_call m).
Proof using Type.
  intros Hm x Hx. unfold engine_call. specialize (Hm _ Hx). destruct (m (sv_engine (x_server x))) as [e r].
  destruct Hm as [Hdb Hact]. by split.
Qed.
Lemma Decide_modest u id d now : modest u (engine_call (Worker.Decide u id d now)).
Proof using Type.
  apply modest_engine. intros e He. unfold Worker.Decide, call_or_fail. rewrite ST_bind_unfold.
  pose proof (RecordJobDecision_home u id d now (e_db e) He) as Hr. destruct (RecordJobDecision u id d now (e_db e)) as [s [x|x]]; [|by split].
  unfold ignoring, hub_decide. destruct (Hub.Decide _ _ _) as [[h [y|y]]|]; by split.
Qed.
Lemma ChoosePairing_modest u id m : modest u (engine_call (ChoosePairing u id m)).
Proof using Type.
  apply modest_engine. intros e He. unfold ChoosePairing, call_or_fail. rewrite ST_bind_unfold.
  pose proof (GetJob_reading u id (e_db e)) as Hr. destruct (GetJob u id (e_db e)) as [s [x|x]]; cbn in Hr; subst s; [|by split].
  unfold hub_choose. by destruct (Hub.ChoosePairing _ _ _) as [[h y]|]; split.
Qed.
Lemma CancelJob_modest u id now : modest u (engine_call (Worker.CancelJob u id now)).
Proof using Type.
  apply modest_engine. intros e He. unfold Worker.CancelJob. rewrite ST_bind_unfold. unfold call_or_fail.
  pose proof (GetJob_reading u id (e_db e)) as Hr. destruct (GetJob u id (e_db e)) as [s [job|x]] eqn:Hg; cbn in Hr; subst s; [|by split].
  apply GetJob_owned in Hg as [Hj Hown]. rewrite ST_bind_unfold. cbn [e_db with_db].
  pose proof (RequestJobCancellation_home u id now (e_db e) He) as Hc.
  destruct (RequestJobCancellation u id now (e_db e)) as [s [x|x]]; [|by split]. cbn [fst] in Hc.
  destruct (bool_decide (JStatus job = JobQueued)); [by split|]. rewrite ST_bind_unfold. cbn [gets].
  destruct (negb _); [by split|]. split; [exact Hc|]. intros k Hk. rewrite ST_bind_unfold. cbn. rewrite lookup_alter_ne; [done|].
  intros ->. by apply (Hk job).
Qed.
#[local] Hint Resolve Decide_modest ChoosePairing_modest CancelJob_modest : modest.
Lemma jobDecision_modest r a id : modest (uid a) (jobDecision ev r a id).
Proof using Type. unfold jobDecision. cbv zeta. keep_modest. Qed.

(** ** The table *)

Context (working : string) (d : disk).
Notation table := (routes c ev ParseFloat health working d).
Lemma writing_routes : Forall (λ rt, rt_access rt = SignedIn → rt_method rt = "POST" →
  (∀ wild r client a, rt_handler rt wild r client a = logout c r) ∨
  ∀ wild r client a, modest (uid a) (rt_handler rt wild r client a)) table.
Proof using Type.
  unfold routes. repeat (apply List.Forall_cons; [cbn; first [discriminate | intros _ ?; first [discriminate | by left; intros | right; intros wild r client a]]|]);
    [..|by apply List.Forall_nil].
  - apply accountPassword_modest.
  - apply accountUsername_modest.
  - apply settingsUpdate_modest.
  - apply lakeUpdate_modest.
  - apply lakeReset_modest.
  - apply lakeConnectionUpdate_modest.
  - apply sourceCreate_modest.
  - apply sourceUpdate_modest.
  - apply sourceHealth_modest.
  - apply sourcePair_modest.
  - apply sourceDefault_modest.
  - apply profileCreate_modest.
  - apply profileUpdate_modest.
  - apply profileSignIn_modest.
  - apply lakeBookingCreate_modest.
  - apply jobDecision_modest.
Qed.
Lemma signed_in_modest rt wild r client a :
  rt ∈ table → rt_access rt = SignedIn →
  rt_handler rt wild r client a = logout c r ∨ modest (uid a) (rt_handler rt wild r client a).
Proof using Type.
  intros Hin Hacc. pose proof (reading_routes_calm c ev ParseFloat health working d) as Hread.
  pose proof (route_methods c ev ParseFloat health working d) as Hmeth. pose proof writing_routes as Hwrite.
  rewrite Forall_forall in Hread, Hmeth, Hwrite. destruct (Hmeth rt Hin) as [Hm|Hm]; [|destruct (Hwrite rt Hin Hacc Hm) as [Hl|Hw]; [by left|by right]].
  right. apply modest_calm. by apply Hread.
Qed.
Lemma administrator_routes : Forall (λ rt, ∀ path w,
  captured (rt_pattern rt) path "" = Some w → rt_access rt = Administrator → administration path) table.
Proof using Type.
  unfold routes. repeat (apply List.Forall_cons; [cbn [rt_pattern rt_access]; intros path w Hc Ha; try discriminate Ha|]); [..|by apply List.Forall_nil].
  all: destruct path as [|p path]; [done|]; cbn [captured] in Hc;
    match type of Hc with (if String.eqb ?s p then _ else _) = _ => destruct (String.eqb_spec s p) as [<-|]; [|done] end; try exact I.
  all: destruct path as [|q path]; [done|];
    match type of Hc with (if String.eqb ?s q then _ else _) = _ => destruct (String.eqb_spec s q) as [<-|]; [|done] end; by destruct path.
Qed.

(** The account of a session is its user. *)
Lemma authorised_user r path s session user : system_inv s → authorised c ev r path s session user → SUserID session = UID user.
Proof using Type.
  intros [_ Hacc] ((token & _ & Hget) & _). unfold GetSession in Hget. rewrite ST_bind_unfold in Hget. cbn [gets] in Hget.
  destruct (sessions s !! HashToken token) as [se|]; [|done]. cbn [mbind option_bind] in Hget.
  destruct (users s !! SUserID se) as [u|] eqn:Hu; [|done]. cbn [mbind option_bind] in Hget.
  destruct (live_session _ _ _); [|done]. injection Hget as -> <-.
  symmetry. by destruct (ui_key _ _ (ai_users _ _ Hacc) _ _ Hu).
Qed.
Lemma api_isolation r path client x :
  system_inv (sv_db (x_server x)) → ¬ administration path →
  let x' := (serve_api c ev ParseFloat health working d r path client x).1 in
  (∃ uid, own_session uid (x_server x) (x_server x')) ∨ (path = ["setup"] ∧ first_run c r (sv_db (x_server x))) ∨
  ∃ session user, authorised c ev r path (sv_db (x_server x)) session user ∧
    others_server (UID user) (x_server x) (x_server x').
Proof using Type.
  intros Hx Hadm. cbv zeta. unfold serve_api.
  destruct (dispatch table (RqMethod r) path) as [[rt wild]|] eqn:Hd; [|left; exists 0; by case_match].
  apply dispatch_in in Hd as (Hin & _ & Hc). pose proof (public_routes c ev ParseFloat health working d) as Hpub.
  pose proof administrator_routes as Hroutes. rewrite Forall_forall in Hpub, Hroutes. unfold serve_route.
  destruct (rt_access rt) eqn:Hacc; [..|by destruct (Hadm (Hroutes rt Hin path wild Hc Hacc))].
  - destruct (Hpub rt Hin Hacc) as [Hsolo|(_ & Hpat & Hsetup)]; [left; apply Hsolo|].
    rewrite Hsetup. destruct (setup_cases c ev r client x) as [Hset|Hfirst]; [left; exists 0; by apply settled_own|]. right; left. split; [|done].
    rewrite Hpat in Hc. destruct path as [|p [|q path]]; [done| |]; cbn [captured] in Hc; destruct (String.eqb_spec "setup" p) as [<-|]; done.
  - destruct (authenticated_cases c ev r path (rt_handler rt wild r client) x)
      as [|(session & user & csrf & token & x' & Hauth & Hx' & Htok & Hholds & Hdb & Hrun)]; [by left|].
    right; right. exists session, user. split; [done|]. rewrite Hrun. rewrite (authorised_user _ _ _ _ _ Hx Hauth) in *.
    eapply others_before; [exact Hx'|].
    destruct (signed_in_modest rt wild r client (MkAuthenticated session user csrf) Hin Hacc) as [Hl|Hmod].
    + rewrite Hl. eapply others_after; [apply others_server_refl|]. by apply (logout_tied _ token).
    + apply Hmod. rewrite Hdb. by apply TouchSession_system.
Qed.
End handlers.
