(* ===== verification/WebProperties.v ===== *)
(** * What the web server guarantees (src/internal/web)

    Which requests can change anything, and whose rows: for every route of the table. *)

From S2P Require Import Prelude GoStrings GoTime Json Auth Secrets Origin Domain Database JobStore ResourceStore ProfileStore SettingsStore AccountStore.
From S2P Require Import AccountStore Otp BookingQueue Egress Config Worker Pairing Storage JobInvariants Samples SystemSamples Http Web WebAuth.
From S2P Require Import Views WebResources WebServer WebLemmas AccountInvariants Isolation System.
From Stdlib Require Import Ascii String SpecFloat.

Open Scope Z_scope.

(** C9: nothing but sessions changes without authority.  Whatever the request and the state of
    the server: if serving it changes any table besides sessions and login attempts, the hub
    or a running execution, then it passed the HTTP boundary, is a POST below [/api], and
    either is the first-run setup with the token of the host while no account exists, or
    carries the token of a live session that was issued for this mode and origin, the CSRF
    token of that session both in its cookie and in its form, and an allowed origin; an
    account that still has to change its password only reaches its own account, and the
    pages of the administrator only an active administrator. *)
Theorem changes_need_authority `{Hashes} `{AEAD} `{TimeZoneDB} `{UnicodeFold} c ev ParseFloat health working d r s :
  let out := ServeHTTP c ev ParseFloat health working d r s in
  guarded out.1 ≠ guarded s →
  ∃ path client, RqPath r = "api" :: path ∧ RqMethod r = "POST" ∧ enforceHTTPBoundary c r (sv_db s) = Ok client ∧
    ((path = ["setup"] ∧ first_run c r (sv_db s)) ∨
     ∃ session user, authorised c ev r path (sv_db s) session user
       ∧ (administration path → URole user = RoleAdmin ∧ UStatus user = UserActive)).
Proof.
  cbv zeta. unfold ServeHTTP, respond_with, serve. rewrite web_bind_unfold. unfold ask_server. cbn [x_server].
  destruct (enforceHTTPBoundary c r (sv_db s)) as [client|e]; [|done].
  unfold outside_api. destruct (RqPath r) as [|p path]; [by destruct (healthRequest r)|].
  destruct (String.eqb_spec p "api") as [->|Hne]; cbn [negb]; [|by destruct (healthRequest r)].
  destruct path as [|q path]; [done|]. cbn [is_nil]. intros Hchange. exists (q :: path), client.
  destruct (api_changes c ev ParseFloat health working d r (q :: path) client (MkExchange s [] "")) as [Hm Hwho]; [|done].
  destruct (serve_api _ _ _ _ _ _ _ _ _ _) as [x out]. exact Hchange.
Qed.

(** C10: accounts are isolated.  Whatever the request, outside the pages of the administrator
    and in every well-formed database, which every call of the store leaves so: serving it
    changes nothing but sessions, and those of one account at most, or it is the first-run
    setup, or it is authorised for one account, and then every row another account owns in
    any table, its sessions among them, the dates reserved for the sign-ins of other
    accounts, the settings of the installation and the running executions of other accounts
    are as they were. *)
Theorem requests_stay_in_their_account `{Hashes} `{AEAD} `{TimeZoneDB} `{UnicodeFold} c ev ParseFloat health working d r s path :
  system_inv (sv_db s) → RqPath r = "api" :: path → ¬ administration path →
  let out := ServeHTTP c ev ParseFloat health working d r s in
  (∃ uid, guarded out.1 = guarded s ∧ kept_rows SUserID uid (sessions (sv_db s)) (sessions (sv_db out.1)))
  ∨ (path = ["setup"] ∧ first_run c r (sv_db s)) ∨
  ∃ session user, authorised c ev r path (sv_db s) session user ∧ others_server (UID user) s out.1.
Proof.
  intros Hs Hpath Hadm. cbv zeta. unfold ServeHTTP, respond_with, serve. rewrite web_bind_unfold. unfold ask_server. cbn [x_server].
  destruct (enforceHTTPBoundary c r (sv_db s)) as [client|e]; [|left; by exists 0]. rewrite Hpath. cbn [String.eqb Ascii.eqb Bool.eqb negb].
  destruct path as [|q path]; [left; by exists 0|]. cbn [is_nil].
  pose proof (api_isolation c ev ParseFloat health working d r (q :: path) client (MkExchange s [] "") Hs Hadm) as Hout.
  cbv zeta in Hout. destruct (serve_api _ _ _ _ _ _ _ _ _ _) as [x out]. exact Hout.
Qed.

(** The administrator of the sample saves the network settings from the local page. *)
#[local] Instance sample_fold : UnicodeFold := {| EqualFold := equal_fold; EqualFold_ascii := λ _ _ _ _, eq_refl |}.
Definition web_config : Config :=
  MkConfig "/srv/appdata" "/srv/appdata/lake-pass-bot.db" "/srv/appdata/master.key" false "/srv/appdata/profiles"
    "/srv/appdata/artifacts" ":8080" 2 "python3" "lake_pass_actions" "" "http://127.0.0.1:1234" ∅
    [DefaultYodelOrigin] [] [] false false "" [] "" "info".
Definition web_token : string := NewToken (bytes (seq 0 32)).
Definition web_csrf : string := NewToken (bytes (seq 32 32)).
Definition web_server : server :=
  MkServer (MkEngine (set_sessions (λ _, {[HashToken web_token :=
    MkSession (HashToken web_token) 1 (HashToken web_csrf) (t0 + 10 * Minute) t0 t0]}) sample_db) Hub.NewHub ∅) false ∅ (MkStreams 0 ∅).
Definition web_surroundings : surroundings := MkSurroundings (λ _, t0) (λ _, "") (λ _, true).
Definition network_request (csrf : string) : Request :=
  MkRequest "POST" ["api"; "settings"; "network"] "localhost:8080" "127.0.0.1:50000" false
    [("Origin", "http://localhost:8080")] [("lake_pass_session", web_token); ("lake_pass_csrf", web_csrf)] []
    (Some [("csrf_token", csrf); ("host_check_enabled", "1"); ("allowed_hosts", "localhost")]).
Definition web_serve (r : Request) : server * Response :=
  ServeHTTP web_config web_surroundings (λ _, None) (λ _, Ok tt) "/srv" (MkDisk (Ok []) (Ok []) (λ _, Err (Sentinel ErrNotExist)) (λ _, Ok tt)) r web_server.
Example wrong_token_is_refused :
  RsAnswer (web_serve (network_request "guess")).2 = http_Error "invalid CSRF token" StatusForbidden.
Proof. by vm_compute. Qed.
Lemma changes_need_authority_witness :
  guarded (web_serve (network_request web_csrf)).1 ≠ guarded web_server ∧
  ∃ session user, authorised web_config web_surroundings (network_request web_csrf) ["settings"; "network"] (sv_db web_server) session user
    ∧ URole user = RoleAdmin.
Proof.
  assert (guarded (web_serve (network_request web_csrf)).1 ≠ guarded web_server) as Hchange.
  { intros Heq. apply (f_equal (λ g, network_settings g.1.1)) in Heq. by vm_compute in Heq. }
  split; [exact Hchange|].
  destruct (changes_need_authority web_config web_surroundings (λ _, None) (λ _, Ok tt) "/srv"
    (MkDisk (Ok []) (Ok []) (λ _, Err (Sentinel ErrNotExist)) (λ _, Ok tt)) (network_request web_csrf) web_server Hchange)
    as (path & client & Hpath & _ & _ & [[Hsetup _]|(session & user & Hauth & Hrole)]).
  - exfalso. rewrite Hsetup in Hpath. discriminate Hpath.
  - injection Hpath as <-. exists session, user. split; [exact Hauth|]. by apply Hrole.
Defined.

(** The owner of the sample chooses the account a lake books with. *)
Definition signed_in_ops : list op := (setup_ops ++ [OpNewSession 1 (10 * Minute) (bytes (seq 0 32)) (bytes (seq 32 32)) t0])%list.
Definition signed_in_server : server := MkServer (MkEngine (run signed_in_ops empty_db) Hub.NewHub ∅) false ∅ (MkStreams 0 ∅).
Definition signed_in_request : Request :=
  MkRequest "POST" ["api"; "lakes"; "buntzen"; "connection"] "localhost:8080" "127.0.0.1:50000" false
    [("Origin", "http://localhost:8080")]
    [("lake_pass_session", NewSessionToken (bytes (seq 0 32)) ""); ("lake_pass_csrf", web_csrf)] []
    (Some [("csrf_token", web_csrf); ("booking_profile_id", "1")]).
Definition signed_in_answer : server * Response :=
  ServeHTTP web_config web_surroundings (λ _, None) (λ _, Ok tt) "/srv" (MkDisk (Ok []) (Ok []) (λ _, Err (Sentinel ErrNotExist)) (λ _, Ok tt))
    signed_in_request signed_in_server.
Lemma requests_stay_in_their_account_witness :
  guarded signed_in_answer.1 ≠ guarded signed_in_server ∧
  ∃ session user, authorised web_config web_surroundings signed_in_request ["lakes"; "buntzen"; "connection"] (sv_db signed_in_server) session user
    ∧ others_server (UID user) signed_in_server signed_in_answer.1.
Proof.
  assert (guarded signed_in_answer.1 ≠ guarded signed_in_server) as Hchange.
  { intros Heq. apply (f_equal (λ g, size (lake_settings g.1.1))) in Heq. by vm_compute in Heq. }
  split; [exact Hchange|].
  assert (¬ administration ["lakes"; "buntzen"; "connection"]) as Hadm by exact (λ f, f).
  destruct (requests_stay_in_their_account web_config web_surroundings (λ _, None) (λ _, Ok tt) "/srv"
    (MkDisk (Ok []) (Ok []) (λ _, Err (Sentinel ErrNotExist)) (λ _, Ok tt)) signed_in_request signed_in_server
    ["lakes"; "buntzen"; "connection"] (reachable_inv _ (reachable_run signed_in_ops)) eq_refl Hadm)
    as [(uid & Hsame & _)|[[Hsetup _]|Hown]]; [destruct (Hchange Hsame)|discriminate Hsetup|exact Hown].
Defined.

(** ** What the server answers

    The cookies and the redirects of every answer, for every route of the table. *)

Section answers.
Context `{Hashes} `{AEAD} `{TimeZoneDB} `{UnicodeFold} (c : Config) (ev : surroundings).
Context (ParseFloat : string → option float64) (health : provider → result unit) (working : string) (d : disk).

(** In the public mode a cookie belongs to the host alone and travels over TLS only. *)
Definition host_cookie (k : Cookie) : Prop :=
  CkSecure k = public_mode c ∧ (public_mode c = true → has_prefix (CkName k) "__Host-" = true).
(** A target is a path of this server: it names no other host. *)
Definition local_path (target : string) : Prop := has_prefix target "/" = true ∧ has_prefix target "//" = false.
Definition local_answer (a : answer) : Prop :=
  match AnBody a with
  | Redirect target => has_prefix target "/api/" = true
  | Navigation target => local_path target
  | _ => True
  end.

Definition polite {A} (Q : A → Prop) (m : web A) : Prop := ∀ x,
  Forall host_cookie (x_cookies x) →
  Forall host_cookie (x_cookies (m x).1) ∧ match (m x).2 with Go a => Q a | Stop a => local_answer a end.
Notation anything := (λ _, True).

Lemma polite_ret {A} (Q : A → Prop) a : Q a → polite Q (mret a).
Proof using Type. by intros HQ x Hx. Qed.
Lemma polite_stop {A} (Q : A → Prop) a : local_answer a → polite Q (stop a).
Proof using Type. by intros Ha x Hx. Qed.
Lemma polite_stop_if b a : local_answer a → polite anything (stop_if b a).
Proof using Type. intros Ha. by destruct b; [apply polite_stop|apply polite_ret]. Qed.
Lemma polite_bind {A B} (Q : B → Prop) (m : web A) (f : A → web B) :
  polite anything m → (∀ a, polite Q (f a)) → polite Q (m ≫= f).
Proof using Type.
  intros Hm Hf x Hx. specialize (Hm x Hx). rewrite web_bind_unfold. destruct (m x) as [x' [a|a]]; cbn in *; [|done].
  apply Hf, Hm.
Qed.
Lemma polite_store {A} (m : ST db A) : polite anything (store_call m).
Proof using Type. intros x Hx. unfold store_call. by destruct (m _). Qed.
Lemma polite_engine {A} (m : ST engineState A) : polite anything (engine_call m).
Proof using Type. intros x Hx. unfold engine_call. by destruct (m _). Qed.
Lemma polite_ask {A} (f : server → A) : polite anything (ask_server f).
Proof using Type. by intros x Hx. Qed.
Lemma polite_change f : polite anything (change_server f).
Proof using Type. by intros x Hx. Qed.
Lemma polite_retry t : polite anything (retry_after t).
Proof using Type. by intros x Hx. Qed.
Lemma polite_deferring {A} (Q : A → Prop) release (m : web A) : polite Q m → polite Q (deferring release m).
Proof using Type. intros Hm x Hx. specialize (Hm x Hx). unfold deferring. by destruct (m x). Qed.
Lemma cookie_of_host name value age : host_cookie (MkCookie (cookieName c name) value age (public_mode c)).
Proof using Type. split; [done|]. unfold cookieName. intros Hp. cbn [CkName]. by rewrite Hp. Qed.
Lemma polite_cookie name value age : polite anything (add_cookie (MkCookie (cookieName c name) value age (public_mode c))).
Proof using Type. intros x Hx. split; [|done]. cbn. apply Forall_app. split; [done|]. constructor; [apply cookie_of_host|constructor]. Qed.
(** The check in [apiRedirect] is what makes every redirect local. *)
Lemma redirect_local r target status : local_answer (apiRedirect r target status).
Proof using Type.
  unfold apiRedirect. destruct (negb (has_prefix target "/") || has_prefix target "//") eqn:Ht; [done|].
  apply orb_false_iff in Ht as [Hroot Hhost]. apply negb_false_iff in Hroot. destruct (String.eqb _ _); [done|].
  unfold local_answer. cbn [AnBody]. unfold has_prefix in Hroot. destruct (cut_prefix "/" target) as [rest|] eqn:Hcut; [|done].
  apply cut_prefix_Some in Hcut as ->. apply (has_prefix_app "/api/" rest).
Qed.

Ltac head t := match t with ?f _ => head f | _ => t end.
Ltac local_answer := first [apply redirect_local | exact I | unfold notFoundOrInternal, form_page; case_match; exact I].
Ltac politely := repeat lazymatch goal with
  | |- ∀ _, _ => intro
  | |- polite _ (_ ≫= _) => apply polite_bind
  | |- polite _ (mret _) => apply polite_ret; try exact I; try local_answer
  | |- polite _ (stop _) => apply polite_stop; local_answer
  | |- polite _ (stop_if _ _) => apply polite_stop_if; local_answer
  | |- polite _ (store_call _) => apply polite_store
  | |- polite _ (engine_call _) => apply polite_engine
  | |- polite _ (ask_server _) => apply polite_ask
  | |- polite _ (change_server _) => apply polite_change
  | |- polite _ (retry_after _) => apply polite_retry
  | |- polite _ (deferring _ _) => apply polite_deferring
  | |- polite _ (add_cookie _) => apply polite_cookie
  | |- polite _ (let _ := _ in _) => cbv zeta
  | |- polite _ (match ?o with _ => _ end) => destruct o
  | |- polite _ ?m => let h := head m in unfold h
  end.
Lemma authenticated_polite r path next : (∀ a, polite local_answer (next a)) → polite local_answer (authenticated c ev r path next).
Proof using Type. intros Hnext. unfold authenticated. politely; try apply Hnext. Qed.
Lemma handlers_polite : Forall (λ rt, ∀ w r client a, polite local_answer (rt_handler rt w r client a))
  (routes c ev ParseFloat health working d).
Proof using Type.
  unfold routes. repeat (apply List.Forall_cons; [cbn [rt_handler]; intros w r client a; politely|]); [..|by apply List.Forall_nil].
Qed.
Lemma serve_polite r : polite local_answer (serve c ev ParseFloat health working d r).
Proof using Type.
  unfold serve. apply polite_bind; [apply polite_ask|]. intros [client|e].
  2: { unfold boundary_refusal. politely. }
  destruct (RqPath r) as [|root path]; [politely|]. destruct (negb _); [politely|]. destruct (is_nil path); [by apply polite_stop|].
  unfold serve_api. destruct (dispatch _ _ _) as [[rt w]|] eqn:Hd; [|politely].
  apply dispatch_in in Hd as (Hin & _). pose proof handlers_polite as Hall. rewrite Forall_forall in Hall. specialize (Hall rt Hin).
  unfold serve_route. destruct (rt_access rt); [apply Hall|apply authenticated_polite; intros a; apply Hall|].
  apply authenticated_polite. intros a. unfold adminOnly. apply polite_bind; [by apply polite_stop_if|]. intros []. apply Hall.
Qed.
End answers.

(** Answers stay on the site.  Whatever the request and the state of the server: every
    redirect, and every navigation it hands to the client, is a path of this server, so no
    input can send a browser to another host; and every cookie is marked secure and bound to
    the host exactly when the server is public. *)
Theorem answers_stay_on_the_site `{Hashes} `{AEAD} `{TimeZoneDB} `{UnicodeFold} c ev ParseFloat health working d r s :
  let resp := (ServeHTTP c ev ParseFloat health working d r s).2 in
  local_answer (RsAnswer resp) ∧ Forall (host_cookie c) (RsCookies resp).
Proof.
  cbv zeta. pose proof (serve_polite c ev ParseFloat health working d r (MkExchange s [] "")) as Hp.
  specialize (Hp (proj2 (Forall_nil _) I)). unfold ServeHTTP, respond_with.
  destruct (serve c ev ParseFloat health working d r (MkExchange s [] "")) as [x [a|a]]; cbn in *; tauto.
Qed.
