(* ===== verification/ThrottleProperties.v ===== *)
(** * How often a password can be guessed (src/internal/web/auth.go)

    Sign-ins of one address for one name, over any sequence of requests inside a window. *)

From S2P Require Import Prelude GoStrings GoTime Auth Domain Database JobStore AccountStore.
From S2P Require Import Otp Config Worker Storage JobInvariants Samples SystemSamples System Isolation AtomicityProperties PairingProperties Http Web WebAuth WebLemmas WebProperties.
From Stdlib Require Import Ascii String.

Open Scope Z_scope.

(** ** Triples for handlers *)

(** From a server in [P] a program goes on with a value and a server in [Q], or stops with an
    answer and a server in [W]. *)
Definition web_triple {A} (P : server → Prop) (m : web A) (Q : A → server → Prop) (W : answer → server → Prop) : Prop :=
  ∀ x, P (x_server x) → match m x with (x', Go a) => Q a (x_server x') | (x', Stop a) => W a (x_server x') end.

Section web_triple.
Context (W : answer → server → Prop).

Lemma web_triple_ret {A} (P : server → Prop) (a : A) (Q : A → server → Prop) :
  (∀ s, P s → Q a s) → web_triple P (mret a) Q W.
Proof. intros HQ x Hx. by apply HQ. Qed.
Lemma web_triple_stop {A} (P : server → Prop) a (Q : A → server → Prop) :
  (∀ s, P s → W a s) → web_triple P (stop a) Q W.
Proof. intros HW x Hx. by apply HW. Qed.
Lemma web_triple_stop_if (P : server → Prop) b a : (b = true → ∀ s, P s → W a s) → web_triple P (stop_if b a) (λ _ s, b = false ∧ P s) W.
Proof. intros HW x Hx. destruct b; [by apply HW|done]. Qed.
Lemma web_triple_bind {A B} P (m : web A) (f : A → web B) R Q :
  web_triple P m R W → (∀ a, web_triple (R a) (f a) Q W) → web_triple P (m ≫= f) Q W.
Proof.
  intros Hm Hf x Hx. specialize (Hm x Hx). rewrite web_bind_unfold. destruct (m x) as [x' [a|a]]; [by apply Hf|done].
Qed.
Lemma web_triple_weaken {A} (P P' : server → Prop) (m : web A) (Q Q' : A → server → Prop) :
  web_triple P m Q W → (∀ s, P' s → P s) → (∀ a s, Q a s → Q' a s) → web_triple P' m Q' W.
Proof. intros Hm HP HQ x Hx. specialize (Hm x (HP _ Hx)). destruct (m x) as [x' [a|a]]; [by apply HQ|done]. Qed.
Lemma web_triple_call {A} (P : server → Prop) (m : ST db A) (Q : result A → server → Prop) :
  (∀ s, P s → Q (m (sv_db s)).2 (with_sv_engine (with_db (m (sv_db s)).1 (sv_engine s)) s)) → web_triple P (store_call m) Q W.
Proof. intros HQ x Hx. specialize (HQ _ Hx). unfold store_call. by destruct (m (sv_db (x_server x))). Qed.
Lemma web_triple_ask {A} (P : server → Prop) (f : server → A) : web_triple P (ask_server f) (λ a s, P s ∧ a = f s) W.
Proof. by intros x Hx. Qed.
End web_triple.

(** ** Counting failures *)

Section throttle.
Context (key : string) (t : Time).

(** A failure of the key since [t]. *)
Definition counted (a : LoginAttempt) : bool :=
  String.eqb (la_rate_key a) (trim_space key) && negb (la_succeeded a) && (t <=? la_attempted_at a).
Definition failures (s : db) : nat := count_map counted (attempts s).
Definition attempts_fresh (s : db) : Prop := ∀ k a, attempts s !! k = Some a → k < next_attempt s.

Lemma failures_weaken (p q : LoginAttempt → bool) (m : gmap Z LoginAttempt) :
  (∀ a, p a = true → q a = true) → (count_map p m ≤ count_map q m)%nat.
Proof using Type.
  intros Hpq. induction m as [|k a m Hk IH] using map_ind; [by rewrite (proj2 (count_map_zero p ∅))|].
  rewrite !count_map_insert_fresh by done. specialize (Hpq a). destruct (p a); [rewrite Hpq by done; lia|destruct (q a); lia].
Qed.
Lemma count_filter (p : LoginAttempt → bool) (P : Z * LoginAttempt → Prop) `{!∀ x, Decision (P x)} (m : gmap Z LoginAttempt) :
  (∀ k a, p a = true → P (k, a)) → count_map p (filter P m) = count_map p m.
Proof using Type.
  intros HP. induction m as [|k a m Hk IH] using map_ind; [done|].
  rewrite count_map_insert_fresh by done. destruct (decide (P (k, a))) as [Hin|Hout].
  - rewrite map_filter_insert_True by done. rewrite count_map_insert_fresh by (by apply map_lookup_filter_None; left). by rewrite IH.
  - rewrite map_filter_insert_False by done. rewrite delete_id by done. rewrite IH.
    destruct (p a) eqn:Hp; [by destruct (Hout (HP k a Hp))|done].
Qed.

(** The limit counts at least these. *)
Lemma limit_allows now n s s' o :
  now < t + loginWindow → LoginRateLimit key now loginWindow n s = (s', Ok (true, o)) → Z.of_nat (failures s) < n.
Proof using Type.
  intros Hnow Hlim. unfold LoginRateLimit in Hlim. inv_ok. bool_to_prop. rename s' into s.
  assert ((failures s ≤ List.length (recent_failures (trim_space key) (Add now (- loginWindow)) s))%nat) as Hle.
  { unfold recent_failures. rewrite !length_fmap, length_select. apply failures_weaken. intros a Ha. unfold counted in Ha.
    bool_to_prop. apply andb_true_iff. split; [by apply andb_true_iff; split; [done|apply negb_true_iff]|]. apply Z.ltb_lt. unfold Add. lia. }
  destruct (oldest _) as [first|] eqn:Hold.
  - destruct (_ <? _) eqn:Hlt in *; [|simplify_eq]. bool_to_prop. lia.
  - destruct (recent_failures _ _ s); [simpl in Hle; lia|done].
Qed.

(** ** Recording *)

Lemma insert_attempt_tally k at_time s :
  attempts_fresh s → attempts_fresh (insert_attempt k at_time s) ∧
  failures (insert_attempt k at_time s) = ((if counted (MkLoginAttempt k false at_time) then 1 else 0) + failures s)%nat.
Proof using Type.
  intros Hs. split.
  - intros i a. unfold insert_attempt. cbn. intros [[<- _]|[_ Hi]]%lookup_insert_Some; [lia|]. specialize (Hs _ _ Hi). lia.
  - unfold failures, insert_attempt. cbn. apply count_map_insert_fresh.
    destruct (attempts s !! next_attempt s) as [a|] eqn:Ha; [|done]. specialize (Hs _ _ Ha). lia.
Qed.
Lemma insert_attempts_tally (clk : nat → Time) (l : list (nat * string)) s :
  attempts_fresh s → (∀ i, t <= clk i) →
  let s' := foldl (λ s p, insert_attempt p.2 (clk p.1) s) s l in
  attempts_fresh s' ∧ (failures s + (if bool_decide (trim_space key ∈ l.*2) then 1 else 0) ≤ failures s')%nat.
Proof using Type.
  intros Hs Hclk. cbv zeta. revert s Hs. induction l as [|[i k] l IH]; intros s Hs; [split; [done|]; rewrite bool_decide_false by apply not_elem_of_nil; cbn; lia|]. cbn [foldl fst snd].
  destruct (insert_attempt_tally k (clk i) s Hs) as [Hs1 Hf]. specialize (IH _ Hs1) as [Hs2 IH]. split; [exact Hs2|].
  rewrite Hf in IH. cbn [fmap list_fmap snd]. destruct (bool_decide (trim_space key ∈ k :: l.*2)) eqn:Hin; [|lia].
  destruct (bool_decide (trim_space key ∈ l.*2)) eqn:Hl; [lia|]. bool_to_prop.
  apply elem_of_cons in Hin as [<-|Hin]; [|done].
  unfold counted in IH. cbn in IH. rewrite String.eqb_refl, (proj2 (Z.leb_le _ _) (Hclk i)) in IH. cbn in IH. lia.
Qed.
Lemma imap_pair_snd {A} (l : list A) : (imap pair l).*2 = l.
Proof using Type. rewrite fmap_imap. etrans; [apply (imap_const id)|]. apply list_fmap_id. Qed.
Lemma trim_keys_Ok l ks k : trim_keys l = Ok ks → k ∈ l → trim_space k ∈ ks.
Proof using Type.
  revert ks. induction l as [|k0 l IH]; intros ks Hks Hk; [by apply not_elem_of_nil in Hk|].
  cbn [trim_keys foldr] in Hks. apply result_bind_Ok in Hks as (rest & Hrest & Hks). cbv zeta in Hks.
  destruct (_ || _); [done|]. injection Hks as <-. apply elem_of_cons in Hk as [->|Hk]; [by left|right].
  by apply IH.
Qed.
Lemma RecordLoginAttempts_tally other clk s s' u :
  attempts_fresh s → (∀ i, t <= clk i < t + loginWindow) →
  RecordLoginAttempts [other; key] false clk s = (s', Ok u) →
  attempts_fresh s' ∧ (failures s + 1 ≤ failures s')%nat.
Proof using Type.
  intros Hs Hclk Hrun. unfold RecordLoginAttempts in Hrun. cbv zeta in Hrun. inv_ok.
  match goal with Hk : trim_keys _ = Ok ?ks |- _ => apply (trim_keys_Ok _ _ key) in Hk; [|right; left]; rename Hk into Hin;
    destruct (insert_attempts_tally clk (imap pair (remove_dups ks)) s Hs (λ i, proj1 (Hclk i))) as [Hs1 Hf] end.
  rewrite imap_pair_snd, bool_decide_true in Hf by (by apply elem_of_remove_dups).
  match goal with |- attempts_fresh (set_attempts _ ?x) ∧ _ => set (s1 := x) in * end. split.
  - intros i a. cbn. intros [Hi _]%map_lookup_filter_Some. by apply (Hs1 i a).
  - etrans; [exact Hf|]. unfold failures at 2. cbn [attempts set_attempts]. rewrite count_filter; [done|].
    intros i a Ha. cbn. apply Z.ltb_ge. unfold counted in Ha. bool_to_prop. pose proof (Hclk 8%nat) as H8.
    unfold Add, loginWindow, Hour, Minute in *. lia.
Qed.
End throttle.

(** ** The login handler *)

Section login.
Context `{Hashes} `{UnicodeFold} (c : Config) (ev : surroundings) (r : Request) (client : option string).

(** The two answers of a password check. *)
Definition wrong_password : answer := see_other r "/login?error=invalid".
Definition signed_in : answer := see_other r "/".

Context (t : Time) (s0 : db).
Notation key := (login_keys r client).2.
Definition same_attempts (sv : server) : Prop :=
  attempts (sv_db sv) = attempts s0 ∧ next_attempt (sv_db sv) = next_attempt s0.
(** What an answer says about the recorded failures. *)
Definition tallied (a : answer) (sv : server) : Prop :=
  a = signed_in ∨ (attempts_fresh (sv_db sv) ∧ (failures key t s0 ≤ failures key t (sv_db sv))%nat ∧
    (a = wrong_password → Z.of_nat (failures key t s0) < loginUserLimit ∧ (failures key t s0 + 1 ≤ failures key t (sv_db sv))%nat)).

Context (Hfresh : attempts_fresh s0) (Hclock : ∀ i, t <= at_ ev i < t + loginWindow).

Lemma no_check_tallied a sv : same_attempts sv → a ≠ wrong_password → tallied a sv.
Proof using Hfresh.
  intros [Ha Hn] Hne. right. unfold failures, attempts_fresh. rewrite Ha, Hn. by split_and!.
Qed.
Lemma error_not_wrong m n : http_Error m n ≠ wrong_password.
Proof using Type. unfold wrong_password, see_other, apiRedirect. cbn. by destruct (String.eqb _ _). Qed.
Lemma redirect_not_wrong target :
  target ≠ "/login?error=invalid" → see_other r target ≠ wrong_password.
Proof using Type.
  intros Hne. unfold wrong_password, see_other, apiRedirect.
  change (negb (has_prefix "/login?error=invalid" "/") || has_prefix "/login?error=invalid" "//") with false. cbn iota.
  destruct (negb _ || _); destruct (String.eqb (HeaderGet r _) _); try discriminate; intros [= Heq]; by apply Hne.
Qed.
#[local] Hint Resolve error_not_wrong redirect_not_wrong no_check_tallied : core.
Notation kept := (λ _, same_attempts).

(** A store call that leaves the attempts. *)
Lemma call_kept {A} (m : ST db A) :
  (∀ a n, preserves (λ s, attempts s = a ∧ next_attempt s = n) m) → web_triple same_attempts (store_call m) kept tallied.
Proof using Type. intros Hm. apply web_triple_call. intros s [Ha Hn]. exact (Hm _ _ (sv_db s) (conj Ha Hn)). Qed.
Lemma error_tallied m n sv : same_attempts sv → tallied (http_Error m n) sv.
Proof using Hfresh. auto. Qed.
Lemma public_form_kept : web_triple same_attempts (public_form c r) kept tallied.
Proof using Hfresh.
  unfold public_form, wrong_csrf, rejectCrossOrigin, stop_if. intros x Hx. rewrite web_bind_unfold.
  destruct (negb (originAllowed c r)); [by apply error_tallied|]. cbn. destruct (negb (is_some (RqPosted r))); [by apply error_tallied|]. cbn.
  destruct (readCookie c r loginCSRFCookie) as [v|]; [|by apply error_tallied]. destruct (constantEqual v _); [done|by apply error_tallied].
Qed.
Lemma auth_busy_tallied {A} (Q : A → server → Prop) : web_triple same_attempts authBusy Q tallied.
Proof using Hfresh. intros x Hx. by apply error_tallied. Qed.
Lemma unavailable_tallied {A} (Q : A → server → Prop) : web_triple same_attempts login_unavailable Q tallied.
Proof using Hfresh. intros x Hx. by apply error_tallied. Qed.
Lemma setCookie_kept name value lifetime : web_triple same_attempts (setCookie c name value lifetime) kept tallied.
Proof using Type. by intros x Hx. Qed.
Lemma clearCookie_kept P name : web_triple P (clearCookie c name) (λ _, P) tallied.
Proof using Type. intros x Hx. unfold clearCookie. rewrite web_bind_unfold. cbn. by destruct (String.eqb _ _). Qed.
Lemma rate_limit_kept k now n :
  now < t + loginWindow →
  web_triple same_attempts (rate_limit k now n) (λ b s, same_attempts s ∧ (k = key → b = true → Z.of_nat (failures key t s0) < n)) tallied.
Proof using Hfresh.
  intros Hnow. unfold rate_limit. eapply web_triple_bind.
  - apply (web_triple_call _ _ _ (λ o s, same_attempts s ∧ ∀ v, k = key → o = Ok (true, v) → Z.of_nat (failures key t s0) < n)).
    intros s Hs. assert ((LoginRateLimit k now loginWindow n (sv_db s)).1 = sv_db s) as Hread.
    { assert (∀ p, preserves (λ s, s = p) (LoginRateLimit k now loginWindow n)) as Hq by (intros p; unfold LoginRateLimit; auto 20 with preserves).
      by apply (Hq _ _ eq_refl). }
    split; [by rewrite Hread|]. intros v -> Hok. destruct Hs as [Ha _].
    destruct (LoginRateLimit key now loginWindow n (sv_db s)) as [s' o'] eqn:Hl. cbn in Hok. subst o'.
    apply (limit_allows _ t) in Hl; [|done]. unfold failures in *. by rewrite <- Ha.
  - intros [[b v]|e].
    + apply web_triple_ret. intros s [Hs Hlim]. split; [done|]. intros Hk ->. by eapply Hlim.
    + intros x [Hx ?]. by apply error_tallied.
Qed.

(** The password check writes no attempt. *)
Lemma Authenticate_attempts name password lifetime scope raw csrf slot now a n :
  preserves (λ s, attempts s = a ∧ next_attempt s = n) (AuthenticateAndCreateSessionInScope name password lifetime scope raw csrf slot now).
Proof using Type.
  unfold AuthenticateAndCreateSessionInScope. apply preserves_bind.
  { intros s Hs. by rewrite (authenticatePassword_reading name password slot s). }
  intros [[user hash]|]; [|auto with preserves]. intros s Hs. unfold issue_session.
  assert (preserves (λ s, attempts s = a ∧ next_attempt s = n) (newSessionInScope (UID user) lifetime (Some hash) scope raw csrf now)) as Hn.
  { unfold newSessionInScope. cbv zeta. apply preserves_bind; [auto with preserves|]. intros _.
    apply preserves_bind; [|auto with preserves]. intros s1 Hs1. unfold map_err, insert_session.
    destruct (users s1 !! _); [|done]. destruct (_ && _); [|done]. cbv zeta. by destruct (sessions _ !! _). }
  specialize (Hn s Hs). destruct (newSessionInScope _ _ _ _ _ _ _ s) as [s1 [x|e]]; [done|]. by destruct (errors_is e ErrNotFound).
Qed.
Lemma recorded_tallied keys ok clk0 sv :
  same_attempts sv → is_ok (RecordLoginAttempts keys ok clk0 (sv_db sv)).2 = false →
  same_attempts (with_sv_engine (with_db (RecordLoginAttempts keys ok clk0 (sv_db sv)).1 (sv_engine sv)) sv).
Proof using Type.
  intros Hs Hok. pose proof (RecordLoginAttempts_back keys ok clk0 (sv_db sv)) as Hb.
  destruct (RecordLoginAttempts keys ok clk0 (sv_db sv)) as [s' [u|e]]; [done|]. cbn in Hb. by subst s'.
Qed.
Lemma deferring_tallied release (m : web answer) (P : server → Prop) :
  (∀ s, sv_db (release s) = sv_db s) → web_triple P m tallied tallied → web_triple P (deferring release m) tallied tallied.
Proof using Type.
  intros Hr Hm x Hx. specialize (Hm x Hx). unfold deferring. destruct (m x) as [x' [a|a]]; cbn in *.
  all: unfold tallied, failures, attempts_fresh in *; by rewrite Hr.
Qed.
Lemma login_tallied : web_triple same_attempts (login c ev r client) tallied tallied.
Proof using Hfresh Hclock.
  unfold login. eapply web_triple_bind; [apply public_form_kept|]. intros []. unfold holding_login.
  eapply web_triple_bind; [apply web_triple_ask|]. intros busy. destruct busy; [intros x [Hx ?]; by apply auth_busy_tallied|].
  apply (web_triple_bind _ _ _ _ kept); [intros x Hx; exact (proj1 Hx)|]. intros [].
  apply deferring_tallied; [done|]. eapply web_triple_bind; [apply call_kept; intros a n; unfold HasUsers; auto with preserves|].
  intros [[|]|e]; [| |intros x Hx; by apply error_tallied].
  2: { eapply web_triple_bind; [apply clearCookie_kept|]. intros []. apply web_triple_stop. auto. }
  destruct (login_keys r client) as [ipKey userKey] eqn:Hkeys.
  eapply web_triple_bind; [apply rate_limit_kept, Hclock|]. intros allowedIP.
  eapply web_triple_bind; [eapply web_triple_weaken; [apply (rate_limit_kept userKey), (Hclock 1)|by intros ? [? _]|done]|]. intros allowedUser.
  eapply web_triple_bind; [apply web_triple_stop_if; intros _ s [Hs _]; auto|]. intros [].
  apply (web_triple_bind _ _ _ _ (λ _ s, same_attempts s ∧ Z.of_nat (failures key t s0) < loginUserLimit)).
  { apply web_triple_call. intros s (Hallowed & Hs & Hlim). apply orb_false_iff in Hallowed as [_ Hallowed]. apply negb_false_iff in Hallowed.
    split; [|by apply Hlim; [rewrite Hkeys|]]. destruct Hs as [Ha Hn].
    exact (Authenticate_attempts _ _ _ _ _ _ _ _ _ _ (sv_db s) (conj Ha Hn)). }
  intros [found|e]; [|destruct (errors_is e ErrBusy); intros x [Hx ?]; by apply error_tallied].
  apply (web_triple_bind _ _ _ _ (λ recorded s,
    match recorded with
    | Err _ => same_attempts s
    | Ok _ => found = None → attempts_fresh (sv_db s) ∧ Z.of_nat (failures key t s0) < loginUserLimit
                             ∧ (failures key t s0 + 1 ≤ failures key t (sv_db s))%nat
    end)).
  - apply web_triple_call. intros s [Hs Hlim]. pose proof (recorded_tallied [ipKey; userKey] (is_some found) (clk ev 3) s Hs) as Herr.
    destruct (RecordLoginAttempts [ipKey; userKey] (is_some found) (clk ev 3) (sv_db s)) as [s' [u|e]] eqn:Hrec; [|by apply Herr].
    cbn [snd fst]. intros ->. destruct Hs as [Ha Hn].
    apply (RecordLoginAttempts_tally userKey t ipKey (clk ev 3) (sv_db s) s' u) in Hrec as [Hf Hc].
    + change (sv_db _) with s'. rewrite Hkeys in *. split_and!; [done..|]. unfold failures at 1 in Hc. rewrite Ha in Hc. exact Hc.
    + unfold attempts_fresh. by rewrite Ha, Hn.
    + intros i. apply Hclock.
  - intros [u|e].
    + destruct found as [[user credentials]|].
      * apply (web_triple_bind _ _ _ _ (λ _ _, True)); [by intros x Hx|]. intros [].
        apply (web_triple_bind _ _ _ _ (λ _ _, True)); [by intros x Hx|]. intros [].
        eapply web_triple_bind; [apply clearCookie_kept|]. intros []. apply web_triple_ret. intros s _. by left.
      * intros x Hx. cbn. destruct (Hx eq_refl) as (Hf & Hlim & Hc). right. split_and!; [done|lia|by intros _].
    + destruct found as [[user credentials]|]; [|intros x Hx; by apply error_tallied].
      eapply web_triple_bind; [apply call_kept; intros a n; unfold DeleteSession; by apply preserves_modify|].
      intros a x Hx. by apply error_tallied.
Qed.
End login.

(** ** A sequence of sign-ins *)

(** Answers that send the browser elsewhere can be told from all others. *)
Definition plain_body (b : body) : option (nat * string) :=
  match b with
  | PlainError m => Some (0%nat, m) | Redirect t => Some (1%nat, t) | Navigation t => Some (2%nat, t) | _ => None
  end.
Lemma see_other_plain r target a :
  AnStatus a = AnStatus (see_other r target) ∧ plain_body (AnBody a) = plain_body (AnBody (see_other r target)) ↔ a = see_other r target.
Proof.
  split; [|by intros ->]. unfold see_other, apiRedirect. destruct a as [n []]; repeat case_match; cbn; intros [-> [=]]; by subst.
Qed.
#[export] Instance see_other_dec r target a : Decision (a = see_other r target).
Proof.
  refine (cast_if (decide (AnStatus a = AnStatus (see_other r target) ∧ plain_body (AnBody a) = plain_body (AnBody (see_other r target)))));
    abstract by rewrite <- see_other_plain.
Defined.
#[export] Instance signed_in_dec r a : Decision (a = signed_in r) := see_other_dec r _ a.
#[export] Instance wrong_password_dec r a : Decision (a = wrong_password r) := see_other_dec r _ a.

(** A sign-in: what it meets, the form and the address the boundary found. *)
Record sign_in := MkSignIn { si_surroundings : surroundings; si_request : Request; si_client : option string }.

Section sign_ins.
Context `{Hashes} `{UnicodeFold} (c : Config).

Definition serve_sign_in (a : sign_in) (s : server) : server * answer :=
  let '(s', resp) := respond_with (login c (si_surroundings a) (si_request a) (si_client a)) s in (s', RsAnswer resp).
(** The wrong passwords that were checked before one was right. *)
Fixpoint wrong_guesses (l : list sign_in) (s : server) : nat :=
  match l with
  | [] => 0
  | a :: rest =>
      let '(s', out) := serve_sign_in a s in
      if bool_decide (out = signed_in (si_request a)) then 0
      else (if bool_decide (out = wrong_password (si_request a)) then 1 else 0) + wrong_guesses rest s'
  end%nat.

Lemma serve_sign_in_tallied t a s s' out :
  attempts_fresh (sv_db s) → (∀ i, t <= at_ (si_surroundings a) i < t + loginWindow) →
  serve_sign_in a s = (s', out) → tallied (si_request a) (si_client a) t (sv_db s) out s'.
Proof using Type.
  intros Hs Hclock. unfold serve_sign_in, respond_with.
  pose proof (login_tallied c (si_surroundings a) (si_request a) (si_client a) t (sv_db s) Hs Hclock (MkExchange s [] "")) as Hl.
  cbn [x_server] in Hl. specialize (Hl (conj eq_refl eq_refl)).
  destruct (login c _ _ _ (MkExchange s [] "")) as [x [b|b]]; cbn; intros [= <- <-]; exact Hl.
Qed.
Lemma wrong_guesses_tally key t l s :
  attempts_fresh (sv_db s) →
  (∀ a, a ∈ l → (login_keys (si_request a) (si_client a)).2 = key ∧ ∀ i, t <= at_ (si_surroundings a) i < t + loginWindow) →
  Z.of_nat (wrong_guesses l s + failures key t (sv_db s)) <= Z.max loginUserLimit (Z.of_nat (failures key t (sv_db s))).
Proof using Type.
  revert s. induction l as [|a l IH]; intros s Hs Hl; [cbn; lia|]. cbn [wrong_guesses].
  destruct (serve_sign_in a s) as [s' out] eqn:Hrun. destruct (Hl a) as [Hkey Hclock]; [by left|].
  apply (serve_sign_in_tallied t) in Hrun; [|done..]. case_bool_decide as Hin; [cbn; lia|].
  destruct Hrun as [|(Hs' & Hmono & Hwrong)]; [done|]. rewrite Hkey in *.
  specialize (IH s' Hs' (λ a' Ha', Hl a' (list_elem_of_further _ _ _ Ha'))).
  case_bool_decide as Hw; [destruct (Hwrong Hw)|]; lia.
Qed.
End sign_ins.

(** C36: passwords cannot be tried out.  However many sign-ins one address sends for one name
    inside fifteen minutes, in whatever state the server is, with whatever forms: before a
    right password at most five are checked and found wrong. *)
Theorem guesses_are_bounded `{Hashes} `{UnicodeFold} c key t l s :
  attempts_fresh (sv_db s) →
  (∀ a, a ∈ l → (login_keys (si_request a) (si_client a)).2 = key ∧ ∀ i, t <= at_ (si_surroundings a) i < t + loginWindow) →
  Z.of_nat (wrong_guesses c l s) <= loginUserLimit.
Proof.
  intros Hs Hl. pose proof (wrong_guesses_tally c key t l s Hs Hl) as Hle. unfold loginUserLimit in *.
  pose proof (Nat2Z.is_nonneg (failures key t (sv_db s))). lia.
Qed.

(** Seven wrong passwords of the sample's owner, a second apart: five are checked. *)
#[local] Instance throttle_fold : UnicodeFold := {| EqualFold := equal_fold; EqualFold_ascii := λ _ _ _ _, eq_refl |}.
Definition wrong_sign_in (i : Z) : sign_in :=
  MkSignIn (MkSurroundings (λ _, t0 + i * Second) (λ _, "") (λ _, true))
    (MkRequest "POST" ["api"; "login"] "localhost:8080" "127.0.0.1:50000" false
      [("Origin", "http://localhost:8080")] [("lake_pass_login_csrf", "form")] []
      (Some [("csrf_token", "form"); ("username", "owner"); ("password", "a wrong password")])) None.
Definition wrong_sign_ins : list sign_in := wrong_sign_in <$> [0; 1; 2; 3; 4; 5; 6].
Lemma guesses_are_bounded_witness :
  wrong_guesses web_config wrong_sign_ins signed_in_server = 5%nat ∧
  Z.of_nat (wrong_guesses web_config wrong_sign_ins signed_in_server) <= loginUserLimit.
Proof.
  split; [by vm_compute|].
  refine (guesses_are_bounded web_config (login_keys (si_request (wrong_sign_in 0)) None).2 t0 wrong_sign_ins signed_in_server _ _).
  - intros k a Hk. vm_compute in Hk. discriminate Hk.
  - intros a Ha. apply list_elem_of_fmap in Ha as (i & -> & Hi). split; [reflexivity|]. intros j.
    assert (0 <= i <= 6) as Hrange by (repeat (apply elem_of_cons in Hi as [->|Hi]; [lia|]); by apply not_elem_of_nil in Hi).
    cbn [si_surroundings wrong_sign_in at_]. unfold loginWindow, Minute, Second. lia.
Defined.
