(* ===== verification/PageProperties.v ===== *)
(** * What the pages show of whom (src/internal/web: the pages of a member)

    Two databases that agree on the rows of one account, and the requests that read: what
    they answer depends on nothing else.  Then when a lake is shown as connected, and which
    visits are shown. *)

From S2P Require Import Prelude GoStrings GoTime Json Auth Secrets Origin Domain Database JobStore ResourceStore ProfileStore SettingsStore AccountStore.
From S2P Require Import AccountStore Otp BookingQueue Egress Config Worker Pairing Storage JobInvariants JobLemmas Samples SystemSamples EventStore AccountInvariants.
From S2P Require Import Isolation Views Http Web WebAuth WebResources WebServer WebLemmas System WebProperties.
From Stdlib Require Import Ascii String SpecFloat.

Open Scope Z_scope.

(** ** Tables that agree on the rows of an owner *)

Section own_rows.
Context {K A : Type} `{Countable K} (owner : A → Z) (uid : Z).

Definition own_rows (m m' : gmap K A) : Prop := ∀ k a, owner a = uid → m !! k = Some a ↔ m' !! k = Some a.
Lemma own_rows_refl m : own_rows m m.
Proof using Type. done. Qed.
Lemma own_lookup (f : A → bool) m m' k :
  own_rows m m' → (∀ a, f a = true → owner a = uid) →
  (a ← m !! k; if f a then Some a else None) = (a ← m' !! k; if f a then Some a else None).
Proof using Type.
  intros Hm Hf. destruct (m !! k) as [a|] eqn:Ha, (m' !! k) as [b|] eqn:Hb; cbn; [|..|done].
  - destruct (f a) eqn:Hfa.
    + apply (Hm k a (Hf a Hfa)) in Ha. rewrite Hb in Ha. injection Ha as ->. by rewrite Hfa.
    + destruct (f b) eqn:Hfb; [|done]. apply (Hm k b (Hf b Hfb)) in Hb. congruence.
  - destruct (f a) eqn:Hfa; [|done]. apply (Hm k a (Hf a Hfa)) in Ha. congruence.
  - destruct (f b) eqn:Hfb; [|done]. apply (Hm k b (Hf b Hfb)) in Hb. congruence.
Qed.
End own_rows.
Lemma own_rows_insert {K A} `{Countable K} (owner : A → Z) uid (m m' : gmap K A) k a :
  own_rows owner uid m m' → own_rows owner uid (<[k:=a]> m) (<[k:=a]> m').
Proof. intros Hm k' b Hb. rewrite !lookup_insert_Some. by rewrite (Hm k' b Hb). Qed.

(** A query of the owner's rows answers alike. *)
Lemma own_select {A} (owner : A → Z) uid (f : A → bool) (m m' : gmap Z A) :
  own_rows owner uid m m' → (∀ a, f a = true → owner a = uid) → select f m = select f m'.
Proof.
  intros Hm Hf. apply (StronglySorted_unique_strong (λ a b, a.1 < b.1)); [intros; lia|apply select_sorted..|].
  apply NoDup_Permutation; [eapply NoDup_fmap_1, select_keys_NoDup..|]. intros [k a]. rewrite !elem_of_select.
  split; intros [Hk Ha]; (split; [by apply (Hm k a (Hf a Ha))|done]).
Qed.

(** ** Databases that agree on the rows of an account *)

Section alike.
Context `{Hashes} (uid : Z) (token : string).

(** Both hold the same rows of the account, which exists; the token is one of its sessions,
    or none. *)
Record alike (s s' : db) : Prop := {
  al_users : users s !! uid = users s' !! uid;
  al_self : ∃ r, users s !! uid = Some r ∧ UID (ur_user r) = uid;
  al_session : sessions s !! HashToken token = sessions s' !! HashToken token;
  al_session_owner : ∀ session, sessions s !! HashToken token = Some session → SUserID session = uid;
  al_sources : own_rows source_owner uid (sources s) (sources s');
  al_profiles : own_rows profile_owner uid (profiles s) (profiles s');
  al_bookings : own_rows BUserID uid (bookings s) (bookings s');
  al_jobs : own_rows JUserID uid (jobs s) (jobs s');
  al_events : own_rows EUserID uid (events s) (events s');
  al_lakes : ∀ lake, lake_settings s !! (uid, lake) = lake_settings s' !! (uid, lake);
  al_account : account_settings s !! uid = account_settings s' !! uid;
  al_prefs : otp_preferences s !! uid = otp_preferences s' !! uid;
  al_network : network_settings s = network_settings s'
}.

(** A call answers alike and keeps the agreement. *)
Definition agrees {A} (m : ST db A) : Prop := ∀ s s', alike s s' → (m s).2 = (m s').2 ∧ alike (m s).1 (m s').1.
Lemma agrees_reading {A} (m : ST db A) : reads m → (∀ s s', alike s s' → (m s).2 = (m s').2) → agrees m.
Proof using Type. intros Hr Hm s s' Hs. rewrite (Hr s), (Hr s'). split; [by apply Hm|done]. Qed.
Lemma agrees_gets {A} (f : db → A) : (∀ s s', alike s s' → f s = f s') → agrees (gets f).
Proof using Type. intros Hf. apply agrees_reading; [done|]. intros s s' Hs. unfold gets. cbn. by rewrite (Hf s s' Hs). Qed.
Lemma agrees_value {A} (f : db → result A) : (∀ s s', alike s s' → f s = f s') → agrees (λ s, (s, f s)).
Proof using Type. intros Hf. apply agrees_reading; [done|]. intros s s' Hs. cbn. by apply Hf. Qed.
Lemma agrees_lift {A} (r : result A) : agrees (lift r).
Proof using Type. by intros s s' Hs. Qed.
Lemma agrees_ret {A} (a : A) : agrees (mret a).
Proof using Type. by intros s s' Hs. Qed.
Lemma agrees_fail {A} e : agrees (fail (A:=A) e).
Proof using Type. by intros s s' Hs. Qed.
Lemma agrees_reject b e : agrees (st_reject b e).
Proof using Type. by intros s s' Hs. Qed.
Lemma agrees_bind {A B} (m : ST db A) (f : A → ST db B) : agrees m → (∀ a, agrees (f a)) → agrees (m ≫= f).
Proof using Type.
  intros Hm Hf s s' Hs. rewrite !ST_bind_unfold. destruct (Hm s s' Hs) as [Hr Ha].
  destruct (m s) as [t r], (m s') as [t' r']. cbn in Hr, Ha. subst r'. destruct r as [a|e]; [by apply Hf|done].
Qed.
Lemma agrees_attempt {A} (m : ST db A) : agrees m → agrees (attempt m).
Proof using Type.
  intros Hm s s' Hs. destruct (Hm s s' Hs) as [Hr Ha]. unfold attempt. destruct (m s), (m s'). cbn in *. by subst.
Qed.
End alike.
Create HintDb agrees.
#[export] Hint Resolve agrees_lift agrees_ret agrees_fail agrees_reject agrees_attempt : agrees.
Ltac agree := repeat first
  [ progress intros
  | solve [auto 3 with agrees]
  | apply agrees_bind
  | match goal with
    | |- agrees _ _ (match ?o with _ => _ end) => destruct o
    | |- agrees _ _ (let '(_, _) := ?o in _) => destruct o
    end ].
(** The answer of a call that agrees, rewritten from one database to the other. *)
Lemma agrees_value_of `{Hashes} {A} uid token (m : ST db A) s s' : agrees uid token m → alike uid token s s' → (m s).2 = (m s').2.
Proof. intros Hm Hs. by destruct (Hm s s' Hs). Qed.

Section reads.
Context `{Hashes} `{AEAD} `{TimeZoneDB} `{UnicodeFold} (c : Config) (a : requestSession) (token : string).
Notation uid := (RSUserID a).
Ltac own := intros; simpl in *; bool_to_prop; unfold source_owner, profile_owner in *; cbn in *; congruence || lia.

Lemma GetProfile_agrees id : agrees uid token (GetProfile uid id).
Proof using Type.
  unfold GetProfile. agree. apply agrees_gets. intros s s' Hs.
  assert (∀ m : gmap Z ProfileRow, (r ← m !! id; if PUserID (pr_profile r) =? uid then Some (pr_profile r) else None) =
    pr_profile <$> (r ← m !! id; if profile_owner r =? uid then Some r else None)) as Heq
    by (intros m; destruct (m !! id) as [r|]; [cbn; unfold profile_owner; by destruct (_ =? _)|done]).
  rewrite !Heq. f_equal. apply (own_lookup profile_owner uid (λ r, profile_owner r =? uid)); [apply Hs|lia].
Qed.
Lemma GetBookingRequest_agrees id : agrees uid token (GetBookingRequest uid id).
Proof using Type.
  unfold GetBookingRequest. agree. apply agrees_gets. intros s s' Hs.
  apply (own_lookup BUserID uid (λ b, BUserID b =? uid)); [apply Hs|lia].
Qed.
Lemma GetJob_agrees id : agrees uid token (GetJob uid id).
Proof using Type.
  unfold GetJob. agree. apply agrees_gets. intros s s' Hs.
  apply (own_lookup JUserID uid (λ j, JUserID j =? uid)); [apply Hs|lia].
Qed.
Lemma GetOTPSource_agrees id : agrees uid token (GetOTPSource uid id).
Proof using Type.
  unfold GetOTPSource. agree. apply agrees_gets. intros s s' Hs.
  apply (own_lookup source_owner uid (λ r, source_owner r =? uid)); [apply Hs|lia].
Qed.
Lemma GetOTPSourceConfig_agrees id : agrees uid token (GetOTPSourceConfig uid id).
Proof using Type.
  unfold GetOTPSourceConfig. agree. apply agrees_gets. intros s s' Hs.
  apply (own_lookup source_owner uid (λ r, source_owner r =? uid)); [apply Hs|lia].
Qed.
Lemma ListProfiles_agrees : agrees uid token (ListProfiles uid).
Proof using Type.
  unfold ListProfiles. agree. apply agrees_gets. intros s s' Hs. do 3 f_equal.
  apply (own_select profile_owner uid); [apply Hs|unfold profile_owner; lia].
Qed.
Lemma ListOTPSources_agrees : agrees uid token (ListOTPSources uid).
Proof using Type.
  unfold ListOTPSources. agree. apply agrees_gets. intros s s' Hs. do 3 f_equal.
  apply (own_select source_owner uid); [apply Hs|unfold source_owner; lia].
Qed.
Lemma ListBookingRequests_agrees : agrees uid token (ListBookingRequests uid).
Proof using Type.
  unfold ListBookingRequests. agree. apply agrees_gets. intros s s' Hs. do 2 f_equal.
  apply (own_select BUserID uid); [apply Hs|lia].
Qed.
Lemma ListJobs_agrees n : agrees uid token (ListJobs uid n).
Proof using Type.
  unfold ListJobs, newest_jobs. agree. apply agrees_gets. intros s s' Hs. do 3 f_equal.
  apply (own_select JUserID uid); [apply Hs|lia].
Qed.
#[local] Hint Resolve GetJob_agrees GetOTPSource_agrees : agrees.
Lemma ListJobEvents_agrees id after n : agrees uid token (ListJobEvents uid id after n).
Proof using Type.
  unfold ListJobEvents. destruct (Z.leb_spec uid 0); [intros s s' Hs; by rewrite !ST_bind_unfold|].
  agree. apply agrees_gets. intros s s' Hs. unfold listJobEvents. do 3 f_equal.
  apply (own_select EUserID uid); [apply Hs|]. intros e. destruct (Z.ltb_spec 0 uid); cbn; lia.
Qed.
Lemma GetAccountSettings_agrees : agrees uid token (GetAccountSettings uid).
Proof using Type. unfold GetAccountSettings. agree. apply agrees_gets. intros s s' Hs. by rewrite (al_account _ _ _ _ Hs). Qed.
Lemma GetLakeSettings_agrees id : agrees uid token (GetLakeSettings uid id).
Proof using Type. unfold GetLakeSettings. agree. apply agrees_gets. intros s s' Hs. apply (al_lakes _ _ _ _ Hs). Qed.
Lemma GetDefaultOTPSource_agrees : agrees uid token (GetDefaultOTPSource uid).
Proof using Type. unfold GetDefaultOTPSource. agree. apply agrees_gets. intros s s' Hs. apply (al_prefs _ _ _ _ Hs). Qed.
#[local] Hint Resolve GetProfile_agrees GetBookingRequest_agrees ListProfiles_agrees ListOTPSources_agrees ListBookingRequests_agrees
  ListJobs_agrees ListJobEvents_agrees GetAccountSettings_agrees GetLakeSettings_agrees GetDefaultOTPSource_agrees : agrees.

Ltac same_value Hs := repeat match goal with
  | |- context [(?m ?s).2] => match type of Hs with alike _ _ s ?s' =>
      rewrite (agrees_value_of _ token m s s') by first [exact Hs | solve [auto with agrees]] end
  end.
Lemma effective_agrees id : agrees uid token (effectiveLakeSettings c a id).
Proof using Type.
  apply agrees_reading; [apply effective_reading|]. intros s s' Hs. unfold effectiveLakeSettings.
  destruct (Resolve id) as [lake|e]; [|done]. same_value Hs. by repeat case_match.
Qed.
Lemma default_read_agrees : agrees uid token (default_source_read a).
Proof using Type.
  apply agrees_reading; [apply default_read_reading|]. intros s s' Hs. unfold default_source_read. same_value Hs. by case_match.
Qed.
#[local] Hint Resolve effective_agrees default_read_agrees GetOTPSourceConfig_agrees : agrees.
Lemma stored_config_agrees {A} kept (zero : A) decode : agrees uid token (stored_config a kept zero decode).
Proof using Type. unfold stored_config. agree. Qed.
#[local] Hint Resolve stored_config_agrees : agrees.
Lemma stored_shown_agrees source : agrees uid token (stored_shown c a source).
Proof using Type. unfold stored_shown. agree. Qed.
Lemma lakeConnections_agrees : agrees uid token (lakeConnections c a).
Proof using Type. unfold lakeConnections. agree. Qed.
Lemma lake_overviews_agrees l : agrees uid token (lake_overviews c a l).
Proof using Type. induction l; simpl; unfold lake_overview; agree. Qed.
Lemma pending_agrees f : agrees uid token (pendingResourceJob a f).
Proof using Type. unfold pendingResourceJob. agree. Qed.
Lemma source_card_agrees n source : agrees uid token (source_card c a n source).
Proof using Type.
  apply agrees_reading; [apply source_card_reading|]. intros s s' Hs. unfold source_card.
  assert (CheckPairingSetup (YodelOrigins c) uid (OSID source) [] s = CheckPairingSetup (YodelOrigins c) uid (OSID source) [] s') as ->
    by (unfold CheckPairingSetup; same_value Hs; done).
  destruct (CheckPairingSetup _ _ _ _ _). cbn. by same_value Hs.
Qed.
#[local] Hint Resolve source_card_agrees : agrees.
Lemma source_cards_agrees n l : agrees uid token (source_cards c a n l).
Proof using Type. induction l; simpl; agree. Qed.
Lemma booking_setup_agrees id : agrees uid token (booking_setup c a id).
Proof using Type. unfold booking_setup. agree. Qed.
#[local] Hint Resolve booking_setup_agrees : agrees.
Lemma booking_cards_agrees l : agrees uid token (booking_cards c a l).
Proof using Type. induction l; simpl; agree. Qed.
Lemma job_rows_agrees l : agrees uid token (job_rows a l).
Proof using Type.
  apply agrees_reading; [done|]. intros s s' Hs. unfold job_rows. cbn. by same_value Hs.
Qed.
End reads.
#[export] Hint Resolve GetProfile_agrees GetBookingRequest_agrees ListProfiles_agrees ListOTPSources_agrees ListBookingRequests_agrees
  ListJobs_agrees ListJobEvents_agrees GetAccountSettings_agrees GetLakeSettings_agrees GetDefaultOTPSource_agrees GetJob_agrees
  GetOTPSource_agrees effective_agrees default_read_agrees lakeConnections_agrees lake_overviews_agrees pending_agrees
  source_cards_agrees booking_setup_agrees booking_cards_agrees job_rows_agrees stored_shown_agrees : agrees.

(** ** Requests that answer alike *)

Section same.
Context `{Hashes} `{AEAD} `{TimeZoneDB} `{UnicodeFold} (c : Config) (ev : surroundings) (uid : Z) (token : string).
Notation anything := (λ _, True).

Record twins (x x' : exchange) : Prop := {
  tw_db : alike uid token (sv_db (x_server x)) (sv_db (x_server x'));
  tw_streams : sv_streams (x_server x) = sv_streams (x_server x');
  tw_cookies : x_cookies x = x_cookies x';
  tw_retry : x_retry x = x_retry x'
}.
(** A program ends alike, and in [Q]. *)
Definition same {A} (Q : A → Prop) (m : web A) : Prop := ∀ x x', twins x x' →
  twins (m x).1 (m x').1 ∧ (m x).2 = (m x').2 ∧ match (m x).2 with Go a => Q a | Stop _ => True end.
Lemma same_ret {A} (Q : A → Prop) a : Q a → same Q (mret a).
Proof using Type. by intros HQ x x' Hx. Qed.
Lemma same_stop {A} (Q : A → Prop) a : same Q (stop a).
Proof using Type. by intros x x' Hx. Qed.
Lemma same_stop_if b a : same anything (stop_if b a).
Proof using Type. by destruct b. Qed.
Lemma same_bind_with {A B} (P : A → Prop) (Q : B → Prop) (m : web A) (f : A → web B) :
  same P m → (∀ a, P a → same Q (f a)) → same Q (m ≫= f).
Proof using Type.
  intros Hm Hf x x' Hx. destruct (Hm x x' Hx) as (Ht & He & HP). rewrite !web_bind_unfold.
  destruct (m x) as [y [b|b]], (m x') as [y' o]; cbn in *; subst o; [by apply Hf|done].
Qed.
Lemma same_bind {A B} (Q : B → Prop) (m : web A) (f : A → web B) :
  same anything m → (∀ a, same Q (f a)) → same Q (m ≫= f).
Proof using Type. intros Hm Hf. by eapply same_bind_with. Qed.
Lemma same_call {A} (m : ST db A) : agrees uid token m → same anything (store_call m).
Proof using Type.
  intros Hm x x' Hx. unfold store_call. destruct (Hm _ _ (tw_db _ _ Hx)) as [Hr Ha].
  destruct (m (sv_db (x_server x))) as [t r], (m (sv_db (x_server x'))) as [t' r']. cbn in Hr, Ha. subst r'.
  by split; [split; [exact Ha|apply Hx..]|].
Qed.
Lemma same_streams : same anything (ask_server sv_streams).
Proof using Type. intros x x' Hx. split; [done|]. cbn. by rewrite (tw_streams _ _ Hx). Qed.
Lemma same_change f : same anything (change_server (change_streams f)).
Proof using Type. intros x x' Hx. split; [|done]. split; try apply Hx. cbn. by rewrite (tw_streams _ _ Hx). Qed.
Lemma same_cookie k : same anything (add_cookie k).
Proof using Type. intros x x' Hx. split; [|done]. split; try apply Hx. cbn. by rewrite (tw_cookies _ _ Hx). Qed.
Lemma same_retry t : same anything (retry_after t).
Proof using Type. intros x x' Hx. split; [|done]. split; [apply Hx..|done]. Qed.

(** *** The session *)

Lemma HasUsers_agrees : agrees uid token HasUsers.
Proof using Type.
  apply agrees_gets. intros s s' Hs. destruct (al_self _ _ _ _ Hs) as (r & Hr & _).
  assert (∀ t, users t !! uid = Some r → exists_row (λ _ : UserRow, true) (users t) = true) as Hex.
  { intros t Ht. apply exists_row_true. by exists uid, r. }
  rewrite !Hex; [done| |done]. by rewrite <- (al_users _ _ _ _ Hs).
Qed.
Lemma live_alike s s' session now : alike uid token s s' → SUserID session = uid → live_session now session s = live_session now session s'.
Proof using Type.
  intros Hs Hu. unfold live_session, user_active. by rewrite Hu, (al_users _ _ _ _ Hs).
Qed.
Lemma GetSession_agrees now : agrees uid token (GetSession token now).
Proof using Type.
  unfold GetSession. agree. apply agrees_gets. intros s s' Hs. rewrite <- (al_session _ _ _ _ Hs).
  destruct (sessions s !! HashToken token) as [session|] eqn:Hse; [|done]. cbn.
  pose proof (al_session_owner _ _ _ _ Hs session Hse) as Hu. rewrite Hu, <- (al_users _ _ _ _ Hs).
  destruct (users s !! uid); [|done]. cbn. by rewrite (live_alike s s' session now Hs Hu).
Qed.
Lemma TouchSession_agrees now : agrees uid token (TouchSession token now).
Proof using Type.
  intros s s' Hs. unfold TouchSession. rewrite !ST_bind_unfold. cbn [gets]. rewrite <- (al_session _ _ _ _ Hs).
  destruct (sessions s !! HashToken token) as [session|] eqn:Hse; [|done]. cbn [mbind option_bind].
  pose proof (al_session_owner _ _ _ _ Hs session Hse) as Hu. rewrite <- (live_alike s s' session now Hs Hu).
  destruct (live_session now session s); [|done]. split; [done|]. destruct Hs. split; try done; cbn.
  - by rewrite !lookup_insert_eq.
  - intros se. rewrite lookup_insert_eq. by intros [= <-].
Qed.
Hint Resolve HasUsers_agrees GetSession_agrees TouchSession_agrees : agrees.

Ltac sameness := repeat lazymatch goal with
  | |- ∀ _, _ => intro
  | |- same _ (_ ≫= _) => apply same_bind
  | |- same _ (mret _) => apply same_ret; try exact I
  | |- same _ (stop _) => apply same_stop
  | |- same _ (stop_if _ _) => apply same_stop_if
  | |- same _ (store_call _) => apply same_call; try (match goal with Ha : RSUserID _ = uid |- _ => rewrite <- Ha end); solve [agree]
  | |- same _ (ask_server sv_streams) => apply same_streams
  | |- same _ (change_server (change_streams _)) => apply same_change
  | |- same _ (retry_after _) => apply same_retry
  | |- same _ (add_cookie _) => apply same_cookie
  | |- same _ (let _ := _ in _) => cbv zeta
  | |- same _ (match ?o with _ => _ end) => destruct o eqn:?
  | |- same _ ?m => let h := head m in unfold h
  end
with head t := match t with ?f _ => head f | _ => t end.

(** The account of the session is the one both know. *)
Lemma session_same now : same (λ found, ∀ session user, found = Ok (session, user) → UID user = uid) (store_call (GetSession token now)).
Proof using Type.
  intros x x' Hx. destruct (same_call _ (GetSession_agrees now) x x' Hx) as (Ht & He & _). split_and!; [done..|].
  unfold store_call, GetSession. rewrite ST_bind_unfold. cbn [gets]. destruct (al_self _ _ _ _ (tw_db _ _ Hx)) as (r & Hr & Hid).
  destruct (sessions (sv_db (x_server x)) !! HashToken token) as [se|] eqn:Hse; [|done]. cbn [mbind option_bind].
  rewrite (al_session_owner _ _ _ _ (tw_db _ _ Hx) se Hse), Hr. cbn [mbind option_bind].
  destruct (live_session _ _ _); [|done]. cbn. by intros ?? [= _ <-].
Qed.
Lemma unauthorized_same {A} (Q : A → Prop) r path : same Q (unauthorized r path).
Proof using Type. sameness. Qed.
Lemma cleared_same {A} (Q : A → Prop) r path : same Q (_ ← clearAuthCookies c; unauthorized r path).
Proof using Type. sameness. Qed.
Lemma failure_same {A} (Q : A → Prop) r path e : same Q (sessionFailure c r path e).
Proof using Type. sameness. Qed.
Lemma live_request_same r path : readSessionCookie c r = Some token →
  same (λ a, a.1 = token ∧ UID a.2.2 = uid) (live_request c ev r path).
Proof using Type.
  intros Htok. unfold live_request. rewrite Htok. destruct (String.eqb token ""); [apply unauthorized_same|].
  eapply same_bind_with; [apply session_same|]. intros [[session user]|e] Hid; [|apply failure_same].
  apply same_ret. split; [done|]. by eapply Hid.
Qed.
Lemma csrf_of_same r path session : same anything (csrf_of c r path session).
Proof using Type.
  unfold csrf_of. destruct (readCookie c r csrfCookie) as [v|]; [|apply cleared_same].
  destruct (ValidateCSRF session v); [by apply same_ret|apply cleared_same].
Qed.
Lemma cross_site_same r session csrf : same anything (cross_site_checks c r session csrf).
Proof using Type. sameness. Qed.
Lemma authenticated_same r path next : readSessionCookie c r = Some token →
  (∀ a, RSUserID a = uid → same anything (next a)) → same anything (authenticated c ev r path next).
Proof using Type.
  intros Htok Hnext. unfold authenticated. eapply same_bind_with; [by apply live_request_same|].
  intros [t [session user]] [Ht Hid]. cbn in Ht, Hid. subst t.
  apply same_bind; [apply csrf_of_same|]. intros csrf. apply same_bind; [apply cross_site_same|]. intros _.
  apply same_bind; [apply same_call, TouchSession_agrees|]. intros [[]|e]; [|apply failure_same].
  apply same_bind; [apply same_stop_if|]. intros _. by apply Hnext.
Qed.

(** *** The pages *)

Context (ParseFloat : string → option float64) (health : provider → result unit) (working : string) (d : disk).
Notation table := (routes c ev ParseFloat health working d).
Lemma pages_same : Forall (λ rt, rt_method rt = "GET" → rt_access rt = SignedIn → ∀ wild r client a,
  RSUserID a = uid → same anything (rt_handler rt wild r client a)) table.
Proof using Type.
  unfold routes. repeat (apply List.Forall_cons; [cbn; first [discriminate | intros _; first [discriminate | intros _ wild r client a Ha]]|]);
    [..|by apply List.Forall_nil].
  all: sameness.
Qed.
Lemma public_pages_same r : readSessionCookie c r = Some token →
  Forall (λ rt, rt_method rt = "GET" → rt_access rt = Public → ∀ wild client a, same anything (rt_handler rt wild r client a)) table.
Proof using Type.
  intros Htok. unfold routes. repeat (apply List.Forall_cons; [cbn; first [discriminate | intros _; first [discriminate | intros _ wild client a]]|]);
    [..|by apply List.Forall_nil].
  - unfold loginPage. rewrite Htok. sameness.
  - sameness.
Qed.
Lemma network_agrees : agrees uid token SystemGetNetworkSettings.
Proof using Type. unfold SystemGetNetworkSettings. agree. apply agrees_gets. intros s s' Hs. apply (al_network _ _ _ _ Hs). Qed.
Lemma serve_same r : reading_method (RqMethod r) = true → ¬ administration (tail (RqPath r)) → readSessionCookie c r = Some token →
  same anything (serve c ev ParseFloat health working d r).
Proof using Type.
  intros Hm Hadm Htok. unfold serve. apply same_bind.
  { intros x x' Hx. split; [done|]. cbn. unfold enforceHTTPBoundary, privateNetworkSettings.
    by rewrite (agrees_value_of uid token SystemGetNetworkSettings _ _ network_agrees (tw_db _ _ Hx)). }
  intros [client|e]; [|sameness]. destruct (RqPath r) as [|root path]; [sameness|]. cbn [tail] in Hadm.
  destruct (negb _); [sameness|]. destruct (is_nil path); [by apply same_stop|]. unfold serve_api.
  destruct (dispatch table (RqMethod r) path) as [[rt wild]|] eqn:Hd; [|sameness].
  apply dispatch_in in Hd as (Hin & Hmethod & Hc). pose proof (route_methods c ev ParseFloat health working d) as Hmeth.
  pose proof (administrator_routes c ev ParseFloat health working d) as Hroutes.
  pose proof pages_same as Hpages. pose proof (public_pages_same r Htok) as Hpublic.
  rewrite Forall_forall in Hmeth, Hroutes, Hpages, Hpublic.
  assert (rt_method rt = "GET") as Hget.
  { destruct (Hmeth rt Hin) as [|Hpost]; [done|]. rewrite Hpost in Hmethod. unfold method_matches in Hmethod.
    apply orb_true_iff in Hmethod as [Hmethod|]; [|done]. apply String.eqb_eq in Hmethod. by rewrite <- Hmethod in Hm. }
  unfold serve_route. destruct (rt_access rt) eqn:Hacc.
  - by apply Hpublic.
  - apply authenticated_same; [done|]. intros a Ha. by apply Hpages.
  - by destruct (Hadm (Hroutes rt Hin path wild Hc Hacc)).
Qed.
End same.

(** C11: what a request shows is the account's own.  Whatever two states of the server hold
    of other accounts - their sources, sign-ins, bookings, jobs, events, settings and
    sessions - when they agree on the rows of one account and on the settings of the
    installation, every reading request outside the administration that carries a session of
    that account is answered alike: status, contents of the page, event stream opened,
    cookies and retry time. *)
Theorem answers_show_own_rows_only `{Hashes} `{AEAD} `{TimeZoneDB} `{UnicodeFold} c ev ParseFloat health working d uid token r s s' :
  reading_method (RqMethod r) = true → ¬ administration (tail (RqPath r)) → readSessionCookie c r = Some token →
  alike uid token (sv_db s) (sv_db s') → sv_streams s = sv_streams s' →
  (ServeHTTP c ev ParseFloat health working d r s).2 = (ServeHTTP c ev ParseFloat health working d r s').2.
Proof.
  intros Hm Hadm Htok Hs Hst. unfold ServeHTTP, respond_with.
  destruct (serve_same c ev uid token ParseFloat health working d r Hm Hadm Htok (MkExchange s [] "") (MkExchange s' [] ""))
    as (Ht & He & _); [by split|].
  destruct (serve _ _ _ _ _ _ _ (MkExchange s [] "")) as [x o], (serve _ _ _ _ _ _ _ (MkExchange s' [] "")) as [x' o'].
  cbn in *. destruct Ht as [_ _ Hk Hr]. by rewrite He, Hk, Hr.
Qed.

(** The owner of the sample looks at the sources, before and after another member came and
    made a source. *)
Lemma own_rows_filtered `{Countable K} {A} (owner : A → Z) uid (m m' : gmap K A) :
  filter (λ kv, owner kv.2 = uid) m = filter (λ kv, owner kv.2 = uid) m' → own_rows owner uid m m'.
Proof.
  intros Hm k a Ha. pose proof (map_lookup_filter_Some (λ kv, owner kv.2 = uid) m k a) as H1.
  pose proof (map_lookup_filter_Some (λ kv, owner kv.2 = uid) m' k a) as H2. rewrite Hm in H1. tauto.
Qed.
#[local] Instance page_fold : UnicodeFold := {| EqualFold := equal_fold; EqualFold_ascii := λ _ _ _ _, eq_refl |}.
Definition page_token : string := NewSessionToken (bytes (seq 0 32)) "".
Definition page_request (path : list string) : Request :=
  MkRequest "GET" ("api" :: path) "localhost:8080" "127.0.0.1:50000" false []
    [("lake_pass_session", page_token); ("lake_pass_csrf", web_csrf)] [] (Some []).
Definition neighbour_ops : list op :=
  [ OpCreateMember (MkCreateUser "neighbour" "another long password" false) "0123456789abcdef" true t0;
    OpCreateOTPSource 2 (MkSourceInput "inbox" OTPProviderTwilio "+16045550111"
      (Some (JObject [("auth_token", JString "other")])) true "" "" "") "0123456789ab" t0 ].
Definition neighbour_server : server :=
  MkServer (MkEngine (run (signed_in_ops ++ neighbour_ops) empty_db) Hub.NewHub ∅) false ∅ (MkStreams 0 ∅).
Definition page_answer (path : list string) (s : server) : Response :=
  (ServeHTTP web_config web_surroundings (λ _, None) (λ _, Ok tt) "/srv" (MkDisk (Ok []) (Ok []) (λ _, Err (Sentinel ErrNotExist)) (λ _, Ok tt))
    (page_request path) s).2.
Definition cards_shown (r : Response) : list string :=
  match AnBody (RsAnswer r) with Page _ _ _ (SourcesData cards) => C_Title <$> cards | _ => [] end.
(** The text of a field of a form, and of the settings. *)
Definition text_in (name : string) (sections : list formSection) : option fieldValue :=
  FF_Value <$> List.find (λ f, String.eqb (FF_Name f) name) (List.concat (FS_Fields <$> sections)).
Definition field_shown (name : string) (r : Response) : option fieldValue :=
  match AnBody (RsAnswer r) with
  | Page _ _ _ (FormData f) => text_in name (FM_Sections f)
  | Page _ _ _ (SettingsData sections) => text_in name sections
  | _ => None
  end.
Lemma neighbours_alike : alike 1 page_token (sv_db signed_in_server) (sv_db neighbour_server).
Proof.
  split; [vm_compute; reflexivity|..].
  1: { assert (from_option (λ r, UID (ur_user r)) 0 (users (sv_db signed_in_server) !! 1) = 1) as Hid by (vm_compute; reflexivity).
       destruct (users (sv_db signed_in_server) !! 1) as [r|]; [by exists r|discriminate Hid]. }
  1: vm_compute; reflexivity.
  1: { assert (from_option SUserID 1 (sessions (sv_db signed_in_server) !! HashToken page_token) = 1) as Hid by (vm_compute; reflexivity).
       intros session Hs. by rewrite Hs in Hid. }
  1-5: apply own_rows_filtered; vm_compute; reflexivity.
  1: intros lake; change (lake_settings (sv_db signed_in_server)) with (∅ : gmap (Z * string) LakeSettings).
  all: vm_compute; reflexivity.
Qed.
(** The list of the sources, the form of the first one and the settings. *)
Lemma answers_show_own_rows_only_witness :
  size (sources (sv_db neighbour_server)) = 2%nat ∧ cards_shown (page_answer ["sources"] signed_in_server) = ["phone"] ∧
  field_shown "twilio_to_number" (page_answer ["sources"; "1"] signed_in_server) = Some (Text "+16045550100") ∧
  field_shown "prep_minutes_before" (page_answer ["settings"] signed_in_server) = Some (Text "30") ∧
  Forall (λ path, page_answer path signed_in_server = page_answer path neighbour_server) [["sources"]; ["sources"; "1"]; ["settings"]].
Proof.
  split_and!; [vm_compute; reflexivity..|].
  assert (Forall (λ path, ¬ administration path) [["sources"]; ["sources"; "1"]; ["settings"]]) as Hadm by (repeat constructor; exact (λ f, f)).
  eapply Forall_impl; [exact Hadm|]. intros path Hpath.
  assert (readSessionCookie web_config (page_request path) = Some page_token) as Htok by (vm_compute; reflexivity).
  assert (sv_streams signed_in_server = sv_streams neighbour_server) as Hst by (vm_compute; reflexivity).
  exact (answers_show_own_rows_only web_config web_surroundings (λ _, None) (λ _, Ok tt) "/srv"
    (MkDisk (Ok []) (Ok []) (λ _, Err (Sentinel ErrNotExist)) (λ _, Ok tt)) 1 page_token (page_request path) signed_in_server neighbour_server
    eq_refl Hpath Htok neighbours_alike Hst).
Defined.

(** ** When a sign-in counts as connected *)

(** The last of a list by a time, the first of those at the same time. *)
Section latest.
Context {A : Type} (p : A → bool) (time : A → Time).

Definition pick (best : option A) (a : A) : option A :=
  if p a then match best with None => Some a | Some b => if After (time a) (time b) then Some a else Some b end else best.
(** [best] is the latest of those seen. *)
Definition latest_of (l : list A) (best : option A) : Prop :=
  match best with
  | None => ∀ a, a ∈ l → p a = false
  | Some b => b ∈ l ∧ p b = true ∧ ∀ a, a ∈ l → p a = true → time a <= time b
  end.
Lemma pick_latest l : latest_of l (foldl pick None l).
Proof using Type.
  induction l as [|a l IH] using rev_ind; [intros a Ha; by apply elem_of_nil in Ha|]. rewrite foldl_app. cbn [foldl].
  generalize dependent (foldl pick None l). intros best IH. unfold pick. destruct (p a) eqn:Hp.
  - destruct best as [b|]; cbn in IH.
    + destruct IH as (Hb & Hpb & Hmax). unfold After. destruct (Z.ltb_spec (time b) (time a)); cbn; (split_and!; [set_solver|done|]);
        intros x [Hx|Hx%list_elem_of_singleton]%elem_of_app Hpx; subst; try lia; specialize (Hmax x Hx Hpx); lia.
    + cbn. split_and!; [set_solver|done|]. intros x [Hx|Hx%list_elem_of_singleton]%elem_of_app Hpx; [|subst; lia].
      by rewrite (IH x Hx) in Hpx.
  - destruct best as [b|]; cbn in *.
    + destruct IH as (Hb & Hpb & Hmax). split_and!; [set_solver|done|].
      intros x [Hx|Hx%list_elem_of_singleton]%elem_of_app Hpx; [by apply Hmax|congruence].
    + intros x [Hx|Hx%list_elem_of_singleton]%elem_of_app; [by apply IH|by subst].
Qed.
End latest.

Section connections.
Context `{TimeZoneDB}.

(** A job of the sign-in that shows it works, and a sign-in that failed; both since the
    sign-in was last edited. *)
Definition proves (profile : Profile) (job : Job) : bool := concerns profile job && current_for profile job && verifies job.
Definition refutes (profile : Profile) (job : Job) : bool := concerns profile job && current_for profile job && failed_sign_in job.
Definition proved_at (job : Job) : Time := default zero_time (JFinishedAt job).
Lemma weigh_picks profile jobs :
  ev_verified (weigh_all profile jobs) = foldl (pick (proves profile) proved_at) None jobs ∧
  ev_failed (weigh_all profile jobs) = foldl (pick (refutes profile) connectionJobTime) None jobs.
Proof using Type.
  unfold weigh_all. induction jobs as [|job jobs [IHv IHf]] using rev_ind; [done|]. rewrite !foldl_app. cbn [foldl].
  rewrite <- IHv, <- IHf. generalize (foldl (weigh profile) no_evidence jobs) as e. intros e.
  unfold weigh, pick, proves, refutes, current_for, better, finished_after, failed_after, proved_at.
  destruct (concerns profile job); [|done]. destruct (Terminal (JStatus job)); [|done].
  destruct (Before (JCreatedAt job) (PUpdatedAt profile)); [done|]. cbn. split; [by destruct (verifies job)|by destruct (failed_sign_in job)].
Qed.
End connections.

(** A sign-in is shown as connected exactly when it is enabled and valid for the deployment, a
    source exists, and a job proves it that no failed sign-in follows. *)
Lemma profile_connected `{TimeZoneDB} origins lake profile jobs hasSource :
  CP_Connected (profileConnection origins lake profile jobs hasSource) = true ↔
  PEnabled profile = true ∧ is_ok (profile_ValidateForOrigins profile origins) = true ∧ hasSource = true ∧
  ∃ good, good ∈ jobs ∧ proves profile good = true ∧
    ∀ bad, bad ∈ jobs → refutes profile bad = true → connectionJobTime bad <= proved_at good.
Proof.
  unfold profileConnection. destruct (PEnabled profile); [|by split; [|intros []]].
  destruct (is_ok _); [|by split; [|intros (_ & [=] & _)]]. destruct hasSource; [|by split; [|intros (_ & _ & [=] & _)]]. cbn [negb].
  unfold evidence_status. destruct (weigh_picks profile jobs) as [-> ->].
  pose proof (pick_latest (proves profile) proved_at jobs) as Hgood.
  pose proof (pick_latest (refutes profile) connectionJobTime jobs) as Hbad.
  destruct (foldl (pick (proves profile) proved_at) None jobs) as [good|], (foldl (pick (refutes profile) connectionJobTime) None jobs) as [bad|].
  all: cbn in Hgood, Hbad.
  all: assert (∀ pending s, cs_connected (with_pending pending s) = cs_connected s) as Hp by (by intros []); cbn [CP_Connected]; rewrite Hp; cbn.
  - destruct Hgood as (Hin & Hpr & Hmax), Hbad as (Hbin & Href & Hbmax). unfold After. fold (proved_at good).
    destruct (Z.ltb_spec (proved_at good) (connectionJobTime bad)); cbn; split; try done.
    + intros (_ & _ & _ & g & Hg & Hpg & Hall). specialize (Hall bad Hbin Href). specialize (Hmax g Hg Hpg). lia.
    + intros _. split_and!; [done..|]. exists good. split_and!; [done..|]. intros b Hb Hrb. specialize (Hbmax b Hb Hrb). lia.
  - destruct Hgood as (Hin & Hpr & Hmax). split; [|done]. intros _. split_and!; [done..|]. exists good. split_and!; [done..|].
    intros b Hb Hrb. by rewrite (Hbad b Hb) in Hrb.
  - split; [done|]. intros (_ & _ & _ & g & Hg & Hpg & _). by rewrite (Hgood g Hg) in Hpg.
  - split; [done|]. intros (_ & _ & _ & g & Hg & Hpg & _). by rewrite (Hgood g Hg) in Hpg.
Qed.
Lemma add_connections `{TimeZoneDB} origins lake jobs hasSource mine state :
  LC_Connected (foldl (λ state p, add_connection state (profileConnection origins lake p jobs hasSource)) state mine).1 =
  LC_Connected state.1 || existsb (λ p, CP_Connected (profileConnection origins lake p jobs hasSource)) mine.
Proof.
  revert state. induction mine as [|p mine IH]; intros [r n]; cbn [foldl existsb]; [by rewrite orb_false_r|]. rewrite IH. cbn.
  by rewrite orb_assoc.
Qed.

(** The lakes a page calls connected.  Whatever sign-ins and jobs are listed: a lake is
    shown as connected exactly when the account has a valid default source and an enabled,
    valid sign-in of its own for this lake, of which some job succeeded since its last edit
    without a sign-in that failed later; jobs of other accounts or sign-ins count for
    nothing. *)
Theorem connected_means_verified `{TimeZoneDB} origins lake userID profiles jobs source :
  LC_Connected (buildLakeConnection origins lake userID profiles jobs source) = true ↔
  has_source userID source = true ∧
  ∃ profile, profile ∈ profiles ∧ signs_in_to lake userID profile = true ∧
    PEnabled profile = true ∧ is_ok (profile_ValidateForOrigins profile origins) = true ∧
    ∃ good, good ∈ jobs ∧ proves profile good = true ∧
      ∀ bad, bad ∈ jobs → refutes profile bad = true → connectionJobTime bad <= proved_at good.
Proof.
  assert (∀ r, LC_Connected (manage_label r) = LC_Connected r) as Hlabel by (intros r; unfold manage_label; by destruct (LC_SetupStarted r)).
  unfold buildLakeConnection. cbv zeta. rewrite Hlabel, add_connections. cbn [LC_Connected no_connection fst orb]. rewrite existsb_exists. split.
  - intros (p & Hp & Hc). apply list_elem_of_In, list_elem_of_filter in Hp as [Hmine Hp].
    apply profile_connected in Hc as (He & Hv & Hs & Hgood). split; [done|]. by exists p.
  - intros (Hs & p & Hp & Hmine & He & Hv & Hgood). exists p. split; [by apply list_elem_of_In, list_elem_of_filter|].
    by apply profile_connected.
Qed.

(** ** Which visits are shown *)

Section visits.
Context `{TimeZoneDB} (now : Time).

Context (byID : gmap Z BookingRequest).

(** A job stands for a visit of its booking: it may still book, or it booked what its
    snapshot says, and the date is not over where the lake is. *)
Record stands_for (job : Job) (booking : BookingRequest) : Prop := {
  sf_command : JCommand job = CommandBook;
  sf_status : Terminal (JStatus job) = false ∨ JStatus job = JobSucceeded ∧ BKind booking = BookingKindSnapshot;
  sf_booking : ∃ id, JBookingRequestID job = Some id ∧ byID !! id = Some booking;
  sf_enabled : BEnabled booking = true;
  sf_user : JUserID job = BUserID booking;
  sf_profile : JProfileID job = BProfileID booking;
  sf_date : String.leb (FormatDateOnly (location_or_utc (BTimezone booking)) now) (BTargetDate booking) = true
}.
Lemma visit_of_spec seen job booking :
  visit_of byID now seen job = Some booking ↔ stands_for job booking ∧ BID booking ∉ seen.
Proof using Type.
  unfold visit_of. destruct (decide (JCommand job = CommandBook)) as [Hc|Hc].
  2: { rewrite (bool_decide_false _ Hc). split; [done|]. by intros [[] _]. }
  rewrite (bool_decide_true _ Hc). cbn [negb orb].
  destruct (Terminal (JStatus job) && negb (bool_decide (JStatus job = JobSucceeded))) eqn:Hended.
  { split; [done|]. intros [[_ [Ht|[Ht _]] _ _ _ _ _] _]; [by rewrite Ht in Hended|]. by rewrite bool_decide_true, andb_false_r in Hended. }
  destruct (JBookingRequestID job) as [id|] eqn:Hid; [|split; [done|]; intros [[_ _ (? & ? & _) _ _ _ _] _]; congruence].
  cbn [mbind option_bind]. destruct (byID !! id) as [b|] eqn:Hb.
  2: { split; [done|]. intros [[_ _ (? & ? & ?) _ _ _ _] _]; congruence. }
  cbn. split.
  - destruct (_ || _) eqn:Hall; [done|]. intros [= ->]. repeat (apply orb_false_iff in Hall as [Hall ?]). bool_to_prop.
    split; [split; try done; try lia|done].
    + destruct (Terminal (JStatus job)); [right|by left]. cbn in *. bool_to_prop. tauto.
    + by exists id.
    + by apply string_ltb_leb.
  - intros [[_ Ht (id' & Hid' & Hb') He Hu Hp Hd] Hseen]. assert (b = booking) as -> by congruence.
    rewrite He, Hu, Hp, !Z.eqb_refl, (bool_decide_false _ Hseen). cbn. apply string_ltb_leb in Hd. rewrite Hd, orb_false_r.
    destruct Ht as [->|[-> ->]]; [done|]. by rewrite bool_decide_true, andb_false_r.
Qed.

Definition shown_visit (p : Job * BookingRequest) : dashboardBooking :=
  MkVisit (lakeName (EffectiveLakeID p.2)) (job_url (JID p.1)) (BTargetDate p.2).
(** The job is the first of the list that stands for its booking. *)
Definition first_for (jobs : list Job) (job : Job) (booking : BookingRequest) : Prop :=
  stands_for job booking ∧
  ∃ before after, jobs = (before ++ job :: after)%list ∧
    ∀ j b, j ∈ before → stands_for j b → BID b ≠ BID booking.
Lemma collect_visits_spec jobs seen :
  ∃ picked, collect_visits byID now jobs seen = shown_visit <$> picked ∧ NoDup ((BID ∘ snd) <$> picked) ∧
    (∀ p, p ∈ picked → first_for jobs p.1 p.2 ∧ BID p.2 ∉ seen) ∧
    (∀ job b, job ∈ jobs → stands_for job b → BID b ∉ seen → BID b ∈ (BID ∘ snd) <$> picked).
Proof using Type.
  revert seen. induction jobs as [|job jobs IH]; intros seen.
  { exists []. split_and!; [done|constructor|..]; intros; by match goal with H : _ ∈ [] |- _ => apply elem_of_nil in H end. }
  cbn [collect_visits]. destruct (visit_of byID now seen job) as [b|] eqn:Hv.
  - apply visit_of_spec in Hv as [Hst Hseen]. destruct (IH ({[BID b]} ∪ seen)) as (picked & -> & Hnd & Hfirst & Hall).
    exists ((job, b) :: picked). split_and!; [done|..].
    + rewrite fmap_cons. apply NoDup_cons. split; [|done]. intros (p & Hid & Hp)%list_elem_of_fmap.
      apply Hfirst in Hp as [_ Hn]. cbn in Hid. rewrite <- Hid in Hn. set_solver.
    + intros p [->|Hp]%elem_of_cons.
      * cbn. split; [split; [done|]; exists [], jobs; split; [done|]; intros j x Hj; by apply elem_of_nil in Hj|done].
      * destruct (Hfirst p Hp) as [(Hsf & before & after & -> & Hbefore) Hn]. split; [|set_solver]. split; [done|].
        exists (job :: before), after. split; [done|]. intros j x [->|Hj]%elem_of_cons Hjx; [|by apply (Hbefore j)].
        destruct (sf_booking _ _ Hst) as (i & Hi & Hib), (sf_booking _ _ Hjx) as (i' & Hi' & Hib'). assert (x = b) as -> by congruence.
        set_solver.
    + intros j x [->|Hj]%elem_of_cons Hjx Hn.
      * destruct (sf_booking _ _ Hst) as (i & Hi & Hib), (sf_booking _ _ Hjx) as (i' & Hi' & Hib'). assert (x = b) as -> by congruence. left.
      * destruct (decide (BID x = BID b)) as [Heq|Hne]; [rewrite Heq; left|right]. apply (Hall j); [done..|set_solver].
  - destruct (IH seen) as (picked & -> & Hnd & Hfirst & Hall). exists picked.
    assert (∀ b, stands_for job b → BID b ∈ seen) as Hjob.
    { intros b Hb. destruct (decide (BID b ∈ seen)); [done|]. assert (visit_of byID now seen job = Some b) by (by apply visit_of_spec). congruence. }
    split_and!; [done..| |].
    + intros p Hp. destruct (Hfirst p Hp) as [(Hsf & before & after & -> & Hbefore) Hn]. split; [|done]. split; [done|].
      exists (job :: before), after. split; [done|]. intros j x [->|Hj]%elem_of_cons Hjx; [|by apply (Hbefore j)].
      specialize (Hjob x Hjx). congruence.
    + intros j x [->|Hj]%elem_of_cons Hjx Hn; [by specialize (Hjob x Hjx)|]. by apply (Hall j).
Qed.
End visits.

Notation by_date := (λ v w, String.leb (VDate v) (VDate w) = true).
Lemma insert_visit_spec v l : StronglySorted by_date l → StronglySorted by_date (insert_visit v l) ∧ insert_visit v l ≡ₚ v :: l.
Proof.
  induction 1 as [|w l Hl [IHs IHp] Hw]; [by repeat constructor|]. cbn. destruct (String.ltb (VDate w) (VDate v)) eqn:Hlt.
  - split; [|rewrite IHp; constructor]. constructor; [done|]. rewrite IHp. constructor; [|done].
    unfold String.ltb, String.leb in *. by destruct (String.compare _ _).
  - apply string_ltb_leb in Hlt. split; [|done]. constructor; [by constructor|]. constructor; [done|].
    eapply Forall_impl; [exact Hw|]. intros x Hx. by eapply string_leb_trans.
Qed.
Lemma sort_visits_spec l : StronglySorted by_date (sort_visits l) ∧ sort_visits l ≡ₚ l.
Proof.
  induction l as [|v l [IHs IHp]]; [by repeat constructor|]. cbn. destruct (insert_visit_spec v (sort_visits l) IHs) as [Hs Hp].
  split; [done|]. by rewrite Hp, IHp.
Qed.

(** Which visits are coming.  Whatever bookings and jobs are listed: the visits shown are
    in the order of their dates, a booking gives at most one, and one exactly when some job
    of the list stands for it - a booking job of the same account and sign-in that may still
    book, or that booked what its snapshot says, for a date that is not over at the lake; it
    leads to the first such job of the list, the newest. *)
Theorem upcoming_visits_exactly `{TimeZoneDB} bookings jobs now :
  let byID := by_key BID bookings in
  let shown := upcomingVisits bookings jobs now in
  StronglySorted by_date shown ∧
  ∃ picked, shown ≡ₚ (shown_visit <$> picked) ∧ NoDup ((BID ∘ snd) <$> picked) ∧
    (∀ p, p ∈ picked → first_for now byID jobs p.1 p.2) ∧
    (∀ job b, job ∈ jobs → stands_for now byID job b → BID b ∈ (BID ∘ snd) <$> picked).
Proof.
  cbv zeta. unfold upcomingVisits. destruct (collect_visits_spec now (by_key BID bookings) jobs ∅) as (picked & -> & Hnd & Hfirst & Hall).
  destruct (sort_visits_spec (shown_visit <$> picked)) as [Hs Hp]. split; [done|]. exists picked. split_and!; [done..| |].
  - intros p Hin. by apply Hfirst.
  - intros job b Hj Hst. apply (Hall job b); [done..|set_solver].
Qed.
